(* ===== verification/_CoqProject ===== *)
-Q . S2P
Prelude.v
Utf8.v
IpcApi.v
Quota.v
Timer.v
AuditLog.v
AuditFacts.v
Facade.v
Address.v
Allocators.v
PageTable.v
PageTableFacts.v
UserAccess.v
UserAccessFacts.v
Pipe.v
PipeFacts.v
MemorySet.v
MemorySetInv.v
MemorySetSpec.v
MemorySetFork.v
FrameWorldInv.v
KernelSpace.v
Signals.v
Task.v
Kernel.v
SyscallFs.v
FdFacts.v
SignalHandling.v
SyscallProcess.v
SyscallAudit.v
Trap.v
KernelInv.v
SyscallInv.v
PipeCallFacts.v
ProcessInv.v
LifecycleInv.v
TrapInv.v
CallSpecs.v
AuditCallFacts.v
KernelPipe.v
ExampleKernel.v
Security.v
SignalFacts.v
Witnesses.v
EfsCache.v
EfsCacheFacts.v
EfsWords.v
EfsBitmap.v
EfsLayout.v
EfsInodeFacts.v
EfsGrow.v
EfsFileFacts.v
EfsVfs.v
EfsAlloc.v
EfsInv.v
EfsOps.v
EfsDir.v
EfsMkfs.v
EfsSpec.v
EfsKernel.v
EfsExample.v
AuditCtl.v
AuditCtlFacts.v
UserLib.v
UserAbi.v
UserShell.v
UserShellFacts.v
UserTests.v
AuditCtlKernel.v
UserExample.v
ExecArgs.v
ExecSpec.v
KernelMem.v
SyscallMem.v
ForkSpec.v
LifecycleMem.v
Isolation.v
Boot.v
FsPack.v
MemoryExample.v
