(* ===== verification/Prelude.v ===== *)
(** * rCore with secure IPC: a verified model of the kernel and its file system

    The program is a small Unix-like kernel for one RISC-V hart ([os/src]), a
    file system crate ([easy-fs/src]) and user programs.  What sets the kernel
    apart is its IPC security layer: every pipe and signal operation is
    authorized against the credentials of the caller, charged to a quota and
    recorded in an audit log that privileged programs can read.

    ** How the parts interact

    A trap enters [trap_handler], which dispatches system calls.  A call reads
    the running task's control block, moves data through the user's page
    tables, and, for pipes and signals, goes through the facade: [preflight]
    (policy, then quota) before the operation, [complete] (commit or roll back,
    then audit) after it.  Blocking calls give up the hart to the other tasks
    and resume later.  Files live in easy-fs, which keeps its blocks in a cache
    in front of a block device.

    ** Files of the development

    Shared: [Prelude] (machine integers, the [outcome] monad of results, panics
    and loops that do not end, bounded loops, bytes), [Utf8].

    IPC security: [IpcApi] ([security/api.rs], [credentials.rs], [policy.rs]),
    [Quota] ([quota.rs]), [AuditLog] and [AuditFacts] ([audit.rs]), [Facade]
    ([security/mod.rs]), [Timer] ([timer.rs]).

    Memory: [Address] ([mm/address.rs], [config.rs]), [Allocators] (frames and
    PIDs), [PageTable] and [PageTableFacts], [UserAccess] and [UserAccessFacts]
    ([mm/page_table.rs], [mm/user_access.rs]), [MemorySet] ([mm/memory_set.rs]);
    [MemorySetInv] (areas against page table and frames), [MemorySetSpec] (a
    space as a list of regions; [push] and [from_elf]), [MemorySetFork] (copies,
    and frames given back), [KernelSpace] (the kernel's own space).

    Processes and files: [Pipe] and [PipeFacts] ([fs/pipe.rs]), [Signals]
    ([task/signal.rs], [action.rs], trap and task contexts), [Task]
    ([task/task.rs]), [Kernel] (scheduler, open files, standard streams),
    [SyscallFs], [SyscallProcess], [SyscallAudit] ([syscall/]),
    [SignalHandling] ([task/mod.rs]), [Trap] (dispatch and trap handler),
    [Boot] ([main.rs], [mm/mod.rs]: from the frame allocator to [initproc]),
    [FsPack] ([easy-fs-fuse]: the image the board boots from).

    Proofs about them: [FdFacts] (descriptor table against quota), [KernelInv],
    [SyscallInv], [PipeCallFacts], [ProcessInv], [LifecycleInv], [TrapInv] (the
    process-table invariant), [CallSpecs], [AuditCallFacts], [KernelPipe],
    [Security], [SignalFacts] (what calls do), [ExampleKernel] and [Witnesses]
    (a concrete kernel and the theorems applied to it).  The memory of all
    processes at once: [FrameWorldInv] (who owns which frame), [KernelMem] (the
    invariant [mem_inv]), [SyscallMem], [ForkSpec] and [LifecycleMem] (calls,
    [fork], [exec], exit and [waitpid] keep it), [Isolation] (every reachable
    state).

    The file system: [EfsCache] and [EfsCacheFacts] ([block_dev.rs],
    [block_cache.rs]), [EfsWords] (blocks as words), [EfsBitmap]
    ([bitmap.rs]), [EfsLayout] ([layout.rs]), [EfsInodeFacts], [EfsGrow] and
    [EfsFileFacts] (disk inodes), [EfsVfs] ([efs.rs], [vfs.rs]), [EfsAlloc]
    (the data allocator), [EfsInv] (the file system invariant), [EfsOps] and
    [EfsDir] (the operations of [vfs.rs] under it), [EfsMkfs] (formatting and
    opening), [EfsSpec] (the abstract directory and the theorems about it),
    [EfsKernel] (easy-fs as the file system of the kernel, [fs/inode.rs]);
    [EfsExample] applies the theorems to a disk in memory.

    The user side: [UserLib] ([user/src/lib.rs], [syscall.rs], [console.rs],
    [lang_items.rs]), [UserAbi] (the library on the kernel),
    [AuditCtl] and [AuditCtlFacts] ([audit.rs], [bin/auditctl.rs]),
    [AuditCtlKernel] (the viewer on the kernel), [ExecArgs] and [ExecSpec]
    ([exec] together with the start code of the library), [UserShell] and
    [UserShellFacts] ([bin/user_shell.rs], [bin/initproc.rs]: the parser, and
    the descriptors of a pipeline), [UserTests] ([bin/usertests.rs]);
    [UserExample] and [MemoryExample] apply the theorems.

    ** How code becomes definitions

    A Rust [usize] or [u32] is a [Z] in its range; arithmetic that may leave the
    range is wrapped explicitly ([wrap 64], [wrap 32]), since the kernel is
    built in release mode, and [debug_assert!] is compiled out.  A function that
    can panic returns an [outcome]: [Ret v], [Panic], or [OutOfFuel] for a loop
    that has not ended.  A structure behind a lock or an [UPSafeCell] is a field
    of a state that the functions thread; a method on [&mut self] returns the
    new value.  Shared objects (tasks, pipe rings, open files, cached blocks)
    are keys into maps of that state, so aliasing is kept.  Physical memory is a
    map from addresses to bytes; page tables, trap contexts and on-disk
    structures are the bytes the code stores there.

    Concurrency is interleaving at the points where a task suspends: an
    operation that can suspend takes the list of state changes the other tasks
    make, one per suspension, and the theorems quantify over these lists.  The
    clock readings, the console input and the ELF reader are parameters.

    ** What the theorems show

    The security core: the policy decides as its table says
    ([authorize_decision_table]); the facade logs each request once and undoes
    the quota of a failure ([facade_logs_once_and_rolls_back]); the audit ring
    refines an append-only log ([audit_ring_refines_log], with snapshots,
    statistics and record encoding); a process that dropped root stays confined
    ([dropped_privilege_confined]).

    The kernel: every reachable state satisfies the process-table invariant
    ([reachable_kinv]).  Memory is isolated in every reachable state
    ([reachable_isolation]): a byte a program can reach is in a frame of its
    own, and belongs to no other program, page table, trap context or kernel
    stack.  Its premises are those of the code: PIDs up to [2^24], so that
    kernel stacks have room, frames left for what a step allocates, and
    well-formed program images.  [rust_main] reaches such a state, with
    [initproc] loaded and ready ([boot_ready]), from the disk image that the
    tool of the build makes of its files ([packed_image_boots]); the kernel maps its own image
    one to one, each section with its permissions ([new_kernel_identity]);
    [fork] returns the child's PID in the parent and 0 in a child that is a copy
    with memory of its own ([fork_returns_twice]).  Page tables refine a finite
    map ([page_table_refines_map]); copies between kernel and user memory are exact
    or fail; pipes deliver byte streams in order under any interleaving; the
    calls [kill], [setuid], [close], [dup], [pipe], [audit_read] and [ipc_stat]
    are specified on every branch; loading a program gives the address space
    its image describes ([from_elf_loads_program]), [fork] copies an address
    space to frames of its own ([fork_copies_address_space]), its frames come
    back exactly once ([address_space_frames_returned]), and [exec] replaces
    program and memory and hands the arguments over ([exec_replaces_program]);
    signal delivery and [sigreturn] restore the
    interrupted context, and two theorems pin down where the code falls short:
    a stopped process with an unhandled signal pending takes none above it, not
    even SIGKILL ([frozen_process_stuck]), and a signal inside a handler loses
    the interrupted context ([nested_signal_loses_context]).

    The file system: the block cache refines the disk
    ([block_cache_refines_disk]); a bitmap refines a set of numbers
    ([bitmap_refines_set]); growing, writing, reading and clearing a disk inode
    act on the list of its blocks ([increase_size_appends],
    [disk_inode_write_read], [clear_size_returns_owned]).  On top of these, the
    whole of easy-fs refines an abstract directory of files
    ([easy_fs_refines_tree]), formatting gives the empty one ([mkfs_then_open]),
    updates survive a new mount ([updates_survive_remount]), and the kernel's
    open files read and write it ([open_file_refines_tree],
    [os_inode_read_delivers], [file_create_write_read]).  Two theorems show how
    long names bring the kernel down ([create_long_name_panics],
    [name_of_28_bytes_jams]).

    User programs: the library and the kernel agree on every call
    ([user_abi_matches_kernel]); the audit viewer ends whatever the kernel
    returns to it ([auditctl_returns]), and against a kernel that keeps its
    promises it shows every event or reports the gap
    ([auditctl_reads_without_silent_loss]); this kernel keeps them
    ([auditctl_on_kernel_loses_nothing_silently]).  The shell parses
    every command of its grammar ([shell_parses_redirections]), gives each
    command of a pipeline the right pipe ends and no other
    ([pipeline_child_wiring]), and panics on exactly the lines with a
    redirection without a file ([redirection_without_file_panics]) and on a
    ninth command ([ninth_command_panics]); the test suite succeeds only if
    every test ran and left its exit code ([suite_success]).

    ** Bounds and fuel

    Loops over a range recurse on the list of its elements.  [while_loop] takes
    a number of rounds; each use passes a bound computed from the input (pages
    of a range, bytes of a buffer, blocks of a file) and the specifications show
    that it is enough, by giving the result and not only its shape.  The pipe
    loops are bounded by the bytes asked for and the suspensions supplied; a
    call that still waits when the list of suspensions ends has no result,
    which is how blocking for ever shows.

    ** Not modelled

    Assembly (the trap entry and return path, [__switch]), CSR writes and TLB
    flushes; the heap, virtio and SBI drivers, device tree, logging and panic
    output, which are third-party code or firmware calls;
    [frame_allocator_test].  Of the user side, the heap and [core::fmt], and the
    small programs under [user/src/bin] that test one call each; the command line
    of the image tool; the host tests. *)
From stdpp Require Export base decidable option list list_numbers numbers gmap sets fin_maps.
From Stdlib Require Export ZArith Lia.

Set Default Goal Selector "!".
#[global] Open Scope Z_scope.
#[global] Arguments Z.testbit : simpl never.
#[global] Arguments Z.land : simpl never.
#[global] Arguments Z.lor : simpl never.
#[global] Arguments Z.lxor : simpl never.
#[global] Arguments Z.shiftl : simpl never.
#[global] Arguments Z.shiftr : simpl never.
#[global] Arguments Z.pow : simpl never.
#[global] Arguments Z.div : simpl never.
#[global] Arguments Z.modulo : simpl never.
#[global] Arguments Z.mul : simpl never.
#[global] Arguments Z.add : simpl never.
#[global] Arguments Z.sub : simpl never.

(** ** Machine integers

    A [w]-bit unsigned integer is a [Z] in [[0, 2^w)].  The kernel is built in
    release mode, so plain [+], [-] and [*] wrap around; the [checked_*] and
    [saturating_*] methods of the Rust core library are the functions below. *)

Definition in_width (w z : Z) : Prop := 0 <= z < 2 ^ w.
Definition wrap (w z : Z) : Z := z mod 2 ^ w.

#[export] Instance in_width_dec w z : Decision (in_width w z).
Proof. unfold in_width. apply _. Defined.

Definition U64_MAX : Z := 2 ^ 64 - 1.
Definition U32_MAX : Z := 2 ^ 32 - 1.

Definition checked_add (w a b : Z) : option Z :=
  if a + b <? 2 ^ w then Some (a + b) else None.
Definition checked_mul (w a b : Z) : option Z :=
  if a * b <? 2 ^ w then Some (a * b) else None.
Definition checked_sub (a b : Z) : option Z :=
  if b <=? a then Some (a - b) else None.
Definition saturating_sub (a b : Z) : Z := Z.max 0 (a - b).

(** [x as iN] for an unsigned [N]-bit [x], and the cast back. *)
Definition to_signed (w z : Z) : Z := if z <? 2 ^ (w - 1) then z else z - 2 ^ w.
Definition of_signed (w z : Z) : Z := z mod 2 ^ w.

(** [!x] on a [w]-bit unsigned integer. *)
Definition bit_not (w z : Z) : Z := Z.land (Z.lnot z) (Z.ones w).

(** [bitflags!] types and [CapabilitySet] are their bits; [contains] asks that
    every bit of [other] is set. *)
Definition bits_contains (self other : Z) : bool := Z.land self other =? other.

(** ** Error results and panics *)

Inductive result (E A : Type) : Type :=
| Ok (a : A)
| Err (e : E).
Arguments Ok {E A} a.
Arguments Err {E A} e.

Definition is_ok {E A} (r : result E A) : bool :=
  match r with Ok _ => true | Err _ => false end.

Definition ok_or {E A} (o : option A) (e : E) : result E A :=
  match o with Some a => Ok a | None => Err e end.

#[export] Instance result_ret E : MRet (result E) := fun A a => Ok a.
#[export] Instance result_bind E : MBind (result E) := fun A B k r =>
  match r with Ok a => k a | Err e => Err e end.

(** A computation of the kernel either returns or panics (a failed [assert!],
    [unwrap], [expect], index out of range or explicit [panic!]).  A loop is
    modelled with a fuel argument, and [OutOfFuel] marks a run that was cut
    short: theorems about loops show that it does not occur. *)
Inductive outcome (A : Type) : Type :=
| Ret (a : A)
| Panic
| OutOfFuel.
Arguments Ret {A} a.
Arguments Panic {A}.
Arguments OutOfFuel {A}.

#[export] Instance outcome_ret : MRet outcome := fun A a => Ret a.
#[export] Instance outcome_bind : MBind outcome := fun A B k m =>
  match m with Ret a => k a | Panic => Panic | OutOfFuel => OutOfFuel end.

(** [loop { .. }]: the body either goes on with a new state or leaves the loop
    with a result. *)
Fixpoint while_loop {S R} (fuel : nat) (body : S -> outcome (S + R)) (s : S) : outcome R :=
  match fuel with
  | O => OutOfFuel
  | S fuel' =>
      x ← body s;
      match x with
      | inl s' => while_loop fuel' body s'
      | inr r => Ret r
      end
  end.

Definition unwrap {A} (o : option A) : outcome A :=
  match o with Some a => Ret a | None => Panic end.

Definition assert_ (b : bool) : outcome unit := if b then Ret tt else Panic.

(** Array read and write: [a[i]] panics when [i] is out of range. *)
Definition index {A} (l : list A) (i : Z) : outcome A :=
  unwrap (l !! Z.to_nat i).
Definition update {A} (l : list A) (i : Z) (x : A) : outcome (list A) :=
  if (Z.to_nat i <? length l)%nat then Ret (<[Z.to_nat i := x]> l) else Panic.

(** ** Little-endian bytes *)

Definition le_bytes (n z : Z) : list Z := Z_to_little_endian n 8 z.
Definition le_value (bs : list Z) : Z := little_endian_to_Z 8 bs.

(** ** Tactics

    [inv_step] consumes an equation between a monadic computation and a value
    one bind at a time; [bool_lia] turns boolean comparisons into arithmetic. *)

Ltac bool_lia :=
  repeat match goal with
  | H : (_ <? _) = true |- _ => apply Z.ltb_lt in H
  | H : (_ <? _) = false |- _ => apply Z.ltb_ge in H
  | H : (_ <=? _) = true |- _ => apply Z.leb_le in H
  | H : (_ <=? _) = false |- _ => apply Z.leb_gt in H
  | H : (_ =? _) = true |- _ => apply Z.eqb_eq in H
  | H : (_ =? _) = false |- _ => apply Z.eqb_neq in H
  | H : negb _ = true |- _ => apply negb_true_iff in H
  | H : negb _ = false |- _ => apply negb_false_iff in H
  | H : (_ && _)%bool = true |- _ => apply andb_true_iff in H as [? ?]
  | H : (_ || _)%bool = false |- _ => apply orb_false_iff in H as [? ?]
  end; try lia.

Ltac case_if :=
  match goal with
  | |- context [if ?b then _ else _] => let E := fresh "E" in destruct b eqn:E
  | H : context [if ?b then _ else _] |- _ => let E := fresh "E" in destruct b eqn:E
  end.

(** Linear arithmetic with division and modulo by constants. *)
Ltac lia_mod := Z.div_mod_to_equations; lia.

Create HintDb rcore discriminated.

(** ** Arithmetic lemmas *)

Lemma checked_add_Some w a b c :
  checked_add w a b = Some c <-> c = a + b /\ a + b < 2 ^ w.
Proof.
  unfold checked_add. destruct (Z.ltb_spec (a + b) (2 ^ w)); naive_solver lia.
Qed.

Lemma checked_add_None w a b : checked_add w a b = None <-> 2 ^ w <= a + b.
Proof.
  unfold checked_add. destruct (Z.ltb_spec (a + b) (2 ^ w)); naive_solver lia.
Qed.

Lemma checked_mul_Some w a b c :
  checked_mul w a b = Some c <-> c = a * b /\ a * b < 2 ^ w.
Proof.
  unfold checked_mul. destruct (Z.ltb_spec (a * b) (2 ^ w)); naive_solver lia.
Qed.

Lemma wrap_small w z : in_width w z -> wrap w z = z.
Proof. intros H. by apply Z.mod_small. Qed.

Lemma wrap_in_width w z : 0 <= w -> in_width w (wrap w z).
Proof. intros Hw. apply Z.mod_pos_bound. lia. Qed.

(** ** Bits of a one-word set *)

Lemma testbit_one_shift i j :
  0 <= i -> 0 <= j -> Z.testbit (Z.shiftl 1 i) j = bool_decide (i = j).
Proof.
  intros Hi Hj. rewrite Z.shiftl_1_l.
  case_bool_decide as E; [subst; by apply Z.pow2_bits_true|].
  by apply Z.pow2_bits_false.
Qed.

Lemma testbit_set_bit m i j :
  0 <= i -> 0 <= j ->
  Z.testbit (Z.lor m (Z.shiftl 1 i)) j = (bool_decide (i = j) || Z.testbit m j)%bool.
Proof.
  intros. rewrite Z.lor_spec, testbit_one_shift by lia. apply orb_comm.
Qed.

Lemma testbit_bit_not w z j :
  0 <= j -> 0 <= w -> Z.testbit (bit_not w z) j = (negb (Z.testbit z j) && (j <? w))%bool.
Proof.
  intros. unfold bit_not. rewrite Z.land_spec, Z.lnot_spec by lia.
  by rewrite Z.testbit_ones_nonneg.
Qed.

Lemma testbit_clear_bit w m i j :
  0 <= i < w -> 0 <= j -> in_width w m ->
  Z.testbit (Z.land m (bit_not w (Z.shiftl 1 i))) j
  = (negb (bool_decide (i = j)) && Z.testbit m j)%bool.
Proof.
  intros Hi Hj Hm. rewrite Z.land_spec, testbit_bit_not, testbit_one_shift by lia.
  destruct (Z.ltb_spec j w) as [Hlt|Hge]; [by rewrite andb_true_r, andb_comm|].
  rewrite andb_false_r, andb_false_r.
  rewrite (Z.bits_above_log2 m j), andb_false_r; [done|unfold in_width in *; lia|].
  unfold in_width in Hm. destruct (decide (m = 0)) as [->|]; [simpl; lia|].
  apply Z.log2_lt_pow2; [lia|].
  apply Z.lt_le_trans with (2 ^ w); [lia|]. by apply Z.pow_le_mono_r.
Qed.

Lemma land_one_shift m i :
  0 <= i -> negb (Z.land m (Z.shiftl 1 i) =? 0) = Z.testbit m i.
Proof.
  intros Hi. rewrite Z.shiftl_1_l.
  destruct (Z.testbit m i) eqn:E.
  - apply negb_true_iff, Z.eqb_neq. intros H0.
    assert (Hb : Z.testbit (Z.land m (2 ^ i)) i = true)
      by (rewrite Z.land_spec, E; by rewrite Z.pow2_bits_true).
    by rewrite H0, Z.bits_0 in Hb.
  - apply negb_false_iff, Z.eqb_eq. apply Z.bits_inj'. intros j Hj.
    rewrite Z.land_spec, Z.bits_0. destruct (decide (i = j)) as [->|Hne].
    + by rewrite E.
    + rewrite Z.pow2_bits_false by done. apply andb_false_r.
Qed.

Lemma bits_contains_bit f i : 0 <= i -> bits_contains f (Z.shiftl 1 i) = Z.testbit f i.
Proof.
  intros Hi. unfold bits_contains. destruct (Z.testbit f i) eqn:E.
  - apply Z.eqb_eq, Z.bits_inj'. intros j Hj. rewrite Z.land_spec, testbit_one_shift by done.
    case_bool_decide; subst; [by rewrite E|apply andb_false_r].
  - apply Z.eqb_neq. intros H. apply (f_equal (fun z => Z.testbit z i)) in H.
    rewrite Z.land_spec, E in H. rewrite testbit_one_shift, bool_decide_eq_true_2 in H by done.
    done.
Qed.

Lemma lor_in_width w a b : 0 <= w -> in_width w a -> in_width w b -> in_width w (Z.lor a b).
Proof.
  unfold in_width. intros Hw Ha Hb. split; [apply Z.lor_nonneg; lia|].
  destruct (decide (Z.lor a b = 0)) as [->|Hne]; [lia|].
  assert (0 <= Z.lor a b) by (apply Z.lor_nonneg; lia).
  apply Z.log2_lt_pow2; [lia|]. rewrite Z.log2_lor by lia.
  assert (forall x, 0 <= x < 2 ^ w -> 0 < w -> Z.log2 x < w) as Hl.
  { intros x Hx Hw'. destruct (decide (x = 0)) as [->|]; [simpl; lia|].
    apply Z.log2_lt_pow2; lia. }
  destruct (decide (w = 0)) as [->|].
  { assert (a = 0) by lia. assert (b = 0) by lia. subst. done. }
  apply Z.max_lub_lt; apply Hl; lia.
Qed.

Lemma land_in_width w a b : in_width w a -> 0 <= b -> in_width w (Z.land a b).
Proof.
  unfold in_width. intros Ha Hb. destruct (decide (w < 0)) as [Hw|Hw].
  { rewrite Z.pow_neg_r in Ha by lia. lia. }
  replace (Z.land a b) with (Z.land a b mod 2 ^ w); [apply Z.mod_pos_bound; lia|].
  rewrite <- Z.land_ones by lia. rewrite <- Z.land_assoc, (Z.land_comm b), Z.land_assoc.
  by rewrite Z.land_ones, (Z.mod_small a) by lia.
Qed.

Lemma testbit_high w z i : 0 <= w <= i -> in_width w z -> Z.testbit z i = false.
Proof.
  intros Hi [Hz1 Hz2]. destruct (decide (z = 0)) as [->|]; [apply Z.bits_0|].
  apply Z.bits_above_log2; [lia|]. apply Z.lt_le_trans with w; [|lia].
  apply Z.log2_lt_pow2; lia.
Qed.

(** Packing a low field next to a shifted one. *)
Lemma land_shiftl_low x y k : 0 <= k -> in_width k y -> Z.land (Z.shiftl x k) y = 0.
Proof.
  intros Hk Hy. apply Z.bits_inj'. intros i Hi. rewrite Z.land_spec, Z.bits_0.
  destruct (Z.ltb_spec i k); [by rewrite Z.shiftl_spec_low by lia|].
  by rewrite (testbit_high k y i), andb_false_r by (done || lia).
Qed.

Lemma lor_shiftl_add x y k :
  0 <= k -> in_width k y -> Z.lor (Z.shiftl x k) y = x * 2 ^ k + y.
Proof.
  intros Hk Hy. pose proof (land_shiftl_low x y k Hk Hy) as H0.
  rewrite <- Z.lxor_lor by done. rewrite <- Z.add_nocarry_lxor by done.
  by rewrite Z.shiftl_mul_pow2.
Qed.

(** ** Array access *)

Lemma index_Ret {A} (l : list A) i x : l !! Z.to_nat i = Some x -> index l i = Ret x.
Proof. unfold index. by intros ->. Qed.

Lemma update_Ret {A} (l : list A) i x :
  0 <= i < Z.of_nat (length l) -> update l i x = Ret (<[Z.to_nat i := x]> l).
Proof.
  intros Hi. unfold update. destruct (Nat.ltb_spec (Z.to_nat i) (length l)); [done|lia].
Qed.

Lemma length_le_bytes n z : 0 <= n -> length (le_bytes n z) = Z.to_nat n.
Proof. intros. pose proof (length_Z_to_little_endian n 8 z). unfold le_bytes. lia. Qed.

Lemma le_bytes_value n z : 0 <= n -> in_width (8 * n) z -> le_value (le_bytes n z) = z.
Proof.
  intros Hn Hz. unfold le_value, le_bytes. rewrite little_endian_to_Z_to_little_endian by lia.
  rewrite Z.mul_comm. by apply Z.mod_small.
Qed.

Lemma le_bytes_range n z : 0 <= n -> Forall (in_width 8) (le_bytes n z).
Proof. intros. by apply Z_to_little_endian_bound. Qed.

(** ** Loops *)

(** A loop whose body keeps an invariant and decreases a measure returns, and
    what it returns satisfies the body's postcondition. *)
Lemma while_loop_spec {S R} (body : S -> outcome (S + R)) (Inv : S -> Prop)
    (m : S -> nat) (Post : R -> Prop) :
  (forall s, Inv s -> exists x, body s = Ret x /\
     match x with inl s' => Inv s' /\ (m s' < m s)%nat | inr r => Post r end) ->
  forall fuel s, Inv s -> (m s < fuel)%nat ->
  exists r, while_loop fuel body s = Ret r /\ Post r.
Proof.
  intros Hbody fuel. induction fuel as [|fuel IH]; intros s Hi Hm; [lia|]. cbn.
  destruct (Hbody s Hi) as ([s'|r] & -> & Hx); cbn; [|by eauto].
  destruct Hx. apply IH; [done|lia].
Qed.

(** ** Panic-free chaining *)

Lemma bind_Ret_inv {A B} (m : outcome A) (k : A -> outcome B) b :
  m ≫= k = Ret b -> exists a, m = Ret a /\ k a = Ret b.
Proof. destruct m; naive_solver. Qed.

(** A value in the non-negative half of a signed type is kept by the cast. *)
Lemma to_signed_small w z : z < 2 ^ (w - 1) -> to_signed w z = z.
Proof. intros H. unfold to_signed. by rewrite (proj2 (Z.ltb_lt _ _) H). Qed.
