(* ===== verification/Utf8.v ===== *)
(** * UTF-8

    What the sources use of [core::str]: the check of [from_utf8], which
    decodes a byte string into code points, and the encoding of the code points
    below 256 that [b as char] produces. *)
From S2P Require Import Prelude.

(** [core::str::from_utf8], decoded into code points; [None] on invalid input. *)
Definition cont_byte (b : Z) : bool := (0x80 <=? b) && (b <=? 0xbf).

Fixpoint from_utf8 (fuel : nat) (bs : list Z) : option (list Z) :=
  match fuel with
  | O => None
  | S fuel' =>
      match bs with
      | [] => Some []
      | b0 :: r0 =>
          if b0 <? 0x80 then (fun t => b0 :: t) <$> from_utf8 fuel' r0
          else if b0 <? 0xc2 then None
          else match r0 with
          | [] => None
          | b1 :: r1 =>
              if b0 <? 0xe0 then
                if cont_byte b1
                then (fun t => (b0 - 0xc0) * 64 + (b1 - 0x80) :: t) <$> from_utf8 fuel' r1
                else None
              else match r1 with
              | [] => None
              | b2 :: r2 =>
                  if b0 <? 0xf0 then
                    if cont_byte b1 && cont_byte b2
                       && negb ((b0 =? 0xe0) && (b1 <? 0xa0))
                       && negb ((b0 =? 0xed) && (0xa0 <=? b1))
                    then (fun t => (b0 - 0xe0) * 4096 + (b1 - 0x80) * 64 + (b2 - 0x80) :: t)
                           <$> from_utf8 fuel' r2
                    else None
                  else match r2 with
                  | [] => None
                  | b3 :: r3 =>
                      if (b0 <=? 0xf4) && cont_byte b1 && cont_byte b2 && cont_byte b3
                         && negb ((b0 =? 0xf0) && (b1 <? 0x90))
                         && negb ((b0 =? 0xf4) && (0x90 <=? b1))
                      then (fun t => (b0 - 0xf0) * 262144 + (b1 - 0x80) * 4096
                                     + (b2 - 0x80) * 64 + (b3 - 0x80) :: t)
                             <$> from_utf8 fuel' r3
                      else None
                  end
              end
          end
      end
  end.

(** [String::push] of a [char] below 256: the bytes it adds. *)
Definition encode_char (c : Z) : list Z :=
  if c <? 0x80 then [c] else [0xc0 + c / 64; 0x80 + c mod 64].

Definition encode_chars (cs : list Z) : list Z := concat (encode_char <$> cs).

Lemma from_utf8_encode cs fuel :
  Forall (in_width 8) cs -> (length (encode_chars cs) < fuel)%nat -> from_utf8 fuel (encode_chars cs) = Some cs.
Proof.
  intros Hcs. revert fuel. induction Hcs as [|c cs Hc Hcs IH]; intros fuel Hf; [destruct fuel; [cbn in Hf; lia|done]|].
  unfold encode_chars in *. cbn [fmap list_fmap concat] in *. rewrite length_app in Hf. unfold in_width in Hc.
  destruct fuel as [|fuel]; [lia|]. unfold encode_char in *. destruct (Z.ltb_spec c 0x80) as [Hlo|Hhi]; cbn [app length] in *.
  - cbn [from_utf8]. destruct (Z.ltb_spec c 0x80); [|lia]. rewrite IH by lia. done.
  - cbn [from_utf8]. destruct (Z.ltb_spec (0xc0 + c / 64) 0x80); [lia_mod|].
    destruct (Z.ltb_spec (0xc0 + c / 64) 0xc2); [lia_mod|]. destruct (Z.ltb_spec (0xc0 + c / 64) 0xe0); [|lia_mod].
    unfold cont_byte. destruct (Z.leb_spec 0x80 (0x80 + c mod 64)); [|lia_mod].
    destruct (Z.leb_spec (0x80 + c mod 64) 0xbf); [|lia_mod]. cbn [andb]. rewrite IH by lia. cbn. do 2 f_equal. lia_mod.
Qed.
