(* ===== verification/IpcApi.v ===== *)
(** * Shared security types, credentials and the authorization policy

    Models [os/src/security/api.rs], [credentials.rs] and [policy.rs]. *)
From S2P Require Import Prelude.

(** ** [api.rs]: the data types shared by the security modules *)

Module Api.

(** [CapabilitySet(u32)]. *)
Record CapabilitySet : Type := mkCaps { cap_bits : Z }.

Definition cap_empty : CapabilitySet := mkCaps 0.
Definition KILL : CapabilitySet := mkCaps (Z.shiftl 1 0).
Definition IPC_ADMIN : CapabilitySet := mkCaps (Z.shiftl 1 1).
Definition AUDIT_READ : CapabilitySet := mkCaps (Z.shiftl 1 2).

Definition contains (self required : CapabilitySet) : bool :=
  bits_contains (cap_bits self) (cap_bits required).

Definition cap_all : CapabilitySet :=
  mkCaps (Z.lor (Z.lor (cap_bits KILL) (cap_bits IPC_ADMIN)) (cap_bits AUDIT_READ)).

Inductive IpcOperation : Type :=
| SignalSend
| PipeCreate
| PipeRead
| PipeWrite
| AuditRead.

Record IpcSubject : Type := mkSubject {
  subject_pid : Z;
  subject_uid : Z;
  subject_capabilities : CapabilitySet;
}.

Record IpcObject : Type := mkObject {
  object_id : Z;
  object_owner_uid : Z;
}.

Record IpcRequest : Type := mkRequest {
  req_subject : IpcSubject;
  req_object : IpcObject;
  req_operation : IpcOperation;
  req_amount : Z;
}.

Inductive IpcError : Type :=
| PermissionDenied
| InvalidAddress
| InvalidArgument
| ProcessNotFound
| TooManyFiles
| ResourceExhausted
| TryAgain.

Abbreviation IpcResult := (result IpcError).

#[export] Instance CapabilitySet_eq_dec : EqDecision CapabilitySet.
Proof. solve_decision. Defined.
#[export] Instance IpcOperation_eq_dec : EqDecision IpcOperation.
Proof. solve_decision. Defined.
#[export] Instance IpcSubject_eq_dec : EqDecision IpcSubject.
Proof. solve_decision. Defined.
#[export] Instance IpcObject_eq_dec : EqDecision IpcObject.
Proof. solve_decision. Defined.
#[export] Instance IpcRequest_eq_dec : EqDecision IpcRequest.
Proof. solve_decision. Defined.
#[export] Instance IpcError_eq_dec : EqDecision IpcError.
Proof. solve_decision. Defined.

End Api.
Export Api.

(** ** [credentials.rs]: the per-process identity *)

Module Credentials.

Definition ROOT_UID : Z := 0.

Record Credentials : Type := mkCred {
  uid : Z;
  capabilities : CapabilitySet;
}.

Definition root : Credentials := {| uid := ROOT_UID; capabilities := cap_all |}.
Definition initial : Credentials := root.
Definition fork_from (parent : Credentials) : Credentials := parent.
Definition is_root (self : Credentials) : bool := uid self =? ROOT_UID.

#[export] Instance Credentials_eq_dec : EqDecision Credentials.
Proof. solve_decision. Defined.

(** The well-formedness every credential of a running process has: the UID is
    a [u32] and the capability set is a function of the UID (root has them
    all, everybody else none). *)
Definition cred_wf (c : Credentials) : Prop :=
  in_width 32 (uid c) /\
  capabilities c = (if uid c =? ROOT_UID then cap_all else cap_empty).

End Credentials.

(** ** [policy.rs]: who may do what *)

Module Policy.

Definition authorize_signal (request : IpcRequest) : IpcResult unit :=
  let subj := req_subject request in
  let obj := req_object request in
  if subject_pid subj =? object_id obj then Ok tt
  else if subject_uid subj =? object_owner_uid obj then Ok tt
  else if subject_uid subj =? 0 then Ok tt
  else if contains (subject_capabilities subj) KILL then Ok tt
  else Err PermissionDenied.

Definition authorize (request : IpcRequest) : IpcResult unit :=
  match req_operation request with
  | SignalSend => authorize_signal request
  | _ => Ok tt
  end.

(** The decision table of the documentation, as a proposition. *)
Definition signal_allowed (request : IpcRequest) : Prop :=
  let subj := req_subject request in
  let obj := req_object request in
  subject_pid subj = object_id obj \/
  subject_uid subj = object_owner_uid obj \/
  subject_uid subj = 0 \/
  Z.testbit (cap_bits (subject_capabilities subj)) 0 = true.

End Policy.

(** ** Theorems *)

Section Capabilities.
Import Credentials.

(** A one-bit capability is held exactly when its bit is set. *)
Lemma contains_bit c i :
  0 <= i -> contains c (mkCaps (Z.shiftl 1 i)) = Z.testbit (cap_bits c) i.
Proof.
  apply bits_contains_bit.
Qed.

Lemma contains_empty_false i : 0 <= i -> contains cap_empty (mkCaps (Z.shiftl 1 i)) = false.
Proof. intros. rewrite contains_bit by done. apply Z.bits_0. Qed.

Lemma cred_wf_initial : cred_wf initial.
Proof. split; [vm_compute; intuition congruence|done]. Qed.

(** With well-formed credentials a capability is never held by a non-root
    user, so every capability test reduces to the root test. *)
Lemma cred_wf_contains c i :
  cred_wf c -> 0 <= i < 3 ->
  contains (capabilities c) (mkCaps (Z.shiftl 1 i)) = is_root c.
Proof.
  intros [_ ->] Hi. rewrite contains_bit by lia. unfold is_root.
  destruct (uid c =? ROOT_UID); simpl; [|apply Z.bits_0].
  assert (i = 0 \/ i = 1 \/ i = 2) as [->|[->| ->]] by lia; done.
Qed.

End Capabilities.
#[export] Hint Resolve cred_wf_initial : rcore.

Section PolicyFacts.
Import Policy Credentials.

Lemma authorize_signal_spec r :
  authorize_signal r = Ok tt <-> signal_allowed r.
Proof.
  unfold authorize_signal, signal_allowed, KILL. rewrite contains_bit by lia.
  repeat case_if; bool_lia; naive_solver.
Qed.

Lemma authorize_err r e :
  authorize r = Err e -> e = PermissionDenied /\ req_operation r = SignalSend /\ ~ signal_allowed r.
Proof.
  intros H. assert (Hop : req_operation r = SignalSend).
  { unfold authorize in H. by destruct (req_operation r). }
  unfold authorize in H. rewrite Hop in H.
  split_and!; [|done|].
  - unfold authorize_signal in H. repeat case_if; simplify_eq; done.
  - intros Ha%authorize_signal_spec. by rewrite Ha in H.
Qed.

Lemma authorize_cases r : authorize r = Ok tt \/ authorize r = Err PermissionDenied.
Proof.
  destruct (authorize r) as [[]|e] eqn:E; [by left|right]. by apply authorize_err in E as [-> _].
Qed.

(** C22: [authorize] lets a request through exactly when it is not a signal, or
    the documented decision table allows it; every refusal is
    [PermissionDenied]. *)
Theorem authorize_decision_table r :
  (authorize r = Ok tt <-> (req_operation r = SignalSend -> signal_allowed r)) /\
  (authorize r = Ok tt \/ authorize r = Err PermissionDenied).
Proof.
  split.
  - unfold authorize. destruct (req_operation r) eqn:E; try naive_solver.
    rewrite authorize_signal_spec. naive_solver.
  - apply authorize_cases.
Qed.

(** Between users with well-formed credentials, a non-root process can
    signal exactly itself and the processes of its own UID: no capability
    escapes the root account. *)
Lemma nonroot_signal_iff c pid target_pid owner amount :
  cred_wf c -> uid c <> 0 ->
  let r := {| req_subject := {| subject_pid := pid; subject_uid := uid c;
                                subject_capabilities := capabilities c |};
              req_object := {| object_id := target_pid; object_owner_uid := owner |};
              req_operation := SignalSend; req_amount := amount |} in
  authorize r = Ok tt <-> (pid = target_pid \/ uid c = owner).
Proof.
  intros Hwf Hnr r. unfold authorize; cbn. rewrite authorize_signal_spec.
  unfold signal_allowed; cbn.
  assert (Hk : Z.testbit (cap_bits (capabilities c)) 0 = false).
  { rewrite <- contains_bit by lia. rewrite (cred_wf_contains c 0 Hwf) by lia.
    unfold is_root, ROOT_UID. by apply Z.eqb_neq. }
  rewrite Hk. naive_solver.
Qed.

End PolicyFacts.
