(* ===== verification/Quota.v ===== *)
(** * Per-process descriptor quota

    Models [os/src/security/quota.rs]: two counters and a bitmap of the
    descriptor numbers that are pipe endpoints.  [debug_assert!] is compiled
    out of the release build; that the assertions hold anyway is part of the
    theorems here and in [FdFacts]. *)
From S2P Require Import Prelude IpcApi.

Module Quota.

Definition MAX_OPEN_FILES : Z := 32.
Definition MAX_OPEN_PIPE_FDS : Z := 16.
Definition PIPE_ENDPOINTS_PER_PIPE : Z := 2.

Record QuotaState : Type := mkQuota {
  open_files : Z;
  open_pipes : Z;
  pipe_fd_mask : Z;
}.

Definition initial : QuotaState :=
  {| open_files := 3; open_pipes := 0; pipe_fd_mask := 0 |}.

Definition fork_from (parent : QuotaState) : QuotaState := parent.

Definition reserve_files (self : QuotaState) (amount : Z) : QuotaState * IpcResult unit :=
  match checked_add 64 (open_files self) amount with
  | None => (self, Err TooManyFiles)
  | Some next =>
      if MAX_OPEN_FILES <? next then (self, Err TooManyFiles)
      else ({| open_files := next; open_pipes := open_pipes self;
               pipe_fd_mask := pipe_fd_mask self |}, Ok tt)
  end.

Definition release_files (self : QuotaState) (amount : Z) : QuotaState :=
  {| open_files := saturating_sub (open_files self) amount;
     open_pipes := open_pipes self; pipe_fd_mask := pipe_fd_mask self |}.

Definition reserve_pipe_fds (self : QuotaState) (amount : Z) : QuotaState * IpcResult unit :=
  match checked_add 64 (open_files self) amount with
  | None => (self, Err TooManyFiles)
  | Some next_files =>
      if MAX_OPEN_FILES <? next_files then (self, Err TooManyFiles)
      else
        match checked_add 64 (open_pipes self) amount with
        | None => (self, Err ResourceExhausted)
        | Some next_pipes =>
            if MAX_OPEN_PIPE_FDS <? next_pipes then (self, Err ResourceExhausted)
            else ({| open_files := next_files; open_pipes := next_pipes;
                     pipe_fd_mask := pipe_fd_mask self |}, Ok tt)
        end
  end.

Definition release_pipe_fds (self : QuotaState) (amount : Z) : QuotaState :=
  {| open_files := saturating_sub (open_files self) amount;
     open_pipes := saturating_sub (open_pipes self) amount;
     pipe_fd_mask := pipe_fd_mask self |}.

Definition set_mask (self : QuotaState) (m : Z) : QuotaState :=
  {| open_files := open_files self; open_pipes := open_pipes self; pipe_fd_mask := m |}.

Definition register_pipe_fd (self : QuotaState) (fd : Z) : QuotaState :=
  if fd <? 64 then set_mask self (Z.lor (pipe_fd_mask self) (Z.shiftl 1 fd)) else self.

Definition is_pipe_fd (self : QuotaState) (fd : Z) : bool :=
  if 64 <=? fd then false
  else negb (Z.land (pipe_fd_mask self) (Z.shiftl 1 fd) =? 0).

Definition reserve_dup_fd (self : QuotaState) (source_fd : Z) : QuotaState * IpcResult bool :=
  let is_pipe := is_pipe_fd self source_fd in
  let '(self', r) := if is_pipe then reserve_pipe_fds self 1 else reserve_files self 1 in
  match r with
  | Err e => (self', Err e)
  | Ok _ => (self', Ok is_pipe)
  end.

Definition unregister_pipe_fd (self : QuotaState) (fd : Z) : QuotaState :=
  if fd <? 64
  then set_mask self (Z.land (pipe_fd_mask self) (bit_not 64 (Z.shiftl 1 fd)))
  else self.

Definition release_fd (self : QuotaState) (fd : Z) : QuotaState :=
  let was_pipe := is_pipe_fd self fd in
  let mask :=
    if fd <? 64 then Z.land (pipe_fd_mask self) (bit_not 64 (Z.shiftl 1 fd))
    else pipe_fd_mask self in
  {| open_files := saturating_sub (open_files self) 1;
     open_pipes := if was_pipe then saturating_sub (open_pipes self) 1 else open_pipes self;
     pipe_fd_mask := mask |}.

Inductive QuotaReservationKind : Type := NoReservation | PipeFds.

Record QuotaReservation : Type := mkReservation {
  res_kind : QuotaReservationKind;
  res_amount : Z;
}.

Definition reserve (state : QuotaState) (request : IpcRequest)
    : QuotaState * IpcResult QuotaReservation :=
  match req_operation request with
  | PipeCreate =>
      let '(state', r) := reserve_pipe_fds state PIPE_ENDPOINTS_PER_PIPE in
      match r with
      | Err e => (state', Err e)
      | Ok _ => (state', Ok {| res_kind := PipeFds; res_amount := PIPE_ENDPOINTS_PER_PIPE |})
      end
  | _ => (state, Ok {| res_kind := NoReservation; res_amount := 0 |})
  end.

Definition finish (state : QuotaState) (reservation : QuotaReservation) (success : bool)
    : QuotaState :=
  if success then state
  else match res_kind reservation with
       | NoReservation => state
       | PipeFds => release_pipe_fds state (res_amount reservation)
       end.

#[export] Instance QuotaState_eq_dec : EqDecision QuotaState.
Proof. solve_decision. Defined.

(** The bounds every quota state of a process satisfies. *)
Definition quota_wf (q : QuotaState) : Prop :=
  0 <= open_pipes q <= MAX_OPEN_PIPE_FDS /\
  open_pipes q <= open_files q <= MAX_OPEN_FILES /\
  in_width 64 (pipe_fd_mask q).

#[export] Instance quota_wf_dec q : Decision (quota_wf q).
Proof. unfold quota_wf. apply _. Defined.

End Quota.
Import Quota.

(** ** Lemmas on the individual operations *)

Ltac quota_unfold :=
  unfold quota_wf, MAX_OPEN_FILES, MAX_OPEN_PIPE_FDS, PIPE_ENDPOINTS_PER_PIPE in *.

Lemma quota_wf_initial : quota_wf initial.
Proof. quota_unfold. vm_compute. intuition congruence. Qed.
#[export] Hint Resolve quota_wf_initial : rcore.

Lemma is_pipe_fd_testbit q fd :
  0 <= fd < 64 -> is_pipe_fd q fd = Z.testbit (pipe_fd_mask q) fd.
Proof.
  intros Hfd. unfold is_pipe_fd. destruct (Z.leb_spec 64 fd); [lia|].
  apply land_one_shift. lia.
Qed.

Lemma is_pipe_fd_high q fd : 64 <= fd -> is_pipe_fd q fd = false.
Proof. intros. unfold is_pipe_fd. destruct (Z.leb_spec 64 fd); [done|lia]. Qed.

(** [reserve_files] succeeds exactly when the limit allows it, and an error
    leaves the state alone. *)
Lemma reserve_files_spec q n :
  quota_wf q -> 0 <= n < 2 ^ 63 ->
  reserve_files q n =
    if open_files q + n <=? MAX_OPEN_FILES
    then (mkQuota (open_files q + n) (open_pipes q) (pipe_fd_mask q), Ok tt)
    else (q, Err TooManyFiles).
Proof.
  intros Hq Hn. quota_unfold. unfold reserve_files.
  destruct (checked_add 64 (open_files q) n) as [c|] eqn:E.
  - apply checked_add_Some in E as [-> _].
    destruct (Z.ltb_spec MAX_OPEN_FILES (open_files q + n)) as [H|H];
      unfold MAX_OPEN_FILES in *;
      destruct (Z.leb_spec (open_files q + n) 32); done || lia.
  - apply checked_add_None in E. lia.
Qed.

Lemma reserve_pipe_fds_spec q n :
  quota_wf q -> 0 <= n < 2 ^ 63 ->
  reserve_pipe_fds q n =
    if negb (open_files q + n <=? MAX_OPEN_FILES) then (q, Err TooManyFiles)
    else if negb (open_pipes q + n <=? MAX_OPEN_PIPE_FDS) then (q, Err ResourceExhausted)
    else (mkQuota (open_files q + n) (open_pipes q + n) (pipe_fd_mask q), Ok tt).
Proof.
  intros Hq Hn. quota_unfold. unfold reserve_pipe_fds.
  destruct (checked_add 64 (open_files q) n) as [c|] eqn:E;
    [|apply checked_add_None in E; lia].
  apply checked_add_Some in E as [-> _].
  destruct (checked_add 64 (open_pipes q) n) as [c|] eqn:E2;
    [|apply checked_add_None in E2; lia].
  apply checked_add_Some in E2 as [-> _].
  unfold MAX_OPEN_FILES, MAX_OPEN_PIPE_FDS.
  destruct (Z.ltb_spec 32 (open_files q + n)), (Z.leb_spec (open_files q + n) 32); try lia; [done|].
  destruct (Z.ltb_spec 16 (open_pipes q + n)), (Z.leb_spec (open_pipes q + n) 16); try lia; done.
Qed.

Lemma register_pipe_fd_mask q fd j :
  0 <= fd < 64 -> 0 <= j ->
  Z.testbit (pipe_fd_mask (register_pipe_fd q fd)) j
  = (bool_decide (fd = j) || Z.testbit (pipe_fd_mask q) j)%bool.
Proof.
  intros. unfold register_pipe_fd. destruct (Z.ltb_spec fd 64); [|lia].
  cbn. apply testbit_set_bit; lia.
Qed.

Lemma clear_mask_in_width m fd :
  in_width 64 m -> in_width 64 (Z.land m (bit_not 64 (Z.shiftl 1 fd))).
Proof.
  intros. apply land_in_width; [done|]. unfold bit_not. apply Z.land_nonneg. right.
  vm_compute. congruence.
Qed.

Lemma register_pipe_fd_wf q fd : 0 <= fd -> quota_wf q -> quota_wf (register_pipe_fd q fd).
Proof.
  intros Hfd (H1 & H2 & H3). unfold register_pipe_fd.
  destruct (Z.ltb_spec fd 64); [|done]. split_and!; try (cbn; lia).
  cbn. apply lor_in_width; [lia|done|].
  rewrite Z.shiftl_1_l. split; [lia|]. apply Z.pow_lt_mono_r; lia.
Qed.

Lemma release_fd_mask q fd j :
  quota_wf q -> 0 <= fd -> 0 <= j ->
  Z.testbit (pipe_fd_mask (release_fd q fd)) j
  = (negb (bool_decide (fd = j /\ fd < 64)) && Z.testbit (pipe_fd_mask q) j)%bool.
Proof.
  intros (_ & _ & Hm) Hfd Hj. cbn. destruct (Z.ltb_spec fd 64).
  - rewrite testbit_clear_bit by done || lia.
    do 2 f_equal. apply bool_decide_ext. lia.
  - rewrite bool_decide_eq_false_2 by lia. done.
Qed.

Lemma reserve_dup_fd_err_unchanged q fd q' e :
  reserve_dup_fd q fd = (q', Err e) -> q' = q.
Proof.
  unfold reserve_dup_fd, reserve_pipe_fds, reserve_files.
  repeat case_match; intros; simplify_eq; done.
Qed.

(** Releasing after reserving restores the two counters. *)
Lemma reserve_pipe_release q n q' :
  quota_wf q -> 0 <= n < 2 ^ 63 ->
  reserve_pipe_fds q n = (q', Ok tt) -> release_pipe_fds q' n = q.
Proof.
  intros Hq Hn. rewrite reserve_pipe_fds_spec by done.
  repeat case_if; intros; simplify_eq. destruct q as [f p m]. quota_unfold.
  unfold release_pipe_fds, saturating_sub; cbn in *. f_equal; lia.
Qed.

(** ** Properties *)

(** Every quota operation keeps the state inside the documented limits (32
    descriptors, 16 pipe endpoints), whatever descriptor number it is given;
    [release_fd] needs the counters to be positive, which is the assertion
    the code makes. *)
Lemma quota_ops_preserve_wf q n fd r k :
  quota_wf q -> 0 <= n < 2 ^ 63 -> 0 <= fd ->
  quota_wf (reserve_files q n).1 /\
  quota_wf (reserve_pipe_fds q n).1 /\
  quota_wf (reserve_dup_fd q fd).1 /\
  quota_wf (register_pipe_fd q fd) /\
  quota_wf (unregister_pipe_fd q fd) /\
  quota_wf (release_pipe_fds q n) /\
  quota_wf (reserve q r).1 /\
  (open_pipes q < open_files q \/ is_pipe_fd q fd = true -> 0 < open_files q ->
   quota_wf (release_fd q fd)) /\
  quota_wf (finish q {| res_kind := k; res_amount := n |} false).
Proof.
  intros Hq Hn Hfd.
  assert (Hrf : forall a, 0 <= a < 2 ^ 63 -> quota_wf (reserve_files q a).1).
  { intros a Ha. rewrite reserve_files_spec by done. case_if; [|done].
    quota_unfold. cbn. bool_lia. destruct Hq as (?&?&?). split_and!; done || lia. }
  assert (Hrp : forall a, 0 <= a < 2 ^ 63 -> quota_wf (reserve_pipe_fds q a).1).
  { intros a Ha. rewrite reserve_pipe_fds_spec by done. repeat case_if; try done.
    quota_unfold. cbn. bool_lia. destruct Hq as (?&?&?). split_and!; done || lia. }
  assert (Hrel : quota_wf (release_pipe_fds q n)).
  { destruct Hq as (?&?&?). quota_unfold. unfold release_pipe_fds, saturating_sub. cbn.
    split_and!; done || lia. }
  split_and!; try by auto.
  - unfold reserve_dup_fd. destruct (is_pipe_fd q fd).
    + destruct (reserve_pipe_fds q 1) as [q' [|]] eqn:E; cbn; change q' with (q', @Ok IpcError _ tt).1;
        specialize (Hrp 1); rewrite E in Hrp; apply Hrp; lia.
    + destruct (reserve_files q 1) as [q' [|]] eqn:E; cbn;
        specialize (Hrf 1); rewrite E in Hrf; apply Hrf; lia.
  - by apply register_pipe_fd_wf.
  - destruct Hq as (?&?&?). unfold unregister_pipe_fd. case_if; split_and!; try done; cbn; try lia.
    by apply clear_mask_in_width.
  - unfold reserve. destruct (req_operation r); try done.
    specialize (Hrp PIPE_ENDPOINTS_PER_PIPE).
    destruct (reserve_pipe_fds q _) as [q' [|]]; apply Hrp; quota_unfold; lia.
  - intros Hor Hpos. destruct Hq as (?&?&?). quota_unfold. unfold release_fd, saturating_sub. cbn.
    split_and!; try (case_if; destruct Hor; (done || lia)).
    + lia.
    + case_if; [|done]. by apply clear_mask_in_width.
  - unfold finish. by destruct k.
Qed.
