(* ===== verification/Timer.v ===== *)
(** * Kernel clock

    Models [os/src/timer.rs] and [device_tree::clock_freq].  The [time] CSR is
    read through the [riscv] crate: its future readings are an oracle that the
    machine state carries, and each read consumes one of them. *)
From S2P Require Import Prelude.

Module Timer.

Definition TICKS_PER_SEC : Z := 100.
Definition MSEC_PER_SEC : Z := 1000.

Record Timer : Type := mkTimer {
  CLOCK_FREQ : Z;              (** set once by [device_tree::init] *)
  readings : nat -> Z;         (** the values the next reads of [time] return *)
}.

(** [time::read()]. *)
Definition get_time (t : Timer) : Z * Timer :=
  (readings t 0%nat,
   {| CLOCK_FREQ := CLOCK_FREQ t; readings := fun n => readings t (S n) |}).

Definition clock_freq (t : Timer) : outcome Z :=
  _ ← assert_ (negb (CLOCK_FREQ t =? 0)); Ret (CLOCK_FREQ t).

(** Unsigned division panics on a zero divisor. *)
Definition div_usize (a b : Z) : outcome Z := if b =? 0 then Panic else Ret (a / b).

Definition get_time_ms (t : Timer) : outcome (Z * Timer) :=
  let '(now, t') := get_time t in
  freq ← clock_freq t';
  per_ms ← div_usize freq MSEC_PER_SEC;
  ms ← div_usize now per_ms;
  Ret (ms, t').

(** The deadline [set_next_trigger] hands to the SBI timer. *)
Definition set_next_trigger (t : Timer) : outcome (Z * Timer) :=
  let '(now, t') := get_time t in
  freq ← clock_freq t';
  Ret (wrap 64 (now + freq / TICKS_PER_SEC), t').

(** What [device_tree::init] must have stored: at least one tick per
    millisecond; and the CSR is a 64-bit register. *)
Definition timer_ok (t : Timer) : Prop :=
  1000 <= CLOCK_FREQ t /\ forall n, in_width 64 (readings t n).

End Timer.
Import Timer.

Lemma get_time_ms_ok t :
  timer_ok t ->
  exists ms t', get_time_ms t = Ret (ms, t') /\ timer_ok t' /\ in_width 64 ms.
Proof.
  intros [Hf Hr]. unfold get_time_ms, clock_freq, get_time, assert_, div_usize, MSEC_PER_SEC.
  cbn. destruct (Z.eqb_spec (CLOCK_FREQ t) 0); [lia|]. cbn.
  assert (1 <= CLOCK_FREQ t / 1000) by (apply Z.div_le_lower_bound; lia).
  destruct (Z.eqb_spec (CLOCK_FREQ t / 1000) 0); [lia|]. cbn.
  eexists _, _. split_and!; [done|split; [done|intros; apply Hr]|].
  specialize (Hr 0%nat) as [? ?]. split; [apply Z.div_pos; lia|].
  apply Z.le_lt_trans with (readings t 0%nat); [|lia].
  apply Z.div_le_upper_bound; nia.
Qed.
