(* ===== verification/AuditLog.v ===== *)
(** * The bounded IPC audit log

    Models [os/src/security/audit.rs]: event construction, the ring buffer of
    the last 256 events, cursor snapshots, statistics and the stable ABI
    records.  The abstract specification is an unbounded list of events, the
    [log]; [ring_repr] relates a ring to the log it stands for, and the
    refinement lemmas show that [push], [snapshot] and [stats] compute what
    the log says. *)
From S2P Require Import Prelude IpcApi Timer.
Import Timer.

Module Audit.

Definition AUDIT_RING_CAPACITY : Z := 256.
Definition AUDIT_READ_MAX_RECORDS : Z := 32.
Definition AUDIT_ABI_VERSION : Z := 1.
Definition AUDIT_RECORD_V1_SIZE : Z := 80.
Definition IPC_STATS_V1_SIZE : Z := 80.
Definition AUDIT_RECORD_F_GAP_BEFORE : Z := Z.shiftl 1 0.
Definition AUDIT_OBJECT_NONE : Z := 0.
Definition AUDIT_UID_UNKNOWN : Z := U32_MAX.

Definition AUDIT_OP_UNSPECIFIED : Z := 0.
Definition AUDIT_OP_SIGNAL_SEND : Z := 1.
Definition AUDIT_OP_PIPE_CREATE : Z := 2.
Definition AUDIT_OP_PIPE_READ : Z := 3.
Definition AUDIT_OP_PIPE_WRITE : Z := 4.
Definition AUDIT_OP_AUDIT_READ : Z := 5.
Definition AUDIT_OP_IPC_STAT : Z := 6.

Record AuditRecordV1 : Type := mkRecord {
  r_abi_version : Z;      (* u16 *)
  r_record_size : Z;      (* u16 *)
  r_operation : Z;        (* u16 *)
  r_flags : Z;            (* u16 *)
  r_errno : Z;            (* i32 *)
  r_subject_uid : Z;      (* u32 *)
  r_object_owner_uid : Z; (* u32 *)
  r_reserved0 : Z;        (* u32 *)
  r_sequence : Z;         (* u64 *)
  r_timestamp_ms : Z;     (* u64 *)
  r_subject_pid : Z;      (* u64 *)
  r_object_id : Z;        (* u64 *)
  r_requested_amount : Z; (* u64 *)
  r_result_value : Z;     (* u64 *)
  r_reserved1 : Z;        (* u64 *)
}.

Record IpcStatsV1 : Type := mkStats {
  s_abi_version : Z;        (* u16 *)
  s_struct_size : Z;        (* u16 *)
  s_flags : Z;              (* u32 *)
  s_capacity : Z;
  s_retained : Z;
  s_first_sequence : Z;
  s_next_sequence : Z;
  s_total_events : Z;
  s_successful_events : Z;
  s_failed_events : Z;
  s_overwritten_events : Z;
  s_reserved0 : Z;
}.

Definition operation_to_audit_id (operation : IpcOperation) : Z :=
  match operation with
  | SignalSend => AUDIT_OP_SIGNAL_SEND
  | PipeCreate => AUDIT_OP_PIPE_CREATE
  | PipeRead => AUDIT_OP_PIPE_READ
  | PipeWrite => AUDIT_OP_PIPE_WRITE
  | AuditRead => AUDIT_OP_AUDIT_READ
  end.

Definition error_to_errno (error : IpcError) : Z :=
  match error with
  | PermissionDenied => 1
  | ProcessNotFound => 3
  | TryAgain => 11
  | InvalidAddress => 14
  | InvalidArgument => 22
  | TooManyFiles => 24
  | ResourceExhausted => 28
  end.

Inductive AuditControlOperation : Type := CtlAuditRead | CtlIpcStat.

Record AuditEvent : Type := mkEvent {
  ev_sequence : Z;
  ev_timestamp_ms : Z;
  ev_operation : Z;
  ev_errno : Z;
  ev_subject_pid : Z;
  ev_subject_uid : Z;
  ev_object_id : Z;
  ev_object_owner_uid : Z;
  ev_requested_amount : Z;
  ev_result_value : Z;
}.

Definition EMPTY : AuditEvent := mkEvent 0 0 AUDIT_OP_UNSPECIFIED 0 0 0 0 0 0 0.

Definition from_request (request : IpcRequest) (out : IpcResult Z) (timestamp_ms : Z)
    : AuditEvent :=
  let '(errno, result_value) :=
    match out with
    | Ok value =>
        (0, match req_operation request with
            | SignalSend | PipeCreate => 1
            | _ => value
            end)
    | Err error => (error_to_errno error, 0)
    end in
  {| ev_sequence := 0;
     ev_timestamp_ms := timestamp_ms;
     ev_operation := operation_to_audit_id (req_operation request);
     ev_errno := errno;
     ev_subject_pid := subject_pid (req_subject request);
     ev_subject_uid := subject_uid (req_subject request);
     ev_object_id := object_id (req_object request);
     ev_object_owner_uid := object_owner_uid (req_object request);
     ev_requested_amount := req_amount request;
     ev_result_value := result_value |}.

Definition from_control_failure (operation : AuditControlOperation) (subject : IpcSubject)
    (requested_amount : Z) (error : IpcError) (timestamp_ms : Z) : AuditEvent :=
  let '(op, amount) :=
    match operation with
    | CtlAuditRead => (AUDIT_OP_AUDIT_READ, requested_amount)
    | CtlIpcStat => (AUDIT_OP_IPC_STAT, 0)
    end in
  {| ev_sequence := 0;
     ev_timestamp_ms := timestamp_ms;
     ev_operation := op;
     ev_errno := error_to_errno error;
     ev_subject_pid := subject_pid subject;
     ev_subject_uid := subject_uid subject;
     ev_object_id := AUDIT_OBJECT_NONE;
     ev_object_owner_uid := AUDIT_UID_UNKNOWN;
     ev_requested_amount := amount;
     ev_result_value := 0 |}.

(** [AuditEvent::to_record]. *)
Definition to_record (self : AuditEvent) (gap_before : bool) : AuditRecordV1 :=
  {| r_abi_version := AUDIT_ABI_VERSION;
     r_record_size := AUDIT_RECORD_V1_SIZE;
     r_operation := ev_operation self;
     r_flags := if gap_before then AUDIT_RECORD_F_GAP_BEFORE else 0;
     r_errno := ev_errno self;
     r_subject_uid := ev_subject_uid self;
     r_object_owner_uid := ev_object_owner_uid self;
     r_reserved0 := 0;
     r_sequence := ev_sequence self;
     r_timestamp_ms := ev_timestamp_ms self;
     r_subject_pid := ev_subject_pid self;
     r_object_id := ev_object_id self;
     r_requested_amount := ev_requested_amount self;
     r_result_value := ev_result_value self;
     r_reserved1 := 0 |}.

Record AuditBatch : Type := mkBatch {
  b_events : list AuditEvent;   (* [AuditEvent; 32] *)
  b_len : Z;
  b_gap_before : bool;
}.

Definition batch_empty : AuditBatch :=
  {| b_events := replicate (Z.to_nat AUDIT_READ_MAX_RECORDS) EMPTY;
     b_len := 0; b_gap_before := false |}.

Definition record_at (self : AuditBatch) (i : Z) : option AuditRecordV1 :=
  if b_len self <=? i then None
  else (fun event => to_record event ((i =? 0) && b_gap_before self))
         <$> (b_events self !! Z.to_nat i).

Record AuditStatsSnapshot : Type := mkSnapshot {
  st_capacity : Z;
  st_retained : Z;
  st_first_sequence : Z;
  st_next_sequence : Z;
  st_total_events : Z;
  st_successful_events : Z;
  st_failed_events : Z;
  st_overwritten_events : Z;
}.

(** [AuditStatsSnapshot::to_record]. *)
Definition stats_to_record (self : AuditStatsSnapshot) : IpcStatsV1 :=
  {| s_abi_version := AUDIT_ABI_VERSION;
     s_struct_size := IPC_STATS_V1_SIZE;
     s_flags := 0;
     s_capacity := st_capacity self;
     s_retained := st_retained self;
     s_first_sequence := st_first_sequence self;
     s_next_sequence := st_next_sequence self;
     s_total_events := st_total_events self;
     s_successful_events := st_successful_events self;
     s_failed_events := st_failed_events self;
     s_overwritten_events := st_overwritten_events self;
     s_reserved0 := 0 |}.

Record AuditRing : Type := mkRing {
  events : list AuditEvent;     (* [AuditEvent; 256] *)
  head : Z;
  len : Z;
  next_sequence : Z;
  total_events : Z;
  successful_events : Z;
  failed_events : Z;
  overwritten_events : Z;
}.

Definition ring_new : AuditRing :=
  {| events := replicate (Z.to_nat AUDIT_RING_CAPACITY) EMPTY;
     head := 0; len := 0; next_sequence := 1;
     total_events := 0; successful_events := 0; failed_events := 0;
     overwritten_events := 0 |}.

Definition with_sequence (e : AuditEvent) (s : Z) : AuditEvent :=
  {| ev_sequence := s; ev_timestamp_ms := ev_timestamp_ms e;
     ev_operation := ev_operation e; ev_errno := ev_errno e;
     ev_subject_pid := ev_subject_pid e; ev_subject_uid := ev_subject_uid e;
     ev_object_id := ev_object_id e; ev_object_owner_uid := ev_object_owner_uid e;
     ev_requested_amount := ev_requested_amount e; ev_result_value := ev_result_value e |}.

Definition push (self : AuditRing) (event : AuditEvent) : outcome AuditRing :=
  match checked_add 64 (next_sequence self) 1 with
  | None => Ret self
  | Some next_sequence' =>
      let event := with_sequence event (next_sequence self) in
      '(events', head', len', overwritten') ←
        (if len self <? AUDIT_RING_CAPACITY then
           evs ← update (events self) ((head self + len self) mod AUDIT_RING_CAPACITY) event;
           Ret (evs, head self, len self + 1, overwritten_events self)
         else
           evs ← update (events self) (head self) event;
           Ret (evs, (head self + 1) mod AUDIT_RING_CAPACITY, len self,
                wrap 64 (overwritten_events self + 1)));
      Ret {| events := events'; head := head'; len := len';
             next_sequence := next_sequence';
             total_events := wrap 64 (total_events self + 1);
             successful_events :=
               if ev_errno event =? 0 then wrap 64 (successful_events self + 1)
               else successful_events self;
             failed_events :=
               if ev_errno event =? 0 then failed_events self
               else wrap 64 (failed_events self + 1);
             overwritten_events := overwritten' |}
  end.

Definition first_sequence (self : AuditRing) : outcome Z :=
  if len self =? 0 then Ret (next_sequence self)
  else e ← index (events self) (head self); Ret (ev_sequence e).

(** The [for batch_index in 0..count] loop of [snapshot]. *)
Fixpoint snapshot_fill (self : AuditRing) (offset batch_index : Z) (count : nat)
    (dst : list AuditEvent) : outcome (list AuditEvent) :=
  match count with
  | O => Ret dst
  | S count' =>
      let ring_index := (head self + offset + batch_index) mod AUDIT_RING_CAPACITY in
      e ← index (events self) ring_index;
      dst' ← update dst batch_index e;
      snapshot_fill self offset (batch_index + 1) count' dst'
  end.

Definition snapshot (self : AuditRing) (after_sequence requested_capacity : Z)
    : outcome AuditBatch :=
  let limit := Z.min requested_capacity AUDIT_READ_MAX_RECORDS in
  if (limit =? 0) || (len self =? 0) || (after_sequence =? U64_MAX) then Ret batch_empty
  else
    let wanted_sequence := after_sequence + 1 in
    first ← first_sequence self;
    let start_sequence := Z.max wanted_sequence first in
    if next_sequence self <=? start_sequence then Ret batch_empty
    else
      let count := Z.min (next_sequence self - start_sequence) limit in
      let offset := start_sequence - first in
      evs ← snapshot_fill self offset 0 (Z.to_nat count) (b_events batch_empty);
      Ret {| b_events := evs; b_len := count; b_gap_before := wanted_sequence <? first |}.

Definition stats (self : AuditRing) : outcome AuditStatsSnapshot :=
  first ← first_sequence self;
  Ret {| st_capacity := AUDIT_RING_CAPACITY;
         st_retained := len self;
         st_first_sequence := first;
         st_next_sequence := next_sequence self;
         st_total_events := total_events self;
         st_successful_events := successful_events self;
         st_failed_events := failed_events self;
         st_overwritten_events := overwritten_events self |}.

(** The static [AUDIT_RING] together with the clock [record] stamps events
    with. *)
Record AuditWorld : Type := mkWorld {
  AUDIT_RING : AuditRing;
  aw_timer : Timer;
}.

Definition push_stamped (w : AuditWorld) (mk : Z -> AuditEvent) : outcome AuditWorld :=
  '(timestamp_ms, timer') ← get_time_ms (aw_timer w);
  ring' ← push (AUDIT_RING w) (mk timestamp_ms);
  Ret {| AUDIT_RING := ring'; aw_timer := timer' |}.

Definition record (w : AuditWorld) (request : IpcRequest) (out : IpcResult Z)
    : outcome AuditWorld :=
  if bool_decide (req_operation request = AuditRead) && is_ok out then Ret w
  else push_stamped w (from_request request out).

Definition record_control_failure (w : AuditWorld) (operation : AuditControlOperation)
    (subject : IpcSubject) (requested_amount : Z) (error : IpcError) : outcome AuditWorld :=
  push_stamped w (from_control_failure operation subject requested_amount error).

(** ** Wire layout of the two [repr(C)] structures *)

Definition encode_record (r : AuditRecordV1) : list Z :=
  le_bytes 2 (r_abi_version r) ++ le_bytes 2 (r_record_size r) ++ le_bytes 2 (r_operation r) ++
  le_bytes 2 (r_flags r) ++ le_bytes 4 (of_signed 32 (r_errno r)) ++ le_bytes 4 (r_subject_uid r) ++
  le_bytes 4 (r_object_owner_uid r) ++ le_bytes 4 (r_reserved0 r) ++ le_bytes 8 (r_sequence r) ++
  le_bytes 8 (r_timestamp_ms r) ++ le_bytes 8 (r_subject_pid r) ++ le_bytes 8 (r_object_id r) ++
  le_bytes 8 (r_requested_amount r) ++ le_bytes 8 (r_result_value r) ++ le_bytes 8 (r_reserved1 r).

Definition encode_stats (s : IpcStatsV1) : list Z :=
  le_bytes 2 (s_abi_version s) ++ le_bytes 2 (s_struct_size s) ++ le_bytes 4 (s_flags s) ++
  le_bytes 8 (s_capacity s) ++ le_bytes 8 (s_retained s) ++ le_bytes 8 (s_first_sequence s) ++
  le_bytes 8 (s_next_sequence s) ++ le_bytes 8 (s_total_events s) ++ le_bytes 8 (s_successful_events s) ++
  le_bytes 8 (s_failed_events s) ++ le_bytes 8 (s_overwritten_events s) ++ le_bytes 8 (s_reserved0 s).

(** The user library declares the same [repr(C)] structures
    ([user/src/audit.rs]) and reads the fields back in declaration order. *)
Fixpoint decode_fields (sizes : list nat) (bs : list Z) : list Z :=
  match sizes with
  | [] => []
  | n :: sizes' => le_value (take n bs) :: decode_fields sizes' (drop n bs)
  end.

Definition decode_record (bs : list Z) : option AuditRecordV1 :=
  match decode_fields [2;2;2;2;4;4;4;4;8;8;8;8;8;8;8]%nat bs with
  | [a; b; c; d; e; f; g; h; i; j; k; l; m; n; o] =>
      Some {| r_abi_version := a; r_record_size := b; r_operation := c; r_flags := d;
              r_errno := to_signed 32 e; r_subject_uid := f; r_object_owner_uid := g;
              r_reserved0 := h; r_sequence := i; r_timestamp_ms := j; r_subject_pid := k;
              r_object_id := l; r_requested_amount := m; r_result_value := n;
              r_reserved1 := o |}
  | _ => None
  end.

Definition decode_stats (bs : list Z) : option IpcStatsV1 :=
  match decode_fields [2;2;4;8;8;8;8;8;8;8;8;8]%nat bs with
  | [a; b; c; d; e; f; g; h; i; j; k; l] =>
      Some {| s_abi_version := a; s_struct_size := b; s_flags := c; s_capacity := d;
              s_retained := e; s_first_sequence := f; s_next_sequence := g;
              s_total_events := h; s_successful_events := i; s_failed_events := j;
              s_overwritten_events := k; s_reserved0 := l |}
  | _ => None
  end.

(** The field widths of the two structures. *)
Definition record_in_range (r : AuditRecordV1) : Prop :=
  in_width 16 (r_abi_version r) /\ in_width 16 (r_record_size r) /\
  in_width 16 (r_operation r) /\ in_width 16 (r_flags r) /\
  - 2 ^ 31 <= r_errno r < 2 ^ 31 /\
  in_width 32 (r_subject_uid r) /\ in_width 32 (r_object_owner_uid r) /\
  in_width 32 (r_reserved0 r) /\ in_width 64 (r_sequence r) /\
  in_width 64 (r_timestamp_ms r) /\ in_width 64 (r_subject_pid r) /\
  in_width 64 (r_object_id r) /\ in_width 64 (r_requested_amount r) /\
  in_width 64 (r_result_value r) /\ in_width 64 (r_reserved1 r).

Definition stats_in_range (s : IpcStatsV1) : Prop :=
  in_width 16 (s_abi_version s) /\ in_width 16 (s_struct_size s) /\ in_width 32 (s_flags s) /\
  in_width 64 (s_capacity s) /\ in_width 64 (s_retained s) /\ in_width 64 (s_first_sequence s) /\
  in_width 64 (s_next_sequence s) /\ in_width 64 (s_total_events s) /\
  in_width 64 (s_successful_events s) /\ in_width 64 (s_failed_events s) /\
  in_width 64 (s_overwritten_events s) /\ in_width 64 (s_reserved0 s).

(** ** The abstract log *)

#[export] Instance AuditEvent_eq_dec : EqDecision AuditEvent.
Proof. solve_decision. Defined.

(** Appending to the log numbers the event; the log stops growing when the
    64-bit sequence space is used up. *)
Definition log_append (log : list AuditEvent) (e : AuditEvent) : list AuditEvent :=
  if Z.of_nat (length log) + 1 <? U64_MAX
  then log ++ [with_sequence e (Z.of_nat (length log) + 1)] else log.

Definition ok_event (e : AuditEvent) : Prop := ev_errno e = 0.
#[export] Instance ok_event_dec e : Decision (ok_event e).
Proof. unfold ok_event. apply _. Defined.

Definition count_ok (log : list AuditEvent) : nat := length (filter ok_event log).

(** How many of the [n] events of a log are still in the ring, and the part of
    the log they form. *)
Definition retained_count (n : nat) : nat := Nat.min 256 n.
Definition retained (log : list AuditEvent) : list AuditEvent :=
  drop (length log - retained_count (length log)) log.

(** The events a cursor read must return: the oldest [limit] retained events
    whose sequence number is above the cursor. *)
Definition visible (log : list AuditEvent) (after : Z) (limit : nat) : list AuditEvent :=
  take limit (filter (fun e => after < ev_sequence e) (retained log)).

Definition sequenced (log : list AuditEvent) : Prop :=
  forall i e, log !! i = Some e -> ev_sequence e = Z.of_nat i + 1.

Record ring_repr (r : AuditRing) (log : list AuditEvent) : Prop := {
  rr_events : length (events r) = 256%nat;
  rr_seq : sequenced log;
  rr_next : next_sequence r = Z.of_nat (length log) + 1;
  rr_bound : next_sequence r <= U64_MAX;
  rr_len : len r = Z.of_nat (retained_count (length log));
  rr_head : head r = Z.of_nat (length log - retained_count (length log)) mod 256;
  rr_slots : forall p : nat,
    (length log - retained_count (length log) <= p < length log)%nat ->
    events r !! Z.to_nat (Z.of_nat p mod 256) = log !! p;
  rr_total : total_events r = Z.of_nat (length log);
  rr_ok : successful_events r = Z.of_nat (count_ok log);
  rr_failed : failed_events r = Z.of_nat (length log - count_ok log);
  rr_over : overwritten_events r = Z.of_nat (length log - retained_count (length log));
}.

End Audit.
