(* ===== verification/AuditFacts.v ===== *)
(** * Correctness of the audit log

    Refinement of the ring buffer of [AuditLog] to the unbounded event log, and
    the properties of cursor reads and statistics that follow from it. *)
From S2P Require Import Prelude IpcApi Timer AuditLog.
Import Timer Audit.

(** ** Sequences *)

Lemma sequenced_nil : sequenced [].
Proof. intros i e. by rewrite lookup_nil. Qed.

Lemma sequenced_snoc log e :
  sequenced log -> sequenced (log ++ [with_sequence e (Z.of_nat (length log) + 1)]).
Proof.
  intros Hs i x. rewrite lookup_app_Some. intros [H|[Hge H]]; [by apply Hs|].
  apply list_lookup_singleton_Some in H as [Hi <-]. cbn. lia.
Qed.

(** Filtering a numbered log by a cursor is cutting off a prefix. *)
Lemma filter_after_drop log after (k : nat) :
  sequenced log -> 0 <= after ->
  filter (fun e => after < ev_sequence e) (drop k log)
  = drop (Nat.max k (Z.to_nat after)) log.
Proof.
  intros Hs Ha. remember (length log - k)%nat as m eqn:Hm. revert k Hm.
  induction m as [|m IH]; intros k Hm.
  - rewrite !drop_ge by lia. done.
  - destruct (log !! k) as [e|] eqn:Hk.
    2:{ apply lookup_ge_None in Hk. lia. }
    rewrite (drop_S log e k) by done. rewrite filter_cons.
    rewrite (Hs k e Hk). specialize (IH (S k) ltac:(lia)). rewrite IH. case_decide.
    + rewrite !Nat.max_l by lia. by rewrite (drop_S log e k).
    + f_equal. lia.
Qed.

Lemma count_ok_snoc log e :
  count_ok (log ++ [e]) = (count_ok log + if decide (ok_event e) then 1 else 0)%nat.
Proof.
  unfold count_ok. rewrite filter_app, length_app, filter_cons. by case_decide.
Qed.

Lemma count_ok_le log : (count_ok log <= length log)%nat.
Proof. apply length_filter. Qed.

Lemma mod256_ne (p q : Z) : 0 < q - p < 256 -> q mod 256 <> p mod 256.
Proof. intros. lia_mod. Qed.

(** ** [push] refines [log_append] *)

Lemma ring_repr_new : ring_repr ring_new [].
Proof.
  constructor; try done; intros; cbn in *; lia.
Qed.

Lemma log_append_length log e :
  Z.of_nat (length log) + 1 < U64_MAX -> length (log_append log e) = S (length log).
Proof.
  intros. unfold log_append. destruct (Z.ltb_spec (Z.of_nat (length log) + 1) U64_MAX); [|lia].
  rewrite length_app. cbn. lia.
Qed.

(** The slot the next event goes to is the one numbered by the log length. *)
Lemma push_slot r log :
  ring_repr r log ->
  (if len r <? AUDIT_RING_CAPACITY then (head r + len r) mod AUDIT_RING_CAPACITY else head r)
  = Z.of_nat (length log) mod 256.
Proof.
  intros H. rewrite (rr_len _ _ H), (rr_head _ _ H). unfold retained_count, AUDIT_RING_CAPACITY.
  destruct (Z.ltb_spec (Z.of_nat (256 `min` length log)) 256); lia_mod.
Qed.

Lemma push_slots r log e :
  ring_repr r log ->
  let x := with_sequence e (Z.of_nat (length log) + 1) in
  let n := S (length log) in
  forall p, (n - retained_count n <= p < n)%nat ->
  <[Z.to_nat (Z.of_nat (length log) mod 256) := x]> (events r) !! Z.to_nat (Z.of_nat p mod 256)
  = (log ++ [x]) !! p.
Proof.
  intros H x n p Hp. subst n. unfold retained_count in Hp.
  destruct (decide (p = length log)) as [->|Hne].
  - rewrite list_lookup_insert_eq.
    2:{ rewrite (rr_events _ _ H). lia_mod. }
    rewrite lookup_app_r by lia. by rewrite Nat.sub_diag.
  - rewrite list_lookup_insert_ne.
    2:{ intros E. apply (mod256_ne (Z.of_nat p) (Z.of_nat (length log))); [lia|lia_mod]. }
    rewrite lookup_app_l by lia. apply (rr_slots _ _ H). unfold retained_count. lia.
Qed.

Lemma push_refines r log e :
  ring_repr r log -> exists r', push r e = Ret r' /\ ring_repr r' (log_append log e).
Proof.
  intros H. unfold push. pose proof (rr_bound _ _ H) as Hb. pose proof (rr_next _ _ H) as Hn.
  unfold U64_MAX in *.
  destruct (checked_add 64 (next_sequence r) 1) as [c|] eqn:E.
  2:{ apply checked_add_None in E. eexists; split; [done|]. unfold log_append, U64_MAX.
      destruct (Z.ltb_spec (Z.of_nat (length log) + 1) (2 ^ 64 - 1)); [lia|done]. }
  apply checked_add_Some in E as [-> Hlt]. rewrite Hn.
  assert (log_append log e = log ++ [with_sequence e (Z.of_nat (length log) + 1)]) as ->.
  { unfold log_append, U64_MAX.
    destruct (Z.ltb_spec (Z.of_nat (length log) + 1) (2 ^ 64 - 1)); [done|lia]. }
  set (x := with_sequence e _). pose proof (push_slot _ _ H) as Hslot.
  pose proof (count_ok_le log) as Hc. pose proof (rr_len _ _ H) as Hl.
  assert (Hw : forall a, 0 <= a <= Z.of_nat (length log) -> wrap 64 (a + 1) = a + 1)
    by (intros; apply wrap_small; unfold in_width; lia).
  assert (Hupd : update (events r) (Z.of_nat (length log) mod 256) x
                 = Ret (<[Z.to_nat (Z.of_nat (length log) mod 256) := x]> (events r)))
    by (apply update_Ret; rewrite (rr_events _ _ H); lia_mod).
  pose proof (push_slots r log e H) as Hsl. cbn zeta in Hsl. fold x in Hsl.
  pose proof (rr_head _ _ H) as Hh. pose proof (rr_over _ _ H) as Ho.
  unfold retained_count in *.
  destruct (Z.ltb_spec (len r) AUDIT_RING_CAPACITY) as [Hcap|Hcap];
    rewrite Hslot, Hupd; (eexists; split; [reflexivity|]); unfold AUDIT_RING_CAPACITY in *.
  all: constructor; cbn [events head len next_sequence total_events successful_events
                         failed_events overwritten_events];
       rewrite ?length_insert, ?length_app, ?count_ok_snoc; cbn [length];
       unfold retained_count; rewrite ?(rr_total _ _ H), ?(rr_ok _ _ H), ?(rr_failed _ _ H), ?Ho;
       try apply (rr_events _ _ H); try (apply sequenced_snoc, (rr_seq _ _ H));
       try (intros p Hp; apply Hsl; lia);
       try (unfold U64_MAX; lia); try lia_mod.
  all: try (rewrite Hw by lia; lia).
  all: unfold ok_event; destruct (Z.eqb_spec (ev_errno x) 0); case_decide;
       try contradiction; rewrite ?Hw by lia; lia.
Qed.

(** ** [snapshot] returns the visible events *)

Lemma ring_slot r log (p : nat) :
  ring_repr r log ->
  (length log - retained_count (length log) <= p < length log)%nat ->
  exists e, log !! p = Some e /\ index (events r) (Z.of_nat p mod 256) = Ret e.
Proof.
  intros H Hp. destruct (lookup_lt_is_Some_2 log p) as [e He]; [lia|].
  exists e. split; [done|]. apply index_Ret. by rewrite (rr_slots _ _ H).
Qed.

Lemma head_shift r log (k : nat) :
  ring_repr r log ->
  (head r + Z.of_nat k) mod AUDIT_RING_CAPACITY
  = Z.of_nat (length log - retained_count (length log) + k) mod 256.
Proof.
  intros H. rewrite (rr_head _ _ H). unfold AUDIT_RING_CAPACITY.
  rewrite Nat2Z.inj_add. by rewrite Zplus_mod_idemp_l.
Qed.

Lemma snapshot_fill_spec r log (offset i count : nat) dst :
  ring_repr r log ->
  let base := (length log - retained_count (length log) + offset)%nat in
  (base + i + count <= length log)%nat -> (i + count <= length dst)%nat ->
  snapshot_fill r (Z.of_nat offset) (Z.of_nat i) count dst
  = Ret (take i dst ++ take count (drop (base + i) log) ++ drop (i + count) dst).
Proof.
  intros H base. revert i dst. induction count as [|count IH]; intros i dst Hb Hd; cbn.
  - rewrite take_0, Nat.add_0_r. cbn [app]. by rewrite take_drop.
  - rewrite <- Z.add_assoc, <- Nat2Z.inj_add, (head_shift _ _ _ H).
    destruct (ring_slot r log (base + i) H) as (e & He & Hi); [subst base; lia|].
    replace (length log - retained_count (length log) + (offset + i))%nat with (base + i)%nat
      by (subst base; lia).
    rewrite Hi. cbn. rewrite update_Ret by lia. rewrite Nat2Z.id. cbn.
    replace (Z.of_nat i + 1) with (Z.of_nat (S i)) by lia.
    rewrite IH by (rewrite ?length_insert; lia).
    rewrite (drop_S log e (base + i)) by done. cbn [take].
    rewrite (take_S_r _ _ e) by (apply list_lookup_insert_eq; lia).
    rewrite take_insert_ge, drop_insert_lt by lia.
    rewrite <- app_assoc. cbn. by replace (base + S i)%nat with (S (base + i)) by lia;
      replace (i + S count)%nat with (S i + count)%nat by lia.
Qed.

Lemma first_sequence_spec r log :
  ring_repr r log ->
  first_sequence r = Ret (Z.of_nat (length log - retained_count (length log)) + 1).
Proof.
  intros H. unfold first_sequence. rewrite (rr_len _ _ H).
  destruct (Z.eqb_spec (Z.of_nat (retained_count (length log))) 0) as [E|E].
  - unfold retained_count in *. rewrite (rr_next _ _ H). f_equal. lia.
  - assert (Hr : (length log - retained_count (length log) < length log)%nat)
      by (unfold retained_count in *; lia).
    destruct (ring_slot r log (length log - retained_count (length log)) H) as (e & He & Hi);
      [lia|].
    rewrite (rr_head _ _ H), Hi. cbn. by rewrite (rr_seq _ _ H _ _ He).
Qed.

Lemma retained_length log : length (retained log) = retained_count (length log).
Proof. unfold retained. rewrite length_drop. unfold retained_count. lia. Qed.

Lemma visible_drop log after limit :
  sequenced log -> 0 <= after ->
  visible log after limit
  = take limit (drop (Nat.max (length log - retained_count (length log)) (Z.to_nat after)) log).
Proof. intros. unfold visible, retained. by rewrite filter_after_drop. Qed.

(** The specification of a batch: its valid prefix, its length and its flag. *)
Definition batch_for (log : list AuditEvent) (after capacity : Z) (b : AuditBatch) : Prop :=
  let vis := visible log after (Z.to_nat (Z.min capacity 32)) in
  length (b_events b) = 32%nat /\
  b_len b = Z.of_nat (length vis) /\
  take (length vis) (b_events b) = vis /\
  (b_gap_before b = true <->
   vis <> [] /\ after < Z.of_nat (length log - retained_count (length log))).

Lemma length_batch_empty : length (b_events batch_empty) = 32%nat.
Proof. done. Qed.

Lemma batch_for_empty log after capacity :
  visible log after (Z.to_nat (Z.min capacity 32)) = [] -> batch_for log after capacity batch_empty.
Proof. intros E. unfold batch_for. rewrite E. cbn. naive_solver. Qed.

(** The case in which the code copies a non-empty batch. *)
Lemma snapshot_copy r log after (limit : nat) :
  ring_repr r log ->
  let lost := (length log - retained_count (length log))%nat in
  let pos := Nat.max lost (Z.to_nat after) in
  0 <= after -> (0 < limit <= 32)%nat -> (pos < length log)%nat ->
  let count := Nat.min (length log - pos) limit in
  let vis := take limit (drop pos log) in
  exists rest, snapshot_fill r (Z.of_nat (pos - lost)) 0 count (b_events batch_empty)
               = Ret (vis ++ rest) /\
  length vis = count /\ (length vis + length rest)%nat = 32%nat.
Proof.
  intros H lost pos Ha Hlim Hpos count vis.
  assert (Hlost : (lost <= length log /\ lost + retained_count (length log) = length log)%nat)
    by (subst lost; unfold retained_count; lia).
  assert (Hvis : length vis = count) by (subst vis count; rewrite length_take, length_drop; lia).
  exists (drop count (b_events batch_empty)). rewrite length_drop, length_batch_empty, Hvis.
  split_and!; [|done|subst count; lia].
  pose proof (snapshot_fill_spec r log (pos - lost) 0 count (b_events batch_empty) H) as Hf.
  cbn zeta in Hf. fold lost in Hf.
  replace (lost + (pos - lost) + 0)%nat with pos in Hf by (subst pos; lia).
  change (Z.of_nat 0) with 0 in Hf. rewrite Hf; [|subst count; lia|rewrite length_batch_empty; subst count; lia].
  rewrite take_0, app_nil_l, Nat.add_0_l. do 2 f_equal. subst vis count.
  destruct (Nat.min_spec (length log - pos) limit) as [[? ->]|[? ->]]; [|done].
  rewrite !take_ge; [done|rewrite length_drop; lia..].
Qed.

Lemma snapshot_refines r log after capacity :
  ring_repr r log -> in_width 64 after -> 0 <= capacity ->
  exists b, snapshot r after capacity = Ret b /\ batch_for log after capacity b.
Proof.
  intros H [Ha Ha2] Hc. unfold snapshot, AUDIT_READ_MAX_RECORDS.
  set (limit := Z.to_nat (Z.min capacity 32)).
  pose proof (visible_drop log after limit (rr_seq _ _ H) Ha) as Hv.
  pose proof (rr_next _ _ H) as Hn. pose proof (rr_bound _ _ H) as Hb.
  pose proof (rr_len _ _ H) as Hl. unfold U64_MAX in *.
  set (lost := (length log - retained_count (length log))%nat) in *.
  destruct (((Z.min capacity 32 =? 0) || (len r =? 0) || (after =? 2 ^ 64 - 1))) eqn:Eg.
  { eexists; split; [done|]. apply batch_for_empty. fold limit. rewrite Hv.
    apply orb_true_iff in Eg as [[Eg|Eg]%orb_true_iff|Eg]; apply Z.eqb_eq in Eg.
    - subst limit. by rewrite Eg.
    - rewrite drop_ge; [apply take_nil|]. unfold retained_count in *. lia.
    - rewrite drop_ge; [apply take_nil|]. lia. }
  bool_lia. rewrite (first_sequence_spec _ _ H). cbn [mbind outcome_bind]. fold lost.
  set (pos := Nat.max lost (Z.to_nat after)) in *.
  assert (Hmax : Z.max (after + 1) (Z.of_nat lost + 1) = Z.of_nat pos + 1)
    by (subst pos; clear -Ha; lia).
  rewrite Hmax, Hn. destruct (Z.leb_spec (Z.of_nat (length log) + 1) (Z.of_nat pos + 1)) as [Hs|Hs].
  { eexists; split; [done|]. apply batch_for_empty. fold limit.
    rewrite Hv, drop_ge; [apply take_nil|clear -Hs; lia]. }
  destruct (snapshot_copy r log after limit H) as (rest & Hf & Hlen & Htot);
    [done|subst limit; lia|fold lost pos; lia|].
  fold lost pos in Hf, Hlen, Htot.
  replace (Z.of_nat pos + 1 - (Z.of_nat lost + 1)) with (Z.of_nat (pos - lost)) by (subst pos; lia).
  replace (Z.min (Z.of_nat (length log) + 1 - (Z.of_nat pos + 1)) (Z.min capacity 32))
    with (Z.of_nat (Nat.min (length log - pos) limit)) by (subst limit; clear -Hs Hc; lia).
  rewrite Nat2Z.id, Hf. eexists; split; [reflexivity|].
  unfold batch_for. fold limit lost. rewrite Hv. cbn [b_events b_len b_gap_before].
  split_and!.
  - by rewrite length_app.
  - by rewrite Hlen.
  - by apply take_app_length.
  - rewrite Z.ltb_lt. split; [|lia]. intros Hlt. split; [|lia].
    intros E. rewrite E in Hlen. cbn in Hlen. subst limit; lia.
Qed.

(** ** Wire format *)

Lemma decode_fields_cons n z sizes rest :
  0 <= n -> in_width (8 * n) z ->
  decode_fields (Z.to_nat n :: sizes) (le_bytes n z ++ rest) = z :: decode_fields sizes rest.
Proof.
  intros Hn Hz. cbn. rewrite take_app_length', drop_app_length' by (by rewrite length_le_bytes).
  by rewrite le_bytes_value.
Qed.

Lemma decode_fields_last n z :
  0 <= n -> in_width (8 * n) z -> decode_fields [Z.to_nat n] (le_bytes n z) = [z].
Proof.
  intros. rewrite <- (app_nil_r (le_bytes n z)). rewrite decode_fields_cons by done. done.
Qed.

Lemma to_of_signed w z : 0 < w -> - 2 ^ (w - 1) <= z < 2 ^ (w - 1) -> to_signed w (of_signed w z) = z.
Proof.
  intros Hw Hz. unfold to_signed, of_signed.
  assert (H2 : 2 ^ w = 2 * 2 ^ (w - 1)) by (rewrite <- Z.pow_succ_r by lia; f_equal; lia).
  destruct (decide (0 <= z)).
  - rewrite Z.mod_small by lia. destruct (Z.ltb_spec z (2 ^ (w - 1))); lia.
  - replace (z mod 2 ^ w) with (z + 2 ^ w).
    + destruct (Z.ltb_spec (z + 2 ^ w) (2 ^ (w - 1))); lia.
    + apply Z.mod_unique with (-1); lia.
Qed.

Ltac decode_step :=
  match goal with
  | |- context [decode_fields (?n :: ?ns) (le_bytes ?m ?z ++ ?rest)] =>
      change (decode_fields (n :: ns) (le_bytes m z ++ rest))
        with (decode_fields (Z.to_nat m :: ns) (le_bytes m z ++ rest));
      rewrite (decode_fields_cons m z ns rest) by (done || lia)
  | |- context [decode_fields [?n] (le_bytes ?m ?z)] =>
      change (decode_fields [n] (le_bytes m z)) with (decode_fields [Z.to_nat m] (le_bytes m z));
      rewrite (decode_fields_last m z) by (done || lia)
  end.

(** ** Reachable rings *)

(** The ring after a history of recorded events, starting from boot. *)
Fixpoint push_all (r : AuditRing) (es : list AuditEvent) : outcome AuditRing :=
  match es with
  | [] => Ret r
  | e :: es' => r' ← push r e; push_all r' es'
  end.

Lemma push_all_refines r log es :
  ring_repr r log ->
  exists r', push_all r es = Ret r' /\ ring_repr r' (foldl log_append log es).
Proof.
  revert r log. induction es as [|e es IH]; intros r log H; cbn; [by eauto|].
  destruct (push_refines r log e H) as (r1 & -> & H1). cbn. by apply IH.
Qed.

Lemma foldl_log_append_small log es :
  Z.of_nat (length log + length es) < U64_MAX ->
  length (foldl log_append log es) = (length log + length es)%nat.
Proof.
  revert log. induction es as [|e es IH]; intros log Hb; cbn; [lia|]. cbn in Hb.
  rewrite IH; rewrite log_append_length by lia; lia.
Qed.

(** The consistency test of [auditctl]'s [load_stats]
    ([user/src/bin/auditctl.rs]). *)
Definition load_stats_consistent (s : IpcStatsV1) : bool :=
  negb ((s_capacity s <? s_retained s)
        || negb (bool_decide (checked_add 64 (s_successful_events s) (s_failed_events s)
                              = Some (s_total_events s)))
        || (s_first_sequence s =? 0)
        || negb (bool_decide (checked_sub (s_next_sequence s) (s_first_sequence s)
                              = Some (s_retained s)))).

(** ** Properties *)

(** C6: the ring buffer implements the event log: whatever events are recorded
    after boot, [push] never panics, the retained window is the last 256
    events in order with consecutive sequence numbers, and no counter or
    sequence number ever wraps around. *)
Theorem audit_ring_refines_log es :
  exists r, push_all ring_new es = Ret r /\ ring_repr r (foldl log_append [] es).
Proof. apply push_all_refines, ring_repr_new. Qed.

(** C25: a cursor read of the ring returns exactly the oldest retained events
    whose sequence is above the cursor, at most 32 of them and in order, and
    raises the gap flag exactly when an event after the cursor was
    overwritten. *)
Theorem audit_snapshot_correct es after capacity :
  in_width 64 after -> 0 <= capacity ->
  exists r b,
    push_all ring_new es = Ret r /\ snapshot r after capacity = Ret b /\
    batch_for (foldl log_append [] es) after capacity b.
Proof.
  intros Ha Hc. destruct (push_all_refines ring_new [] es ring_repr_new) as (r & Hr & H).
  destruct (snapshot_refines r _ after capacity H Ha Hc) as (b & Hb & Hs). by exists r, b.
Qed.

Lemma stats_spec r log :
  ring_repr r log ->
  exists s, stats r = Ret s /\
    st_capacity s = 256 /\
    st_retained s = Z.of_nat (length (retained log)) /\
    st_first_sequence s = Z.of_nat (length log - length (retained log)) + 1 /\
    st_next_sequence s = Z.of_nat (length log) + 1 /\
    st_total_events s = Z.of_nat (length log) /\
    st_successful_events s = Z.of_nat (count_ok log) /\
    st_failed_events s = Z.of_nat (length log - count_ok log) /\
    st_overwritten_events s = Z.of_nat (length log - length (retained log)).
Proof.
  intros H. unfold stats. rewrite (first_sequence_spec _ _ H). eexists; split; [reflexivity|].
  cbn. rewrite retained_length. destruct H. split_and!; done.
Qed.

(** The statistics record of any reachable ring passes every consistency
    check [auditctl] makes before it trusts it, and accounts for every event:
    total = successful + failed = retained + overwritten. *)
Theorem audit_stats_consistent es :
  exists r s,
    push_all ring_new es = Ret r /\ stats r = Ret s /\
    load_stats_consistent (stats_to_record s) = true /\
    st_total_events s = st_successful_events s + st_failed_events s /\
    st_total_events s = st_retained s + st_overwritten_events s.
Proof.
  destruct (push_all_refines ring_new [] es ring_repr_new) as (r & Hr & H).
  set (log := foldl log_append [] es) in *.
  destruct (stats_spec r log H) as (s & Hs & E1 & E2 & E3 & E4 & E5 & E6 & E7 & E8).
  exists r, s. pose proof (count_ok_le log). pose proof (rr_bound _ _ H) as Hb.
  rewrite (rr_next _ _ H) in Hb. unfold U64_MAX in Hb.
  rewrite retained_length in *. unfold retained_count in *.
  split_and!; [done|done| |lia|lia].
  unfold load_stats_consistent, stats_to_record; cbn.
  rewrite E1, E2, E3, E4, E5, E6, E7. apply negb_true_iff, orb_false_iff.
  split_and!; [apply orb_false_iff; split; [apply orb_false_iff; split|]|].
  - apply Z.ltb_ge. lia.
  - apply negb_false_iff, bool_decide_eq_true, checked_add_Some. lia.
  - apply Z.eqb_neq. lia.
  - apply negb_false_iff, bool_decide_eq_true. unfold checked_sub.
    destruct (Z.leb_spec (Z.of_nat (length log - 256 `min` length log) + 1)
                         (Z.of_nat (length log) + 1)); [f_equal; lia|lia].
Qed.

Lemma decode_encode_record r :
  record_in_range r ->
  length (encode_record r) = 80%nat /\ decode_record (encode_record r) = Some r.
Proof.
  intros (?&?&?&?&?&?&?&?&?&?&?&?&?&?&?). split.
  - unfold encode_record. rewrite !length_app, !length_le_bytes by lia. done.
  - unfold decode_record, encode_record.
    assert (in_width (8 * 4) (of_signed 32 (r_errno r))) by (apply Z.mod_pos_bound; lia).
    repeat decode_step. rewrite to_of_signed by lia. by destruct r.
Qed.

(** The 80-byte wire form of an audit record decodes to the same record in
    the user library's layout, so no field is truncated or misplaced. *)
Theorem audit_record_roundtrip r :
  record_in_range r ->
  length (encode_record r) = 80%nat /\ decode_record (encode_record r) = Some r.
Proof. apply decode_encode_record. Qed.

Lemma audit_stats_roundtrip s :
  stats_in_range s ->
  length (encode_stats s) = 80%nat /\ decode_stats (encode_stats s) = Some s.
Proof.
  intros (?&?&?&?&?&?&?&?&?&?&?&?). split.
  - unfold encode_stats. rewrite !length_app, !length_le_bytes by lia. done.
  - unfold decode_stats, encode_stats. repeat decode_step. by destruct s.
Qed.
