(* ===== verification/Facade.v ===== *)
(** * The security facade

    Models [os/src/security/mod.rs]: the per-process security state and the
    [preflight]/[complete] protocol that system calls go through.  The facade
    is written against an interface, [AuditSink], that says what the audit
    module promises: a recorded outcome is appended to the log.  [AuditFacts]
    discharges it for the ring buffer (instance [audit_world_sink]). *)
From S2P Require Import Prelude IpcApi Quota Timer AuditLog AuditFacts.
Import Timer Audit.

(** ** The interface of the audit module *)

Class AuditSink (W : Type) : Type := {
  sink_record : W -> IpcRequest -> IpcResult Z -> outcome W;
  sink_view : W -> list AuditEvent -> Prop;
}.

(** What a recorded request adds to the log: one numbered event, except that a
    successful audit read leaves no trace. *)
Definition log_outcome (log : list AuditEvent) (req : IpcRequest) (out : IpcResult Z) (ts : Z)
    : list AuditEvent :=
  if bool_decide (req_operation req = AuditRead) && is_ok out then log
  else log_append log (from_request req out ts).

Class AuditSinkLaws (W : Type) {S : AuditSink W} : Prop := {
  sink_record_appends : forall w log req out,
    sink_view w log ->
    exists w' ts, sink_record w req out = Ret w' /\ in_width 64 ts /\
                  sink_view w' (log_outcome log req out ts);
}.

#[export] Instance audit_world_sink : AuditSink AuditWorld := {|
  sink_record := record;
  sink_view := fun w log => ring_repr (AUDIT_RING w) log /\ timer_ok (aw_timer w);
|}.

(** ** [ProcessSecurityState] and the protocol *)

Module Facade.

Record ProcessSecurityState : Type := mkSec {
  sec_credentials : Credentials.Credentials;
  sec_quota : Quota.QuotaState;
}.

Definition initial : ProcessSecurityState :=
  {| sec_credentials := Credentials.initial; sec_quota := Quota.initial |}.

Definition fork_from (parent : ProcessSecurityState) : ProcessSecurityState :=
  {| sec_credentials := Credentials.fork_from (sec_credentials parent);
     sec_quota := Quota.fork_from (sec_quota parent) |}.

Record IpcPermit : Type := mkPermit {
  permit_request : IpcRequest;
  permit_reservation : Quota.QuotaReservation;
}.

Definition with_quota (s : ProcessSecurityState) (q : Quota.QuotaState) : ProcessSecurityState :=
  {| sec_credentials := sec_credentials s; sec_quota := q |}.

Section Protocol.
Context {W : Type} {S : AuditSink W}.

Definition preflight (state : ProcessSecurityState) (w : W) (request : IpcRequest)
    : outcome (ProcessSecurityState * W * IpcResult IpcPermit) :=
  match Policy.authorize request with
  | Err error =>
      w' ← sink_record w request (Err error);
      Ret (state, w', Err error)
  | Ok _ =>
      let '(q', r) := Quota.reserve (sec_quota state) request in
      match r with
      | Err error =>
          w' ← sink_record w request (Err error);
          Ret (with_quota state q', w', Err error)
      | Ok reservation =>
          Ret (with_quota state q', w,
               Ok {| permit_request := request; permit_reservation := reservation |})
      end
  end.

Definition complete (state : ProcessSecurityState) (w : W) (permit : IpcPermit)
    (out : IpcResult Z) : outcome (ProcessSecurityState * W * IpcResult Z) :=
  let q' := Quota.finish (sec_quota state) (permit_reservation permit) (is_ok out) in
  w' ← sink_record w (permit_request permit) out;
  Ret (with_quota state q', w', out).

Definition record_failure (w : W) (request : IpcRequest) (error : IpcError) : outcome W :=
  sink_record w request (Err error).

End Protocol.

Definition reserve_file_fd (state : ProcessSecurityState)
    : ProcessSecurityState * IpcResult unit :=
  let '(q', r) := Quota.reserve_files (sec_quota state) 1 in (with_quota state q', r).

Definition reserve_dup_fd (state : ProcessSecurityState) (source_fd : Z)
    : ProcessSecurityState * IpcResult bool :=
  let '(q', r) := Quota.reserve_dup_fd (sec_quota state) source_fd in (with_quota state q', r).

Definition register_pipe_fd (state : ProcessSecurityState) (fd : Z) : ProcessSecurityState :=
  with_quota state (Quota.register_pipe_fd (sec_quota state) fd).

Definition unregister_pipe_fd (state : ProcessSecurityState) (fd : Z) : ProcessSecurityState :=
  with_quota state (Quota.unregister_pipe_fd (sec_quota state) fd).

Definition release_fd (state : ProcessSecurityState) (fd : Z) : ProcessSecurityState :=
  with_quota state (Quota.release_fd (sec_quota state) fd).

End Facade.
Import Facade.

(** ** Theorems *)

Lemma push_stamped_appends w log mk :
  sink_view w log ->
  exists w' ts, push_stamped w mk = Ret w' /\ in_width 64 ts /\
                sink_view w' (log_append log (mk ts)).
Proof.
  intros [Hr Ht]. unfold push_stamped.
  destruct (get_time_ms_ok _ Ht) as (ms & t' & -> & Ht' & Hms). cbn.
  destruct (push_refines (AUDIT_RING w) log (mk ms) Hr) as (r' & -> & Hr'). cbn.
  eexists _, ms. split; [done|]. split; [done|]. by split.
Qed.

(** The ring buffer keeps the promise of the interface. *)
#[export] Instance audit_world_sink_laws : AuditSinkLaws AuditWorld.
Proof.
  constructor. intros w log req out Hv. cbn [sink_record audit_world_sink]. unfold record, log_outcome.
  case_if.
  - exists w, 0. split; [done|]. split; [vm_compute; intuition congruence|done].
  - by apply push_stamped_appends.
Qed.

Section ProtocolFacts.
Context {W : Type} {S : AuditSink W} {L : @AuditSinkLaws W S}.
Implicit Types (w : W) (st : ProcessSecurityState).

(** What a preflight does, in terms of the log: nothing on success, one failure
    event on a refusal, and a refusal leaves the security state unchanged. *)
Lemma preflight_spec st w log req :
  sink_view w log ->
  exists st' w' r, preflight st w req = Ret (st', w', r) /\
    sec_credentials st' = sec_credentials st /\
    match r with
    | Ok p => w' = w /\ permit_request p = req /\ Policy.authorize req = Ok tt /\
              Quota.reserve (sec_quota st) req = (sec_quota st', Ok (permit_reservation p))
    | Err e => st' = st /\
               (Policy.authorize req = Err e \/
                Policy.authorize req = Ok tt /\ Quota.reserve (sec_quota st) req = (sec_quota st, Err e)) /\
               exists ts, in_width 64 ts /\
               sink_view w' (log_append log (from_request req (Err e) ts))
    end.
Proof.
  intros Hv. unfold preflight.
  assert (Hrec : forall e, exists w' ts, sink_record w req (Err e) = Ret w' /\ in_width 64 ts /\
                 sink_view w' (log_append log (from_request req (Err e) ts))).
  { intros e. destruct (sink_record_appends w log req (Err e) Hv) as (w' & ts & ? & ? & Hv').
    unfold log_outcome in Hv'. rewrite andb_false_r in Hv'. eauto. }
  destruct (Policy.authorize req) as [[]|e].
  - destruct (Quota.reserve (sec_quota st) req) as [q' [res|e]] eqn:Eq.
    + eexists _, _, _. split; [done|]. cbn. done.
    + destruct (Hrec e) as (w' & ts & -> & ? & ?). eexists _, _, _. split; [done|]. cbn.
      assert (q' = sec_quota st) as ->.
      { unfold Quota.reserve, Quota.reserve_pipe_fds in Eq.
        repeat case_match; simplify_eq; done. }
      split; [done|]. split; [by destruct st|]. split; [by right|by eauto].
  - destruct (Hrec e) as (w' & ts & -> & ? & ?). eexists _, _, _. split; [done|]. cbn.
    split_and!; [done|done|by left|by eauto].
Qed.

Lemma complete_spec st w log p out :
  sink_view w log ->
  exists w' ts, complete st w p out
    = Ret (with_quota st (Quota.finish (sec_quota st) (permit_reservation p) (is_ok out)), w', out) /\
    in_width 64 ts /\ sink_view w' (log_outcome log (permit_request p) out ts).
Proof.
  intros Hv. unfold complete.
  destruct (sink_record_appends w log (permit_request p) out Hv) as (w' & ts & -> & ? & ?).
  cbn. eauto.
Qed.

(** C7: a request that goes through [preflight] and then [complete] with any
    outcome leaves exactly one event in the audit log (a successful audit read
    none), the caller gets the outcome unchanged, and when the operation
    failed the quota is back to what it was before [preflight]. *)
Theorem facade_logs_once_and_rolls_back st w log req out :
  sink_view w log -> Quota.quota_wf (sec_quota st) ->
  exists st' w' r, preflight st w req = Ret (st', w', r) /\
    match r with
    | Err e => st' = st /\ exists ts, sink_view w' (log_append log (from_request req (Err e) ts))
    | Ok p => exists st'' w'' ts, complete st' w' p out = Ret (st'', w'', out) /\
        sink_view w'' (log_outcome log req out ts) /\
        (is_ok out = false -> st'' = st)
    end.
Proof.
  intros Hv Hq. destruct (preflight_spec st w log req Hv) as (st1 & w1 & r & Hp & Hc & Hr).
  exists st1, w1, r. split; [done|]. destruct r as [p|e].
  - destruct Hr as (-> & Hpr & _ & Hres).
    destruct (complete_spec st1 w log p out Hv) as (w2 & ts & Hcm & _ & Hv2).
    eexists _, w2, ts. split_and!; [done|by rewrite Hpr in Hv2|].
    intros ->. destruct st as [cr q], st1 as [cr1 q1], p as [preq pres]. cbn in *. subst cr1.
    unfold with_quota; cbn. f_equal. unfold Quota.finish, Quota.reserve in *.
    destruct (req_operation req); simplify_eq; try done.
    destruct (Quota.reserve_pipe_fds q _) as [q2 [[]|]] eqn:E; simplify_eq. cbn.
    apply (reserve_pipe_release q Quota.PIPE_ENDPOINTS_PER_PIPE); [done| |done].
    unfold Quota.PIPE_ENDPOINTS_PER_PIPE. lia.
  - destruct Hr as (-> & _ & ts & _ & ?). eauto.
Qed.

End ProtocolFacts.
