(* ===== verification/Address.v ===== *)
(** * SV39 addresses and page numbers

    Models [os/src/mm/address.rs] and the constants of [os/src/config.rs].
    The four newtypes over [usize] are [Z]s here; the conversions keep the
    names of their source and target types. *)
From S2P Require Import Prelude.

Module Address.

Definition PAGE_SIZE : Z := 0x1000.
Definition PAGE_SIZE_BITS : Z := 0xc.
Definition USER_STACK_SIZE : Z := 4096 * 2.
Definition KERNEL_STACK_SIZE : Z := 4096 * 2.
Definition TRAMPOLINE : Z := U64_MAX - PAGE_SIZE + 1.
Definition TRAP_CONTEXT : Z := TRAMPOLINE - PAGE_SIZE.

Definition PA_WIDTH_SV39 : Z := 56.
Definition VA_WIDTH_SV39 : Z := 39.
Definition PPN_WIDTH_SV39 : Z := PA_WIDTH_SV39 - PAGE_SIZE_BITS.
Definition VPN_WIDTH_SV39 : Z := VA_WIDTH_SV39 - PAGE_SIZE_BITS.

(** [From<usize>] for the four newtypes: keep the low bits. *)
Definition PhysAddr_from (v : Z) : Z := Z.land v (Z.shiftl 1 PA_WIDTH_SV39 - 1).
Definition PhysPageNum_from (v : Z) : Z := Z.land v (Z.shiftl 1 PPN_WIDTH_SV39 - 1).
Definition VirtAddr_from (v : Z) : Z := Z.land v (Z.shiftl 1 VA_WIDTH_SV39 - 1).
Definition VirtPageNum_from (v : Z) : Z := Z.land v (Z.shiftl 1 VPN_WIDTH_SV39 - 1).

(** [usize::from(VirtAddr)] sign-extends bit 38. *)
Definition usize_from_VirtAddr (v : Z) : Z :=
  if Z.shiftl 1 (VA_WIDTH_SV39 - 1) <=? v
  then Z.lor v (bit_not 64 (Z.shiftl 1 VA_WIDTH_SV39 - 1))
  else v.

(** [VirtAddr] and [PhysAddr] methods (the two impls have the same bodies). *)
Definition floor (v : Z) : Z := v / PAGE_SIZE.
Definition ceil (v : Z) : Z := if v =? 0 then 0 else (v - 1 + PAGE_SIZE) / PAGE_SIZE.
Definition page_offset (v : Z) : Z := Z.land v (PAGE_SIZE - 1).
Definition aligned (v : Z) : bool := page_offset v =? 0.

(** [VirtPageNum::from(VirtAddr)] and [PhysPageNum::from(PhysAddr)]. *)
Definition page_num_from_addr (v : Z) : outcome Z :=
  _ ← assert_ (page_offset v =? 0); Ret (floor v).

(** [VirtAddr::from(VirtPageNum)] and [PhysAddr::from(PhysPageNum)]. *)
Definition addr_from_page_num (v : Z) : Z := wrap 64 (Z.shiftl v PAGE_SIZE_BITS).

(** [VirtPageNum::indexes]: the loop fills [idx[2]], [idx[1]], [idx[0]]. *)
Definition indexes (vpn : Z) : list Z :=
  let i2 := Z.land vpn 511 in
  let vpn := Z.shiftr vpn 9 in
  let i1 := Z.land vpn 511 in
  let vpn := Z.shiftr vpn 9 in
  let i0 := Z.land vpn 511 in
  [i0; i1; i2].

(** [StepByOne::step]. *)
Definition step (v : Z) : Z := wrap 64 (v + 1).

(** [SimpleRange] and its iterator. *)
Record SimpleRange : Type := mkRange { range_l : Z; range_r : Z }.

Definition range_new (start end_ : Z) : outcome SimpleRange :=
  _ ← assert_ (start <=? end_); Ret {| range_l := start; range_r := end_ |}.

Definition range_next (current end_ : Z) : option (Z * Z) :=
  if current =? end_ then None else Some (current, step current).

(** [for vpn in range]: all items the iterator yields. *)
Fixpoint range_collect (fuel : nat) (current end_ : Z) : outcome (list Z) :=
  match fuel with
  | O => OutOfFuel
  | S fuel' =>
      match range_next current end_ with
      | None => Ret []
      | Some (t, current') => l ← range_collect fuel' current' end_; Ret (t :: l)
      end
  end.

Definition range_iter (r : SimpleRange) : outcome (list Z) :=
  range_collect (S (Z.to_nat (range_r r - range_l r))) (range_l r) (range_r r).

End Address.
Import Address.

(** ** Lemmas *)

Lemma land_low_bits v k : 0 <= k -> Z.land v (Z.shiftl 1 k - 1) = v mod 2 ^ k.
Proof.
  intros Hk. rewrite Z.shiftl_1_l. rewrite <- Z.land_ones by done.
  by rewrite Z.ones_equiv, <- Z.sub_1_r.
Qed.

Lemma VirtAddr_from_mod v : VirtAddr_from v = v mod 2 ^ 39.
Proof. unfold VirtAddr_from, VA_WIDTH_SV39. by apply land_low_bits. Qed.

Lemma VirtAddr_from_small v : 0 <= v < 2 ^ 39 -> VirtAddr_from v = v.
Proof. intros. rewrite VirtAddr_from_mod. by apply Z.mod_small. Qed.

Lemma page_offset_mod v : page_offset v = v mod 4096.
Proof.
  unfold page_offset, PAGE_SIZE. change (0x1000 - 1) with (Z.ones 12). by rewrite Z.land_ones.
Qed.

Lemma floor_div v : floor v = v / 4096.
Proof. done. Qed.

Lemma PhysPageNum_from_small v : 0 <= v < 2 ^ 44 -> PhysPageNum_from v = v.
Proof.
  intros. unfold PhysPageNum_from, PPN_WIDTH_SV39, PA_WIDTH_SV39, PAGE_SIZE_BITS.
  rewrite land_low_bits by lia. by apply Z.mod_small.
Qed.

Lemma PhysAddr_from_small v : 0 <= v < 2 ^ 56 -> PhysAddr_from v = v.
Proof.
  intros. unfold PhysAddr_from, PA_WIDTH_SV39. rewrite land_low_bits by lia. by apply Z.mod_small.
Qed.

Lemma addr_from_page_num_mul v : 0 <= v < 2 ^ 52 -> addr_from_page_num v = v * 4096.
Proof.
  intros. unfold addr_from_page_num, PAGE_SIZE_BITS. rewrite Z.shiftl_mul_pow2 by lia.
  apply wrap_small. unfold in_width. lia.
Qed.

(** [cur & !(PAGE_SIZE - 1)] rounds down to a page boundary. *)
Lemma land_not_page_mask v : in_width 64 v -> Z.land v (bit_not 64 (PAGE_SIZE - 1)) = v - v mod 4096.
Proof.
  intros Hv. unfold bit_not.
  rewrite Z.land_assoc, (Z.land_comm v), <- Z.land_assoc.
  rewrite Z.land_ones by lia. rewrite Z.mod_small by done.
  change (PAGE_SIZE - 1) with (Z.ones 12). rewrite Z.land_comm, <- Z.ldiff_land.
  rewrite Z.ldiff_ones_r by lia. rewrite Z.shiftl_mul_pow2, Z.shiftr_div_pow2 by lia.
  change (2 ^ 12) with 4096. lia_mod.
Qed.

(** The three 9-bit indexes determine the page number. *)
Lemma indexes_value vpn :
  indexes vpn = [vpn / 2 ^ 18 mod 512; vpn / 2 ^ 9 mod 512; vpn mod 512].
Proof.
  unfold indexes. change 511 with (Z.ones 9). rewrite !Z.land_ones by lia.
  rewrite !Z.shiftr_div_pow2 by lia. change (2 ^ 9) with 512. change (2 ^ 18) with (512 * 512).
  by rewrite Z.div_div by lia.
Qed.

Lemma indexes_inj v1 v2 :
  0 <= v1 < 2 ^ 27 -> 0 <= v2 < 2 ^ 27 -> indexes v1 = indexes v2 -> v1 = v2.
Proof.
  intros H1 H2. rewrite !indexes_value. intros [= E0 E1 E2].
  change (2 ^ 18) with 262144 in *. change (2 ^ 9) with 512 in *. change (2 ^ 27) with 134217728 in *.
  lia_mod.
Qed.

Lemma range_collect_spec fuel l r :
  0 <= l <= r -> r < 2 ^ 64 -> (Z.to_nat (r - l) < fuel)%nat ->
  range_collect fuel l r = Ret (seqZ l (r - l)).
Proof.
  revert l. induction fuel as [|fuel IH]; intros l Hl Hr Hf; [lia|]. cbn.
  unfold range_next. destruct (Z.eqb_spec l r) as [->|Hne].
  - rewrite Z.sub_diag. done.
  - unfold step. rewrite wrap_small by (unfold in_width; lia).
    rewrite IH by lia. cbn. rewrite (seqZ_cons l) by lia. do 3 f_equal; lia.
Qed.

(** Iterating over a range visits each page number of [[l, r)] once, in order. *)
Lemma range_iter_spec l r :
  0 <= l <= r -> r < 2 ^ 64 ->
  (x ← range_new l r; range_iter x) = Ret (seqZ l (r - l)).
Proof.
  intros Hl Hr. unfold range_new, assert_. destruct (Z.leb_spec l r); [|lia].
  change (range_collect (S (Z.to_nat (r - l))) l r = Ret (seqZ l (r - l))).
  apply range_collect_spec; lia.
Qed.
