(* ===== verification/Allocators.v ===== *)
(** * Identifier allocators

    Models the physical frame allocator ([os/src/mm/frame_allocator.rs],
    [StackFrameAllocator]) and the PID allocator ([os/src/task/pid.rs],
    [PidAllocator]).  Both hand out the next unused number or the most
    recently returned one.  [IdAllocator] is what they promise to their
    clients: an allocated number is not in use, and only numbers in use can
    be given back. *)
From S2P Require Import Prelude Address.
Import Address.

(** ** The interface *)

Class IdAllocator (A : Type) : Type := {
  id_alloc : A -> outcome (option Z * A);
  id_dealloc : A -> Z -> outcome A;
  id_live : A -> Z -> Prop;        (** the numbers in use *)
  id_wf : A -> Prop;
}.

Class IdAllocatorLaws (A : Type) {I : IdAllocator A} : Prop := {
  id_alloc_fresh : forall a, id_wf a ->
    exists r a', id_alloc a = Ret (r, a') /\ id_wf a' /\
    match r with
    | Some x => ~ id_live a x /\ (forall y, id_live a' y <-> id_live a y \/ y = x)
    | None => a' = a
    end;
  id_dealloc_live : forall a x, id_wf a -> id_live a x ->
    exists a', id_dealloc a x = Ret a' /\ id_wf a' /\
    (forall y, id_live a' y <-> id_live a y /\ y <> x);
}.

(** ** [StackFrameAllocator] *)

Module Frames.

Record StackFrameAllocator : Type := mkFrames {
  current : Z;
  end_ : Z;
  recycled : list Z;       (** a stack: the head is the last element of the [Vec] *)
}.

Definition new : StackFrameAllocator := {| current := 0; end_ := 0; recycled := [] |}.

Definition init (self : StackFrameAllocator) (l r : Z) : StackFrameAllocator :=
  {| current := l; end_ := r; recycled := recycled self |}.

Definition alloc (self : StackFrameAllocator) : option Z * StackFrameAllocator :=
  match recycled self with
  | ppn :: rest =>
      (Some (PhysPageNum_from ppn),
       {| current := current self; end_ := end_ self; recycled := rest |})
  | [] =>
      if current self =? end_ self then (None, self)
      else (Some (PhysPageNum_from (wrap 64 (wrap 64 (current self + 1) - 1))),
            {| current := wrap 64 (current self + 1); end_ := end_ self; recycled := [] |})
  end.

Definition dealloc (self : StackFrameAllocator) (ppn : Z) : outcome StackFrameAllocator :=
  if (current self <=? ppn) || bool_decide (ppn ∈ recycled self) then Panic
  else Ret {| current := current self; end_ := end_ self; recycled := ppn :: recycled self |}.

(** The frames in use, and the invariant, of an allocator initialised with the
    frames [[lo, end_)]. *)
Definition live (lo : Z) (a : StackFrameAllocator) (x : Z) : Prop :=
  lo <= x < current a /\ x ∉ recycled a.

Definition wf (lo : Z) (a : StackFrameAllocator) : Prop :=
  0 <= lo <= current a /\ current a <= end_ a /\ end_ a <= 2 ^ 44 /\
  NoDup (recycled a) /\ Forall (fun x => lo <= x < current a) (recycled a).

End Frames.

(** ** [PidAllocator] *)

Module Pids.

Record PidAllocator : Type := mkPids {
  current : Z;
  recycled : list Z;
}.

Definition new : PidAllocator := {| current := 1; recycled := [] |}.

Definition alloc (self : PidAllocator) : Z * PidAllocator :=
  match recycled self with
  | pid :: rest => (pid, {| current := current self; recycled := rest |})
  | [] =>
      let next := wrap 64 (current self + 1) in
      (wrap 64 (next - 1), {| current := next; recycled := [] |})
  end.

Definition dealloc (self : PidAllocator) (pid : Z) : outcome PidAllocator :=
  _ ← assert_ (pid <? current self);
  _ ← assert_ (negb (bool_decide (pid ∈ recycled self)));
  Ret {| current := current self; recycled := pid :: recycled self |}.

Definition live (a : PidAllocator) (x : Z) : Prop :=
  1 <= x < current a /\ x ∉ recycled a.

Definition wf (a : PidAllocator) : Prop :=
  1 <= current a /\ NoDup (recycled a) /\ Forall (fun x => 1 <= x < current a) (recycled a).

(** [kernel_stack_position]: the kernel stack of a process, below the
    trampoline, with one guard page between two stacks. *)
Definition kernel_stack_position (app_id : Z) : Z * Z :=
  let top := wrap 64 (TRAMPOLINE - wrap 64 (app_id * (KERNEL_STACK_SIZE + PAGE_SIZE))) in
  let bottom := wrap 64 (top - KERNEL_STACK_SIZE) in
  (bottom, top).

End Pids.

(** ** Theorems *)

(** Shared facts on a stack of returned numbers. *)
Lemma recycled_pop (lo cur x : Z) rest :
  NoDup (x :: rest) -> Forall (fun y => lo <= y < cur) (x :: rest) ->
  lo <= x < cur /\ (x ∉ rest) /\ NoDup rest /\ Forall (fun y => lo <= y < cur) rest.
Proof. rewrite NoDup_cons, Forall_cons. tauto. Qed.

Lemma Forall_range_mono (lo cur cur' : Z) l :
  cur <= cur' -> Forall (fun y => lo <= y < cur) l -> Forall (fun y => lo <= y < cur') l.
Proof. intros. eapply Forall_impl; [done|]. cbn. lia. Qed.

Section FrameAllocatorFacts.
Import Frames.

#[export] Instance frame_id_allocator (lo : Z) : IdAllocator StackFrameAllocator := {|
  id_alloc := fun a => Ret (alloc a);
  id_dealloc := dealloc;
  id_live := live lo;
  id_wf := wf lo;
|}.

Lemma frame_init_wf lo r a :
  0 <= lo <= r -> r <= 2 ^ 44 -> recycled a = [] -> wf lo (init a lo r).
Proof. intros. unfold wf. cbn. rewrite H1. split_and!; try lia; [apply NoDup_nil_2|done]. Qed.

Lemma frame_alloc_fresh lo a :
  wf lo a ->
  match alloc a with
  | (Some x, a') => wf lo a' /\ ~ live lo a x /\ lo <= x < end_ a /\
                    (forall y, live lo a' y <-> live lo a y \/ y = x)
  | (None, a') => a' = a /\ (forall x, lo <= x < end_ a -> live lo a x)
  end.
Proof.
  intros (H1 & H2 & H3 & Hn & Hf). unfold alloc, live.
  destruct (recycled a) as [|p rest] eqn:Er.
  - destruct (Z.eqb_spec (current a) (end_ a)) as [E|E].
    + split; [done|]. intros x Hx. split; [lia|]. apply not_elem_of_nil.
    + rewrite (wrap_small 64 (current a + 1)) by (unfold in_width; lia).
      replace (current a + 1 - 1) with (current a) by lia.
      rewrite wrap_small by (unfold in_width; lia).
      rewrite PhysPageNum_from_small by lia.
      unfold wf; cbn. split_and!; try lia; try done. intros y. rewrite !elem_of_nil. split; [|intros [[? ?]| ->]; split; try lia; tauto].
      intros [? ?]. destruct (decide (y = current a)); [by right|left; split; [lia|tauto]].
  - apply recycled_pop in Hf as (Hp & Hnp & Hn' & Hf'); [|done].
    rewrite PhysPageNum_from_small by lia. unfold wf; cbn.
    split_and!; try lia; try done.
    + rewrite elem_of_cons. tauto.
    + intros y. rewrite elem_of_cons. destruct (decide (y = p)); naive_solver.
Qed.

Lemma frame_dealloc_live lo a x :
  wf lo a -> live lo a x ->
  exists a', dealloc a x = Ret a' /\ wf lo a' /\
  (forall y, live lo a' y <-> live lo a y /\ y <> x).
Proof.
  intros (H1 & H2 & H3 & Hn & Hf) [Hx Hxr]. unfold dealloc.
  destruct (Z.leb_spec (current a) x); [lia|]. rewrite bool_decide_eq_false_2 by done. cbn.
  eexists; split; [done|]. split.
  - unfold wf; cbn. rewrite NoDup_cons, Forall_cons. split_and!; done || lia.
  - intros y. unfold live; cbn. rewrite elem_of_cons. naive_solver.
Qed.

#[export] Instance frame_id_allocator_laws lo : @IdAllocatorLaws _ (frame_id_allocator lo).
Proof.
  constructor; cbn.
  - intros a Hw. pose proof (frame_alloc_fresh lo a Hw) as H.
    destruct (alloc a) as [[x|] a']; eexists _, _; split; try done; cbn.
    + destruct H as (?&?&?&?). done.
    + destruct H as (-> & _). done.
  - intros. by apply frame_dealloc_live.
Qed.

(** A frame that is not in use cannot be freed: the double free panics. *)
Lemma frame_double_free_panics lo a x :
  wf lo a -> lo <= x -> ~ live lo a x -> dealloc a x = Panic.
Proof.
  intros Hw Hx Hl. unfold dealloc. destruct (Z.leb_spec (current a) x); [done|].
  rewrite bool_decide_eq_true_2; [done|]. destruct (decide (x ∈ recycled a)); [done|].
  exfalso. apply Hl. split; [lia|done].
Qed.

End FrameAllocatorFacts.

Section PidAllocatorFacts.
Import Pids.

#[export] Instance pid_id_allocator : IdAllocator PidAllocator := {|
  id_alloc := fun a => let '(x, a') := alloc a in Ret (Some x, a');
  id_dealloc := dealloc;
  id_live := live;
  id_wf := fun a => wf a /\ current a < 2 ^ 64 - 1;
|}.

Lemma pid_alloc_fresh a :
  wf a -> current a < 2 ^ 64 - 1 ->
  let '(x, a') := alloc a in
  wf a' /\ ~ live a x /\ 1 <= x <= current a /\ current a' <= current a + 1 /\
  (forall y, live a' y <-> live a y \/ y = x).
Proof.
  intros (H1 & Hn & Hf) Hb. unfold alloc, live.
  destruct (recycled a) as [|p rest] eqn:Er.
  - rewrite (wrap_small 64 (current a + 1)) by (unfold in_width; lia).
    replace (current a + 1 - 1) with (current a) by lia.
    rewrite wrap_small by (unfold in_width; lia).
    unfold wf; cbn. split_and!; try lia; try done. intros y. rewrite !elem_of_nil. split; [|intros [[? ?]| ->]; split; try lia; tauto].
      intros [? ?]. destruct (decide (y = current a)); [by right|left; split; [lia|tauto]].
  - apply recycled_pop in Hf as (Hp & Hnp & Hn' & Hf'); [|done].
    unfold wf; cbn. split_and!; try lia; try done.
    + rewrite elem_of_cons. tauto.
    + intros y. rewrite elem_of_cons. destruct (decide (y = p)); naive_solver.
Qed.

Lemma pid_dealloc_live a x :
  wf a -> live a x ->
  exists a', dealloc a x = Ret a' /\ wf a' /\ current a' = current a /\
  (forall y, live a' y <-> live a y /\ y <> x).
Proof.
  intros (H1 & Hn & Hf) [Hx Hxr]. unfold dealloc, assert_.
  destruct (Z.ltb_spec x (current a)); [|lia]. rewrite bool_decide_eq_false_2 by done. cbn.
  eexists; split; [done|]. split_and!; [|done|].
  - unfold wf; cbn. rewrite NoDup_cons, Forall_cons. split_and!; done || lia.
  - intros y. unfold live; cbn. rewrite elem_of_cons. naive_solver.
Qed.

(** The kernel stacks of two processes never overlap: there is at least one
    unmapped guard page between them, and they lie below the trampoline. *)
Lemma kernel_stacks_disjoint p q :
  0 <= p < q -> q < 2 ^ 48 ->
  let '(bp, tp) := kernel_stack_position p in
  let '(bq, tq) := kernel_stack_position q in
  bp + KERNEL_STACK_SIZE = tp /\ tq + PAGE_SIZE <= bp /\ tp <= TRAMPOLINE.
Proof.
  intros Hp Hq. unfold kernel_stack_position, TRAMPOLINE, U64_MAX, KERNEL_STACK_SIZE, PAGE_SIZE.
  rewrite !(wrap_small 64 (_ * _)) by (unfold in_width; lia).
  rewrite !(wrap_small 64 (2 ^ 64 - 1 - 0x1000 + 1 - _)) by (unfold in_width; lia).
  rewrite !wrap_small by (unfold in_width; lia). lia.
Qed.

End PidAllocatorFacts.
