(* ===== verification/PageTable.v ===== *)
(** * Physical memory and SV39 page tables

    Models the part of [os/src/mm/page_table.rs] that walks and edits page
    tables, and the raw accesses of [address.rs] ([get_pte_array],
    [get_bytes_array]) through the kernel's identity mapping.  Physical memory
    is a byte map; a byte that was never written reads as zero. *)
From S2P Require Import Prelude Address Allocators.
Import Address.

Module Mem.

Abbreviation PhysMem := (gmap Z Z).

Definition load (m : PhysMem) (a : Z) : Z := default 0 (m !! a).
Definition store (m : PhysMem) (a b : Z) : PhysMem := <[a := b]> m.

Definition load_bytes (m : PhysMem) (a : Z) (n : nat) : list Z :=
  (fun i => load m (a + Z.of_nat i)) <$> seq 0 n.

Fixpoint store_bytes (m : PhysMem) (a : Z) (bs : list Z) : PhysMem :=
  match bs with
  | [] => m
  | b :: bs' => store_bytes (store m a b) (a + 1) bs'
  end.

Definition load_u64 (m : PhysMem) (a : Z) : Z := le_value (load_bytes m a 8).
Definition store_u64 (m : PhysMem) (a v : Z) : PhysMem := store_bytes m a (le_bytes 8 v).

End Mem.
Import Mem.

Module PageTable.

Definition MAX_STR_LEN : Z := 0x10000.
Definition MAX_ARGV : Z := 64.
Definition USER_VA_LIMIT : Z := Z.shiftl 1 38.

(** [PTEFlags]: all eight bits are declared, so [from_bits] accepts every [u8]
    ([PTEFlags_from_bits_total]) and a flag set is just its bits. *)
Definition PTE_V : Z := Z.shiftl 1 0.
Definition PTE_R : Z := Z.shiftl 1 1.
Definition PTE_W : Z := Z.shiftl 1 2.
Definition PTE_X : Z := Z.shiftl 1 3.
Definition PTE_U : Z := Z.shiftl 1 4.
Definition PTE_G : Z := Z.shiftl 1 5.
Definition PTE_A : Z := Z.shiftl 1 6.
Definition PTE_D : Z := Z.shiftl 1 7.
Definition PTEFlags_all : Z := 0xff.

Definition from_bits (all b : Z) : option Z :=
  if Z.land b (bit_not 64 all) =? 0 then Some b else None.
Definition flags_contains (self other : Z) : bool := bits_contains self other.

(** [PageTableEntry { bits }] is its 64-bit value. *)
Definition pte_new (ppn flags : Z) : Z := Z.lor (wrap 64 (Z.shiftl ppn 10)) flags.
Definition pte_empty : Z := 0.
Definition pte_ppn (bits : Z) : Z :=
  PhysPageNum_from (Z.land (Z.shiftr bits 10) (Z.shiftl 1 44 - 1)).
Definition pte_flags (bits : Z) : Z := wrap 8 bits.
Definition is_valid (bits : Z) : bool := negb (Z.land (pte_flags bits) PTE_V =? 0).
Definition readable (bits : Z) : bool := negb (Z.land (pte_flags bits) PTE_R =? 0).
Definition writable (bits : Z) : bool := negb (Z.land (pte_flags bits) PTE_W =? 0).
Definition executable (bits : Z) : bool := negb (Z.land (pte_flags bits) PTE_X =? 0).

(** The frame an entry array or byte array starts at. *)
Definition frame_base (ppn : Z) : Z := addr_from_page_num ppn.

(** [&mut ppn.get_pte_array()[idx]], as the address of the entry. *)
Definition pte_slot (ppn idx : Z) : Z := frame_base ppn + 8 * idx.

Record PageTable : Type := mkPageTable {
  root_ppn : Z;
  pt_frames : list Z;       (** the [FrameTracker]s it owns *)
}.

(** [PageTable::from_token]. *)
Definition from_token (satp : Z) : PageTable :=
  {| root_ppn := PhysPageNum_from (Z.land satp (Z.shiftl 1 44 - 1)); pt_frames := [] |}.

Definition token (self : PageTable) : Z := Z.lor (Z.shiftl 8 60) (root_ppn self).

(** The walk of [find_pte]: [i] is the level, the result the entry's address. *)
Fixpoint find_pte_walk (m : PhysMem) (ppn i : Z) (idxs : list Z) : option Z :=
  match idxs with
  | [] => None
  | idx :: idxs' =>
      let pte := pte_slot ppn idx in
      if i =? 2 then Some pte
      else if negb (is_valid (load_u64 m pte)) then None
      else find_pte_walk m (pte_ppn (load_u64 m pte)) (i + 1) idxs'
  end.

Definition find_pte (m : PhysMem) (self : PageTable) (vpn : Z) : option Z :=
  find_pte_walk m (root_ppn self) 0 (indexes vpn).

Definition translate (m : PhysMem) (self : PageTable) (vpn : Z) : option Z :=
  load_u64 m <$> find_pte m self vpn.

Definition translate_va (m : PhysMem) (self : PageTable) (va : Z) : option Z :=
  (fun pte =>
     let aligned_pa := addr_from_page_num (pte_ppn (load_u64 m pte)) in
     PhysAddr_from (wrap 64 (aligned_pa + page_offset va)))
    <$> find_pte m self (floor va).

(** The memory and the frame allocator that page-table edits work on. *)
Record FrameWorld : Type := mkFW {
  fw_mem : PhysMem;
  fw_alloc : Frames.StackFrameAllocator;
}.

(** [FrameTracker::new] zeroes the frame. *)
Definition zero_frame (m : PhysMem) (ppn : Z) : PhysMem :=
  store_bytes m (frame_base ppn) (replicate 4096 0).

Definition frame_alloc (w : FrameWorld) : option Z * FrameWorld :=
  match Frames.alloc (fw_alloc w) with
  | (Some ppn, a') =>
      (Some ppn,
       {| fw_mem := zero_frame (fw_mem w) ppn; fw_alloc := a' |})
  | (None, a') => (None, {| fw_mem := fw_mem w; fw_alloc := a' |})
  end.

Definition pt_new (w : FrameWorld) : outcome (PageTable * FrameWorld) :=
  match frame_alloc w with
  | (Some ppn, w') => Ret ({| root_ppn := ppn; pt_frames := [ppn] |}, w')
  | (None, _) => Panic
  end.

Fixpoint find_pte_create_walk (w : FrameWorld) (frames : list Z) (ppn i : Z) (idxs : list Z)
    : outcome (option Z * list Z * FrameWorld) :=
  match idxs with
  | [] => Ret (None, frames, w)
  | idx :: idxs' =>
      let pte := pte_slot ppn idx in
      if i =? 2 then Ret (Some pte, frames, w)
      else
        '(frames', w') ←
          (if negb (is_valid (load_u64 (fw_mem w) pte)) then
             match frame_alloc w with
             | (Some f, w1) =>
                 Ret (frames ++ [f],
                      {| fw_mem := store_u64 (fw_mem w1) pte (pte_new f PTE_V);
                         fw_alloc := fw_alloc w1 |})
             | (None, _) => Panic
             end
           else Ret (frames, w));
        find_pte_create_walk w' frames' (pte_ppn (load_u64 (fw_mem w') pte)) (i + 1) idxs'
  end.

Definition find_pte_create (w : FrameWorld) (self : PageTable) (vpn : Z)
    : outcome (option Z * PageTable * FrameWorld) :=
  '(r, frames', w') ← find_pte_create_walk w (pt_frames self) (root_ppn self) 0 (indexes vpn);
  Ret (r, {| root_ppn := root_ppn self; pt_frames := frames' |}, w').

Definition map (w : FrameWorld) (self : PageTable) (vpn ppn flags : Z)
    : outcome (PageTable * FrameWorld) :=
  '(r, self', w') ← find_pte_create w self vpn;
  pte ← unwrap r;
  _ ← assert_ (negb (is_valid (load_u64 (fw_mem w') pte)));
  Ret (self', {| fw_mem := store_u64 (fw_mem w') pte (pte_new ppn (Z.lor flags PTE_V));
                 fw_alloc := fw_alloc w' |}).

Definition unmap (w : FrameWorld) (self : PageTable) (vpn : Z) : outcome FrameWorld :=
  pte ← unwrap (find_pte (fw_mem w) self vpn);
  _ ← assert_ (is_valid (load_u64 (fw_mem w) pte));
  Ret {| fw_mem := store_u64 (fw_mem w) pte pte_empty; fw_alloc := fw_alloc w |}.

End PageTable.
Import PageTable.

#[global] Arguments load : simpl never.
#[global] Arguments load_bytes : simpl never.
#[global] Arguments load_u64 : simpl never.
#[global] Arguments store_u64 : simpl never.
#[global] Arguments translate : simpl never.
#[global] Arguments find_pte : simpl never.
#[global] Arguments frame_base : simpl never.
#[global] Arguments zero_frame : simpl never.
#[global] Strategy 1000 [zero_frame].
#[global] Arguments pte_ppn : simpl never.
#[global] Arguments pte_flags : simpl never.

(** ** Memory lemmas *)

Lemma load_store_eq m a b : load (store m a b) a = b.
Proof. unfold load, store. by rewrite lookup_insert_eq. Qed.

Lemma load_store_ne m a a' b : a <> a' -> load (store m a b) a' = load m a'.
Proof. intros. unfold load, store. by rewrite lookup_insert_ne. Qed.

Lemma store_bytes_app m a bs1 bs2 :
  store_bytes m a (bs1 ++ bs2) = store_bytes (store_bytes m a bs1) (a + Z.of_nat (length bs1)) bs2.
Proof.
  revert m a. induction bs1 as [|b bs1 IH]; intros; cbn; [by rewrite Z.add_0_r|].
  rewrite IH. f_equal. lia.
Qed.

(** A block write changes exactly the bytes of the block. *)
Lemma load_store_bytes m a bs x :
  load (store_bytes m a bs) x
  = if decide (a <= x < a + Z.of_nat (length bs))
    then nth (Z.to_nat (x - a)) bs 0 else load m x.
Proof.
  revert m a. induction bs as [|b bs IH]; intros m a; cbn [store_bytes length].
  - case_decide; [lia|done].
  - rewrite IH. repeat case_decide; try lia.
    + replace (Z.to_nat (x - a)) with (S (Z.to_nat (x - (a + 1)))) by lia. done.
    + assert (x = a) as -> by lia. rewrite load_store_eq. by rewrite Z.sub_diag.
    + by apply load_store_ne; lia.
Qed.

Lemma length_load_bytes m a n : length (load_bytes m a n) = n.
Proof. unfold load_bytes. by rewrite length_fmap, length_seq. Qed.

Lemma load_bytes_ext m1 m2 a n :
  (forall x, a <= x < a + Z.of_nat n -> load m1 x = load m2 x) ->
  load_bytes m1 a n = load_bytes m2 a n.
Proof.
  intros H. apply list_fmap_ext. intros i x Hi. apply lookup_seq in Hi as [-> Hi]. apply H. lia.
Qed.

Lemma load_bytes_lookup m a n i :
  (i < n)%nat -> load_bytes m a n !! i = Some (load m (a + Z.of_nat i)).
Proof. intros. unfold load_bytes. rewrite list_lookup_fmap, lookup_seq_lt by done. done. Qed.

Lemma load_store_bytes_same m a bs : load_bytes (store_bytes m a bs) a (length bs) = bs.
Proof.
  apply list_eq_same_length with (length bs); [done|by rewrite length_load_bytes|].
  intros i x y Hi Hx Hy. rewrite load_bytes_lookup in Hx by done. simplify_eq.
  rewrite load_store_bytes. rewrite decide_True by lia.
  replace (Z.to_nat (a + Z.of_nat i - a)) with i by lia. by apply nth_lookup_Some.
Qed.

Lemma load_u64_store_same m a v : in_width 64 v -> load_u64 (store_u64 m a v) a = v.
Proof.
  intros Hv. unfold load_u64, store_u64.
  replace 8%nat with (length (le_bytes 8 v)) by (by rewrite length_le_bytes).
  rewrite load_store_bytes_same. by apply le_bytes_value.
Qed.

Lemma load_u64_ext m1 m2 a :
  (forall x, a <= x < a + 8 -> load m1 x = load m2 x) -> load_u64 m1 a = load_u64 m2 a.
Proof. intros H. unfold load_u64. f_equal. apply load_bytes_ext. intros. apply H. lia. Qed.

Lemma load_u64_store_ne m a a' v :
  a + 8 <= a' \/ a' + 8 <= a -> load_u64 (store_u64 m a v) a' = load_u64 m a'.
Proof.
  intros Hd. apply load_u64_ext. intros x Hx. unfold store_u64. rewrite load_store_bytes.
  rewrite length_le_bytes by lia. rewrite decide_False by lia. done.
Qed.

(** ** Entry lemmas *)

Lemma PTEFlags_from_bits_total b : from_bits PTEFlags_all (wrap 8 b) = Some (wrap 8 b).
Proof.
  unfold from_bits. assert (Z.land (wrap 8 b) (bit_not 64 PTEFlags_all) = 0) as ->; [|done].
  apply Z.bits_inj'. intros i Hi. rewrite Z.land_spec, Z.bits_0, testbit_bit_not by lia.
  change PTEFlags_all with (Z.ones 8). rewrite Z.testbit_ones_nonneg by lia.
  destruct (Z.ltb_spec i 8); [by rewrite andb_false_r|].
  by rewrite (testbit_high 8) by (lia || apply wrap_in_width; lia).
Qed.

Lemma pte_new_bits ppn flags :
  0 <= ppn < 2 ^ 44 -> in_width 8 flags -> pte_new ppn flags = ppn * 2 ^ 10 + flags.
Proof.
  intros Hp [? ?]. unfold pte_new. rewrite wrap_small.
  - apply lor_shiftl_add; [lia|]. split; [lia|]. apply Z.lt_le_trans with (2 ^ 8); [done|].
    by apply Z.pow_le_mono_r.
  - rewrite Z.shiftl_mul_pow2 by lia. split; [lia|].
    change (2 ^ 64) with (2 ^ 44 * 2 ^ 10 * 2 ^ 10). nia.
Qed.

(** Round trip of an entry: page number and flags come back. *)
Lemma pte_new_fields ppn flags :
  0 <= ppn < 2 ^ 44 -> in_width 8 flags ->
  in_width 64 (pte_new ppn flags) /\
  pte_ppn (pte_new ppn flags) = ppn /\ pte_flags (pte_new ppn flags) = flags.
Proof.
  intros Hp Hf. rewrite pte_new_bits by done. destruct Hf as [Hf1 Hf2].
  change (2 ^ 8) with 256 in *. change (2 ^ 10) with 1024. change (2 ^ 44) with 17592186044416 in *.
  split_and!.
  - split; [lia|]. change (2 ^ 64) with 18446744073709551616. lia.
  - unfold pte_ppn. rewrite land_low_bits by lia. rewrite Z.shiftr_div_pow2 by lia.
    change (2 ^ 10) with 1024. replace ((ppn * 1024 + flags) / 1024) with ppn by lia_mod.
    change (2 ^ 44) with 17592186044416. rewrite Z.mod_small by lia.
    apply PhysPageNum_from_small. change (2 ^ 44) with 17592186044416. lia.
  - unfold pte_flags, wrap. change (2 ^ 8) with 256. lia_mod.
Qed.

Lemma flag_bit_lor f i : 0 <= i < 8 -> in_width 8 f -> in_width 8 (Z.lor f (Z.shiftl 1 i)).
Proof.
  intros Hi Hf. apply lor_in_width; [lia|done|]. rewrite Z.shiftl_1_l. split; [lia|].
  apply Z.pow_lt_mono_r; lia.
Qed.

Lemma is_valid_testbit b : is_valid b = Z.testbit (pte_flags b) 0.
Proof. unfold is_valid, PTE_V. by apply land_one_shift. Qed.

Lemma flags_contains_bit f i :
  0 <= i -> flags_contains f (Z.shiftl 1 i) = Z.testbit f i.
Proof. apply bits_contains_bit. Qed.
