(* ===== verification/PageTableFacts.v ===== *)
(** * Page tables as maps

    The tree of tables that [PageTable] keeps in physical memory, seen as a
    partial map from virtual page numbers to entries.  [pt_wf] is the shape
    invariant: every table frame the [PageTable] owns is labelled with the path
    of indexes that leads to it, and distinct frames have distinct paths. *)
From S2P Require Import Prelude Address Allocators PageTable.
Import Address Mem PageTable.

(** ** Frames and entries *)

Definition in_frame (f x : Z) : Prop := f * 4096 <= x < f * 4096 + 4096.
Definition ppn_ok (f : Z) : Prop := 0 <= f < 2 ^ 44.
Definition idx_ok (i : Z) : Prop := 0 <= i < 512.

Definition entry (m : PhysMem) (f i : Z) : Z := load_u64 m (pte_slot f i).

Lemma frame_base_mul f : ppn_ok f -> frame_base f = f * 4096.
Proof.
  intros [? ?]. apply addr_from_page_num_mul. split; [done|].
  apply Z.lt_trans with (2 ^ 44); [done|]. by apply Z.pow_lt_mono_r.
Qed.

Lemma pte_slot_in_frame f i x : ppn_ok f -> idx_ok i -> pte_slot f i <= x < pte_slot f i + 8 -> in_frame f x.
Proof.
  intros Hf [? ?] Hx. unfold pte_slot, in_frame in *. rewrite frame_base_mul in Hx by done. lia.
Qed.

Lemma in_frame_inj f g x : in_frame f x -> in_frame g x -> f = g.
Proof. unfold in_frame. lia. Qed.

Lemma entry_ext m m' f i :
  ppn_ok f -> idx_ok i -> (forall x, in_frame f x -> load m' x = load m x) -> entry m' f i = entry m f i.
Proof.
  intros Hf Hi H. apply load_u64_ext. intros x Hx. apply H. by apply (pte_slot_in_frame f i).
Qed.

Lemma entry_store_same m f i v : in_width 64 v -> entry (store_u64 m (pte_slot f i) v) f i = v.
Proof. intros. by apply load_u64_store_same. Qed.

Lemma entry_store_ne m f i g j v :
  ppn_ok f -> ppn_ok g -> idx_ok i -> idx_ok j -> (g, j) <> (f, i) ->
  entry (store_u64 m (pte_slot f i) v) g j = entry m g j.
Proof.
  intros Hf Hg [? ?] [? ?] Hne. apply load_u64_store_ne. unfold pte_slot.
  rewrite !frame_base_mul by done. destruct (decide (g = f)) as [->|].
  - assert (j <> i) by congruence. lia.
  - lia.
Qed.

Lemma store_u64_outside m f i v x :
  ppn_ok f -> idx_ok i -> ~ in_frame f x -> load (store_u64 m (pte_slot f i) v) x = load m x.
Proof.
  intros Hf Hi Hx. unfold store_u64. rewrite load_store_bytes, length_le_bytes by lia.
  rewrite decide_False; [done|]. intros H. apply Hx. by apply (pte_slot_in_frame f i).
Qed.

Lemma load_store_zeros m a n x :
  load (store_bytes m a (replicate n 0)) x
  = if decide (a <= x < a + Z.of_nat n) then 0 else load m x.
Proof.
  rewrite load_store_bytes, length_replicate. case_decide; [|done].
  rewrite nth_lookup, lookup_replicate_2 by lia. done.
Qed.

Lemma load_zero_frame m f x :
  ppn_ok f -> load (zero_frame m f) x = if decide (in_frame f x) then 0 else load m x.
Proof.
  intros Hf. unfold zero_frame. rewrite load_store_zeros, frame_base_mul by done.
  apply decide_ext. unfold in_frame. lia.
Qed.

Lemma entry_zero m f i :
  ppn_ok f -> idx_ok i -> (forall x, in_frame f x -> load m x = 0) -> entry m f i = 0.
Proof.
  intros Hf Hi H. unfold entry, load_u64. replace (load_bytes m (pte_slot f i) 8) with (load_bytes ∅ 0 8).
  - by vm_compute.
  - apply list_eq_same_length with 8%nat; [by rewrite length_load_bytes..|].
    intros n x y Hn Hx Hy. rewrite load_bytes_lookup in Hx, Hy by lia. simplify_eq.
    symmetry. apply H. apply (pte_slot_in_frame f i); [done|done|lia].
Qed.

(** ** The shape invariant *)

Record pt_wf (m : PhysMem) (root : Z) (frames : list Z) (lab : gmap Z (list Z)) : Prop := {
  pw_root : lab !! root = Some [];
  pw_dom : forall f, f ∈ frames <-> is_Some (lab !! f);
  pw_nodup : NoDup frames;
  pw_range : forall f, is_Some (lab !! f) -> ppn_ok f;
  pw_inj : forall f g p, lab !! f = Some p -> lab !! g = Some p -> f = g;
  pw_len : forall f p, lab !! f = Some p -> (length p <= 2)%nat;
  pw_child : forall f p i, lab !! f = Some p -> (length p < 2)%nat -> idx_ok i ->
    is_valid (entry m f i) = true -> lab !! pte_ppn (entry m f i) = Some (p ++ [i]);
  pw_parent : forall c p i, lab !! c = Some (p ++ [i]) -> idx_ok i /\
    exists f, lab !! f = Some p /\ is_valid (entry m f i) = true /\ pte_ppn (entry m f i) = c;
  pw_empty : forall f i, is_Some (lab !! f) -> idx_ok i -> is_valid (entry m f i) = false -> entry m f i = 0;
}.

Lemma pt_wf_ext m m' root frames lab :
  pt_wf m root frames lab ->
  (forall f x, is_Some (lab !! f) -> in_frame f x -> load m' x = load m x) ->
  pt_wf m' root frames lab.
Proof.
  intros H Hx. assert (He : forall f p i, lab !! f = Some p -> idx_ok i -> entry m' f i = entry m f i).
  { intros f p i Hf Hi. apply entry_ext; [|done|].
    - apply (pw_range _ _ _ _ H). by eexists.
    - intros x. apply Hx. by eexists. }
  destruct H. split; try done.
  - intros f p i Hf Hp Hi. erewrite He by done. eauto.
  - intros c p i Hc. destruct (pw_parent0 c p i Hc) as (Hi & f & Hf & Hv & E).
    split; [done|]. exists f. erewrite He by done. done.
  - intros f i [p Hf] Hi. erewrite He by done. apply pw_empty0; [by eexists|done].
Qed.

(** What the table maps: valid leaf entries. *)
Definition pt_view (m : PhysMem) (root vpn : Z) : option Z :=
  match translate m {| root_ppn := root; pt_frames := [] |} vpn with
  | Some e => if is_valid e then Some e else None
  | None => None
  end.

Lemma indexes_ok vpn : exists i0 i1 i2, indexes vpn = [i0; i1; i2] /\ idx_ok i0 /\ idx_ok i1 /\ idx_ok i2.
Proof.
  rewrite indexes_value. eexists _, _, _. split; [reflexivity|]. unfold idx_ok.
  split_and!; apply Z.mod_pos_bound; lia.
Qed.

Lemma find_pte_unfold m pt vpn i0 i1 i2 :
  indexes vpn = [i0; i1; i2] ->
  find_pte m pt vpn
  = let e0 := entry m (root_ppn pt) i0 in
    if is_valid e0 then
      let e1 := entry m (pte_ppn e0) i1 in
      if is_valid e1 then Some (pte_slot (pte_ppn e1) i2) else None
    else None.
Proof.
  intros E. unfold find_pte. rewrite E. cbn [find_pte_walk]. change (0 =? 2) with false.
  change (0 + 1 =? 2) with false. change (0 + 1 + 1 =? 2) with true. cbn iota. unfold entry.
  destruct (is_valid (load_u64 m (pte_slot (root_ppn pt) i0))); cbn [negb]; [|done].
  by destruct (is_valid (load_u64 m (pte_slot (pte_ppn (load_u64 m (pte_slot (root_ppn pt) i0))) i1))).
Qed.

(** The walk reaches exactly the leaf frame labelled with the first two
    indexes. *)
Lemma find_pte_leaf m pt frames lab vpn i0 i1 i2 slot :
  pt_wf m (root_ppn pt) frames lab -> indexes vpn = [i0; i1; i2] ->
  find_pte m pt vpn = Some slot <-> exists c, lab !! c = Some [i0; i1] /\ slot = pte_slot c i2.
Proof.
  intros H E. destruct (indexes_ok vpn) as (j0 & j1 & j2 & E' & H0 & H1 & H2).
  rewrite E in E'. simplify_eq. rewrite (find_pte_unfold m pt vpn j0 j1 j2 E). cbv zeta. split.
  - intros Hf. destruct (is_valid (entry m (root_ppn pt) j0)) eqn:V0; [|done].
    apply (pw_child _ _ _ _ H _ []) in V0; [|apply H|cbn; lia|done]. cbn in V0.
    case_if; [|done]. eapply (pw_child _ _ _ _ H) in E0; [|done|cbn; lia|done]. simplify_eq. by eexists.
  - intros (c & Hc & ->). destruct (pw_parent _ _ _ _ H c [j0] j1 Hc) as (_ & g & Hg & Vg & Eg).
    destruct (pw_parent _ _ _ _ H g [] j0 Hg) as (_ & r & Hr & Vr & Er).
    assert (r = root_ppn pt) as -> by (eapply (pw_inj _ _ _ _ H); [done|apply H]).
    rewrite Vr, Er, Vg, Eg. done.
Qed.

Lemma pt_view_iff m root frames lab vpn i0 i1 i2 e :
  pt_wf m root frames lab -> indexes vpn = [i0; i1; i2] ->
  pt_view m root vpn = Some e <->
  exists c, lab !! c = Some [i0; i1] /\ entry m c i2 = e /\ is_valid e = true.
Proof.
  intros H E. unfold pt_view, translate.
  pose proof (find_pte_leaf m {| root_ppn := root; pt_frames := [] |} frames lab vpn i0 i1 i2) as Hf.
  cbn [root_ppn] in Hf. destruct (find_pte m _ vpn) as [slot|] eqn:Es; cbn [fmap option_fmap option_map].
  - destruct (proj1 (Hf slot H E) eq_refl) as (c & Hc & ->). fold (entry m c i2).
    split.
    + case_if; intros; simplify_eq. by exists c.
    + intros (c' & Hc' & He & Hv). assert (c' = c) as -> by (by eapply (pw_inj _ _ _ _ H)).
      subst e. by rewrite Hv.
  - split; [done|]. intros (c & Hc & _).
    assert (None = Some (pte_slot c i2)) by (apply Hf; eauto). done.
Qed.

Lemma pt_view_ext m m' root frames lab vpn :
  pt_wf m root frames lab ->
  (forall f x, is_Some (lab !! f) -> in_frame f x -> load m' x = load m x) ->
  pt_view m' root vpn = pt_view m root vpn.
Proof.
  intros H Hx. pose proof (pt_wf_ext m m' root frames lab H Hx) as H'.
  destruct (indexes_ok vpn) as (i0 & i1 & i2 & E & _ & _ & Hi2).
  apply option_eq. intros e. rewrite (pt_view_iff m' root frames lab _ _ _ _ _ H' E).
  rewrite (pt_view_iff m root frames lab _ _ _ _ _ H E).
  apply exist_proper. intros c. split; intros (Hc & He & Hv); (split; [done|]); (split; [|done]); rewrite <- He.
  - symmetry. apply entry_ext; [apply (pw_range _ _ _ _ H); by eexists|done|intros x; apply Hx; by eexists].
  - apply entry_ext; [apply (pw_range _ _ _ _ H); by eexists|done|intros x; apply Hx; by eexists].
Qed.

(** Only the bytes of the tables matter to a walk. *)
Lemma find_pte_ext m m' pt frames lab vpn :
  pt_wf m (root_ppn pt) frames lab ->
  (forall f x, is_Some (lab !! f) -> in_frame f x -> load m' x = load m x) ->
  find_pte m' pt vpn = find_pte m pt vpn.
Proof.
  intros H Hx. pose proof (pt_wf_ext m m' _ _ _ H Hx) as H'.
  destruct (indexes_ok vpn) as (i0 & i1 & i2 & E & _). apply option_eq. intros slot.
  by rewrite (find_pte_leaf m' pt _ _ _ _ _ _ _ H' E), (find_pte_leaf m pt _ _ _ _ _ _ _ H E).
Qed.

Lemma translate_ext m m' pt frames lab vpn :
  pt_wf m (root_ppn pt) frames lab ->
  (forall f x, is_Some (lab !! f) -> in_frame f x -> load m' x = load m x) ->
  translate m' pt vpn = translate m pt vpn.
Proof.
  intros H Hx. unfold translate. rewrite (find_pte_ext m m' pt frames lab vpn H Hx).
  destruct (find_pte m pt vpn) as [slot|] eqn:Es; [|done]. cbn. f_equal.
  destruct (indexes_ok vpn) as (i0 & i1 & i2 & E & _ & _ & Hi2).
  destruct (proj1 (find_pte_leaf m pt frames lab vpn i0 i1 i2 slot H E) Es) as (c & Hc & ->).
  apply entry_ext; [apply (pw_range _ _ _ _ H); by eexists|done|]. intros x. apply Hx. by eexists.
Qed.

(** ** Edits *)

(** Two tables over one label map, up to what the leaves hold. *)
Definition same_leaves (m m' : PhysMem) (lab lab' : gmap Z (list Z)) : Prop :=
  forall c i0 i1 i2 e, idx_ok i2 -> is_valid e = true ->
    (lab' !! c = Some [i0; i1] /\ entry m' c i2 = e) <-> (lab !! c = Some [i0; i1] /\ entry m c i2 = e).

Lemma same_leaves_trans m1 m2 m3 l1 l2 l3 :
  same_leaves m1 m2 l1 l2 -> same_leaves m2 m3 l2 l3 -> same_leaves m1 m3 l1 l3.
Proof. intros H1 H2 c i0 i1 i2 e Hi He. by rewrite (H2 c i0 i1 i2 e Hi He), (H1 c i0 i1 i2 e Hi He). Qed.

Lemma same_leaves_view m m' root frames frames' lab lab' vpn :
  pt_wf m root frames lab -> pt_wf m' root frames' lab' -> same_leaves m m' lab lab' ->
  pt_view m' root vpn = pt_view m root vpn.
Proof.
  intros H H' Hs. destruct (indexes_ok vpn) as (i0 & i1 & i2 & E & _ & _ & Hi2).
  apply option_eq. intros e. rewrite (pt_view_iff m' root frames' lab' _ _ _ _ _ H' E).
  rewrite (pt_view_iff m root frames lab _ _ _ _ _ H E). apply exist_proper. intros c.
  pose proof (Hs c i0 i1 i2 e Hi2). naive_solver.
Qed.

(** Linking a fresh zeroed frame below an inner table. *)
Section Link.
Context (m : PhysMem) (root : Z) (frames : list Z) (lab : gmap Z (list Z)) (H : pt_wf m root frames lab).
Context (f : Z) (p : list Z) (i c : Z).
Hypothesis (Hf : lab !! f = Some p) (Hp : (length p < 2)%nat) (Hi : idx_ok i).
Hypothesis (Hinv : is_valid (entry m f i) = false) (Hc : lab !! c = None) (Hcr : ppn_ok c).

Definition linked : PhysMem := store_u64 (zero_frame m c) (pte_slot f i) (pte_new c PTE_V).
Definition linked_lab : gmap Z (list Z) := <[c := p ++ [i]]> lab.

Lemma link_f_range : ppn_ok f.
Proof using H Hf. apply (pw_range _ _ _ _ H). by eexists. Qed.

Lemma link_ne g s : lab !! g = Some s -> g <> c.
Proof using Hc. congruence. Qed.

Lemma link_entry_parent : entry linked f i = pte_new c PTE_V.
Proof using Hcr. apply entry_store_same. by apply pte_new_fields. Qed.

Lemma link_parent_valid : is_valid (entry linked f i) = true /\ pte_ppn (entry linked f i) = c.
Proof using Hcr.
  rewrite link_entry_parent. destruct (pte_new_fields c PTE_V Hcr) as (_ & E1 & E2); [done|].
  split; [|done]. unfold is_valid. by rewrite E2.
Qed.

Lemma link_entry_old g s j :
  lab !! g = Some s -> idx_ok j -> (g, j) <> (f, i) -> entry linked g j = entry m g j.
Proof using H Hf Hi Hc Hcr.
  intros Hg Hj Hne. assert (Hgr : ppn_ok g) by (apply (pw_range _ _ _ _ H); by eexists).
  unfold linked. rewrite entry_store_ne by (done || apply link_f_range).
  apply entry_ext; [done|done|]. intros x Hx. rewrite load_zero_frame by done.
  rewrite decide_False; [done|]. intros Hx'. apply (link_ne g s Hg). by eapply in_frame_inj.
Qed.

Lemma link_entry_new j : idx_ok j -> entry linked c j = 0.
Proof using H Hf Hi Hc Hcr.
  intros Hj. unfold linked.
  rewrite entry_store_ne; [|apply link_f_range|done|done|done|intros E; apply (link_ne f p Hf); congruence].
  apply entry_zero; [done|done|]. intros x Hx. rewrite load_zero_frame by done. by rewrite decide_True.
Qed.

Lemma link_unused g : lab !! g <> Some (p ++ [i]).
Proof using H Hf Hinv.
  intros Hg. destruct (pw_parent _ _ _ _ H g p i Hg) as (_ & f' & Hf' & Hv & _).
  assert (f' = f) as -> by (by eapply (pw_inj _ _ _ _ H)). congruence.
Qed.

Lemma link_outside x : ~ in_frame f x -> ~ in_frame c x -> load linked x = load m x.
Proof using H Hf Hi Hcr.
  intros Hxf Hxc. unfold linked. rewrite store_u64_outside by (done || apply link_f_range).
  rewrite load_zero_frame by done. by rewrite decide_False.
Qed.

Lemma link_lookup g s : linked_lab !! g = Some s -> g = c /\ s = p ++ [i] \/ g <> c /\ lab !! g = Some s.
Proof. unfold linked_lab. intros [[<- <-]|[? ?]]%lookup_insert_Some; [by left|by right]. Qed.

Lemma link_child g s j :
  linked_lab !! g = Some s -> (length s < 2)%nat -> idx_ok j -> is_valid (entry linked g j) = true ->
  linked_lab !! pte_ppn (entry linked g j) = Some (s ++ [j]).
Proof using H Hf Hi Hc Hcr.
  intros Hg Hs Hj Hv. destruct (link_lookup g s Hg) as [[-> ->]|[Hne Hg']].
  - rewrite link_entry_new in Hv by done. done.
  - destruct (decide ((g, j) = (f, i))) as [E|E].
    + injection E as -> ->. assert (s = p) as -> by congruence.
      destruct link_parent_valid as [_ ->]. unfold linked_lab. by rewrite lookup_insert_eq.
    + rewrite (link_entry_old g s j Hg' Hj E) in Hv |- *.
      pose proof (pw_child _ _ _ _ H g s j Hg' Hs Hj Hv) as Hch. unfold linked_lab.
      rewrite lookup_insert_ne; [done|]. congruence.
Qed.

Lemma link_parent g s j :
  linked_lab !! g = Some (s ++ [j]) -> idx_ok j /\
  exists f', linked_lab !! f' = Some s /\ is_valid (entry linked f' j) = true /\ pte_ppn (entry linked f' j) = g.
Proof using H Hf Hi Hinv Hc Hcr.
  intros Hg. destruct (link_lookup g _ Hg) as [[-> E]|[Hne Hg']].
  - apply app_inj_tail in E as [-> ->]. split; [done|]. exists f. unfold linked_lab.
    rewrite lookup_insert_ne by (intros ->; congruence). split; [done|apply link_parent_valid].
  - destruct (pw_parent _ _ _ _ H g s j Hg') as (Hj & f' & Hf' & Hv & E). split; [done|].
    exists f'. unfold linked_lab. rewrite lookup_insert_ne by (intros ->; congruence).
    rewrite (link_entry_old f' s j Hf' Hj); [done|]. intros [= -> ->]. congruence.
Qed.

Lemma link_wf : pt_wf linked root (frames ++ [c]) linked_lab.
Proof using H Hf Hp Hi Hinv Hc Hcr.
  split.
  - unfold linked_lab. rewrite lookup_insert_ne; [apply H|]. intros ->. rewrite (pw_root _ _ _ _ H) in Hc. done.
  - intros g. rewrite elem_of_app, list_elem_of_singleton, (pw_dom _ _ _ _ H). unfold linked_lab.
    rewrite lookup_insert_is_Some'. split; (intros [?|?]; [auto|by auto]).
  - apply NoDup_app. split_and!; [apply H| |apply NoDup_singleton].
    intros g Hg%(pw_dom _ _ _ _ H). rewrite list_elem_of_singleton. intros ->. rewrite Hc in Hg. by destruct Hg.
  - intros g [s Hg]. destruct (link_lookup g s Hg) as [[-> _]|[_ Hg']]; [done|].
    apply (pw_range _ _ _ _ H). by eexists.
  - intros g g' s Hg Hg'. destruct (link_lookup g s Hg) as [[-> ->]|[_ Ho]],
      (link_lookup g' _ Hg') as [[-> E]|[_ Ho']]; subst; try done.
    + by apply link_unused in Ho'.
    + by apply link_unused in Ho.
    + by eapply (pw_inj _ _ _ _ H).
  - intros g s Hg. destruct (link_lookup g s Hg) as [[-> ->]|[_ Ho]].
    + rewrite length_app. cbn. lia.
    + by eapply (pw_len _ _ _ _ H).
  - apply link_child.
  - apply link_parent.
  - intros g j [s Hg] Hj Hv. destruct (link_lookup g s Hg) as [[-> _]|[_ Ho]]; [by apply link_entry_new|].
    destruct (decide ((g, j) = (f, i))) as [[= -> ->]|E].
    + pose proof link_parent_valid as [Hv' _]. congruence.
    + rewrite (link_entry_old g s j Ho Hj E) in Hv |- *. apply (pw_empty _ _ _ _ H); [by eexists|done..].
Qed.

Lemma link_same_leaves : same_leaves m linked lab linked_lab.
Proof using H Hf Hp Hi Hc Hcr.
  intros g i0 i1 i2 e Hi2 He. split.
  - intros [Hg Ee]. destruct (link_lookup g _ Hg) as [[-> E]|[_ Ho]].
    + rewrite link_entry_new in Ee by done. subst e. done.
    + split; [done|]. rewrite (link_entry_old g _ i2 Ho Hi2) in Ee; [done|].
      intros [= -> ->]. rewrite Hf in Ho. injection Ho as ->. cbn in Hp. lia.
  - intros [Hg Ee]. unfold linked_lab. rewrite lookup_insert_ne by (intros ->; congruence).
    split; [done|]. rewrite (link_entry_old g _ i2 Hg Hi2); [done|].
    intros [= -> ->]. rewrite Hf in Hg. injection Hg as ->. cbn in Hp. lia.
Qed.

End Link.

(** Writing a leaf entry. *)
Lemma leaf_store_wf m root frames lab c i0 i1 i2 v :
  pt_wf m root frames lab -> lab !! c = Some [i0; i1] -> idx_ok i2 ->
  in_width 64 v -> (is_valid v = false -> v = 0) ->
  pt_wf (store_u64 m (pte_slot c i2) v) root frames lab.
Proof.
  intros H Hc Hi Hw Hv0. assert (Hcr : ppn_ok c) by (apply (pw_range _ _ _ _ H); by eexists).
  assert (He : forall f p j, lab !! f = Some p -> (length p < 2)%nat -> idx_ok j ->
            entry (store_u64 m (pte_slot c i2) v) f j = entry m f j).
  { intros f p j Hf Hp Hj. apply entry_store_ne; try done.
    - apply (pw_range _ _ _ _ H). by eexists.
    - intros [= -> ->]. rewrite Hc in Hf. simplify_eq. cbn in Hp. lia. }
  pose proof H as []. split; try done.
  - intros f p i Hf Hp Hi'. erewrite He by done. eauto.
  - intros g p i Hg. destruct (pw_parent0 g p i Hg) as (Hi' & f & Hf & Hv & E).
    pose proof (pw_len0 g _ Hg) as Hl. rewrite length_app in Hl. cbn in Hl.
    split; [done|]. exists f. erewrite He by (done || lia). done.
  - intros f i Hf Hi'. destruct (decide ((f, i) = (c, i2))) as [[= -> ->]|Hne].
    + by rewrite entry_store_same.
    + rewrite entry_store_ne by (done || by apply (pw_range _ _ _ _ H)). by apply pw_empty0.
Qed.

Lemma leaf_store_view m root frames lab c vpn i0 i1 i2 v vpn' :
  pt_wf m root frames lab -> lab !! c = Some [i0; i1] -> indexes vpn = [i0; i1; i2] ->
  in_width 64 v -> (is_valid v = false -> v = 0) -> 0 <= vpn < 2 ^ 27 -> 0 <= vpn' < 2 ^ 27 ->
  pt_view (store_u64 m (pte_slot c i2) v) root vpn'
  = if decide (vpn' = vpn) then (if is_valid v then Some v else None) else pt_view m root vpn'.
Proof.
  intros H Hc E Hv Hv0 Hvp Hvp'.
  destruct (indexes_ok vpn) as (k0 & k1 & k2 & Ek & _ & _ & Hi2). rewrite E in Ek. simplify_eq.
  pose proof (leaf_store_wf m root frames lab c k0 k1 k2 v H Hc Hi2 Hv Hv0) as H'.
  assert (Hcr : ppn_ok c) by (apply (pw_range _ _ _ _ H); by eexists).
  destruct (indexes_ok vpn') as (j0 & j1 & j2 & E' & _ & _ & Hj2).
  apply option_eq. intros e. rewrite (pt_view_iff _ root frames lab _ _ _ _ _ H' E').
  case_decide as Ed.
  - subst vpn'. rewrite E in E'. simplify_eq. split.
    + intros (c' & Hc' & He & Hval). assert (c' = c) as -> by (by eapply (pw_inj _ _ _ _ H)).
      rewrite entry_store_same in He by done. subst. by rewrite Hval.
    + case_if; intros; simplify_eq. exists c. by rewrite entry_store_same.
  - rewrite (pt_view_iff m root frames lab _ _ _ _ _ H E'). apply exist_proper. intros c'.
    assert (Hne : lab !! c' = Some [j0; j1] -> entry (store_u64 m (pte_slot c k2) v) c' j2 = entry m c' j2).
    { intros Hc'. apply entry_store_ne; try done; [apply (pw_range _ _ _ _ H); by eexists|].
      intros [= -> ->]. rewrite Hc in Hc'. simplify_eq. apply Ed. apply indexes_inj; [done..|congruence]. }
    split; intros (Hc' & He & Hval); rewrite (Hne Hc') in *; done.
Qed.

(** ** Frames for the tables *)

(** How many frames the allocator can still hand out. *)
Definition avail (a : Frames.StackFrameAllocator) : Z :=
  Z.of_nat (length (Frames.recycled a)) + (Frames.end_ a - Frames.current a).

Lemma frame_alloc_spec lo w :
  Frames.wf lo (fw_alloc w) -> 0 < avail (fw_alloc w) ->
  exists f w', frame_alloc w = (Some f, w') /\ fw_mem w' = zero_frame (fw_mem w) f /\ ppn_ok f /\
    Frames.wf lo (fw_alloc w') /\ ~ Frames.live lo (fw_alloc w) f /\
    (forall y, Frames.live lo (fw_alloc w') y <-> Frames.live lo (fw_alloc w) y \/ y = f) /\
    avail (fw_alloc w') = avail (fw_alloc w) - 1.
Proof.
  intros Hw Ha. pose proof (frame_alloc_fresh lo (fw_alloc w) Hw) as Hf. unfold frame_alloc.
  pose proof Hw as (H1 & H2 & H3 & Hn & Hr).
  assert (Hav : forall f a', Frames.alloc (fw_alloc w) = (Some f, a') -> avail a' = avail (fw_alloc w) - 1).
  { intros f a'. unfold Frames.alloc, avail. destruct (Frames.recycled (fw_alloc w)) as [|x rest].
    - case_if; [done|]. intros [= <- <-]. cbn. bool_lia. rewrite wrap_small by (unfold in_width; lia). lia.
    - intros [= <- <-]. cbn. lia. }
  destruct (Frames.alloc (fw_alloc w)) as [[f|] a'] eqn:E.
  - destruct Hf as (Hw' & Hnl & Hrange & Hlive). eexists f, _. split; [done|]. cbn.
    split_and!; try done; [unfold ppn_ok; lia|]. by eapply Hav.
  - exfalso. unfold Frames.alloc, avail in *. destruct (Frames.recycled (fw_alloc w)); [|done].
    case_if; [|done]. bool_lia. cbn in Ha. lia.
Qed.

(** What adding table frames does to the world and to the table. *)
Record grown (lo root : Z) (w : FrameWorld) (frames : list Z) (lab : gmap Z (list Z))
    (w' : FrameWorld) (frames' : list Z) (lab' : gmap Z (list Z)) : Prop := {
  gr_wf : pt_wf (fw_mem w') root frames' lab';
  gr_leaves : same_leaves (fw_mem w) (fw_mem w') lab lab';
  gr_alloc : Frames.wf lo (fw_alloc w');
  gr_new : exists new, frames' = frames ++ new /\
    (forall y, Frames.live lo (fw_alloc w') y <-> Frames.live lo (fw_alloc w) y \/ y ∈ new) /\
    (forall y, y ∈ new -> ~ Frames.live lo (fw_alloc w) y) /\
    avail (fw_alloc w') = avail (fw_alloc w) - Z.of_nat (length new);
  gr_outside : forall x, (forall g, g ∈ frames' -> ~ in_frame g x) -> load (fw_mem w') x = load (fw_mem w) x;
  gr_lab : lab ⊆ lab';
}.

Lemma grown_refl lo root w frames lab :
  pt_wf (fw_mem w) root frames lab -> Frames.wf lo (fw_alloc w) -> grown lo root w frames lab w frames lab.
Proof.
  intros H Ha. split; try done. exists []. rewrite app_nil_r. split; [done|]. split_and!.
  - intros y. set_solver.
  - intros y Hy. by apply not_elem_of_nil in Hy.
  - cbn. lia.
Qed.

Lemma grown_trans lo root w1 f1 l1 w2 f2 l2 w3 f3 l3 :
  grown lo root w1 f1 l1 w2 f2 l2 -> grown lo root w2 f2 l2 w3 f3 l3 -> grown lo root w1 f1 l1 w3 f3 l3.
Proof.
  intros [] []. split; try done.
  - by eapply same_leaves_trans.
  - destruct gr_new0 as (n1 & -> & L1 & D1 & A1), gr_new1 as (n2 & -> & L2 & D2 & A2).
    exists (n1 ++ n2). rewrite app_assoc, length_app. split_and!; [done| | |lia].
    + intros y. rewrite L2, L1, elem_of_app. tauto.
    + intros y [Hy|Hy]%elem_of_app; [by apply D1|]. intros Hl. apply (D2 y Hy). apply L1. by left.
  - intros x Hx. rewrite gr_outside1 by done. apply gr_outside0. intros g Hg. apply Hx.
    destruct gr_new1 as (n2 & -> & _). apply elem_of_app. by left.
  - by etrans.
Qed.

(** The frames of a table are in use. *)
Definition owned (lo : Z) (w : FrameWorld) (frames : list Z) : Prop :=
  forall g, g ∈ frames -> Frames.live lo (fw_alloc w) g.

Lemma grown_owned lo root w f l w' f' l' : grown lo root w f l w' f' l' -> owned lo w f -> owned lo w' f'.
Proof.
  intros [] Ho g. destruct gr_new0 as (n & -> & L & _ & _). rewrite elem_of_app, L.
  intros [Hg|Hg]; [left; by apply Ho|by right].
Qed.

(** The tree has a table for the entries with index path [q]. *)
Definition has_path (lab : gmap Z (list Z)) (q : list Z) : Prop := exists g, lab !! g = Some q.

Lemma has_path_mono lab lab' q : lab ⊆ lab' -> has_path lab q -> has_path lab' q.
Proof. intros Hs [g Hg]. exists g. by eapply lookup_weaken. Qed.

Lemma has_path_prefix m root frames lab p q : pt_wf m root frames lab -> has_path lab (p ++ q) -> has_path lab p.
Proof.
  intros H. induction q as [|i q IH] using rev_ind; [by rewrite app_nil_r|]. intros [g Hg]. rewrite app_assoc in Hg.
  destruct (pw_parent _ _ _ _ H g (p ++ q) i Hg) as (_ & f & Hf & _). apply IH. by exists f.
Qed.

(** One level of [find_pte_create]. *)
Lemma create_level lo root w frames lab f p i :
  pt_wf (fw_mem w) root frames lab -> Frames.wf lo (fw_alloc w) -> owned lo w frames ->
  lab !! f = Some p -> (length p < 2)%nat -> idx_ok i -> 0 < avail (fw_alloc w) ->
  exists w' frames' lab' c,
    (if negb (is_valid (load_u64 (fw_mem w) (pte_slot f i))) then
       match frame_alloc w with
       | (Some c, w1) => Ret (frames ++ [c],
            {| fw_mem := store_u64 (fw_mem w1) (pte_slot f i) (pte_new c PTE_V); fw_alloc := fw_alloc w1 |})
       | (None, _) => Panic
       end
     else Ret (frames, w)) = Ret (frames', w') /\
    grown lo root w frames lab w' frames' lab' /\ (length frames' <= S (length frames))%nat /\
    pte_ppn (load_u64 (fw_mem w') (pte_slot f i)) = c /\ lab' !! c = Some (p ++ [i]) /\
    (has_path lab (p ++ [i]) -> frames' = frames).
Proof.
  intros H Ha Ho Hf Hp Hi Hav. fold (entry (fw_mem w) f i).
  destruct (is_valid (entry (fw_mem w) f i)) eqn:V; cbn [negb].
  - eexists w, frames, lab, _. split; [done|]. split; [by apply grown_refl|]. split; [lia|].
    split; [reflexivity|]. split; [by apply (pw_child _ _ _ _ H)|done].
  - destruct (frame_alloc_spec lo w Ha Hav) as (c & w1 & -> & Em & Hc & Hw1 & Hfresh & Hlive & Hav1).
    assert (Hcn : lab !! c = None).
    { destruct (lab !! c) eqn:E; [|done]. destruct Hfresh. apply Ho, (pw_dom _ _ _ _ H). by eexists. }
    rewrite Em. change (store_u64 (zero_frame (fw_mem w) c) (pte_slot f i) (pte_new c PTE_V)) with (linked (fw_mem w) f i c).
    eexists _, _, (linked_lab lab p i c), c. split; [done|]. split; [split; cbn|].
    + by apply link_wf.
    + by apply (link_same_leaves _ root frames).
    + done.
    + exists [c]. split_and!; [done| | |cbn; lia].
      * intros y. by rewrite Hlive, list_elem_of_singleton.
      * intros y ->%list_elem_of_singleton. done.
    + intros x Hx. apply (link_outside (fw_mem w) root frames lab H f p i c Hf Hi Hc x); apply Hx.
      * apply elem_of_app. left. apply (pw_dom _ _ _ _ H). by eexists.
      * apply elem_of_app. right. by apply list_elem_of_singleton.
    + by apply insert_subseteq.
    + rewrite length_app; cbn. split; [lia|]. split_and!; [|apply lookup_insert_eq|].
      * fold (entry (linked (fw_mem w) f i c) f i). by apply link_parent_valid.
      * intros [g Hg]. destruct (pw_parent _ _ _ _ H g p i Hg) as (_ & f' & Hf' & Hv & _).
        assert (f' = f) as -> by (by eapply (pw_inj _ _ _ _ H)). congruence.
Qed.

Lemma create_walk lo root idxs : forall w frames lab f p,
  pt_wf (fw_mem w) root frames lab -> Frames.wf lo (fw_alloc w) -> owned lo w frames ->
  lab !! f = Some p -> (length p + length idxs = 3)%nat -> Forall idx_ok idxs ->
  2 - Z.of_nat (length p) <= avail (fw_alloc w) ->
  idxs <> [] ->
  exists c q i2 w' frames' lab',
    find_pte_create_walk w frames f (Z.of_nat (length p)) idxs = Ret (Some (pte_slot c i2), frames', w') /\
    p ++ idxs = q ++ [i2] /\ lab' !! c = Some q /\ grown lo root w frames lab w' frames' lab' /\
    (length frames' <= length frames + (2 - length p))%nat /\ (has_path lab q -> frames' = frames).
Proof.
  induction idxs as [|i idxs IH]; intros w frames lab f p H Ha Ho Hf Hlen Hidx Hav Hne; [done|].
  apply Forall_cons in Hidx as [Hi Hidx]. cbn [length] in Hlen. cbn [find_pte_create_walk].
  destruct (Z.eqb_spec (Z.of_nat (length p)) 2) as [E2|E2].
  - destruct idxs; [|cbn in Hlen; lia]. exists f, p, i, w, frames, lab. split_and!; try done; [|lia].
    by apply grown_refl.
  - pose proof (pw_len _ _ _ _ H f p Hf) as Hpl.
    destruct (create_level lo root w frames lab f p i H Ha Ho Hf) as (w1 & fr1 & lab1 & c & -> & G & Hl1 & Ec & Hc & Hp1);
      [lia|done|lia|]. cbn [mbind outcome_bind]. rewrite Ec.
    replace (Z.of_nat (length p) + 1) with (Z.of_nat (length (p ++ [i]))) by (rewrite length_app; cbn; lia).
    destruct (gr_new _ _ _ _ _ _ _ _ G) as (nw & Efr & _ & _ & Hav1).
    assert (Hnw : (length nw <= 1)%nat) by (rewrite Efr, length_app in Hl1; lia).
    destruct (IH w1 fr1 lab1 c (p ++ [i])) as (c' & q & i2 & w' & fr' & lab' & -> & Hq & Hc' & G' & Hl' & Hp').
    + apply G.
    + apply G.
    + by eapply grown_owned.
    + done.
    + rewrite length_app. cbn. lia.
    + done.
    + rewrite length_app, Hav1. cbn. lia.
    + destruct idxs; [cbn in Hlen; lia|done].
    + exists c', q, i2, w', fr', lab'. rewrite length_app in Hl'. cbn in Hl'.
      split_and!; [done|by rewrite <- Hq, <- app_assoc|done|by eapply grown_trans|lia|].
      intros Hpath. rewrite Hp' by (eapply has_path_mono; [apply G|done]). apply Hp1.
      destruct idxs as [|j idxs] using rev_ind; [cbn in Hlen; lia|]. rewrite app_assoc in Hq. apply app_inj_tail in Hq as [<- _].
      by apply (has_path_prefix (fw_mem w) root frames lab (p ++ [i]) idxs).
Qed.

(** ** Operations *)

(** A page table in a world: its tree is in shape and its frames are in use. *)
Record pt_ok (lo : Z) (w : FrameWorld) (pt : PageTable) (lab : gmap Z (list Z)) : Prop := {
  po_wf : pt_wf (fw_mem w) (root_ppn pt) (pt_frames pt) lab;
  po_alloc : Frames.wf lo (fw_alloc w);
  po_owned : owned lo w (pt_frames pt);
}.

(** What an operation on one table may do to the rest of the world: it takes
    [new] frames that were free, and writes only to its own tables. *)
Record pt_effect (lo : Z) (w w' : FrameWorld) (pt pt' : PageTable) (new : list Z) : Prop := {
  pe_root : root_ppn pt' = root_ppn pt;
  pe_frames : pt_frames pt' = pt_frames pt ++ new;
  pe_live : forall y, Frames.live lo (fw_alloc w') y <-> Frames.live lo (fw_alloc w) y \/ y ∈ new;
  pe_fresh : forall y, y ∈ new -> ~ Frames.live lo (fw_alloc w) y;
  pe_avail : avail (fw_alloc w') = avail (fw_alloc w) - Z.of_nat (length new);
  pe_outside : forall x, (forall g, g ∈ pt_frames pt' -> ~ in_frame g x) ->
    load (fw_mem w') x = load (fw_mem w) x;
}.

Lemma pt_new_spec lo w :
  Frames.wf lo (fw_alloc w) -> 0 < avail (fw_alloc w) ->
  exists r w', pt_new w = Ret ({| root_ppn := r; pt_frames := [r] |}, w') /\
    pt_ok lo w' {| root_ppn := r; pt_frames := [r] |} {[r := []]} /\
    pt_effect lo w w' {| root_ppn := r; pt_frames := [] |} {| root_ppn := r; pt_frames := [r] |} [r] /\
    forall vpn, pt_view (fw_mem w') r vpn = None.
Proof.
  intros Ha Hav. unfold pt_new.
  destruct (frame_alloc_spec lo w Ha Hav) as (r & w' & -> & Em & Hr & Ha' & Hfresh & Hlive & Hav').
  assert (Hl : forall x, load (fw_mem w') x = if decide (in_frame r x) then 0 else load (fw_mem w) x)
    by (intros x; rewrite Em; by apply load_zero_frame).
  clear Em. exists r, w'. split; [done|].
  assert (Hz : forall i, idx_ok i -> entry (fw_mem w') r i = 0).
  { intros i Hi. apply entry_zero; [done|done|]. intros x Hx. rewrite Hl. by rewrite decide_True. }
  assert (Hwf : pt_wf (fw_mem w') r [r] {[r := []]}).
  { split.
    - apply lookup_singleton_eq.
    - intros f. rewrite list_elem_of_singleton, lookup_singleton_is_Some. split; exact (@eq_sym _ _ _).
    - apply NoDup_singleton.
    - intros f [p [<- _]%lookup_singleton_Some]. done.
    - intros f g p [<- _]%lookup_singleton_Some [<- _]%lookup_singleton_Some. done.
    - intros f p [_ <-]%lookup_singleton_Some. cbn. lia.
    - intros f p i [<- <-]%lookup_singleton_Some _ Hi. rewrite Hz by done. done.
    - intros c p i [_ E]%lookup_singleton_Some. by destruct p.
    - intros f i [p [<- _]%lookup_singleton_Some] Hi _. by apply Hz. }
  split_and!.
  - split; [done|done|]. intros g ->%list_elem_of_singleton. apply Hlive. by right.
  - split; try done.
    + intros y. by rewrite Hlive, list_elem_of_singleton.
    + by intros y ->%list_elem_of_singleton.
    + intros x Hx. rewrite Hl, decide_False; [done|]. apply Hx. by apply list_elem_of_singleton.
  - intros vpn. destruct (indexes_ok vpn) as (i0 & i1 & i2 & E & _ & _ & Hi2).
    destruct (pt_view (fw_mem w') r vpn) as [e|] eqn:Ev; [|done].
    apply (pt_view_iff _ r [r] {[r := []]} _ _ _ _ _ Hwf E) in Ev as (c & [_ Hc]%lookup_singleton_Some & _).
    done.
Qed.

(** The entry [find_pte_create] leads to, before it is written. *)
Lemma find_pte_create_spec lo w pt lab vpn i0 i1 i2 :
  pt_ok lo w pt lab -> indexes vpn = [i0; i1; i2] -> 2 <= avail (fw_alloc w) ->
  exists c pt' w' lab' new, find_pte_create w pt vpn = Ret (Some (pte_slot c i2), pt', w') /\
    lab' !! c = Some [i0; i1] /\ pt_ok lo w' pt' lab' /\ pt_effect lo w w' pt pt' new /\
    (length new <= 2)%nat /\ same_leaves (fw_mem w) (fw_mem w') lab lab' /\ lab ⊆ lab' /\ (has_path lab [i0; i1] -> new = []).
Proof.
  intros [] E Hav. destruct (indexes_ok vpn) as (k0 & k1 & k2 & Ek & ? & ? & ?).
  rewrite E in Ek. simplify_eq. unfold find_pte_create. rewrite E.
  destruct (create_walk lo (root_ppn pt) [k0; k1; k2] w (pt_frames pt) lab (root_ppn pt) [])
    as (c & q & j2 & w' & fr' & lab' & Ew & Hq & Hc & G & Hl & Hp); try done.
  { apply po_wf0. }
  { by repeat apply Forall_cons_2. }
  change (Z.of_nat (length [])) with 0 in Ew. rewrite Ew. cbn [mbind outcome_bind].
  change ([] ++ [k0; k1; k2]) with ([k0; k1] ++ [k2]) in Hq. apply app_inj_tail in Hq as [<- <-].
  destruct (gr_new _ _ _ _ _ _ _ _ G) as (new & -> & L & D & A).
  exists c, {| root_ppn := root_ppn pt; pt_frames := pt_frames pt ++ new |}, w', lab', new.
  split_and!; [done|done| | | |by apply G..|].
  - split; [apply G|apply G|by eapply grown_owned].
  - split; try done. apply (gr_outside _ _ _ _ _ _ _ _ G).
  - rewrite length_app in Hl. cbn in Hl. lia.
  - intros Hpath. apply (app_inv_head (pt_frames pt)). by rewrite app_nil_r, Hp.
Qed.

(** Mapping a page takes a table for each level that is missing: none when the
    tree already has the leaf table [leaf_path vpn]. *)
Definition leaf_path (vpn : Z) : list Z := take 2 (indexes vpn).

Lemma map_spec_paths lo w pt lab vpn ppn flags :
  pt_ok lo w pt lab -> 0 <= vpn < 2 ^ 27 -> ppn_ok ppn -> in_width 8 flags -> 2 <= avail (fw_alloc w) ->
  pt_view (fw_mem w) (root_ppn pt) vpn = None ->
  exists pt' w' lab' new, map w pt vpn ppn flags = Ret (pt', w') /\
    pt_ok lo w' pt' lab' /\ pt_effect lo w w' pt pt' new /\ (length new <= 2)%nat /\
    (forall vpn', 0 <= vpn' < 2 ^ 27 ->
      pt_view (fw_mem w') (root_ppn pt) vpn'
      = if decide (vpn' = vpn) then Some (pte_new ppn (Z.lor flags PTE_V))
        else pt_view (fw_mem w) (root_ppn pt) vpn') /\
    has_path lab' (leaf_path vpn) /\ (has_path lab (leaf_path vpn) -> new = []).
Proof.
  intros Hok Hvpn Hppn Hfl Hav Hfree. destruct (indexes_ok vpn) as (i0 & i1 & i2 & E & _ & _ & Hi2).
  destruct (find_pte_create_spec lo w pt lab vpn i0 i1 i2 Hok E Hav)
    as (c & pt' & w1 & lab' & new & Ec & Hc & Hok1 & Heff & Hnew & Hs & _ & Hpath).
  assert (El : leaf_path vpn = [i0; i1]) by (unfold leaf_path; by rewrite E).
  unfold map. rewrite Ec. cbn [mbind outcome_bind unwrap]. fold (entry (fw_mem w1) c i2).
  pose proof (po_wf _ _ _ _ Hok1) as Hwf1. rewrite (pe_root _ _ _ _ _ _ Heff) in Hwf1.
  assert (Hview1 : forall v, pt_view (fw_mem w1) (root_ppn pt) v = pt_view (fw_mem w) (root_ppn pt) v).
  { intros v. by apply (same_leaves_view _ _ _ (pt_frames pt) (pt_frames pt') lab lab'); [apply Hok|..]. }
  assert (Hinv : is_valid (entry (fw_mem w1) c i2) = false).
  { apply not_true_iff_false. intros Hv. rewrite <- Hview1 in Hfree.
    assert (pt_view (fw_mem w1) (root_ppn pt) vpn = Some (entry (fw_mem w1) c i2)); [|congruence].
    apply (pt_view_iff _ _ (pt_frames pt') lab' _ i0 i1 i2 _ Hwf1 E). by exists c. }
  rewrite Hinv. cbn [negb assert_ mbind outcome_bind].
  set (v := pte_new ppn (Z.lor flags PTE_V)).
  destruct (pte_new_fields ppn (Z.lor flags PTE_V) Hppn) as (Hw & _ & Hfv); [by apply (flag_bit_lor flags 0)|].
  assert (Hval : is_valid v = true).
  { unfold v. rewrite is_valid_testbit, Hfv. unfold PTE_V. rewrite testbit_set_bit by lia.
    by rewrite bool_decide_eq_true_2. }
  eexists pt', _, lab', new. split; [done|]. rewrite El. split_and!; [| |done| |by exists c|done].
  - split; cbn; [|apply Hok1|apply (po_owned _ _ _ _ Hok1)]. rewrite (pe_root _ _ _ _ _ _ Heff).
    apply (leaf_store_wf _ _ _ _ c i0 i1); [done..|by rewrite Hval].
  - destruct Heff. split; try done. intros x Hx. cbn. rewrite store_u64_outside; [by apply pe_outside0| |done|].
    + apply (pw_range _ _ _ _ Hwf1). by eexists.
    + apply Hx. apply (pw_dom _ _ _ _ Hwf1). by eexists.
  - intros vpn' Hvpn'. cbn. rewrite (leaf_store_view _ _ (pt_frames pt') lab' c vpn i0 i1 i2) by (done || by rewrite Hval).
    by rewrite Hval, Hview1.
Qed.

Lemma map_spec lo w pt lab vpn ppn flags :
  pt_ok lo w pt lab -> 0 <= vpn < 2 ^ 27 -> ppn_ok ppn -> in_width 8 flags -> 2 <= avail (fw_alloc w) ->
  pt_view (fw_mem w) (root_ppn pt) vpn = None ->
  exists pt' w' lab' new, map w pt vpn ppn flags = Ret (pt', w') /\
    pt_ok lo w' pt' lab' /\ pt_effect lo w w' pt pt' new /\ (length new <= 2)%nat /\
    forall vpn', 0 <= vpn' < 2 ^ 27 ->
      pt_view (fw_mem w') (root_ppn pt) vpn'
      = if decide (vpn' = vpn) then Some (pte_new ppn (Z.lor flags PTE_V))
        else pt_view (fw_mem w) (root_ppn pt) vpn'.
Proof.
  intros Hok Hv Hp Hf Hav Hfree.
  destruct (map_spec_paths lo w pt lab vpn ppn flags Hok Hv Hp Hf Hav Hfree) as (pt' & w' & lab' & new & H1 & H2 & H3 & H4 & H5 & _).
  by exists pt', w', lab', new.
Qed.

(** Mapping a page that is already mapped panics. *)
Lemma map_mapped_panics lo w pt lab vpn ppn flags e :
  pt_ok lo w pt lab -> 2 <= avail (fw_alloc w) ->
  pt_view (fw_mem w) (root_ppn pt) vpn = Some e -> map w pt vpn ppn flags = Panic.
Proof.
  intros Hok Hav Hv. destruct (indexes_ok vpn) as (i0 & i1 & i2 & E & _ & _ & Hi2).
  destruct (find_pte_create_spec lo w pt lab vpn i0 i1 i2 Hok E Hav)
    as (c & pt' & w1 & lab' & new & Ec & Hc & Hok1 & Heff & _ & Hs & _).
  unfold map. rewrite Ec. cbn [mbind outcome_bind unwrap]. fold (entry (fw_mem w1) c i2).
  destruct (proj1 (pt_view_iff _ _ _ _ _ _ _ _ _ (po_wf _ _ _ _ Hok) E) Hv) as (c' & Hc' & He & Hval).
  assert (H2 : lab' !! c' = Some [i0; i1] /\ entry (fw_mem w1) c' i2 = e) by (by apply Hs).
  destruct H2 as [Hc2 He2]. assert (c' = c) as -> by (by eapply (pw_inj _ _ _ _ (po_wf _ _ _ _ Hok1))).
  by rewrite He2, Hval.
Qed.

Lemma unmap_spec lo w pt lab vpn e :
  pt_ok lo w pt lab -> 0 <= vpn < 2 ^ 27 -> pt_view (fw_mem w) (root_ppn pt) vpn = Some e ->
  exists w', unmap w pt vpn = Ret w' /\ pt_ok lo w' pt lab /\ pt_effect lo w w' pt pt [] /\
    fw_alloc w' = fw_alloc w /\
    forall vpn', 0 <= vpn' < 2 ^ 27 ->
      pt_view (fw_mem w') (root_ppn pt) vpn'
      = if decide (vpn' = vpn) then None else pt_view (fw_mem w) (root_ppn pt) vpn'.
Proof.
  intros Hok Hvpn Hv. destruct (indexes_ok vpn) as (i0 & i1 & i2 & E & _ & _ & Hi2).
  pose proof (po_wf _ _ _ _ Hok) as Hwf.
  destruct (proj1 (pt_view_iff _ _ _ _ _ _ _ _ _ Hwf E) Hv) as (c & Hc & He & Hval).
  assert (Hf : find_pte (fw_mem w) pt vpn = Some (pte_slot c i2)).
  { apply (find_pte_leaf _ pt _ _ _ i0 i1 i2 _ Hwf E). by exists c. }
  unfold unmap. rewrite Hf. cbn [mbind outcome_bind unwrap]. fold (entry (fw_mem w) c i2).
  rewrite He, Hval. cbn [assert_ mbind outcome_bind]. eexists. split; [done|]. split_and!; [| |done|].
  - split; cbn; [|apply Hok|apply (po_owned _ _ _ _ Hok)]. by apply (leaf_store_wf _ _ _ _ c i0 i1).
  - split; cbn; try done.
    + by rewrite app_nil_r.
    + intros y. set_solver.
    + intros y Hy. by apply not_elem_of_nil in Hy.
    + lia.
    + intros x Hx. apply store_u64_outside; [|done|].
      * apply (pw_range _ _ _ _ Hwf). by eexists.
      * apply Hx, (pw_dom _ _ _ _ Hwf). by eexists.
  - intros vpn' Hvpn'. cbn. rewrite (leaf_store_view _ _ _ _ c vpn i0 i1 i2 pte_empty _ Hwf) by done. done.
Qed.

Lemma unmap_unmapped_panics lo w pt lab vpn :
  pt_ok lo w pt lab -> pt_view (fw_mem w) (root_ppn pt) vpn = None -> unmap w pt vpn = Panic.
Proof.
  intros Hok Hv. unfold unmap. unfold pt_view, translate in Hv.
  change (find_pte (fw_mem w) {| root_ppn := root_ppn pt; pt_frames := [] |} vpn)
    with (find_pte (fw_mem w) pt vpn) in Hv.
  destruct (find_pte (fw_mem w) pt vpn) as [slot|]; cbn in *; [|done].
  by destruct (is_valid (load_u64 (fw_mem w) slot)).
Qed.

(** ** Refinement to a finite map *)

(** Programs that edit one page table. *)
Inductive pt_op : Type :=
| OpMap (vpn ppn flags : Z)
| OpUnmap (vpn : Z).

Definition op_ok (op : pt_op) : Prop :=
  match op with
  | OpMap vpn ppn flags => 0 <= vpn < 2 ^ 27 /\ ppn_ok ppn /\ in_width 8 flags
  | OpUnmap vpn => 0 <= vpn < 2 ^ 27
  end.

(** On the page table in memory. *)
Definition run_op (pt : PageTable) (w : FrameWorld) (op : pt_op) : outcome (PageTable * FrameWorld) :=
  match op with
  | OpMap vpn ppn flags => map w pt vpn ppn flags
  | OpUnmap vpn => w' ← unmap w pt vpn; Ret (pt, w')
  end.

Fixpoint run_ops (pt : PageTable) (w : FrameWorld) (ops : list pt_op) : outcome (PageTable * FrameWorld) :=
  match ops with
  | [] => Ret (pt, w)
  | op :: ops' => '(pt', w') ← run_op pt w op; run_ops pt' w' ops'
  end.

(** On the map it stands for; [None] is a panic. *)
Definition abs_op (a : gmap Z Z) (op : pt_op) : option (gmap Z Z) :=
  match op, a !! (match op with OpMap vpn _ _ => vpn | OpUnmap vpn => vpn end) with
  | OpMap vpn ppn flags, None => Some (<[vpn := pte_new ppn (Z.lor flags PTE_V)]> a)
  | OpUnmap vpn, Some _ => Some (delete vpn a)
  | _, _ => None
  end.

Fixpoint abs_ops (a : gmap Z Z) (ops : list pt_op) : option (gmap Z Z) :=
  match ops with
  | [] => Some a
  | op :: ops' => a' ← abs_op a op; abs_ops a' ops'
  end.

Definition views (w : FrameWorld) (pt : PageTable) (a : gmap Z Z) : Prop :=
  forall vpn, 0 <= vpn < 2 ^ 27 -> pt_view (fw_mem w) (root_ppn pt) vpn = a !! vpn.

Lemma run_op_refines lo pt w lab a op :
  pt_ok lo w pt lab -> views w pt a -> op_ok op -> 2 <= avail (fw_alloc w) ->
  match abs_op a op with
  | Some a' => exists pt' w' lab', run_op pt w op = Ret (pt', w') /\ pt_ok lo w' pt' lab' /\
                 views w' pt' a' /\ avail (fw_alloc w) - 2 <= avail (fw_alloc w')
  | None => run_op pt w op = Panic
  end.
Proof.
  intros Hok Hv Hop Hav. destruct op as [vpn ppn flags|vpn]; cbn [abs_op run_op].
  - destruct Hop as (Hvpn & Hppn & Hfl). pose proof (Hv vpn Hvpn) as Hva. destruct (a !! vpn) as [e|].
    + by eapply map_mapped_panics.
    + destruct (map_spec lo w pt lab vpn ppn flags Hok Hvpn Hppn Hfl Hav Hva)
        as (pt' & w' & lab' & new & E & Hok' & Heff & Hn & Hview).
      exists pt', w', lab'. split_and!; [done|done| |rewrite (pe_avail _ _ _ _ _ _ Heff); lia].
      intros v Hvr. rewrite (pe_root _ _ _ _ _ _ Heff), Hview by done. case_decide as Ev.
      * subst. by rewrite lookup_insert_eq.
      * rewrite lookup_insert_ne by done. by apply Hv.
  - cbn in Hop. pose proof (Hv vpn Hop) as Hva. destruct (a !! vpn) as [e|].
    + destruct (unmap_spec lo w pt lab vpn e Hok Hop Hva) as (w' & -> & Hok' & _ & Ea & Hview).
      exists pt, w', lab. split_and!; [done|done| |rewrite Ea; lia].
      intros v Hvr. rewrite Hview by done. case_decide as Ev.
      * subst. by rewrite lookup_delete_eq.
      * rewrite lookup_delete_ne by done. by apply Hv.
    + by rewrite (unmap_unmapped_panics lo w pt lab).
Qed.

Lemma run_ops_refines lo ops : forall pt w lab a,
  pt_ok lo w pt lab -> views w pt a -> Forall op_ok ops ->
  2 * Z.of_nat (length ops) <= avail (fw_alloc w) ->
  match abs_ops a ops with
  | Some a' => exists pt' w' lab', run_ops pt w ops = Ret (pt', w') /\ pt_ok lo w' pt' lab' /\ views w' pt' a'
  | None => run_ops pt w ops = Panic
  end.
Proof.
  induction ops as [|op ops IH]; intros pt w lab a Hok Hv Hops Hav; cbn [abs_ops run_ops].
  { by exists pt, w, lab. }
  apply Forall_cons in Hops as [Hop Hops]. cbn [length] in Hav.
  pose proof (run_op_refines lo pt w lab a op Hok Hv Hop) as Hs.
  destruct (abs_op a op) as [a1|]; cbn [mbind option_bind].
  - destruct Hs as (pt1 & w1 & lab1 & -> & Hok1 & Hv1 & Hav1); [lia|]. cbn [mbind outcome_bind].
    apply (IH pt1 w1 lab1 a1); try done. lia.
  - rewrite Hs by lia. done.
Qed.

(** C9: a page table implements a finite map.  From [PageTable::new], with
    enough free frames for the tables, any sequence of [map] and [unmap] calls
    ends with a table whose valid leaf entries, as the hardware walk finds
    them, are exactly those of the abstract map, and panics exactly when a
    mapped page is mapped again or an unmapped page is unmapped; the tables
    stay well formed and own distinct frames that are in use. *)
Theorem page_table_refines_map lo w ops :
  Frames.wf lo (fw_alloc w) -> Forall op_ok ops -> 2 * Z.of_nat (length ops) < avail (fw_alloc w) ->
  exists pt0 w0, pt_new w = Ret (pt0, w0) /\
  match abs_ops ∅ ops with
  | Some a => exists pt w' lab, run_ops pt0 w0 ops = Ret (pt, w') /\ pt_ok lo w' pt lab /\
      forall vpn, 0 <= vpn < 2 ^ 27 -> pt_view (fw_mem w') (root_ppn pt) vpn = a !! vpn
  | None => run_ops pt0 w0 ops = Panic
  end.
Proof.
  intros Ha Hops Hav. destruct (pt_new_spec lo w Ha) as (r & w0 & E & Hok & Heff & Hv); [lia|].
  exists {| root_ppn := r; pt_frames := [r] |}, w0. split; [done|].
  apply (run_ops_refines lo ops _ w0 {[r := []]} ∅); try done.
  - intros vpn _. rewrite Hv, lookup_empty. done.
  - rewrite (pe_avail _ _ _ _ _ _ Heff). cbn. lia.
Qed.

Lemma page_table_refines_map_witness :
  let w := {| fw_mem := ∅; fw_alloc := Frames.mkFrames 0x80600 0x80700 [] |} in
  let ops := [OpMap 0x10 0x80500 0x17; OpMap 0x11 0x80501 0x13; OpUnmap 0x10; OpMap 0x7fffffe 0x80502 0x17] in
  Frames.wf 0x80600 (fw_alloc w) /\ Forall op_ok ops /\
  exists pt0 w0, pt_new w = Ret (pt0, w0) /\
  match abs_ops ∅ ops with
  | Some a => exists pt w' lab, run_ops pt0 w0 ops = Ret (pt, w') /\ pt_ok 0x80600 w' pt lab /\
      forall vpn, 0 <= vpn < 2 ^ 27 -> pt_view (fw_mem w') (root_ppn pt) vpn = a !! vpn
  | None => run_ops pt0 w0 ops = Panic
  end.
Proof.
  intros w ops.
  assert (Hw : Frames.wf 0x80600 (fw_alloc w)).
  { split; [cbn; lia|]. split; [cbn; lia|]. split; [vm_compute; congruence|]. split; [apply NoDup_nil_2|done]. }
  assert (Ho : Forall op_ok ops).
  { repeat apply Forall_cons_2; [..|apply Forall_nil_2]; cbn; unfold ppn_ok, in_width; lia. }
  split; [exact Hw|]. split; [exact Ho|]. apply (page_table_refines_map 0x80600 w ops Hw Ho).
  unfold avail. cbn. lia.
Defined.
