(* ===== verification/UserAccess.v ===== *)
(** * Access to user memory

    Models the checked translation functions of [os/src/mm/page_table.rs]
    ([check_user_range], [try_translated_byte_buffer], [try_translated_str],
    [try_translated_ref], [try_translated_refmut], [UserBuffer]) and
    [os/src/mm/user_access.rs]. *)
From S2P Require Import Prelude IpcApi Address Allocators PageTable.
Import Address Mem PageTable.

Module UserAccess.

(** What the code tests on the entry of one page. *)
Definition entry_allows (pte : Z) (write : bool) : bool :=
  let flags := pte_flags pte in
  if negb (flags_contains flags PTE_U) then false
  else if write then flags_contains flags PTE_W
  else flags_contains flags PTE_R.

Definition check_user_range_body (m : PhysMem) (page_table : PageTable) (end_ : Z) (write : bool)
    (cur : Z) : outcome (Z + bool) :=
  if negb (cur <? end_) then Ret (inr true)
  else
    match translate m page_table (floor (VirtAddr_from cur)) with
    | None => Ret (inr false)
    | Some pte =>
        if negb (entry_allows pte write) then Ret (inr false)
        else
          let page_end := wrap 64 (Z.land cur (bit_not 64 (PAGE_SIZE - 1)) + PAGE_SIZE) in
          Ret (inl (Z.min page_end end_))
    end.

(** Enough iterations for a range of [len] bytes: one per page touched. *)
Definition page_fuel (len : Z) : nat := (Z.to_nat (len / PAGE_SIZE) + 3)%nat.

Definition check_user_range (m : PhysMem) (token ptr len : Z) (write : bool) : outcome bool :=
  if len =? 0 then Ret true
  else
    match checked_add 64 ptr len with
    | None => Ret false
    | Some end_ =>
        if (USER_VA_LIMIT <=? ptr) || (USER_VA_LIMIT <? end_) then Ret false
        else while_loop (page_fuel len) (check_user_range_body m (from_token token) end_ write) ptr
    end.

(** A [&'static mut [u8]] obtained from a frame: physical address and length. *)
Abbreviation slice := (Z * Z)%type.

(** [get_bytes_array()[a..b]]. *)
Definition frame_slice (ppn a b : Z) : outcome slice :=
  if (a <=? b) && (b <=? 4096) then Ret (frame_base ppn + a, b - a) else Panic.

Definition byte_buffer_body (m : PhysMem) (page_table : PageTable) (end_ : Z)
    (st : Z * list slice) : outcome ((Z * list slice) + list slice) :=
  let '(start, v) := st in
  if negb (start <? end_) then Ret (inr v)
  else
    let start_va := VirtAddr_from start in
    let vpn := floor start_va in
    pte ← unwrap (translate m page_table vpn);
    let ppn := pte_ppn pte in
    let vpn := step vpn in
    let end_va := addr_from_page_num vpn in
    let end_va := Z.min end_va (VirtAddr_from end_) in
    s ← (if page_offset end_va =? 0 then frame_slice ppn (page_offset start_va) 4096
         else frame_slice ppn (page_offset start_va) (page_offset end_va));
    Ret (inl (usize_from_VirtAddr end_va, v ++ [s])).

Definition try_translated_byte_buffer (m : PhysMem) (token ptr len : Z) (write : bool)
    : outcome (option (list slice)) :=
  ok ← check_user_range m token ptr len write;
  if negb ok then Ret None
  else
    let end_ := wrap 64 (ptr + len) in
    v ← while_loop (page_fuel len) (byte_buffer_body m (from_token token) end_) (ptr, []);
    Ret (Some v).

(** [slice.iter().position(|&b| b == 0)] *)
Fixpoint position_zero (bs : list Z) : option nat :=
  match bs with
  | [] => None
  | b :: bs' => if b =? 0 then Some O else S <$> position_zero bs'
  end.

(** A [String] built from bytes read as characters is its list of codes. *)
Definition translated_str_body (m : PhysMem) (page_table : PageTable) (limit : Z)
    (st : Z * list Z) : outcome ((Z * list Z) + option (list Z)) :=
  let '(cur, string) := st in
  if negb (cur <? limit) then Ret (inr None)
  else
    match translate m page_table (floor (VirtAddr_from cur)) with
    | None => Ret (inr None)
    | Some pte =>
        let flags := pte_flags pte in
        if negb (flags_contains flags PTE_U) || negb (flags_contains flags PTE_R)
        then Ret (inr None)
        else
          let ppn := pte_ppn pte in
          let offset := Z.land cur (PAGE_SIZE - 1) in
          let chunk := Z.min (PAGE_SIZE - offset) (limit - cur) in
          '(pa, n) ← frame_slice ppn offset (offset + chunk);
          let bytes := load_bytes m pa (Z.to_nat n) in
          match position_zero bytes with
          | Some z => Ret (inr (Some (string ++ take z bytes)))
          | None => Ret (inl (wrap 64 (cur + chunk), string ++ bytes))
          end
    end.

Definition try_translated_str (m : PhysMem) (token ptr max_len : Z) : outcome (option (list Z)) :=
  let start := ptr in
  if (start =? 0) || (max_len =? 0) then Ret None
  else
    match checked_add 64 start max_len with
    | None => Ret None
    | Some limit =>
        if USER_VA_LIMIT <? limit then Ret None
        else while_loop (page_fuel max_len) (translated_str_body m (from_token token) limit)
                        (start, [])
    end.

(** [try_translated_ref<T>] ([write = false]) and [try_translated_refmut<T>]
    ([write = true]) for a [T] of the given size and alignment; the reference
    is the physical address. *)
Definition try_translated_ptr (m : PhysMem) (token addr size align : Z) (write : bool)
    : outcome (option Z) :=
  if (size =? 0) || (addr =? 0) || negb (addr mod align =? 0) then Ret None
  else
    match checked_add 64 addr size with
    | None => Ret None
    | Some end_ =>
        if USER_VA_LIMIT <? end_ then Ret None
        else if negb (Z.shiftr addr PAGE_SIZE_BITS =? Z.shiftr (end_ - 1) PAGE_SIZE_BITS)
        then Ret None
        else
          ok ← check_user_range m token addr size write;
          if negb ok then Ret None
          else Ret (translate_va m (from_token token) (VirtAddr_from addr))
    end.

(** ** [UserBuffer] *)

Definition ub_len (buffers : list slice) : Z := foldl (fun total b => total + b.2) 0 buffers.

Record UserBufferIterator : Type := mkIter {
  it_buffers : list slice;
  current_buffer : Z;
  current_idx : Z;
}.

Definition into_iter (buffers : list slice) : UserBufferIterator :=
  {| it_buffers := buffers; current_buffer := 0; current_idx := 0 |}.

(** [next]: the pointer it yields is the physical address of the byte. *)
Definition iter_next (self : UserBufferIterator)
    : outcome (option Z * UserBufferIterator) :=
  if Z.of_nat (length (it_buffers self)) <=? current_buffer self then Ret (None, self)
  else
    '(base, n) ← index (it_buffers self) (current_buffer self);
    if negb (current_idx self <? n) then Panic
    else
      let r := base + current_idx self in
      let self' :=
        if current_idx self + 1 =? n
        then {| it_buffers := it_buffers self;
                current_buffer := current_buffer self + 1; current_idx := 0 |}
        else {| it_buffers := it_buffers self;
                current_buffer := current_buffer self;
                current_idx := current_idx self + 1 |} in
      Ret (Some r, self').

(** ** [user_access.rs] *)

(** The copy loops: one slice at a time, [offset] advancing by its length. *)
Fixpoint gather (m : PhysMem) (buffers : list slice) : list Z :=
  match buffers with
  | [] => []
  | (a, n) :: rest => load_bytes m a (Z.to_nat n) ++ gather m rest
  end.

Fixpoint scatter (m : PhysMem) (buffers : list slice) (source : list Z) : outcome PhysMem :=
  match buffers with
  | [] => Ret m
  | (a, n) :: rest =>
      if (length source <? Z.to_nat n)%nat then Panic
      else scatter (store_bytes m a (take (Z.to_nat n) source)) rest (drop (Z.to_nat n) source)
  end.

(** [copy_from_user] for a type of [size] bytes: the bytes of the value. *)
Definition copy_from_user (m : PhysMem) (token src size : Z) : outcome (IpcResult (list Z)) :=
  if size =? 0 then Ret (Err InvalidArgument)
  else
    r ← try_translated_byte_buffer m token src size false;
    match r with
    | None => Ret (Err InvalidAddress)
    | Some buffers => Ret (Ok (gather m buffers))
    end.

(** [copy_to_user] of a value whose memory representation is [source]. *)
Definition copy_to_user (m : PhysMem) (token dst : Z) (source : list Z)
    : outcome (PhysMem * IpcResult unit) :=
  let size := Z.of_nat (length source) in
  if size =? 0 then Ret (m, Err InvalidArgument)
  else
    r ← try_translated_byte_buffer m token dst size true;
    match r with
    | None => Ret (m, Err InvalidAddress)
    | Some buffers => m' ← scatter m buffers source; Ret (m', Ok tt)
    end.

Definition copy_bytes_from_user (m : PhysMem) (token src len : Z)
    : outcome (IpcResult (list slice)) :=
  r ← try_translated_byte_buffer m token src len false;
  match r with
  | None => Ret (Err InvalidAddress)
  | Some buffers => Ret (Ok buffers)
  end.

(** ** Specification vocabulary *)

(** A user byte the kernel may access for reading or writing. *)
Definition user_byte_ok (m : PhysMem) (pt : PageTable) (write : bool) (a : Z) : Prop :=
  exists pte, translate m pt (a / 4096) = Some pte /\ entry_allows pte write = true.

Definition range_ok (m : PhysMem) (token ptr len : Z) (write : bool) : Prop :=
  len = 0 \/
  (ptr + len <= 2 ^ 38 /\
   forall a, ptr <= a < ptr + len -> user_byte_ok m (from_token token) write a).

(** The physical address of a mapped user byte. *)
Definition phys_of (m : PhysMem) (pt : PageTable) (a : Z) : Z :=
  frame_base (pte_ppn (default 0 (translate m pt (a / 4096)))) + a mod 4096.

Definition slice_addrs (s : slice) : list Z := seqZ s.1 s.2.
Definition buffer_addrs (v : list slice) : list Z := concat (slice_addrs <$> v).

End UserAccess.
#[global] Arguments UserAccess.entry_allows : simpl never.
#[global] Arguments UserAccess.check_user_range : simpl never.
#[global] Arguments UserAccess.page_fuel : simpl never.
