(* ===== verification/UserAccessFacts.v ===== *)
(** * Correctness of the user-memory checks and copies *)
From S2P Require Import Prelude IpcApi Address Allocators PageTable UserAccess.
Import Address Mem PageTable UserAccess.

Lemma USER_VA_LIMIT_val : USER_VA_LIMIT = 2 ^ 38.
Proof. done. Qed.

(** ** [check_user_range] *)

(** The page boundary after [cur], as the code computes it. *)
Lemma page_end_spec cur :
  0 <= cur < 2 ^ 38 ->
  wrap 64 (Z.land cur (bit_not 64 (PAGE_SIZE - 1)) + PAGE_SIZE) = (cur / 4096 + 1) * 4096.
Proof.
  intros Hc. change (2 ^ 38) with 274877906944 in Hc.
  rewrite land_not_page_mask by (unfold in_width; change (2 ^ 64) with 18446744073709551616; lia).
  change PAGE_SIZE with 4096.
  rewrite wrap_small; [|unfold in_width; change (2 ^ 64) with 18446744073709551616];
    lia_mod.
Qed.

Lemma user_byte_ok_same_page m pt write a b :
  a / 4096 = b / 4096 -> user_byte_ok m pt write a -> user_byte_ok m pt write b.
Proof. unfold user_byte_ok. by intros ->. Qed.

(** How many page steps a scan from [cur] to [end_] still takes. *)
Definition pages_left (cur end_ : Z) : nat :=
  if cur <? end_ then Z.to_nat ((end_ - 1) / 4096 - cur / 4096 + 1) else O.

Lemma pages_left_step cur end_ :
  cur < end_ -> (pages_left (Z.min ((cur / 4096 + 1) * 4096) end_) end_ < pages_left cur end_)%nat.
Proof.
  intros H. unfold pages_left.
  destruct (Z.ltb_spec cur end_); [|lia].
  destruct (Z.ltb_spec (Z.min ((cur / 4096 + 1) * 4096) end_) end_); lia_mod.
Qed.

Lemma pages_left_fuel ptr len : 0 <= ptr -> 0 <= len -> (pages_left ptr (ptr + len) < page_fuel len)%nat.
Proof.
  intros. unfold pages_left, page_fuel, PAGE_SIZE.
  destruct (Z.ltb_spec ptr (ptr + len)); lia_mod.
Qed.

Lemma check_user_range_loop m pt write ptr len :
  0 <= ptr -> 0 < len -> ptr + len <= 2 ^ 38 ->
  exists b, while_loop (page_fuel len) (check_user_range_body m pt (ptr + len) write) ptr = Ret b /\
  (b = true <-> forall a, ptr <= a < ptr + len -> user_byte_ok m pt write a).
Proof.
  intros Hp Hl Hlim. set (end_ := ptr + len).
  apply (while_loop_spec _
    (fun cur => ptr <= cur <= end_ /\ forall a, ptr <= a < cur -> user_byte_ok m pt write a)
    (fun cur => pages_left cur end_)
    (fun b => b = true <-> forall a, ptr <= a < end_ -> user_byte_ok m pt write a)).
  - intros cur [Hc Hok]. unfold check_user_range_body.
    destruct (Z.ltb_spec cur end_) as [Hlt|Hge]; cbn.
    2:{ eexists; split; [done|]. cbn. split; [|done]. intros _ a Ha. apply Hok. lia. }
    change (2 ^ 38) with 274877906944 in *.
    assert (Hfl : floor (VirtAddr_from cur) = cur / 4096).
    { rewrite VirtAddr_from_small by (change (2 ^ 39) with 549755813888; subst end_; lia). done. }
    rewrite Hfl. destruct (translate m pt (cur / 4096)) as [pte|] eqn:Et.
    + destruct (entry_allows pte write) eqn:Ea; cbn.
      * rewrite page_end_spec by (change (2 ^ 38) with 274877906944; subst end_; lia).
        eexists; split; [reflexivity|]. cbn. split; [|by apply pages_left_step].
        split; [subst end_; lia_mod|]. intros a Ha.
        destruct (decide (a < cur)); [apply Hok; lia|].
        exists pte. split; [|done]. replace (a / 4096) with (cur / 4096); [done|lia_mod].
      * eexists; split; [done|]. cbn. split; [done|]. intros Hall.
        destruct (Hall cur) as (pte' & ? & ?); [lia|]. congruence.
    + eexists; split; [done|]. cbn. split; [done|]. intros Hall.
      destruct (Hall cur) as (pte' & ? & ?); [lia|]. congruence.
  - split; [subst end_; lia|]. intros. lia.
  - by apply pages_left_fuel; lia.
Qed.

Lemma check_user_range_spec m token ptr len write :
  in_width 64 ptr -> in_width 64 len ->
  exists b, check_user_range m token ptr len write = Ret b /\
  (b = true <-> range_ok m token ptr len write).
Proof.
  intros [Hp1 Hp2] [Hl1 Hl2]. unfold check_user_range, range_ok. rewrite USER_VA_LIMIT_val.
  destruct (Z.eqb_spec len 0) as [->|Hl]; [eexists; split; [done|]; naive_solver|].
  destruct (checked_add 64 ptr len) as [e|] eqn:Ec.
  - apply checked_add_Some in Ec as [-> Hs].
    destruct ((2 ^ 38 <=? ptr) || (2 ^ 38 <? ptr + len)) eqn:Eg.
    + eexists; split; [done|]. split; [done|]. intros [|[? _]]; [lia|].
      apply orb_true_iff in Eg as [Eg|Eg]; bool_lia.
    + bool_lia. destruct (check_user_range_loop m (from_token token) write ptr len) as (b & -> & Hb);
        [lia..|]. exists b. split; [done|]. rewrite Hb. naive_solver.
  - apply checked_add_None in Ec. eexists; split; [done|]. split; [done|].
    intros [|[? _]]; [lia|]. change (2 ^ 38) with 274877906944 in *.
    change (2 ^ 64) with 18446744073709551616 in *. lia.
Qed.

(** ** [try_translated_byte_buffer] *)

Lemma buffer_addrs_snoc v s : buffer_addrs (v ++ [s]) = buffer_addrs v ++ slice_addrs s.
Proof. unfold buffer_addrs. rewrite fmap_app, concat_app. cbn. by rewrite app_nil_r. Qed.

Lemma frame_slice_ok ppn a b : 0 <= a <= b -> b <= 4096 -> frame_slice ppn a b = Ret (frame_base ppn + a, b - a).
Proof.
  intros. unfold frame_slice. destruct (Z.leb_spec a b), (Z.leb_spec b 4096); try lia. done.
Qed.

(** Consecutive user bytes of one page are consecutive in its frame. *)
Lemma phys_of_page m pt pte start n :
  0 <= start -> 0 <= n -> start mod 4096 + n <= 4096 ->
  translate m pt (start / 4096) = Some pte ->
  seqZ (frame_base (pte_ppn pte) + start mod 4096) n = phys_of m pt <$> seqZ start n.
Proof.
  intros Hs Hn Hb Ht. apply list_eq. intros i. rewrite list_lookup_fmap.
  destruct (decide (Z.of_nat i < n)) as [Hi|Hi].
  - rewrite !lookup_seqZ_lt by lia. cbn. f_equal. unfold phys_of.
    replace ((start + Z.of_nat i) / 4096) with (start / 4096) by lia_mod.
    rewrite Ht. cbn. lia_mod.
  - by rewrite !lookup_seqZ_ge by lia.
Qed.

Definition nonempty_slices (v : list slice) : Prop := Forall (fun s => 0 < s.2) v.

(** One step of the loop: the slice for the rest of the page. *)
Lemma byte_buffer_step m pt start end_ v pte :
  0 <= start < end_ -> end_ <= 2 ^ 38 ->
  translate m pt (start / 4096) = Some pte ->
  let next := Z.min ((start / 4096 + 1) * 4096) end_ in
  byte_buffer_body m pt end_ (start, v)
  = Ret (inl (usize_from_VirtAddr next,
              v ++ [(frame_base (pte_ppn pte) + start mod 4096, next - start)])).
Proof.
  intros Hs He Ht next. unfold byte_buffer_body.
  destruct (Z.ltb_spec start end_); [|lia]. cbn [negb].
  assert (He39 : end_ < 2 ^ 39) by (change (2 ^ 39) with (2 * 2 ^ 38); lia).
  rewrite !VirtAddr_from_small by lia. change (floor start) with (start / 4096). rewrite Ht. cbn.
  assert (Hstep : step (start / 4096) = start / 4096 + 1).
  { unfold step. apply wrap_small. unfold in_width. change (2 ^ 38) with 274877906944 in *.
    change (2 ^ 64) with 18446744073709551616. lia_mod. }
  rewrite Hstep, addr_from_page_num_mul.
  2:{ change (2 ^ 38) with 274877906944 in *. change (2 ^ 52) with 4503599627370496. lia_mod. }
  fold next. rewrite !page_offset_mod.
  destruct (Z.eqb_spec (next mod 4096) 0) as [E|E]; rewrite frame_slice_ok by (subst next; lia_mod).
  - assert (4096 - start mod 4096 = next - start) as -> by (subst next; lia_mod). done.
  - assert (next mod 4096 - start mod 4096 = next - start) as -> by (subst next; lia_mod). done.
Qed.

Lemma usize_from_VirtAddr_low v : v < 2 ^ 38 -> usize_from_VirtAddr v = v.
Proof.
  intros. unfold usize_from_VirtAddr, VA_WIDTH_SV39. rewrite Z.shiftl_1_l.
  change (2 ^ (39 - 1)) with (2 ^ 38). destruct (Z.leb_spec (2 ^ 38) v); [lia|done].
Qed.

Lemma usize_from_VirtAddr_ge v : 0 <= v -> v <= usize_from_VirtAddr v.
Proof.
  intros Hv. unfold usize_from_VirtAddr. destruct (_ <=? v); [|lia].
  set (c := bit_not _ _). assert (Hc : 0 <= c) by (vm_compute; congruence).
  assert (Hn : 0 <= Z.lor v c) by (apply Z.lor_nonneg; lia).
  assert (Z.ldiff v (Z.lor v c) = 0) as Hd.
  { apply Z.bits_inj'. intros i Hi. rewrite Z.ldiff_spec, Z.lor_spec, Z.bits_0.
    by destruct (Z.testbit v i), (Z.testbit c i). }
  pose proof (Z.ldiff_le _ _ Hn Hd). lia.
Qed.

Lemma byte_buffer_loop m pt ptr len :
  0 <= ptr -> 0 <= len -> ptr + len <= 2 ^ 38 ->
  (forall a, ptr <= a < ptr + len -> is_Some (translate m pt (a / 4096))) ->
  exists v, while_loop (page_fuel len) (byte_buffer_body m pt (ptr + len)) (ptr, []) = Ret v /\
  buffer_addrs v = phys_of m pt <$> seqZ ptr len /\ nonempty_slices v.
Proof.
  intros Hp Hl Hlim Hmap. set (end_ := ptr + len).
  apply (while_loop_spec _
    (fun '(start, v) => exists hi, ptr <= hi <= end_ /\ (start = hi \/ hi = end_ /\ end_ <= start) /\
       buffer_addrs v = (phys_of m pt <$> seqZ ptr (hi - ptr)) /\ nonempty_slices v)
    (fun '(start, v) => pages_left start end_)
    (fun v => buffer_addrs v = (phys_of m pt <$> seqZ ptr len) /\ nonempty_slices v)).
  - intros [start v] (hi & Hhi & Hst & Hb & Hne).
    destruct (decide (start < end_)) as [Hlt|Hge].
    + assert (start = hi) as -> by (destruct Hst as [|[? ?]]; lia).
      destruct (Hmap hi) as [pte Ht]; [subst end_; lia|].
      pose proof (byte_buffer_step m pt hi end_ v pte) as Hstep. cbn zeta in Hstep.
      set (next := Z.min ((hi / 4096 + 1) * 4096) end_) in *.
      assert (Hn : hi < next <= end_ /\ hi mod 4096 + (next - hi) <= 4096) by (subst next; lia_mod).
      rewrite Hstep by (done || lia). eexists; split; [done|]. cbn. split.
      * exists next. split_and!; [lia|lia| | |].
        -- destruct (decide (next < 2 ^ 38)); [left; by apply usize_from_VirtAddr_low|].
           right. split; [lia|]. pose proof (usize_from_VirtAddr_ge next). lia.
        -- rewrite buffer_addrs_snoc, Hb. unfold slice_addrs; cbn.
           rewrite (phys_of_page m pt pte hi (next - hi)) by (done || lia).
           rewrite <- fmap_app. replace (seqZ hi) with (seqZ (ptr + (hi - ptr))) by (f_equal; lia).
           rewrite <- seqZ_app by lia. do 2 f_equal. lia.
        -- apply Forall_app. split; [done|]. apply Forall_singleton. cbn. lia.
      * destruct (decide (next < 2 ^ 38)).
        -- rewrite usize_from_VirtAddr_low by done. apply pages_left_step. lia.
        -- pose proof (usize_from_VirtAddr_ge next). unfold pages_left at 1.
           destruct (Z.ltb_spec (usize_from_VirtAddr next) end_); [lia|].
           unfold pages_left. destruct (Z.ltb_spec hi end_); lia_mod.
    + assert (hi = end_) as -> by (destruct Hst as [|[? ?]]; lia).
      eexists; split; [unfold byte_buffer_body; destruct (Z.ltb_spec start end_); [lia|done]|].
      cbn. split; [|done]. rewrite Hb. do 2 f_equal. subst end_. lia.
  - exists ptr. split_and!; [lia|subst end_; lia|by left| |apply Forall_nil; done].
    by rewrite Z.sub_diag.
  - apply pages_left_fuel; lia.
Qed.

Lemma range_ok_mapped m token ptr len write a :
  range_ok m token ptr len write -> ptr <= a < ptr + len ->
  is_Some (translate m (from_token token) (a / 4096)).
Proof.
  intros [->|[_ H]] Ha; [lia|]. destruct (H a Ha) as (pte & -> & _). by eexists.
Qed.

Lemma try_translated_byte_buffer_spec m token ptr len write :
  in_width 64 ptr -> in_width 64 len ->
  exists r, try_translated_byte_buffer m token ptr len write = Ret r /\
  match r with
  | Some v => range_ok m token ptr len write /\
              buffer_addrs v = (phys_of m (from_token token) <$> seqZ ptr len) /\
              nonempty_slices v
  | None => ~ range_ok m token ptr len write
  end.
Proof.
  intros Hp Hl. unfold try_translated_byte_buffer.
  destruct (check_user_range_spec m token ptr len write Hp Hl) as (b & -> & Hb). cbn.
  destruct b; cbn.
  2:{ eexists; split; [done|]. cbn. intros Hr%Hb. done. }
  assert (Hr : range_ok m token ptr len write) by tauto.
  destruct (decide (len = 0)) as [->|Hne].
  - exists (Some []). split.
    + rewrite Z.add_0_r, wrap_small by done. change (page_fuel 0) with 3%nat.
      cbn [while_loop]. unfold byte_buffer_body. by rewrite Z.ltb_irrefl.
    + split_and!; [done|done|]. by apply Forall_nil.
  - destruct Hp as [? ?], Hl as [? ?]. pose proof Hr as [|[Hlim Hok]]; [lia|].
    rewrite wrap_small by (unfold in_width; change (2 ^ 38) with 274877906944 in *;
      change (2 ^ 64) with 18446744073709551616 in *; lia).
    destruct (byte_buffer_loop m (from_token token) ptr len) as (v & -> & Hv & Hnv); [lia..| |].
    + intros a Ha. eapply range_ok_mapped; done.
    + cbn. eexists; split; [done|]. done.
Qed.

(** ** Byte copies *)

(** Storing a list of bytes at a list of addresses, in order. *)
Fixpoint store_list (m : PhysMem) (addrs : list Z) (bs : list Z) : PhysMem :=
  match addrs, bs with
  | a :: addrs', b :: bs' => store_list (store m a b) addrs' bs'
  | _, _ => m
  end.

Lemma store_list_app m as1 as2 bs1 bs2 :
  length as1 = length bs1 ->
  store_list m (as1 ++ as2) (bs1 ++ bs2) = store_list (store_list m as1 bs1) as2 bs2.
Proof.
  revert m bs1. induction as1 as [|a as1 IH]; intros m [|b bs1] Hl; simplify_eq/=; [done|].
  by apply IH.
Qed.

Lemma store_bytes_list m a bs : store_bytes m a bs = store_list m (seqZ a (Z.of_nat (length bs))) bs.
Proof.
  revert m a. induction bs as [|b bs IH]; intros m a; [done|].
  rewrite seqZ_cons by (cbn [length]; lia). cbn [store_bytes store_list]. rewrite IH.
  do 2 f_equal. cbn [length]. lia.
Qed.

Lemma load_bytes_fmap m a n : load_bytes m a n = load m <$> seqZ a (Z.of_nat n).
Proof.
  unfold load_bytes, seqZ. rewrite <- list_fmap_compose, Nat2Z.id. apply list_fmap_ext.
  intros i x _. cbn. f_equal. lia.
Qed.

Lemma store_list_other m addrs bs x : x ∉ addrs -> load (store_list m addrs bs) x = load m x.
Proof.
  revert m bs. induction addrs as [|a addrs IH]; intros m [|b bs] Hx; cbn; try done.
  apply not_elem_of_cons in Hx as [? ?]. rewrite IH by done. by apply load_store_ne.
Qed.

(** Distinct addresses hold what was stored there. *)
Lemma load_store_list m addrs bs :
  NoDup addrs -> length addrs = length bs -> (load (store_list m addrs bs) <$> addrs) = bs.
Proof.
  intros Hn. revert m bs. induction Hn as [|a addrs Ha Hn IH]; intros m [|b bs] Hl; simplify_eq/=; [done|].
  f_equal; [|by apply IH]. rewrite store_list_other by done. apply load_store_eq.
Qed.

Lemma gather_spec m v : nonempty_slices v -> gather m v = load m <$> buffer_addrs v.
Proof.
  induction v as [|[a n] v IH]; intros Hv; [done|]. apply Forall_cons in Hv as [Hn Hv]; cbn in Hn.
  cbn [gather]. rewrite IH by done. unfold buffer_addrs. rewrite fmap_cons. cbn [concat].
  rewrite fmap_app. f_equal. rewrite load_bytes_fmap. unfold slice_addrs; cbn. do 2 f_equal. lia.
Qed.

Lemma length_slice_addrs s : 0 <= s.2 -> Z.of_nat (length (slice_addrs s)) = s.2.
Proof. intros. unfold slice_addrs. rewrite length_seqZ. lia. Qed.

Lemma scatter_spec m v bs :
  nonempty_slices v -> length (buffer_addrs v) = length bs ->
  scatter m v bs = Ret (store_list m (buffer_addrs v) bs).
Proof.
  revert m bs. induction v as [|[a n] v IH]; intros m bs Hv Hl.
  { destruct bs; done. }
  apply Forall_cons in Hv as [Hn Hv]; cbn in Hn. cbn [scatter].
  unfold buffer_addrs in *. rewrite fmap_cons in *. cbn [concat] in *.
  pose proof (length_slice_addrs (a, n) ltac:(cbn; lia)) as Hs. cbn in Hs.
  rewrite length_app in Hl.
  destruct (Nat.ltb_spec (length bs) (Z.to_nat n)) as [|Hle]; [lia|].
  rewrite IH by (done || rewrite length_drop; lia). f_equal.
  rewrite <- (take_drop (Z.to_nat n) bs) at 3.
  rewrite store_list_app by (rewrite length_take; lia). f_equal.
  rewrite store_bytes_list. unfold slice_addrs; cbn. do 2 f_equal. rewrite length_take. lia.
Qed.

(** The addresses of a user range, once translated. *)
Definition phys_range (m : PhysMem) (token ptr len : Z) : list Z :=
  phys_of m (from_token token) <$> seqZ ptr len.

(** [copy_from_user] never panics; it returns the bytes at the translated
    addresses exactly when every byte of the range is a user page with read
    permission below the user limit, and [InvalidAddress] otherwise. *)
Lemma copy_from_user_spec m token src size :
  in_width 64 src -> 0 < size < 2 ^ 64 ->
  (range_ok m token src size false /\
   copy_from_user m token src size = Ret (Ok (load m <$> phys_range m token src size))) \/
  (~ range_ok m token src size false /\
   copy_from_user m token src size = Ret (Err InvalidAddress)).
Proof.
  intros Hs Hz. unfold copy_from_user. destruct (Z.eqb_spec size 0); [lia|].
  destruct (try_translated_byte_buffer_spec m token src size false Hs) as (r & -> & Hr);
    [unfold in_width; lia|].
  destruct r as [v|]; cbn; [left|by right].
  destruct Hr as (Hok & Ha & Hv). split; [done|]. by rewrite gather_spec, Ha.
Qed.

(** [copy_to_user] never panics; when every byte of the destination is a
    writable user page it stores exactly the source bytes at the translated
    addresses, and otherwise it reports [InvalidAddress] and changes nothing. *)
Lemma copy_to_user_spec m token dst source :
  in_width 64 dst -> 0 < Z.of_nat (length source) < 2 ^ 64 ->
  let size := Z.of_nat (length source) in
  (range_ok m token dst size true /\
   copy_to_user m token dst source
   = Ret (store_list m (phys_range m token dst size) source, Ok tt)) \/
  (~ range_ok m token dst size true /\
   copy_to_user m token dst source = Ret (m, Err InvalidAddress)).
Proof.
  intros Hs Hz size. unfold copy_to_user. fold size. destruct (Z.eqb_spec size 0); [lia|].
  destruct (try_translated_byte_buffer_spec m token dst size true Hs) as (r & -> & Hr);
    [unfold in_width; lia|].
  destruct r as [v|]; cbn; [left|by right].
  destruct Hr as (Hok & Ha & Hv). split; [done|]. rewrite scatter_spec; [by rewrite Ha|done|].
  rewrite Ha, length_fmap, length_seqZ. subst size. lia.
Qed.

(** ** Strings *)

(** A readable NUL-terminated user string [s] at [ptr]. *)
Definition user_str (m : PhysMem) (token ptr : Z) (s : list Z) : Prop :=
  let n := Z.of_nat (length s) in
  (forall a, ptr <= a <= ptr + n -> user_byte_ok m (from_token token) false a) /\
  (load m <$> phys_range m token ptr n) = s /\ (0 ∉ s) /\
  load m (phys_of m (from_token token) (ptr + n)) = 0.

Lemma position_zero_Some bs z :
  position_zero bs = Some z -> bs !! z = Some 0 /\ 0 ∉ take z bs.
Proof.
  revert z. induction bs as [|b bs IH]; intros z; cbn; [done|].
  destruct (Z.eqb_spec b 0) as [->|Hb]; intros Hz.
  - simplify_eq. split; [done|]. apply not_elem_of_nil.
  - destruct (position_zero bs) as [z'|] eqn:E; simplify_eq/=.
    destruct (IH z' eq_refl). split; [done|]. rewrite elem_of_cons. naive_solver.
Qed.

Lemma position_zero_None bs : position_zero bs = None -> 0 ∉ bs.
Proof.
  induction bs as [|b bs IH]; cbn; [intros _; apply not_elem_of_nil|].
  destruct (Z.eqb_spec b 0); [done|]. intros H%fmap_None. rewrite elem_of_cons. naive_solver.
Qed.

Lemma entry_allows_read pte :
  entry_allows pte false
  = negb (negb (flags_contains (pte_flags pte) PTE_U) || negb (flags_contains (pte_flags pte) PTE_R)).
Proof.
  unfold entry_allows. by destruct (flags_contains _ PTE_U), (flags_contains _ PTE_R).
Qed.

Lemma phys_range_app m token ptr n k :
  0 <= n -> 0 <= k ->
  phys_range m token ptr (n + k) = phys_range m token ptr n ++ phys_range m token (ptr + n) k.
Proof. intros. unfold phys_range. by rewrite seqZ_app, fmap_app. Qed.

Lemma phys_range_page m token ptr n pte :
  translate m (from_token token) (ptr / 4096) = Some pte ->
  0 <= ptr -> 0 <= n -> ptr mod 4096 + n <= 4096 ->
  phys_range m token ptr n = seqZ (frame_base (pte_ppn pte) + ptr mod 4096) n.
Proof. intros. unfold phys_range. symmetry. by apply phys_of_page. Qed.

(** Two readings of the same string agree on what comes before a known
    NUL-free prefix: the terminator is not inside it. *)
Lemma user_str_past_prefix m token ptr n s :
  0 <= n -> 0 ∉ (load m <$> phys_range m token ptr n) ->
  user_str m token ptr s -> n <= Z.of_nat (length s).
Proof.
  intros Hn Hz (_ & _ & _ & Hterm). destruct (Z.le_gt_cases n (Z.of_nat (length s))) as [|Hlt]; [done|].
  exfalso. apply Hz. unfold phys_range. rewrite <- list_fmap_compose. apply list_elem_of_fmap.
  exists (ptr + Z.of_nat (length s)). split; [by cbn|]. apply elem_of_seqZ. lia.
Qed.

(** One step of the scan: the chunk up to the page end or the limit. *)
Lemma translated_str_step m token limit cur str pte :
  0 <= cur < limit -> limit <= 2 ^ 38 ->
  translate m (from_token token) (cur / 4096) = Some pte -> entry_allows pte false = true ->
  let chunk := Z.min (4096 - cur mod 4096) (limit - cur) in
  let bytes := load m <$> phys_range m token cur chunk in
  translated_str_body m (from_token token) limit (cur, str)
  = match position_zero bytes with
    | Some z => Ret (inr (Some (str ++ take z bytes)))
    | None => Ret (inl (cur + chunk, str ++ bytes))
    end.
Proof.
  intros Hc Hlim Ht He chunk bytes. change (2 ^ 38) with 274877906944 in *.
  unfold translated_str_body. destruct (Z.ltb_spec cur limit); [|lia]. cbn [negb].
  rewrite VirtAddr_from_small by (change (2 ^ 39) with 549755813888; lia).
  rewrite floor_div, Ht. rewrite entry_allows_read in He. apply negb_true_iff in He. rewrite He.
  fold (page_offset cur). rewrite page_offset_mod.
  change PAGE_SIZE with 4096. fold chunk.
  rewrite frame_slice_ok by (subst chunk; lia_mod). cbn [mbind outcome_bind].
  replace (cur mod 4096 + chunk - cur mod 4096) with chunk by lia.
  rewrite load_bytes_fmap, Z2Nat.id by (subst chunk; lia_mod).
  rewrite <- (phys_range_page m token cur chunk pte) by (done || subst chunk; lia_mod).
  fold bytes. destruct (position_zero bytes); [done|].
  rewrite wrap_small; [done|]. unfold in_width. change (2 ^ 64) with 18446744073709551616.
  subst chunk; lia_mod.
Qed.

Lemma user_byte_ok_range m pt write a n :
  user_byte_ok m pt write a -> a mod 4096 + n <= 4096 ->
  forall b, a <= b < a + n -> user_byte_ok m pt write b.
Proof. intros Ha Hn b Hb. eapply user_byte_ok_same_page; [|done]. lia_mod. Qed.

(** Finding the terminator inside the current chunk ends a user string. *)
Lemma user_str_found m token ptr cur chunk z :
  ptr <= cur -> 0 <= chunk ->
  (forall a, ptr <= a < cur + chunk -> user_byte_ok m (from_token token) false a) ->
  0 ∉ (load m <$> phys_range m token ptr (cur - ptr)) ->
  position_zero (load m <$> phys_range m token cur chunk) = Some z ->
  user_str m token ptr
    ((load m <$> phys_range m token ptr (cur - ptr)) ++ take z (load m <$> phys_range m token cur chunk))
  /\ Z.of_nat z < chunk.
Proof.
  intros Hpc Hch Hok Hnz Hz. apply position_zero_Some in Hz as [Hz Htz].
  assert (Hzc : Z.of_nat z < chunk).
  { apply lookup_lt_Some in Hz. unfold phys_range in Hz.
    rewrite !length_fmap, length_seqZ in Hz. lia. }
  split; [|done]. rewrite <- fmap_take.
  assert (Htake : take z (phys_range m token cur chunk) = phys_range m token cur (Z.of_nat z)).
  { replace chunk with (Z.of_nat z + (chunk - Z.of_nat z)) by lia.
    rewrite phys_range_app by lia. apply take_app_length'. unfold phys_range.
    rewrite length_fmap, length_seqZ. lia. }
  rewrite Htake, <- fmap_app.
  replace (phys_range m token cur (Z.of_nat z))
    with (phys_range m token (ptr + (cur - ptr)) (Z.of_nat z)) by (f_equal; lia).
  rewrite <- phys_range_app by lia.
  assert (Hlen : Z.of_nat (length (load m <$> phys_range m token ptr (cur - ptr + Z.of_nat z)))
                 = cur - ptr + Z.of_nat z).
  { unfold phys_range. rewrite !length_fmap, length_seqZ. lia. }
  unfold user_str. rewrite Hlen. split_and!; [|done| |].
  - intros a Ha. apply Hok. lia.
  - rewrite phys_range_app, fmap_app by lia. replace (ptr + (cur - ptr)) with cur by lia.
    rewrite <- Htake, fmap_take. rewrite elem_of_app. tauto.
  - unfold phys_range in Hz. rewrite !list_lookup_fmap, lookup_seqZ_lt in Hz by lia.
    injection Hz as Hz. etrans; [|exact Hz]. do 2 f_equal. lia.
Qed.

Lemma try_translated_str_spec m token ptr max_len :
  in_width 64 ptr -> in_width 64 max_len ->
  exists r, try_translated_str m token ptr max_len = Ret r /\
  match r with
  | Some s => user_str m token ptr s /\ Z.of_nat (length s) < max_len
  | None => ptr = 0 \/ 2 ^ 38 < ptr + max_len \/
            forall s, user_str m token ptr s -> max_len <= Z.of_nat (length s)
  end.
Proof.
  intros [Hp Hp'] [Hl Hl']. unfold try_translated_str.
  destruct (Z.eqb_spec ptr 0); [eexists; split; [done|]; by left|].
  destruct (Z.eqb_spec max_len 0) as [->|]; [eexists; split; [done|]; right; right; lia|]. cbn [orb].
  destruct (checked_add 64 ptr max_len) as [limit|] eqn:Ec.
  2:{ apply checked_add_None in Ec. eexists; split; [done|]. right; left.
      change (2 ^ 38) with 274877906944. change (2 ^ 64) with 18446744073709551616 in *. lia. }
  apply checked_add_Some in Ec as [-> _]. rewrite USER_VA_LIMIT_val.
  destruct (Z.ltb_spec (2 ^ 38) (ptr + max_len)); [eexists; split; [done|]; by right; left|].
  set (limit := ptr + max_len) in *.
  apply (while_loop_spec _
    (fun st => ptr <= st.1 <= limit /\ st.2 = (load m <$> phys_range m token ptr (st.1 - ptr)) /\
       (0 ∉ st.2) /\ forall a, ptr <= a < st.1 -> user_byte_ok m (from_token token) false a)
    (fun st => pages_left st.1 limit)
    (fun r => match r with
      | Some s => user_str m token ptr s /\ Z.of_nat (length s) < max_len
      | None => ptr = 0 \/ 2 ^ 38 < limit \/
            forall s, user_str m token ptr s -> max_len <= Z.of_nat (length s) end)).
  - intros [cur str] (Hc & Hstr & Hnz & Hok); cbn [fst snd] in *. subst str.
    assert (Hpast : forall s, user_str m token ptr s -> cur - ptr <= Z.of_nat (length s))
      by (intros s; apply user_str_past_prefix; done || lia).
    destruct (Z.ltb_spec cur limit) as [Hlt|Hge].
    2:{ exists (inr None). split.
        - unfold translated_str_body. destruct (Z.ltb_spec cur limit); [lia|done].
        - right; right. intros s Hs%Hpast. lia. }
    destruct (translate m (from_token token) (cur / 4096)) as [pte|] eqn:Et;
      [destruct (entry_allows pte false) eqn:Ee|].
    + rewrite (translated_str_step _ _ _ _ _ pte) by (done || lia).
      set (chunk := Z.min (4096 - cur mod 4096) (limit - cur)).
      assert (Hch : 0 < chunk /\ cur mod 4096 + chunk <= 4096 /\ cur + chunk <= limit)
        by (subst chunk; lia_mod).
      assert (Hok' : forall a, ptr <= a < cur + chunk -> user_byte_ok m (from_token token) false a).
      { intros a Ha. destruct (decide (a < cur)); [apply Hok; lia|].
        apply (user_byte_ok_range _ _ _ cur chunk); [by exists pte|lia..]. }
      destruct (position_zero _) as [z|] eqn:Ez.
      * eexists; split; [done|]. cbv beta iota.
        destruct (user_str_found m token ptr cur chunk z) as [Hu Hz]; [lia|lia|done|done|done|].
        split; [exact Hu|]. rewrite length_app, length_take. unfold phys_range.
        rewrite !length_fmap, !length_seqZ. lia.
      * eexists; split; [done|]. cbn [fst snd]. split.
        -- split_and!; [lia|lia| | |done].
           ++ rewrite <- fmap_app. replace (phys_range m token cur chunk)
                with (phys_range m token (ptr + (cur - ptr)) chunk) by (f_equal; lia).
              rewrite <- phys_range_app by lia. do 2 f_equal. lia.
           ++ rewrite elem_of_app. apply position_zero_None in Ez. tauto.
        -- replace (cur + chunk) with (Z.min ((cur / 4096 + 1) * 4096) limit) by (subst chunk; lia_mod).
           by apply pages_left_step.
    + exists (inr None). split.
      * unfold translated_str_body. destruct (Z.ltb_spec cur limit); [|lia]. cbn.
        rewrite VirtAddr_from_small by (change (2 ^ 38) with 274877906944 in *; change (2 ^ 39) with 549755813888; lia).
        rewrite floor_div, Et. rewrite entry_allows_read in Ee. apply negb_false_iff in Ee. by rewrite Ee.
      * right; right. intros s Hs. pose proof (Hpast s Hs). destruct Hs as (Hall & _).
        destruct (Hall cur) as (pte' & Ht' & He'); [lia|]. congruence.
    + exists (inr None). split.
      * unfold translated_str_body. destruct (Z.ltb_spec cur limit); [|lia]. cbn.
        rewrite VirtAddr_from_small by (change (2 ^ 38) with 274877906944 in *; change (2 ^ 39) with 549755813888; lia).
        by rewrite floor_div, Et.
      * right; right. intros s Hs. pose proof (Hpast s Hs). destruct Hs as (Hall & _).
        destruct (Hall cur) as (pte' & Ht' & He'); [lia|]. congruence.
  - cbn. rewrite Z.sub_diag. split_and!; [lia|lia|done|apply not_elem_of_nil|lia].
  - cbn. apply pages_left_fuel; lia.
Qed.

(** ** The byte iterator of a [UserBuffer] *)

(** The addresses an iterator has still to yield. *)
Definition iter_rest (it : UserBufferIterator) : list Z :=
  drop (Z.to_nat (current_idx it))
       (buffer_addrs (drop (Z.to_nat (current_buffer it)) (it_buffers it))).

Definition iter_wf (it : UserBufferIterator) : Prop :=
  nonempty_slices (it_buffers it) /\ 0 <= current_buffer it /\ 0 <= current_idx it /\
  match it_buffers it !! Z.to_nat (current_buffer it) with
  | Some (_, n) => current_idx it < n
  | None => current_idx it = 0
  end.

Lemma into_iter_wf v : nonempty_slices v -> iter_wf (into_iter v) /\ iter_rest (into_iter v) = buffer_addrs v.
Proof.
  intros Hv. split; [|unfold iter_rest; cbn; by rewrite !drop_0].
  split_and!; [done|cbn; lia..|]. cbn. destruct v as [|[a n] v]; [done|].
  apply Forall_cons in Hv as [? _]; done.
Qed.

Lemma iter_next_spec it :
  iter_wf it ->
  match iter_rest it with
  | [] => iter_next it = Ret (None, it)
  | a :: rest => exists it', iter_next it = Ret (Some a, it') /\ iter_wf it' /\ iter_rest it' = rest
  end.
Proof.
  destruct it as [v cb ci]. unfold iter_wf, iter_rest, iter_next; cbn [it_buffers current_buffer current_idx].
  intros (Hv & Hcb & Hci & Hm).
  destruct (Z.leb_spec (Z.of_nat (length v)) cb) as [Hge|Hlt].
  { rewrite (drop_ge v) by lia. unfold buffer_addrs; cbn. by rewrite drop_nil. }
  destruct (v !! Z.to_nat cb) as [[base n]|] eqn:El; [|apply lookup_ge_None in El; lia].
  assert (Hdrop : drop (Z.to_nat cb) v = (base, n) :: drop (S (Z.to_nat cb)) v) by (by apply drop_S).
  rewrite Hdrop. unfold buffer_addrs. rewrite fmap_cons. cbn [concat].
  fold (buffer_addrs (drop (S (Z.to_nat cb)) v)). unfold slice_addrs; cbn [fst snd].
  replace (seqZ base n) with (seqZ base ci ++ seqZ (base + ci) (n - ci))
    by (rewrite <- seqZ_app by lia; f_equal; lia).
  rewrite <- app_assoc, drop_app_length' by (rewrite length_seqZ; lia).
  rewrite (seqZ_cons (base + ci)) by lia. cbn [app].
  unfold index; rewrite El; cbn [unwrap mbind outcome_bind].
  destruct (Z.ltb_spec ci n); [|lia]. cbn [negb].
  eexists; split; [done|]. destruct (Z.eqb_spec (ci + 1) n) as [<-|Hne]; cbn [it_buffers current_buffer current_idx].
  - split.
    + split_and!; [done|lia|lia|]. replace (Z.to_nat (cb + 1)) with (S (Z.to_nat cb)) by lia.
      destruct (v !! S (Z.to_nat cb)) as [[b2 n2]|] eqn:E2; [|done].
      apply (Forall_lookup_1 _ _ _ _ Hv) in E2. done.
    + replace (Z.to_nat (cb + 1)) with (S (Z.to_nat cb)) by lia.
      replace (Z.pred (ci + 1 - ci)) with 0 by lia. done.
  - split.
    + split_and!; [done|lia|lia|]. rewrite El. lia.
    + rewrite Hdrop. unfold buffer_addrs. rewrite fmap_cons. cbn [concat].
      fold (buffer_addrs (drop (S (Z.to_nat cb)) v)). unfold slice_addrs; cbn [fst snd].
      replace (seqZ base n) with (seqZ base (ci + 1) ++ seqZ (base + (ci + 1)) (n - (ci + 1)))
        by (rewrite <- seqZ_app by lia; f_equal; lia).
      rewrite <- app_assoc, drop_app_length' by (rewrite length_seqZ; lia).
      f_equal. replace (Z.succ (base + ci)) with (base + (ci + 1)) by lia. f_equal. lia.
Qed.

Lemma ub_len_foldl v k : foldl (fun total b => total + b.2) k v = k + ub_len v.
Proof.
  unfold ub_len. revert k. induction v as [|s v IH]; intros k; cbn; [lia|].
  rewrite IH, (IH (0 + s.2)). lia.
Qed.

Lemma ub_len_spec v : nonempty_slices v -> ub_len v = Z.of_nat (length (buffer_addrs v)).
Proof.
  induction v as [|s v IH]; intros Hv; [done|]. apply Forall_cons in Hv as [Hs Hv].
  unfold ub_len. cbn [foldl]. rewrite ub_len_foldl, IH by done.
  unfold buffer_addrs. rewrite fmap_cons. cbn [concat]. rewrite length_app.
  pose proof (length_slice_addrs s). lia.
Qed.

(** ** Properties *)

(** C23: copies between kernel and user memory are exact and safe.  For any
    non-empty object and any 64-bit user address, [copy_to_user] returns
    without panicking; it succeeds exactly when every byte of the destination
    is in a user page with write permission below the user limit; it then
    changes only the translated destination bytes (and makes them the source,
    when no two of them are the same physical byte), and on [InvalidAddress]
    memory is untouched. *)
Theorem copy_to_user_exact m token dst source :
  in_width 64 dst -> 0 < Z.of_nat (length source) < 2 ^ 64 ->
  let size := Z.of_nat (length source) in
  exists m' r, copy_to_user m token dst source = Ret (m', r) /\
  (r = Ok tt <-> range_ok m token dst size true) /\
  (r <> Ok tt -> r = Err InvalidAddress /\ m' = m) /\
  (forall x, x ∉ phys_range m token dst size -> load m' x = load m x) /\
  (r = Ok tt -> NoDup (phys_range m token dst size) ->
   (load m' <$> phys_range m token dst size) = source).
Proof.
  intros Hd Hs size. destruct (copy_to_user_spec m token dst source Hd Hs) as [[Hok E]|[Hok E]].
  - eexists _, _. split; [exact E|]. fold size. split_and!; [done|done| |].
    + intros x Hx. by apply store_list_other.
    + intros _ Hn. apply load_store_list; [done|]. unfold phys_range.
      rewrite length_fmap, length_seqZ. subst size. lia.
  - eexists _, _. split; [exact E|]. fold size. split_and!; done.
Qed.

(** [copy_from_user] returns without panicking, with the bytes at the
    translated addresses exactly when the whole range is readable user memory,
    and with [InvalidAddress] otherwise. *)
Theorem copy_from_user_exact m token src size :
  in_width 64 src -> 0 < size < 2 ^ 64 ->
  exists r, copy_from_user m token src size = Ret r /\
  (range_ok m token src size false -> r = Ok (load m <$> phys_range m token src size)) /\
  (~ range_ok m token src size false -> r = Err InvalidAddress).
Proof.
  intros Hd Hs. destruct (copy_from_user_spec m token src size Hd Hs) as [[Hok E]|[Hok E]];
    eexists; (split; [exact E|]); split; done.
Qed.

(** C24: [try_translated_str] reads exactly the NUL-terminated strings that fit
    in the length limit: what it returns is the string at that address, every
    byte of it and its terminator readable user memory, and when such a
    string is there (at a non-null address, with the limit inside user
    space), it is found.  It never panics, whatever the pointer. *)
Theorem try_translated_str_exact m token ptr max_len :
  in_width 64 ptr -> in_width 64 max_len ->
  exists r, try_translated_str m token ptr max_len = Ret r /\
  (forall s, r = Some s -> user_str m token ptr s /\ Z.of_nat (length s) < max_len) /\
  (forall s, ptr <> 0 -> ptr + max_len <= 2 ^ 38 -> user_str m token ptr s ->
             Z.of_nat (length s) < max_len -> is_Some r).
Proof.
  intros Hp Hl. destruct (try_translated_str_spec m token ptr max_len Hp Hl) as (r & -> & Hr).
  exists r. split; [done|]. split.
  - intros s ->. done.
  - intros s Hp0 Hlim Hs Hlen. destruct r as [s'|]; [by eexists|].
    destruct Hr as [|[|Hr]]; [done|lia|]. specialize (Hr s Hs). lia.
Qed.

(** ** A concrete address space

    A three-level table at frame [0x80500] that maps the user pages [0x10]
    (read/write) and [0x11] (read only). *)
Definition ex_token : Z := Z.lor (Z.shiftl 8 60) 0x80500.
Definition ex_mem : PhysMem :=
  let m := store_u64 ∅ (pte_slot 0x80500 0) (pte_new 0x80501 PTE_V) in
  let m := store_u64 m (pte_slot 0x80501 0) (pte_new 0x80502 PTE_V) in
  let m := store_u64 m (pte_slot 0x80502 0x10) (pte_new 0x80503 0x17) in
  let m := store_u64 m (pte_slot 0x80502 0x11) (pte_new 0x80504 0x13) in
  store_bytes m 0x80503ffe [104; 105; 0].

Lemma copy_to_user_exact_witness :
  (exists m', copy_to_user ex_mem ex_token 0x10ffc [1; 2] = Ret (m', Ok tt)) /\
  copy_to_user ex_mem ex_token 0x10ffe [1; 2; 3; 4] = Ret (ex_mem, Err InvalidAddress) /\
  exists m' r, copy_to_user ex_mem ex_token 0x10ffc [1; 2] = Ret (m', r) /\
    (forall x, x ∉ phys_range ex_mem ex_token 0x10ffc 2 -> load m' x = load ex_mem x).
Proof.
  split; [eexists; vm_compute; reflexivity|]. split; [vm_compute; reflexivity|].
  destruct (copy_to_user_exact ex_mem ex_token 0x10ffc [1; 2]) as (m' & r & E & _ & _ & H & _).
  - vm_compute. split; congruence.
  - vm_compute. split; congruence.
  - exists m', r. split; [exact E|exact H].
Defined.

Lemma copy_from_user_exact_witness :
  copy_from_user ex_mem ex_token 0x10ffe 4 = Ret (Ok [104; 105; 0; 0]) /\
  exists r, copy_from_user ex_mem ex_token 0x11fff 2 = Ret r /\
    (~ range_ok ex_mem ex_token 0x11fff 2 false -> r = Err InvalidAddress).
Proof.
  split; [vm_compute; reflexivity|].
  destruct (copy_from_user_exact ex_mem ex_token 0x11fff 2) as (r & E & _ & H).
  - vm_compute. split; congruence.
  - vm_compute. split; congruence.
  - exists r. split; [exact E|exact H].
Defined.

Lemma try_translated_str_exact_witness :
  try_translated_str ex_mem ex_token 0x10ffe 16 = Ret (Some [104; 105]) /\
  user_str ex_mem ex_token 0x10ffe [104; 105].
Proof.
  assert (E : try_translated_str ex_mem ex_token 0x10ffe 16 = Ret (Some [104; 105]))
    by (vm_compute; reflexivity).
  split; [exact E|].
  destruct (try_translated_str_exact ex_mem ex_token 0x10ffe 16) as (r & E' & H & _).
  - vm_compute. split; congruence.
  - vm_compute. split; congruence.
  - rewrite E in E'. injection E' as <-. apply (H [104; 105] eq_refl).
Defined.
