(* ===== verification/Pipe.v ===== *)
(** * Pipes

    Models [os/src/fs/pipe.rs].  A pipe's [Arc<UPSafeCell<PipeRingBuffer>>] is
    a key into a heap of ring buffers (the pipe identifier, unique per pipe);
    the rest of the kernel is reached through the interface [PipeHost].  A
    call that suspends the current task takes the effects of what the other
    tasks do meanwhile from a list, one per suspension; a call still waiting
    when the list ends returns [None]. *)
From S2P Require Import Prelude IpcApi Address Allocators PageTable UserAccess UserAccessFacts.
Import Mem UserAccess.

Module Pipe.

Definition RING_BUFFER_SIZE : Z := 32.

Inductive RingBufferStatus : Type := Full | Empty | Normal.

#[export] Instance RingBufferStatus_eq_dec : EqDecision RingBufferStatus.
Proof. solve_decision. Defined.

Record PipeRingBuffer : Type := mkRing {
  arr : list Z;
  head : Z;
  tail : Z;
  status : RingBufferStatus;
  write_end : option Z;        (** the [Weak<Pipe>]: key of the write end *)
}.

#[export] Instance PipeRingBuffer_eq_dec : EqDecision PipeRingBuffer.
Proof. solve_decision. Defined.

Definition ring_new : PipeRingBuffer :=
  {| arr := replicate (Z.to_nat RING_BUFFER_SIZE) 0; head := 0; tail := 0;
     status := Empty; write_end := None |}.

Definition set_write_end (self : PipeRingBuffer) (w : Z) : PipeRingBuffer :=
  {| arr := arr self; head := head self; tail := tail self; status := status self;
     write_end := Some w |}.

Definition write_byte (self : PipeRingBuffer) (byte : Z) : outcome PipeRingBuffer :=
  arr' ← update (arr self) (tail self) byte;
  let tail' := (tail self + 1) mod RING_BUFFER_SIZE in
  Ret {| arr := arr'; head := head self; tail := tail';
         status := if tail' =? head self then Full else Normal;
         write_end := write_end self |}.

Definition read_byte (self : PipeRingBuffer) : outcome (Z * PipeRingBuffer) :=
  c ← index (arr self) (head self);
  let head' := (head self + 1) mod RING_BUFFER_SIZE in
  Ret (c, {| arr := arr self; head := head'; tail := tail self;
             status := if head' =? tail self then Empty else Normal;
             write_end := write_end self |}).

Definition available_read (self : PipeRingBuffer) : Z :=
  if bool_decide (status self = Empty) then 0
  else if head self <? tail self then tail self - head self
  else tail self + RING_BUFFER_SIZE - head self.

Definition available_write (self : PipeRingBuffer) : Z :=
  if bool_decide (status self = Full) then 0
  else RING_BUFFER_SIZE - available_read self.

(** [Weak::upgrade] fails exactly when no strong reference is left. *)
Definition all_write_ends_closed (alive : Z -> bool) (self : PipeRingBuffer) : outcome bool :=
  w ← unwrap (write_end self); Ret (negb (alive w)).

(** [NEXT_PIPE_ID] is the argument and the first component of the result. *)
Definition allocate_pipe_id (next : Z) : Z * IpcResult Z :=
  let id := next in
  match checked_add 64 id 1 with
  | None => (next, Err ResourceExhausted)
  | Some n => (n, Ok id)
  end.

(** A [Pipe]: one end. *)
Record Pipe : Type := mkPipe {
  p_readable : bool;
  p_writable : bool;
  p_buffer : Z;
  p_object : IpcObject;
}.

#[export] Instance Pipe_eq_dec : EqDecision Pipe.
Proof. solve_decision. Defined.

Definition read_end_with_buffer (buffer : Z) (object : IpcObject) : Pipe :=
  {| p_readable := true; p_writable := false; p_buffer := buffer; p_object := object |}.
Definition write_end_with_buffer (buffer : Z) (object : IpcObject) : Pipe :=
  {| p_readable := false; p_writable := true; p_buffer := buffer; p_object := object |}.

(** What the pipe code needs from the kernel around it. *)
Class PipeHost (K : Type) : Type := {
  host_ring : K -> Z -> option PipeRingBuffer;
  host_set_ring : K -> Z -> PipeRingBuffer -> K;
  host_mem : K -> PhysMem;
  host_set_mem : K -> PhysMem -> K;
  host_alive : K -> Z -> bool;               (** a write end has strong references *)
  host_suspend : K -> (K -> K) -> outcome K; (** [suspend_current_and_run_next] *)
}.

Section PipeIo.
Context {K : Type} {H : PipeHost K}.

(** The inner [for] loop of [read]: at most [n] bytes go out of the ring; the
    last component is the value [read] returns, if it returns here. *)
Fixpoint read_chunk (n : nat) (want : Z) (ring : PipeRingBuffer) (m : PhysMem)
    (it : UserBufferIterator) (already : Z)
    : outcome (PipeRingBuffer * PhysMem * UserBufferIterator * Z * option Z) :=
  match n with
  | O => Ret (ring, m, it, already, None)
  | S n' =>
      '(next, it') ← iter_next it;
      match next with
      | Some byte_ref =>
          '(c, ring') ← read_byte ring;
          let m' := store m byte_ref c in
          let already' := already + 1 in
          if already' =? want then Ret (ring', m', it', already', Some want)
          else read_chunk n' want ring' m' it' already'
      | None => Ret (ring, m, it', already, Some already)
      end
  end.

Record IoState : Type := mkIo {
  io_k : K;
  io_it : UserBufferIterator;
  io_already : Z;
  io_env : list (K -> K);
}.

(** The suspended branch shared by both loops. *)
Definition suspend_step (s : IoState) : outcome (IoState + K * option Z) :=
  match io_env s with
  | [] => Ret (inr (io_k s, None))
  | f :: env' =>
      k' ← host_suspend (io_k s) f;
      Ret (inl {| io_k := k'; io_it := io_it s; io_already := io_already s; io_env := env' |})
  end.

Definition read_body (self : Pipe) (want : Z) (s : IoState) : outcome (IoState + K * option Z) :=
  let k := io_k s in
  ring ← unwrap (host_ring k (p_buffer self));
  let loop_read := available_read ring in
  if loop_read =? 0 then
    closed ← all_write_ends_closed (host_alive k) ring;
    if closed : bool then Ret (inr (k, Some (io_already s)))
    else suspend_step s
  else
    '(ring', m', it', already', done) ←
      read_chunk (Z.to_nat loop_read) want ring (host_mem k) (io_it s) (io_already s);
    let k' := host_set_ring (host_set_mem k m') (p_buffer self) ring' in
    match done with
    | Some r => Ret (inr (k', Some r))
    | None => Ret (inl {| io_k := k'; io_it := it'; io_already := already'; io_env := io_env s |})
    end.

(** Every round of the loop either returns, suspends, or empties (fills) the
    ring so that the next one returns or suspends. *)
Definition io_fuel (env : list (K -> K)) : nat := (2 * length env + 3)%nat.

Definition pipe_read (self : Pipe) (k : K) (buf : list slice) (env : list (K -> K))
    : outcome (K * option Z) :=
  _ ← assert_ (p_readable self);
  let want_to_read := ub_len buf in
  while_loop (io_fuel env) (read_body self want_to_read)
    {| io_k := k; io_it := into_iter buf; io_already := 0; io_env := env |}.

Fixpoint write_chunk (n : nat) (want : Z) (ring : PipeRingBuffer) (m : PhysMem)
    (it : UserBufferIterator) (already : Z)
    : outcome (PipeRingBuffer * UserBufferIterator * Z * option Z) :=
  match n with
  | O => Ret (ring, it, already, None)
  | S n' =>
      '(next, it') ← iter_next it;
      match next with
      | Some byte_ref =>
          ring' ← write_byte ring (load m byte_ref);
          let already' := already + 1 in
          if already' =? want then Ret (ring', it', already', Some want)
          else write_chunk n' want ring' m it' already'
      | None => Ret (ring, it', already, Some already)
      end
  end.

Definition write_body (self : Pipe) (want : Z) (s : IoState) : outcome (IoState + K * option Z) :=
  let k := io_k s in
  ring ← unwrap (host_ring k (p_buffer self));
  let loop_write := available_write ring in
  if loop_write =? 0 then suspend_step s
  else
    '(ring', it', already', done) ←
      write_chunk (Z.to_nat loop_write) want ring (host_mem k) (io_it s) (io_already s);
    let k' := host_set_ring k (p_buffer self) ring' in
    match done with
    | Some r => Ret (inr (k', Some r))
    | None => Ret (inl {| io_k := k'; io_it := it'; io_already := already'; io_env := io_env s |})
    end.

Definition pipe_write (self : Pipe) (k : K) (buf : list slice) (env : list (K -> K))
    : outcome (K * option Z) :=
  _ ← assert_ (p_writable self);
  let want_to_write := ub_len buf in
  while_loop (io_fuel env) (write_body self want_to_write)
    {| io_k := k; io_it := into_iter buf; io_already := 0; io_env := env |}.

End PipeIo.
Arguments IoState : clear implicits.

Class PipeHostLaws (K : Type) {H : PipeHost K} : Prop := {
  host_ring_set : forall k b r b',
    host_ring (host_set_ring k b r) b' = if decide (b' = b) then Some r else host_ring k b';
  host_ring_set_mem : forall k m b, host_ring (host_set_mem k m) b = host_ring k b;
  host_mem_set : forall k m, host_mem (host_set_mem k m) = m;
  host_mem_set_ring : forall k b r, host_mem (host_set_ring k b r) = host_mem k;
  host_alive_set_ring : forall k b r w, host_alive (host_set_ring k b r) w = host_alive k w;
  host_alive_set_mem : forall k m w, host_alive (host_set_mem k m) w = host_alive k w;
}.

(** ** Abstract view: a ring is a queue *)

(** The bytes in the ring, oldest first. *)
Definition contents (r : PipeRingBuffer) : list Z :=
  (fun i => default 0 (arr r !! Z.to_nat ((head r + i) mod RING_BUFFER_SIZE)))
    <$> seqZ 0 (available_read r).

Definition ring_wf (r : PipeRingBuffer) : Prop :=
  length (arr r) = 32%nat /\ 0 <= head r < 32 /\ 0 <= tail r < 32 /\
  (status r <> Normal -> head r = tail r) /\ (status r = Normal -> head r <> tail r).

#[export] Instance ring_wf_dec r : Decision (ring_wf r).
Proof. unfold ring_wf. apply _. Defined.

End Pipe.
