(* ===== verification/PipeFacts.v ===== *)
(** * Correctness of pipes *)
From S2P Require Import Prelude IpcApi Address Allocators PageTable UserAccess UserAccessFacts Pipe.
Import Mem UserAccess Pipe.

(** ** The ring buffer is a bounded queue *)

Lemma available_read_range r :
  ring_wf r -> 0 <= available_read r <= 32 /\
  (available_read r = 0 <-> status r = Empty) /\ (available_read r = 32 <-> status r = Full) /\
  tail r = (head r + available_read r) mod 32.
Proof.
  intros (Hl & Hh & Ht & Hs & Hn). unfold available_read, RING_BUFFER_SIZE.
  destruct (status r) eqn:E; [rewrite bool_decide_eq_false_2 by done|rewrite bool_decide_eq_true_2 by done|rewrite bool_decide_eq_false_2 by done].
  - specialize (Hs ltac:(done)). destruct (Z.ltb_spec (head r) (tail r)); [lia|].
    split_and!; [lia|lia|split; [lia|done]|split; [done|lia]|lia_mod].
  - specialize (Hs ltac:(done)). split_and!; [lia|lia|done|split; [lia|done]|lia_mod].
  - specialize (Hn ltac:(done)).
    destruct (Z.ltb_spec (head r) (tail r)); split_and!; try lia; try (split; [lia|done]); lia_mod.
Qed.

Lemma length_contents r : ring_wf r -> Z.of_nat (length (contents r)) = available_read r.
Proof.
  intros Hr. unfold contents. rewrite length_fmap, length_seqZ.
  pose proof (available_read_range r Hr). lia.
Qed.

Lemma available_write_contents r :
  ring_wf r -> available_write r = 32 - Z.of_nat (length (contents r)).
Proof.
  intros Hr. rewrite length_contents by done. unfold available_write, RING_BUFFER_SIZE.
  pose proof (available_read_range r Hr) as (_ & _ & Hf & _). case_bool_decide; [|done].
  destruct Hf as [_ Hf]. rewrite Hf by done. done.
Qed.

Lemma lookup_contents r i :
  ring_wf r -> 0 <= i < available_read r ->
  contents r !! Z.to_nat i = Some (default 0 (arr r !! Z.to_nat ((head r + i) mod 32))).
Proof.
  intros Hr Hi. unfold contents. rewrite list_lookup_fmap, lookup_seqZ_lt by lia. cbn.
  do 4 f_equal. unfold RING_BUFFER_SIZE. f_equal. lia.
Qed.

Lemma write_byte_spec r b :
  ring_wf r -> (length (contents r) < 32)%nat ->
  exists r', write_byte r b = Ret r' /\ ring_wf r' /\ contents r' = contents r ++ [b] /\
             write_end r' = write_end r.
Proof.
  intros Hr Hlen. pose proof (length_contents r Hr) as Hn.
  pose proof (available_read_range r Hr) as (Hav & He & Hf & Htl).
  pose proof Hr as (Hl & Hh & Ht & Hs & Hno).
  unfold write_byte. rewrite update_Ret by (rewrite Hl; lia). cbn [mbind outcome_bind].
  eexists; split; [done|]. set (r' := mkRing _ _ _ _ _).
  assert (Hr' : ring_wf r').
  { unfold ring_wf, r', RING_BUFFER_SIZE; cbn [arr head tail status].
    destruct (Z.eqb_spec ((tail r + 1) mod 32) (head r)) as [E|E].
    - rewrite length_insert. split_and!; try lia_mod; done.
    - rewrite length_insert. split_and!; try lia_mod; try done. }
  assert (Hav' : available_read r' = available_read r + 1).
  { pose proof (available_read_range r' Hr') as (Hb & He' & Hf' & Htl').
    revert Hb He' Hf' Htl'. generalize (available_read r') as n'. intros n'.
    unfold r', RING_BUFFER_SIZE; cbn [arr head tail status].
    destruct (Z.eqb_spec ((tail r + 1) mod 32) (head r)) as [E|E]; intros Hb He' Hf' Htl'.
    - assert (n' = 32) as -> by (by apply Hf'). lia_mod.
    - assert (n' <> 0) by (intros ->; destruct He' as [He' _]; specialize (He' eq_refl); done).
      assert (n' <> 32) by (intros ->; destruct Hf' as [Hf' _]; specialize (Hf' eq_refl); done).
      lia_mod. }
  split_and!; [done| |done].
  apply list_eq_same_length with (S (length (contents r)));
    [rewrite length_app; cbn; lia|pose proof (length_contents r' Hr'); lia|].
  intros i x y Hi. pose proof (lookup_contents r' (Z.of_nat i) Hr') as Hx.
  rewrite Nat2Z.id in Hx. rewrite Hx by lia. clear Hx. intros Hx Hy. injection Hx as <-.
  unfold r'; cbn [arr head].
  destruct (decide (i = length (contents r))) as [->|Hne].
  - rewrite list_lookup_middle in Hy by done. injection Hy as <-.
    rewrite Hn, <- Htl. rewrite list_lookup_insert_eq by lia. done.
  - rewrite lookup_app_l in Hy by lia.
    pose proof (lookup_contents r (Z.of_nat i) Hr) as Hy'. rewrite Nat2Z.id in Hy'.
    rewrite Hy' in Hy by lia. injection Hy as <-.
    rewrite list_lookup_insert_ne; [done|]. intros E. apply Z2Nat.inj in E; [|lia_mod..].
    rewrite Htl in E. lia_mod.
Qed.

Lemma read_byte_spec r c rest :
  ring_wf r -> contents r = c :: rest ->
  exists r', read_byte r = Ret (c, r') /\ ring_wf r' /\ contents r' = rest /\
             write_end r' = write_end r.
Proof.
  intros Hr Hc. pose proof (length_contents r Hr) as Hn. rewrite Hc in Hn. cbn [length] in Hn.
  pose proof (available_read_range r Hr) as (Hav & He & Hf & Htl).
  pose proof Hr as (Hl & Hh & Ht & Hs & Hno).
  pose proof (lookup_contents r 0 Hr ltac:(lia)) as H0. rewrite Hc in H0. cbn in H0.
  rewrite Z.add_0_r, Z.mod_small in H0 by lia.
  destruct (lookup_lt_is_Some_2 (arr r) (Z.to_nat (head r))) as [c' Hc']; [lia|].
  rewrite Hc' in H0. cbn in H0. injection H0 as <-.
  unfold read_byte. rewrite (index_Ret _ _ c) by done. cbn [mbind outcome_bind].
  eexists; split; [done|]. set (r' := mkRing _ _ _ _ _).
  assert (Hr' : ring_wf r').
  { unfold ring_wf, r', RING_BUFFER_SIZE; cbn [arr head tail status].
    destruct (Z.eqb_spec ((head r + 1) mod 32) (tail r)) as [E|E]; split_and!; try lia_mod; done. }
  assert (Hav' : available_read r' = available_read r - 1).
  { pose proof (available_read_range r' Hr') as (Hb & He' & Hf' & Htl').
    revert Hb He' Hf' Htl'. generalize (available_read r') as n'. intros n'.
    unfold r', RING_BUFFER_SIZE; cbn [arr head tail status].
    destruct (Z.eqb_spec ((head r + 1) mod 32) (tail r)) as [E|E]; intros Hb He' Hf' Htl'.
    - assert (n' = 0) as -> by (by apply He'). lia_mod.
    - assert (n' <> 0) by (intros ->; destruct He' as [He' _]; specialize (He' eq_refl); done).
      assert (n' <> 32) by (intros ->; destruct Hf' as [Hf' _]; specialize (Hf' eq_refl); done).
      lia_mod. }
  split_and!; [done| |done].
  apply list_eq_same_length with (length rest); [done|pose proof (length_contents r' Hr'); lia|].
  intros i x y Hi. pose proof (lookup_contents r' (Z.of_nat i) Hr') as Hx.
  rewrite Nat2Z.id in Hx. rewrite Hx by lia. clear Hx. intros Hx Hy. injection Hx as <-.
  pose proof (lookup_contents r (Z.of_nat (S i)) Hr ltac:(lia)) as Hy'.
  rewrite Nat2Z.id, Hc in Hy'. change ((c :: rest) !! S i) with (rest !! i) in Hy'.
  rewrite Hy in Hy'. injection Hy' as ->.
  unfold r', RING_BUFFER_SIZE; cbn [arr head]. do 3 f_equal. lia_mod.
Qed.

Lemma ring_new_wf w : ring_wf (set_write_end ring_new w) /\ contents (set_write_end ring_new w) = [].
Proof. split; [|done]. unfold ring_wf; cbn. split_and!; try lia; done. Qed.

(** ** The inner loops *)

Lemma store_list_snoc_step m a c addrs bs :
  store_list m (a :: addrs) (c :: bs) = store_list (store m a c) addrs bs.
Proof. done. Qed.

Lemma read_chunk_spec n : forall want ring m it already,
  ring_wf ring -> iter_wf it -> (n <= length (contents ring))%nat -> iter_rest it <> [] ->
  want = already + Z.of_nat (length (iter_rest it)) ->
  let rest := iter_rest it in
  let j := Nat.min n (length rest) in
  exists ring' it',
    read_chunk n want ring m it already
    = Ret (ring', store_list m (take j rest) (take j (contents ring)), it', already + Z.of_nat j,
           if decide (j = length rest) then Some want else None) /\
    ring_wf ring' /\ contents ring' = drop j (contents ring) /\ write_end ring' = write_end ring /\
    iter_wf it' /\ iter_rest it' = drop j rest.
Proof.
  induction n as [|n IH]; intros want ring m it already Hr Hi Hn Hne Hw rest j.
  - exists ring, it. subst j. cbn [Nat.min take store_list read_chunk drop].
    rewrite decide_False by (subst rest; destruct (iter_rest it); done).
    rewrite Z.add_0_r. done.
  - pose proof (iter_next_spec it Hi) as Hnx. subst rest j.
    destruct (iter_rest it) as [|a rest] eqn:Ea; [done|]. destruct Hnx as (it1 & Hnx & Hi1 & Hr1).
    destruct (contents ring) as [|c cs] eqn:Ec; [cbn in Hn; lia|].
    destruct (read_byte_spec ring c cs Hr Ec) as (ring1 & Hrb & Hr1wf & Hc1 & Hwe1).
    cbn [read_chunk]. rewrite Hnx. cbn [mbind outcome_bind]. rewrite Hrb. cbn [mbind outcome_bind].
    cbn [length] in *. destruct (Z.eqb_spec (already + 1) want) as [E|E].
    + assert (rest = []) as -> by (destruct rest; [done|cbn in *; lia]).
      exists ring1, it1. rewrite Nat.min_r by (cbn; lia). cbn [length take store_list drop].
      rewrite decide_True by done. change (Z.of_nat 1) with 1. change (Z.of_nat 1) with 1. rewrite ?take_0, ?drop_0, E. by split_and!.
    + assert (rest <> []) by (intros ->; cbn in *; lia).
      destruct (IH want ring1 (store m a c) it1 (already + 1)) as (ring2 & it2 & E2 & Hwf2 & Hc2 & Hwe2 & Hi2 & Hr2);
        [done|done|rewrite Hc1; cbn in Hn; lia|by rewrite Hr1|rewrite Hr1; lia|].
      rewrite Hr1, Hc1 in *. exists ring2, it2.
      rewrite <- Nat.succ_min_distr. cbn [take store_list drop]. rewrite E2.
      split; [|by rewrite Hwe2]. do 2 f_equal; [f_equal; lia|].
      destruct (decide (n `min` length rest = length rest)%nat); [rewrite decide_True by lia|rewrite decide_False by lia]; done.
Qed.

Lemma write_chunk_spec n : forall want ring m it already,
  ring_wf ring -> iter_wf it -> (n + length (contents ring) <= 32)%nat -> iter_rest it <> [] ->
  want = already + Z.of_nat (length (iter_rest it)) ->
  let rest := iter_rest it in
  let j := Nat.min n (length rest) in
  exists ring' it',
    write_chunk n want ring m it already
    = Ret (ring', it', already + Z.of_nat j,
           if decide (j = length rest) then Some want else None) /\
    ring_wf ring' /\ contents ring' = contents ring ++ (load m <$> take j rest) /\
    write_end ring' = write_end ring /\ iter_wf it' /\ iter_rest it' = drop j rest.
Proof.
  induction n as [|n IH]; intros want ring m it already Hr Hi Hn Hne Hw rest j.
  - exists ring, it. subst j. cbn [Nat.min take write_chunk drop fmap list_fmap].
    rewrite decide_False by (subst rest; destruct (iter_rest it); done).
    rewrite Z.add_0_r, app_nil_r. done.
  - pose proof (iter_next_spec it Hi) as Hnx. subst rest j.
    destruct (iter_rest it) as [|a rest] eqn:Ea; [done|]. destruct Hnx as (it1 & Hnx & Hi1 & Hr1).
    destruct (write_byte_spec ring (load m a) Hr) as (ring1 & Hrb & Hr1wf & Hc1 & Hwe1); [lia|].
    cbn [write_chunk]. rewrite Hnx. cbn [mbind outcome_bind]. rewrite Hrb. cbn [mbind outcome_bind].
    cbn [length] in *. destruct (Z.eqb_spec (already + 1) want) as [E|E].
    + assert (rest = []) as -> by (destruct rest; [done|cbn in *; lia]).
      exists ring1, it1. rewrite Nat.min_r by (cbn; lia). cbn [length take drop fmap list_fmap].
      rewrite decide_True by done. change (Z.of_nat 1) with 1. rewrite ?take_0, ?drop_0, E. by split_and!.
    + assert (rest <> []) by (intros ->; cbn in *; lia).
      destruct (IH want ring1 m it1 (already + 1)) as (ring2 & it2 & E2 & Hwf2 & Hc2 & Hwe2 & Hi2 & Hr2);
        [done|done|rewrite Hc1, length_app; cbn; lia|by rewrite Hr1|rewrite Hr1; lia|].
      rewrite Hr1, Hc1 in *. exists ring2, it2.
      rewrite <- Nat.succ_min_distr. cbn [take drop]. rewrite E2.
      split; [|rewrite Hwe2, Hc2, <- app_assoc; done]. do 2 f_equal; [f_equal; lia|].
      destruct (decide (n `min` length rest = length rest)%nat); [rewrite decide_True by lia|rewrite decide_False by lia]; done.
Qed.

(** ** The outer loops, with the other tasks running in between *)

Section Loops.
Context {K : Type} {H : PipeHost K} {L : @PipeHostLaws K H}.

(** A property of the rest of the kernel that the pipe code relies on for
    suspending, and that its own updates keep. *)
Variable Inv : K -> Prop.
Hypothesis Inv_set_ring : forall k b r, Inv k -> Inv (host_set_ring k b r).
Hypothesis Inv_set_mem : forall k m, Inv k -> Inv (host_set_mem k m).

Definition ring_at (k : K) (b : Z) (r : PipeRingBuffer) : Prop :=
  host_ring k b = Some r /\ ring_wf r /\ write_end r = Some b.

(** While a reader waits on the empty pipe [b], the others write [ws] to it and
    leave the reader's buffer alone. *)
Definition env_appends (b : Z) (addrs : list Z) (f : K -> K) (ws : list Z) : Prop :=
  forall k r, Inv k -> ring_at k b r -> contents r = [] ->
  exists k' r', host_suspend k f = Ret k' /\ Inv k' /\ ring_at k' b r' /\ contents r' = ws /\
    forall a, a ∈ addrs -> load (host_mem k') a = load (host_mem k) a.

(** While a writer waits on a full pipe, the others read [n] bytes from it. *)
Definition env_drains (b : Z) (addrs : list Z) (f : K -> K) (n : nat) : Prop :=
  (n <= 32)%nat /\ forall k r, Inv k -> ring_at k b r -> length (contents r) = 32%nat ->
  exists k' r', host_suspend k f = Ret k' /\ Inv k' /\ ring_at k' b r' /\
    contents r' = drop n (contents r) /\
    forall a, a ∈ addrs -> load (host_mem k') a = load (host_mem k) a.

(** The state of a reader that has delivered the first [n] bytes of [stream]. *)
Definition delivered (k : K) (b : Z) (addrs stream : list Z) (n : nat) : Prop :=
  exists r, ring_at k b r /\ contents r = drop n stream /\ (n <= length stream)%nat /\
  (load (host_mem k) <$> take n addrs) = take n stream.

Definition read_inv (b : Z) (addrs s0 : list Z) (env : list (K -> K)) (wss : list (list Z))
    (s : IoState K) : Prop :=
  exists j n, io_env s = drop j env /\ (j <= length env)%nat /\ Inv (io_k s) /\
    io_already s = Z.of_nat n /\ (n < length addrs)%nat /\
    iter_wf (io_it s) /\ iter_rest (io_it s) = drop n addrs /\
    delivered (io_k s) b addrs (s0 ++ concat (take j wss)) n.

(** What the caller of [read] gets. *)
Definition read_post (b : Z) (addrs s0 : list Z) (wss : list (list Z)) (x : K * option Z) : Prop :=
  exists j n, (j <= length wss)%nat /\ Inv x.1 /\
    delivered x.1 b addrs (s0 ++ concat (take j wss)) n /\
    (x.2 = Some (Z.of_nat n) /\
       (n = length addrs \/ host_alive x.1 b = false /\ length (s0 ++ concat (take j wss)) = n)
     \/ x.2 = None /\ j = length wss /\ length (s0 ++ concat wss) = n /\ (n < length addrs)%nat).

Lemma delivered_ext k k' b addrs stream n r :
  delivered k b addrs stream n -> ring_at k b r -> contents r = [] ->
  forall r' ws, ring_at k' b r' -> contents r' = ws ->
  (forall a, a ∈ addrs -> load (host_mem k') a = load (host_mem k) a) ->
  n = length stream /\ delivered k' b addrs (stream ++ ws) n.
Proof.
  intros (r0 & Hr0 & Hc & Hn & Hd) Hr He r' ws Hr' Hws Hm.
  assert (r0 = r) as -> by (destruct Hr0 as (E & _), Hr as (E' & _); congruence).
  assert (Hlen : n = length stream).
  { rewrite He in Hc. assert (length (drop n stream) = O) by (by rewrite <- Hc).
    rewrite length_drop in *. lia. }
  split; [done|]. exists r'. split_and!; [done| | |].
  - by rewrite Hlen, drop_app_length.
  - rewrite length_app. lia.
  - rewrite Hlen, take_app_length. rewrite Hlen, firstn_all in Hd.
    etrans; [|exact Hd].
    apply list_fmap_ext. intros i a Hi. apply Hm. eapply list_elem_of_lookup_2.
    by rewrite lookup_take_Some in Hi; destruct Hi.
Qed.

(** Moving [j] more bytes from the ring to the buffer. *)
Lemma delivered_chunk k b addrs stream n r j m' r' k' :
  NoDup addrs -> ring_at k b r -> contents r = drop n stream -> (n <= length stream)%nat ->
  (load (host_mem k) <$> take n addrs) = take n stream ->
  (j <= length (contents r))%nat -> (n + j <= length addrs)%nat ->
  m' = store_list (host_mem k) (take j (drop n addrs)) (take j (contents r)) ->
  ring_wf r' -> contents r' = drop j (contents r) -> write_end r' = write_end r ->
  k' = host_set_ring (host_set_mem k m') b r' ->
  delivered k' b addrs stream (n + j).
Proof.
  intros Hnd (Hr & Hwf & Hwe) Hc Hn Hd Hj Hnj -> Hwf' Hc' Hwe' ->.
  assert (Hlc : length (contents r) = (length stream - n)%nat) by (by rewrite Hc, length_drop).
  exists r'. split_and!.
  - split_and!; [|done|congruence]. rewrite host_ring_set. by rewrite decide_True.
  - by rewrite Hc', Hc, drop_drop.
  - lia.
  - rewrite host_mem_set_ring, host_mem_set.
    rewrite <- (take_drop n (take (n + j) addrs)).
    rewrite take_take, Nat.min_l, skipn_firstn_comm by lia.
    replace (n + j - n)%nat with j by lia.
    rewrite fmap_app. rewrite load_store_list; cycle 1.
    + eapply sublist_NoDup; [exact Hnd|]. etrans; [apply sublist_take|apply sublist_drop].
    + rewrite !length_take, length_drop. lia.
    + rewrite Hc, <- take_take_drop. f_equal.
      rewrite <- Hd. apply list_fmap_ext. intros i a Hi. apply store_list_other.
      intros Ha%list_elem_of_lookup. destruct Ha as [i' Hi'].
      apply lookup_take_Some in Hi as [Hi ?]. apply lookup_take_Some in Hi' as [Hi' ?].
      rewrite lookup_drop in Hi'. assert (i = n + i')%nat by (by eapply NoDup_lookup). lia.
Qed.

Definition io_measure (busy : PipeRingBuffer -> bool) (b : Z) (s : IoState K) : nat :=
  (2 * length (io_env s) +
   match host_ring (io_k s) b with Some r => if busy r then 1 else 0 | None => 0 end)%nat.

Definition has_data (r : PipeRingBuffer) : bool := negb (available_read r =? 0).
Definition has_room (r : PipeRingBuffer) : bool := negb (available_write r =? 0).

Lemma io_measure_suspend busy b s s' f env' :
  io_env s = f :: env' -> io_env s' = env' ->
  (io_measure busy b s' < io_measure busy b s)%nat.
Proof.
  intros E E'. unfold io_measure. rewrite E, E'. cbn [length].
  repeat case_match; lia.
Qed.

Lemma drop_cons_inv {A} (l : list A) j x l' :
  drop j l = x :: l' -> l !! j = Some x /\ l' = drop (S j) l.
Proof.
  intros E. assert (l !! j = Some x) as Hx.
  { rewrite <- (Nat.add_0_r j), <- lookup_drop, E. done. }
  split; [done|]. rewrite (drop_S l x) in E by done. congruence.
Qed.

Lemma concat_take_S {A} (wss : list (list A)) j ws (s0 : list A) :
  wss !! j = Some ws -> s0 ++ concat (take (S j) wss) = (s0 ++ concat (take j wss)) ++ ws.
Proof.
  intros E. rewrite (take_S_r _ _ ws) by done. rewrite concat_app. cbn.
  by rewrite app_nil_r, app_assoc.
Qed.

Lemma contents_nil_iff r : ring_wf r -> (available_read r = 0 <-> contents r = []).
Proof.
  intros Hr. rewrite <- (length_contents r Hr). destruct (contents r); cbn; split; done || lia.
Qed.

Lemma read_step p buf env wss s0 s :
  let b := p_buffer p in let addrs := buffer_addrs buf in
  NoDup addrs -> Forall2 (env_appends b addrs) env wss ->
  read_inv b addrs s0 env wss s ->
  exists x, read_body p (Z.of_nat (length addrs)) s = Ret x /\
  match x with
  | inl s' => read_inv b addrs s0 env wss s' /\
              (io_measure has_data b s' < io_measure has_data b s)%nat
  | inr r => read_post b addrs s0 wss r
  end.
Proof.
  intros b addrs Hnd Henv (j & n & He & Hj & Hi & Ha & Hn & Hit & Hrest & Hdel).
  pose proof (Forall2_length _ _ _ Henv) as Hlen.
  pose proof Hdel as (r & Hat & Hc & Hnl & Hd). pose proof Hat as (Hr & Hwf & Hwe).
  unfold read_body. fold b. rewrite Hr. cbn [unwrap mbind outcome_bind].
  destruct (Z.eqb_spec (available_read r) 0) as [Hz|Hz].
  - assert (Hnil : contents r = []) by (by apply contents_nil_iff).
    unfold all_write_ends_closed. rewrite Hwe. cbn [unwrap mbind outcome_bind].
    destruct (host_alive (io_k s) b) eqn:Eal; cbn [negb].
    + unfold suspend_step. destruct (io_env s) as [|f env'] eqn:Ee.
      * eexists; split; [done|]. exists j, n. cbn [fst snd].
        assert (j = length env) by (symmetry in He; apply (f_equal length) in He;
          rewrite length_drop in He; cbn in He; lia).
        assert (Hdl : length (drop n (s0 ++ concat (take j wss))) = O) by (by rewrite <- Hc, Hnil).
        rewrite length_drop in Hdl. split_and!; [lia|done|done|]. right.
        rewrite firstn_all2 in Hdl, Hnl by lia. split_and!; [done|lia|lia|done].
      * symmetry in He. apply drop_cons_inv in He as [Hf ->].
        destruct (Forall2_lookup_l _ _ _ _ _ Henv Hf) as (ws & Hws & Hap).
        destruct (Hap (io_k s) r Hi Hat Hnil) as (k' & r' & Hs & Hi' & Hat' & Hc' & Hm).
        rewrite Hs. cbn [mbind outcome_bind]. eexists; split; [done|].
        destruct (delivered_ext _ k' _ _ _ _ r Hdel Hat Hnil r' ws Hat' Hc' Hm) as [Hns Hdel'].
        split; [|by eapply io_measure_suspend].
        exists (S j), n. cbn. rewrite (concat_take_S _ _ ws) by done.
        apply lookup_lt_Some in Hf. by split_and!.
    + eexists; split; [done|]. exists j, n. cbn [fst snd]. split_and!; [lia|done|done|].
      left. rewrite Ha. split; [done|]. right. split; [done|].
      assert (Hdl : length (drop n (s0 ++ concat (take j wss))) = O) by (by rewrite <- Hc, Hnil).
      rewrite length_drop in Hdl. lia.
  - assert (Hlc : Z.to_nat (available_read r) = length (contents r))
      by (pose proof (length_contents r Hwf); lia).
    rewrite Hlc.
    destruct (read_chunk_spec (length (contents r)) (Z.of_nat (length addrs)) r (host_mem (io_k s))
                (io_it s) (io_already s)) as (r' & it' & -> & Hwf' & Hc' & Hwe' & Hit' & Hrest');
      [done|done|done| | |].
    { rewrite Hrest. intros E%(f_equal length). rewrite length_drop in E. cbn in E. lia. }
    { rewrite Hrest, length_drop. lia. }
    cbn [mbind outcome_bind]. rewrite Hrest in *. rewrite length_drop in *.
    set (jj := (length (contents r) `min` (length addrs - n))%nat) in *.
    assert (Hdel' := delivered_chunk (io_k s) b addrs _ n r jj _ r' _ Hnd Hat Hc Hnl Hd
                       ltac:(lia) ltac:(lia) eq_refl Hwf' Hc' Hwe' eq_refl).
    destruct (decide (jj = (length addrs - n)%nat)) as [E|E]; (eexists; split; [done|]).
    + exists j, (n + jj)%nat. cbn [fst snd]. split_and!; [lia|by auto|done|].
      left. split; [do 2 f_equal; lia|left; lia].
    + split.
      * exists j, (n + jj)%nat. cbn. split_and!; [done|done|by auto|lia|lia|done| |done].
        by rewrite drop_drop in Hrest'.
      * unfold io_measure; cbn [io_env io_k]. rewrite host_ring_set, decide_True by done.
        rewrite Hr. unfold has_data. assert (available_read r' = 0) as ->.
        { apply contents_nil_iff; [done|]. rewrite Hc'. apply drop_ge. lia. }
        cbn. destruct (Z.eqb_spec (available_read r) 0); [done|]. cbn. lia.
Qed.

(** The state of a writer that has put the first [n] bytes of [data] behind
    [c0], of which the readers have taken [d]. *)
Definition queued (k : K) (b : Z) (addrs c0 data : list Z) (d n : nat) : Prop :=
  exists r, ring_at k b r /\ contents r = drop d (c0 ++ take n data) /\
  (d <= length c0 + n)%nat /\ (load (host_mem k) <$> addrs) = data.

Definition write_inv (b : Z) (addrs c0 data : list Z) (env : list (K -> K)) (ds : list nat)
    (s : IoState K) : Prop :=
  exists j n, io_env s = drop j env /\ (j <= length env)%nat /\ Inv (io_k s) /\
    io_already s = Z.of_nat n /\ (n < length addrs)%nat /\
    iter_wf (io_it s) /\ iter_rest (io_it s) = drop n addrs /\
    queued (io_k s) b addrs c0 data (sum_list (take j ds)) n.

(** What the caller of [write] gets. *)
Definition write_post (b : Z) (addrs c0 data : list Z) (ds : list nat) (x : K * option Z) : Prop :=
  exists j n, (j <= length ds)%nat /\ Inv x.1 /\
    queued x.1 b addrs c0 data (sum_list (take j ds)) n /\
    (x.2 = Some (Z.of_nat n) /\ n = length addrs
     \/ x.2 = None /\ j = length ds /\ (n < length addrs)%nat /\
        (length c0 + n = sum_list ds + 32)%nat).

Lemma sum_list_take_S (ds : list nat) j d :
  ds !! j = Some d -> sum_list (take (S j) ds) = (sum_list (take j ds) + d)%nat.
Proof.
  intros E. rewrite (take_S_r _ _ d) by done. rewrite sum_list_with_app. cbn. lia.
Qed.

Lemma has_room_contents r : ring_wf r -> (available_write r = 0 <-> length (contents r) = 32%nat).
Proof. intros Hr. rewrite available_write_contents by done. lia. Qed.

Lemma write_step p buf env ds c0 data s :
  let b := p_buffer p in let addrs := buffer_addrs buf in
  Forall2 (env_drains b addrs) env ds -> write_inv b addrs c0 data env ds s ->
  exists x, write_body p (Z.of_nat (length addrs)) s = Ret x /\
  match x with
  | inl s' => write_inv b addrs c0 data env ds s' /\
              (io_measure has_room b s' < io_measure has_room b s)%nat
  | inr r => write_post b addrs c0 data ds r
  end.
Proof.
  intros b addrs Henv (j & n & He & Hj & Hi & Ha & Hn & Hit & Hrest & Hq).
  pose proof (Forall2_length _ _ _ Henv) as Hlen.
  pose proof Hq as (r & Hat & Hc & Hdl & Hd). pose proof Hat as (Hr & Hwf & Hwe).
  assert (Hdata : length data = length addrs) by (rewrite <- Hd; apply length_fmap).
  assert (Hlc : length (contents r) = (length c0 + n - sum_list (take j ds))%nat).
  { rewrite Hc, length_drop, length_app, length_take. lia. }
  unfold write_body. fold b. rewrite Hr. cbn [unwrap mbind outcome_bind].
  destruct (Z.eqb_spec (available_write r) 0) as [Hz|Hz].
  - assert (Hfull : length (contents r) = 32%nat) by (by apply has_room_contents).
    unfold suspend_step. destruct (io_env s) as [|f env'] eqn:Ee.
    + eexists; split; [done|]. exists j, n. cbn [fst snd].
      assert (j = length env) by (symmetry in He; apply (f_equal length) in He;
        rewrite length_drop in He; cbn in He; lia).
      split_and!; [lia|done|done|]. right. rewrite firstn_all2 in Hlc, Hdl by lia.
      split_and!; [done|lia|done|lia].
    + symmetry in He. apply drop_cons_inv in He as [Hf ->].
      destruct (Forall2_lookup_l _ _ _ _ _ Henv Hf) as (d & Hds & Hd32 & Hap).
      destruct (Hap (io_k s) r Hi Hat Hfull) as (k' & r' & Hs & Hi' & Hat' & Hc' & Hm).
      rewrite Hs. cbn [mbind outcome_bind]. eexists; split; [done|].
      split; [|by eapply io_measure_suspend].
      exists (S j), n. cbn. rewrite (sum_list_take_S _ _ d) by done.
      apply lookup_lt_Some in Hf. split_and!; try done.
      exists r'. split_and!; [done| |lia|].
      * by rewrite Hc', Hc, drop_drop.
      * rewrite <- Hd. apply list_fmap_ext. intros i a Hia. apply Hm. by eapply list_elem_of_lookup_2.
  - assert (Hav : Z.to_nat (available_write r) = (32 - length (contents r))%nat
                  /\ (length (contents r) < 32)%nat).
    { rewrite available_write_contents in * by done.
      pose proof (length_contents r Hwf). pose proof (available_read_range r Hwf). lia. }
    destruct Hav as [-> Hlt].
    destruct (write_chunk_spec (32 - length (contents r)) (Z.of_nat (length addrs)) r (host_mem (io_k s))
                (io_it s) (io_already s)) as (r' & it' & -> & Hwf' & Hc' & Hwe' & Hit' & Hrest');
      [done|done|lia| | |].
    { rewrite Hrest. intros E%(f_equal length). rewrite length_drop in E. cbn in E. lia. }
    { rewrite Hrest, length_drop. lia. }
    cbn [mbind outcome_bind]. rewrite Hrest in *. rewrite length_drop in *.
    set (jj := ((32 - length (contents r)) `min` (length addrs - n))%nat) in *.
    assert (Hq' : queued (host_set_ring (io_k s) b r') b addrs c0 data (sum_list (take j ds)) (n + jj)).
    { exists r'. split_and!; [|  |lia|by rewrite host_mem_set_ring].
      - split_and!; [by rewrite host_ring_set, decide_True|done|congruence].
      - rewrite Hc', Hc, fmap_take, fmap_drop, Hd.
        rewrite <- take_take_drop, app_assoc.
        rewrite (drop_app_le (c0 ++ take n data)); [done|].
        rewrite length_app, length_take. lia. }
    destruct (decide (jj = (length addrs - n)%nat)) as [E|E]; (eexists; split; [done|]).
    + exists j, (n + jj)%nat. cbn [fst snd]. split_and!; [lia|by auto|done|].
      left. split; [do 2 f_equal; lia|lia].
    + split.
      * exists j, (n + jj)%nat. cbn. split_and!; [done|done|by auto|lia|lia|done| |done].
        by rewrite drop_drop in Hrest'.
      * unfold io_measure; cbn [io_env io_k]. rewrite host_ring_set, decide_True by done.
        rewrite Hr. unfold has_room.
        assert (available_write r' = 0) as ->.
        { apply has_room_contents; [done|].
          rewrite Hc', length_app, length_fmap, length_take, length_drop. lia. }
        cbn. destruct (Z.eqb_spec (available_write r) 0); [done|]. cbn. lia.
Qed.

Lemma pipe_read_spec p k buf env wss r0 :
  let b := p_buffer p in let addrs := buffer_addrs buf in
  p_readable p = true -> Inv k -> ring_at k b r0 ->
  nonempty_slices buf -> buf <> [] -> NoDup addrs -> Forall2 (env_appends b addrs) env wss ->
  exists x, pipe_read p k buf env = Ret x /\ read_post b addrs (contents r0) wss x.
Proof.
  intros b addrs Hp Hi Hat Hne Hbuf Hnd Henv. unfold pipe_read. rewrite Hp. cbn [assert_ mbind outcome_bind].
  rewrite ub_len_spec by done. destruct (into_iter_wf buf Hne) as [Hit Hrest].
  apply (while_loop_spec _ (read_inv b addrs (contents r0) env wss) (io_measure has_data b)).
  - intros s Hs. by apply read_step.
  - exists O, O. cbn. split_and!; [done|lia|done|done| |done|by rewrite Hrest|].
    + subst addrs. destruct buf as [|s buf]; [done|]. apply Forall_cons in Hne as [Hs _].
      unfold buffer_addrs. rewrite fmap_cons. cbn [concat]. rewrite length_app.
      pose proof (length_slice_addrs s). lia.
    + exists r0. rewrite app_nil_r, drop_0. split_and!; [done|done|lia|done].
  - unfold io_measure, io_fuel. cbn. repeat case_match; lia.
Qed.

Lemma pipe_write_spec p k buf env ds r0 :
  let b := p_buffer p in let addrs := buffer_addrs buf in
  p_writable p = true -> Inv k -> ring_at k b r0 ->
  nonempty_slices buf -> buf <> [] -> Forall2 (env_drains b addrs) env ds ->
  exists x, pipe_write p k buf env = Ret x /\
            write_post b addrs (contents r0) (load (host_mem k) <$> addrs) ds x.
Proof.
  intros b addrs Hp Hi Hat Hne Hbuf Henv. unfold pipe_write. rewrite Hp. cbn [assert_ mbind outcome_bind].
  rewrite ub_len_spec by done. destruct (into_iter_wf buf Hne) as [Hit Hrest].
  apply (while_loop_spec _ (write_inv b addrs (contents r0) (load (host_mem k) <$> addrs) env ds)
           (io_measure has_room b)).
  - intros s Hs. by apply write_step.
  - exists O, O. cbn. split_and!; [done|lia|done|done| |done|by rewrite Hrest|].
    + subst addrs. destruct buf as [|s buf]; [done|]. apply Forall_cons in Hne as [Hs _].
      unfold buffer_addrs. rewrite fmap_cons. cbn [concat]. rewrite length_app.
      pose proof (length_slice_addrs s). lia.
    + exists r0. rewrite app_nil_r, drop_0. split_and!; [done|done|apply Nat.le_0_l|done].
  - unfold io_measure, io_fuel. cbn. repeat case_match; lia.
Qed.

End Loops.

(** ** Properties *)

Section Claims.
Context {K : Type} {H : PipeHost K} {L : @PipeHostLaws K H}.
Variable Inv : K -> Prop.
Hypothesis Inv_set_ring : forall k b r, Inv k -> Inv (host_set_ring k b r).
Hypothesis Inv_set_mem : forall k m, Inv k -> Inv (host_set_mem k m).

(** C16: reading from a pipe, however often the reader is suspended and
    whatever the writers append meanwhile ([wss], one list per suspension),
    returns without panic or endless loop.  With [stream] the bytes that were
    in the pipe followed by those appended so far, the reader's buffer holds
    the first [n] bytes of the stream in order and the pipe the rest; [n] is
    the whole buffer, or everything there was when the last write end was
    closed; and a reader is still waiting only if all that was written does
    not fill its buffer. *)
Theorem pipe_read_delivers_stream p k buf env wss r0 :
  let b := p_buffer p in let addrs := buffer_addrs buf in
  p_readable p = true -> Inv k -> ring_at k b r0 ->
  nonempty_slices buf -> buf <> [] -> NoDup addrs -> Forall2 (env_appends Inv b addrs) env wss ->
  exists k' out j n r', pipe_read p k buf env = Ret (k', out) /\
    let stream := contents r0 ++ concat (take j wss) in
    ring_at k' b r' /\ contents r' = drop n stream /\
    (load (host_mem k') <$> take n addrs) = take n stream /\
    (out = Some (Z.of_nat n) /\ (n = length addrs \/ host_alive k' b = false /\ n = length stream)
     \/ out = None /\ j = length wss /\ n = length stream /\ (n < length addrs)%nat).
Proof.
  intros b addrs Hp Hi Hat Hne Hbuf Hnd Henv.
  destruct (pipe_read_spec Inv Inv_set_ring Inv_set_mem p k buf env wss r0) as ([k' out] & E & Hpost); try done.
  destruct Hpost as (j & n & Hj & _ & (r' & Hat' & Hc & Hn & Hd) & Hout); cbn [fst snd] in *.
  exists k', out, j, n, r'. split_and!; [done..|].
  destruct Hout as [(-> & [->|[? ?]])|(-> & -> & ? & ?)]; [left; auto|left; auto|right].
  split_and!; try done. by rewrite firstn_all.
Qed.

(** C17: writing to a pipe returns without panic or endless loop.  Whatever the
    readers take meanwhile ([ds], a count per suspension), the bytes in the
    pipe are the old contents followed by the written prefix of the caller's
    buffer, less what the readers took from the front; the call reports the
    whole buffer, and is still waiting only on a full pipe. *)
Theorem pipe_write_queues_stream p k buf env ds r0 :
  let b := p_buffer p in let addrs := buffer_addrs buf in
  let data := load (host_mem k) <$> addrs in
  p_writable p = true -> Inv k -> ring_at k b r0 ->
  nonempty_slices buf -> buf <> [] -> Forall2 (env_drains Inv b addrs) env ds ->
  exists k' out j n r', pipe_write p k buf env = Ret (k', out) /\
    ring_at k' b r' /\
    contents r' = drop (sum_list (take j ds)) (contents r0 ++ take n data) /\
    (out = Some (Z.of_nat (length addrs)) /\ n = length addrs
     \/ out = None /\ j = length ds /\ length (contents r') = 32%nat).
Proof.
  intros b addrs data Hp Hi Hat Hne Hbuf Henv.
  destruct (pipe_write_spec Inv Inv_set_ring p k buf env ds r0) as ([k' out] & E & Hpost); try done.
  destruct Hpost as (j & n & Hj & _ & (r' & Hat' & Hc & Hn & Hd) & Hout); cbn [fst snd] in *.
  exists k', out, j, n, r'. split_and!; [done..|].
  destruct Hout as [(-> & ->)|(-> & -> & ? & ?)]; [left; auto|right].
  split_and!; try done. rewrite Hc, firstn_all, length_drop, length_app, length_take.
  rewrite length_fmap. lia.
Qed.

End Claims.

(** A small host for evaluation: rings and memory, write ends always alive. *)
Record MiniHost : Type := mkMini { mini_rings : gmap Z PipeRingBuffer; mini_mem : PhysMem }.

Definition mini_host : PipeHost MiniHost := {|
  host_ring := fun k b => mini_rings k !! b;
  host_set_ring := fun k b r => mkMini (<[b := r]> (mini_rings k)) (mini_mem k);
  host_mem := mini_mem;
  host_set_mem := fun k m => mkMini (mini_rings k) m;
  host_alive := fun _ _ => true;
  host_suspend := fun k f => Ret (f k);
|}.

Lemma mini_host_laws : @PipeHostLaws MiniHost mini_host.
Proof.
  constructor; try done. intros k b r b'. cbn. case_decide; subst.
  - apply lookup_insert_eq.
  - by apply lookup_insert_ne.
Qed.

Definition mini_ring (bs : list Z) : PipeRingBuffer :=
  {| arr := bs ++ replicate (32 - length bs) 0; head := 0; tail := Z.of_nat (length bs) mod 32;
     status := if decide (length bs = 0)%nat then Empty
               else if decide (length bs = 32)%nat then Full else Normal;
     write_end := Some 7 |}.

Definition mini_read_end : Pipe := read_end_with_buffer 7 {| object_id := 7; object_owner_uid := 0 |}.
Definition mini_write_end : Pipe := write_end_with_buffer 7 {| object_id := 7; object_owner_uid := 0 |}.

Definition mini_append : MiniHost -> MiniHost := fun k => mkMini (<[7 := mini_ring [3; 4]]> (mini_rings k)) (mini_mem k).

(** A reader of four bytes finds two, is suspended, and gets the two a writer
    appended. *)
Lemma pipe_read_delivers_stream_witness :
  exists k' out j n r',
    pipe_read (H := mini_host) mini_read_end (mkMini {[7 := mini_ring [1; 2]]} ∅) [(100, 2); (200, 2)]
      [mini_append] = Ret (k', out) /\
    ring_at (H := mini_host) k' 7 r' /\
    contents r' = drop n ([1; 2] ++ concat (take j [[3; 4]])) /\ out = Some 4.
Proof.
  destruct (pipe_read_delivers_stream (H := mini_host) (L := mini_host_laws) (fun _ => True)
              (fun _ _ _ _ => I) (fun _ _ _ => I) mini_read_end (mkMini {[7 := mini_ring [1; 2]]} ∅)
              [(100, 2); (200, 2)] [mini_append] [[3; 4]] (mini_ring [1; 2]))
    as (k' & out & j & n & r' & E & Hat & Hc & _ & _).
  - reflexivity.
  - exact I.
  - split; [reflexivity|]. split; [apply (bool_decide_eq_true_1 _); vm_compute; reflexivity|reflexivity].
  - repeat constructor.
  - discriminate.
  - apply (bool_decide_eq_true_1 _); vm_compute; reflexivity.
  - constructor; [|constructor]. intros k r _ (Hr & Hw & He) Hnil.
    exists (mini_append k), (mini_ring [3; 4]). split; [reflexivity|]. split; [exact I|].
    split; [|split; [vm_compute; reflexivity|intros; reflexivity]].
    split; [cbn; apply lookup_insert_eq|].
    split; [apply (bool_decide_eq_true_1 _); vm_compute; reflexivity|reflexivity].
  - exists k', out, j, n, r'. split; [exact E|]. split; [exact Hat|]. split; [exact Hc|].
    vm_compute in E. injection E as _ <-. reflexivity.
Defined.

Lemma pipe_write_queues_stream_witness :
  exists k' out j n r',
    pipe_write (H := mini_host) mini_write_end (mkMini {[7 := mini_ring [1; 2]]} {[100 := 9; 101 := 8]})
      [(100, 2)] [] = Ret (k', out) /\
    ring_at (H := mini_host) k' 7 r' /\
    contents r' = drop (sum_list (take j [])) ([1; 2] ++ take n [9; 8]) /\ out = Some 2.
Proof.
  destruct (pipe_write_queues_stream (H := mini_host) (L := mini_host_laws) (fun _ => True)
              (fun _ _ _ _ => I) mini_write_end
              (mkMini {[7 := mini_ring [1; 2]]} {[100 := 9; 101 := 8]})
              [(100, 2)] [] [] (mini_ring [1; 2]))
    as (k' & out & j & n & r' & E & Hat & Hc & _).
  - reflexivity.
  - exact I.
  - split; [reflexivity|]. split; [apply (bool_decide_eq_true_1 _); vm_compute; reflexivity|reflexivity].
  - repeat constructor.
  - discriminate.
  - constructor.
  - exists k', out, j, n, r'. split; [exact E|]. split; [exact Hat|]. split; [exact Hc|].
    vm_compute in E. injection E as _ <-. reflexivity.
Defined.
