(* ===== verification/MemorySet.v ===== *)
(** * Address spaces

    Models [os/src/mm/memory_set.rs] (areas, address spaces, construction from
    an ELF image and for [fork]) and the linker symbols and board constants it
    uses.  The ELF reader is the [xmas_elf] crate: its result is the parameter
    [ElfReader].  Dropping a [FrameTracker] returns its frame, so every place
    where the code drops one calls [frame_dealloc] here. *)
From S2P Require Import Prelude Address Allocators PageTable.
Import Address Mem PageTable.

Module MemorySet.

(** [boards/qemu.rs] *)
Definition MEMORY_END : Z := 0x88000000.
Definition MMIO : list (Z * Z) := [(0x100000, 0x2000); (0x10001000, 0x1000)].

(** The linker script's symbols. *)
Record LinkerSymbols : Type := mkLinker {
  stext : Z; etext : Z; srodata : Z; erodata : Z; sdata : Z; edata : Z;
  sbss_with_stack : Z; ebss : Z; ekernel : Z; strampoline : Z;
  trap_handler_addr : Z; trap_return_addr : Z;
}.

(** ** [BTreeMap<VirtPageNum, FrameTracker>]: sorted by key *)

Abbreviation frame_map := (list (Z * Z)).

Fixpoint btree_insert (t : frame_map) (key v : Z) : frame_map * option Z :=
  match t with
  | [] => ([(key, v)], None)
  | (k', v') :: rest =>
      if key =? k' then ((key, v) :: rest, Some v')
      else if key <? k' then ((key, v) :: t, None)
      else let '(rest', old) := btree_insert rest key v in ((k', v') :: rest', old)
  end.

Fixpoint btree_remove (t : frame_map) (key : Z) : frame_map * option Z :=
  match t with
  | [] => ([], None)
  | (k', v') :: rest =>
      if key =? k' then (rest, Some v')
      else let '(rest', old) := btree_remove rest key in ((k', v') :: rest', old)
  end.

(** ** Dropping frames *)

(** [frame_dealloc], run by [FrameTracker::drop]. *)
Definition frame_dealloc (w : FrameWorld) (ppn : Z) : outcome FrameWorld :=
  a ← Frames.dealloc (fw_alloc w) ppn;
  Ret {| fw_mem := fw_mem w; fw_alloc := a |}.

Definition drop_option (w : FrameWorld) (o : option Z) : outcome FrameWorld :=
  match o with Some ppn => frame_dealloc w ppn | None => Ret w end.

Fixpoint drop_frames (w : FrameWorld) (frames : list Z) : outcome FrameWorld :=
  match frames with
  | [] => Ret w
  | ppn :: rest => w' ← frame_dealloc w ppn; drop_frames w' rest
  end.

(** ** [MapArea] *)

Inductive MapType : Type := Identical | Framed.

#[export] Instance MapType_eq_dec : EqDecision MapType.
Proof. solve_decision. Defined.

(** [MapPermission] is its bits; the four flags have the values they have in
    [PTEFlags]. *)
Definition PERM_R : Z := Z.shiftl 1 1.
Definition PERM_W : Z := Z.shiftl 1 2.
Definition PERM_X : Z := Z.shiftl 1 3.
Definition PERM_U : Z := Z.shiftl 1 4.

Record MapArea : Type := mkArea {
  vpn_range : SimpleRange;
  data_frames : frame_map;
  map_type : MapType;
  map_perm : Z;
}.

Definition area_new (start_va end_va : Z) (mt : MapType) (perm : Z) : outcome MapArea :=
  let start_vpn := floor start_va in
  let end_vpn := ceil end_va in
  r ← range_new start_vpn end_vpn;
  Ret {| vpn_range := r; data_frames := []; map_type := mt; map_perm := perm |}.

Definition from_another (another : MapArea) : outcome MapArea :=
  r ← range_new (range_l (vpn_range another)) (range_r (vpn_range another));
  Ret {| vpn_range := r; data_frames := []; map_type := map_type another;
         map_perm := map_perm another |}.

Definition with_frames (self : MapArea) (t : frame_map) : MapArea :=
  {| vpn_range := vpn_range self; data_frames := t; map_type := map_type self;
     map_perm := map_perm self |}.

Definition map_one (w : FrameWorld) (self : MapArea) (page_table : PageTable) (vpn : Z)
    : outcome (MapArea * PageTable * FrameWorld) :=
  '(ppn, self', w') ←
    match map_type self with
    | Identical => Ret (vpn, self, w)
    | Framed =>
        let '(f, w1) := frame_alloc w in
        frame ← unwrap f;
        let '(t, old) := btree_insert (data_frames self) vpn frame in
        w2 ← drop_option w1 old;
        Ret (frame, with_frames self t, w2)
    end;
  pte_flags ← unwrap (from_bits PTEFlags_all (map_perm self));
  '(pt', w'') ← PageTable.map w' page_table vpn ppn pte_flags;
  Ret (self', pt', w'').

Definition unmap_one (w : FrameWorld) (self : MapArea) (page_table : PageTable) (vpn : Z)
    : outcome (MapArea * FrameWorld) :=
  '(self', w') ←
    (if bool_decide (map_type self = Framed) then
       let '(t, old) := btree_remove (data_frames self) vpn in
       w1 ← drop_option w old; Ret (with_frames self t, w1)
     else Ret (self, w));
  w'' ← PageTable.unmap w' page_table vpn;
  Ret (self', w'').

Fixpoint map_pages (w : FrameWorld) (self : MapArea) (page_table : PageTable) (vpns : list Z)
    : outcome (MapArea * PageTable * FrameWorld) :=
  match vpns with
  | [] => Ret (self, page_table, w)
  | vpn :: rest =>
      '(self', pt', w') ← map_one w self page_table vpn;
      map_pages w' self' pt' rest
  end.

Definition area_map (w : FrameWorld) (self : MapArea) (page_table : PageTable)
    : outcome (MapArea * PageTable * FrameWorld) :=
  vpns ← range_iter (vpn_range self); map_pages w self page_table vpns.

Fixpoint unmap_pages (w : FrameWorld) (self : MapArea) (page_table : PageTable) (vpns : list Z)
    : outcome (MapArea * FrameWorld) :=
  match vpns with
  | [] => Ret (self, w)
  | vpn :: rest =>
      '(self', w') ← unmap_one w self page_table vpn;
      unmap_pages w' self' page_table rest
  end.

Definition area_unmap (w : FrameWorld) (self : MapArea) (page_table : PageTable)
    : outcome (MapArea * FrameWorld) :=
  vpns ← range_iter (vpn_range self); unmap_pages w self page_table vpns.

(** [&data[a..b]] *)
Definition slice_range (data : list Z) (a b : Z) : outcome (list Z) :=
  if (a <=? b) && (b <=? Z.of_nat (length data))
  then Ret (take (Z.to_nat (b - a)) (drop (Z.to_nat a) data)) else Panic.

Definition copy_data_body (page_table : PageTable) (data : list Z)
    (s : PhysMem * Z * Z) : outcome ((PhysMem * Z * Z) + PhysMem) :=
  let '(m, start, current_vpn) := s in
  let len := Z.of_nat (length data) in
  src ← slice_range data start (Z.min len (start + PAGE_SIZE));
  pte ← unwrap (translate m page_table current_vpn);
  let m' := store_bytes m (frame_base (pte_ppn pte)) src in
  let start' := start + PAGE_SIZE in
  if len <=? start' then Ret (inr m') else Ret (inl (m', start', step current_vpn)).

Definition copy_data (m : PhysMem) (self : MapArea) (page_table : PageTable) (data : list Z)
    : outcome PhysMem :=
  _ ← assert_ (bool_decide (map_type self = Framed));
  while_loop (S (S (Z.to_nat (Z.of_nat (length data) / PAGE_SIZE))))
    (copy_data_body page_table data) (m, 0, range_l (vpn_range self)).

(** ** [MemorySet] *)

Record MemorySet : Type := mkMemorySet {
  page_table : PageTable;
  areas : list MapArea;
}.

Definition new_bare (w : FrameWorld) : outcome (MemorySet * FrameWorld) :=
  '(pt, w') ← pt_new w; Ret ({| page_table := pt; areas := [] |}, w').

Definition ms_token (self : MemorySet) : Z := token (page_table self).

Definition push (w : FrameWorld) (self : MemorySet) (map_area : MapArea) (data : option (list Z))
    : outcome (MemorySet * FrameWorld) :=
  '(area', pt', w') ← area_map w map_area (page_table self);
  m' ← match data with
       | Some d => copy_data (fw_mem w') area' pt' d
       | None => Ret (fw_mem w')
       end;
  Ret ({| page_table := pt'; areas := areas self ++ [area'] |},
       {| fw_mem := m'; fw_alloc := fw_alloc w' |}).

Definition insert_framed_area (w : FrameWorld) (self : MemorySet) (start_va end_va permission : Z)
    : outcome (MemorySet * FrameWorld) :=
  area ← area_new start_va end_va Framed permission;
  push w self area None.

(** [Vec::remove] of the first area that starts at [start_vpn]. *)
Fixpoint remove_area (w : FrameWorld) (pt : PageTable) (areas : list MapArea) (start_vpn : Z)
    : outcome (list MapArea * FrameWorld) :=
  match areas with
  | [] => Ret ([], w)
  | area :: rest =>
      if range_l (vpn_range area) =? start_vpn then
        '(area', w') ← area_unmap w area pt;
        w'' ← drop_frames w' (snd <$> data_frames area');
        Ret (rest, w'')
      else
        '(rest', w') ← remove_area w pt rest start_vpn; Ret (area :: rest', w')
  end.

Definition remove_area_with_start_vpn (w : FrameWorld) (self : MemorySet) (start_vpn : Z)
    : outcome (MemorySet * FrameWorld) :=
  '(areas', w') ← remove_area w (page_table self) (areas self) start_vpn;
  Ret ({| page_table := page_table self; areas := areas' |}, w').

Definition map_trampoline (L : LinkerSymbols) (w : FrameWorld) (self : MemorySet)
    : outcome (MemorySet * FrameWorld) :=
  vpn ← page_num_from_addr (VirtAddr_from TRAMPOLINE);
  ppn ← page_num_from_addr (PhysAddr_from (strampoline L));
  '(pt', w') ← PageTable.map w (page_table self) vpn ppn (Z.lor PTE_R PTE_X);
  Ret ({| page_table := pt'; areas := areas self |}, w').

(** A section of the kernel image, identity mapped. *)
Definition push_identical (w : FrameWorld) (self : MemorySet) (start end_ perm : Z)
    : outcome (MemorySet * FrameWorld) :=
  area ← area_new (VirtAddr_from start) (VirtAddr_from end_) Identical perm;
  push w self area None.

Fixpoint push_mmio (w : FrameWorld) (self : MemorySet) (pairs : list (Z * Z))
    : outcome (MemorySet * FrameWorld) :=
  match pairs with
  | [] => Ret (self, w)
  | (a, n) :: rest =>
      '(self', w') ← push_identical w self a (wrap 64 (a + n)) (Z.lor PERM_R PERM_W);
      push_mmio w' self' rest
  end.

Definition new_kernel (L : LinkerSymbols) (w : FrameWorld) : outcome (MemorySet * FrameWorld) :=
  '(ms, w) ← new_bare w;
  '(ms, w) ← map_trampoline L w ms;
  '(ms, w) ← push_identical w ms (stext L) (etext L) (Z.lor PERM_R PERM_X);
  '(ms, w) ← push_identical w ms (srodata L) (erodata L) PERM_R;
  '(ms, w) ← push_identical w ms (sdata L) (edata L) (Z.lor PERM_R PERM_W);
  '(ms, w) ← push_identical w ms (sbss_with_stack L) (ebss L) (Z.lor PERM_R PERM_W);
  '(ms, w) ← push_identical w ms (ekernel L) MEMORY_END (Z.lor PERM_R PERM_W);
  push_mmio w ms MMIO.

(** What [xmas_elf] extracts from an image; [None] is the crate's [Err]. *)
Record ProgramHeader : Type := mkPh {
  ph_is_load : option bool;         (** [get_type() == Load] *)
  ph_virtual_addr : Z; ph_mem_size : Z; ph_offset : Z; ph_file_size : Z;
  ph_read : bool; ph_write : bool; ph_execute : bool;
}.

Record ElfFile : Type := mkElf {
  elf_magic : list Z;
  elf_program_headers : list (option ProgramHeader);
  elf_entry_point : Z;
}.

Definition ElfReader : Type := list Z -> option ElfFile.

Definition ph_perm (ph : ProgramHeader) : Z :=
  let map_perm := PERM_U in
  let map_perm := if ph_read ph then Z.lor map_perm PERM_R else map_perm in
  let map_perm := if ph_write ph then Z.lor map_perm PERM_W else map_perm in
  if ph_execute ph then Z.lor map_perm PERM_X else map_perm.

Fixpoint load_segments (w : FrameWorld) (ms : MemorySet) (elf_data : list Z) (max_end_vpn : Z)
    (phs : list (option ProgramHeader)) : outcome (MemorySet * FrameWorld * Z) :=
  match phs with
  | [] => Ret (ms, w, max_end_vpn)
  | o :: rest =>
      ph ← unwrap o;
      is_load ← unwrap (ph_is_load ph);
      if is_load : bool then
        let start_va := VirtAddr_from (ph_virtual_addr ph) in
        let end_va := VirtAddr_from (wrap 64 (ph_virtual_addr ph + ph_mem_size ph)) in
        area ← area_new start_va end_va Framed (ph_perm ph);
        data ← slice_range elf_data (ph_offset ph) (wrap 64 (ph_offset ph + ph_file_size ph));
        '(ms', w') ← push w ms area (Some data);
        load_segments w' ms' elf_data (range_r (vpn_range area)) rest
      else load_segments w ms elf_data max_end_vpn rest
  end.

Definition ELF_MAGIC : list Z := [0x7f; 0x45; 0x4c; 0x46].

Definition from_elf (L : LinkerSymbols) (read_elf : ElfReader) (w : FrameWorld) (elf_data : list Z)
    : outcome (MemorySet * Z * Z * FrameWorld) :=
  '(ms, w) ← new_bare w;
  '(ms, w) ← map_trampoline L w ms;
  elf ← unwrap (read_elf elf_data);
  _ ← assert_ (bool_decide (elf_magic elf = ELF_MAGIC));
  '(ms, w, max_end_vpn) ← load_segments w ms elf_data 0 (elf_program_headers elf);
  let max_end_va := addr_from_page_num max_end_vpn in
  let user_stack_bottom := wrap 64 (usize_from_VirtAddr max_end_va + PAGE_SIZE) in
  let user_stack_top := wrap 64 (user_stack_bottom + USER_STACK_SIZE) in
  stack ← area_new (VirtAddr_from user_stack_bottom) (VirtAddr_from user_stack_top) Framed
            (Z.lor (Z.lor PERM_R PERM_W) PERM_U);
  '(ms, w) ← push w ms stack None;
  trap_cx ← area_new (VirtAddr_from TRAP_CONTEXT) (VirtAddr_from TRAMPOLINE) Framed
              (Z.lor PERM_R PERM_W);
  '(ms, w) ← push w ms trap_cx None;
  Ret (ms, user_stack_top, elf_entry_point elf, w).

Definition ms_translate (m : PhysMem) (self : MemorySet) (vpn : Z) : option Z :=
  translate m (page_table self) vpn.

(** The page copy of [from_existed_user]. *)
Fixpoint copy_pages (m : PhysMem) (src dst : MemorySet) (vpns : list Z) : outcome PhysMem :=
  match vpns with
  | [] => Ret m
  | vpn :: rest =>
      src_pte ← unwrap (ms_translate m src vpn);
      dst_pte ← unwrap (ms_translate m dst vpn);
      let m' := store_bytes m (frame_base (pte_ppn dst_pte))
                  (load_bytes m (frame_base (pte_ppn src_pte)) 4096) in
      copy_pages m' src dst rest
  end.

Fixpoint copy_areas (w : FrameWorld) (user_space ms : MemorySet) (todo : list MapArea)
    : outcome (MemorySet * FrameWorld) :=
  match todo with
  | [] => Ret (ms, w)
  | area :: rest =>
      new_area ← from_another area;
      '(ms', w') ← push w ms new_area None;
      vpns ← range_iter (vpn_range area);
      m' ← copy_pages (fw_mem w') user_space ms' vpns;
      copy_areas {| fw_mem := m'; fw_alloc := fw_alloc w' |} user_space ms' rest
  end.

Definition from_existed_user (L : LinkerSymbols) (w : FrameWorld) (user_space : MemorySet)
    : outcome (MemorySet * FrameWorld) :=
  '(ms, w) ← new_bare w;
  '(ms, w) ← map_trampoline L w ms;
  copy_areas w user_space ms (areas user_space).

(** [recycle_data_pages]: clearing the area list drops its frames. *)
Definition area_frames (a : MapArea) : list Z := snd <$> data_frames a.

Definition recycle_data_pages (w : FrameWorld) (self : MemorySet)
    : outcome (MemorySet * FrameWorld) :=
  w' ← drop_frames w (concat (area_frames <$> areas self));
  Ret ({| page_table := page_table self; areas := [] |}, w').

(** Dropping a [MemorySet]: fields in declaration order. *)
Definition drop_memory_set (w : FrameWorld) (self : MemorySet) : outcome FrameWorld :=
  w' ← drop_frames w (pt_frames (page_table self));
  drop_frames w' (concat (area_frames <$> areas self)).

(** [remap_test]: the assertions on the middle page of each section. *)
Definition remap_test (L : LinkerSymbols) (m : PhysMem) (kernel_space : MemorySet) : outcome unit :=
  let mid a b := floor (VirtAddr_from (wrap 64 (a + b) / 2)) in
  t ← unwrap (ms_translate m kernel_space (mid (stext L) (etext L)));
  _ ← assert_ (negb (writable t));
  r ← unwrap (ms_translate m kernel_space (mid (srodata L) (erodata L)));
  _ ← assert_ (negb (writable r));
  d ← unwrap (ms_translate m kernel_space (mid (sdata L) (edata L)));
  assert_ (negb (executable d)).

End MemorySet.
