(* ===== verification/MemorySetInv.v ===== *)
(** * Address spaces: who owns which frame

    The invariant of a [MemorySet] in the frame world it lives in: the page
    table maps exactly the pages of its areas (and the trampoline), the frames
    of the tables and of the data are in use and all different, and an
    operation on one address space leaves every frame it does not own alone. *)
From S2P Require Import Prelude Address Allocators PageTable PageTableFacts MemorySet.
Import Address Mem PageTable MemorySet.

(** ** What the areas of a space stand for *)

Definition area_ptes (a : MapArea) : list (Z * Z) :=
  (fun x => (x.1, pte_new x.2 (Z.lor (map_perm a) PTE_V))) <$> data_frames a.
Definition space_ptes (l : list MapArea) : list (Z * Z) := concat (area_ptes <$> l).
Definition space_frames (l : list MapArea) : list Z := concat (area_frames <$> l).

Lemma space_ptes_app l1 l2 : space_ptes (l1 ++ l2) = space_ptes l1 ++ space_ptes l2.
Proof. unfold space_ptes. by rewrite fmap_app, concat_app. Qed.

Lemma space_frames_app l1 l2 : space_frames (l1 ++ l2) = space_frames l1 ++ space_frames l2.
Proof. unfold space_frames. by rewrite fmap_app, concat_app. Qed.

Lemma space_ptes_single a : space_ptes [a] = area_ptes a.
Proof. cbn. apply app_nil_r. Qed.

Lemma space_frames_single a : space_frames [a] = area_frames a.
Proof. cbn. apply app_nil_r. Qed.

(** Adding one page to the last area. *)
Definition add_page (a : MapArea) (vpn f : Z) : MapArea := with_frames a (data_frames a ++ [(vpn, f)]).

Lemma area_frames_add a vpn f : area_frames (add_page a vpn f) = area_frames a ++ [f].
Proof. unfold area_frames, add_page. cbn. by rewrite fmap_app. Qed.

Lemma area_ptes_add a vpn f :
  area_ptes (add_page a vpn f) = area_ptes a ++ [(vpn, pte_new f (Z.lor (map_perm a) PTE_V))].
Proof. unfold area_ptes, add_page. cbn. by rewrite fmap_app. Qed.

Lemma btree_insert_last t vpn f :
  Forall (fun x => x.1 < vpn) t -> btree_insert t vpn f = (t ++ [(vpn, f)], None).
Proof.
  induction t as [|[k v] t IH]; intros H; [done|]. apply Forall_cons in H as [Hk H]. cbn in *.
  destruct (Z.eqb_spec vpn k); [lia|]. destruct (Z.ltb_spec vpn k); [lia|]. by rewrite IH.
Qed.

(** ** The invariant *)

Record frames_ok (lo : Z) (base : list (Z * Z)) (w : FrameWorld) (pt : PageTable) (l : list MapArea)
    (lab : gmap Z (list Z)) : Prop := {
  fo_pt : pt_ok lo w pt lab;
  fo_nodup : NoDup (pt_frames pt ++ space_frames l);
  fo_live : forall f, f ∈ space_frames l -> Frames.live lo (fw_alloc w) f;
  fo_view : forall vpn e, 0 <= vpn < 2 ^ 27 ->
    pt_view (fw_mem w) (root_ppn pt) vpn = Some e <-> (vpn, e) ∈ base ++ space_ptes l;
}.

(** An area of a user space, with all its pages. *)
Record area_ok (a : MapArea) : Prop := {
  ao_framed : map_type a = Framed;
  ao_perm : in_width 8 (map_perm a);
  ao_range : 0 <= range_l (vpn_range a) <= range_r (vpn_range a) /\ range_r (vpn_range a) <= 2 ^ 27;
  ao_pages : (data_frames a).*1 = seqZ (range_l (vpn_range a)) (range_r (vpn_range a) - range_l (vpn_range a));
}.

Record space_ok (lo : Z) (base : list (Z * Z)) (w : FrameWorld) (ms : MemorySet) (lab : gmap Z (list Z)) : Prop := {
  so_frames : frames_ok lo base w (page_table ms) (areas ms) lab;
  so_areas : Forall area_ok (areas ms);
}.

Lemma live_ppn_ok lo a f : Frames.wf lo a -> Frames.live lo a f -> ppn_ok f.
Proof. intros (H1 & H2 & H3 & _) [Hf _]. unfold ppn_ok. lia. Qed.

(** ** What growing an address space does to the world *)

Record ms_effect (lo : Z) (w w' : FrameWorld) (pt pt' : PageTable) (data : list Z) : Prop := {
  me_root : root_ppn pt' = root_ppn pt;
  me_tables : exists tables, pt_frames pt' = pt_frames pt ++ tables /\
    (forall y, Frames.live lo (fw_alloc w') y <-> Frames.live lo (fw_alloc w) y \/ y ∈ tables ++ data) /\
    (forall y, y ∈ tables ++ data -> ~ Frames.live lo (fw_alloc w) y) /\
    avail (fw_alloc w') = avail (fw_alloc w) - Z.of_nat (length (tables ++ data));
  me_outside : forall x, (forall g, g ∈ pt_frames pt' ++ data -> ~ in_frame g x) ->
    load (fw_mem w') x = load (fw_mem w) x;
}.

Lemma pt_effect_ms lo w w' pt pt' new : pt_effect lo w w' pt pt' new -> ms_effect lo w w' pt pt' [].
Proof.
  intros [Hr Hf Hl Hn Ha Ho]. split; [done| |].
  - exists new. rewrite app_nil_r. done.
  - intros x. rewrite app_nil_r. apply Ho.
Qed.

Lemma ms_effect_trans lo w1 w2 w3 pt1 pt2 pt3 d1 d2 :
  ms_effect lo w1 w2 pt1 pt2 d1 -> ms_effect lo w2 w3 pt2 pt3 d2 -> ms_effect lo w1 w3 pt1 pt3 (d1 ++ d2).
Proof.
  intros [R1 (t1 & F1 & L1 & N1 & A1) O1] [R2 (t2 & F2 & L2 & N2 & A2) O2]. split.
  - congruence.
  - exists (t1 ++ t2). split_and!.
    + by rewrite F2, F1, app_assoc.
    + intros y. rewrite L2, L1. set_solver.
    + intros y Hy Hl. assert (Hy' : y ∈ t1 ++ d1 \/ y ∈ t2 ++ d2) by set_solver.
      destruct Hy' as [Hy'|Hy']; [by apply (N1 y)|]. apply (N2 y Hy'), L1. by left.
    + rewrite A2, A1, !length_app. lia.
  - intros x Hx. rewrite O2, O1; [done|..]; intros g Hg; apply Hx; rewrite ?F2 in *; set_solver.
Qed.

(** A frame in use that is not one of the tables is not written. *)
Lemma ms_effect_keeps lo w w' pt pt' data f x :
  ms_effect lo w w' pt pt' data -> Frames.live lo (fw_alloc w) f -> f ∉ pt_frames pt -> in_frame f x ->
  load (fw_mem w') x = load (fw_mem w) x.
Proof.
  intros [_ (t & F & _ & N & _) O] Hl Hf Hx. apply O. intros g Hg Hgx.
  assert (g = f) as -> by (by eapply in_frame_inj). rewrite F in Hg.
  apply elem_of_app in Hg as [[Hg|Hg]%elem_of_app|Hg]; [done|by apply (N f); [set_solver|]..].
Qed.

Lemma ms_effect_live lo w w' pt pt' data f :
  ms_effect lo w w' pt pt' data -> Frames.live lo (fw_alloc w) f -> Frames.live lo (fw_alloc w') f.
Proof. intros [_ (t & _ & L & _) _] Hf. apply L. by left. Qed.

(** A table that is not written stays as it is. *)
Lemma pt_ok_ext lo w w' pt lab :
  pt_ok lo w pt lab -> Frames.wf lo (fw_alloc w') ->
  (forall f, f ∈ pt_frames pt -> Frames.live lo (fw_alloc w') f) ->
  (forall f x, f ∈ pt_frames pt -> in_frame f x -> load (fw_mem w') x = load (fw_mem w) x) ->
  pt_ok lo w' pt lab.
Proof.
  intros [Hwf _ _] Ha Hl Hx. split; [|done|done]. apply (pt_wf_ext (fw_mem w)); [done|].
  intros f x Hf. apply Hx. by apply (pw_dom _ _ _ _ Hwf).
Qed.

Lemma pt_view_keep lo w w' pt lab vpn :
  pt_ok lo w pt lab ->
  (forall f x, f ∈ pt_frames pt -> in_frame f x -> load (fw_mem w') x = load (fw_mem w) x) ->
  pt_view (fw_mem w') (root_ppn pt) vpn = pt_view (fw_mem w) (root_ppn pt) vpn.
Proof.
  intros [Hwf _ _] Hx. apply (pt_view_ext _ _ _ (pt_frames pt) lab); [done|].
  intros f x Hf. apply Hx. by apply (pw_dom _ _ _ _ Hwf).
Qed.

(** A space whose frames are left alone is left alone. *)
Lemma frames_ok_ext lo base w w' pt l lab :
  frames_ok lo base w pt l lab -> Frames.wf lo (fw_alloc w') ->
  (forall f, f ∈ pt_frames pt ++ space_frames l -> Frames.live lo (fw_alloc w') f) ->
  (forall f x, f ∈ pt_frames pt -> in_frame f x -> load (fw_mem w') x = load (fw_mem w) x) ->
  frames_ok lo base w' pt l lab.
Proof.
  intros [Hpt Hnd Hlive Hview] Ha Hl Hx. split; [|done|..].
  - apply (pt_ok_ext lo w); [done..| |done]. intros f Hf. apply Hl. set_solver.
  - intros f Hf. apply Hl. set_solver.
  - intros vpn e Hv. rewrite (pt_view_keep lo w w' pt lab) by done. by apply Hview.
Qed.

(** ** Mapping one page *)

Lemma alloc_effect lo w pt f w' :
  (forall y, Frames.live lo (fw_alloc w') y <-> Frames.live lo (fw_alloc w) y \/ y = f) ->
  ~ Frames.live lo (fw_alloc w) f -> ppn_ok f ->
  (forall x, load (fw_mem w') x = if decide (in_frame f x) then 0 else load (fw_mem w) x) -> avail (fw_alloc w') = avail (fw_alloc w) - 1 ->
  ms_effect lo w w' pt pt [f].
Proof.
  intros L N R M A. split; [done| |].
  - exists []. cbn [app]. split_and!.
    + by rewrite app_nil_r.
    + intros y. by rewrite L, list_elem_of_singleton.
    + by intros y ->%list_elem_of_singleton.
    + cbn. lia.
  - intros x Hx. rewrite M, decide_False; [done|]. apply Hx.
    apply elem_of_app. right. by apply list_elem_of_singleton.
Qed.

Lemma map_one_spec lo base w pt done self lab vpn :
  frames_ok lo base w pt (done ++ [self]) lab ->
  map_type self = Framed -> in_width 8 (map_perm self) -> 0 <= vpn < 2 ^ 27 ->
  Forall (fun x => x.1 < vpn) (data_frames self) ->
  pt_view (fw_mem w) (root_ppn pt) vpn = None -> 3 <= avail (fw_alloc w) ->
  exists f pt' w' lab', map_one w self pt vpn = Ret (add_page self vpn f, pt', w') /\
    frames_ok lo base w' pt' (done ++ [add_page self vpn f]) lab' /\ ms_effect lo w w' pt pt' [f] /\
    avail (fw_alloc w) - 3 <= avail (fw_alloc w') /\
    (forall x, in_frame f x -> load (fw_mem w') x = 0) /\
    (forall v, 0 <= v < 2 ^ 27 -> v <> vpn ->
       pt_view (fw_mem w') (root_ppn pt') v = pt_view (fw_mem w) (root_ppn pt) v).
Proof.
  intros [Hpt Hnd Hlive Hview] Hty Hperm Hvpn Hlt Hfree Hav. pose proof Hpt as [Hwf Ha Hown].
  destruct (frame_alloc_spec lo w Ha) as (f & w1 & Ef & Em & Hf & Ha1 & Hfresh & Hl1 & Hav1); [lia|].
  assert (Hz : forall x, load (fw_mem w1) x = if decide (in_frame f x) then 0 else load (fw_mem w) x)
    by (intros x; rewrite Em; by apply load_zero_frame).
  clear Em. pose proof (alloc_effect lo w pt f w1 Hl1 Hfresh Hf Hz Hav1) as Eff1.
  assert (Hkeep : forall g x, g ∈ pt_frames pt -> in_frame g x -> load (fw_mem w1) x = load (fw_mem w) x).
  { intros g x Hg Hx. rewrite Hz, decide_False; [done|]. intros Hfx.
    assert (g = f) as -> by (by eapply in_frame_inj). by apply Hfresh, Hown. }
  assert (Hpt1 : pt_ok lo w1 pt lab).
  { apply (pt_ok_ext lo w); [done..| |done]. intros g Hg. apply Hl1. left. by apply Hown. }
  assert (Hv1 : forall v, pt_view (fw_mem w1) (root_ppn pt) v = pt_view (fw_mem w) (root_ppn pt) v)
    by (intros v; by apply (pt_view_keep lo w w1 pt lab)).
  destruct (map_spec lo w1 pt lab vpn f (map_perm self)) as (pt' & w2 & lab' & new & E & Hpt2 & Eff2 & Hn & Hv2);
    [done..|lia|by rewrite Hv1|].
  pose proof (ms_effect_trans _ _ _ _ _ _ _ _ _ Eff1 (pt_effect_ms _ _ _ _ _ _ Eff2)) as Eff. cbn [app] in Eff.
  exists f, pt', w2, lab'. split_and!.
  - unfold map_one. rewrite Hty, Ef. cbn [mbind outcome_bind unwrap].
    rewrite btree_insert_last by done. cbn [mbind outcome_bind drop_option].
    rewrite <- (wrap_small 8 (map_perm self)) by done. rewrite PTEFlags_from_bits_total.
    rewrite wrap_small by done. cbn [mbind outcome_bind unwrap]. by rewrite E.
  - rewrite space_frames_app in Hnd, Hlive. rewrite space_frames_single in Hnd, Hlive. split; [done|..].
    + rewrite space_frames_app, space_frames_single, area_frames_add. rewrite (pe_frames _ _ _ _ _ _ Eff2).
      pose proof (pw_nodup _ _ _ _ (po_wf _ _ _ _ Hpt2)) as Hnd2. rewrite (pe_frames _ _ _ _ _ _ Eff2) in Hnd2.
      apply NoDup_app. split_and!; [done| |].
      * intros g Hg Hg'. apply elem_of_app in Hg as [Hg|Hg].
        -- assert (Hgl : Frames.live lo (fw_alloc w) g) by (by apply Hown).
           apply NoDup_app in Hnd as (_ & Hd & _). rewrite app_assoc in Hg'.
           apply elem_of_app in Hg' as [Hg'| ->%list_elem_of_singleton]; [by apply (Hd g)|done].
        -- apply (pe_fresh _ _ _ _ _ _ Eff2 g Hg), Hl1. rewrite app_assoc in Hg'.
           apply elem_of_app in Hg' as [Hg'| ->%list_elem_of_singleton]; [left; by apply Hlive|by right].
      * rewrite app_assoc. apply NoDup_app. split_and!; [by apply NoDup_app in Hnd as (_ & _ & ?)| |apply NoDup_singleton].
        intros g Hg ->%list_elem_of_singleton. by apply Hfresh, Hlive.
    + intros g. rewrite space_frames_app, space_frames_single, area_frames_add, app_assoc.
      intros [Hg| ->%list_elem_of_singleton]%elem_of_app; apply (pe_live _ _ _ _ _ _ Eff2); left; apply Hl1.
      * left. by apply Hlive.
      * by right.
    + intros v e Hv. rewrite (pe_root _ _ _ _ _ _ Eff2), Hv2, Hv1 by done.
      rewrite space_ptes_app, space_ptes_single, area_ptes_add, !app_assoc, elem_of_app, list_elem_of_singleton.
      rewrite <- app_assoc, <- (space_ptes_single self), <- space_ptes_app, <- Hview by done.
      case_decide as Ev; [subst v; rewrite Hfree|]; naive_solver.
  - done.
  - rewrite (pe_avail _ _ _ _ _ _ Eff2). lia.
  - intros x Hx. transitivity (load (fw_mem w1) x).
    + apply (ms_effect_keeps lo w1 w2 pt pt' [] f); [by eapply pt_effect_ms|apply Hl1; by right| |done].
      intros Hg. by apply Hfresh, Hown.
    + by rewrite Hz, decide_True.
  - intros v Hv Hne. rewrite (pe_root _ _ _ _ _ _ Eff2), Hv2 by done. by rewrite decide_False.
Qed.

(** ** Mapping an area *)

Lemma with_frames_twice a t t' : with_frames (with_frames a t) t' = with_frames a t'.
Proof. done. Qed.

Lemma map_pages_spec lo base done n : forall w pt self lab v,
  frames_ok lo base w pt (done ++ [self]) lab ->
  map_type self = Framed -> in_width 8 (map_perm self) -> 0 <= v -> v + Z.of_nat n <= 2 ^ 27 ->
  Forall (fun x => x.1 < v) (data_frames self) ->
  (forall u, v <= u < v + Z.of_nat n -> pt_view (fw_mem w) (root_ppn pt) u = None) ->
  3 * Z.of_nat n <= avail (fw_alloc w) ->
  exists fs pt' w' lab' self',
    map_pages w self pt (seqZ v (Z.of_nat n)) = Ret (self', pt', w') /\
    self' = with_frames self (data_frames self ++ zip (seqZ v (Z.of_nat n)) fs) /\
    length fs = n /\ frames_ok lo base w' pt' (done ++ [self']) lab' /\ ms_effect lo w w' pt pt' fs /\
    avail (fw_alloc w) - 3 * Z.of_nat n <= avail (fw_alloc w') /\
    (forall f x, f ∈ fs -> in_frame f x -> load (fw_mem w') x = 0).
Proof.
  induction n as [|n IH]; intros w pt self lab v Hok Hty Hperm Hv Hvn Hlt Hfree Hav.
  { exists [], pt, w, lab, self. rewrite seqZ_nil by lia. cbn. split_and!; try done; [|..|lia|].
    - rewrite app_nil_r. by destruct self.
    - split; [done| |done]. exists []. cbn. rewrite app_nil_r. split_and!; [done| | |lia]; intros y; rewrite elem_of_nil; tauto.
    - intros f x Hf. by apply not_elem_of_nil in Hf. }
  rewrite seqZ_cons by lia. replace (Z.pred (Z.of_nat (S n))) with (Z.of_nat n) by lia.
  destruct (map_one_spec lo base w pt done self lab v) as (f & pt1 & w1 & lab1 & E & Hok1 & Eff1 & Hav1 & Hz & Hv1);
    [done..|lia|done|apply Hfree; lia|lia|].
  destruct (IH w1 pt1 (add_page self v f) lab1 (Z.succ v)) as (fs & pt2 & w2 & lab2 & self2 & E2 & Es & Hl & Hok2 & Eff2 & Hav2 & Hz2);
    [done..|lia|lia| | |lia|].
  { unfold add_page. cbn. apply Forall_app. split; [|repeat constructor; cbn; lia].
    eapply Forall_impl; [done|]. cbn. lia. }
  { intros u Hu. rewrite Hv1 by lia. apply Hfree. lia. }
  exists (f :: fs), pt2, w2, lab2, self2. split_and!.
  - cbn [map_pages]. rewrite E. cbn [mbind outcome_bind]. by rewrite E2.
  - rewrite Es. unfold add_page. cbn. by rewrite <- app_assoc.
  - cbn. lia.
  - done.
  - exact (ms_effect_trans _ _ _ _ _ _ _ _ _ Eff1 Eff2).
  - lia.
  - intros g x [->|Hg]%elem_of_cons Hx; [|by apply (Hz2 g)]. rewrite <- (Hz x Hx).
    assert (Hf : f ∈ space_frames (done ++ [add_page self v f])).
    { rewrite space_frames_app, space_frames_single, area_frames_add, !elem_of_app, list_elem_of_singleton. tauto. }
    apply (ms_effect_keeps lo w1 w2 pt1 pt2 fs f); [done|by apply (fo_live _ _ _ _ _ _ Hok1)| |done].
    pose proof (fo_nodup _ _ _ _ _ _ Hok1) as Hnd. apply NoDup_app in Hnd as (_ & Hd & _). intros Hg. by apply (Hd f).
Qed.

(** A page is mapped exactly when the trampoline or an area covers it. *)
Lemma area_ptes_keys a : (area_ptes a).*1 = (data_frames a).*1.
Proof. unfold area_ptes. rewrite <- list_fmap_compose. by apply list_fmap_ext. Qed.

Definition covers (a : MapArea) (u : Z) : Prop := range_l (vpn_range a) <= u < range_r (vpn_range a).

Lemma space_ptes_key l u e :
  Forall area_ok l -> (u, e) ∈ space_ptes l -> exists a, a ∈ l /\ covers a u /\ (u, e) ∈ area_ptes a.
Proof.
  intros Hl. unfold space_ptes. rewrite list_elem_of_In, in_concat. intros (p & Hp & Hu).
  apply list_elem_of_In, list_elem_of_fmap in Hp as (a & -> & Ha). apply list_elem_of_In in Hu.
  exists a. split_and!; [done| |done]. pose proof (proj1 (Forall_forall _ _) Hl a Ha) as [_ _ _ Hk].
  assert (Hin : u ∈ (data_frames a).*1) by (rewrite <- area_ptes_keys; apply list_elem_of_fmap; by exists (u, e)).
  rewrite Hk, elem_of_seqZ in Hin. unfold covers. lia.
Qed.

Lemma unmapped_outside lo base w ms lab u :
  space_ok lo base w ms lab -> 0 <= u < 2 ^ 27 -> u ∉ base.*1 -> Forall (fun a => ~ covers a u) (areas ms) ->
  pt_view (fw_mem w) (root_ppn (page_table ms)) u = None.
Proof.
  intros [Hf Ha] Hu Hb Hout. destruct (pt_view _ _ u) as [e|] eqn:E; [|done]. exfalso.
  apply (fo_view _ _ _ _ _ _ Hf u e Hu) in E. apply elem_of_app in E as [E|E].
  - apply Hb. apply list_elem_of_fmap. by exists (u, e).
  - apply space_ptes_key in E as (a & Hal & Hc & _); [|done]. by apply (proj1 (Forall_forall _ _) Hout a).
Qed.

(** A new area is empty until its pages are mapped. *)
Definition fresh_area (l r perm : Z) : MapArea := mkArea (mkRange l r) [] Framed perm.
Definition filled_area (l r perm : Z) (fs : list Z) : MapArea :=
  mkArea (mkRange l r) (zip (seqZ l (r - l)) fs) Framed perm.

Lemma fmap_fst_zip {A B} (xs : list A) (ys : list B) : length xs = length ys -> (zip xs ys).*1 = xs.
Proof. revert ys. induction xs as [|x xs IH]; intros [|y ys] H; cbn in *; [done..|]. f_equal. apply IH. lia. Qed.

Lemma fmap_snd_zip {A B} (xs : list A) (ys : list B) : length xs = length ys -> (zip xs ys).*2 = ys.
Proof. revert ys. induction xs as [|x xs IH]; intros [|y ys] H; cbn in *; [done..|]. f_equal. apply IH. lia. Qed.

Lemma filled_area_ok l r perm fs :
  0 <= l <= r -> r <= 2 ^ 27 -> in_width 8 perm -> length fs = Z.to_nat (r - l) -> area_ok (filled_area l r perm fs).
Proof.
  intros Hl Hr Hp Hn. split; cbn; try done. apply fmap_fst_zip. by rewrite length_seqZ.
Qed.

Lemma filled_area_frames l r perm fs : length fs = Z.to_nat (r - l) -> area_frames (filled_area l r perm fs) = fs.
Proof. intros Hn. unfold area_frames. cbn. apply fmap_snd_zip. by rewrite length_seqZ. Qed.

Lemma frames_ok_fresh lo base w pt l lab a :
  data_frames a = [] -> frames_ok lo base w pt l lab -> frames_ok lo base w pt (l ++ [a]) lab.
Proof.
  intros He [H1 H2 H3 H4].
  assert (Ef : space_frames (l ++ [a]) = space_frames l)
    by (rewrite space_frames_app, space_frames_single; unfold area_frames; by rewrite He, app_nil_r).
  assert (Ep : space_ptes (l ++ [a]) = space_ptes l)
    by (rewrite space_ptes_app, space_ptes_single; unfold area_ptes; by rewrite He, app_nil_r).
  split; rewrite ?Ef, ?Ep; done.
Qed.

(** What [push] does to a space: one more area, on zeroed frames. *)
Record pushed (lo : Z) (base : list (Z * Z)) (w w' : FrameWorld) (ms ms' : MemorySet) (lab' : gmap Z (list Z))
    (l r perm : Z) (fs : list Z) : Prop := {
  pu_len : length fs = Z.to_nat (r - l);
  pu_areas : areas ms' = areas ms ++ [filled_area l r perm fs];
  pu_ok : space_ok lo base w' ms' lab';
  pu_effect : ms_effect lo w w' (page_table ms) (page_table ms') fs;
  pu_avail : avail (fw_alloc w) - 3 * (r - l) <= avail (fw_alloc w');
}.

Lemma area_map_frames lo base w pt done lab l r perm :
  frames_ok lo base w pt done lab -> 0 <= l <= r -> r <= 2 ^ 27 -> in_width 8 perm ->
  (forall u, l <= u < r -> pt_view (fw_mem w) (root_ppn pt) u = None) -> 3 * (r - l) <= avail (fw_alloc w) ->
  exists fs pt' w' lab', area_map w (fresh_area l r perm) pt = Ret (filled_area l r perm fs, pt', w') /\
    length fs = Z.to_nat (r - l) /\ frames_ok lo base w' pt' (done ++ [filled_area l r perm fs]) lab' /\
    ms_effect lo w w' pt pt' fs /\ avail (fw_alloc w) - 3 * (r - l) <= avail (fw_alloc w') /\
    (forall f x, f ∈ fs -> in_frame f x -> load (fw_mem w') x = 0).
Proof.
  intros Hf Hl Hr Hp Hfree Hav.
  assert (Hn : Z.of_nat (Z.to_nat (r - l)) = r - l) by lia.
  destruct (map_pages_spec lo base done (Z.to_nat (r - l)) w pt (fresh_area l r perm) lab l)
    as (fs & pt' & w' & lab' & self' & E & Es & Hlen & Hok & Eff & Hav' & Hz);
    rewrite ?Hn; [by apply frames_ok_fresh|done|done|lia|lia|done|intros u Hu; apply Hfree; lia|lia|].
  rewrite Hn in *. change (self' = filled_area l r perm fs) in Es. subst self'.
  exists fs, pt', w', lab'. split_and!; [|done..].
  unfold area_map, range_iter. cbn [vpn_range fresh_area range_l range_r].
  rewrite range_collect_spec by lia. cbn [mbind outcome_bind]. exact E.
Qed.

Lemma area_map_spec lo base w ms lab l r perm :
  space_ok lo base w ms lab -> 0 <= l <= r -> r <= 2 ^ 27 -> in_width 8 perm ->
  (forall u, l <= u < r -> pt_view (fw_mem w) (root_ppn (page_table ms)) u = None) ->
  3 * (r - l) <= avail (fw_alloc w) ->
  exists fs pt' w' lab', area_map w (fresh_area l r perm) (page_table ms) = Ret (filled_area l r perm fs, pt', w') /\
    pushed lo base w w' ms {| page_table := pt'; areas := areas ms ++ [filled_area l r perm fs] |} lab' l r perm fs /\
    (forall f x, f ∈ fs -> in_frame f x -> load (fw_mem w') x = 0).
Proof.
  intros [Hf Ha] Hl Hr Hp Hfree Hav.
  destruct (area_map_frames lo base w (page_table ms) (areas ms) lab l r perm) as (fs & pt' & w' & lab' & E & Hlen & Hok & Eff & Hav' & Hz);
    [done..|].
  exists fs, pt', w', lab'. split_and!; [done| |done].
  split; try done. split; [done|]. apply Forall_app. split; [done|]. apply Forall_singleton. by apply filled_area_ok.
Qed.

(** ** Loading data into an area *)

Lemma pt_view_translate m pt vpn e :
  pt_view m (root_ppn pt) vpn = Some e -> translate m pt vpn = Some e.
Proof.
  unfold pt_view, translate. change (find_pte m {| root_ppn := root_ppn pt; pt_frames := [] |} vpn) with (find_pte m pt vpn).
  destruct (find_pte m pt vpn) as [s|]; [|done]. cbn. by destruct (is_valid (load_u64 m s)).
Qed.

Section CopyData.
Context (m : PhysMem) (pt : PageTable) (tables : list Z) (lab : gmap Z (list Z)) (l : Z) (fs data : list Z).
Hypothesis (Hwf : pt_wf m (root_ppn pt) tables lab) (Hl : 0 <= l <= 2 ^ 27) (Hnd : NoDup fs).
Hypothesis (Hfs : forall i f, fs !! i = Some f -> ppn_ok f /\ lab !! f = None /\
              exists e, translate m pt (l + Z.of_nat i) = Some e /\ pte_ppn e = f).

(** After [k] pages. *)
Definition copied (k : nat) (m' : PhysMem) : Prop :=
  (forall i f x, fs !! i = Some f -> in_frame f x ->
     load m' x = if decide (i < k)%nat
                 then default (load m x) (data !! Z.to_nat (4096 * Z.of_nat i + (x - f * 4096))) else load m x) /\
  (forall x, (forall f, f ∈ fs -> ~ in_frame f x) -> load m' x = load m x).

Lemma copied_tables k m' vpn : copied k m' -> translate m' pt vpn = translate m pt vpn.
Proof using Hwf Hfs.
  intros [_ Hout]. apply (translate_ext m m' pt tables lab vpn Hwf). intros g x Hg Hx. apply Hout.
  intros f Hf Hfx. assert (g = f) as -> by (by eapply in_frame_inj).
  apply list_elem_of_lookup in Hf as [i Hi]. destruct (Hfs i f Hi) as (_ & Hn & _). rewrite Hn in Hg. by destruct Hg.
Qed.

Lemma copied_step k m1 f src :
  copied k m1 -> fs !! k = Some f -> 4096 * Z.of_nat k <= Z.of_nat (length data) ->
  src = take (Z.to_nat (Z.min (Z.of_nat (length data)) (4096 * Z.of_nat k + 4096) - 4096 * Z.of_nat k))
          (drop (Z.to_nat (4096 * Z.of_nat k)) data) ->
  copied (S k) (store_bytes m1 (frame_base f) src).
Proof using Hnd Hfs.
  intros [Hin Hout] Hf Hk Esrc. destruct (Hfs k f Hf) as (Hfo & _ & _).
  assert (Hls : Z.of_nat (length src) = Z.min 4096 (Z.of_nat (length data) - 4096 * Z.of_nat k)).
  { rewrite Esrc, length_take, length_drop. lia. }
  assert (Hsrc : forall j, 0 <= j < Z.of_nat (length src) ->
            data !! Z.to_nat (4096 * Z.of_nat k + j) = Some (nth (Z.to_nat j) src 0)).
  { intros j Hj. destruct (lookup_lt_is_Some_2 src (Z.to_nat j)) as [b Hb]; [lia|].
    rewrite (nth_lookup_Some _ _ _ _ Hb). rewrite Esrc, lookup_take_lt, lookup_drop in Hb by lia.
    rewrite <- Hb. f_equal. lia. }
  split.
  - intros i g x Hg Hx. rewrite load_store_bytes, frame_base_mul by done. destruct (decide (i = k)) as [->|Hne].
    + assert (g = f) as -> by congruence. rewrite (decide_True (P := (k < S k)%nat)) by lia.
      unfold in_frame in Hx. case_decide as Hr.
      * by rewrite (Hsrc (x - f * 4096)) by lia.
      * rewrite (Hin k f x Hg) by (unfold in_frame; lia). rewrite decide_False by lia.
        rewrite lookup_ge_None_2 by lia. done.
    + assert (g <> f) by (intros ->; by apply Hne, (NoDup_lookup fs i k f)).
      rewrite decide_False by (unfold in_frame in Hx; lia). rewrite (Hin i g x) by done.
      repeat case_decide; (done || lia).
  - intros x Hx. rewrite load_store_bytes, frame_base_mul by done. rewrite decide_False; [by apply Hout|].
    intros Hr. apply (Hx f); [by eapply list_elem_of_lookup_2|]. unfold in_frame. lia.
Qed.

(** [copy_data] fills the frames of the area in order. *)
Lemma copy_data_spec a :
  map_type a = Framed -> range_l (vpn_range a) = l -> Z.of_nat (length data) <= 4096 * Z.of_nat (length fs) ->
  fs <> [] -> Z.of_nat (length fs) <= 2 ^ 27 ->
  exists m', copy_data m a pt data = Ret m' /\ copied (length fs) m'.
Proof using All.
  intros Hty Hla Hlen Hne Hmax. unfold copy_data. rewrite Hty, Hla, bool_decide_eq_true_2 by done. cbn [assert_ mbind outcome_bind].
  set (len := Z.of_nat (length data)) in *.
  apply (while_loop_spec (copy_data_body pt data)
    (fun s => exists k, s.1.2 = 4096 * Z.of_nat k /\ s.2 = l + Z.of_nat k /\ (k < length fs)%nat /\ copied k s.1.1 /\
       (k = 0%nat \/ 4096 * Z.of_nat k < len))
    (fun s => Z.to_nat (len / 4096 + 1 - s.1.2 / 4096))).
  - intros [[m1 start] vpn] (k & Es & Ev & Hk & Hc & Hlt). cbn in Es, Ev, Hc. subst start vpn.
    destruct (lookup_lt_is_Some_2 fs k Hk) as [f Hf]. destruct (Hfs k f Hf) as (Hfo & _ & e & He & Hpe).
    unfold copy_data_body. fold len. unfold PAGE_SIZE. unfold slice_range. fold len.
    assert (0 <= len) by lia.
    destruct (Z.leb_spec (4096 * Z.of_nat k) (Z.min len (4096 * Z.of_nat k + 4096))); [|lia].
    destruct (Z.leb_spec (Z.min len (4096 * Z.of_nat k + 4096)) len); [|lia]. cbn [andb mbind outcome_bind].
    rewrite (copied_tables k m1 _ Hc), He. cbn [unwrap mbind outcome_bind]. rewrite Hpe.
    pose proof (copied_step k m1 f _ Hc Hf ltac:(lia) eq_refl) as Hc'. fold len in Hc'.
    destruct (Z.leb_spec len (4096 * Z.of_nat k + 4096)); (eexists; split; [done|]); cbn.
    + destruct Hc' as [Hin Hout]. split; [|done]. intros i g x Hg Hx. rewrite (Hin i g x Hg Hx).
      pose proof (lookup_lt_Some _ _ _ Hg) as Hi. rewrite (decide_True (P := (i < length fs)%nat)) by done.
      case_decide; [done|]. unfold in_frame in Hx. rewrite lookup_ge_None_2; [done|]. lia.
    + split; [exists (S k); split_and!|].
      * lia.
      * unfold step. rewrite wrap_small by (unfold in_width; lia). lia.
      * lia.
      * done.
      * right. lia.
      * replace (4096 * Z.of_nat k + 4096) with (4096 * (Z.of_nat k + 1)) by lia.
        rewrite !(Z.mul_comm 4096), !Z.div_mul by lia.
        assert (Z.of_nat k + 1 <= len / 4096) by (apply Z.div_le_lower_bound; lia). lia.
  - exists 0%nat. cbn. destruct fs; [done|]. cbn. split_and!; try lia.
    split; [|done]. intros i f x _ _. by rewrite decide_False by lia.
  - cbn. unfold PAGE_SIZE. change (0 / 4096) with 0. pose proof (Z.div_pos len 4096). lia.
Qed.

End CopyData.

(** ** [push] *)

(** The frames of an area hold [data], padded with zeros. *)
Definition area_holds (m : PhysMem) (fs data : list Z) : Prop :=
  forall i f x, fs !! i = Some f -> in_frame f x ->
    load m x = default 0 (data !! Z.to_nat (4096 * Z.of_nat i + (x - f * 4096))).

Lemma filled_area_pte l r perm fs i f :
  length fs = Z.to_nat (r - l) -> fs !! i = Some f ->
  (l + Z.of_nat i, pte_new f (Z.lor perm PTE_V)) ∈ area_ptes (filled_area l r perm fs).
Proof.
  intros Hn Hi. unfold area_ptes. apply list_elem_of_fmap. exists (l + Z.of_nat i, f). split; [done|].
  cbn [data_frames filled_area]. apply list_elem_of_lookup. exists i. apply lookup_zip_with_Some.
  exists (l + Z.of_nat i), f. split_and!; [done| |done]. apply lookup_lt_Some in Hi. apply lookup_seqZ_lt. lia.
Qed.

(** Every page of an area translates to its frame. *)
Lemma area_translate lo base w ms lab l r perm fs i f :
  space_ok lo base w ms lab -> filled_area l r perm fs ∈ areas ms -> length fs = Z.to_nat (r - l) ->
  fs !! i = Some f ->
  translate (fw_mem w) (page_table ms) (l + Z.of_nat i) = Some (pte_new f (Z.lor perm PTE_V)) /\
  pte_ppn (pte_new f (Z.lor perm PTE_V)) = f /\ pte_flags (pte_new f (Z.lor perm PTE_V)) = Z.lor perm PTE_V.
Proof.
  intros [Hf Ha] Hin Hn Hi. pose proof (proj1 (Forall_forall _ _) Ha _ Hin) as [_ Hp Hr _]. cbn in Hp, Hr.
  pose proof (lookup_lt_Some _ _ _ Hi). split.
  - apply pt_view_translate, (fo_view _ _ _ _ _ _ Hf); [lia|]. apply elem_of_app. right.
    unfold space_ptes. apply list_elem_of_In, in_concat. exists (area_ptes (filled_area l r perm fs)).
    split; apply list_elem_of_In; [by apply list_elem_of_fmap_2|by apply filled_area_pte].
  - apply pte_new_fields; [|by apply (flag_bit_lor perm 0)].
    apply (live_ppn_ok lo (fw_alloc w)); [apply (fo_pt _ _ _ _ _ _ Hf)|]. apply (fo_live _ _ _ _ _ _ Hf).
    unfold space_frames. apply list_elem_of_In, in_concat. exists fs. split; apply list_elem_of_In.
    + apply list_elem_of_fmap. eexists. split; [|exact Hin]. symmetry. by apply filled_area_frames.
    + by eapply list_elem_of_lookup_2.
Qed.

Lemma frames_disjoint lo base w pt l lab f :
  frames_ok lo base w pt l lab -> f ∈ space_frames l -> (f ∉ pt_frames pt) /\ lab !! f = None /\ ppn_ok f.
Proof.
  intros [Hpt Hnd Hl _] Hf. assert (H : ~ (f ∈ pt_frames pt)) by (intros Hg; apply NoDup_app in Hnd as (_ & Hd & _); by apply (Hd f)).
  split_and!; [done| |].
  - destruct (lab !! f) eqn:E; [|done]. exfalso. apply H, (pw_dom _ _ _ _ (po_wf _ _ _ _ Hpt)). by eexists.
  - apply (live_ppn_ok lo (fw_alloc w)); [apply Hpt|by apply Hl].
Qed.

Lemma area_frames_in l a : a ∈ l -> forall f, f ∈ area_frames a -> f ∈ space_frames l.
Proof.
  intros Ha f Hf. unfold space_frames. apply list_elem_of_In, in_concat. exists (area_frames a).
  split; apply list_elem_of_In; [by apply list_elem_of_fmap_2|done].
Qed.

(** Writing the data frames of a space keeps the space. *)
Lemma space_ok_data lo base w m' ms lab :
  space_ok lo base w ms lab ->
  (forall x, (forall f, f ∈ space_frames (areas ms) -> ~ in_frame f x) -> load m' x = load (fw_mem w) x) ->
  space_ok lo base {| fw_mem := m'; fw_alloc := fw_alloc w |} ms lab.
Proof.
  intros [Hf Ha] Hx. split; [|done]. apply (frames_ok_ext lo base w); [done|apply (fo_pt _ _ _ _ _ _ Hf)|..].
  - intros f [Hg|Hg]%elem_of_app; [by apply (po_owned _ _ _ _ (fo_pt _ _ _ _ _ _ Hf))|by apply (fo_live _ _ _ _ _ _ Hf)].
  - intros f x Hg Hin. apply Hx. intros g Hg' Hin'. assert (f = g) as -> by (by eapply in_frame_inj).
    by destruct (frames_disjoint _ _ _ _ _ _ g Hf Hg').
Qed.

Lemma space_nodup lo base w ms lab a :
  space_ok lo base w ms lab -> a ∈ areas ms -> NoDup (area_frames a).
Proof.
  intros [Hf _] Ha. pose proof (fo_nodup _ _ _ _ _ _ Hf) as Hnd. apply NoDup_app in Hnd as (_ & _ & Hnd).
  apply list_elem_of_split in Ha as (l1 & l2 & E). rewrite E in Hnd.
  rewrite space_frames_app in Hnd. change (a :: l2) with ([a] ++ l2) in Hnd. rewrite space_frames_app, space_frames_single in Hnd.
  apply NoDup_app in Hnd as (_ & _ & Hnd). by apply NoDup_app in Hnd as (Hnd & _ & _).
Qed.

(** [push] maps the pages of the area to zeroed frames and fills them. *)
Lemma push_spec lo base w ms lab l r perm data :
  space_ok lo base w ms lab -> 0 <= l <= r -> r <= 2 ^ 27 -> in_width 8 perm ->
  (forall u, l <= u < r -> pt_view (fw_mem w) (root_ppn (page_table ms)) u = None) ->
  3 * (r - l) <= avail (fw_alloc w) ->
  match data with Some d => l < r /\ Z.of_nat (length d) <= 4096 * (r - l) | None => True end ->
  exists fs ms' w' lab', push w ms (fresh_area l r perm) data = Ret (ms', w') /\
    pushed lo base w w' ms ms' lab' l r perm fs /\ area_holds (fw_mem w') fs (default [] data).
Proof.
  intros Hok Hl Hr Hp Hfree Hav Hd.
  destruct (area_map_spec lo base w ms lab l r perm) as (fs & pt' & w' & lab' & E & Hpu & Hz); [done..|].
  unfold push. rewrite E. cbn [mbind outcome_bind]. destruct data as [d|]; cycle 1.
  { eexists fs, _, _, lab'. split_and!; [done|by destruct w'|]. intros i f x Hi Hx. cbn.
    apply (Hz f); [by eapply list_elem_of_lookup_2|done]. }
  set (a := filled_area l r perm fs). set (ms' := {| page_table := pt'; areas := areas ms ++ [a] |}).
  pose proof Hpu as [Hlen _ Hok' Heff Hav']. pose proof (so_frames _ _ _ _ _ Hok') as Hf'. cbn [page_table areas] in Hf'.
  assert (Ha : a ∈ areas ms') by (apply elem_of_app; right; by apply list_elem_of_singleton).
  assert (Hfin : forall f, f ∈ fs -> f ∈ space_frames (areas ms')).
  { intros f Hf. apply (area_frames_in _ a Ha). unfold a. by rewrite filled_area_frames. }
  destruct (copy_data_spec (fw_mem w') pt' (pt_frames pt') lab' l fs d) with (a := a) as (m' & Em & Hc); try done.
  - apply (fo_pt _ _ _ _ _ _ Hf').
  - lia.
  - rewrite <- (filled_area_frames l r perm fs Hlen). by apply (space_nodup lo base w' ms' lab').
  - intros i f Hi. destruct (frames_disjoint _ _ _ _ _ _ f Hf') as (_ & Hlab & Hfo).
    { apply Hfin. by eapply list_elem_of_lookup_2. }
    destruct (area_translate lo base w' ms' lab' l r perm fs i f) as (H1 & H2 & _); [done..|].
    split_and!; [done..|]. by eexists.
  - lia.
  - intros ->. cbn in Hlen. lia.
  - lia.
  - rewrite Em. cbn [mbind outcome_bind]. eexists fs, ms', _, lab'. split_and!; [done| |].
    + destruct Hc as [Hin Hout]. split; [done|done| | |done].
      * apply space_ok_data; [done|]. intros x Hx. apply Hout. intros f Hf. by apply Hx, Hfin.
      * destruct Heff as [R T O]. split; [done|done|]. intros x Hx. cbn. rewrite Hout; [by apply O|].
        intros f Hf. apply Hx. apply elem_of_app. by right.
    + intros i f x Hi Hx. cbn [fw_mem default from_option]. rewrite (proj1 Hc i f x Hi Hx), decide_True by (by eapply lookup_lt_Some).
      by rewrite (Hz f x) by (done || by eapply list_elem_of_lookup_2).
Qed.
