(* ===== verification/MemorySetSpec.v ===== *)
(** * Address spaces: what they hold

    A space seen from the program that runs in it: a list of [Region]s, each a
    range of pages with its permissions and contents.  [push] adds a region;
    [from_elf] builds the regions the image describes, with the user stack above
    them and the trap context below the trampoline. *)
From S2P Require Import Prelude Address Allocators PageTable PageTableFacts MemorySet MemorySetInv UserAccess UserAccessFacts.
Import Address Mem PageTable MemorySet UserAccess.

(** ** Regions *)

Definition TRAMPOLINE_VPN : Z := 2 ^ 27 - 1.
Definition TRAP_CONTEXT_VPN : Z := 2 ^ 27 - 2.

(** Pages [[rg_l, rg_r)]; the bytes past [rg_data] are zero. *)
Record Region : Type := mkRegion { rg_l : Z; rg_r : Z; rg_perm : Z; rg_data : list Z }.

Definition region_wf (g : Region) : Prop :=
  0 <= rg_l g <= rg_r g /\ rg_r g <= TRAMPOLINE_VPN /\ in_width 8 (rg_perm g) /\
  Z.of_nat (length (rg_data g)) <= 4096 * (rg_r g - rg_l g).

Definition in_region (g : Region) (u : Z) : Prop := rg_l g <= u < rg_r g.

Definition region_area (g : Region) (fs : list Z) : MapArea := filled_area (rg_l g) (rg_r g) (rg_perm g) fs.

Definition region_at (m : PhysMem) (g : Region) (a : MapArea) : Prop :=
  exists fs, a = region_area g fs /\ length fs = Z.to_nat (rg_r g - rg_l g) /\ area_holds m fs (rg_data g).

(** The areas of a space are those of a layout. *)
Definition laid_out (m : PhysMem) (l : list MapArea) (gs : list Region) : Prop := Forall2 (region_at m) gs l.

Lemma region_area_frames g fs : length fs = Z.to_nat (rg_r g - rg_l g) -> area_frames (region_area g fs) = fs.
Proof. apply filled_area_frames. Qed.

Lemma area_holds_ext m m' fs d :
  (forall f x, f ∈ fs -> in_frame f x -> load m' x = load m x) -> area_holds m fs d -> area_holds m' fs d.
Proof.
  intros Hx H i f x Hi Hin. rewrite (Hx f) by (done || by eapply list_elem_of_lookup_2). by apply (H i f x).
Qed.

Lemma laid_out_ext m m' l gs :
  (forall f x, f ∈ space_frames l -> in_frame f x -> load m' x = load m x) -> laid_out m l gs -> laid_out m' l gs.
Proof.
  intros Hx H. induction H as [|g a gs l (fs & -> & Hn & Hh) _ IH]; [by constructor|].
  change (region_area g fs :: l) with ([region_area g fs] ++ l) in Hx.
  rewrite space_frames_app, space_frames_single, region_area_frames in Hx by done.
  constructor; [|apply IH; intros f x Hf; apply Hx; apply elem_of_app; by right].
  exists fs. split_and!; [done..|]. apply (area_holds_ext m); [|done].
  intros f x Hf. apply Hx. apply elem_of_app. by left.
Qed.

Lemma laid_out_area m l gs g :
  laid_out m l gs -> g ∈ gs ->
  exists fs, region_area g fs ∈ l /\ length fs = Z.to_nat (rg_r g - rg_l g) /\ area_holds m fs (rg_data g).
Proof.
  intros H Hg. apply list_elem_of_lookup in Hg as [i Hi].
  destruct (Forall2_lookup_l _ _ _ _ _ H Hi) as (a & Ha & fs & -> & Hn & Hh).
  exists fs. split_and!; [by eapply list_elem_of_lookup_2|done..].
Qed.

Lemma laid_out_regions m l gs a :
  laid_out m l gs -> a ∈ l -> exists g fs, g ∈ gs /\ a = region_area g fs /\ length fs = Z.to_nat (rg_r g - rg_l g).
Proof.
  intros H Ha. apply list_elem_of_lookup in Ha as [i Hi].
  destruct (Forall2_lookup_r _ _ _ _ _ H Hi) as (g & Hg & fs & -> & Hn & _).
  exists g, fs. split_and!; [by eapply list_elem_of_lookup_2|done..].
Qed.

(** Space, layout and frame world together. *)
Record space_at (lo : Z) (base : list (Z * Z)) (w : FrameWorld) (ms : MemorySet) (lab : gmap Z (list Z))
    (gs : list Region) : Prop := {
  sa_ok : space_ok lo base w ms lab;
  sa_layout : laid_out (fw_mem w) (areas ms) gs;
  sa_regions : Forall region_wf gs;
}.

(** A region can be added where nothing is mapped. *)
Definition room_for (base : list (Z * Z)) (gs : list Region) (g : Region) : Prop :=
  forall u, in_region g u -> (u ∉ base.*1) /\ Forall (fun g' => ~ in_region g' u) gs.

Lemma room_unmapped lo base w ms lab gs g u :
  space_at lo base w ms lab gs -> room_for base gs g -> 0 <= u < 2 ^ 27 -> in_region g u ->
  pt_view (fw_mem w) (root_ppn (page_table ms)) u = None.
Proof.
  intros [Hok Hlay _] Hroom Hr Hu. destruct (Hroom u Hu) as [Hb Hgs]. apply (unmapped_outside lo base w ms lab); [done..|].
  apply Forall_forall. intros a Ha Hc. destruct (laid_out_regions _ _ _ a Hlay Ha) as (g' & fs & Hg' & -> & _).
  by apply (proj1 (Forall_forall _ _) Hgs g').
Qed.

(** ** [push] adds a region *)

Lemma space_frame_keeps lo base w w' ms lab pt' data :
  space_ok lo base w ms lab -> ms_effect lo w w' (page_table ms) pt' data ->
  forall f x, f ∈ space_frames (areas ms) -> in_frame f x -> load (fw_mem w') x = load (fw_mem w) x.
Proof.
  intros [Hf _] He f x Hfr Hx. apply (ms_effect_keeps lo w w' (page_table ms) pt' data f); [done| | |done].
  - by apply (fo_live _ _ _ _ _ _ Hf).
  - by apply (frames_disjoint _ _ _ _ _ _ f Hf).
Qed.

Lemma push_region lo base w ms lab gs g data :
  space_at lo base w ms lab gs -> region_wf g -> room_for base gs g -> 3 * (rg_r g - rg_l g) <= avail (fw_alloc w) ->
  match data with Some d => d = rg_data g /\ rg_l g < rg_r g | None => rg_data g = [] end ->
  exists fs ms' w' lab', push w ms (fresh_area (rg_l g) (rg_r g) (rg_perm g)) data = Ret (ms', w') /\
    space_at lo base w' ms' lab' (gs ++ [g]) /\ ms_effect lo w w' (page_table ms) (page_table ms') fs /\
    areas ms' = areas ms ++ [region_area g fs] /\ length fs = Z.to_nat (rg_r g - rg_l g) /\
    avail (fw_alloc w) - 3 * (rg_r g - rg_l g) <= avail (fw_alloc w').
Proof.
  intros Hsp Hg Hroom Hav Hd. pose proof Hg as (Hr & Hmax & Hp & Hlen). pose proof Hsp as [Hok Hlay Hgw].
  unfold TRAMPOLINE_VPN in Hmax.
  destruct (push_spec lo base w ms lab (rg_l g) (rg_r g) (rg_perm g) data)
    as (fs & ms' & w' & lab' & E & [Hn Ha Hok' Heff Hav'] & Hh); try done; [lia|..].
  { intros u Hu. apply (room_unmapped lo base w ms lab gs g); [done..|lia|done]. }
  { destruct data as [d|]; [|done]. destruct Hd as [-> ?]. split; [done|lia]. }
  exists fs, ms', w', lab'. split_and!; [done| |done..]. split; [done| |by apply Forall_app; split; [|apply Forall_singleton]].
  rewrite Ha. apply Forall2_app.
  - apply (laid_out_ext (fw_mem w)); [|done]. by eapply space_frame_keeps.
  - constructor; [|by constructor]. exists fs. split_and!; [done..|].
    destruct data as [d|]; [by destruct Hd as [-> _]|by rewrite Hd].
Qed.

(** ** What the program sees *)

Lemma in_width_lor_flags p : in_width 8 p -> in_width 8 (Z.lor p PTE_V).
Proof. apply (flag_bit_lor p 0). lia. Qed.

Lemma flags_contains_lor_V p i : 1 <= i -> flags_contains (Z.lor p PTE_V) (Z.shiftl 1 i) = flags_contains p (Z.shiftl 1 i).
Proof.
  intros Hi. rewrite !flags_contains_bit by lia. unfold PTE_V. rewrite testbit_set_bit by lia.
  by rewrite bool_decide_eq_false_2 by lia.
Qed.

Definition region_allows (g : Region) (write : bool) : bool :=
  flags_contains (rg_perm g) PTE_U && flags_contains (rg_perm g) (if write then PTE_W else PTE_R).

Lemma entry_allows_region g f write :
  pte_flags (pte_new f (Z.lor (rg_perm g) PTE_V)) = Z.lor (rg_perm g) PTE_V ->
  entry_allows (pte_new f (Z.lor (rg_perm g) PTE_V)) write = region_allows g write.
Proof.
  intros E. unfold entry_allows, region_allows. rewrite E.
  unfold PTE_U, PTE_W, PTE_R. rewrite !flags_contains_lor_V by lia. destruct (flags_contains (rg_perm g) (Z.shiftl 1 4)), write; done.
Qed.

(** User code may fetch an instruction from [a]. *)
Definition entry_executes (pte : Z) : bool :=
  is_valid pte && flags_contains (pte_flags pte) PTE_U && flags_contains (pte_flags pte) PTE_X.
Definition user_exec_ok (m : PhysMem) (pt : PageTable) (a : Z) : Prop :=
  exists pte, translate m pt (a / 4096) = Some pte /\ entry_executes pte = true.

Definition region_executes (g : Region) : bool := flags_contains (rg_perm g) PTE_U && flags_contains (rg_perm g) PTE_X.

Lemma entry_executes_region g f :
  pte_flags (pte_new f (Z.lor (rg_perm g) PTE_V)) = Z.lor (rg_perm g) PTE_V ->
  entry_executes (pte_new f (Z.lor (rg_perm g) PTE_V)) = region_executes g.
Proof.
  intros E. unfold entry_executes, region_executes. rewrite is_valid_testbit, E, Z.lor_spec.
  unfold PTE_U, PTE_X. rewrite !flags_contains_lor_V by lia. by rewrite orb_true_r.
Qed.

(** The pages of a space and their frames. *)
Definition space_pairs (l : list MapArea) : list (Z * Z) := concat (data_frames <$> l).

Lemma space_pairs_frames l : (space_pairs l).*2 = space_frames l.
Proof.
  unfold space_pairs, space_frames. induction l as [|a l IH]; [done|]. cbn. rewrite fmap_app, IH. done.
Qed.

Lemma NoDup_snd_inj (l : list (Z * Z)) x y f : NoDup (l.*2) -> (x, f) ∈ l -> (y, f) ∈ l -> x = y.
Proof.
  induction l as [|[u g] l IH]; [by intros _ ?%not_elem_of_nil|]. cbn. intros [Hn Hnd]%NoDup_cons.
  assert (Hnot : forall z, (z, g) ∈ l -> False).
  { intros z Hz. apply Hn, list_elem_of_fmap. by exists (z, g). }
  intros [[= -> ->]|Hx]%elem_of_cons [[= E]|Hy]%elem_of_cons; subst; [done|by destruct (Hnot y)|by destruct (Hnot x)|by apply IH].
Qed.

(** A byte of a region: where it is, what it holds, who may touch it. *)
Lemma region_byte lo base w ms lab gs g a :
  space_at lo base w ms lab gs -> g ∈ gs -> rg_l g * 4096 <= a < rg_r g * 4096 ->
  exists f, (a / 4096, f) ∈ space_pairs (areas ms) /\ ppn_ok f /\
    phys_of (fw_mem w) (page_table ms) a = f * 4096 + a mod 4096 /\
    load (fw_mem w) (phys_of (fw_mem w) (page_table ms) a) = default 0 (rg_data g !! Z.to_nat (a - rg_l g * 4096)) /\
    forall write, user_byte_ok (fw_mem w) (page_table ms) write a <-> region_allows g write = true.
Proof.
  intros [Hok Hlay Hgw] Hg Ha. pose proof (proj1 (Forall_forall _ _) Hgw g Hg) as (Hr & Hmax & Hp & Hlen).
  destruct (laid_out_area _ _ _ g Hlay Hg) as (fs & Hin & Hn & Hh).
  set (i := Z.to_nat (a / 4096 - rg_l g)).
  assert (Hi : Z.of_nat i = a / 4096 - rg_l g) by (unfold i; lia_mod).
  destruct (lookup_lt_is_Some_2 fs i) as [f Hf]; [lia_mod|].
  destruct (area_translate lo base w ms lab (rg_l g) (rg_r g) (rg_perm g) fs i f Hok Hin Hn Hf) as (Ht & Hppn & Hfl).
  replace (rg_l g + Z.of_nat i) with (a / 4096) in Ht by lia.
  assert (Hpair : (a / 4096, f) ∈ space_pairs (areas ms)).
  { unfold space_pairs. apply list_elem_of_In, in_concat. exists (data_frames (region_area g fs)).
    split; apply list_elem_of_In; [by apply list_elem_of_fmap_2|]. cbn. apply list_elem_of_lookup. exists i.
    apply lookup_zip_with_Some. exists (a / 4096), f. split_and!; [done| |done]. rewrite lookup_seqZ_lt by lia_mod. f_equal. lia_mod. }
  assert (Hfs : f ∈ space_frames (areas ms)).
  { rewrite <- space_pairs_frames. apply list_elem_of_fmap. by exists (a / 4096, f). }
  destruct (frames_disjoint _ _ _ _ _ _ f (so_frames _ _ _ _ _ Hok) Hfs) as (_ & _ & Hfo).
  assert (Hph : phys_of (fw_mem w) (page_table ms) a = f * 4096 + a mod 4096).
  { unfold phys_of. rewrite Ht. cbn [default from_option]. change (id ?x) with x. rewrite Hppn.
    by rewrite frame_base_mul by done. }
  exists f. split_and!; [done..| |].
  - rewrite Hph. rewrite (Hh i f) by (done || unfold in_frame; lia_mod). do 3 f_equal. lia_mod.
  - intros write. unfold user_byte_ok. rewrite Ht. rewrite <- (entry_allows_region g f write Hfl). naive_solver.
Qed.

(** The entry of a page of a region. *)
Lemma region_translate lo base w ms lab gs g a :
  space_at lo base w ms lab gs -> g ∈ gs -> rg_l g * 4096 <= a < rg_r g * 4096 ->
  exists f, translate (fw_mem w) (page_table ms) (a / 4096) = Some (pte_new f (Z.lor (rg_perm g) PTE_V)) /\
    pte_flags (pte_new f (Z.lor (rg_perm g) PTE_V)) = Z.lor (rg_perm g) PTE_V.
Proof.
  intros [Hok Hlay Hgw] Hg Ha. destruct (laid_out_area _ _ _ g Hlay Hg) as (fs & Hin & Hn & _).
  destruct (lookup_lt_is_Some_2 fs (Z.to_nat (a / 4096 - rg_l g))) as [f Hf]; [lia_mod|].
  destruct (area_translate lo base w ms lab (rg_l g) (rg_r g) (rg_perm g) fs _ f Hok Hin Hn Hf) as (Ht & _ & Hfl).
  exists f. split; [|done]. rewrite <- Ht. f_equal. lia_mod.
Qed.

Lemma region_exec lo base w ms lab gs g a :
  space_at lo base w ms lab gs -> g ∈ gs -> rg_l g * 4096 <= a < rg_r g * 4096 ->
  user_exec_ok (fw_mem w) (page_table ms) a <-> region_executes g = true.
Proof.
  intros Hsp Hg Ha. destruct (region_translate _ _ _ _ _ _ _ _ Hsp Hg Ha) as (f & Ht & Hfl).
  unfold user_exec_ok. rewrite Ht, <- (entry_executes_region g f Hfl). naive_solver.
Qed.

(** ** Building a space *)

(** The trampoline: in every space, in none of its areas. *)
Definition user_base (L : LinkerSymbols) : list (Z * Z) :=
  [(TRAMPOLINE_VPN, pte_new (strampoline L / 4096) (Z.lor (Z.lor PTE_R PTE_X) PTE_V))].

(** Where the linker script puts the trampoline. *)
Definition trampoline_ok (L : LinkerSymbols) : Prop := 0 <= strampoline L < 2 ^ 56 /\ strampoline L mod 4096 = 0.

Lemma bare_space lo L w :
  Frames.wf lo (fw_alloc w) -> trampoline_ok L -> 3 <= avail (fw_alloc w) ->
  exists ms w1 ms' w' lab',
    new_bare w = Ret (ms, w1) /\ map_trampoline L w1 ms = Ret (ms', w') /\
    space_at lo (user_base L) w' ms' lab' [] /\ areas ms' = [] /\
    ms_effect lo w w' {| root_ppn := root_ppn (page_table ms'); pt_frames := [] |} (page_table ms') [] /\
    avail (fw_alloc w) - 3 <= avail (fw_alloc w').
Proof.
  intros Ha [HL Hal] Hav. destruct (pt_new_spec lo w Ha) as (r & w1 & E & Hok & Heff & Hv); [lia|].
  set (pt := {| root_ppn := r; pt_frames := [r] |}) in *.
  pose proof (pe_avail _ _ _ _ _ _ Heff) as Hav1. cbn in Hav1.
  destruct (map_spec lo w1 pt {[r := []]} TRAMPOLINE_VPN (strampoline L / 4096) (Z.lor PTE_R PTE_X))
    as (pt' & w' & lab' & new & Em & Hok' & Heff' & Hn & Hview); [done|by vm_compute|..|lia|apply Hv|].
  { unfold ppn_ok. lia_mod. }
  { by vm_compute. }
  exists {| page_table := pt; areas := [] |}, w1, {| page_table := pt'; areas := [] |}, w', lab'. split_and!.
  - unfold new_bare. by rewrite E.
  - unfold map_trampoline. assert (Ev : page_num_from_addr (VirtAddr_from TRAMPOLINE) = Ret TRAMPOLINE_VPN) by (by vm_compute).
    rewrite Ev. cbn [mbind outcome_bind]. rewrite PhysAddr_from_small by done.
    unfold page_num_from_addr. rewrite page_offset_mod, Hal. change (0 =? 0) with true. cbn [assert_ mbind outcome_bind]. rewrite floor_div.
    cbn [page_table]. by rewrite Em.
  - split; [split; [split|done]|by constructor|done].
    + done.
    + cbn [areas page_table]. unfold space_frames. cbn. rewrite app_nil_r. apply (pw_nodup _ _ _ _ (po_wf _ _ _ _ Hok')).
    + intros f Hf. by apply not_elem_of_nil in Hf.
    + intros vpn e Hvpn. cbn [page_table areas]. rewrite (pe_root _ _ _ _ _ _ Heff'), Hview, Hv by done.
      unfold user_base, space_ptes. cbn [app fmap list_fmap concat]. rewrite list_elem_of_singleton.
      case_decide; naive_solver.
  - done.
  - cbn [page_table]. rewrite (pe_root _ _ _ _ _ _ Heff').
    exact (ms_effect_trans _ _ _ _ _ _ _ _ _ (pt_effect_ms _ _ _ _ _ _ Heff) (pt_effect_ms _ _ _ _ _ _ Heff')).
  - rewrite (pe_avail _ _ _ _ _ _ Heff'). lia.
Qed.

Lemma user_base_keys L u : 0 <= u < TRAMPOLINE_VPN -> u ∉ (user_base L).*1.
Proof. intros Hu. cbn. rewrite list_elem_of_singleton. lia. Qed.

(** ** The layout of a program *)

(** The loaded segments of an image, in order. *)
Definition load_phs (phs : list (option ProgramHeader)) : list ProgramHeader :=
  omap (fun o => ph ← o; if ph_is_load ph is Some true then Some ph else None) phs.

Definition seg_l (ph : ProgramHeader) : Z := ph_virtual_addr ph / 4096.
Definition seg_r (ph : ProgramHeader) : Z := (ph_virtual_addr ph + ph_mem_size ph + 4095) / 4096.

Definition seg_region (elf_data : list Z) (ph : ProgramHeader) : Region :=
  mkRegion (seg_l ph) (seg_r ph) (ph_perm ph)
    (take (Z.to_nat (ph_file_size ph)) (drop (Z.to_nat (ph_offset ph)) elf_data)).

Definition last_end (phs : list ProgramHeader) (max_end : Z) : Z := foldl (fun _ ph => seg_r ph) max_end phs.

Definition stack_region (end_ : Z) : Region := mkRegion (end_ + 1) (end_ + 3) (Z.lor (Z.lor PERM_R PERM_W) PERM_U) [].
Definition trap_region : Region := mkRegion TRAP_CONTEXT_VPN TRAMPOLINE_VPN (Z.lor PERM_R PERM_W) [].

Definition elf_layout (elf_data : list Z) (phs : list ProgramHeader) : list Region :=
  (seg_region elf_data <$> phs) ++ [stack_region (last_end phs 0); trap_region].

(** A segment the kernel can load: in the user half, above the one before it,
    with its bytes in the image. *)
Record seg_fits (n max_end : Z) (ph : ProgramHeader) : Prop := {
  sf_addr : 0 <= ph_virtual_addr ph /\ 0 < ph_mem_size ph /\ ph_virtual_addr ph + ph_mem_size ph <= 2 ^ 38;
  sf_above : max_end <= seg_l ph;
  sf_file : 0 <= ph_offset ph /\ 0 <= ph_file_size ph <= ph_mem_size ph /\ ph_offset ph + ph_file_size ph <= n;
}.

Fixpoint segs_fit (n max_end : Z) (phs : list ProgramHeader) : Prop :=
  match phs with [] => True | ph :: rest => seg_fits n max_end ph /\ segs_fit n (seg_r ph) rest end.

Definition seg_pages (phs : list ProgramHeader) : Z := foldr (fun ph n => seg_r ph - seg_l ph + n) 0 phs.

(** Headers [xmas_elf] can read. *)
Definition headers_ok (phs : list (option ProgramHeader)) : Prop :=
  Forall (fun o => exists ph b, o = Some ph /\ ph_is_load ph = Some b) phs.

Lemma ceil_val v : 0 <= v -> ceil v = (v + 4095) / 4096.
Proof. intros Hv. unfold ceil, PAGE_SIZE. destruct (Z.eqb_spec v 0) as [->|]; [done|]. f_equal. lia. Qed.

Lemma area_new_ok a b perm :
  0 <= a <= b -> b < 2 ^ 39 ->
  area_new (VirtAddr_from a) (VirtAddr_from b) Framed perm = Ret (fresh_area (a / 4096) ((b + 4095) / 4096) perm).
Proof.
  intros Ha Hb. unfold area_new. rewrite !VirtAddr_from_small by lia. rewrite floor_div, ceil_val by lia.
  unfold range_new. destruct (Z.leb_spec (a / 4096) ((b + 4095) / 4096)) as [_|Hc]; [done|]. exfalso. lia_mod.
Qed.

Lemma ph_perm_width ph : in_width 8 (ph_perm ph).
Proof. unfold ph_perm. destruct (ph_read ph), (ph_write ph), (ph_execute ph); by vm_compute. Qed.

Lemma seg_region_wf d max_end ph :
  seg_fits (Z.of_nat (length d)) max_end ph -> region_wf (seg_region d ph) /\ seg_l ph < seg_r ph <= 2 ^ 26.
Proof.
  intros [Ha _ Hf]. unfold region_wf, seg_region, seg_l, seg_r, TRAMPOLINE_VPN. cbn [rg_l rg_r rg_perm rg_data].
  rewrite length_take, length_drop. pose proof (ph_perm_width ph). split_and!; try done; lia_mod.
Qed.

Lemma load_phs_cons ph b rest :
  ph_is_load ph = Some b -> load_phs (Some ph :: rest) = (if b then [ph] else []) ++ load_phs rest.
Proof. intros E. unfold load_phs. cbn. rewrite E. by destruct b. Qed.

Lemma last_end_ge n phs : forall max_end, segs_fit n max_end phs -> max_end <= last_end phs max_end.
Proof.
  induction phs as [|ph phs IH]; intros max_end H; cbn in *; [lia|]. destruct H as [[Ha Hb _] H].
  apply IH in H. unfold last_end in H. unfold seg_l, seg_r in *. lia_mod.
Qed.

Lemma last_end_bound n phs : forall max_end, max_end <= 2 ^ 26 -> segs_fit n max_end phs -> last_end phs max_end <= 2 ^ 26.
Proof.
  induction phs as [|ph phs IH]; intros max_end Hm H; cbn in *; [lia|]. destruct H as [[Ha _ _] H].
  apply (IH (seg_r ph)); [|done]. unfold seg_r. lia_mod.
Qed.

Lemma seg_pages_nonneg n phs : forall max_end, segs_fit n max_end phs -> 0 <= seg_pages phs.
Proof.
  induction phs as [|ph phs IH]; intros max_end H; cbn in *; [done|]. destruct H as [[Ha _ _] H].
  apply IH in H. change (foldr _ 0 phs) with (seg_pages phs). unfold seg_l, seg_r. lia_mod.
Qed.

(** The segments, one [push] each. *)
Lemma load_segments_spec lo L (d : list Z) : Z.of_nat (length d) < 2 ^ 63 -> forall phs w ms lab gs max_end,
  space_at lo (user_base L) w ms lab gs -> Forall (fun g => rg_r g <= max_end) gs -> 0 <= max_end ->
  headers_ok phs -> segs_fit (Z.of_nat (length d)) max_end (load_phs phs) ->
  3 * seg_pages (load_phs phs) <= avail (fw_alloc w) ->
  exists ms' w' lab' fs, load_segments w ms d max_end phs = Ret (ms', w', last_end (load_phs phs) max_end) /\
    space_at lo (user_base L) w' ms' lab' (gs ++ (seg_region d <$> load_phs phs)) /\
    ms_effect lo w w' (page_table ms) (page_table ms') fs /\ space_frames (areas ms') = space_frames (areas ms) ++ fs /\
    avail (fw_alloc w) - 3 * seg_pages (load_phs phs) <= avail (fw_alloc w').
Proof.
  intros Hd phs. induction phs as [|o phs IH]; intros w ms lab gs max_end Hsp Hgs Hm Hph Hfit Hav.
  { exists ms, w, lab, []. cbn in *. rewrite !app_nil_r. split_and!; try done; [|lia].
    split; [done| |done]. exists []. cbn. rewrite app_nil_r. split_and!; [done| | |lia]; intros y; rewrite elem_of_nil; tauto. }
  apply Forall_cons in Hph as [(ph & b & -> & Eb) Hph]. rewrite (load_phs_cons ph b phs Eb) in *.
  cbn [load_segments unwrap mbind outcome_bind]. rewrite Eb. cbn [unwrap mbind outcome_bind].
  destruct b; cbn [app] in *; [|by apply (IH w ms lab gs max_end)].
  cbn [segs_fit seg_pages foldr] in Hfit, Hav |- *. destruct Hfit as [Hseg Hfit].
  destruct (seg_region_wf d max_end ph Hseg) as [Hwf Hlr]. pose proof Hseg as [Hadr Habv Hfile].
  rewrite (wrap_small 64 (ph_virtual_addr ph + _)), area_new_ok by (unfold in_width; lia). fold (seg_l ph). fold (seg_r ph). cbn [mbind outcome_bind].
  unfold slice_range. rewrite (wrap_small 64 (ph_offset ph + _)) by (unfold in_width; lia).
  destruct (Z.leb_spec (ph_offset ph) (ph_offset ph + ph_file_size ph)); [|lia].
  destruct (Z.leb_spec (ph_offset ph + ph_file_size ph) (Z.of_nat (length d))); [|lia]. cbn [andb mbind outcome_bind].
  replace (ph_offset ph + ph_file_size ph - ph_offset ph) with (ph_file_size ph) by lia.
  pose proof (seg_pages_nonneg _ _ _ Hfit) as Hpages.
  destruct (push_region lo (user_base L) w ms lab gs (seg_region d ph) (Some (rg_data (seg_region d ph))))
    as (fs & ms1 & w1 & lab1 & E & Hsp1 & Heff1 & Ha1 & Hn1 & Hav1); [done..| | |split; [done|cbn; lia]|].
  { intros u [Hu1 Hu2]. cbn in Hu1, Hu2. split; [apply user_base_keys; unfold TRAMPOLINE_VPN; unfold seg_l in *; lia_mod|].
    eapply Forall_impl; [exact Hgs|]. intros g Hg [_ Hr]. cbn in Hg. lia. }
  { change (foldr _ 0 (load_phs phs)) with (seg_pages (load_phs phs)) in Hav. cbn [rg_l rg_r seg_region]. lia. }
  cbn [rg_l rg_r rg_perm rg_data seg_region] in E, Hav1. rewrite E. cbn [mbind outcome_bind vpn_range fresh_area range_r].
  destruct (IH w1 ms1 lab1 (gs ++ [seg_region d ph]) (seg_r ph)) as (ms' & w' & lab' & fs' & E' & Hsp' & Heff' & Hfr' & Hav');
    [done| |lia|done|done|unfold seg_pages; lia|].
  { apply Forall_app. split; [|by apply Forall_singleton]. eapply Forall_impl; [exact Hgs|]. intros g Hg. cbn in Hg. lia. }
  exists ms', w', lab', (fs ++ fs'). split_and!.
  - exact E'.
  - rewrite <- app_assoc in Hsp'. exact Hsp'.
  - by eapply ms_effect_trans.
  - rewrite Hfr', Ha1, space_frames_app, space_frames_single, region_area_frames by done. by rewrite app_assoc.
  - unfold seg_pages in *. lia.
Qed.

(** ** [from_elf] *)

(** An image the kernel loads, and the frames it takes: three for each page at
    most, one being the data frame. *)
Record elf_fits (lo : Z) (L : LinkerSymbols) (read_elf : ElfReader) (w : FrameWorld) (elf_data : list Z) (elf : ElfFile) : Prop := {
  ef_alloc : Frames.wf lo (fw_alloc w);
  ef_trampoline : trampoline_ok L;
  ef_read : read_elf elf_data = Some elf;
  ef_magic : elf_magic elf = ELF_MAGIC;
  ef_headers : headers_ok (elf_program_headers elf);
  ef_len : Z.of_nat (length elf_data) < 2 ^ 63;
  ef_segs : segs_fit (Z.of_nat (length elf_data)) 0 (load_phs (elf_program_headers elf));
  ef_stack : last_end (load_phs (elf_program_headers elf)) 0 + 3 <= 2 ^ 26;
  ef_avail : 3 * seg_pages (load_phs (elf_program_headers elf)) + 12 <= avail (fw_alloc w);
}.

Definition elf_end (elf : ElfFile) : Z := last_end (load_phs (elf_program_headers elf)) 0.

Lemma seg_region_below d phs : forall max_end,
  segs_fit (Z.of_nat (length d)) max_end phs -> Forall (fun g => rg_r g <= last_end phs max_end) (seg_region d <$> phs).
Proof.
  induction phs as [|ph phs IH]; intros max_end H; [by constructor|]. destruct H as [Hs H].
  constructor; [|by apply (IH (seg_r ph))]. cbn. by eapply last_end_ge.
Qed.

Lemma from_elf_spec lo L read_elf w d elf :
  elf_fits lo L read_elf w d elf ->
  exists ms w' lab fs, from_elf L read_elf w d = Ret (ms, (elf_end elf + 3) * 4096, elf_entry_point elf, w') /\
    space_at lo (user_base L) w' ms lab (elf_layout d (load_phs (elf_program_headers elf))) /\
    ms_effect lo w w' {| root_ppn := root_ppn (page_table ms); pt_frames := [] |} (page_table ms) fs /\
    space_frames (areas ms) = fs /\
    avail (fw_alloc w) - (3 * seg_pages (load_phs (elf_program_headers elf)) + 12) <= avail (fw_alloc w').
Proof.
  intros [Ha HL Hrd Hmg Hhd Hlen Hsegs Hst Hav]. set (phs := load_phs (elf_program_headers elf)) in *.
  pose proof (last_end_ge _ _ _ Hsegs) as Hend. pose proof (seg_pages_nonneg _ _ _ Hsegs) as Hpg. fold phs in Hend, Hpg.
  destruct (bare_space lo L w Ha HL) as (ms0 & w0 & ms1 & w1 & lab1 & E0 & E1 & Hsp1 & Ear1 & Heff1 & Hav1); [lia|].
  destruct (load_segments_spec lo L d Hlen (elf_program_headers elf) w1 ms1 lab1 [] 0)
    as (ms2 & w2 & lab2 & fs2 & E2 & Hsp2 & Heff2 & Hfr2 & Hav2); [done|by constructor|lia|done|done|fold phs; lia|].
  fold phs in E2, Hsp2, Hav2. rewrite app_nil_l in Hsp2. set (end_ := last_end phs 0) in *.
  destruct (push_region lo (user_base L) w2 ms2 lab2 (seg_region d <$> phs) (stack_region end_) None)
    as (fs3 & ms3 & w3 & lab3 & E3 & Hsp3 & Heff3 & Har3 & Hn3 & Hav3); [done| | | |done|].
  { unfold region_wf, TRAMPOLINE_VPN. cbn. split_and!; [lia..|by vm_compute|lia]. }
  { intros u [Hu1 Hu2]. cbn in Hu1, Hu2. split; [apply user_base_keys; unfold TRAMPOLINE_VPN; lia|].
    eapply Forall_impl; [by apply seg_region_below|]. intros g Hg [_ Hr]. cbn in Hg. fold end_ in Hg. lia. }
  { cbn [rg_l rg_r stack_region]. lia. }
  destruct (push_region lo (user_base L) w3 ms3 lab3 ((seg_region d <$> phs) ++ [stack_region end_]) trap_region None)
    as (fs4 & ms4 & w4 & lab4 & E4 & Hsp4 & Heff4 & Har4 & Hn4 & Hav4); [done| | | |done|].
  { unfold region_wf. cbn. by vm_compute. }
  { intros u [Hu1 Hu2]. cbn in Hu1, Hu2. unfold TRAP_CONTEXT_VPN, TRAMPOLINE_VPN in *.
    split; [apply user_base_keys; unfold TRAMPOLINE_VPN; lia|]. apply Forall_app. split.
    - eapply Forall_impl; [by apply seg_region_below|]. intros g Hg [_ Hr]. cbn in Hg. fold end_ in Hg. lia.
    - apply Forall_singleton. intros [_ Hr]. cbn in Hr. lia. }
  { cbn in Hav3 |- *. unfold TRAMPOLINE_VPN, TRAP_CONTEXT_VPN. lia. }
  exists ms4, w4, lab4, (fs2 ++ fs3 ++ fs4). split_and!.
  - unfold from_elf. rewrite E0. cbn [mbind outcome_bind]. rewrite E1. cbn [mbind outcome_bind].
    rewrite Hrd. cbn [unwrap mbind outcome_bind]. rewrite Hmg, bool_decide_eq_true_2 by done. cbn [assert_ mbind outcome_bind].
    rewrite E2. cbn [mbind outcome_bind]. cbv zeta. rewrite addr_from_page_num_mul, usize_from_VirtAddr_low by lia.
    rewrite (wrap_small 64 (end_ * 4096 + PAGE_SIZE)) by (unfold in_width, PAGE_SIZE; lia).
    rewrite (wrap_small 64 (_ + USER_STACK_SIZE)) by (unfold in_width, PAGE_SIZE, USER_STACK_SIZE; lia).
    unfold PAGE_SIZE, USER_STACK_SIZE. rewrite (area_new_ok (end_ * 4096 + 4096)) by lia. cbn [mbind outcome_bind].
    replace ((end_ * 4096 + 4096) / 4096) with (end_ + 1) by lia_mod.
    replace ((end_ * 4096 + 4096 + 4096 * 2 + 4095) / 4096) with (end_ + 3) by lia_mod.
    cbn [rg_l rg_r rg_perm stack_region] in E3. rewrite E3. cbn [mbind outcome_bind].
    assert (Et : area_new (VirtAddr_from TRAP_CONTEXT) (VirtAddr_from TRAMPOLINE) Framed (Z.lor PERM_R PERM_W)
                 = Ret (fresh_area (rg_l trap_region) (rg_r trap_region) (rg_perm trap_region))) by (by vm_compute).
    rewrite Et. cbn [mbind outcome_bind]. rewrite E4. cbn [mbind outcome_bind]. unfold elf_end. fold phs. fold end_.
    do 3 f_equal. f_equal. lia.
  - unfold elf_layout. fold end_. rewrite <- app_assoc in Hsp4. exact Hsp4.
  - pose proof (ms_effect_trans _ _ _ _ _ _ _ _ _ Heff1 (ms_effect_trans _ _ _ _ _ _ _ _ _ Heff2
      (ms_effect_trans _ _ _ _ _ _ _ _ _ Heff3 Heff4))) as Heff.
    rewrite (me_root _ _ _ _ _ _ Heff4), (me_root _ _ _ _ _ _ Heff3), (me_root _ _ _ _ _ _ Heff2). exact Heff.
  - rewrite Har4, Har3, !space_frames_app, Hfr2, Ear1, !space_frames_single, !region_area_frames by done. cbn. by rewrite <- app_assoc.
  - fold phs. cbn in Hav3, Hav4. unfold TRAMPOLINE_VPN, TRAP_CONTEXT_VPN in Hav4. lia.
Qed.

(** ** What [from_elf] promises *)

Lemma from_token_root pt : ppn_ok (root_ppn pt) -> root_ppn (from_token (token pt)) = root_ppn pt.
Proof.
  intros Hr. unfold from_token, token. cbn [root_ppn]. rewrite land_low_bits by lia.
  assert (Hm : Z.lor (Z.shiftl 8 60) (root_ppn pt) mod 2 ^ 44 = root_ppn pt); [|by rewrite Hm, PhysPageNum_from_small].
  apply Z.bits_inj'. intros i Hi. rewrite Z.testbit_mod_pow2 by lia. rewrite Z.lor_spec, Z.shiftl_spec by lia.
  destruct (Z.ltb_spec i 44); cbn [andb].
  - rewrite (Z.testbit_neg_r 8) by lia. done.
  - symmetry. by apply (testbit_high 44).
Qed.

Lemma translate_root m pt pt' vpn : root_ppn pt = root_ppn pt' -> translate m pt vpn = translate m pt' vpn.
Proof. unfold translate, find_pte. by intros ->. Qed.

Lemma user_byte_ok_root m pt pt' wr a : root_ppn pt = root_ppn pt' -> user_byte_ok m pt wr a <-> user_byte_ok m pt' wr a.
Proof. intros E. unfold user_byte_ok. by rewrite (translate_root m pt pt'). Qed.

Lemma phys_of_root m pt pt' a : root_ppn pt = root_ppn pt' -> phys_of m pt a = phys_of m pt' a.
Proof. intros E. unfold phys_of. by rewrite (translate_root m pt pt'). Qed.

Lemma space_root lo base w ms lab : space_ok lo base w ms lab -> ppn_ok (root_ppn (page_table ms)).
Proof.
  intros [Hf _]. pose proof (po_wf _ _ _ _ (fo_pt _ _ _ _ _ _ Hf)) as Hwf.
  apply (pw_range _ _ _ _ Hwf). exists []. apply (pw_root _ _ _ _ Hwf).
Qed.

Lemma translate_zero m pt tables lab vpn e :
  pt_wf m (root_ppn pt) tables lab -> translate m pt vpn = Some e -> is_valid e = false -> e = 0.
Proof.
  intros Hwf Ht Hv. destruct (indexes_ok vpn) as (i0 & i1 & i2 & E & _ & _ & Hi2). unfold translate in Ht.
  destruct (find_pte m pt vpn) as [slot|] eqn:Ef; [|done]. injection Ht as <-.
  destruct (proj1 (find_pte_leaf m pt tables lab vpn i0 i1 i2 slot Hwf E) Ef) as (c & Hc & ->).
  by apply (pw_empty _ _ _ _ Hwf c i2); [by eexists|..].
Qed.

(** A page a program can use lies in some region. *)
Lemma user_page_region lo L w ms lab gs a pte :
  space_at lo (user_base L) w ms lab gs -> trampoline_ok L -> 0 <= a < 2 ^ 39 ->
  translate (fw_mem w) (page_table ms) (a / 4096) = Some pte -> flags_contains (pte_flags pte) PTE_U = true ->
  exists g, g ∈ gs /\ rg_l g * 4096 <= a < rg_r g * 4096.
Proof.
  intros [Hok Hlay _] [HL HL'] Ha Ht Hallow. pose proof Hok as [Hf Har].
  assert (Hval : is_valid pte = true).
  { apply not_false_iff_true. intros Hval.
    by rewrite (translate_zero _ _ _ _ _ _ (po_wf _ _ _ _ (fo_pt _ _ _ _ _ _ Hf)) Ht Hval) in Hallow. }
  assert (Hv : pt_view (fw_mem w) (root_ppn (page_table ms)) (a / 4096) = Some pte).
  { unfold pt_view. rewrite (translate_root _ _ (page_table ms)) by done. by rewrite Ht, Hval. }
  apply (fo_view _ _ _ _ _ _ Hf) in Hv; [|lia_mod]. apply elem_of_app in Hv as [Hv|Hv].
  - apply list_elem_of_singleton in Hv as [= _ ->]. exfalso.
    assert (Hfl : pte_flags (pte_new (strampoline L / 4096) (Z.lor (Z.lor PTE_R PTE_X) PTE_V)) = Z.lor (Z.lor PTE_R PTE_X) PTE_V).
    { apply pte_new_fields; [lia_mod|by vm_compute]. }
    by rewrite Hfl in Hallow.
  - apply space_ptes_key in Hv as (ar & Hin & Hc & _); [|done].
    destruct (laid_out_regions _ _ _ ar Hlay Hin) as (g & fs & Hg & -> & _). exists g. split; [done|].
    unfold covers in Hc. cbn in Hc. lia_mod.
Qed.

Lemma user_byte_region lo L w ms lab gs a write :
  space_at lo (user_base L) w ms lab gs -> trampoline_ok L -> 0 <= a < 2 ^ 39 ->
  user_byte_ok (fw_mem w) (page_table ms) write a ->
  exists g, g ∈ gs /\ rg_l g * 4096 <= a < rg_r g * 4096.
Proof.
  intros Hsp HL Ha (pte & Ht & Hallow). apply (user_page_region lo L w ms lab gs a pte); try done.
  unfold entry_allows in Hallow. by destruct (flags_contains (pte_flags pte) PTE_U).
Qed.

Lemma user_exec_region lo L w ms lab gs a :
  space_at lo (user_base L) w ms lab gs -> trampoline_ok L -> 0 <= a < 2 ^ 39 ->
  user_exec_ok (fw_mem w) (page_table ms) a ->
  exists g, g ∈ gs /\ rg_l g * 4096 <= a < rg_r g * 4096 /\ region_executes g = true.
Proof.
  intros Hsp HL Ha Hx. pose proof Hx as (pte & Ht & [[_ Hu]%andb_true_iff _]%andb_true_iff).
  destruct (user_page_region lo L w ms lab gs a pte) as (g & Hg & Hr); [done..|]. exists g. split; [done|]. split; [done|].
  by apply (region_exec lo (user_base L) w ms lab gs g a).
Qed.

(** Only the low 39 bits of an address count. *)
Lemma translate_wrap m pt vpn : translate m pt vpn = translate m pt (vpn mod 2 ^ 27).
Proof.
  unfold translate, find_pte. rewrite !indexes_value. change (2 ^ 18) with 262144. change (2 ^ 9) with 512. change (2 ^ 27) with 134217728.
  assert (E0 : vpn / 262144 mod 512 = vpn mod 134217728 / 262144 mod 512) by lia_mod.
  assert (E1 : vpn / 512 mod 512 = vpn mod 134217728 / 512 mod 512) by lia_mod.
  assert (E2 : vpn mod 512 = vpn mod 134217728 mod 512) by lia_mod.
  by rewrite E0, E1, E2.
Qed.

Lemma wrap_page a : a mod 2 ^ 39 / 4096 = a / 4096 mod 2 ^ 27 /\ a mod 2 ^ 39 mod 4096 = a mod 4096.
Proof. change (2 ^ 39) with 549755813888. change (2 ^ 27) with 134217728. split; lia_mod. Qed.

Lemma byte_ok_wrap m pt wr a : user_byte_ok m pt wr a <-> user_byte_ok m pt wr (a mod 2 ^ 39).
Proof. unfold user_byte_ok. destruct (wrap_page a) as [-> _]. by rewrite (translate_wrap m pt (a / 4096)). Qed.

Lemma phys_of_wrap m pt a : phys_of m pt a = phys_of m pt (a mod 2 ^ 39).
Proof. unfold phys_of. destruct (wrap_page a) as [-> ->]. by rewrite (translate_wrap m pt (a / 4096)). Qed.

(** A user byte is in a data frame of its space. *)
Lemma user_phys_frame lo L w ms lab gs a write :
  space_at lo (user_base L) w ms lab gs -> trampoline_ok L -> user_byte_ok (fw_mem w) (page_table ms) write a ->
  exists f, f ∈ space_frames (areas ms) /\ in_frame f (phys_of (fw_mem w) (page_table ms) a).
Proof.
  intros Hsp HL Hok. rewrite byte_ok_wrap in Hok. rewrite phys_of_wrap.
  assert (Ha : 0 <= a mod 2 ^ 39 < 2 ^ 39) by (apply Z.mod_pos_bound; lia). set (a' := a mod 2 ^ 39) in *.
  destruct (user_byte_region lo L w ms lab gs a' write) as (g & Hg & Hr); [done..|].
  destruct (region_byte lo (user_base L) w ms lab gs g a') as (f & Hf & _ & Hph & _); [done..|].
  exists f. split; [|rewrite Hph; unfold in_frame; lia_mod].
  rewrite <- space_pairs_frames. apply list_elem_of_fmap. by exists (a' / 4096, f).
Qed.

(** No user page is a page table: user stores cannot touch the tables. *)
Lemma space_isolated lo L w ms lab gs a write f :
  space_at lo (user_base L) w ms lab gs -> trampoline_ok L ->
  user_byte_ok (fw_mem w) (page_table ms) write a -> is_Some (lab !! f) ->
  ~ in_frame f (phys_of (fw_mem w) (page_table ms) a).
Proof.
  intros Hsp HL Hok Hf Hin. destruct (user_phys_frame lo L w ms lab gs a write Hsp HL Hok) as (f' & Hf' & Hin').
  assert (f = f') as -> by (by eapply in_frame_inj).
  destruct (frames_disjoint _ _ _ _ _ _ f' (so_frames _ _ _ _ _ (sa_ok _ _ _ _ _ _ Hsp)) Hf') as (_ & Hn & _).
  rewrite Hn in Hf. by destruct Hf.
Qed.

(** Two addresses of the regions are two bytes of memory. *)
Lemma space_inj lo base w ms lab gs g1 g2 a1 a2 :
  space_at lo base w ms lab gs -> g1 ∈ gs -> g2 ∈ gs ->
  rg_l g1 * 4096 <= a1 < rg_r g1 * 4096 -> rg_l g2 * 4096 <= a2 < rg_r g2 * 4096 ->
  phys_of (fw_mem w) (page_table ms) a1 = phys_of (fw_mem w) (page_table ms) a2 -> a1 = a2.
Proof.
  intros Hsp H1 H2 Ha1 Ha2 E.
  destruct (region_byte lo base w ms lab gs g1 a1 Hsp H1 Ha1) as (f1 & Hp1 & _ & Ef1 & _).
  destruct (region_byte lo base w ms lab gs g2 a2 Hsp H2 Ha2) as (f2 & Hp2 & _ & Ef2 & _).
  assert (f1 = f2) as -> by lia_mod.
  assert (a1 / 4096 = a2 / 4096); [|lia_mod]. apply (NoDup_snd_inj (space_pairs (areas ms)) _ _ f2); [|done..].
  rewrite space_pairs_frames. pose proof (fo_nodup _ _ _ _ _ _ (so_frames _ _ _ _ _ (sa_ok _ _ _ _ _ _ Hsp))) as Hnd.
  by apply NoDup_app in Hnd as (_ & _ & ?).
Qed.

Lemma seg_allows d ph write : region_allows (seg_region d ph) write = if write then ph_write ph else ph_read ph.
Proof. unfold region_allows, seg_region, ph_perm. cbn [rg_perm]. by destruct (ph_read ph), (ph_write ph), (ph_execute ph), write. Qed.

Lemma seg_executes d ph : region_executes (seg_region d ph) = ph_execute ph.
Proof. unfold region_executes, seg_region, ph_perm. cbn [rg_perm]. by destruct (ph_read ph), (ph_write ph), (ph_execute ph). Qed.

Lemma seg_region_in d elf ph :
  ph ∈ load_phs (elf_program_headers elf) -> seg_region d ph ∈ elf_layout d (load_phs (elf_program_headers elf)).
Proof. intros H. apply elem_of_app. left. by apply list_elem_of_fmap_2. Qed.

Lemma elf_layout_cases d phs g :
  g ∈ elf_layout d phs ->
  (exists ph, ph ∈ phs /\ g = seg_region d ph) \/ g = stack_region (last_end phs 0) \/ g = trap_region.
Proof.
  intros [(ph & -> & Hph)%list_elem_of_fmap|[->|[->|[]%not_elem_of_nil]%elem_of_cons]%elem_of_cons]%elem_of_app; [left; by exists ph|by right; left|by right; right].
Qed.

Lemma segs_fit_in n phs : forall max_end ph, segs_fit n max_end phs -> ph ∈ phs -> exists e, seg_fits n e ph.
Proof.
  induction phs as [|p phs IH]; intros max_end ph H Hin; [by apply not_elem_of_nil in Hin|]. destruct H as [Hp H].
  apply elem_of_cons in Hin as [->|Hin]; [by exists max_end|by eapply IH].
Qed.

(** The byte of a segment at offset [i]. *)
Lemma seg_byte d ph i :
  0 <= ph_offset ph -> 0 <= ph_file_size ph -> ph_offset ph + ph_file_size ph <= Z.of_nat (length d) -> 0 <= i ->
  default 0 (rg_data (seg_region d ph) !! Z.to_nat i)
  = if i <? ph_file_size ph then nth (Z.to_nat (ph_offset ph + i)) d 0 else 0.
Proof.
  intros Ho Hf Hn Hi. cbn. destruct (Z.ltb_spec i (ph_file_size ph)).
  - rewrite lookup_take_lt, lookup_drop by lia. replace (Z.to_nat (ph_offset ph) + Z.to_nat i)%nat with (Z.to_nat (ph_offset ph + i)) by lia.
    destruct (lookup_lt_is_Some_2 d (Z.to_nat (ph_offset ph + i))) as [b Hb]; [lia|]. rewrite Hb. cbn. symmetry. by apply nth_lookup_Some.
  - by rewrite lookup_take_ge by lia.
Qed.

(** C10: [MemorySet::from_elf] loads the program.  With frames enough, an image
    whose segments ascend in the user half yields an address space in which the
    user finds each segment's bytes of the file from the start of its first page
    (its address, when that is page-aligned), zeros after them, readable,
    writable and executable as the header says; a zeroed stack of two pages, not
    executable, ends at the returned pointer; nothing else is accessible from
    user mode, in particular not the guard page below the stack, the trap
    context or the trampoline, and nothing but a segment marked executable can
    be executed; no two user addresses share a byte; and every byte it uses was
    free before, while the contents of all frames in use are unchanged. *)
Theorem from_elf_loads_program lo L read_elf w d elf :
  elf_fits lo L read_elf w d elf ->
  let phs := load_phs (elf_program_headers elf) in
  let sp := (elf_end elf + 3) * 4096 in
  exists ms w', from_elf L read_elf w d = Ret (ms, sp, elf_entry_point elf, w') /\
    let m := fw_mem w' in let pt := page_table ms in
    (forall ph i, ph ∈ phs -> 0 <= i < (seg_r ph - seg_l ph) * 4096 ->
       let a := seg_l ph * 4096 + i in
       load m (phys_of m pt a) = (if i <? ph_file_size ph then nth (Z.to_nat (ph_offset ph + i)) d 0 else 0) /\
       (forall write, user_byte_ok m pt write a <-> (if write : bool then ph_write ph else ph_read ph) = true) /\
       (user_exec_ok m pt a <-> ph_execute ph = true)) /\
    (forall a, sp - USER_STACK_SIZE <= a < sp ->
       load m (phys_of m pt a) = 0 /\ (forall write, user_byte_ok m pt write a) /\ ~ user_exec_ok m pt a) /\
    (forall a write, 0 <= a < 2 ^ 39 -> user_byte_ok m pt write a ->
       sp - USER_STACK_SIZE <= a < sp \/ exists ph, ph ∈ phs /\ seg_l ph * 4096 <= a < seg_r ph * 4096) /\
    (forall a, 0 <= a < 2 ^ 39 -> user_exec_ok m pt a ->
       exists ph, ph ∈ phs /\ seg_l ph * 4096 <= a < seg_r ph * 4096 /\ ph_execute ph = true) /\
    (forall a b wa wb, 0 <= a < 2 ^ 39 -> 0 <= b < 2 ^ 39 -> user_byte_ok m pt wa a -> user_byte_ok m pt wb b ->
       phys_of m pt a = phys_of m pt b -> a = b) /\
    (forall a write f, 0 <= a < 2 ^ 39 -> user_byte_ok m pt write a -> in_frame f (phys_of m pt a) ->
       ~ Frames.live lo (fw_alloc w) f /\ Frames.live lo (fw_alloc w') f) /\
    (forall f x, Frames.live lo (fw_alloc w) f -> in_frame f x -> load m x = load (fw_mem w) x).
Proof.
  intros Hfit phs sp. destruct (from_elf_spec lo L read_elf w d elf Hfit) as (ms & w' & lab & fs & E & Hsp & Heff & Hfs & _).
  pose proof Hfit as [_ HL _ _ _ _ Hsegs Hst _]. fold phs in Hsegs, Hst, Hsp. exists ms, w'. split; [exact E|]. cbn zeta.
  assert (Hstack : stack_region (elf_end elf) ∈ elf_layout d phs) by (apply elem_of_app; right; by left).
  assert (Hend : sp - USER_STACK_SIZE = (elf_end elf + 1) * 4096) by (unfold sp, USER_STACK_SIZE; lia).
  assert (Hreg : forall a write, 0 <= a < 2 ^ 39 -> user_byte_ok (fw_mem w') (page_table ms) write a ->
            exists g, g ∈ elf_layout d phs /\ rg_l g * 4096 <= a < rg_r g * 4096).
  { intros a write Ha Hok. by apply (user_byte_region lo L w' ms lab _ a write). }
  split_and!.
  - intros ph i Hph Hi. destruct (segs_fit_in _ _ _ ph Hsegs Hph) as (e & [Hadr _ Hfile]).
    assert (Hg : seg_region d ph ∈ elf_layout d phs) by (by apply seg_region_in).
    assert (Ha : rg_l (seg_region d ph) * 4096 <= seg_l ph * 4096 + i < rg_r (seg_region d ph) * 4096) by (cbn; lia).
    destruct (region_byte lo (user_base L) w' ms lab _ (seg_region d ph) _ Hsp Hg Ha) as (f & _ & _ & _ & Hv & Hu).
    split_and!; [|intros write; by rewrite Hu, seg_allows|by rewrite (region_exec _ _ _ _ _ _ _ _ Hsp Hg Ha), seg_executes].
    rewrite Hv. replace (seg_l ph * 4096 + i - rg_l (seg_region d ph) * 4096) with i by (cbn; lia). apply seg_byte; lia.
  - intros a Ha. rewrite Hend in Ha.
    destruct (region_byte lo (user_base L) w' ms lab _ (stack_region (elf_end elf)) a Hsp Hstack Ha) as (f & _ & _ & _ & Hv & Hu).
    split_and!; [by rewrite Hv|intros write; apply Hu; by destruct write|]. by rewrite (region_exec _ _ _ _ _ _ _ _ Hsp Hstack Ha).
  - intros a write Ha Hok. destruct (Hreg a write Ha Hok) as (g & Hg & Hr).
    apply elf_layout_cases in Hg as [(ph & Hph & ->)|[->| ->]]; [right; by exists ph|left; rewrite Hend; exact Hr|exfalso].
    destruct (region_byte lo (user_base L) w' ms lab _ trap_region a Hsp) as (_ & _ & _ & _ & _ & Hu); [apply elem_of_app; right; right; by left|done|].
    apply Hu in Hok. by destruct write.
  - intros a Ha Hx. destruct (user_exec_region lo L w' ms lab _ a Hsp HL Ha Hx) as (g & Hg & Hr & He).
    apply elf_layout_cases in Hg as [(ph & Hph & ->)|[->| ->]]; [|done|done]. exists ph. by rewrite seg_executes in He.
  - intros a b wa wb Ha Hb Hoa Hob Eab. destruct (Hreg a wa Ha Hoa) as (g1 & H1 & Hr1). destruct (Hreg b wb Hb Hob) as (g2 & H2 & Hr2).
    by apply (space_inj lo (user_base L) w' ms lab _ g1 g2 a b Hsp).
  - intros a write f Ha Hok Hin. destruct (Hreg a write Ha Hok) as (g & Hg & Hr).
    destruct (region_byte lo (user_base L) w' ms lab _ g a Hsp Hg Hr) as (f' & Hp & _ & Ef & _).
    rewrite Ef in Hin. assert (f = f') as -> by (unfold in_frame in Hin; lia_mod).
    assert (Hf' : f' ∈ fs).
    { rewrite <- Hfs, <- space_pairs_frames. apply list_elem_of_fmap. by exists (a / 4096, f'). }
    destruct (me_tables _ _ _ _ _ _ Heff) as (tables & _ & Hlive & Hfresh & _).
    split; [apply Hfresh|apply Hlive; right]; apply elem_of_app; by right.
  - intros f x Hl Hin. apply (ms_effect_keeps lo w w' _ _ fs f x Heff Hl); [|done]. by intros ?%not_elem_of_nil.
Qed.
