(* ===== verification/MemorySetFork.v ===== *)
(** * Copying and dropping address spaces

    [from_existed_user] gives the child of a [fork] the bytes of its parent in
    frames of its own; [drop_memory_set] and [recycle_data_pages] give every
    frame back, once. *)
From S2P Require Import Prelude Address Allocators PageTable PageTableFacts MemorySet MemorySetInv MemorySetSpec UserAccess UserAccessFacts.
Import Address Mem PageTable MemorySet UserAccess.

(** ** Dropping *)

Lemma dealloc_avail a x a' : Frames.dealloc a x = Ret a' -> avail a' = avail a + 1.
Proof. unfold Frames.dealloc. case_if; [done|]. intros [= <-]. unfold avail. cbn [Frames.recycled Frames.end_ Frames.current length]. lia. Qed.

Lemma drop_frames_spec lo fs : forall w,
  Frames.wf lo (fw_alloc w) -> NoDup fs -> (forall f, f ∈ fs -> Frames.live lo (fw_alloc w) f) ->
  exists w', drop_frames w fs = Ret w' /\ fw_mem w' = fw_mem w /\ Frames.wf lo (fw_alloc w') /\
    (forall f, Frames.live lo (fw_alloc w') f <-> Frames.live lo (fw_alloc w) f /\ f ∉ fs) /\
    avail (fw_alloc w') = avail (fw_alloc w) + Z.of_nat (length fs).
Proof.
  induction fs as [|f fs IH]; intros w Ha Hnd Hl.
  { exists w. cbn. split_and!; [done..| |lia]. intros f. pose proof (not_elem_of_nil f). tauto. }
  apply NoDup_cons in Hnd as [Hf Hnd].
  destruct (frame_dealloc_live lo (fw_alloc w) f Ha) as (a & E & Hwf & Hlive); [apply Hl; by left|].
  destruct (IH {| fw_mem := fw_mem w; fw_alloc := a |}) as (w' & E' & Em & Ha' & Hlive' & Hav'); [done..| |].
  { intros g Hg. apply Hlive. split; [apply Hl; by right|by intros ->]. }
  exists w'. cbn [drop_frames]. unfold frame_dealloc. rewrite E. cbn [mbind outcome_bind]. split_and!; [done..| |].
  - intros g. rewrite Hlive', elem_of_cons. cbn. rewrite Hlive. tauto.
  - rewrite Hav'. cbn [fw_alloc length]. rewrite (dealloc_avail _ _ _ E). lia.
Qed.

(** All the frames of a space. *)
Definition ms_frames (ms : MemorySet) : list Z := pt_frames (page_table ms) ++ space_frames (areas ms).

Lemma ms_frames_live lo base w ms lab f :
  space_ok lo base w ms lab -> f ∈ ms_frames ms -> Frames.live lo (fw_alloc w) f.
Proof.
  intros [Hf _] [Hin|Hin]%elem_of_app; [by apply (po_owned _ _ _ _ (fo_pt _ _ _ _ _ _ Hf))|by apply (fo_live _ _ _ _ _ _ Hf)].
Qed.

Lemma drop_memory_set_spec lo base w ms lab :
  space_ok lo base w ms lab ->
  exists w', drop_memory_set w ms = Ret w' /\ fw_mem w' = fw_mem w /\ Frames.wf lo (fw_alloc w') /\
    (forall f, Frames.live lo (fw_alloc w') f <-> Frames.live lo (fw_alloc w) f /\ f ∉ ms_frames ms) /\
    avail (fw_alloc w') = avail (fw_alloc w) + Z.of_nat (length (ms_frames ms)).
Proof.
  intros Hok. pose proof Hok as [Hf _]. pose proof (fo_nodup _ _ _ _ _ _ Hf) as Hnd. apply NoDup_app in Hnd as (Hn1 & Hd & Hn2).
  destruct (drop_frames_spec lo (pt_frames (page_table ms)) w) as (w1 & E1 & Em1 & Ha1 & Hl1 & Hav1); [apply (fo_pt _ _ _ _ _ _ Hf)|done| |].
  { intros f Hin. by apply (po_owned _ _ _ _ (fo_pt _ _ _ _ _ _ Hf)). }
  destruct (drop_frames_spec lo (space_frames (areas ms)) w1) as (w2 & E2 & Em2 & Ha2 & Hl2 & Hav2); [done..| |].
  { intros f Hin. apply Hl1. split; [by apply (fo_live _ _ _ _ _ _ Hf)|]. intros Hin'. by apply (Hd f). }
  exists w2. unfold drop_memory_set. rewrite E1. cbn [mbind outcome_bind]. split_and!; [exact E2|congruence|done| |].
  - intros f. rewrite Hl2, Hl1. unfold ms_frames. rewrite elem_of_app. tauto.
  - rewrite Hav2, Hav1. unfold ms_frames. rewrite length_app. lia.
Qed.

(** ** Copying pages *)

Lemma copied_page m f f' :
  ppn_ok f -> ppn_ok f' -> forall x, load (store_bytes m (frame_base f') (load_bytes m (frame_base f) 4096)) x
  = if decide (in_frame f' x) then load m (f * 4096 + (x - f' * 4096)) else load m x.
Proof.
  intros Hf Hf' x. rewrite load_store_bytes, length_load_bytes, !frame_base_mul by done. unfold in_frame.
  repeat case_decide; try lia. rewrite (nth_lookup_Some _ _ _ (load m (f * 4096 + (x - f' * 4096)))); [done|].
  rewrite load_bytes_lookup by lia. do 2 f_equal. lia.
Qed.

Section CopyPages.
Context (src dst : MemorySet) (t1 t2 : list Z) (lab1 lab2 : gmap Z (list Z)).

Lemma copy_pages_spec fs' : forall fs l m,
  pt_wf m (root_ppn (page_table src)) t1 lab1 -> pt_wf m (root_ppn (page_table dst)) t2 lab2 ->
  length fs = length fs' -> NoDup fs' -> Forall ppn_ok fs ->
  (forall f, f ∈ fs' -> ppn_ok f /\ lab1 !! f = None /\ lab2 !! f = None /\ f ∉ fs) ->
  (forall i f, fs !! i = Some f -> exists e, translate m (page_table src) (l + Z.of_nat i) = Some e /\ pte_ppn e = f) ->
  (forall i f, fs' !! i = Some f -> exists e, translate m (page_table dst) (l + Z.of_nat i) = Some e /\ pte_ppn e = f) ->
  exists m', copy_pages m src dst (seqZ l (Z.of_nat (length fs'))) = Ret m' /\
    (forall i f f' j, fs !! i = Some f -> fs' !! i = Some f' -> 0 <= j < 4096 -> load m' (f' * 4096 + j) = load m (f * 4096 + j)) /\
    (forall x, (forall f, f ∈ fs' -> ~ in_frame f x) -> load m' x = load m x).
Proof.
  induction fs' as [|f' fs' IH]; intros [|f fs] l m Hw1 Hw2 Hlen Hnd Hfs Hfs' Ht1 Ht2; try done.
  { exists m. done. }
  apply NoDup_cons in Hnd as [Hni Hnd]. apply Forall_cons in Hfs as [Hf Hfs].
  destruct (Hfs' f') as (Hf' & Hl1 & Hl2 & Hff); [by left|].
  cbn [length]. rewrite seqZ_cons by lia. replace (Z.pred (Z.of_nat (S (length fs')))) with (Z.of_nat (length fs')) by lia.
  destruct (Ht1 0%nat f eq_refl) as (e1 & Hs1 & <-). destruct (Ht2 0%nat f' eq_refl) as (e2 & Hs2 & <-).
  rewrite Z.add_0_r in Hs1, Hs2. set (f := pte_ppn e1) in *. set (f' := pte_ppn e2) in *.
  cbn [copy_pages]. unfold ms_translate. rewrite Hs1, Hs2. cbn [unwrap mbind outcome_bind]. fold f f'.
  pose proof (copied_page m f f' Hf Hf') as Hm1. revert Hm1.
  generalize (store_bytes m (frame_base f') (load_bytes m (frame_base f) 4096)) as m1. intros m1 Hm1.
  assert (Hout : forall g x, g <> f' -> in_frame g x -> load m1 x = load m x).
  { intros g x Hg Hx. rewrite Hm1, decide_False; [done|]. intros Hx'. apply Hg. by eapply in_frame_inj. }
  assert (Htab : forall (lab : gmap Z (list Z)) g x, lab !! f' = None -> is_Some (lab !! g) -> in_frame g x -> load m1 x = load m x).
  { intros lab g x Hn Hg. apply Hout. intros ->. rewrite Hn in Hg. by destruct Hg. }
  destruct (IH fs (Z.succ l) m1) as (m' & E & Hin & Hrest).
  - apply (pt_wf_ext m); [done|]. intros g x. by apply (Htab lab1).
  - apply (pt_wf_ext m); [done|]. intros g x. by apply (Htab lab2).
  - by injection Hlen.
  - done.
  - done.
  - intros g Hg. destruct (Hfs' g) as (? & ? & ? & Hn); [by right|]. apply not_elem_of_cons in Hn as [_ Hn]. done.
  - intros i g Hi. destruct (Ht1 (S i) g Hi) as (e & He & Hp). exists e. split; [|done].
    replace (Z.succ l + Z.of_nat i) with (l + Z.of_nat (S i)) by lia. rewrite <- He.
    apply (translate_ext m m1 _ t1 lab1); [done|]. intros h x. by apply (Htab lab1).
  - intros i g Hi. destruct (Ht2 (S i) g Hi) as (e & He & Hp). exists e. split; [|done].
    replace (Z.succ l + Z.of_nat i) with (l + Z.of_nat (S i)) by lia. rewrite <- He.
    apply (translate_ext m m1 _ t2 lab2); [done|]. intros h x. by apply (Htab lab2).
  - exists m'. split_and!; [done|..].
    + intros [|i] g g' j Hg Hg' Hj; cbn in Hg, Hg'.
      * assert (g = f) as -> by congruence. assert (g' = f') as -> by congruence. rewrite Hrest, Hm1.
        -- rewrite decide_True by (unfold in_frame; lia). f_equal. lia.
        -- intros h Hh Hx. assert (h = f') as -> by (unfold in_frame in Hx; lia). done.
      * rewrite (Hin i g g' j Hg Hg' Hj). apply (Hout g); [|unfold in_frame; lia].
        intros ->. apply Hff, list_elem_of_lookup. by exists (S i).
    + intros x Hx. rewrite Hrest by (intros h Hh; apply Hx; by right). rewrite Hm1, decide_False; [done|]. apply Hx. by left.
Qed.

End CopyPages.

(** ** A space that is left alone *)

Lemma space_at_ext lo base w w' ms lab gs :
  space_at lo base w ms lab gs -> Frames.wf lo (fw_alloc w') ->
  (forall f, f ∈ ms_frames ms -> Frames.live lo (fw_alloc w') f) ->
  (forall f x, f ∈ ms_frames ms -> in_frame f x -> load (fw_mem w') x = load (fw_mem w) x) ->
  space_at lo base w' ms lab gs.
Proof.
  intros [[Hf Ha] Hl Hg] Hw Hlive Hx. split; [split; [|done]| |done].
  - apply (frames_ok_ext lo base w); [done..|]. intros f x Hin. apply Hx. apply elem_of_app. by left.
  - apply (laid_out_ext (fw_mem w)); [|done]. intros f x Hin. apply Hx. apply elem_of_app. by right.
Qed.

(** An operation on one space leaves another as it is. *)
Lemma space_at_other lo base w w' pt pt' data ms lab gs :
  space_at lo base w ms lab gs -> ms_effect lo w w' pt pt' data -> Frames.wf lo (fw_alloc w') ->
  (forall f, f ∈ ms_frames ms -> f ∉ pt_frames pt) -> space_at lo base w' ms lab gs.
Proof.
  intros Hsp Heff Hw Hd. assert (Hlive : forall f, f ∈ ms_frames ms -> Frames.live lo (fw_alloc w) f).
  { intros f. apply (ms_frames_live lo base w ms lab), Hsp. }
  apply (space_at_ext lo base w); [done|done| |].
  - intros f Hf. eapply ms_effect_live; [done|by apply Hlive].
  - intros f x Hf. apply (ms_effect_keeps lo w w' pt pt' data f x Heff); [by apply Hlive|by apply Hd].
Qed.

(** Two areas of a space cover different pages. *)
Lemma regions_apart lo base w ms lab gs1 g gs2 u :
  space_at lo base w ms lab (gs1 ++ g :: gs2) -> in_region g u -> Forall (fun g' => ~ in_region g' u) gs1.
Proof.
  intros [Hok Hlay Hgw] Hu. apply Forall_forall. intros g' Hg' Hu'.
  apply Forall2_app_inv_l in Hlay as (l1 & l2 & Hl1 & Hl2 & El).
  apply Forall2_cons_inv_l in Hl2 as (a & l3 & (fs & -> & Hn & _) & _ & ->).
  destruct (laid_out_area _ _ _ g' Hl1 Hg') as (fs' & Hin' & Hn' & _).
  assert (Hfind : forall h hs, length hs = Z.to_nat (rg_r h - rg_l h) -> region_area h hs ∈ areas ms -> in_region h u ->
            exists f, f ∈ hs /\ exists e, translate (fw_mem w) (page_table ms) u = Some e /\ pte_ppn e = f).
  { intros h hs Hl Hin [H1 H2]. destruct (lookup_lt_is_Some_2 hs (Z.to_nat (u - rg_l h))) as [f Hf]; [lia|].
    exists f. split; [by eapply list_elem_of_lookup_2|].
    destruct (area_translate lo base w ms lab (rg_l h) (rg_r h) (rg_perm h) hs _ f Hok Hin Hl Hf) as (Ht & Hp & _).
    replace (rg_l h + Z.of_nat (Z.to_nat (u - rg_l h))) with u in Ht by lia. by eexists. }
  destruct (Hfind g fs Hn) as (f & Hf & e & He & Ef); [rewrite El; apply elem_of_app; right; by left|done|].
  destruct (Hfind g' fs' Hn') as (f' & Hf' & e' & He' & Ef'); [rewrite El; apply elem_of_app; by left|done|].
  assert (f' = f) as -> by congruence.
  pose proof (fo_nodup _ _ _ _ _ _ (so_frames _ _ _ _ _ Hok)) as Hnd. apply NoDup_app in Hnd as (_ & _ & Hnd).
  rewrite El, space_frames_app in Hnd. apply NoDup_app in Hnd as (_ & Hd & _). apply (Hd f).
  - apply (area_frames_in _ _ Hin'). by rewrite region_area_frames.
  - apply (area_frames_in _ (region_area g fs)); [by left|by rewrite region_area_frames].
Qed.

(** ** Copying an area *)

Lemma space_frames_sub l l' f : (forall a, a ∈ l -> a ∈ l') -> f ∈ space_frames l -> f ∈ space_frames l'.
Proof.
  intros Hs. unfold space_frames. rewrite !list_elem_of_In, !in_concat. intros (fs & Hfs & Hf).
  apply list_elem_of_In, list_elem_of_fmap in Hfs as (a & -> & Ha). exists (area_frames a).
  split; [|done]. apply list_elem_of_In, list_elem_of_fmap_2. by apply Hs.
Qed.

Definition regions_pages (gs : list Region) : Z := foldr (fun g n => rg_r g - rg_l g + n) 0 gs.

Lemma regions_pages_nonneg gs : Forall region_wf gs -> 0 <= regions_pages gs.
Proof. induction 1 as [|g gs (H1 & _) _ IH]; cbn; [done|]. unfold regions_pages in IH. lia. Qed.

Definition empty_region (g : Region) : Region := mkRegion (rg_l g) (rg_r g) (rg_perm g) [].

(** Source and copy in one world. *)
Record copying (lo : Z) (L : LinkerSymbols) (w : FrameWorld) (src dst : MemorySet) (lab1 lab2 : gmap Z (list Z))
    (gs1 gs2 : list Region) : Prop := {
  cp_src : space_at lo (user_base L) w src lab1 gs1;
  cp_dst : space_at lo (user_base L) w dst lab2 gs2;
  cp_apart : forall f, f ∈ ms_frames src -> f ∉ ms_frames dst;
}.

(** The pages of one area, after [push] has mapped them. *)
Lemma copy_area_data lo L w src dst lab1 lab2 gs gs2 g fs fs' :
  copying lo L w src dst lab1 lab2 gs (gs2 ++ [empty_region g]) -> region_wf g ->
  region_area g fs ∈ areas src -> length fs = Z.to_nat (rg_r g - rg_l g) -> area_holds (fw_mem w) fs (rg_data g) ->
  region_area g fs' ∈ areas dst -> length fs' = Z.to_nat (rg_r g - rg_l g) ->
  (exists l, areas dst = l ++ [region_area g fs']) ->
  exists m', copy_pages (fw_mem w) src dst (seqZ (rg_l g) (rg_r g - rg_l g)) = Ret m' /\
    copying lo L {| fw_mem := m'; fw_alloc := fw_alloc w |} src dst lab1 lab2 gs (gs2 ++ [g]) /\
    (forall x, (forall f, f ∈ fs' -> ~ in_frame f x) -> load m' x = load (fw_mem w) x).
Proof.
  intros [Hsrc Hdst Hap] Hg Hin Hn Hh Hin' Hn' [l El]. pose proof Hg as (Hr & Hmax & Hp & Hdl).
  pose proof Hsrc as [Hok1 Hl1 Hw1]. pose proof Hdst as [Hok2 Hl2 Hw2].
  pose proof (so_frames _ _ _ _ _ Hok1) as Hf1. pose proof (so_frames _ _ _ _ _ Hok2) as Hf2.
  assert (Hfs : forall f, f ∈ fs -> f ∈ space_frames (areas src)).
  { intros f Hf. apply (area_frames_in _ _ Hin). by rewrite region_area_frames. }
  assert (Hfs' : forall f, f ∈ fs' -> f ∈ space_frames (areas dst)).
  { intros f Hf. apply (area_frames_in _ _ Hin'). by rewrite region_area_frames. }
  assert (Hlab1 : forall f, f ∈ fs' -> lab1 !! f = None).
  { intros f Hf. destruct (lab1 !! f) eqn:E; [|done]. exfalso. apply (Hap f); apply elem_of_app; [left|right; by apply Hfs'].
    apply (pw_dom _ _ _ _ (po_wf _ _ _ _ (fo_pt _ _ _ _ _ _ Hf1))). by eexists. }
  destruct (copy_pages_spec src dst (pt_frames (page_table src)) (pt_frames (page_table dst)) lab1 lab2 fs' fs (rg_l g) (fw_mem w))
    as (m' & E & Hcp & Hout).
  - apply (fo_pt _ _ _ _ _ _ Hf1).
  - apply (fo_pt _ _ _ _ _ _ Hf2).
  - lia.
  - rewrite <- (region_area_frames g fs') by done. by eapply space_nodup.
  - apply Forall_forall. intros f Hf. by apply (frames_disjoint _ _ _ _ _ _ f Hf1), Hfs.
  - intros f Hf. destruct (frames_disjoint _ _ _ _ _ _ f Hf2 (Hfs' f Hf)) as (_ & Hlb & Hfo). split_and!; [done|by apply Hlab1|done|].
    intros Hf'. apply (Hap f); apply elem_of_app; right; [by apply Hfs|by apply Hfs'].
  - intros i f Hi. destruct (area_translate lo (user_base L) w src lab1 (rg_l g) (rg_r g) (rg_perm g) fs i f) as (? & ? & _); [done..|]. by eexists.
  - intros i f Hi. destruct (area_translate lo (user_base L) w dst lab2 (rg_l g) (rg_r g) (rg_perm g) fs' i f) as (? & ? & _); [done..|]. by eexists.
  - rewrite Hn' in E. replace (Z.of_nat (Z.to_nat (rg_r g - rg_l g))) with (rg_r g - rg_l g) in E by lia.
    exists m'. split; [done|]. split; [|done]. split; [| |done].
    + apply (space_at_ext lo (user_base L) w); [done|apply (fo_pt _ _ _ _ _ _ Hf1)| |].
      * intros f. by apply (ms_frames_live lo (user_base L) w src lab1).
      * intros f x Hf Hx. apply Hout. intros f' Hf' Hx'. assert (f = f') as -> by (by eapply in_frame_inj).
        apply (Hap f'); [done|]. apply elem_of_app. right. by apply Hfs'.
    + split.
      * apply space_ok_data; [done|]. intros x Hx. apply Hout. intros f Hf. by apply Hx, Hfs'.
      * cbn [fw_mem]. rewrite El in Hl2, Hf2 |- *. unfold laid_out in Hl2. apply Forall2_app_inv in Hl2 as [Hl2 _];
          [|apply Forall2_length in Hl2; rewrite !length_app in Hl2; cbn in Hl2; lia].
        apply Forall2_app.
        -- apply (laid_out_ext (fw_mem w)); [|done]. intros f x Hf Hx. apply Hout. intros f' Hf' Hx'.
           assert (f = f') as -> by (by eapply in_frame_inj). pose proof (fo_nodup _ _ _ _ _ _ Hf2) as Hnd.
           apply NoDup_app in Hnd as (_ & _ & Hnd). rewrite space_frames_app, space_frames_single, region_area_frames in Hnd by done.
           apply NoDup_app in Hnd as (_ & Hd & _). by apply (Hd f').
        -- constructor; [|by constructor]. exists fs'. split_and!; [done..|]. intros i f' x Hi Hx.
           destruct (lookup_lt_is_Some_2 fs i) as [f Hf]; [apply lookup_lt_Some in Hi; lia|].
           pose proof (Hcp i f f' (x - f' * 4096) Hf Hi) as Hc. unfold in_frame in Hx. replace (f' * 4096 + (x - f' * 4096)) with x in Hc by lia.
           rewrite Hc by lia. rewrite (Hh i f) by (done || unfold in_frame; lia). do 3 f_equal. lia.
      * apply Forall_app in Hw2 as [Hw2 _]. apply Forall_app. split; [done|]. by apply Forall_singleton.
Qed.

Lemma from_another_region g fs : region_wf g -> from_another (region_area g fs) = Ret (fresh_area (rg_l g) (rg_r g) (rg_perm g)).
Proof. intros (Hr & _). unfold from_another, range_new. cbn. destruct (Z.leb_spec (rg_l g) (rg_r g)); [done|lia]. Qed.

Lemma space_at_wf lo base w ms lab gs : space_at lo base w ms lab gs -> Frames.wf lo (fw_alloc w).
Proof. intros Hsp. apply (fo_pt _ _ _ _ _ _ (so_frames _ _ _ _ _ (sa_ok _ _ _ _ _ _ Hsp))). Qed.

Lemma copying_push lo L w w1 src dst dst1 lab1 lab2 lab3 gs gs2 gs3 fs :
  copying lo L w src dst lab1 lab2 gs gs2 -> space_at lo (user_base L) w1 dst1 lab3 gs3 ->
  ms_effect lo w w1 (page_table dst) (page_table dst1) fs -> space_frames (areas dst1) = space_frames (areas dst) ++ fs ->
  copying lo L w1 src dst1 lab1 lab3 gs gs3.
Proof.
  intros [Hsrc Hdst Hap] Hsp Heff Ha. split; [|done|].
  - apply (space_at_other lo (user_base L) w w1 (page_table dst) (page_table dst1) fs); [done..|by eapply space_at_wf|].
    intros f Hf Hd. apply (Hap f Hf). apply elem_of_app. by left.
  - intros f Hf. destruct (me_tables _ _ _ _ _ _ Heff) as (tables & Et & _ & Hfresh & _).
    pose proof (ms_frames_live lo (user_base L) w src lab1 f (sa_ok _ _ _ _ _ _ Hsrc) Hf) as Hl.
    unfold ms_frames. rewrite Et, Ha. rewrite !elem_of_app. specialize (Hap f Hf). unfold ms_frames in Hap. rewrite elem_of_app in Hap.
    assert (Hn : ~ (f ∈ tables ++ fs)) by (intros Hin; by apply (Hfresh f)). rewrite elem_of_app in Hn. tauto.
Qed.

(** Stores into the new data frames are part of the effect. *)
Lemma ms_effect_data lo w w1 pt pt' data m' :
  ms_effect lo w w1 pt pt' data ->
  (forall x, (forall f, f ∈ data -> ~ in_frame f x) -> load m' x = load (fw_mem w1) x) ->
  ms_effect lo w {| fw_mem := m'; fw_alloc := fw_alloc w1 |} pt pt' data.
Proof.
  intros [R T O] Hx. split; [done|done|]. intros x Ho. cbn. rewrite Hx; [by apply O|].
  intros f Hf. apply Ho. apply elem_of_app. by right.
Qed.

Lemma copy_areas_spec lo L src lab1 gs todo : forall w dst lab2 gs2 gs1,
  copying lo L w src dst lab1 lab2 gs gs2 -> gs = gs2 ++ gs1 -> laid_out (fw_mem w) todo gs1 ->
  (forall a, a ∈ todo -> a ∈ areas src) -> 3 * regions_pages gs1 <= avail (fw_alloc w) ->
  exists dst' w' lab' fs, copy_areas w src dst todo = Ret (dst', w') /\
    copying lo L w' src dst' lab1 lab' gs gs /\ ms_effect lo w w' (page_table dst) (page_table dst') fs /\
    space_frames (areas dst') = space_frames (areas dst) ++ fs /\
    avail (fw_alloc w) - 3 * regions_pages gs1 <= avail (fw_alloc w').
Proof.
  induction todo as [|a todo IH]; intros w dst lab2 gs2 gs1 Hc Eg Hlay Hsub Hav.
  { apply Forall2_nil_inv_r in Hlay as ->. rewrite app_nil_r in Eg. subst gs2. exists dst, w, lab2, [].
    split_and!; [done|done| |by rewrite app_nil_r|cbn; lia]. split; [done| |done].
    exists []. cbn. rewrite app_nil_r. split_and!; [done| | |lia]; intros y; rewrite elem_of_nil; tauto. }
  apply Forall2_cons_inv_r in Hlay as (g & gs1' & (fs & -> & Hn & Hh) & Hlay & ->). subst gs. pose proof Hc as [Hsrc Hdst Hap].
  pose proof (proj1 (Forall_app _ _ _) (sa_regions _ _ _ _ _ _ Hsrc)) as [_ Hgw]. apply Forall_cons in Hgw as [Hg Hgw].
  pose proof (regions_pages_nonneg gs1' Hgw) as Hpg. cbn [regions_pages foldr] in Hav. change (foldr _ 0 gs1') with (regions_pages gs1') in Hav.
  pose proof Hg as (Hr & Hmax & Hp & _).
  assert (Hin : region_area g fs ∈ areas src) by (apply Hsub; by left).
  assert (Hsub' : forall b, b ∈ todo -> b ∈ areas src) by (intros b Hb; apply Hsub; by right).
  destruct (push_region lo (user_base L) w dst lab2 gs2 (empty_region g) None) as (fs' & dst1 & w1 & lab3 & E & Hsp1 & Heff1 & Ha1 & Hn1 & Hav1);
    [done| | |cbn; lia|done|].
  { unfold region_wf. cbn. split_and!; [lia..|done|lia]. }
  { intros u [Hu1 Hu2]. cbn in Hu1, Hu2. unfold TRAMPOLINE_VPN in Hmax. split; [apply user_base_keys; unfold TRAMPOLINE_VPN; lia|].
    by apply (regions_apart lo (user_base L) w src lab1 gs2 g gs1'). }
  change (region_area (empty_region g) fs') with (region_area g fs') in Ha1. cbn [rg_l rg_r rg_perm empty_region] in E, Hn1, Hav1.
  assert (Hfr1 : space_frames (areas dst1) = space_frames (areas dst) ++ fs').
  { by rewrite Ha1, space_frames_app, space_frames_single, region_area_frames. }
  pose proof (copying_push _ _ _ _ _ _ _ _ _ _ _ _ _ _ Hc Hsp1 Heff1 Hfr1) as Hc1.
  assert (Hkeep : forall f x, f ∈ ms_frames src -> in_frame f x -> load (fw_mem w1) x = load (fw_mem w) x).
  { intros f x Hf. apply (ms_effect_keeps lo w w1 _ _ fs' f x Heff1); [by apply (ms_frames_live lo (user_base L) w src lab1), Hf; apply Hsrc|].
    intros Hd. apply (Hap f Hf). apply elem_of_app. by left. }
  assert (Hkeep' : forall b f x, b ∈ areas src -> f ∈ area_frames b -> in_frame f x -> load (fw_mem w1) x = load (fw_mem w) x).
  { intros b f x Hb Hf. apply Hkeep. apply elem_of_app. right. by apply (area_frames_in _ _ Hb). }
  destruct (copy_area_data lo L w1 src dst1 lab1 lab3 (gs2 ++ g :: gs1') gs2 g fs fs') as (m' & Em & Hc2 & Hout); try done.
  { apply (area_holds_ext (fw_mem w)); [|done]. intros f x Hf. apply (Hkeep' (region_area g fs)); [done|by rewrite region_area_frames]. }
  { rewrite Ha1. apply elem_of_app. right. by apply list_elem_of_singleton. }
  { by eexists. }
  set (w2 := {| fw_mem := m'; fw_alloc := fw_alloc w1 |}) in *.
  assert (Heff2 : ms_effect lo w w2 (page_table dst) (page_table dst1) fs') by (by apply ms_effect_data).
  destruct (IH w2 dst1 lab3 (gs2 ++ [g]) gs1') as (dst' & w' & lab' & fs2 & E' & Hc' & Heff' & Hfr' & Hav'); [done|by rewrite <- app_assoc| | | |].
  { apply (laid_out_ext (fw_mem w1)); [|apply (laid_out_ext (fw_mem w)); [|done]].
    - intros f x Hf Hx. apply Hout. intros f' Hf' Hx'. assert (f = f') as -> by (by eapply in_frame_inj).
      apply (cp_apart _ _ _ _ _ _ _ _ _ Hc1 f').
      + apply elem_of_app. right. by apply (space_frames_sub todo).
      + apply elem_of_app. right. rewrite Hfr1. apply elem_of_app. by right.
    - intros f x Hf. apply Hkeep. apply elem_of_app. right. by apply (space_frames_sub todo). }
  { exact Hsub'. }
  { cbn [fw_alloc w2]. lia. }
  exists dst', w', lab', (fs' ++ fs2). split_and!.
  - cbn [copy_areas]. rewrite from_another_region by done. cbn [mbind outcome_bind]. rewrite E. cbn [mbind outcome_bind].
    unfold range_iter. cbn [vpn_range region_area filled_area range_l range_r]. unfold TRAMPOLINE_VPN in Hmax.
    rewrite range_collect_spec by lia. cbn [mbind outcome_bind]. rewrite Em. cbn [mbind outcome_bind]. exact E'.
  - exact Hc'.
  - by eapply ms_effect_trans.
  - by rewrite Hfr', Hfr1, <- app_assoc.
  - cbn [regions_pages foldr]. change (foldr _ 0 gs1') with (regions_pages gs1'). cbn [fw_alloc w2] in Hav'. lia.
Qed.

(** ** The layout of any space *)

Definition area_region (m : PhysMem) (a : MapArea) : Region :=
  mkRegion (range_l (vpn_range a)) (range_r (vpn_range a)) (map_perm a)
    (concat ((fun f => load_bytes m (frame_base f) 4096) <$> area_frames a)).

Lemma lookup_concat_pages (ls : list (list Z)) (k i j : nat) :
  Forall (fun l => length l = k) ls -> (j < k)%nat -> concat ls !! (k * i + j)%nat = (l ← ls !! i; l !! j).
Proof.
  intros H Hj. revert i. induction H as [|l ls Hl _ IH]; intros i; [done|]. cbn [concat]. destruct i as [|i].
  - rewrite Nat.mul_0_r, Nat.add_0_l, lookup_app_l by lia. done.
  - rewrite lookup_app_r by lia. replace (k * S i + j - length l)%nat with (k * i + j)%nat by lia. apply IH.
Qed.

Lemma length_concat_pages (ls : list (list Z)) (k : nat) :
  Forall (fun l => length l = k) ls -> length (concat ls) = (k * length ls)%nat.
Proof. induction 1 as [|l ls Hl _ IH]; cbn; [lia|]. rewrite length_app, IH. lia. Qed.

Lemma area_region_at lo m a w :
  area_ok a -> Frames.wf lo (fw_alloc w) -> (forall f, f ∈ area_frames a -> Frames.live lo (fw_alloc w) f) ->
  region_at m (area_region m a) a.
Proof.
  intros [Hfr Hp Hr Hk] Hw Hl. destruct a as [[l r] t ty perm]. cbn in *. subst ty.
  assert (Hn : length (t.*2) = Z.to_nat (r - l)).
  { rewrite length_fmap. rewrite <- (length_fmap fst t), Hk. by rewrite length_seqZ. }
  exists (t.*2). split_and!; [|done|].
  - unfold region_area, filled_area. cbn. f_equal. rewrite <- Hk. clear. induction t as [|[u f] t IH]; [done|]. cbn. by f_equal.
  - intros i f x Hi Hx. cbn [rg_data area_region]. unfold in_frame in Hx. unfold area_frames. cbn [data_frames].
    assert (Hf : ppn_ok f) by (apply (live_ppn_ok lo (fw_alloc w)); [done|apply Hl; by eapply list_elem_of_lookup_2]).
    replace (Z.to_nat (4096 * Z.of_nat i + (x - f * 4096))) with (4096 * i + Z.to_nat (x - f * 4096))%nat by lia.
    rewrite lookup_concat_pages by (lia || (apply Forall_forall; intros y (g & -> & _)%list_elem_of_fmap; by rewrite length_load_bytes)).
    rewrite list_lookup_fmap, Hi. cbn [fmap option_fmap option_map mbind option_bind].
    rewrite load_bytes_lookup by lia. cbn [default from_option]. unfold id. rewrite frame_base_mul by done. f_equal. lia.
Qed.

Definition below_trampoline (l : list MapArea) : Prop := Forall (fun a => range_r (vpn_range a) <= TRAMPOLINE_VPN) l.

Lemma space_has_layout lo base w ms lab :
  space_ok lo base w ms lab -> below_trampoline (areas ms) ->
  space_at lo base w ms lab (area_region (fw_mem w) <$> areas ms).
Proof.
  intros Hok Hb. pose proof Hok as [Hf Ha]. split; [done| |].
  - unfold laid_out. apply Forall2_fmap_l, Forall2_same_length_lookup. split; [done|]. intros i a b Ea Eb.
    assert (a = b) as -> by congruence. apply (area_region_at lo _ _ w).
    + apply (Forall_lookup_1 _ _ _ _ Ha Ea).
    + apply (fo_pt _ _ _ _ _ _ Hf).
    + intros f Hin. apply (fo_live _ _ _ _ _ _ Hf). apply (area_frames_in _ b); [by eapply list_elem_of_lookup_2|done].
  - apply Forall_fmap, Forall_forall. intros a Hin. pose proof (proj1 (Forall_forall _ _) Ha a Hin) as [Hfr Hp [Hr1 Hr2] Hk].
    pose proof (proj1 (Forall_forall _ _) Hb a Hin) as Hr3. cbn in Hr3. unfold region_wf. cbn. split_and!; [lia..|done|].
    rewrite (length_concat_pages _ 4096) by (apply Forall_forall; intros y (g & -> & _)%list_elem_of_fmap; by rewrite length_load_bytes).
    rewrite length_fmap. unfold area_frames. rewrite length_fmap, <- (length_fmap fst (data_frames a)), Hk, length_seqZ.
    rewrite Nat2Z.inj_mul, Z2Nat.id by lia. lia.
Qed.

(** ** [from_existed_user] *)

Lemma from_existed_user_spec lo L w src lab gs :
  space_at lo (user_base L) w src lab gs -> trampoline_ok L -> 3 * regions_pages gs + 3 <= avail (fw_alloc w) ->
  exists dst w' lab' fs, from_existed_user L w src = Ret (dst, w') /\
    copying lo L w' src dst lab lab' gs gs /\
    ms_effect lo w w' {| root_ppn := root_ppn (page_table dst); pt_frames := [] |} (page_table dst) fs /\
    space_frames (areas dst) = fs /\ avail (fw_alloc w) - (3 * regions_pages gs + 3) <= avail (fw_alloc w').
Proof.
  intros Hsp HL Hav. pose proof (regions_pages_nonneg gs (sa_regions _ _ _ _ _ _ Hsp)) as Hpg.
  destruct (bare_space lo L w (space_at_wf _ _ _ _ _ _ Hsp) HL) as (ms0 & w0 & ms1 & w1 & lab1 & E0 & E1 & Hsp1 & Ear1 & Heff1 & Hav1); [lia|].
  assert (Hsrc1 : space_at lo (user_base L) w1 src lab gs).
  { eapply (space_at_other lo (user_base L) w w1); [done|done|by eapply space_at_wf|]. cbn. intros f _. apply not_elem_of_nil. }
  assert (Hc1 : copying lo L w1 src ms1 lab lab1 gs []).
  { split; [done|done|]. intros f Hf. unfold ms_frames. rewrite Ear1. change (space_frames []) with (@nil Z). rewrite app_nil_r.
    destruct (me_tables _ _ _ _ _ _ Heff1) as (tables & Et & _ & Hfresh & _). rewrite Et. cbn [app pt_frames].
    intros Hin. apply (Hfresh f); [by rewrite app_nil_r|]. apply (ms_frames_live lo (user_base L) w src lab); [apply Hsp|done]. }
  destruct (copy_areas_spec lo L src lab gs (areas src) w1 ms1 lab1 [] gs) as (dst & w' & lab' & fs & E & Hc & Heff & Hfr & Hav');
    [done|done|apply Hsrc1|done|lia|].
  exists dst, w', lab', fs. split_and!.
  - unfold from_existed_user. rewrite E0. cbn [mbind outcome_bind]. rewrite E1. cbn [mbind outcome_bind]. exact E.
  - done.
  - rewrite (me_root _ _ _ _ _ _ Heff). exact (ms_effect_trans _ _ _ _ _ _ _ _ _ Heff1 Heff).
  - by rewrite Hfr, Ear1.
  - lia.
Qed.

Lemma same_regions_byte lo L w src dst lab1 lab2 gs g a :
  copying lo L w src dst lab1 lab2 gs gs -> g ∈ gs -> rg_l g * 4096 <= a < rg_r g * 4096 ->
  load (fw_mem w) (phys_of (fw_mem w) (page_table dst) a) = load (fw_mem w) (phys_of (fw_mem w) (page_table src) a) /\
  forall write, user_byte_ok (fw_mem w) (page_table dst) write a <-> user_byte_ok (fw_mem w) (page_table src) write a.
Proof.
  intros [Hs Hd _] Hg Ha.
  destruct (region_byte lo (user_base L) w src lab1 gs g a Hs Hg Ha) as (f1 & _ & _ & _ & Hv1 & Hu1).
  destruct (region_byte lo (user_base L) w dst lab2 gs g a Hd Hg Ha) as (f2 & _ & _ & _ & Hv2 & Hu2).
  split; [congruence|]. intros write. by rewrite Hu1, Hu2.
Qed.

Lemma regions_disjoint lo L w src dst lab1 lab2 gs1 gs2 g1 g2 a b :
  copying lo L w src dst lab1 lab2 gs1 gs2 -> g1 ∈ gs1 -> g2 ∈ gs2 ->
  rg_l g1 * 4096 <= a < rg_r g1 * 4096 -> rg_l g2 * 4096 <= b < rg_r g2 * 4096 ->
  phys_of (fw_mem w) (page_table src) a <> phys_of (fw_mem w) (page_table dst) b.
Proof.
  intros [Hs Hd Hap] H1 H2 Ha Hb E.
  destruct (region_byte lo (user_base L) w src lab1 gs1 g1 a Hs H1 Ha) as (f1 & Hp1 & _ & E1 & _).
  destruct (region_byte lo (user_base L) w dst lab2 gs2 g2 b Hd H2 Hb) as (f2 & Hp2 & _ & E2 & _).
  assert (f1 = f2) as -> by lia_mod. apply (Hap f2); apply elem_of_app; right; rewrite <- space_pairs_frames;
    apply list_elem_of_fmap; [by exists (a / 4096, f2)|by exists (b / 4096, f2)].
Qed.

Lemma regions_pages_areas m m' l : regions_pages (area_region m <$> l) = regions_pages (area_region m' <$> l).
Proof. induction l as [|a l IH]; [done|]. unfold regions_pages in *. cbn. by rewrite IH. Qed.

Lemma space_at_below lo base w ms lab gs : space_at lo base w ms lab gs -> below_trampoline (areas ms).
Proof.
  intros [_ Hlay Hgs]. apply Forall_forall. intros a Ha.
  destruct (laid_out_regions _ _ _ a Hlay Ha) as (g & fs & Hg & -> & _).
  by destruct (proj1 (Forall_forall _ _) Hgs g Hg) as (_ & H & _).
Qed.

(** The pages of the areas, as addresses. *)
Definition mapped (ms : MemorySet) (a : Z) : Prop := exists ar, ar ∈ areas ms /\ covers ar (a / 4096).

Lemma mapped_region lo base w ms lab gs a :
  space_at lo base w ms lab gs -> mapped ms a <-> exists g, g ∈ gs /\ rg_l g * 4096 <= a < rg_r g * 4096.
Proof.
  intros [_ Hlay _]. split.
  - intros (ar & Hin & Hc). destruct (laid_out_regions _ _ _ ar Hlay Hin) as (g & fs & Hg & -> & _). exists g.
    split; [done|]. unfold covers in Hc. cbn in Hc. lia_mod.
  - intros (g & Hg & Ha). destruct (laid_out_area _ _ _ g Hlay Hg) as (fs & Hin & _). exists (region_area g fs).
    split; [done|]. unfold covers. cbn. lia_mod.
Qed.

(** [fork] copies the address space.  For any well-formed space and enough
    free frames, [from_existed_user] returns a space in which every mapped byte
    (the user's and the trap context) has the parent's value, every user
    address the same access rights; no byte of the child is a byte of the
    parent; and everything that was in use before, the parent's memory
    included, is unchanged. *)
Theorem fork_copies_address_space lo L w src lab :
  space_ok lo (user_base L) w src lab -> below_trampoline (areas src) -> trampoline_ok L ->
  3 * regions_pages (area_region (fw_mem w) <$> areas src) + 3 <= avail (fw_alloc w) ->
  exists dst w', from_existed_user L w src = Ret (dst, w') /\
    (exists lab', space_ok lo (user_base L) w' dst lab') /\ space_ok lo (user_base L) w' src lab /\
    (forall a, mapped dst a <-> mapped src a) /\
    (forall a, mapped src a ->
       load (fw_mem w') (phys_of (fw_mem w') (page_table dst) a) = load (fw_mem w) (phys_of (fw_mem w) (page_table src) a)) /\
    (forall a write, 0 <= a < 2 ^ 39 ->
       user_byte_ok (fw_mem w') (page_table dst) write a <-> user_byte_ok (fw_mem w) (page_table src) write a) /\
    (forall a b, mapped src a -> mapped dst b ->
       phys_of (fw_mem w') (page_table src) a <> phys_of (fw_mem w') (page_table dst) b) /\
    (forall f x, Frames.live lo (fw_alloc w) f -> in_frame f x -> load (fw_mem w') x = load (fw_mem w) x).
Proof.
  intros Hok Hbt HL Hav. pose proof (space_has_layout _ _ _ _ _ Hok Hbt) as Hsp.
  destruct (from_existed_user_spec lo L w src lab _ Hsp HL Hav) as (dst & w' & lab' & fs & E & Hc & Heff & Hfs & _).
  pose proof Hc as [Hs Hd Hap]. set (gs := area_region (fw_mem w) <$> areas src) in *.
  assert (Hold : forall f x, Frames.live lo (fw_alloc w) f -> in_frame f x -> load (fw_mem w') x = load (fw_mem w) x).
  { intros f x Hl. apply (ms_effect_keeps lo w w' _ _ fs f x Heff Hl). cbn. apply not_elem_of_nil. }
  assert (Hsame : forall a, phys_of (fw_mem w') (page_table src) a = phys_of (fw_mem w) (page_table src) a /\
            forall write, user_byte_ok (fw_mem w') (page_table src) write a <-> user_byte_ok (fw_mem w) (page_table src) write a).
  { intros a. pose proof (fo_pt _ _ _ _ _ _ (so_frames _ _ _ _ _ Hok)) as Hpt.
    assert (Ht : translate (fw_mem w') (page_table src) (a / 4096) = translate (fw_mem w) (page_table src) (a / 4096)).
    { apply (translate_ext _ _ _ (pt_frames (page_table src)) lab); [apply Hpt|]. intros f x Hf Hx. apply (Hold f); [|done].
      apply (po_owned _ _ _ _ Hpt). by apply (pw_dom _ _ _ _ (po_wf _ _ _ _ Hpt)). }
    unfold phys_of, user_byte_ok. by rewrite Ht. }
  assert (Hm : forall a, mapped src a <-> exists g, g ∈ gs /\ rg_l g * 4096 <= a < rg_r g * 4096) by (intros a; by apply (mapped_region lo (user_base L) w src lab)).
  exists dst, w'. split_and!; [exact E|by exists lab'; apply Hd|apply Hs|..|exact Hold].
  - intros a. rewrite Hm. by apply (mapped_region lo (user_base L) w' dst lab').
  - intros a Ha. pose proof Ha as (g & Hg & Hr)%Hm. destruct (same_regions_byte lo L w' src dst lab lab' gs g a Hc Hg Hr) as [-> _].
    destruct (Hsame a) as [-> _]. destruct (region_byte lo (user_base L) w src lab gs g a Hsp Hg Hr) as (f & Hp & Hfo & Ef & _).
    apply (Hold f); [|rewrite Ef; unfold in_frame; lia_mod]. apply (ms_frames_live lo (user_base L) w src lab); [done|].
    apply elem_of_app. right. rewrite <- space_pairs_frames. apply list_elem_of_fmap. by exists (a / 4096, f).
  - intros a write Ha. rewrite <- (proj2 (Hsame a)). split; intros Hu.
    + destruct (user_byte_region lo L w' dst lab' gs a write Hd HL Ha Hu) as (g & Hg & Hr).
      by apply (same_regions_byte lo L w' src dst lab lab' gs g a Hc Hg Hr).
    + destruct (user_byte_region lo L w' src lab gs a write Hs HL Ha Hu) as (g & Hg & Hr).
      by apply (same_regions_byte lo L w' src dst lab lab' gs g a Hc Hg Hr).
  - intros a b (g1 & Hg1 & Hr1)%Hm Hb. apply (mapped_region lo (user_base L) w' dst lab' gs) in Hb as (g2 & Hg2 & Hr2); [|done].
    by apply (regions_disjoint lo L w' src dst lab lab' gs gs g1 g2).
Qed.

(** ** Giving the frames back *)

(** C14: the frames of an address space are given back exactly once.  Dropping
    a [MemorySet] (as [exec] does with the old one) frees each of its table and
    data frames and nothing else, without the allocator's double-free panic; so
    do [recycle_data_pages] at exit and the drop when the parent collects the
    zombie, whatever happens to the frame world in between as long as the
    zombie's tables stay allocated. *)
Theorem address_space_frames_returned lo base w ms lab :
  space_ok lo base w ms lab ->
  (exists w', drop_memory_set w ms = Ret w' /\ fw_mem w' = fw_mem w /\ Frames.wf lo (fw_alloc w') /\
     (forall f, Frames.live lo (fw_alloc w') f <-> Frames.live lo (fw_alloc w) f /\ f ∉ ms_frames ms) /\
     avail (fw_alloc w') = avail (fw_alloc w) + Z.of_nat (length (ms_frames ms))) /\
  exists zombie w1, recycle_data_pages w ms = Ret (zombie, w1) /\ fw_mem w1 = fw_mem w /\ Frames.wf lo (fw_alloc w1) /\
    (forall f, Frames.live lo (fw_alloc w1) f <-> Frames.live lo (fw_alloc w) f /\ f ∉ space_frames (areas ms)) /\
    forall w2, Frames.wf lo (fw_alloc w2) -> (forall f, f ∈ pt_frames (page_table ms) -> Frames.live lo (fw_alloc w2) f) ->
      exists w3, drop_memory_set w2 zombie = Ret w3 /\ fw_mem w3 = fw_mem w2 /\ Frames.wf lo (fw_alloc w3) /\
        forall f, Frames.live lo (fw_alloc w3) f <-> Frames.live lo (fw_alloc w2) f /\ f ∉ pt_frames (page_table ms).
Proof.
  intros Hok. split; [by eapply drop_memory_set_spec|].
  pose proof Hok as [Hf _]. pose proof (fo_nodup _ _ _ _ _ _ Hf) as Hnd. apply NoDup_app in Hnd as (Hn1 & Hd & Hn2).
  destruct (drop_frames_spec lo (space_frames (areas ms)) w) as (w1 & E1 & Em1 & Ha1 & Hl1 & _);
    [apply (fo_pt _ _ _ _ _ _ Hf)|done|apply (fo_live _ _ _ _ _ _ Hf)|].
  exists {| page_table := page_table ms; areas := [] |}, w1. split_and!; [unfold recycle_data_pages, space_frames in *; by rewrite E1|done..|].
  intros w2 Hw2 Hl2. destruct (drop_frames_spec lo (pt_frames (page_table ms)) w2) as (w3 & E3 & Em3 & Ha3 & Hl3 & _); [done..|].
  exists w3. unfold drop_memory_set. cbn [page_table areas]. rewrite E3. cbn [mbind outcome_bind]. done.
Qed.
