(* ===== verification/FrameWorldInv.v ===== *)
(** * All address spaces together

    The frame world of a running system: the kernel's space with one stack per
    process, and a space per process.  [world_ok] says that each is well formed
    and that no frame belongs to two of them; the lemmas say which operations
    of the memory manager keep it.  [KernelMem] instantiates it with the state
    of the kernel. *)
From S2P Require Import Prelude Address Allocators PageTable PageTableFacts MemorySet MemorySetInv MemorySetSpec MemorySetFork.
Import Address Mem PageTable MemorySet.

(** ** Removing an area *)

Lemma btree_remove_head t v f : btree_remove ((v, f) :: t) v = (t, Some f).
Proof. cbn. by rewrite Z.eqb_refl. Qed.

Lemma pte_ppn_new f perm : ppn_ok f -> in_width 8 perm -> pte_ppn (pte_new f (Z.lor perm PTE_V)) = f.
Proof. intros Hf Hp. apply pte_new_fields; [done|]. by apply in_width_lor_flags. Qed.

Lemma elem_space_ptes l u e :
  (u, e) ∈ space_ptes l <-> exists b g, b ∈ l /\ (u, g) ∈ data_frames b /\ e = pte_new g (Z.lor (map_perm b) PTE_V).
Proof.
  unfold space_ptes. rewrite list_elem_of_In, in_concat. split.
  - intros (p & Hp & He). apply list_elem_of_In, list_elem_of_fmap in Hp as (b & -> & Hb). apply list_elem_of_In in He.
    apply list_elem_of_fmap in He as ([u' g] & [= -> ->] & Hg). by exists b, g.
  - intros (b & g & Hb & Hg & ->). exists (area_ptes b). split; apply list_elem_of_In; [by apply list_elem_of_fmap_2|].
    apply list_elem_of_fmap. by exists (u, g).
Qed.

Lemma space_frames_mid l1 a l2 : space_frames (l1 ++ a :: l2) ≡ₚ area_frames a ++ space_frames (l1 ++ l2).
Proof.
  change (a :: l2) with ([a] ++ l2). rewrite !space_frames_app, space_frames_single.
  rewrite !app_assoc. by rewrite (Permutation_app_comm (space_frames l1)).
Qed.

(** Taking the first page out of an area. *)
Section RemovePage.
Context (lo : Z) (base : list (Z * Z)) (w : FrameWorld) (pt : PageTable) (l1 l2 : list MapArea) (a : MapArea)
  (lab : gmap Z (list Z)) (v f : Z) (t : list (Z * Z)).
Hypothesis (Hok : frames_ok lo base w pt (l1 ++ a :: l2) lab) (Ed : data_frames a = (v, f) :: t).
Hypothesis (Hperm : Forall (fun b => in_width 8 (map_perm b)) (l1 ++ a :: l2)) (Hb : v ∉ base.*1) (Hv : 0 <= v < 2 ^ 27).
Let l' := l1 ++ with_frames a t :: l2.

Lemma rp_mid : a ∈ l1 ++ a :: l2.
Proof. apply elem_of_app. right. by left. Qed.

Lemma rp_frames : space_frames (l1 ++ a :: l2) ≡ₚ f :: space_frames l'.
Proof using Ed. unfold l'. rewrite !space_frames_mid. unfold area_frames. by rewrite Ed. Qed.

Lemma rp_fresh : (f ∉ space_frames l') /\ NoDup (space_frames l').
Proof using Hok Ed.
  pose proof (fo_nodup _ _ _ _ _ _ Hok) as Hnd. apply NoDup_app in Hnd as (_ & _ & Hnd). rewrite rp_frames in Hnd.
  by apply NoDup_cons in Hnd.
Qed.

Lemma rp_in : f ∈ space_frames (l1 ++ a :: l2).
Proof using Ed. rewrite rp_frames. by left. Qed.

Lemma rp_areas b : b ∈ l' -> exists b', b' ∈ l1 ++ a :: l2 /\ map_perm b = map_perm b' /\ forall x, x ∈ data_frames b -> x ∈ data_frames b'.
Proof using Ed.
  intros [Hin|[->|Hin]%elem_of_cons]%elem_of_app.
  - exists b. split_and!; [apply elem_of_app; by left|done|done].
  - exists a. split_and!; [apply rp_mid|done|]. intros x Hx. rewrite Ed. by right.
  - exists b. split_and!; [apply elem_of_app; right; by right|done|done].
Qed.

Lemma rp_view : pt_view (fw_mem w) (root_ppn pt) v = Some (pte_new f (Z.lor (map_perm a) PTE_V)).
Proof using All.
  apply (fo_view _ _ _ _ _ _ Hok); [done|]. apply elem_of_app. right. apply elem_space_ptes.
  exists a, f. split_and!; [apply rp_mid|rewrite Ed; by left|done].
Qed.

(** No other area has the page. *)
Lemma rp_gone e : (v, e) ∈ base ++ space_ptes l' -> False.
Proof using All.
  intros [Hin|Hin]%elem_of_app; [apply Hb, list_elem_of_fmap; by exists (v, e)|].
  pose proof (fo_pt _ _ _ _ _ _ Hok) as Hpt. destruct rp_fresh as [Hn _]. apply Hn.
  apply elem_space_ptes in Hin as (b & g & Hin & Hg & ->). destruct (rp_areas b Hin) as (b' & Hb' & Ep & Hsub).
  assert (Hgf : g ∈ space_frames l').
  { apply (area_frames_in _ b Hin). apply list_elem_of_fmap. by exists (v, g). }
  enough (g = f) as <- by done.
  assert (Hfo : forall h, h ∈ space_frames (l1 ++ a :: l2) -> ppn_ok h).
  { intros h Hh. apply (live_ppn_ok lo (fw_alloc w)); [apply Hpt|by apply (fo_live _ _ _ _ _ _ Hok)]. }
  rewrite <- (pte_ppn_new g (map_perm b')), <- (pte_ppn_new f (map_perm a)).
  - f_equal. enough (Some (pte_new g (Z.lor (map_perm b') PTE_V)) = Some (pte_new f (Z.lor (map_perm a) PTE_V))) by congruence.
    rewrite <- rp_view. symmetry. apply (fo_view _ _ _ _ _ _ Hok); [done|]. apply elem_of_app. right. apply elem_space_ptes.
    exists b', g. split_and!; [done|by apply Hsub|done].
  - apply Hfo, rp_in.
  - apply (proj1 (Forall_forall _ _) Hperm a), rp_mid.
  - apply Hfo. rewrite rp_frames. by right.
  - by apply (proj1 (Forall_forall _ _) Hperm b').
Qed.

Lemma rp_keeps u e : u <> v -> (u, e) ∈ base ++ space_ptes l' <-> (u, e) ∈ base ++ space_ptes (l1 ++ a :: l2).
Proof using All.
  intros Hne. rewrite !elem_of_app, !elem_space_ptes. split; (intros [Hin|(b & g & Hin & Hg & ->)]; [by left|right]).
  - destruct (rp_areas b Hin) as (b' & Hb' & -> & Hsub). exists b', g. by split_and!; [|apply Hsub|].
  - apply elem_of_app in Hin as [Hin|[->|Hin]%elem_of_cons].
    + exists b, g. split_and!; [apply elem_of_app; by left|done|done].
    + exists (with_frames a t), g. split_and!; [apply elem_of_app; right; by left| |done]. rewrite Ed in Hg.
      apply elem_of_cons in Hg as [[= <- _]|Hg]; done.
    + exists b, g. split_and!; [apply elem_of_app; right; by right|done|done].
Qed.

Lemma unmap_one_spec :
  map_type a = Framed ->
  exists w', unmap_one w a pt v = Ret (with_frames a t, w') /\ frames_ok lo base w' pt l' lab /\
    (forall y, Frames.live lo (fw_alloc w') y <-> Frames.live lo (fw_alloc w) y /\ y <> f) /\
    (forall x, (forall g, g ∈ pt_frames pt -> ~ in_frame g x) -> load (fw_mem w') x = load (fw_mem w) x).
Proof using All.
  intros Hty. pose proof (fo_pt _ _ _ _ _ _ Hok) as Hpt.
  destruct (frame_dealloc_live lo (fw_alloc w) f) as (al & E & Hw & Hl); [apply Hpt|apply (fo_live _ _ _ _ _ _ Hok), rp_in|].
  set (w1 := {| fw_mem := fw_mem w; fw_alloc := al |}).
  assert (Hout : f ∉ pt_frames pt).
  { by destruct (frames_disjoint _ _ _ _ _ _ f Hok rp_in). }
  assert (Hpt1 : pt_ok lo w1 pt lab).
  { apply (pt_ok_ext lo w); [done|done| |done]. intros g Hg. apply Hl. split; [by apply (po_owned _ _ _ _ Hpt)|by intros ->]. }
  destruct (unmap_spec lo w1 pt lab v _ Hpt1 Hv rp_view) as (w2 & E2 & Hpt2 & Heff & Ea & Hview2).
  exists w2. split_and!.
  - unfold unmap_one. rewrite Hty, bool_decide_eq_true_2, Ed by done. rewrite btree_remove_head. cbn [mbind outcome_bind drop_option].
    unfold frame_dealloc. rewrite E. cbn [mbind outcome_bind]. fold w1. by rewrite E2.
  - destruct rp_fresh as [Hn Hnd']. split; [done| | |].
    + pose proof (fo_nodup _ _ _ _ _ _ Hok) as Hnd. rewrite rp_frames in Hnd. apply NoDup_app in Hnd as (H1 & H2 & _).
      apply NoDup_app. split_and!; [done| |done]. intros g Hg Hg'. apply (H2 g Hg). by right.
    + intros g Hg. rewrite Ea. apply Hl. split; [|by intros ->]. apply (fo_live _ _ _ _ _ _ Hok). rewrite rp_frames. by right.
    + intros u e Hu. rewrite Hview2 by done. change (fw_mem w1) with (fw_mem w). case_decide as Eu.
      * subst u. split; [done|]. intros Hin. by apply rp_gone in Hin.
      * rewrite rp_keeps by done. by apply (fo_view _ _ _ _ _ _ Hok).
  - intros y. rewrite Ea. apply Hl.
  - intros x Hx. change (fw_mem w) with (fw_mem w1). by apply (pe_outside _ _ _ _ _ _ Heff).
Qed.
End RemovePage.

Lemma unmap_pages_spec lo base pt l1 l2 lab fs : forall w a v,
  frames_ok lo base w pt (l1 ++ a :: l2) lab -> data_frames a = zip (seqZ v (Z.of_nat (length fs))) fs ->
  Forall (fun b => in_width 8 (map_perm b)) (l1 ++ a :: l2) -> map_type a = Framed ->
  (forall u, v <= u < v + Z.of_nat (length fs) -> u ∉ base.*1) -> 0 <= v -> v + Z.of_nat (length fs) <= 2 ^ 27 ->
  exists w', unmap_pages w a pt (seqZ v (Z.of_nat (length fs))) = Ret (with_frames a [], w') /\
    frames_ok lo base w' pt (l1 ++ with_frames a [] :: l2) lab /\
    (forall y, Frames.live lo (fw_alloc w') y <-> Frames.live lo (fw_alloc w) y /\ y ∉ fs) /\
    (forall x, (forall g, g ∈ pt_frames pt -> ~ in_frame g x) -> load (fw_mem w') x = load (fw_mem w) x).
Proof.
  induction fs as [|f fs IH]; intros w a v Hok Ed Hperm Hty Hb Hv Hv'.
  { cbn in Ed |- *. rewrite seqZ_nil in Ed |- * by lia. cbn. exists w.
    assert (Ea : with_frames a [] = a) by (destruct a; cbn in *; by subst). rewrite Ea.
    split_and!; [done|done| |done]. intros y. pose proof (not_elem_of_nil y). tauto. }
  cbn [length] in *. rewrite seqZ_cons in Ed |- * by lia. replace (Z.pred (Z.of_nat (S (length fs)))) with (Z.of_nat (length fs)) in * by lia.
  cbn [zip zip_with] in Ed.
  destruct (unmap_one_spec lo base w pt l1 l2 a lab v f (zip (seqZ (Z.succ v) (Z.of_nat (length fs))) fs))
    as (w1 & E1 & Hok1 & Hl1 & Hm1); [done|exact Ed|done|apply Hb; lia|lia|done|].
  set (t := zip (seqZ (Z.succ v) (Z.of_nat (length fs))) fs) in *.
  destruct (IH w1 (with_frames a t) (Z.succ v)) as (w2 & E2 & Hok2 & Hl2 & Hm2); [done|done| |done| |lia|lia|].
  { rewrite Forall_app, Forall_cons in Hperm |- *. exact Hperm. }
  { intros u Hu. apply Hb. lia. }
  exists w2. split_and!.
  - cbn [unmap_pages]. rewrite E1. cbn [mbind outcome_bind]. rewrite E2. done.
  - done.
  - intros y. rewrite Hl2, Hl1, elem_of_cons. tauto.
  - intros x Hx. rewrite Hm2 by done. by apply Hm1.
Qed.

Lemma frames_ok_empty lo base w pt l1 a l2 lab :
  data_frames a = [] -> frames_ok lo base w pt (l1 ++ a :: l2) lab -> frames_ok lo base w pt (l1 ++ l2) lab.
Proof.
  intros Ed [H1 H2 H3 H4].
  assert (Ef : space_frames (l1 ++ a :: l2) = space_frames (l1 ++ l2)).
  { change (a :: l2) with ([a] ++ l2). rewrite !space_frames_app, space_frames_single. unfold area_frames. by rewrite Ed. }
  assert (Ep : space_ptes (l1 ++ a :: l2) = space_ptes (l1 ++ l2)).
  { change (a :: l2) with ([a] ++ l2). rewrite !space_ptes_app, space_ptes_single. unfold area_ptes. by rewrite Ed. }
  rewrite Ef in H2, H3. rewrite Ep in H4. by split.
Qed.

(** [remove_area_with_start_vpn] on the first area that starts there. *)
Lemma remove_area_spec lo base w ms l1 l r perm fs l2 lab :
  frames_ok lo base w (page_table ms) (areas ms) lab -> areas ms = l1 ++ filled_area l r perm fs :: l2 ->
  Forall (fun b => in_width 8 (map_perm b)) (areas ms) -> Forall (fun b => range_l (vpn_range b) <> l) l1 ->
  0 <= l <= r -> r <= 2 ^ 27 -> length fs = Z.to_nat (r - l) -> (forall u, l <= u < r -> u ∉ base.*1) ->
  exists w', remove_area_with_start_vpn w ms l = Ret ({| page_table := page_table ms; areas := l1 ++ l2 |}, w') /\
    frames_ok lo base w' (page_table ms) (l1 ++ l2) lab /\
    (forall y, Frames.live lo (fw_alloc w') y <-> Frames.live lo (fw_alloc w) y /\ y ∉ fs) /\
    (forall x, (forall g, g ∈ pt_frames (page_table ms) -> ~ in_frame g x) -> load (fw_mem w') x = load (fw_mem w) x).
Proof.
  intros Hok Ea Hperm Hne Hr Hr' Hn Hb. set (a := filled_area l r perm fs) in *.
  assert (En : Z.of_nat (length fs) = r - l) by lia. rewrite Ea in Hok, Hperm.
  destruct (unmap_pages_spec lo base (page_table ms) l1 l2 lab fs w a l) as (w' & E & Hok' & Hl & Hm);
    [done|by rewrite En|done|done|rewrite En; intros u Hu; apply Hb; lia|lia|lia|].
  rewrite En in E. exists w'. split_and!; [|by eapply frames_ok_empty; [|exact Hok']|done|done].
  unfold remove_area_with_start_vpn. rewrite Ea.
  assert (Hrem : remove_area w (page_table ms) (l1 ++ a :: l2) l = Ret (l1 ++ l2, w')).
  { clear -E Hne Hr Hr' Hn. induction Hne as [|b l1 Hb _ IH]; cbn [app remove_area].
    - change (range_l (vpn_range a)) with l. rewrite Z.eqb_refl. unfold area_unmap, range_iter. cbn [a filled_area vpn_range range_l range_r].
      rewrite range_collect_spec by lia. cbn [mbind outcome_bind]. fold a. rewrite E. cbn [mbind outcome_bind].
      cbn [with_frames data_frames]. done.
    - destruct (Z.eqb_spec (range_l (vpn_range b)) l); [done|]. by rewrite IH. }
  rewrite Hrem. done.
Qed.

(** ** Kernel stacks *)

(** The two pages of the stack of a process; a guard page is below them. *)
Definition kstack_l (pid : Z) : Z := 2 ^ 27 - 3 - 3 * pid.
Definition kstack_r (pid : Z) : Z := 2 ^ 27 - 1 - 3 * pid.
Definition KSTACK_PERM : Z := Z.lor PERM_R PERM_W.
Definition pid_ok (pid : Z) : Prop := 0 <= pid <= 2 ^ 24.

Definition stack_area (p : Z * list Z) : MapArea := filled_area (kstack_l p.1) (kstack_r p.1) KSTACK_PERM p.2.

Lemma kernel_stack_area pid perm :
  pid_ok pid ->
  area_new (VirtAddr_from (Pids.kernel_stack_position pid).1) (VirtAddr_from (Pids.kernel_stack_position pid).2) Framed perm
  = Ret (fresh_area (kstack_l pid) (kstack_r pid) perm) /\
  page_num_from_addr (VirtAddr_from (Pids.kernel_stack_position pid).1) = Ret (kstack_l pid).
Proof.
  intros Hp. unfold pid_ok in Hp. change (2 ^ 24) with 16777216 in Hp.
  assert (E : VirtAddr_from (Pids.kernel_stack_position pid).1 = kstack_l pid * 4096 /\
              VirtAddr_from (Pids.kernel_stack_position pid).2 = kstack_r pid * 4096).
  { unfold Pids.kernel_stack_position, kstack_l, kstack_r, TRAMPOLINE, U64_MAX, KERNEL_STACK_SIZE, PAGE_SIZE. cbn [fst snd].
    rewrite (wrap_small 64 (pid * _)) by (unfold in_width; lia).
    rewrite (wrap_small 64 (2 ^ 64 - 1 - 0x1000 + 1 - _)) by (unfold in_width; lia).
    rewrite (wrap_small 64 (_ - _)) by (unfold in_width; lia). rewrite !VirtAddr_from_mod.
    change (2 ^ 64) with 18446744073709551616. change (2 ^ 39) with 549755813888. change (2 ^ 27) with 134217728. split; lia_mod. }
  destruct E as [E1 E2]. rewrite E1, E2. unfold kstack_l, kstack_r. change (2 ^ 27) with 134217728. split.
  - rewrite <- (VirtAddr_from_small ((134217728 - 3 - 3 * pid) * 4096)), <- (VirtAddr_from_small ((134217728 - 1 - 3 * pid) * 4096)) by lia.
    rewrite area_new_ok by lia. do 2 f_equal; lia_mod.
  - unfold page_num_from_addr. rewrite page_offset_mod.
    assert (Em : (134217728 - 3 - 3 * pid) * 4096 mod 4096 = 0) by lia_mod. rewrite Em. cbn [Z.eqb assert_ mbind outcome_bind].
    rewrite floor_div. f_equal. lia_mod.
Qed.

(** ** The world *)

(** A process's space, the frame of its trap context, and whether the process
    has exited (its data pages are then gone, its tables not yet). *)
Record Space : Type := mkSpace { sp_ms : MemorySet; sp_cx : Z; sp_dead : bool }.

(** The page of the trap context is the kernel's. *)
Definition trap_page_private (l : list MapArea) : Prop :=
  Forall (fun a => covers a TRAP_CONTEXT_VPN -> flags_contains (map_perm a) PTE_U = false) l.

Section World.
Context (lo : Z) (L : LinkerSymbols) (kb : list (Z * Z)) (kareas : list MapArea).

(** The kernel's own mappings keep clear of the stacks. *)
Record kernel_layout : Prop := {
  kl_base : Forall (fun x => ~ (2 ^ 26 <= x.1 < TRAMPOLINE_VPN)) kb;
  kl_areas : Forall (fun b => data_frames b = [] /\ in_width 8 (map_perm b) /\ ~ (2 ^ 26 <= range_l (vpn_range b) < 2 ^ 27)) kareas;
}.
Hypothesis Hkl : kernel_layout.

Definition space_fine (w : FrameWorld) (s : Space) : Prop :=
  exists base lab, space_ok lo base w (sp_ms s) lab /\
    (sp_dead s = false -> base = user_base L /\ below_trampoline (areas (sp_ms s)) /\
       (TRAP_CONTEXT_VPN, sp_cx s) ∈ space_pairs (areas (sp_ms s)) /\ trap_page_private (areas (sp_ms s))).

Record world_ok (w : FrameWorld) (KS : MemorySet) (stks : list (Z * list Z)) (sp : gmap Z Space) : Prop := {
  wo_kernel : exists klab, frames_ok lo kb w (page_table KS) (areas KS) klab;
  wo_areas : areas KS = kareas ++ (stack_area <$> stks);
  wo_nodup : NoDup stks.*1;
  wo_stacks : Forall (fun p => pid_ok p.1 /\ length p.2 = 2%nat) stks;
  wo_fine : forall p s, sp !! p = Some s -> space_fine w s;
  wo_kapart : forall p s f, sp !! p = Some s -> f ∈ ms_frames (sp_ms s) -> f ∉ ms_frames KS;
  wo_apart : forall p q s t f, p <> q -> sp !! p = Some s -> sp !! q = Some t ->
    f ∈ ms_frames (sp_ms s) -> f ∉ ms_frames (sp_ms t);
}.

(** The frames of the world. *)
Definition owned_by (KS : MemorySet) (sp : gmap Z Space) (f : Z) : Prop :=
  f ∈ ms_frames KS \/ exists p s, sp !! p = Some s /\ f ∈ ms_frames (sp_ms s).

Lemma world_wf w KS stks sp : world_ok w KS stks sp -> Frames.wf lo (fw_alloc w).
Proof. intros H. destruct (wo_kernel _ _ _ _ H) as (klab & Hf). apply (fo_pt _ _ _ _ _ _ Hf). Qed.

Lemma frames_live base w pt l lab f :
  frames_ok lo base w pt l lab -> f ∈ pt_frames pt ++ space_frames l -> Frames.live lo (fw_alloc w) f.
Proof.
  intros Hf [Hin|Hin]%elem_of_app; [by apply (po_owned _ _ _ _ (fo_pt _ _ _ _ _ _ Hf))|by apply (fo_live _ _ _ _ _ _ Hf)].
Qed.

Lemma world_live w KS stks sp f : world_ok w KS stks sp -> owned_by KS sp f -> Frames.live lo (fw_alloc w) f.
Proof.
  intros H [Hin|(p & s & Hs & Hin)].
  - destruct (wo_kernel _ _ _ _ H) as (klab & Hf). by apply (frames_live kb w (page_table KS) (areas KS) klab).
  - destruct (wo_fine _ _ _ _ H p s Hs) as (base & lab & [Hf _] & _). by apply (frames_live base w (page_table (sp_ms s)) (areas (sp_ms s)) lab).
Qed.

Lemma space_fine_ext w w' s :
  space_fine w s -> Frames.wf lo (fw_alloc w') -> (forall f, f ∈ ms_frames (sp_ms s) -> Frames.live lo (fw_alloc w') f) ->
  (forall f x, f ∈ pt_frames (page_table (sp_ms s)) -> in_frame f x -> load (fw_mem w') x = load (fw_mem w) x) ->
  space_fine w' s.
Proof.
  intros (base & lab & [Hf Ha] & Hd) Hw Hl Hx. exists base, lab. split; [|done]. split; [|done].
  by apply (frames_ok_ext lo base w).
Qed.

(** Data pages may change, tables not; frames may come and go elsewhere. *)
Lemma world_ext w w' KS stks sp :
  world_ok w KS stks sp -> Frames.wf lo (fw_alloc w') -> (forall f, owned_by KS sp f -> Frames.live lo (fw_alloc w') f) ->
  (forall f x, f ∈ pt_frames (page_table KS) \/ (exists p s, sp !! p = Some s /\ f ∈ pt_frames (page_table (sp_ms s))) ->
     in_frame f x -> load (fw_mem w') x = load (fw_mem w) x) ->
  world_ok w' KS stks sp.
Proof.
  intros H Hw Hl Hx. pose proof H as [(klab & Hk) Ha Hn Hst Hf Hka Hap]. split; try done.
  - exists klab. apply (frames_ok_ext lo kb w); [done..| |].
    + intros f Hin. apply Hl. by left.
    + intros f x Hin. apply Hx. by left.
  - intros p s Hs. apply (space_fine_ext w); [by eapply Hf|done| |].
    + intros f Hin. apply Hl. right. by exists p, s.
    + intros f x Hin. apply Hx. right. by exists p, s.
Qed.

Lemma pt_frames_owned KS sp f :
  f ∈ pt_frames (page_table KS) \/ (exists p s, sp !! p = Some s /\ f ∈ pt_frames (page_table (sp_ms s))) -> owned_by KS sp f.
Proof.
  intros [Hin|(p & s & Hs & Hin)]; [left; apply elem_of_app; by left|]. right. exists p, s. split; [done|]. apply elem_of_app. by left.
Qed.

(** A new space, built from free frames. *)
Lemma world_add w w' KS stks sp p s fs :
  world_ok w KS stks sp -> sp !! p = None -> space_fine w' s ->
  ms_effect lo w w' {| root_ppn := root_ppn (page_table (sp_ms s)); pt_frames := [] |} (page_table (sp_ms s)) fs ->
  space_frames (areas (sp_ms s)) = fs -> Frames.wf lo (fw_alloc w') ->
  world_ok w' KS stks (<[p := s]> sp).
Proof.
  intros H Hp Hs Heff Hfs Hw.
  assert (Hw1 : world_ok w' KS stks sp).
  { apply (world_ext w); [done|done| |].
    - intros f Hf. eapply ms_effect_live; [done|]. by apply (world_live w KS stks sp).
    - intros f x Hf Hx. apply (ms_effect_keeps lo w w' _ _ fs f x Heff); [|by apply not_elem_of_nil|done].
      apply (world_live w KS stks sp); [done|by apply pt_frames_owned]. }
  assert (Hnew : forall f, f ∈ ms_frames (sp_ms s) -> ~ owned_by KS sp f).
  { intros f Hin Ho. destruct (me_tables _ _ _ _ _ _ Heff) as (tables & Et & _ & Hfresh & _). cbn in Et.
    apply (Hfresh f); [|by apply (world_live w KS stks sp)]. unfold ms_frames in Hin. by rewrite Et, Hfs in Hin. }
  pose proof Hw1 as [Hk Ha Hn Hst Hf Hka Hap]. split; try done.
  - intros q t [[<- <-]|[_ Ht]]%lookup_insert_Some; [done|by eapply Hf].
  - intros q t f [[<- <-]|[_ Ht]]%lookup_insert_Some Hin; [|by eapply Hka].
    intros Hin'. apply (Hnew f Hin). by left.
  - intros q r t u f Hne [[<- <-]|[_ Ht]]%lookup_insert_Some [[<- <-]|[_ Hu]]%lookup_insert_Some Hin; [done| | |by eapply Hap].
    + intros Hin'. apply (Hnew f Hin). right. by exists r, u.
    + intros Hin'. apply (Hnew f Hin'). right. by exists q, t.
Qed.

(** A space goes, with all its frames. *)
Lemma world_remove w w' KS stks sp p s :
  world_ok w KS stks sp -> sp !! p = Some s -> fw_mem w' = fw_mem w -> Frames.wf lo (fw_alloc w') ->
  (forall f, Frames.live lo (fw_alloc w') f <-> Frames.live lo (fw_alloc w) f /\ f ∉ ms_frames (sp_ms s)) ->
  world_ok w' KS stks (delete p sp).
Proof.
  intros H Hs Em Hw Hl. pose proof H as [Hk Ha Hn Hst Hf Hka Hap].
  assert (H1 : world_ok w KS stks (delete p sp)).
  { split; try done.
    - intros q t [_ Ht]%lookup_delete_Some. by eapply Hf.
    - intros q t f [_ Ht]%lookup_delete_Some. by eapply Hka.
    - intros q r t u f Hne [_ Ht]%lookup_delete_Some [_ Hu]%lookup_delete_Some. by eapply Hap. }
  apply (world_ext w); [done|done| |intros f x _ _; by rewrite Em].
  intros f Ho. apply Hl. split; [by apply (world_live w KS stks (delete p sp))|]. intros Hin.
  destruct Ho as [Ho|(q & t & [Hne Ht]%lookup_delete_Some & Ho)]; [by apply (Hka p s f)|by apply (Hap p q s t f)].
Qed.

Lemma world_rename w KS stks sp p q s :
  world_ok w KS stks (<[p := s]> sp) -> sp !! p = None -> sp !! q = None -> world_ok w KS stks (<[q := s]> sp).
Proof.
  intros [Hk Ha Hn Hst Hf Hka Hap] Hp Hq.
  assert (Hold : forall r t, sp !! r = Some t -> <[p := s]> sp !! r = Some t /\ r <> p).
  { intros r t Ht. assert (r <> p) by (intros ->; congruence). by rewrite lookup_insert_ne. }
  assert (Hnew : <[p := s]> sp !! p = Some s) by apply lookup_insert_eq.
  split; try done.
  - intros r t [[<- <-]|[_ Ht]]%lookup_insert_Some; [by eapply Hf|]. apply Hold in Ht as [Ht _]. by eapply Hf.
  - intros r t f [[<- <-]|[_ Ht]]%lookup_insert_Some; [by eapply Hka|]. apply Hold in Ht as [Ht _]. by eapply Hka.
  - intros r r' t u f Hne [[<- <-]|[_ Ht]]%lookup_insert_Some [[<- <-]|[_ Hu]]%lookup_insert_Some; [done|..].
    + apply Hold in Hu as [Hu Hu']. by apply (Hap p r' s u f).
    + apply Hold in Ht as [Ht Ht']. by apply (Hap r p t s f).
    + apply Hold in Ht as [Ht _]. apply Hold in Hu as [Hu _]. by apply (Hap r r' t u f).
Qed.

(** The data pages of an exiting process go; its tables stay. *)
Lemma world_kill w w' KS stks sp p s :
  world_ok w KS stks sp -> sp !! p = Some s -> fw_mem w' = fw_mem w -> Frames.wf lo (fw_alloc w') ->
  (forall f, Frames.live lo (fw_alloc w') f <-> Frames.live lo (fw_alloc w) f /\ f ∉ space_frames (areas (sp_ms s))) ->
  world_ok w' KS stks (<[p := mkSpace {| page_table := page_table (sp_ms s); areas := [] |} (sp_cx s) true]> sp).
Proof.
  intros H Hs Em Hw Hl. pose proof H as [Hk Ha Hn Hst Hf Hka Hap].
  set (ms' := {| page_table := page_table (sp_ms s); areas := [] |}). set (s' := mkSpace ms' (sp_cx s) true).
  assert (Hsub : forall f, f ∈ ms_frames ms' -> f ∈ ms_frames (sp_ms s)).
  { intros f [Hin|Hin]%elem_of_app; [apply elem_of_app; by left|by apply not_elem_of_nil in Hin]. }
  assert (H1 : world_ok w KS stks (<[p := s']> sp)).
  { split; try done.
    - intros q t [[<- <-]|[_ Ht]]%lookup_insert_Some; [|by eapply Hf].
      destruct (Hf p s Hs) as (base & lab & [[H1 H2 H3 H4] _] & _). exists (base ++ space_ptes (areas (sp_ms s))), lab.
      split; [|done]. split; [|constructor]. cbn [sp_ms s' ms' page_table areas]. split; [done| | |].
      + cbn. rewrite app_nil_r. by apply NoDup_app in H2 as (? & _ & _).
      + intros f Hin. by apply not_elem_of_nil in Hin.
      + intros u e Hu. cbn. rewrite app_nil_r. by apply H4.
    - intros q t f [[<- <-]|[_ Ht]]%lookup_insert_Some Hin; [apply (Hka p s); [done|by apply Hsub]|by eapply Hka].
    - intros q r t u f Hne [[<- <-]|[_ Ht]]%lookup_insert_Some [[<- <-]|[_ Hu]]%lookup_insert_Some Hin; [done|..].
      + apply (Hap p r s u); [done..|by apply Hsub].
      + intros Hin'. apply (Hap q p t s f); [done..|by apply Hsub].
      + by apply (Hap q r t u). }
  apply (world_ext w); [done|done| |intros f x _ _; by rewrite Em].
  intros f Ho. apply Hl. split; [by apply (world_live w KS stks (<[p := s']> sp))|]. intros Hin.
  assert (Hfs : f ∈ ms_frames (sp_ms s)) by (apply elem_of_app; by right).
  destruct Ho as [Ho|(q & t & Ht & Ho)]; [by apply (Hka p s f)|].
  apply lookup_insert_Some in Ht as [[<- <-]|[Hne Ht]]; [|by apply (Hap p q s t f)].
  destruct (Hf p s Hs) as (base & lab & [Hfo _] & _).
  apply elem_of_app in Ho as [Ho|Ho]; [|by apply not_elem_of_nil in Ho].
  by destruct (frames_disjoint _ _ _ _ _ _ f Hfo Hin).
Qed.

(** ** Stacks come and go *)

Lemma stack_range pid u : pid_ok pid -> kstack_l pid <= u < kstack_r pid -> 2 ^ 26 <= u < TRAMPOLINE_VPN.
Proof. unfold pid_ok, kstack_l, kstack_r, TRAMPOLINE_VPN. lia. Qed.

Lemma stack_apart p q u : kstack_l p <= u < kstack_r p -> kstack_l q <= u < kstack_r q -> p = q.
Proof. unfold kstack_l, kstack_r. lia. Qed.

Lemma stack_unmapped w KS stks sp pid u :
  world_ok w KS stks sp -> pid_ok pid -> pid ∉ stks.*1 -> kstack_l pid <= u < kstack_r pid ->
  pt_view (fw_mem w) (root_ppn (page_table KS)) u = None.
Proof using Hkl.
  intros H Hp Hn Hu. destruct (wo_kernel _ _ _ _ H) as (klab & Hf). pose proof (stack_range pid u Hp Hu) as Hr.
  destruct (pt_view _ _ u) as [e|] eqn:E; [|done]. exfalso. unfold TRAMPOLINE_VPN in Hr.
  apply (fo_view _ _ _ _ _ _ Hf u e) in E; [|lia]. apply elem_of_app in E as [E|E].
  - apply (proj1 (Forall_forall _ _) (kl_base Hkl) _ E). unfold TRAMPOLINE_VPN. cbn. lia.
  - rewrite (wo_areas _ _ _ _ H) in E. apply elem_space_ptes in E as (b & g & Hb & Hg & _).
    apply elem_of_app in Hb as [Hb|Hb].
    + destruct (proj1 (Forall_forall _ _) (kl_areas Hkl) b Hb) as (Ed & _). rewrite Ed in Hg. by apply not_elem_of_nil in Hg.
    + apply list_elem_of_fmap in Hb as ([q fs] & -> & Hq). cbn in Hg.
      apply list_elem_of_lookup in Hg as [i Hi]. apply lookup_zip_with_Some in Hi as (x & y & [= <- <-] & Hx & _).
      apply lookup_seqZ in Hx as [-> Hi]. assert (q = pid) as ->.
      { apply (stack_apart q pid (kstack_l q + Z.of_nat i)); [lia|done]. }
      apply Hn, list_elem_of_fmap. by exists (pid, fs).
Qed.

(** The kernel's tables may grow without touching the processes. *)
Lemma world_kernel_grows w w' KS KS' stks stks' sp fs klab :
  world_ok w KS stks sp -> frames_ok lo kb w' (page_table KS') (areas KS') klab ->
  ms_effect lo w w' (page_table KS) (page_table KS') fs ->
  space_frames (areas KS') = space_frames (areas KS) ++ fs -> areas KS' = kareas ++ (stack_area <$> stks') ->
  NoDup stks'.*1 -> Forall (fun p => pid_ok p.1 /\ length p.2 = 2%nat) stks' -> world_ok w' KS' stks' sp.
Proof.
  intros H Hk' Heff Hfs Ha' Hn' Hst'. pose proof H as [Hk Ha Hn Hst Hf Hka Hap].
  destruct (me_tables _ _ _ _ _ _ Heff) as (tables & Et & _ & Hfresh & _).
  assert (Hlv : forall p s f, sp !! p = Some s -> f ∈ ms_frames (sp_ms s) -> Frames.live lo (fw_alloc w) f).
  { intros p s f Hs Hin. apply (world_live w KS stks sp); [done|]. right. by exists p, s. }
  split; try done.
  - by exists klab.
  - intros p s Hs. apply (space_fine_ext w); [by eapply Hf|apply (fo_pt _ _ _ _ _ _ Hk')| |].
    + intros f Hin. eapply ms_effect_live; [done|]. by eapply Hlv.
    + intros f x Hin. assert (Hin' : f ∈ ms_frames (sp_ms s)) by (apply elem_of_app; by left).
      apply (ms_effect_keeps lo w w' _ _ fs f x Heff); [by eapply Hlv|]. intros Hin2. apply (Hka p s f Hs Hin').
      apply elem_of_app. by left.
  - intros p s f Hs Hin. unfold ms_frames. rewrite Et, Hfs, !elem_of_app. pose proof (Hka p s f Hs Hin) as Hno.
    unfold ms_frames in Hno. rewrite elem_of_app in Hno.
    assert (~ (f ∈ tables ++ fs)) as Hno2 by (intros Hin2; by apply (Hfresh f Hin2), (Hlv p s)). rewrite elem_of_app in Hno2. tauto.
Qed.

Lemma world_stack_push w KS stks sp pid :
  world_ok w KS stks sp -> pid_ok pid -> pid ∉ stks.*1 -> 6 <= avail (fw_alloc w) ->
  exists fs KS' w',
    insert_framed_area w KS (VirtAddr_from (Pids.kernel_stack_position pid).1) (VirtAddr_from (Pids.kernel_stack_position pid).2)
      KSTACK_PERM = Ret (KS', w') /\
    world_ok w' KS' (stks ++ [(pid, fs)]) sp /\ ms_effect lo w w' (page_table KS) (page_table KS') fs /\
    avail (fw_alloc w) - 6 <= avail (fw_alloc w').
Proof using Hkl.
  intros H Hp Hn Hav. destruct (wo_kernel _ _ _ _ H) as (klab & Hf).
  destruct (kernel_stack_area pid KSTACK_PERM Hp) as [Ea _].
  assert (Hlen : kstack_r pid - kstack_l pid = 2) by (unfold kstack_l, kstack_r; lia).
  destruct (area_map_frames lo kb w (page_table KS) (areas KS) klab (kstack_l pid) (kstack_r pid) KSTACK_PERM)
    as (fs & pt' & w' & lab' & E & Hl & Hok & Heff & Hav' & _); [done| | |by vm_compute| |lia|].
  { unfold kstack_l, kstack_r, pid_ok in *. lia. }
  { unfold kstack_r, pid_ok in *. lia. }
  { intros u Hu. by apply (stack_unmapped w KS stks sp pid). }
  exists fs, {| page_table := pt'; areas := areas KS ++ [stack_area (pid, fs)] |}, w'. split_and!; [| |done|lia].
  - unfold insert_framed_area. rewrite Ea. cbn [mbind outcome_bind]. unfold push. rewrite E. cbn [mbind outcome_bind]. by destruct w'.
  - apply (world_kernel_grows w w' KS {| page_table := pt'; areas := areas KS ++ [stack_area (pid, fs)] |} stks _ sp fs lab' H Hok Heff); cbn [page_table areas].
    + rewrite space_frames_app, space_frames_single. unfold stack_area. by rewrite filled_area_frames.
    + by rewrite (wo_areas _ _ _ _ H), fmap_app, app_assoc.
    + rewrite fmap_app. cbn. apply NoDup_app. split_and!; [apply (wo_nodup _ _ _ _ H)| |apply NoDup_singleton].
      by intros q Hq ->%list_elem_of_singleton.
    + apply Forall_app. split; [apply (wo_stacks _ _ _ _ H)|]. apply Forall_singleton. cbn. split; [done|]. rewrite Hl, Hlen. done.
Qed.

Lemma world_stack_pop w KS s1 pid fs s2 sp :
  world_ok w KS (s1 ++ (pid, fs) :: s2) sp ->
  exists w' KS', remove_area_with_start_vpn w KS (kstack_l pid) = Ret (KS', w') /\
    world_ok w' KS' (s1 ++ s2) sp /\
    (forall y, Frames.live lo (fw_alloc w') y <-> Frames.live lo (fw_alloc w) y /\ y ∉ fs) /\
    (forall x, (forall g, g ∈ pt_frames (page_table KS) -> ~ in_frame g x) -> load (fw_mem w') x = load (fw_mem w) x).
Proof using Hkl.
  intros H. pose proof H as [(klab & Hk) Ha Hn Hst Hf Hka Hap].
  pose proof (proj1 (Forall_app _ _ _) Hst) as [Hst1 Hst2]. apply Forall_cons in Hst2 as [[Hp Hfs] Hst2]. cbn in Hp, Hfs.
  rewrite fmap_app, fmap_cons in Hn. cbn [fst] in Hn.
  assert (Ea : areas KS = (kareas ++ (stack_area <$> s1)) ++ stack_area (pid, fs) :: (stack_area <$> s2)).
  { by rewrite Ha, fmap_app, app_assoc. }
  destruct (remove_area_spec lo kb w KS (kareas ++ (stack_area <$> s1)) (kstack_l pid) (kstack_r pid) KSTACK_PERM fs (stack_area <$> s2) klab)
    as (w' & E & Hok & Hl & Hm); [done|exact Ea| | | | | | |].
  { rewrite Ha. apply Forall_app. split.
    - eapply Forall_impl; [apply (kl_areas Hkl)|]. cbn. tauto.
    - apply Forall_fmap, Forall_forall. intros q _. by vm_compute. }
  { apply Forall_app. split.
    - eapply Forall_impl; [apply (kl_areas Hkl)|]. cbn. intros b (_ & _ & Hb) Eb. apply Hb. rewrite Eb.
      pose proof (stack_range pid (kstack_l pid) Hp). unfold kstack_l, kstack_r, TRAMPOLINE_VPN in *. lia.
    - apply Forall_fmap, Forall_forall. intros [q fs'] Hq Eq. cbn in Eq. apply NoDup_app in Hn as (_ & Hd & _).
      apply (Hd q); [apply list_elem_of_fmap; by exists (q, fs')|]. assert (q = pid) as -> by (unfold kstack_l in Eq; lia). by left. }
  { unfold kstack_l, kstack_r, pid_ok in *. lia. }
  { unfold kstack_r, pid_ok in *. lia. }
  { rewrite Hfs. unfold kstack_l, kstack_r. lia. }
  { intros u Hu Hin. apply list_elem_of_fmap in Hin as ([v e] & -> & Hin). cbn in Hu.
    apply (proj1 (Forall_forall _ _) (kl_base Hkl) _ Hin). cbn. by apply (stack_range pid). }
  eexists w', _. split; [exact E|]. split; [|done].
  assert (Hsub : forall f, f ∈ ms_frames {| page_table := page_table KS; areas := (kareas ++ (stack_area <$> s1)) ++ (stack_area <$> s2) |} -> f ∈ ms_frames KS).
  { intros f [Hin|Hin]%elem_of_app; [apply elem_of_app; by left|]. apply elem_of_app. right. cbn [areas] in Hin.
    rewrite Ea. apply (space_frames_sub ((kareas ++ (stack_area <$> s1)) ++ (stack_area <$> s2))); [|done].
    intros b [Hb|Hb]%elem_of_app; apply elem_of_app; [by left|right; by right]. }
  assert (Hfk : forall f, f ∈ fs -> f ∈ ms_frames KS).
  { intros f Hin. apply elem_of_app. right. rewrite Ea. apply (area_frames_in _ (stack_area (pid, fs))); [apply elem_of_app; right; by left|].
    unfold stack_area. rewrite filled_area_frames; [done|]. cbn. rewrite Hfs. unfold kstack_l, kstack_r. lia. }
  split; cbn [page_table areas].
  - exists klab. exact Hok.
  - by rewrite fmap_app, app_assoc.
  - rewrite fmap_app. apply NoDup_app in Hn as (H1 & H2 & H3). apply NoDup_cons in H3 as [_ H3]. apply NoDup_app.
    split_and!; [done| |done]. intros q Hq Hq'. apply (H2 q Hq). by right.
  - apply Forall_app. by split.
  - intros p s Hs. apply (space_fine_ext w); [by eapply Hf|apply (fo_pt _ _ _ _ _ _ Hok)| |].
    + intros f Hin. apply Hl. split; [apply (world_live w KS (s1 ++ (pid, fs) :: s2) sp); [done|right; by exists p, s]|].
      intros Hin'. by apply (Hka p s f Hs Hin), Hfk.
    + intros f x Hin Hx. apply Hm. intros g Hg Hgx. assert (g = f) as -> by (by eapply in_frame_inj).
      apply (Hka p s f Hs); apply elem_of_app; by left.
  - intros p s f Hs Hin Hin'. by apply (Hka p s f Hs Hin), Hsub.
  - done.
Qed.

End World.
