(* ===== verification/KernelSpace.v ===== *)
(** * The kernel's address space

    [MemorySet::new_kernel] maps the trampoline, the sections of the kernel
    image, the rest of memory and the devices, each page to the frame of the
    same number.  This file proves what it builds and how few tables it takes:
    two per 2 MiB of address space, so that the frames the machine has are
    enough. *)
From S2P Require Import Prelude Address Allocators PageTable PageTableFacts MemorySet MemorySetInv MemorySetSpec FrameWorldInv.
Import Address Mem PageTable MemorySet.

(** ** Identity mapping, page by page *)

(** The entries an identically mapped range adds. *)
Definition ident_ptes (l r perm : Z) : list (Z * Z) := (fun u => (u, pte_new u (Z.lor perm PTE_V))) <$> seqZ l (r - l).

Lemma elem_ident_ptes l r perm u e : (u, e) ∈ ident_ptes l r perm <-> l <= u < r /\ e = pte_new u (Z.lor perm PTE_V).
Proof. unfold ident_ptes. rewrite list_elem_of_fmap. setoid_rewrite elem_of_seqZ. naive_solver lia. Qed.

(** The leaf tables under [[v, v + n)], one per 512 pages. *)
Definition leaf_tables (v n : Z) : Z := if 0 <? n then (v + n - 1) / 512 - v / 512 + 1 else 0.

Lemma leaf_path_same u v : u / 512 = v / 512 -> leaf_path u = leaf_path v.
Proof.
  intros H. unfold leaf_path. rewrite !indexes_value. cbn [take]. change (2 ^ 18) with (512 * 512). change (2 ^ 9) with 512.
  by rewrite <- !Z.div_div, H by lia.
Qed.

Lemma pt_effect_refl lo w pt : pt_effect lo w w pt pt [].
Proof.
  split; try done; [by rewrite app_nil_r|intros y; rewrite elem_of_nil; tauto|intros y Hy; by apply not_elem_of_nil in Hy|cbn; lia].
Qed.

Lemma pt_effect_trans lo w1 w2 w3 pt1 pt2 pt3 n1 n2 :
  pt_effect lo w1 w2 pt1 pt2 n1 -> pt_effect lo w2 w3 pt2 pt3 n2 -> pt_effect lo w1 w3 pt1 pt3 (n1 ++ n2).
Proof.
  intros [R1 F1 L1 N1 A1 O1] [R2 F2 L2 N2 A2 O2]. split.
  - congruence.
  - by rewrite F2, F1, app_assoc.
  - intros y. rewrite L2, L1, elem_of_app. tauto.
  - intros y [Hy|Hy]%elem_of_app Hl; [by apply (N1 y)|]. apply (N2 y Hy), L1. by left.
  - rewrite A2, A1, length_app. lia.
  - intros x Hx. rewrite O2, O1; [done| |done]. intros g Hg. apply Hx. rewrite F2. apply elem_of_app. by left.
Qed.

(** Tables still missing under [[v, v + n)] when [had] tells whether the leaf
    table of [v] is there. *)
Definition missing (v n : Z) (had : bool) : Z := if 0 <? n then 2 * (leaf_tables v n - Z.b2z had) else 0.

Lemma missing_step v n had :
  0 <= v -> 0 <= n -> let had' := bool_decide ((v + 1) / 512 = v / 512) in
  missing v (n + 1) had = missing (v + 1) n had' + (if had then 0 else 2) /\ 0 <= missing (v + 1) n had'.
Proof.
  intros Hv Hn had'. unfold missing, leaf_tables, had'. rewrite (proj2 (Z.ltb_lt 0 (n + 1))) by lia.
  replace (v + 1 + n - 1) with (v + n) by lia. replace (v + (n + 1) - 1) with (v + n) by lia.
  assert (H1 : (v + 1) / 512 = v / 512 \/ (v + 1) / 512 = v / 512 + 1) by lia_mod.
  assert (H2 : (v + 1) / 512 <= (v + n) / 512 \/ n = 0 /\ (v + n) / 512 = v / 512) by lia_mod.
  destruct (Z.ltb_spec 0 n) as [Hp|Hp]; [case_bool_decide as E|assert (n = 0) as -> by lia; rewrite Z.add_0_r]; destruct had; cbn [Z.b2z]; lia.
Qed.

Lemma map_one_identical lo w pt lab self v :
  pt_ok lo w pt lab -> map_type self = Identical -> in_width 8 (map_perm self) -> 0 <= v < 2 ^ 27 ->
  pt_view (fw_mem w) (root_ppn pt) v = None -> 2 <= avail (fw_alloc w) ->
  exists pt' w' lab' new, map_one w self pt v = Ret (self, pt', w') /\ pt_ok lo w' pt' lab' /\
    pt_effect lo w w' pt pt' new /\ (length new <= 2)%nat /\
    (forall u, 0 <= u < 2 ^ 27 -> pt_view (fw_mem w') (root_ppn pt) u
      = if decide (u = v) then Some (pte_new v (Z.lor (map_perm self) PTE_V)) else pt_view (fw_mem w) (root_ppn pt) u) /\
    has_path lab' (leaf_path v) /\ (has_path lab (leaf_path v) -> new = []).
Proof.
  intros Hok Hty Hp Hv Hfree Hav.
  destruct (map_spec_paths lo w pt lab v v (map_perm self)) as (pt' & w' & lab' & new & E & Hrest); [done|done|unfold ppn_ok; lia|done..|].
  exists pt', w', lab', new. split; [|exact Hrest]. unfold map_one. rewrite Hty. cbn [mbind outcome_bind].
  rewrite <- (wrap_small 8 (map_perm self)) by done. rewrite PTEFlags_from_bits_total.
  rewrite wrap_small by done. cbn [mbind outcome_bind unwrap]. by rewrite E.
Qed.

Lemma map_identical lo self n : forall w pt lab v had,
  pt_ok lo w pt lab -> map_type self = Identical -> in_width 8 (map_perm self) -> 0 <= v -> v + Z.of_nat n <= 2 ^ 27 ->
  (forall u, v <= u < v + Z.of_nat n -> pt_view (fw_mem w) (root_ppn pt) u = None) ->
  (had = true -> has_path lab (leaf_path v)) -> missing v (Z.of_nat n) had + 2 <= avail (fw_alloc w) ->
  exists pt' w' lab' new, map_pages w self pt (seqZ v (Z.of_nat n)) = Ret (self, pt', w') /\
    pt_ok lo w' pt' lab' /\ pt_effect lo w w' pt pt' new /\ Z.of_nat (length new) <= missing v (Z.of_nat n) had /\
    forall u e, 0 <= u < 2 ^ 27 -> pt_view (fw_mem w') (root_ppn pt) u = Some e <->
      pt_view (fw_mem w) (root_ppn pt) u = Some e \/ (u, e) ∈ ident_ptes v (v + Z.of_nat n) (map_perm self).
Proof.
  induction n as [|n IH]; intros w pt lab v had Hok Hty Hp Hv Hvn Hfree Hhad Hav.
  { exists pt, w, lab, []. rewrite seqZ_nil by lia. split_and!; [done|done|apply pt_effect_refl|done|].
    intros u e Hu. rewrite elem_ident_ptes. naive_solver lia. }
  rewrite seqZ_cons by lia. replace (Z.pred (Z.of_nat (S n))) with (Z.of_nat n) by lia. change (Z.succ v) with (v + 1).
  replace (Z.of_nat (S n)) with (Z.of_nat n + 1) in * by lia.
  destruct (missing_step v (Z.of_nat n) had Hv) as [Hm Hm0]; [lia|]. set (had' := bool_decide ((v + 1) / 512 = v / 512)) in *.
  rewrite Hm in *.
  destruct (map_one_identical lo w pt lab self v Hok Hty Hp) as (pt1 & w1 & lab1 & new1 & E1 & Hok1 & Heff1 & Hl1 & Hv1 & Hp1 & Hn1);
    [lia|apply Hfree; lia|destruct had; lia|].
  assert (Hlen : Z.of_nat (length new1) <= if had then 0 else 2) by (destruct had; [rewrite Hn1 by auto; done|lia]).
  pose proof (pe_root _ _ _ _ _ _ Heff1) as Hroot. pose proof (pe_avail _ _ _ _ _ _ Heff1) as Hav1.
  destruct (IH w1 pt1 lab1 (v + 1) had') as (pt2 & w2 & lab2 & new2 & E2 & Hok2 & Heff2 & Hl2 & Hv2); [done..|lia|lia| | |lia|].
  { intros u Hu. rewrite Hroot, Hv1, decide_False by lia. apply Hfree. lia. }
  { intros Hd%bool_decide_eq_true_1. by rewrite (leaf_path_same (v + 1) v). }
  rewrite Hroot in Hv2. exists pt2, w2, lab2, (new1 ++ new2). split_and!.
  - cbn [map_pages]. rewrite E1. cbn [mbind outcome_bind]. exact E2.
  - done.
  - by eapply pt_effect_trans.
  - rewrite length_app.  lia.
  - intros u e Hu. rewrite Hv2, Hv1, !elem_ident_ptes by done.
    case_decide as Eu; [subst u; rewrite (Hfree v) by lia|]; naive_solver lia.
Qed.

(** ** One section *)

Definition ident_area (l r perm : Z) : MapArea := mkArea (mkRange l r) [] Identical perm.

Lemma frames_ok_grow lo base w w' pt pt' l lab lab' new add :
  frames_ok lo base w pt l lab -> pt_ok lo w' pt' lab' -> pt_effect lo w w' pt pt' new ->
  (forall u e, 0 <= u < 2 ^ 27 -> pt_view (fw_mem w') (root_ppn pt) u = Some e <->
     pt_view (fw_mem w) (root_ppn pt) u = Some e \/ (u, e) ∈ add) ->
  frames_ok lo (base ++ add) w' pt' l lab'.
Proof.
  intros [_ Hnd Hl Hv] Hok Heff Hadd. pose proof (pw_nodup _ _ _ _ (po_wf _ _ _ _ Hok)) as Hnd'.
  pose proof (pe_frames _ _ _ _ _ _ Heff) as Ef. split; [done|..].
  - apply NoDup_app in Hnd as (_ & Hd & Hs). apply NoDup_app. split_and!; [done| |done].
    intros f. rewrite Ef. intros [Hf|Hf]%elem_of_app; [by apply Hd|]. intros Hin.
    by apply (pe_fresh _ _ _ _ _ _ Heff f Hf), Hl.
  - intros f Hf. apply (pe_live _ _ _ _ _ _ Heff). left. by apply Hl.
  - intros u e Hu. rewrite (pe_root _ _ _ _ _ _ Heff), Hadd, Hv, !elem_of_app by done. tauto.
Qed.

Lemma push_identical_spec lo base w ms lab a b perm :
  let l := a / 4096 in let r := (b + 4095) / 4096 in
  frames_ok lo base w (page_table ms) (areas ms) lab -> 0 <= a <= b -> b < 2 ^ 38 -> in_width 8 perm ->
  (forall u, l <= u < r -> pt_view (fw_mem w) (root_ppn (page_table ms)) u = None) ->
  2 * leaf_tables l (r - l) + 2 <= avail (fw_alloc w) ->
  exists pt' w' lab' new, push_identical w ms a b perm = Ret ({| page_table := pt'; areas := areas ms ++ [ident_area l r perm] |}, w') /\
    frames_ok lo (base ++ ident_ptes l r perm) w' pt' (areas ms ++ [ident_area l r perm]) lab' /\
    pt_effect lo w w' (page_table ms) pt' new /\ Z.of_nat (length new) <= 2 * leaf_tables l (r - l).
Proof.
  intros l r Hf Hab Hb Hp Hfree Hav. assert (Hl : 0 <= l <= r) by (unfold l, r; lia_mod). assert (Hr : r <= 2 ^ 27) by (unfold r; lia_mod).
  assert (Hn : Z.of_nat (Z.to_nat (r - l)) = r - l) by lia.
  assert (Hms : missing l (r - l) false = 2 * leaf_tables l (r - l)).
  { unfold missing. destruct (Z.ltb_spec 0 (r - l)); [cbn; lia|]. unfold leaf_tables. by rewrite (proj2 (Z.ltb_ge 0 (r - l))) by lia. }
  destruct (map_identical lo (ident_area l r perm) (Z.to_nat (r - l)) w (page_table ms) lab l false)
    as (pt' & w' & lab' & new & E & Hok & Heff & Hlen & Hv); rewrite ?Hn in *;
    [apply Hf|done|done|lia|lia|intros u Hu; apply Hfree; lia|done|lia|].
  rewrite Hms in Hlen. replace (l + (r - l)) with r in Hv by lia.
  exists pt', w', lab', new. split_and!; [|by apply frames_ok_fresh, (frames_ok_grow lo base w w' (page_table ms) pt' _ lab lab' new)|done..].
  unfold push_identical, area_new. rewrite !VirtAddr_from_small by lia. rewrite floor_div, ceil_val by lia. fold l r.
  unfold range_new. rewrite (proj2 (Z.leb_le l r)) by lia. cbn [assert_ mbind outcome_bind]. unfold push, area_map, range_iter.
  cbn [vpn_range range_l range_r]. rewrite range_collect_spec by lia. cbn [mbind outcome_bind].
  change {| vpn_range := _; data_frames := []; map_type := Identical; map_perm := perm |} with (ident_area l r perm).
  rewrite E. cbn [mbind outcome_bind]. by destruct w'.
Qed.

(** ** The sections of the kernel *)

Record KernelSection : Type := mkSection { sec_start : Z; sec_end : Z; sec_perm : Z }.

Definition sec_l (s : KernelSection) : Z := sec_start s / 4096.
Definition sec_r (s : KernelSection) : Z := (sec_end s + 4095) / 4096.
Definition sec_area (s : KernelSection) : MapArea := ident_area (sec_l s) (sec_r s) (sec_perm s).
Definition sec_ptes (s : KernelSection) : list (Z * Z) := ident_ptes (sec_l s) (sec_r s) (sec_perm s).
Definition sec_tables (s : KernelSection) : Z := 2 * leaf_tables (sec_l s) (sec_r s - sec_l s).

(** In the order of the code: the image, the memory after it, the devices. *)
Definition kernel_sections (L : LinkerSymbols) : list KernelSection :=
  [mkSection (stext L) (etext L) (Z.lor PERM_R PERM_X); mkSection (srodata L) (erodata L) PERM_R;
   mkSection (sdata L) (edata L) (Z.lor PERM_R PERM_W); mkSection (sbss_with_stack L) (ebss L) (Z.lor PERM_R PERM_W);
   mkSection (ekernel L) MEMORY_END (Z.lor PERM_R PERM_W)] ++
  ((fun p => mkSection p.1 (p.1 + p.2) (Z.lor PERM_R PERM_W)) <$> MMIO).

Fixpoint push_sections (w : FrameWorld) (ms : MemorySet) (ss : list KernelSection) : outcome (MemorySet * FrameWorld) :=
  match ss with
  | [] => Ret (ms, w)
  | s :: rest => '(ms', w') ← push_identical w ms (sec_start s) (sec_end s) (sec_perm s); push_sections w' ms' rest
  end.

Lemma new_kernel_sections L w :
  new_kernel L w = ('(ms, w) ← new_bare w; '(ms, w) ← map_trampoline L w ms; push_sections w ms (kernel_sections L)).
Proof. reflexivity. Qed.

Record section_ok (s : KernelSection) : Prop := {
  sc_range : 0 <= sec_start s <= sec_end s /\ sec_end s < 2 ^ 37;
  sc_perm : in_width 8 (sec_perm s);
}.

(** Two sections share no page. *)
Definition sec_apart (s t : KernelSection) : Prop := sec_r s <= sec_l t \/ sec_r t <= sec_l s.

Definition sections_tables (ss : list KernelSection) : Z := foldr (fun s n => sec_tables s + n) 0 ss.
Definition sections_ptes (ss : list KernelSection) : list (Z * Z) := concat (sec_ptes <$> ss).

Lemma sections_tables_nonneg ss : Forall section_ok ss -> 0 <= sections_tables ss.
Proof.
  induction 1 as [|s ss [Hr _] _ IH]; [done|].
  change (sections_tables (s :: ss)) with (sec_tables s + sections_tables ss). unfold sec_tables, leaf_tables. destruct (Z.ltb_spec 0 (sec_r s - sec_l s)); [|lia].
  assert (sec_l s / 512 <= (sec_l s + (sec_r s - sec_l s) - 1) / 512) by (apply Z.div_le_mono; lia). lia.
Qed.

Lemma elem_sections_ptes ss u e :
  (u, e) ∈ sections_ptes ss <-> exists s, s ∈ ss /\ sec_l s <= u < sec_r s /\ e = pte_new u (Z.lor (sec_perm s) PTE_V).
Proof.
  unfold sections_ptes. rewrite list_elem_of_In, in_concat. split.
  - intros (l & Hl & Hin). apply list_elem_of_In, list_elem_of_fmap in Hl as (s & -> & Hs).
    apply list_elem_of_In, elem_ident_ptes in Hin. by exists s.
  - intros (s & Hs & H). exists (sec_ptes s). rewrite <- !list_elem_of_In. split; [apply list_elem_of_fmap; by exists s|by apply elem_ident_ptes].
Qed.

(** Where the sections are not mapped yet. *)
Definition clear_of (base : list (Z * Z)) (s : KernelSection) : Prop := Forall (fun x => ~ (sec_l s <= x.1 < sec_r s)) base.

Lemma clear_of_apart base s t : clear_of base t -> sec_apart s t -> clear_of (base ++ sec_ptes s) t.
Proof.
  intros Hc Ha. apply Forall_app. split; [done|]. apply Forall_forall. intros [u e] [Hu _]%elem_ident_ptes. cbn. unfold sec_apart in Ha. lia.
Qed.

Lemma push_sections_spec lo ss : forall base w ms lab,
  frames_ok lo base w (page_table ms) (areas ms) lab -> space_frames (areas ms) = [] ->
  Forall section_ok ss -> ForallOrdPairs sec_apart ss -> Forall (clear_of base) ss ->
  sections_tables ss + 2 <= avail (fw_alloc w) -> space_ptes (areas ms) = [] ->
  exists pt' w' lab' new,
    push_sections w ms ss = Ret ({| page_table := pt'; areas := areas ms ++ (sec_area <$> ss) |}, w') /\
    frames_ok lo (base ++ sections_ptes ss) w' pt' (areas ms ++ (sec_area <$> ss)) lab' /\
    pt_effect lo w w' (page_table ms) pt' new /\ Z.of_nat (length new) <= sections_tables ss.
Proof.
  induction ss as [|s ss IH]; intros base w ms lab Hf Hfr Hok Hap Hcl Hav Hpt.
  { exists (page_table ms), w, lab, []. cbn. rewrite !app_nil_r. split_and!; [by destruct ms|done|apply pt_effect_refl|done]. }
  inversion_clear Hap as [|? ? Hs Hap']. apply Forall_cons in Hok as [[Hrange Hperm] Hok], Hcl as [Hc Hcl].
  pose proof (proj1 (Forall_forall _ _) Hs) as Hs'. pose proof (sections_tables_nonneg ss Hok) as Hnn.
  change (sec_tables s + sections_tables ss + 2 <= avail (fw_alloc w)) in Hav. unfold sec_tables in Hav.
  destruct (push_identical_spec lo base w ms lab (sec_start s) (sec_end s) (sec_perm s) Hf) as (pt1 & w1 & lab1 & n1 & E1 & Hf1 & Heff1 & Hl1);
    [lia|lia|done| |fold (sec_l s) (sec_r s); lia|].
  { intros u Hu. destruct (pt_view _ _ u) as [e|] eqn:E; [|done]. exfalso.
    apply (fo_view _ _ _ _ _ _ Hf u e) in E; [|lia_mod]. rewrite Hpt, app_nil_r in E.
    by apply (proj1 (Forall_forall _ _) Hc _ E). }
  fold (sec_l s) (sec_r s) in *. pose proof (pe_avail _ _ _ _ _ _ Heff1) as Hav1.
  set (ms1 := {| page_table := pt1; areas := areas ms ++ [sec_area s] |}).
  destruct (IH (base ++ sec_ptes s) w1 ms1 lab1) as (pt2 & w2 & lab2 & n2 & E2 & Hf2 & Heff2 & Hl2); cbn [ms1 areas page_table] in *;
    [done| |done|done| |lia| |].
  { rewrite space_frames_app, Hfr. reflexivity. }
  { apply Forall_forall. intros t Ht. apply clear_of_apart; [by apply (proj1 (Forall_forall _ _) Hcl)|by apply Hs']. }
  { rewrite space_ptes_app, Hpt. reflexivity. }
  exists pt2, w2, lab2, (n1 ++ n2). rewrite <- !app_assoc in *. cbn [app] in *. split_and!.
  - cbn [push_sections]. rewrite E1. cbn [mbind outcome_bind]. fold (sec_area s). exact E2.
  - exact Hf2.
  - by eapply pt_effect_trans.
  - change (sections_tables (s :: ss)) with (sec_tables s + sections_tables ss). rewrite length_app. unfold sec_tables. lia.
Qed.

(** ** The whole space *)

(** What the linker script guarantees: the sections follow each other, each
    starts on a page boundary, all lie above the devices and below the end of
    memory; the trampoline is a page. *)
Record image_ok (L : LinkerSymbols) : Prop := {
  im_low : 0x10002000 <= stext L;
  im_order : stext L <= etext L <= srodata L /\ srodata L <= erodata L <= sdata L /\ sdata L <= edata L <= sbss_with_stack L /\
    sbss_with_stack L <= ebss L <= ekernel L /\ ekernel L <= MEMORY_END;
  im_aligned : Forall (fun a => a mod 4096 = 0) [srodata L; sdata L; sbss_with_stack L; ekernel L];
  im_trampoline : trampoline_ok L;
}.

Definition kernel_base (L : LinkerSymbols) : list (Z * Z) := user_base L ++ sections_ptes (kernel_sections L).
Definition kernel_areas (L : LinkerSymbols) : list MapArea := sec_area <$> kernel_sections L.
Definition kernel_tables (L : LinkerSymbols) : Z := sections_tables (kernel_sections L) + 3.

Lemma page_after e a : e <= a -> a mod 4096 = 0 \/ e mod 4096 = 0 -> (e + 4095) / 4096 <= a / 4096.
Proof. lia_mod. Qed.

Lemma image_sections L : image_ok L -> Forall section_ok (kernel_sections L) /\ ForallOrdPairs sec_apart (kernel_sections L).
Proof.
  intros [Hlow Hord Hal _]. unfold MEMORY_END in Hord.
  pose proof (proj1 (Forall_cons _ _ _) Hal) as [A1 Hal1]. apply Forall_cons in Hal1 as [A2 Hal1].
  apply Forall_cons in Hal1 as [A3 Hal1]. apply Forall_cons in Hal1 as [A4 _]. split.
  - repeat apply Forall_cons_2; [..|apply Forall_nil_2]; (split; cbn; [unfold MEMORY_END; lia|by vm_compute]).
  - unfold kernel_sections, MMIO. cbn [fmap list_fmap app fst snd].
    repeat first [apply FOP_nil|apply FOP_cons|apply Forall_nil_2|apply Forall_cons_2];
      unfold sec_apart, sec_l, sec_r, MEMORY_END; cbn [sec_start sec_end];
      solve [left; apply page_after; [lia|tauto]|right; apply page_after; [lia|right; reflexivity]].
Qed.

Lemma section_range L s : image_ok L -> s ∈ kernel_sections L -> 0 <= sec_l s <= sec_r s /\ sec_r s <= 2 ^ 25.
Proof.
  intros [Hlow Hord Hal _] Hs. unfold MEMORY_END in Hord. unfold sec_l, sec_r, kernel_sections, MMIO, MEMORY_END in *. cbn in Hs.
  repeat (apply elem_of_cons in Hs as [->|Hs]; [cbn; lia_mod|]). by apply not_elem_of_nil in Hs.
Qed.

Lemma image_kernel_layout L : image_ok L -> kernel_layout (kernel_base L) (kernel_areas L).
Proof.
  intros Hi. split; apply Forall_forall.
  - intros [u e] [Hu|Hu]%elem_of_app; cbn.
    + apply list_elem_of_singleton in Hu as [= -> _]. lia.
    + apply elem_sections_ptes in Hu as (s & Hs & Hr & _). apply section_range in Hs; [|done]. lia.
  - intros b Hb. apply list_elem_of_fmap in Hb as (s & -> & Hs). destruct (image_sections L Hi) as [Hok _].
    split_and!; [done|apply (proj1 (Forall_forall _ _) Hok s Hs)|]. apply section_range in Hs; [|done]. cbn. lia.
Qed.

Lemma new_kernel_spec lo L w :
  Frames.wf lo (fw_alloc w) -> image_ok L -> kernel_tables L + 2 <= avail (fw_alloc w) ->
  exists ms w' lab, new_kernel L w = Ret (ms, w') /\ frames_ok lo (kernel_base L) w' (page_table ms) (areas ms) lab /\
    areas ms = kernel_areas L /\ avail (fw_alloc w) - kernel_tables L <= avail (fw_alloc w').
Proof.
  intros Hw Hi Hav. destruct (image_sections L Hi) as [Hok Hap]. pose proof (sections_tables_nonneg _ Hok) as Hnn. unfold kernel_tables in *.
  destruct (bare_space lo L w Hw (im_trampoline L Hi)) as (ms0 & w0 & ms1 & w1 & lab1 & E0 & E1 & Hsp & Har & _ & Hav1); [lia|].
  destruct (push_sections_spec lo (kernel_sections L) (user_base L) w1 ms1 lab1) as (pt2 & w2 & lab2 & n2 & E2 & Hf & Heff & Hl);
    [apply Hsp|by rewrite Har|done|done| |lia|by rewrite Har|].
  { apply Forall_forall. intros s Hs. apply Forall_singleton. cbn. apply section_range in Hs; [|done]. unfold TRAMPOLINE_VPN. lia. }
  pose proof (pe_avail _ _ _ _ _ _ Heff) as Hav2. rewrite Har in E2, Hf.
  exists {| page_table := pt2; areas := kernel_areas L |}, w2, lab2. split_and!; [|exact Hf|done|lia].
  rewrite new_kernel_sections, E0. cbn [mbind outcome_bind]. rewrite E1. cbn [mbind outcome_bind]. exact E2.
Qed.

(** ** What the hardware finds there *)

Definition kernel_perms : list Z := [Z.lor PERM_R PERM_X; PERM_R; Z.lor PERM_R PERM_W].

Lemma section_perm L s : s ∈ kernel_sections L -> sec_perm s ∈ kernel_perms.
Proof.
  unfold kernel_sections, MMIO, kernel_perms. cbn [fmap list_fmap app]. intros Hs.
  repeat (apply elem_of_cons in Hs as [->|Hs]; [cbn [sec_perm]; set_solver|]). by apply not_elem_of_nil in Hs.
Qed.

(** No entry of the kernel is both writable and executable, or a user's. *)
Definition strict_entry (pte : Z) : Prop :=
  (writable pte = true -> executable pte = false) /\ flags_contains (pte_flags pte) PTE_U = false.

Lemma kernel_entry perm u :
  0 <= u < 2 ^ 44 -> perm ∈ kernel_perms ->
  pte_flags (pte_new u (Z.lor perm PTE_V)) = Z.lor perm PTE_V /\ pte_ppn (pte_new u (Z.lor perm PTE_V)) = u /\
  strict_entry (pte_new u (Z.lor perm PTE_V)).
Proof.
  intros Hu Hp. assert (Hw : in_width 8 (Z.lor perm PTE_V)).
  { apply in_width_lor_flags. unfold kernel_perms in Hp. repeat (apply elem_of_cons in Hp as [->|Hp]; [by vm_compute|]). by apply not_elem_of_nil in Hp. }
  destruct (pte_new_fields u (Z.lor perm PTE_V) Hu Hw) as (_ & Ep & Ef). split_and!; [done..|].
  unfold strict_entry, writable, executable. rewrite Ef. unfold kernel_perms in Hp.
  repeat (apply elem_of_cons in Hp as [->|Hp]; [by vm_compute|]). by apply not_elem_of_nil in Hp.
Qed.

Section Built.
Context (lo : Z) (L : LinkerSymbols) (w : FrameWorld) (ms : MemorySet) (lab : gmap Z (list Z)).
Hypothesis Hi : image_ok L.
Hypothesis Hf : frames_ok lo (kernel_base L) w (page_table ms) (areas ms) lab.
Hypothesis Ha : areas ms = kernel_areas L.

Lemma kernel_view u e : 0 <= u < 2 ^ 27 -> pt_view (fw_mem w) (root_ppn (page_table ms)) u = Some e <-> (u, e) ∈ kernel_base L.
Proof using Hf Ha.
  intros Hu. rewrite (fo_view _ _ _ _ _ _ Hf u e Hu), Ha.
  assert (E : space_ptes (kernel_areas L) = []) by reflexivity. by rewrite E, app_nil_r.
Qed.

(** A page of a section. *)
Lemma section_page s u :
  s ∈ kernel_sections L -> sec_l s <= u < sec_r s ->
  exists pte, translate (fw_mem w) (page_table ms) u = Some pte /\ pte_ppn pte = u /\ pte_flags pte = Z.lor (sec_perm s) PTE_V.
Proof using Hi Hf Ha.
  intros Hs Hu. destruct (section_range L s Hi Hs) as [Hl Hr].
  destruct (kernel_entry (sec_perm s) u) as (Ef & Ep & _); [lia|by eapply section_perm|].
  exists (pte_new u (Z.lor (sec_perm s) PTE_V)). split_and!; [|done..]. apply pt_view_translate, kernel_view; [lia|].
  apply elem_of_app. right. apply elem_sections_ptes. by exists s.
Qed.

Lemma section_byte s a :
  s ∈ kernel_sections L -> sec_start s <= a < sec_end s -> sec_l s <= a / 4096 < sec_r s.
Proof. intros _ Hr. unfold sec_l, sec_r. lia_mod. Qed.

(** The page in the middle of a section. *)
Lemma middle_page s :
  s ∈ kernel_sections L -> sec_start s < sec_end s ->
  exists pte, ms_translate (fw_mem w) ms (floor (VirtAddr_from (wrap 64 (sec_start s + sec_end s) / 2))) = Some pte /\
    pte_flags pte = Z.lor (sec_perm s) PTE_V.
Proof using Hi Hf Ha.
  intros Hs Hne. destruct (image_sections L Hi) as [Hok _]. destruct (proj1 (Forall_forall _ _) Hok s Hs) as [Hr _].
  rewrite wrap_small by (unfold in_width; lia). rewrite VirtAddr_from_small by lia_mod. rewrite floor_div. unfold ms_translate.
  destruct (section_page s ((sec_start s + sec_end s) / 2 / 4096) Hs) as (e & -> & _ & E); [|by exists e].
  apply section_byte; [done|lia_mod].
Qed.

Lemma remap_test_passes :
  stext L < etext L -> srodata L < erodata L -> sdata L < edata L -> remap_test L (fw_mem w) ms = Ret tt.
Proof using Hi Hf Ha.
  intros H1 H2 H3.
  destruct (middle_page (mkSection (stext L) (etext L) (Z.lor PERM_R PERM_X))) as (t & Et & Ft); [left|done|].
  destruct (middle_page (mkSection (srodata L) (erodata L) PERM_R)) as (r & Er & Fr); [right; left|done|].
  destruct (middle_page (mkSection (sdata L) (edata L) (Z.lor PERM_R PERM_W))) as (d & Ed & Fd); [right; right; left|done|].
  cbn [sec_start sec_end sec_perm] in *.
  assert (Wt : writable t = false) by (unfold writable; by rewrite Ft).
  assert (Wr : writable r = false) by (unfold writable; by rewrite Fr).
  assert (Xd : executable d = false) by (unfold executable; by rewrite Fd).
  unfold remap_test. rewrite Et. cbn [unwrap mbind outcome_bind]. rewrite Wt. cbn [negb assert_ mbind outcome_bind].
  rewrite Er. cbn [unwrap mbind outcome_bind]. rewrite Wr. cbn [negb assert_ mbind outcome_bind].
  rewrite Ed. cbn [unwrap mbind outcome_bind]. by rewrite Xd.
Qed.

(** A page of the kernel: the trampoline or a page of a section. *)
Lemma kernel_page u pte :
  0 <= u < 2 ^ 27 -> translate (fw_mem w) (page_table ms) u = Some pte -> is_valid pte = true ->
  (u = TRAMPOLINE_VPN \/ exists s, s ∈ kernel_sections L /\ sec_l s <= u < sec_r s /\ pte_ppn pte = u) /\ strict_entry pte.
Proof using Hi Hf Ha.
  intros Hu Ht Hval. assert (Hv : (u, pte) ∈ kernel_base L).
  { apply kernel_view; [done|]. unfold pt_view. unfold translate in *.
    change (find_pte (fw_mem w) {| root_ppn := root_ppn (page_table ms); pt_frames := [] |} u) with (find_pte (fw_mem w) (page_table ms) u).
    rewrite Ht. by rewrite Hval. }
  apply elem_of_app in Hv as [Hv|(s & Hs & Hr & ->)%elem_sections_ptes].
  - apply list_elem_of_singleton in Hv as [= -> ->]. destruct (im_trampoline L Hi) as [Hr _].
    destruct (kernel_entry (Z.lor PERM_R PERM_X) (strampoline L / 4096)) as (_ & _ & Hst); [lia_mod|by left|]. split; [by left|exact Hst].
  - destruct (kernel_entry (sec_perm s) u) as (_ & Ep & Hst); [lia|by eapply section_perm|]. split; [right; by exists s|done].
Qed.
End Built.

(** C13: the kernel's address space.  [new_kernel] succeeds with the frames it
    counts (two tables per 2 MiB mapped); in the space it builds every byte of
    a section of the kernel image, of the memory after it and of the devices is
    at its own address with the section's permissions, only those pages and
    the trampoline are mapped, no page is writable and executable, none is
    open to programs, and the boot check [remap_test] passes. *)
Theorem new_kernel_identity lo L w :
  Frames.wf lo (fw_alloc w) -> image_ok L -> kernel_tables L + 2 <= avail (fw_alloc w) ->
  stext L < etext L -> srodata L < erodata L -> sdata L < edata L ->
  exists ms w', new_kernel L w = Ret (ms, w') /\
    (forall s a, s ∈ kernel_sections L -> sec_start s <= a < sec_end s ->
       exists pte, translate (fw_mem w') (page_table ms) (a / 4096) = Some pte /\ pte_flags pte = Z.lor (sec_perm s) PTE_V /\
         frame_base (pte_ppn pte) + a mod 4096 = a) /\
    (forall u pte, 0 <= u < 2 ^ 27 -> translate (fw_mem w') (page_table ms) u = Some pte -> is_valid pte = true ->
       (u = TRAMPOLINE_VPN \/ exists s, s ∈ kernel_sections L /\ sec_l s <= u < sec_r s /\ pte_ppn pte = u) /\ strict_entry pte) /\
    remap_test L (fw_mem w') ms = Ret tt.
Proof.
  intros Hw Hi Hav H1 H2 H3. destruct (new_kernel_spec lo L w Hw Hi Hav) as (ms & w' & lab & E & Hf & Ha & _).
  exists ms, w'. split_and!; [done| |by apply (kernel_page lo L w' ms lab)|by apply (remap_test_passes lo L w' ms lab)].
  intros s a Hs Hr. pose proof (section_byte L s a Hs Hr) as Hu. destruct (section_range L s Hi Hs) as [Hl Hrr].
  destruct (section_page lo L w' ms lab Hi Hf Ha s (a / 4096) Hs Hu) as (pte & Et & Ep & Ef).
  exists pte. split_and!; [done..|]. rewrite Ep, frame_base_mul by (unfold ppn_ok; lia). lia_mod.
Qed.
