(* ===== verification/Signals.v ===== *)
(** * Signals, actions and trap contexts

    Models [os/src/task/signal.rs], [os/src/task/action.rs],
    [os/src/trap/context.rs] and [os/src/task/context.rs].  A trap context is
    kept in the memory of its process (the frame [trap_cx_ppn]), so it is also
    given as the sequence of its 37 machine words. *)
From S2P Require Import Prelude Address Allocators PageTable MemorySet.
Import Mem PageTable MemorySet.

Module Signals.

Definition MAX_SIG : Z := 31.

(** [SignalFlags]: all 32 bits are declared; a set is its bits. *)
Definition SIGDEF : Z := 1.
Definition SIGHUP : Z := Z.shiftl 1 1.
Definition SIGINT : Z := Z.shiftl 1 2.
Definition SIGQUIT : Z := Z.shiftl 1 3.
Definition SIGILL : Z := Z.shiftl 1 4.
Definition SIGTRAP : Z := Z.shiftl 1 5.
Definition SIGABRT : Z := Z.shiftl 1 6.
Definition SIGBUS : Z := Z.shiftl 1 7.
Definition SIGFPE : Z := Z.shiftl 1 8.
Definition SIGKILL : Z := Z.shiftl 1 9.
Definition SIGUSR1 : Z := Z.shiftl 1 10.
Definition SIGSEGV : Z := Z.shiftl 1 11.
Definition SIGUSR2 : Z := Z.shiftl 1 12.
Definition SIGPIPE : Z := Z.shiftl 1 13.
Definition SIGALRM : Z := Z.shiftl 1 14.
Definition SIGTERM : Z := Z.shiftl 1 15.
Definition SIGSTKFLT : Z := Z.shiftl 1 16.
Definition SIGCHLD : Z := Z.shiftl 1 17.
Definition SIGCONT : Z := Z.shiftl 1 18.
Definition SIGSTOP : Z := Z.shiftl 1 19.
Definition SIGTSTP : Z := Z.shiftl 1 20.
Definition SIGTTIN : Z := Z.shiftl 1 21.
Definition SIGTTOU : Z := Z.shiftl 1 22.
Definition SIGURG : Z := Z.shiftl 1 23.
Definition SIGXCPU : Z := Z.shiftl 1 24.
Definition SIGXFSZ : Z := Z.shiftl 1 25.
Definition SIGVTALRM : Z := Z.shiftl 1 26.
Definition SIGPROF : Z := Z.shiftl 1 27.
Definition SIGWINCH : Z := Z.shiftl 1 28.
Definition SIGIO : Z := Z.shiftl 1 29.
Definition SIGPWR : Z := Z.shiftl 1 30.
Definition SIGSYS : Z := Z.shiftl 1 31.

Definition SignalFlags_all : Z := U32_MAX.

(** [SignalFlags::from_bits] on a [u32]. *)
Definition sig_from_bits (b : Z) : option Z := from_bits SignalFlags_all b.
Definition sig_contains (self other : Z) : bool := bits_contains self other.
Definition sig_insert (self other : Z) : Z := Z.lor self other.
Definition sig_toggle (self other : Z) : Z := Z.lxor self other.

(** [check_error]: the exit code the kernel kills the process with. *)
Definition check_error (self : Z) : option Z :=
  if sig_contains self SIGINT then Some (-2)
  else if sig_contains self SIGILL then Some (-4)
  else if sig_contains self SIGABRT then Some (-6)
  else if sig_contains self SIGFPE then Some (-8)
  else if sig_contains self SIGKILL then Some (-9)
  else if sig_contains self SIGSEGV then Some (-11)
  else None.

(** ** [SignalAction] *)

Record SignalAction : Type := mkAction { handler : Z; act_mask : Z }.

#[export] Instance SignalAction_eq_dec : EqDecision SignalAction.
Proof. solve_decision. Defined.

Definition action_default : SignalAction := {| handler := 0; act_mask := 40 |}.

(** [SignalActions { table }]. *)
Definition actions_default : list SignalAction := replicate (Z.to_nat (MAX_SIG + 1)) action_default.

(** The [repr(C, align(16))] layout: [usize], [u32] and four bytes of padding
    (whose value Rust leaves unspecified; zero here). *)
Definition encode_action (a : SignalAction) : list Z :=
  le_bytes 8 (handler a) ++ le_bytes 4 (act_mask a) ++ replicate 4 0.
Definition decode_action (bs : list Z) : SignalAction :=
  {| handler := le_value (take 8 bs); act_mask := le_value (take 4 (drop 8 bs)) |}.

(** ** [TrapContext] *)

Record TrapContext : Type := mkTrapCx {
  cx_x : list Z;                  (** 32 general registers *)
  sstatus : Z;
  sepc : Z;
  kernel_satp : Z;
  kernel_sp : Z;
  trap_handler : Z;
}.

Definition set_x (cx : TrapContext) (i v : Z) : TrapContext :=
  {| cx_x := <[Z.to_nat i := v]> (cx_x cx); sstatus := sstatus cx; sepc := sepc cx;
     kernel_satp := kernel_satp cx; kernel_sp := kernel_sp cx; trap_handler := trap_handler cx |}.
Definition set_sepc (cx : TrapContext) (v : Z) : TrapContext :=
  {| cx_x := cx_x cx; sstatus := sstatus cx; sepc := v;
     kernel_satp := kernel_satp cx; kernel_sp := kernel_sp cx; trap_handler := trap_handler cx |}.
Definition set_kernel_sp (cx : TrapContext) (v : Z) : TrapContext :=
  {| cx_x := cx_x cx; sstatus := sstatus cx; sepc := sepc cx;
     kernel_satp := kernel_satp cx; kernel_sp := v; trap_handler := trap_handler cx |}.
Definition get_x (cx : TrapContext) (i : Z) : Z := nth (Z.to_nat i) (cx_x cx) 0.

Definition set_sp (cx : TrapContext) (sp : Z) : TrapContext := set_x cx 2 sp.

(** The [sstatus] CSR is read through the [riscv] crate; [set_spp(User)] clears
    its bit 8. *)
Definition app_init_context (sstatus_csr entry sp kernel_satp kernel_sp trap_handler : Z)
    : TrapContext :=
  let cx := {| cx_x := replicate 32 0;
               sstatus := Z.land sstatus_csr (bit_not 64 (Z.shiftl 1 8));
               sepc := entry; kernel_satp := kernel_satp; kernel_sp := kernel_sp;
               trap_handler := trap_handler |} in
  set_sp cx sp.

(** The [repr(C)] layout. *)
Definition trap_cx_words (cx : TrapContext) : list Z :=
  cx_x cx ++ [sstatus cx; sepc cx; kernel_satp cx; kernel_sp cx; trap_handler cx].

Definition trap_cx_of_words (ws : list Z) : TrapContext :=
  {| cx_x := take 32 ws; sstatus := nth 32 ws 0; sepc := nth 33 ws 0; kernel_satp := nth 34 ws 0;
     kernel_sp := nth 35 ws 0; trap_handler := nth 36 ws 0 |}.

Fixpoint load_words (m : PhysMem) (a : Z) (n : nat) : list Z :=
  match n with O => [] | S n' => load_u64 m a :: load_words m (a + 8) n' end.
Fixpoint store_words (m : PhysMem) (a : Z) (ws : list Z) : PhysMem :=
  match ws with [] => m | v :: ws' => store_words (store_u64 m a v) (a + 8) ws' end.

(** [trap_cx_ppn.get_mut()], read and written. *)
Definition load_trap_cx (m : PhysMem) (ppn : Z) : TrapContext :=
  trap_cx_of_words (load_words m (frame_base ppn) 37).
Definition store_trap_cx (m : PhysMem) (ppn : Z) (cx : TrapContext) : PhysMem :=
  store_words m (frame_base ppn) (trap_cx_words cx).

Definition trap_cx_wf (cx : TrapContext) : Prop :=
  length (cx_x cx) = 32%nat /\ Forall (in_width 64) (trap_cx_words cx).

(** ** [TaskContext] *)

Record TaskContext : Type := mkTaskCx { tc_ra : Z; tc_sp : Z; tc_s : list Z }.

Definition zero_init : TaskContext := {| tc_ra := 0; tc_sp := 0; tc_s := replicate 12 0 |}.
Definition goto_trap_return (L : LinkerSymbols) (kstack_ptr : Z) : TaskContext :=
  {| tc_ra := trap_return_addr L; tc_sp := kstack_ptr; tc_s := replicate 12 0 |}.

End Signals.
Import Signals.

(** ** Lemmas *)

Lemma SignalFlags_from_bits_total b : in_width 32 b -> sig_from_bits b = Some b.
Proof.
  intros Hb. unfold sig_from_bits, from_bits.
  assert (Z.land b (bit_not 64 SignalFlags_all) = 0) as ->; [|done].
  apply Z.bits_inj'. intros i Hi. rewrite Z.land_spec, Z.bits_0, testbit_bit_not by lia.
  change SignalFlags_all with (Z.ones 32). rewrite Z.testbit_ones_nonneg by lia.
  destruct (Z.ltb_spec i 32); [by rewrite andb_false_r|].
  by rewrite (testbit_high 32) by (done || lia).
Qed.

Lemma sig_contains_bit f i : 0 <= i -> sig_contains f (Z.shiftl 1 i) = Z.testbit f i.
Proof. apply bits_contains_bit. Qed.

Lemma testbit_toggle f i j :
  0 <= i -> 0 <= j ->
  Z.testbit (sig_toggle f (Z.shiftl 1 i)) j = xorb (Z.testbit f j) (bool_decide (i = j)).
Proof. intros. unfold sig_toggle. by rewrite Z.lxor_spec, testbit_one_shift. Qed.

(** Toggling a pending signal removes it and nothing else. *)
Lemma toggle_clears f i j :
  0 <= i -> 0 <= j -> Z.testbit f i = true ->
  Z.testbit (sig_toggle f (Z.shiftl 1 i)) j = (negb (bool_decide (i = j)) && Z.testbit f j)%bool.
Proof.
  intros Hi Hj Hf. rewrite testbit_toggle by done. case_bool_decide; subst; [by rewrite Hf|].
  by rewrite xorb_false_r.
Qed.

Lemma length_load_words m a n : length (load_words m a n) = n.
Proof. revert a. induction n; intros; cbn; f_equal; auto. Qed.

Lemma store_words_outside m a ws y :
  y < a \/ a + 8 * Z.of_nat (length ws) <= y -> load (store_words m a ws) y = load m y.
Proof.
  revert m a. induction ws as [|v ws IH]; intros m a Hy; [done|]. cbn [store_words length] in *.
  rewrite IH by lia. unfold store_u64. rewrite load_store_bytes, length_le_bytes by lia.
  rewrite decide_False by lia. done.
Qed.

Lemma load_store_words m a ws :
  Forall (in_width 64) ws -> load_words (store_words m a ws) a (length ws) = ws.
Proof.
  revert m a. induction ws as [|v ws IH]; intros m a Hw; [done|].
  apply Forall_cons in Hw as [Hv Hw]. cbn [store_words load_words length]. f_equal; [|by apply IH].
  rewrite (load_u64_ext _ (store_u64 m a v)); [by apply load_u64_store_same|].
  intros y Hy. apply store_words_outside. lia.
Qed.

Lemma trap_cx_of_words_words cx : length (cx_x cx) = 32%nat -> trap_cx_of_words (trap_cx_words cx) = cx.
Proof.
  intros Hl. unfold trap_cx_of_words, trap_cx_words. destruct cx as [xs a b c d e]; cbn [cx_x] in *.
  rewrite take_app_length' by done. rewrite !app_nth2 by lia. by rewrite !Hl.
Qed.

(** A trap context written to memory is read back unchanged. *)
Lemma load_store_trap_cx m ppn cx : trap_cx_wf cx -> load_trap_cx (store_trap_cx m ppn cx) ppn = cx.
Proof.
  intros [Hl Hw]. unfold load_trap_cx, store_trap_cx.
  replace 37%nat with (length (trap_cx_words cx))
    by (unfold trap_cx_words; rewrite length_app, Hl; done).
  rewrite load_store_words by done. by apply trap_cx_of_words_words.
Qed.

Lemma le_value_in_width n bs :
  0 <= n -> length bs = Z.to_nat n -> Forall (in_width 8) bs -> in_width (8 * n) (le_value bs).
Proof.
  intros Hn Hl Hb. unfold le_value. pose proof (little_endian_to_Z_bound 8 bs) as Hbd.
  unfold in_width. replace (8 * n) with (Z.of_nat (length bs) * 8) by lia.
  apply Hbd; [lia|]. exact Hb.
Qed.
