(* ===== verification/Task.v ===== *)
(** * Tasks

    Models [os/src/task/task.rs]: the mutable part of a task control block and
    the descriptor allocation.  A [TaskControlBlock] is identified by its PID
    (PIDs of live blocks are distinct), so [parent] and [children] hold PIDs. *)
From S2P Require Import Prelude IpcApi Quota Timer AuditLog AuditFacts Facade.
From S2P Require Import Address Allocators PageTable MemorySet Signals UserAccess Pipe.
Import Mem PageTable MemorySet Signals Pipe.

Module Task.

Inductive TaskStatus : Type := Ready | Running | Zombie.

#[export] Instance TaskStatus_eq_dec : EqDecision TaskStatus.
Proof. solve_decision. Defined.

(** An [Arc<dyn File>]: one of the four kinds of file.  [FInode] is a key into
    the heap of open files, [FPipe] one end of a pipe. *)
Inductive FileRef : Type :=
| FStdin
| FStdout
| FPipe (p : Pipe)
| FInode (id : Z).

#[export] Instance FileRef_eq_dec : EqDecision FileRef.
Proof. solve_decision. Defined.

Record TaskControlBlockInner : Type := mkTcb {
  trap_cx_ppn : Z;
  base_size : Z;
  task_cx : TaskContext;
  task_status : TaskStatus;
  memory_set : MemorySet;
  parent : option Z;
  children : list Z;
  exit_code : Z;
  fd_table : list (option FileRef);
  security : Facade.ProcessSecurityState;
  signals : Z;
  signal_mask : Z;
  handling_sig : Z;
  signal_actions : list SignalAction;
  killed : bool;
  frozen : bool;
  trap_ctx_backup : option TrapContext;
}.

(** One field changed, the others kept. *)
Definition set_trap_cx_ppn (t : TaskControlBlockInner) (v : Z) : TaskControlBlockInner :=
  {| trap_cx_ppn := v; base_size := base_size t; task_cx := task_cx t;
     task_status := task_status t; memory_set := memory_set t; parent := parent t;
     children := children t; exit_code := exit_code t; fd_table := fd_table t;
     security := security t; signals := signals t; signal_mask := signal_mask t;
     handling_sig := handling_sig t; signal_actions := signal_actions t; killed := killed t;
     frozen := frozen t; trap_ctx_backup := trap_ctx_backup t |}.
Definition set_task_status (t : TaskControlBlockInner) (v : TaskStatus) : TaskControlBlockInner :=
  {| trap_cx_ppn := trap_cx_ppn t; base_size := base_size t; task_cx := task_cx t;
     task_status := v; memory_set := memory_set t; parent := parent t; children := children t;
     exit_code := exit_code t; fd_table := fd_table t; security := security t;
     signals := signals t; signal_mask := signal_mask t; handling_sig := handling_sig t;
     signal_actions := signal_actions t; killed := killed t; frozen := frozen t;
     trap_ctx_backup := trap_ctx_backup t |}.
Definition set_memory_set (t : TaskControlBlockInner) (v : MemorySet) : TaskControlBlockInner :=
  {| trap_cx_ppn := trap_cx_ppn t; base_size := base_size t; task_cx := task_cx t;
     task_status := task_status t; memory_set := v; parent := parent t; children := children t;
     exit_code := exit_code t; fd_table := fd_table t; security := security t;
     signals := signals t; signal_mask := signal_mask t; handling_sig := handling_sig t;
     signal_actions := signal_actions t; killed := killed t; frozen := frozen t;
     trap_ctx_backup := trap_ctx_backup t |}.
Definition set_parent (t : TaskControlBlockInner) (v : option Z) : TaskControlBlockInner :=
  {| trap_cx_ppn := trap_cx_ppn t; base_size := base_size t; task_cx := task_cx t;
     task_status := task_status t; memory_set := memory_set t; parent := v;
     children := children t; exit_code := exit_code t; fd_table := fd_table t;
     security := security t; signals := signals t; signal_mask := signal_mask t;
     handling_sig := handling_sig t; signal_actions := signal_actions t; killed := killed t;
     frozen := frozen t; trap_ctx_backup := trap_ctx_backup t |}.
Definition set_children (t : TaskControlBlockInner) (v : list Z) : TaskControlBlockInner :=
  {| trap_cx_ppn := trap_cx_ppn t; base_size := base_size t; task_cx := task_cx t;
     task_status := task_status t; memory_set := memory_set t; parent := parent t;
     children := v; exit_code := exit_code t; fd_table := fd_table t; security := security t;
     signals := signals t; signal_mask := signal_mask t; handling_sig := handling_sig t;
     signal_actions := signal_actions t; killed := killed t; frozen := frozen t;
     trap_ctx_backup := trap_ctx_backup t |}.
Definition set_exit_code (t : TaskControlBlockInner) (v : Z) : TaskControlBlockInner :=
  {| trap_cx_ppn := trap_cx_ppn t; base_size := base_size t; task_cx := task_cx t;
     task_status := task_status t; memory_set := memory_set t; parent := parent t;
     children := children t; exit_code := v; fd_table := fd_table t; security := security t;
     signals := signals t; signal_mask := signal_mask t; handling_sig := handling_sig t;
     signal_actions := signal_actions t; killed := killed t; frozen := frozen t;
     trap_ctx_backup := trap_ctx_backup t |}.
Definition set_fd_table (t : TaskControlBlockInner) (v : list (option FileRef)) : TaskControlBlockInner :=
  {| trap_cx_ppn := trap_cx_ppn t; base_size := base_size t; task_cx := task_cx t;
     task_status := task_status t; memory_set := memory_set t; parent := parent t;
     children := children t; exit_code := exit_code t; fd_table := v; security := security t;
     signals := signals t; signal_mask := signal_mask t; handling_sig := handling_sig t;
     signal_actions := signal_actions t; killed := killed t; frozen := frozen t;
     trap_ctx_backup := trap_ctx_backup t |}.
Definition set_security (t : TaskControlBlockInner) (v : Facade.ProcessSecurityState) : TaskControlBlockInner :=
  {| trap_cx_ppn := trap_cx_ppn t; base_size := base_size t; task_cx := task_cx t;
     task_status := task_status t; memory_set := memory_set t; parent := parent t;
     children := children t; exit_code := exit_code t; fd_table := fd_table t; security := v;
     signals := signals t; signal_mask := signal_mask t; handling_sig := handling_sig t;
     signal_actions := signal_actions t; killed := killed t; frozen := frozen t;
     trap_ctx_backup := trap_ctx_backup t |}.
Definition set_signals (t : TaskControlBlockInner) (v : Z) : TaskControlBlockInner :=
  {| trap_cx_ppn := trap_cx_ppn t; base_size := base_size t; task_cx := task_cx t;
     task_status := task_status t; memory_set := memory_set t; parent := parent t;
     children := children t; exit_code := exit_code t; fd_table := fd_table t;
     security := security t; signals := v; signal_mask := signal_mask t;
     handling_sig := handling_sig t; signal_actions := signal_actions t; killed := killed t;
     frozen := frozen t; trap_ctx_backup := trap_ctx_backup t |}.
Definition set_signal_mask (t : TaskControlBlockInner) (v : Z) : TaskControlBlockInner :=
  {| trap_cx_ppn := trap_cx_ppn t; base_size := base_size t; task_cx := task_cx t;
     task_status := task_status t; memory_set := memory_set t; parent := parent t;
     children := children t; exit_code := exit_code t; fd_table := fd_table t;
     security := security t; signals := signals t; signal_mask := v;
     handling_sig := handling_sig t; signal_actions := signal_actions t; killed := killed t;
     frozen := frozen t; trap_ctx_backup := trap_ctx_backup t |}.
Definition set_handling_sig (t : TaskControlBlockInner) (v : Z) : TaskControlBlockInner :=
  {| trap_cx_ppn := trap_cx_ppn t; base_size := base_size t; task_cx := task_cx t;
     task_status := task_status t; memory_set := memory_set t; parent := parent t;
     children := children t; exit_code := exit_code t; fd_table := fd_table t;
     security := security t; signals := signals t; signal_mask := signal_mask t;
     handling_sig := v; signal_actions := signal_actions t; killed := killed t;
     frozen := frozen t; trap_ctx_backup := trap_ctx_backup t |}.
Definition set_signal_actions (t : TaskControlBlockInner) (v : list SignalAction) : TaskControlBlockInner :=
  {| trap_cx_ppn := trap_cx_ppn t; base_size := base_size t; task_cx := task_cx t;
     task_status := task_status t; memory_set := memory_set t; parent := parent t;
     children := children t; exit_code := exit_code t; fd_table := fd_table t;
     security := security t; signals := signals t; signal_mask := signal_mask t;
     handling_sig := handling_sig t; signal_actions := v; killed := killed t;
     frozen := frozen t; trap_ctx_backup := trap_ctx_backup t |}.
Definition set_killed (t : TaskControlBlockInner) (v : bool) : TaskControlBlockInner :=
  {| trap_cx_ppn := trap_cx_ppn t; base_size := base_size t; task_cx := task_cx t;
     task_status := task_status t; memory_set := memory_set t; parent := parent t;
     children := children t; exit_code := exit_code t; fd_table := fd_table t;
     security := security t; signals := signals t; signal_mask := signal_mask t;
     handling_sig := handling_sig t; signal_actions := signal_actions t; killed := v;
     frozen := frozen t; trap_ctx_backup := trap_ctx_backup t |}.
Definition set_frozen (t : TaskControlBlockInner) (v : bool) : TaskControlBlockInner :=
  {| trap_cx_ppn := trap_cx_ppn t; base_size := base_size t; task_cx := task_cx t;
     task_status := task_status t; memory_set := memory_set t; parent := parent t;
     children := children t; exit_code := exit_code t; fd_table := fd_table t;
     security := security t; signals := signals t; signal_mask := signal_mask t;
     handling_sig := handling_sig t; signal_actions := signal_actions t; killed := killed t;
     frozen := v; trap_ctx_backup := trap_ctx_backup t |}.
Definition set_trap_ctx_backup (t : TaskControlBlockInner) (v : option TrapContext) : TaskControlBlockInner :=
  {| trap_cx_ppn := trap_cx_ppn t; base_size := base_size t; task_cx := task_cx t;
     task_status := task_status t; memory_set := memory_set t; parent := parent t;
     children := children t; exit_code := exit_code t; fd_table := fd_table t;
     security := security t; signals := signals t; signal_mask := signal_mask t;
     handling_sig := handling_sig t; signal_actions := signal_actions t; killed := killed t;
     frozen := frozen t; trap_ctx_backup := v |}.

Definition get_user_token (t : TaskControlBlockInner) : Z := ms_token (memory_set t).
Definition is_zombie (t : TaskControlBlockInner) : bool := bool_decide (task_status t = Zombie).

(** [(0..len).find(|fd| table[fd].is_none())] *)
Fixpoint find_free (table : list (option FileRef)) : option nat :=
  match table with
  | [] => None
  | None :: _ => Some O
  | Some _ :: rest => S <$> find_free rest
  end.

(** [alloc_fd]: the lowest free slot, growing the table if there is none. *)
Definition alloc_fd (table : list (option FileRef)) : Z * list (option FileRef) :=
  match find_free table with
  | Some fd => (Z.of_nat fd, table)
  | None => (Z.of_nat (length table), table ++ [None])
  end.

(** The copy loop of [fork]. *)
Definition fork_fd_table (table : list (option FileRef)) : list (option FileRef) :=
  (fun fd => match fd with Some file => Some file | None => None end) <$> table.

(** The block [TaskControlBlock::new] builds, once its memory is set up. *)
Definition new_inner (trap_cx_ppn user_sp : Z) (cx : TaskContext) (ms : MemorySet)
    : TaskControlBlockInner :=
  {| trap_cx_ppn := trap_cx_ppn; base_size := user_sp; task_cx := cx; task_status := Ready;
     memory_set := ms; parent := None; children := []; exit_code := 0;
     fd_table := [Some FStdin; Some FStdout; Some FStdout];
     security := Facade.initial; signals := 0; signal_mask := 0; handling_sig := -1;
     signal_actions := actions_default; killed := false; frozen := false;
     trap_ctx_backup := None |}.

(** The child block [fork] builds. *)
Definition fork_inner (parent_pid : Z) (parent_inner : TaskControlBlockInner)
    (trap_cx_ppn : Z) (cx : TaskContext) (ms : MemorySet) : TaskControlBlockInner :=
  {| trap_cx_ppn := trap_cx_ppn; base_size := base_size parent_inner; task_cx := cx;
     task_status := Ready; memory_set := ms; parent := Some parent_pid; children := [];
     exit_code := 0; fd_table := fork_fd_table (fd_table parent_inner);
     security := Facade.fork_from (security parent_inner);
     signals := 0; signal_mask := signal_mask parent_inner; handling_sig := -1;
     signal_actions := signal_actions parent_inner; killed := false; frozen := false;
     trap_ctx_backup := None |}.

End Task.
