(* ===== verification/Kernel.v ===== *)
(** * The kernel state, the scheduler and the open files

    Models [os/src/task/manager.rs], [processor.rs], [pid.rs] (kernel stacks),
    the task switching half of [task/mod.rs], [fs/mod.rs], [fs/stdio.rs] and
    [fs/inode.rs].  The file system behind [fs/inode.rs] is the crate easy-fs,
    reached through the interface [FileSystem].

    The kernel runs on one hart.  A task that gives up the processor comes back
    later in a state the other tasks have changed: every operation that can
    suspend takes the list of those changes (see [Pipe]), and
    [suspend_current_and_run_next] shows where they happen. *)
From S2P Require Import Prelude Utf8 IpcApi Quota Timer AuditLog AuditFacts Facade.
From S2P Require Import Address Allocators PageTable MemorySet Signals UserAccess Pipe Task.
Import Timer Audit Mem PageTable MemorySet Signals UserAccess Pipe Task.

(** ** Interfaces to code outside the kernel *)

(** What [fs/inode.rs] uses of easy-fs: operations on the root directory and on
    inodes.  [fs_read_at] returns the bytes that go into the buffer. *)
Class FileSystem (F : Type) : Type := {
  inode : Type;
  fs_find : F -> list Z -> outcome (option inode * F);
  fs_create : F -> list Z -> outcome (option inode * F);
  fs_clear : F -> inode -> outcome F;
  fs_read_at : F -> inode -> Z -> Z -> outcome (list Z * F);
  fs_write_at : F -> inode -> Z -> list Z -> outcome (Z * F);
  fs_ls : F -> outcome (list (list Z) * F);
}.

(** The machine: linker symbols, the ELF reader and the [sstatus] CSR. *)
Record Platform : Type := mkPlatform {
  linker : LinkerSymbols;
  elf_reader : ElfReader;
  sstatus_csr : Z;
}.

Module Kernel.

(** [OSInode]: the offset is shared by every descriptor that refers to it. *)
Record OSInode {F} {FS : FileSystem F} : Type := mkOSInode {
  oi_readable : bool;
  oi_writable : bool;
  oi_offset : Z;
  oi_inode : inode;
}.
Arguments OSInode F {FS}.

Record Sched : Type := mkSched {
  tasks : gmap Z TaskControlBlockInner;   (** the live blocks *)
  PID2TCB : gset Z;                       (** the keys of the map *)
  ready_queue : list Z;
  current : option Z;
}.

Record Io {F} {FS : FileSystem F} : Type := mkIoState {
  NEXT_PIPE_ID : Z;
  rings : gmap Z PipeRingBuffer;          (** keyed by pipe identifier *)
  os_inodes : gmap Z (OSInode F);
  next_inode_key : Z;
  held : list FileRef;                    (** [Arc]s on the stacks of suspended calls *)
  fs_state : F;
  console_in : list Z;                    (** what [console_getchar] will return *)
  console_out : list Z;                   (** characters written so far *)
}.
Arguments Io F {FS}.

Record Kernel {F} {FS : FileSystem F} : Type := mkKernel {
  k_fw : FrameWorld;
  KERNEL_SPACE : MemorySet;
  PID_ALLOCATOR : Pids.PidAllocator;
  k_sched : Sched;
  k_audit : AuditWorld;
  k_io : Io F;
}.
Arguments Kernel F {FS}.

Section State.
Context {F : Type} {FS : FileSystem F}.
Implicit Type k : Kernel F.

Definition set_fw k v : Kernel F :=
  mkKernel F FS v (KERNEL_SPACE k) (PID_ALLOCATOR k) (k_sched k) (k_audit k) (k_io k).
Definition set_kernel_space k v : Kernel F :=
  mkKernel F FS (k_fw k) v (PID_ALLOCATOR k) (k_sched k) (k_audit k) (k_io k).
Definition set_pids k v : Kernel F :=
  mkKernel F FS (k_fw k) (KERNEL_SPACE k) v (k_sched k) (k_audit k) (k_io k).
Definition set_sched k v : Kernel F :=
  mkKernel F FS (k_fw k) (KERNEL_SPACE k) (PID_ALLOCATOR k) v (k_audit k) (k_io k).
Definition set_audit k v : Kernel F :=
  mkKernel F FS (k_fw k) (KERNEL_SPACE k) (PID_ALLOCATOR k) (k_sched k) v (k_io k).
Definition set_io k v : Kernel F :=
  mkKernel F FS (k_fw k) (KERNEL_SPACE k) (PID_ALLOCATOR k) (k_sched k) (k_audit k) v.

Definition k_mem k : PhysMem := fw_mem (k_fw k).
Definition set_mem k (m : PhysMem) : Kernel F :=
  set_fw k {| fw_mem := m; fw_alloc := fw_alloc (k_fw k) |}.

Definition set_tasks k (v : gmap Z TaskControlBlockInner) : Kernel F :=
  set_sched k {| tasks := v; PID2TCB := PID2TCB (k_sched k);
                 ready_queue := ready_queue (k_sched k); current := current (k_sched k) |}.
Definition set_current k (v : option Z) : Kernel F :=
  set_sched k {| tasks := tasks (k_sched k); PID2TCB := PID2TCB (k_sched k);
                 ready_queue := ready_queue (k_sched k); current := v |}.

Definition k_tasks k : gmap Z TaskControlBlockInner := tasks (k_sched k).

(** [task.inner_exclusive_access()], read and written. *)
Definition task_inner k (pid : Z) : outcome TaskControlBlockInner := unwrap (k_tasks k !! pid).
Definition put_task k (pid : Z) (t : TaskControlBlockInner) : Kernel F :=
  set_tasks k (<[pid := t]> (k_tasks k)).

Definition set_rings k (v : gmap Z PipeRingBuffer) : Kernel F :=
  set_io k (mkIoState F FS (NEXT_PIPE_ID (k_io k)) v (os_inodes (k_io k)) (next_inode_key (k_io k))
              (held (k_io k)) (fs_state (k_io k)) (console_in (k_io k)) (console_out (k_io k))).
Definition set_next_pipe_id k (v : Z) : Kernel F :=
  set_io k (mkIoState F FS v (rings (k_io k)) (os_inodes (k_io k)) (next_inode_key (k_io k))
              (held (k_io k)) (fs_state (k_io k)) (console_in (k_io k)) (console_out (k_io k))).
Definition set_os_inodes k (v : gmap Z (OSInode F)) (next : Z) : Kernel F :=
  set_io k (mkIoState F FS (NEXT_PIPE_ID (k_io k)) (rings (k_io k)) v next
              (held (k_io k)) (fs_state (k_io k)) (console_in (k_io k)) (console_out (k_io k))).
Definition set_held k (v : list FileRef) : Kernel F :=
  set_io k (mkIoState F FS (NEXT_PIPE_ID (k_io k)) (rings (k_io k)) (os_inodes (k_io k))
              (next_inode_key (k_io k)) v (fs_state (k_io k)) (console_in (k_io k))
              (console_out (k_io k))).
Definition set_fs k (v : F) : Kernel F :=
  set_io k (mkIoState F FS (NEXT_PIPE_ID (k_io k)) (rings (k_io k)) (os_inodes (k_io k))
              (next_inode_key (k_io k)) (held (k_io k)) v (console_in (k_io k))
              (console_out (k_io k))).
Definition set_console k (i o : list Z) : Kernel F :=
  set_io k (mkIoState F FS (NEXT_PIPE_ID (k_io k)) (rings (k_io k)) (os_inodes (k_io k))
              (next_inode_key (k_io k)) (held (k_io k)) (fs_state (k_io k)) i o).

(** ** [manager.rs] and [processor.rs] *)

Definition add_task k (pid : Z) : Kernel F :=
  set_sched k {| tasks := k_tasks k; PID2TCB := {[pid]} ∪ PID2TCB (k_sched k);
                 ready_queue := ready_queue (k_sched k) ++ [pid];
                 current := current (k_sched k) |}.

Definition fetch_task k : option Z * Kernel F :=
  match ready_queue (k_sched k) with
  | [] => (None, k)
  | pid :: rest =>
      (Some pid, set_sched k {| tasks := k_tasks k; PID2TCB := PID2TCB (k_sched k);
                                ready_queue := rest; current := current (k_sched k) |})
  end.

Definition pid2task k (pid : Z) : option Z :=
  if decide (pid ∈ PID2TCB (k_sched k)) then Some pid else None.

Definition remove_from_pid2task k (pid : Z) : outcome (Kernel F) :=
  if decide (pid ∈ PID2TCB (k_sched k)) then
    Ret (set_sched k {| tasks := k_tasks k; PID2TCB := PID2TCB (k_sched k) ∖ {[pid]};
                        ready_queue := ready_queue (k_sched k); current := current (k_sched k) |})
  else Panic.

Definition current_task k : option Z := current (k_sched k).
Definition take_current_task k : option Z * Kernel F :=
  (current (k_sched k), set_current k None).

Definition current_user_token k : outcome Z :=
  pid ← unwrap (current_task k);
  t ← task_inner k pid;
  Ret (get_user_token t).

(** One round of the loop of [run_tasks]: [None] when nothing is ready. *)
Definition run_tasks_round k : outcome (option (Kernel F)) :=
  let '(next, k1) := fetch_task k in
  match next with
  | None => Ret None
  | Some pid =>
      t ← task_inner k1 pid;
      Ret (Some (set_current (put_task k1 pid (set_task_status t Running)) (Some pid)))
  end.

(** The half of [suspend_current_and_run_next] before the switch. *)
Definition suspend_current k : outcome (Kernel F) :=
  let '(cur, k1) := take_current_task k in
  pid ← unwrap cur;
  t ← task_inner k1 pid;
  Ret (add_task (put_task k1 pid (set_task_status t Ready)) pid).

(** The whole call: [others] is what happens until the scheduler loop reaches
    this task again; a run in which it does not is cut short. *)
Definition suspend_current_and_run_next k (others : Kernel F -> Kernel F) : outcome (Kernel F) :=
  k1 ← suspend_current k;
  r ← run_tasks_round (others k1);
  match r with
  | Some k2 =>
      if bool_decide (current_task k2 = current_task k) then Ret k2 else OutOfFuel
  | None => OutOfFuel
  end.

(** ** Kernel stacks *)

Definition kernel_stack_new k (pid : Z) : outcome (Kernel F) :=
  let '(bottom, top) := Pids.kernel_stack_position pid in
  '(ms, w) ← insert_framed_area (k_fw k) (KERNEL_SPACE k)
               (Address.VirtAddr_from bottom) (Address.VirtAddr_from top) (Z.lor PERM_R PERM_W);
  Ret (set_fw (set_kernel_space k ms) w).

Definition kernel_stack_top (pid : Z) : Z := (Pids.kernel_stack_position pid).2.

Definition kernel_stack_drop k (pid : Z) : outcome (Kernel F) :=
  let '(bottom, _) := Pids.kernel_stack_position pid in
  vpn ← Address.page_num_from_addr (Address.VirtAddr_from bottom);
  '(ms, w) ← remove_area_with_start_vpn (k_fw k) (KERNEL_SPACE k) vpn;
  Ret (set_fw (set_kernel_space k ms) w).

(** Dropping the last reference to a task control block: the PID, the kernel
    stack and the address space go back. *)
Definition drop_tcb k (pid : Z) : outcome (Kernel F) :=
  t ← task_inner k pid;
  pids ← Pids.dealloc (PID_ALLOCATOR k) pid;
  k1 ← kernel_stack_drop (set_pids k pids) pid;
  w ← drop_memory_set (k_fw k1) (memory_set t);
  Ret (set_tasks (set_fw k1 w) (delete pid (k_tasks k1))).

(** ** Files *)

Definition file_readable k (f : FileRef) : bool :=
  match f with
  | FStdin => true
  | FStdout => false
  | FPipe p => p_readable p
  | FInode id => match os_inodes (k_io k) !! id with Some o => oi_readable o | None => false end
  end.

Definition file_writable k (f : FileRef) : bool :=
  match f with
  | FStdin => false
  | FStdout => true
  | FPipe p => p_writable p
  | FInode id => match os_inodes (k_io k) !! id with Some o => oi_writable o | None => false end
  end.

Definition ipc_object (f : FileRef) : option IpcObject :=
  match f with FPipe p => Some (p_object p) | _ => None end.

(** A strong reference to the write end of pipe [b]. *)
Definition is_write_end (b : Z) (f : option FileRef) : bool :=
  match f with Some (FPipe p) => p_writable p && (p_buffer p =? b) | _ => false end.

Definition write_end_alive k (b : Z) : bool :=
  existsb (fun kv => existsb (is_write_end b) (fd_table kv.2)) (map_to_list (k_tasks k))
  || existsb (fun f => is_write_end b (Some f)) (held (k_io k)).

#[export] Instance kernel_pipe_host : PipeHost (Kernel F) := {|
  host_ring := fun k b => rings (k_io k) !! b;
  host_set_ring := fun k b r => set_rings k (<[b := r]> (rings (k_io k)));
  host_mem := k_mem;
  host_set_mem := set_mem;
  host_alive := write_end_alive;
  host_suspend := suspend_current_and_run_next;
|}.

(** [make_pipe]: the pipe identifier is the key of the ring. *)
Definition make_pipe k (owner_uid : Z) : Kernel F * IpcResult (Pipe * Pipe) :=
  let '(next, r) := allocate_pipe_id (NEXT_PIPE_ID (k_io k)) in
  match r with
  | Err e => (set_next_pipe_id k next, Err e)
  | Ok id =>
      let object := {| object_id := id; object_owner_uid := owner_uid |} in
      let k1 := set_next_pipe_id k next in
      let read_end := read_end_with_buffer id object in
      let write_end := write_end_with_buffer id object in
      let k2 := set_rings k1 (<[id := set_write_end ring_new id]> (rings (k_io k1))) in
      (k2, Ok (read_end, write_end))
  end.

(** *** [stdio.rs] *)

Definition console_getchar k : Z * Kernel F :=
  match console_in (k_io k) with
  | [] => (0, k)
  | c :: rest => (c, set_console k rest (console_out (k_io k)))
  end.

Fixpoint stdin_wait k (env : list (Kernel F -> Kernel F)) : outcome (Kernel F * option Z) :=
  let '(c, k1) := console_getchar k in
  if negb (c =? 0) then Ret (k1, Some c)
  else match env with
       | [] => Ret (k1, None)
       | f :: env' => k2 ← suspend_current_and_run_next k1 f; stdin_wait k2 env'
       end.

Definition stdin_read k (buf : list slice) (env : list (Kernel F -> Kernel F))
    : outcome (Kernel F * option Z) :=
  _ ← assert_ (ub_len buf =? 1);
  '(k1, r) ← stdin_wait k env;
  match r with
  | None => Ret (k1, None)
  | Some c =>
      '(a, _) ← index buf 0;
      Ret (set_mem k1 (store (k_mem k1) a (wrap 8 c)), Some 1)
  end.

Fixpoint print_buffers k (buf : list slice) : outcome (Kernel F) :=
  match buf with
  | [] => Ret k
  | (a, n) :: rest =>
      let bytes := load_bytes (k_mem k) a (Z.to_nat n) in
      cs ← unwrap (from_utf8 (S (length bytes)) bytes);
      print_buffers (set_console k (console_in (k_io k)) (console_out (k_io k) ++ cs)) rest
  end.

Definition stdout_write k (buf : list slice) : outcome (Kernel F * Z) :=
  k' ← print_buffers k buf; Ret (k', ub_len buf).

(** *** [inode.rs] *)

Definition RDONLY : Z := 0.
Definition WRONLY : Z := Z.shiftl 1 0.
Definition RDWR : Z := Z.shiftl 1 1.
Definition CREATE : Z := Z.shiftl 1 9.
Definition TRUNC : Z := Z.shiftl 1 10.
Definition OpenFlags_all : Z := Z.lor (Z.lor WRONLY RDWR) (Z.lor CREATE TRUNC).

Definition open_flags_from_bits (b : Z) : option Z := from_bits OpenFlags_all b.

Definition read_write (flags : Z) : bool * bool :=
  if flags =? 0 then (true, false)
  else if bits_contains flags WRONLY then (false, true)
  else (true, true).

(** [Arc::new(OSInode::new(..))]: a new key in the heap of open files. *)
Definition new_os_inode k (r w : bool) (i : inode) : Kernel F * Z :=
  let key := next_inode_key (k_io k) in
  (set_os_inodes k (<[key := mkOSInode F FS r w 0 i]> (os_inodes (k_io k))) (key + 1), key).

Definition open_file k (name : list Z) (flags : Z) : outcome (Kernel F * option Z) :=
  let '(r, w) := read_write flags in
  if bits_contains flags CREATE then
    '(found, fs1) ← fs_find (fs_state (k_io k)) name;
    match found with
    | Some i =>
        fs2 ← fs_clear fs1 i;
        let '(k', key) := new_os_inode (set_fs k fs2) r w i in Ret (k', Some key)
    | None =>
        '(created, fs2) ← fs_create fs1 name;
        match created with
        | Some i => let '(k', key) := new_os_inode (set_fs k fs2) r w i in Ret (k', Some key)
        | None => Ret (set_fs k fs2, None)
        end
    end
  else
    '(found, fs1) ← fs_find (fs_state (k_io k)) name;
    match found with
    | Some i =>
        fs2 ← (if bits_contains flags TRUNC then fs_clear fs1 i else Ret fs1);
        let '(k', key) := new_os_inode (set_fs k fs2) r w i in Ret (k', Some key)
    | None => Ret (set_fs k fs1, None)
    end.

Definition os_inode k (key : Z) : outcome (OSInode F) := unwrap (os_inodes (k_io k) !! key).
Definition put_offset k (key : Z) (o : OSInode F) (off : Z) : Kernel F :=
  set_os_inodes k
    (<[key := mkOSInode F FS (oi_readable o) (oi_writable o) off (oi_inode o)]> (os_inodes (k_io k)))
    (next_inode_key (k_io k)).

(** [read_all] reads 512 bytes at a time until a read returns nothing. *)
Fixpoint read_all (fuel : nat) k (key : Z) (acc : list Z) : outcome (Kernel F * list Z) :=
  match fuel with
  | O => OutOfFuel
  | S fuel' =>
      o ← os_inode k key;
      '(bytes, fs') ← fs_read_at (fs_state (k_io k)) (oi_inode o) (oi_offset o) 512;
      let k1 := set_fs k fs' in
      let len := Z.of_nat (length bytes) in
      if len =? 0 then Ret (k1, acc)
      else read_all fuel' (put_offset k1 key o (oi_offset o + len)) key (acc ++ bytes)
  end.

Fixpoint inode_read k (key : Z) (buf : list slice) (total : Z) : outcome (Kernel F * Z) :=
  match buf with
  | [] => Ret (k, total)
  | (a, n) :: rest =>
      o ← os_inode k key;
      '(bytes, fs') ← fs_read_at (fs_state (k_io k)) (oi_inode o) (oi_offset o) n;
      let k1 := set_mem (set_fs k fs') (store_bytes (k_mem k) a bytes) in
      let read_size := Z.of_nat (length bytes) in
      if read_size =? 0 then Ret (k1, total)
      else inode_read (put_offset k1 key o (oi_offset o + read_size)) key rest (total + read_size)
  end.

Fixpoint inode_write k (key : Z) (buf : list slice) (total : Z) : outcome (Kernel F * Z) :=
  match buf with
  | [] => Ret (k, total)
  | (a, n) :: rest =>
      o ← os_inode k key;
      '(write_size, fs') ← fs_write_at (fs_state (k_io k)) (oi_inode o) (oi_offset o)
                             (load_bytes (k_mem k) a (Z.to_nat n));
      _ ← assert_ (write_size =? n);
      inode_write (put_offset (set_fs k fs') key o (oi_offset o + write_size)) key rest
        (total + write_size)
  end.

(** *** Dispatch of the [File] trait *)

Definition file_read k (f : FileRef) (buf : list slice) (env : list (Kernel F -> Kernel F))
    : outcome (Kernel F * option Z) :=
  match f with
  | FStdin => stdin_read k buf env
  | FStdout => Panic
  | FPipe p => pipe_read p k buf env
  | FInode key => '(k', n) ← inode_read k key buf 0; Ret (k', Some n)
  end.

Definition file_write k (f : FileRef) (buf : list slice) (env : list (Kernel F -> Kernel F))
    : outcome (Kernel F * option Z) :=
  match f with
  | FStdin => Panic
  | FStdout => '(k', n) ← stdout_write k buf; Ret (k', Some n)
  | FPipe p => pipe_write p k buf env
  | FInode key => '(k', n) ← inode_write k key buf 0; Ret (k', Some n)
  end.

End State.
End Kernel.
