(* ===== verification/SyscallFs.v ===== *)
(** * File-descriptor system calls

    Models [os/src/syscall/fs.rs]: [sys_read], [sys_write], [sys_open],
    [sys_close], [sys_pipe], [sys_dup], and how a call reaches the security
    facade with the state of the calling task. *)
From S2P Require Import Prelude IpcApi Quota Timer AuditLog AuditFacts Facade.
From S2P Require Import Address Allocators PageTable MemorySet Signals UserAccess Pipe Task Kernel.
Import Mem PageTable UserAccess Pipe Task Kernel.

Module SyscallFs.

(** How a system call ends: with a value in [a0]; with the task gone; with the
    machine shut down; or still suspended when the given interference ends. *)
Inductive sysret : Type :=
| Returned (v : Z)
| Exited
| Shutdown (failure : bool)
| Waiting.

Definition ipc_error_to_ret (error : IpcError) : Z :=
  match error with
  | PermissionDenied => -1
  | InvalidAddress => -14
  | InvalidArgument => -22
  | ProcessNotFound => -3
  | TooManyFiles => -24
  | ResourceExhausted => -28
  | TryAgain => -11
  end.

(** [value as isize] *)
Definition as_isize (v : Z) : Z := to_signed 64 v.

(** The bytes of a Rust [String] whose characters are below 256. *)
Definition string_bytes (s : list Z) : list Z :=
  concat ((fun c => if c <? 0x80 then [c] else [Z.lor 0xc0 (Z.shiftr c 6); Z.lor 0x80 (Z.land c 0x3f)]) <$> s).

Section FsCalls.
Context {F : Type} {FS : FileSystem F}.
Implicit Type k : Kernel F.
Abbreviation env := (list (Kernel F -> Kernel F)).

Definition ret k (v : Z) : outcome (Kernel F * sysret) := Ret (k, Returned v).

(** [preflight(&mut inner.security, request)] for the task [pid]. *)
Definition task_preflight k (pid : Z) (request : IpcRequest)
    : outcome (Kernel F * IpcResult Facade.IpcPermit) :=
  t ← task_inner k pid;
  '(s, w, r) ← Facade.preflight (security t) (k_audit k) request;
  Ret (set_audit (put_task k pid (set_security t s)) w, r).

Definition task_complete k (pid : Z) (permit : Facade.IpcPermit) (out : IpcResult Z)
    : outcome (Kernel F * IpcResult Z) :=
  t ← task_inner k pid;
  '(s, w, r) ← Facade.complete (security t) (k_audit k) permit out;
  Ret (set_audit (put_task k pid (set_security t s)) w, r).

Definition record_failure k (request : IpcRequest) (error : IpcError) : outcome (Kernel F) :=
  w ← Facade.record_failure (k_audit k) request error; Ret (set_audit k w).

(** The common ending [match complete(..) { Ok(value) => .., Err(error) => .. }]. *)
Definition finish_ipc k (pid : Z) (permit : Facade.IpcPermit) (out : IpcResult Z)
    : outcome (Kernel F * sysret) :=
  '(k', r) ← task_complete k pid permit out;
  match r with
  | Ok value => ret k' (as_isize value)
  | Err error => ret k' (ipc_error_to_ret error)
  end.

Definition subject_of (pid : Z) (s : Facade.ProcessSecurityState) : IpcSubject :=
  let credentials := Facade.sec_credentials s in
  {| subject_pid := pid; subject_uid := Credentials.uid credentials;
     subject_capabilities := Credentials.capabilities credentials |}.

Definition io_request (pid : Z) (s : Facade.ProcessSecurityState) (op : IpcOperation) (len : Z)
    (file : FileRef) : option IpcRequest :=
  (fun object => {| req_subject := subject_of pid s; req_object := object;
                    req_operation := op; req_amount := len |}) <$> ipc_object file.

(** The [Arc] that [sys_read] and [sys_write] hold while the file works. *)
Definition hold k (f : FileRef) : Kernel F := set_held k (f :: held (k_io k)).

Fixpoint remove_first (f : FileRef) (l : list FileRef) : list FileRef :=
  match l with
  | [] => []
  | g :: l' => if decide (g = f) then l' else g :: remove_first f l'
  end.
Definition release k (f : FileRef) : Kernel F := set_held k (remove_first f (held (k_io k))).

Definition run_file (op : Kernel F -> FileRef -> list slice -> env -> outcome (Kernel F * option Z))
    k (file : FileRef) (buffers : list slice) (e : env) : outcome (Kernel F * option Z) :=
  '(k', r) ← op (hold k file) file buffers e;
  match r with
  | Some n => Ret (release k' file, Some n)
  | None => Ret (k', None)
  end.

(** The second half of [sys_write] and [sys_read], once the user range is
    checked: I/O directly on an ordinary file, through the facade on a pipe. *)
Definition checked_io (op : Kernel F -> FileRef -> list slice -> env -> outcome (Kernel F * option Z))
    k (pid : Z) (file : FileRef) (request : option IpcRequest) (buffers : list slice) (len : Z)
    (e : env) : outcome (Kernel F * sysret) :=
  match request with
  | None =>
      if len =? 0 then ret k 0
      else
        '(k', r) ← run_file op k file buffers e;
        match r with Some n => ret k' (as_isize n) | None => Ret (k', Waiting) end
  | Some request =>
      '(k1, permit) ← task_preflight k pid request;
      match permit with
      | Err error => ret k1 (ipc_error_to_ret error)
      | Ok permit =>
          '(k2, r) ← (if len =? 0 then Ret (k1, Some 0) else run_file op k1 file buffers e);
          match r with
          | Some n => finish_ipc k2 pid permit (Ok n)
          | None => Ret (k2, Waiting)
          end
      end
  end.

Definition sys_write k (fd buf len : Z) (e : env) : outcome (Kernel F * sysret) :=
  token ← current_user_token k;
  pid ← unwrap (current_task k);
  inner ← task_inner k pid;
  if Z.of_nat (length (fd_table inner)) <=? fd then ret k (-1)
  else
    entry ← index (fd_table inner) fd;
    match entry with
    | None => ret k (-1)
    | Some file =>
        if negb (file_writable k file) then ret k (-1)
        else
          let request := io_request pid (security inner) PipeWrite len file in
          user_buffer ← copy_bytes_from_user (k_mem k) token buf len;
          match user_buffer with
          | Err error =>
              k' ← match request with
                   | Some request => record_failure k request error
                   | None => Ret k
                   end;
              ret k' (ipc_error_to_ret error)
          | Ok buffers => checked_io file_write k pid file request buffers len e
          end
    end.

Definition sys_read k (fd buf len : Z) (e : env) : outcome (Kernel F * sysret) :=
  token ← current_user_token k;
  pid ← unwrap (current_task k);
  inner ← task_inner k pid;
  if Z.of_nat (length (fd_table inner)) <=? fd then ret k (-1)
  else
    entry ← index (fd_table inner) fd;
    match entry with
    | None => ret k (-1)
    | Some file =>
        if negb (file_readable k file) then ret k (-1)
        else
          let request := io_request pid (security inner) PipeRead len file in
          buffers ← try_translated_byte_buffer (k_mem k) token buf len true;
          match buffers with
          | None =>
              k' ← match request with
                   | Some request => record_failure k request InvalidAddress
                   | None => Ret k
                   end;
              ret k' (ipc_error_to_ret InvalidAddress)
          | Some buffers => checked_io file_read k pid file request buffers len e
          end
    end.

(** [table[fd] = v], with [alloc_fd] before it. *)
Definition install_fd (table : list (option FileRef)) (f : FileRef)
    : outcome (Z * list (option FileRef)) :=
  let '(fd, table1) := alloc_fd table in
  table2 ← update table1 fd (Some f);
  Ret (fd, table2).

Definition sys_open k (path flags : Z) : outcome (Kernel F * sysret) :=
  pid ← unwrap (current_task k);
  token ← current_user_token k;
  path ← try_translated_str (k_mem k) token path MAX_STR_LEN;
  match path with
  | None => ret k (ipc_error_to_ret InvalidAddress)
  | Some path =>
      match open_flags_from_bits flags with
      | None => ret k (ipc_error_to_ret InvalidArgument)
      | Some open_flags =>
          '(k1, opened) ← open_file k (string_bytes path) open_flags;
          match opened with
          | None => ret k1 (-1)
          | Some key =>
              inner ← task_inner k1 pid;
              let '(s, r) := Facade.reserve_file_fd (security inner) in
              match r with
              | Err error => ret (put_task k1 pid (set_security inner s)) (ipc_error_to_ret error)
              | Ok _ =>
                  '(fd, table) ← install_fd (fd_table inner) (FInode key);
                  ret (put_task k1 pid (set_fd_table (set_security inner s) table)) (as_isize fd)
              end
          end
      end
  end.

Definition sys_close k (fd : Z) : outcome (Kernel F * sysret) :=
  pid ← unwrap (current_task k);
  inner ← task_inner k pid;
  if Z.of_nat (length (fd_table inner)) <=? fd then ret k (-1)
  else
    entry ← index (fd_table inner) fd;
    match entry with
    | None => ret k (-1)
    | Some _ =>
        table ← update (fd_table inner) fd None;
        let s := Facade.release_fd (security inner) fd in
        ret (put_task k pid (set_security (set_fd_table inner table) s)) 0
    end.

(** [if fd < table.len() { table[fd].take() }] *)
Definition take_fd (table : list (option FileRef)) (fd : Z) : outcome (list (option FileRef)) :=
  if fd <? Z.of_nat (length table) then update table fd None else Ret table.

Definition sys_pipe k (pipe : Z) : outcome (Kernel F * sysret) :=
  pid ← unwrap (current_task k);
  token ← current_user_token k;
  inner ← task_inner k pid;
  let credentials := Facade.sec_credentials (security inner) in
  let request := {| req_subject := subject_of pid (security inner);
                    req_object := {| object_id := 0;
                                     object_owner_uid := Credentials.uid credentials |};
                    req_operation := PipeCreate; req_amount := 1 |} in
  '(k1, permit) ← task_preflight k pid request;
  match permit with
  | Err error => ret k1 (ipc_error_to_ret error)
  | Ok permit =>
      let '(k2, made) := make_pipe k1 (Credentials.uid credentials) in
      match made with
      | Err error => finish_ipc k2 pid permit (Err error)
      | Ok (pipe_read, pipe_write) =>
          inner ← task_inner k2 pid;
          '(read_fd, table1) ← install_fd (fd_table inner) (FPipe pipe_read);
          '(write_fd, table2) ← install_fd table1 (FPipe pipe_write);
          let k3 := put_task k2 pid (set_fd_table inner table2) in
          '(m1, r1) ← copy_to_user (k_mem k3) token pipe (le_bytes 8 read_fd);
          '(m2, copy_result) ←
            match r1 with
            | Ok _ => copy_to_user m1 token (wrap 64 (pipe + 8)) (le_bytes 8 write_fd)
            | Err e => Ret (m1, Err e)
            end;
          let k4 := set_mem k3 m2 in
          inner ← task_inner k4 pid;
          match copy_result with
          | Ok _ =>
              let s := Facade.register_pipe_fd (security inner) read_fd in
              let s := Facade.register_pipe_fd s write_fd in
              finish_ipc (put_task k4 pid (set_security inner s)) pid permit (Ok 0)
          | Err error =>
              table3 ← take_fd (fd_table inner) read_fd;
              table4 ← take_fd table3 write_fd;
              finish_ipc (put_task k4 pid (set_fd_table inner table4)) pid permit (Err error)
          end
      end
  end.

Definition sys_dup k (fd : Z) : outcome (Kernel F * sysret) :=
  pid ← unwrap (current_task k);
  inner ← task_inner k pid;
  if Z.of_nat (length (fd_table inner)) <=? fd then ret k (-1)
  else
    entry ← index (fd_table inner) fd;
    match entry with
    | None => ret k (-1)
    | Some file =>
        let '(s, r) := Facade.reserve_dup_fd (security inner) fd in
        match r with
        | Err error => ret (put_task k pid (set_security inner s)) (ipc_error_to_ret error)
        | Ok source_is_pipe =>
            '(new_fd, table) ← install_fd (fd_table inner) file;
            let s := if source_is_pipe : bool then Facade.register_pipe_fd s new_fd else s in
            ret (put_task k pid (set_security (set_fd_table inner table) s)) (as_isize new_fd)
        end
    end.

End FsCalls.
End SyscallFs.
