(* ===== verification/FdFacts.v ===== *)
(** * The descriptor table and its quota

    The quota of a process is redundant data: two counters and a bitmap that
    must agree with its descriptor table.  [fd_quota_ok] says that they do;
    the lemmas here show how the table edits of the system calls and the
    quota edits of the security facade keep them in step. *)
From S2P Require Import Prelude IpcApi Quota Timer AuditLog AuditFacts Facade.
From S2P Require Import Address Allocators PageTable MemorySet Signals UserAccess Pipe Task Kernel SyscallFs.
Import Task SyscallFs.

Abbreviation fdtable := (list (option FileRef)).

Definition is_pipe_file (f : FileRef) : bool := match f with FPipe _ => true | _ => false end.
Definition is_pipe_slot (o : option FileRef) : bool :=
  match o with Some f => is_pipe_file f | None => false end.

Fixpoint open_count (t : fdtable) : nat :=
  match t with
  | [] => O
  | Some _ :: t' => S (open_count t')
  | None :: t' => open_count t'
  end.

Fixpoint pipe_count (t : fdtable) : nat :=
  match t with
  | [] => O
  | o :: t' => ((if is_pipe_slot o then 1 else 0) + pipe_count t')%nat
  end.

Definition pipe_at (t : fdtable) (fd : nat) : bool := default false (is_pipe_slot <$> t !! fd).

(** The table and the quota agree, and both respect the limits. *)
Record fd_quota_ok (t : fdtable) (q : Quota.QuotaState) : Prop := {
  fq_files : Quota.open_files q = Z.of_nat (open_count t);
  fq_pipes : Quota.open_pipes q = Z.of_nat (pipe_count t);
  fq_max_files : (open_count t <= 32)%nat;
  fq_max_pipes : (pipe_count t <= 16)%nat;
  fq_length : (length t <= 32)%nat;
  fq_width : in_width 64 (Quota.pipe_fd_mask q);
  fq_mask : forall fd : nat, Z.testbit (Quota.pipe_fd_mask q) (Z.of_nat fd) = pipe_at t fd;
}.

(** ** Counting *)

Lemma pipe_count_le t : (pipe_count t <= open_count t <= length t)%nat.
Proof.
  induction t as [|[f|] t IH]; cbn; [lia| |cbn; lia]. destruct (is_pipe_file f); lia.
Qed.

Lemma open_count_insert t i f :
  t !! i = Some None -> open_count (<[i := Some f]> t) = S (open_count t).
Proof.
  revert i. induction t as [|o t IH]; intros [|i] H; simplify_eq/=; [done|].
  destruct o; rewrite IH by done; done.
Qed.

Lemma pipe_count_insert t i f :
  t !! i = Some None ->
  pipe_count (<[i := Some f]> t) = ((if is_pipe_file f then 1 else 0) + pipe_count t)%nat.
Proof.
  revert i. induction t as [|o t IH]; intros [|i] H; simplify_eq/=; [done|].
  rewrite IH by done. lia.
Qed.

Lemma open_count_remove t i f :
  t !! i = Some (Some f) -> open_count t = S (open_count (<[i := None]> t)).
Proof.
  revert i. induction t as [|o t IH]; intros [|i] H; simplify_eq/=; [done|].
  destruct o; rewrite (IH i) by done; done.
Qed.

Lemma pipe_count_remove t i f :
  t !! i = Some (Some f) ->
  pipe_count t = ((if is_pipe_file f then 1 else 0) + pipe_count (<[i := None]> t))%nat.
Proof.
  revert i. induction t as [|o t IH]; intros [|i] H; simplify_eq/=; [done|].
  rewrite (IH i) by done. lia.
Qed.

Lemma open_count_snoc t : open_count (t ++ [None]) = open_count t.
Proof. induction t as [|[f|] t IH]; cbn; auto. Qed.
Lemma pipe_count_snoc t : pipe_count (t ++ [None]) = pipe_count t.
Proof. induction t as [|o t IH]; cbn; auto. Qed.

Lemma pipe_at_snoc t fd : pipe_at (t ++ [None]) fd = pipe_at t fd.
Proof.
  unfold pipe_at. destruct (decide (fd < length t)%nat).
  - by rewrite lookup_app_l.
  - rewrite lookup_app_r, (lookup_ge_None_2 t) by lia.
    destruct (fd - length t)%nat as [|d]; done.
Qed.

Lemma pipe_at_insert t i o fd :
  (i < length t)%nat ->
  pipe_at (<[i := o]> t) fd = if decide (fd = i) then is_pipe_slot o else pipe_at t fd.
Proof.
  intros Hi. unfold pipe_at. case_decide as E; [subst; by rewrite list_lookup_insert_eq|].
  by rewrite list_lookup_insert_ne.
Qed.

(** ** Descriptor allocation *)

Lemma find_free_Some t i :
  find_free t = Some i ->
  t !! i = Some None /\ forall j, (j < i)%nat -> exists f, t !! j = Some (Some f).
Proof.
  revert i. induction t as [|[f|] t IH]; intros i H; simplify_eq/=.
  - destruct (find_free t) as [i'|] eqn:E; simplify_eq/=. destruct (IH i' eq_refl) as [H1 H2].
    split; [done|]. intros [|j] Hj; [by exists f|]. apply H2. lia.
  - split; [done|]. lia.
Qed.

Lemma find_free_None t :
  find_free t = None -> open_count t = length t /\ forall j, (j < length t)%nat -> exists f, t !! j = Some (Some f).
Proof.
  induction t as [|[f|] t IH]; intros H; simplify_eq/=; [split; [done|lia]|].
  destruct (find_free t) eqn:E; simplify_eq/=. destruct (IH eq_refl) as [H1 H2].
  split; [lia|]. intros [|j] Hj; [by exists f|]. apply H2. lia.
Qed.

(** The table after a descriptor was installed: [fd] is the lowest free number. *)
Record installed (t : fdtable) (f : FileRef) (fd : nat) (t' : fdtable) : Prop := {
  in_free : t !! fd = Some None \/ t !! fd = None;
  in_lowest : forall j, (j < fd)%nat -> exists g, t !! j = Some (Some g);
  in_here : t' !! fd = Some (Some f);
  in_others : forall j, j <> fd -> t' !! j = t !! j;
  in_open : open_count t' = S (open_count t);
  in_pipe : pipe_count t' = ((if is_pipe_file f then 1 else 0) + pipe_count t)%nat;
  in_pipe_at : forall j, pipe_at t' j = if decide (j = fd) then is_pipe_file f else pipe_at t j;
  in_length : (length t <= length t' <= Nat.max (length t) (S (open_count t)))%nat;
  in_bound : (fd < length t')%nat;
}.

Lemma install_fd_spec t f :
  exists fd t', install_fd t f = Ret (Z.of_nat fd, t') /\ installed t f fd t'.
Proof.
  unfold install_fd, alloc_fd. destruct (find_free t) as [i|] eqn:E.
  - destruct (find_free_Some t i E) as [Hi Hlow]. pose proof (lookup_lt_Some _ _ _ Hi).
    rewrite update_Ret by lia. rewrite Nat2Z.id. cbn [mbind outcome_bind].
    exists i, (<[i := Some f]> t). split; [done|]. split.
    + by left.
    + done.
    + by apply list_lookup_insert_eq.
    + intros j Hj. by apply list_lookup_insert_ne.
    + by apply open_count_insert.
    + by apply pipe_count_insert.
    + intros j. rewrite pipe_at_insert by done. done.
    + rewrite length_insert. lia.
    + rewrite length_insert. lia.
  - destruct (find_free_None t E) as [Ho Hlow].
    rewrite update_Ret by (rewrite length_app; cbn; lia). rewrite Nat2Z.id. cbn [mbind outcome_bind].
    assert (Hn : (t ++ [None]) !! length t = Some (@None FileRef)) by (by apply list_lookup_middle).
    exists (length t), (<[length t := Some f]> (t ++ [None])). split; [done|].
    assert (Hl : (length t < length (t ++ [@None FileRef]))%nat) by (rewrite length_app; cbn; lia).
    split.
    + right. by apply lookup_ge_None_2.
    + done.
    + by apply list_lookup_insert_eq.
    + intros j Hj. rewrite list_lookup_insert_ne by done.
      destruct (decide (j < length t)%nat); [by rewrite lookup_app_l|].
      rewrite !lookup_ge_None_2; [done|lia|rewrite length_app; cbn; lia].
    + rewrite open_count_insert by done. by rewrite open_count_snoc.
    + rewrite pipe_count_insert by done. by rewrite pipe_count_snoc.
    + intros j. rewrite pipe_at_insert by done. by rewrite pipe_at_snoc.
    + rewrite length_insert, length_app. cbn. lia.
    + rewrite length_insert. done.
Qed.

(** ** Keeping table and quota in step *)

Lemma fd_quota_wf t q : fd_quota_ok t q -> Quota.quota_wf q.
Proof.
  intros []. pose proof (pipe_count_le t).
  unfold Quota.quota_wf, Quota.MAX_OPEN_FILES, Quota.MAX_OPEN_PIPE_FDS. split_and!; done || lia.
Qed.

Lemma fd_quota_is_pipe t q fd :
  fd_quota_ok t q -> (fd < length t)%nat -> Quota.is_pipe_fd q (Z.of_nat fd) = pipe_at t fd.
Proof.
  intros H Hfd. pose proof (fq_length _ _ H). rewrite is_pipe_fd_testbit by lia. apply (fq_mask _ _ H).
Qed.

Lemma fd_quota_initial : fd_quota_ok [Some FStdin; Some FStdout; Some FStdout] Quota.initial.
Proof.
  split; cbn; try lia; try done. intros fd. rewrite Z.bits_0.
  by destruct fd as [|[|[|fd]]].
Qed.

(** Closing. *)
Lemma fd_quota_close t q fd f :
  fd_quota_ok t q -> t !! fd = Some (Some f) ->
  fd_quota_ok (<[fd := None]> t) (Quota.release_fd q (Z.of_nat fd)).
Proof.
  intros H Hfd. pose proof (lookup_lt_Some _ _ _ Hfd) as Hlt. pose proof H as [].
  pose proof (open_count_remove t fd f Hfd) as Ho. pose proof (pipe_count_remove t fd f Hfd) as Hp.
  pose proof (fd_quota_is_pipe t q fd H Hlt) as Hip. unfold pipe_at in Hip. rewrite Hfd in Hip. cbn in Hip.
  split.
  - cbn. unfold saturating_sub. lia.
  - cbn. rewrite Hip. unfold saturating_sub. destruct (is_pipe_file f); lia.
  - lia.
  - destruct (is_pipe_file f); lia.
  - by rewrite length_insert.
  - cbn. destruct (Z.ltb_spec (Z.of_nat fd) 64); [by apply clear_mask_in_width|done].
  - intros j. rewrite release_fd_mask by (lia || by eapply fd_quota_wf).
    rewrite pipe_at_insert, fq_mask0 by done. cbn [is_pipe_slot]. case_decide as E.
    + subst. rewrite bool_decide_eq_true_2 by (split; [done|lia]). done.
    + rewrite bool_decide_eq_false_2 by lia. done.
Qed.

(** Installing an ordinary file after reserving one descriptor. *)
Lemma fd_quota_install_file t q q' f fd t' :
  fd_quota_ok t q -> is_pipe_file f = false -> Quota.reserve_files q 1 = (q', Ok tt) ->
  installed t f fd t' -> fd_quota_ok t' q'.
Proof.
  intros H Hf Hr Hi. pose proof H as []. pose proof (in_open _ _ _ _ Hi). pose proof (in_pipe _ _ _ _ Hi).
  pose proof (in_length _ _ _ _ Hi).
  rewrite reserve_files_spec in Hr by (lia || by eapply fd_quota_wf).
  destruct (Z.leb_spec (Quota.open_files q + 1) Quota.MAX_OPEN_FILES) as [Hle|]; simplify_eq.
  unfold Quota.MAX_OPEN_FILES in Hle. rewrite Hf in *.
  split; cbn; try done; try lia.
  intros j. rewrite fq_mask0, (in_pipe_at _ _ _ _ Hi), Hf. case_decide as E; [|done]. subst.
  unfold pipe_at. destruct (in_free _ _ _ _ Hi) as [-> | ->]; done.
Qed.

(** Installing a pipe end: one reserved endpoint and one registered bit. *)
Lemma fd_quota_register_mask t q fd t' f :
  (forall j : nat, Z.testbit (Quota.pipe_fd_mask q) (Z.of_nat j) = pipe_at t j) ->
  is_pipe_file f = true -> installed t f fd t' -> (fd < 64)%nat ->
  forall j : nat, Z.testbit (Quota.pipe_fd_mask (Quota.register_pipe_fd q (Z.of_nat fd))) (Z.of_nat j)
                  = pipe_at t' j.
Proof.
  intros Hm Hf Hi Hfd j. rewrite register_pipe_fd_mask by lia.
  rewrite (in_pipe_at _ _ _ _ Hi), Hf, Hm. case_decide as E.
  - subst. by rewrite bool_decide_eq_true_2.
  - by rewrite bool_decide_eq_false_2 by lia.
Qed.

Lemma fd_quota_install_pipe t q q' f fd t' :
  fd_quota_ok t q -> is_pipe_file f = true -> Quota.reserve_pipe_fds q 1 = (q', Ok tt) ->
  installed t f fd t' -> fd_quota_ok t' (Quota.register_pipe_fd q' (Z.of_nat fd)).
Proof.
  intros H Hf Hr Hi. pose proof H as []. pose proof (in_open _ _ _ _ Hi). pose proof (in_pipe _ _ _ _ Hi).
  pose proof (in_length _ _ _ _ Hi). pose proof (in_bound _ _ _ _ Hi).
  rewrite reserve_pipe_fds_spec in Hr by (lia || by eapply fd_quota_wf).
  destruct (Z.leb_spec (Quota.open_files q + 1) Quota.MAX_OPEN_FILES) as [Hle|]; cbn [negb] in Hr; simplify_eq.
  destruct (Z.leb_spec (Quota.open_pipes q + 1) Quota.MAX_OPEN_PIPE_FDS) as [Hle2|]; cbn [negb] in Hr; simplify_eq.
  unfold Quota.MAX_OPEN_FILES, Quota.MAX_OPEN_PIPE_FDS in *. rewrite Hf in *.
  assert (Hlt : (fd < 64)%nat) by lia.
  split; try lia.
  - unfold Quota.register_pipe_fd. case_if; cbn; lia.
  - unfold Quota.register_pipe_fd. case_if; cbn; lia.
  - unfold Quota.register_pipe_fd. case_if; cbn; [|done]. apply lor_in_width; [lia|done|].
    rewrite Z.shiftl_1_l. split; [lia|]. apply Z.pow_lt_mono_r; lia.
  - by apply (fd_quota_register_mask t _ fd t' f).
Qed.

(** A refused reservation changes nothing. *)
Lemma reserve_files_err q q' e : Quota.reserve_files q 1 = (q', Err e) -> q' = q.
Proof. unfold Quota.reserve_files. repeat case_match; intros; simplify_eq; done. Qed.
Lemma reserve_pipe_fds_err q n q' e : Quota.reserve_pipe_fds q n = (q', Err e) -> q' = q.
Proof. unfold Quota.reserve_pipe_fds. repeat case_match; intros; simplify_eq; done. Qed.

(** ** Two descriptors at once, and taking them back *)

(** Which file each descriptor number refers to, if any. *)
Definition fd_file (t : fdtable) (fd : nat) : option FileRef := mjoin (t !! fd).

Lemma installed_lookup t f fd t' g b t'' :
  installed t f fd t' -> installed t' g b t'' ->
  fd <> b /\ t'' !! fd = Some (Some f) /\ t'' !! b = Some (Some g).
Proof.
  intros H1 H2. pose proof (in_here _ _ _ _ H1) as Hf.
  assert (fd <> b) by (intros ->; destruct (in_free _ _ _ _ H2); congruence).
  split_and!; [done| |by apply (in_here _ _ _ _ H2)]. by rewrite (in_others _ _ _ _ H2).
Qed.

(** Both ends installed and registered. *)
Lemma fd_quota_install_two t q q' f g a b t1 t2 :
  fd_quota_ok t q -> is_pipe_file f = true -> is_pipe_file g = true ->
  Quota.reserve_pipe_fds q 2 = (q', Ok tt) ->
  installed t f a t1 -> installed t1 g b t2 ->
  fd_quota_ok t2 (Quota.register_pipe_fd (Quota.register_pipe_fd q' (Z.of_nat a)) (Z.of_nat b)).
Proof.
  intros H Hf Hg Hr H1 H2. pose proof (fd_quota_wf t q H) as Hwf. pose proof H as [].
  rewrite reserve_pipe_fds_spec in Hr by (lia || done).
  destruct (Z.leb_spec (Quota.open_files q + 2) Quota.MAX_OPEN_FILES) as [Hle|]; cbn [negb] in Hr; simplify_eq.
  destruct (Z.leb_spec (Quota.open_pipes q + 2) Quota.MAX_OPEN_PIPE_FDS) as [Hle2|]; cbn [negb] in Hr; simplify_eq.
  unfold Quota.MAX_OPEN_FILES, Quota.MAX_OPEN_PIPE_FDS in *.
  pose proof (in_open _ _ _ _ H1). pose proof (in_open _ _ _ _ H2).
  pose proof (in_pipe _ _ _ _ H1). pose proof (in_pipe _ _ _ _ H2).
  pose proof (in_length _ _ _ _ H1). pose proof (in_length _ _ _ _ H2).
  pose proof (in_bound _ _ _ _ H1). pose proof (in_bound _ _ _ _ H2).
  rewrite Hf, Hg in *.
  assert (Hbit : forall (m : Z) (i : nat), (i < 64)%nat -> in_width 64 m -> in_width 64 (Z.lor m (Z.shiftl 1 (Z.of_nat i)))).
  { intros m i Hi Hm. apply lor_in_width; [lia|done|]. rewrite Z.shiftl_1_l. split; [lia|].
    apply Z.pow_lt_mono_r; lia. }
  assert (Hreg : forall q0 i, (i < 64)%nat -> Quota.register_pipe_fd q0 (Z.of_nat i)
            = Quota.set_mask q0 (Z.lor (Quota.pipe_fd_mask q0) (Z.shiftl 1 (Z.of_nat i)))).
  { intros q0 i Hi. unfold Quota.register_pipe_fd. destruct (Z.ltb_spec (Z.of_nat i) 64); [done|lia]. }
  split; try lia.
  - rewrite !Hreg by lia. cbn. lia.
  - rewrite !Hreg by lia. cbn. lia.
  - rewrite !Hreg by lia. cbn. apply Hbit; [lia|]. apply Hbit; [lia|done].
  - apply (fd_quota_register_mask t1 _ b t2 g); [|done|done|lia].
    apply (fd_quota_register_mask t _ a t1 f); [done|done|done|lia].
Qed.

(** Taking both back leaves the descriptors and the old quota in step. *)
Lemma fd_quota_rollback t q f g a b t1 t2 :
  fd_quota_ok t q -> (open_count t + 2 <= 32)%nat ->
  is_pipe_file f = true -> is_pipe_file g = true ->
  installed t f a t1 -> installed t1 g b t2 ->
  let t3 := <[b := None]> (<[a := None]> t2) in
  fd_quota_ok t3 q /\ forall j, fd_file t3 j = fd_file t j.
Proof.
  intros H Hroom Hf Hg H1 H2 t3. destruct (installed_lookup _ _ _ _ _ _ _ H1 H2) as (Hab & Ha & Hb).
  pose proof (in_open _ _ _ _ H1). pose proof (in_open _ _ _ _ H2).
  pose proof (in_pipe _ _ _ _ H1). pose proof (in_pipe _ _ _ _ H2).
  pose proof (in_length _ _ _ _ H1). pose proof (in_length _ _ _ _ H2).
  pose proof (in_bound _ _ _ _ H1). pose proof (in_bound _ _ _ _ H2).
  assert (Hb' : <[a := None]> t2 !! b = Some (Some g)) by (by rewrite list_lookup_insert_ne).
  pose proof (open_count_remove _ _ _ Ha). pose proof (pipe_count_remove _ _ _ Ha).
  pose proof (open_count_remove _ _ _ Hb'). pose proof (pipe_count_remove _ _ _ Hb').
  rewrite Hf, Hg in *. pose proof H as []. subst t3.
  assert (Hfile : forall j, fd_file (<[b := None]> (<[a := None]> t2)) j = fd_file t j).
  { intros j. unfold fd_file. destruct (decide (j = b)) as [->|Hjb].
    - rewrite list_lookup_insert_eq by (rewrite length_insert; lia). cbn.
      destruct (in_free _ _ _ _ H2) as [E|E]; rewrite (in_others _ _ _ _ H1) in E by done; by rewrite E.
    - rewrite list_lookup_insert_ne by done. destruct (decide (j = a)) as [->|Hja].
      + rewrite list_lookup_insert_eq by lia. cbn.
        destruct (in_free _ _ _ _ H1) as [E|E]; by rewrite E.
      + rewrite list_lookup_insert_ne by done.
        by rewrite (in_others _ _ _ _ H2), (in_others _ _ _ _ H1) by done. }
  split; [|done]. split; try lia; try done.
  - rewrite !length_insert. lia.
  - intros j. rewrite fq_mask0. specialize (Hfile j). unfold fd_file in Hfile. unfold pipe_at.
    destruct (t !! j) as [[?|]|]; destruct (<[b := None]> (<[a := None]> t2) !! j) as [[?|]|];
      by simplify_eq/=.
Qed.
