(* ===== verification/SignalHandling.v ===== *)
(** * Signal delivery

    Models the signal half of [os/src/task/mod.rs]: [check_pending_signals],
    the two handlers, [handle_signals], and the checks the trap handler makes. *)
From S2P Require Import Prelude IpcApi Quota Timer AuditLog AuditFacts Facade.
From S2P Require Import Address Allocators PageTable MemorySet Signals UserAccess Pipe Task Kernel.
Import Mem Signals Task Kernel.

Module SignalHandling.
Section Delivery.
Context {F : Type} {FS : FileSystem F}.
Implicit Type k : Kernel F.

(** The current task and its inner state. *)
Definition current_inner k : outcome (Z * TaskControlBlockInner) :=
  pid ← unwrap (current_task k);
  t ← task_inner k pid;
  Ret (pid, t).

Definition check_signals_error_of_current k : outcome (option Z) :=
  '(_, t) ← current_inner k; Ret (check_error (signals t)).

Definition current_add_signal k (signal : Z) : outcome (Kernel F) :=
  '(pid, t) ← current_inner k;
  Ret (put_task k pid (set_signals t (sig_insert (signals t) signal))).

Definition kernel_signal_effect (t : TaskControlBlockInner) (signal : Z) : TaskControlBlockInner :=
  if signal =? SIGSTOP then
    set_signals (set_frozen t true) (sig_toggle (signals t) SIGSTOP)
  else if signal =? SIGCONT then
    if sig_contains (signals t) SIGCONT
    then set_frozen (set_signals t (sig_toggle (signals t) SIGCONT)) false
    else t
  else set_killed t true.

Definition call_kernel_signal_handler k (signal : Z) : outcome (Kernel F) :=
  '(pid, t) ← current_inner k;
  Ret (put_task k pid (kernel_signal_effect t signal)).

Definition call_user_signal_handler k (sig signal : Z) : outcome (Kernel F) :=
  '(pid, t) ← current_inner k;
  action ← index (signal_actions t) sig;
  if negb (handler action =? 0) then
    let t1 := set_signals (set_handling_sig t sig) (sig_toggle (signals t) signal) in
    let trap_ctx := load_trap_cx (k_mem k) (trap_cx_ppn t) in
    let t2 := set_trap_ctx_backup t1 (Some trap_ctx) in
    let trap_ctx' := set_x (set_sepc trap_ctx (handler action)) 10 sig in
    Ret (set_mem (put_task k pid t2) (store_trap_cx (k_mem k) (trap_cx_ppn t) trap_ctx'))
  else Ret k.

Definition is_kernel_signal (signal : Z) : bool :=
  (signal =? SIGKILL) || (signal =? SIGSTOP) || (signal =? SIGCONT) || (signal =? SIGDEF).

(** Whether the pending signal is held back by the mask of the handler that is
    running. *)
Definition masked_by_handler (t : TaskControlBlockInner) (signal : Z) : outcome bool :=
  if handling_sig t =? -1 then Ret false
  else
    action ← index (signal_actions t) (of_signed 64 (handling_sig t));
    Ret (sig_contains (act_mask action) signal).

(** The body of the [for] loop for one signal number; [true] means that the
    function returns here. *)
Definition check_signal k (sig : Z) : outcome (Kernel F * bool) :=
  '(_, t) ← current_inner k;
  signal ← unwrap (sig_from_bits (Z.shiftl 1 sig));
  if sig_contains (signals t) signal && negb (sig_contains (signal_mask t) signal) then
    masked ← masked_by_handler t signal;
    if negb masked then
      if is_kernel_signal signal then
        k' ← call_kernel_signal_handler k signal; Ret (k', false)
      else
        k' ← call_user_signal_handler k sig signal; Ret (k', true)
    else Ret (k, false)
  else Ret (k, false).

Fixpoint check_signals k (sigs : list Z) : outcome (Kernel F) :=
  match sigs with
  | [] => Ret k
  | sig :: rest =>
      '(k', stop) ← check_signal k sig;
      if stop : bool then Ret k' else check_signals k' rest
  end.

Definition check_pending_signals k : outcome (Kernel F) :=
  check_signals k (seqZ 0 (MAX_SIG + 1)).

(** [false] in the result: still suspended when the interference ends. *)
Fixpoint handle_signals k (e : list (Kernel F -> Kernel F)) : outcome (Kernel F * bool) :=
  k1 ← check_pending_signals k;
  '(_, t) ← current_inner k1;
  if negb (frozen t) || killed t then Ret (k1, true)
  else match e with
       | [] => Ret (k1, false)
       | f :: e' => k2 ← suspend_current_and_run_next k1 f; handle_signals k2 e'
       end.

End Delivery.
End SignalHandling.
