(* ===== verification/SyscallProcess.v ===== *)
(** * Process system calls

    Models [os/src/syscall/process.rs] and the task life cycle behind it:
    [TaskControlBlock::{new, exec, fork}] of [task/task.rs] and
    [exit_current_and_run_next] of [task/mod.rs]. *)
From S2P Require Import Prelude IpcApi Quota Timer AuditLog AuditFacts Facade.
From S2P Require Import Address Allocators PageTable MemorySet Signals UserAccess Pipe Task Kernel.
From S2P Require Import SyscallFs SignalHandling.
Import Timer Audit Mem PageTable MemorySet Signals UserAccess Task Kernel SyscallFs SignalHandling.

Module SyscallProcess.

Definition IDLE_PID : Z := 1.

(** [INITPROC] is built first and the PID allocator starts at 1
    ([first_pid]). *)
Definition INITPROC : Z := 1.

Section ProcessCalls.
Context {F : Type} {FS : FileSystem F}.
Variable P : Platform.
Implicit Type k : Kernel F.

(** ** Life cycle *)

(** [memory_set.translate(VirtAddr::from(TRAP_CONTEXT).into()).unwrap().ppn()] *)
Definition trap_cx_frame (m : PhysMem) (ms : MemorySet) : outcome Z :=
  vpn ← Address.page_num_from_addr (Address.VirtAddr_from Address.TRAP_CONTEXT);
  pte ← unwrap (ms_translate m ms vpn);
  Ret (pte_ppn pte).

(** [pid_alloc] and [KernelStack::new]. *)
Definition alloc_pid_and_stack k : outcome (Z * Kernel F) :=
  let '(pid, pids) := Pids.alloc (PID_ALLOCATOR k) in
  k1 ← kernel_stack_new (set_pids k pids) pid;
  Ret (pid, k1).

Definition tcb_new k (elf_data : list Z) : outcome (Z * Kernel F) :=
  '(ms, user_sp, entry_point, w) ← from_elf (linker P) (elf_reader P) (k_fw k) elf_data;
  trap_cx_ppn ← trap_cx_frame (fw_mem w) ms;
  '(pid, k1) ← alloc_pid_and_stack (set_fw k w);
  let kernel_stack_top := kernel_stack_top pid in
  let t := new_inner trap_cx_ppn user_sp (goto_trap_return (linker P) kernel_stack_top) ms in
  let k2 := put_task k1 pid t in
  let cx := app_init_context (sstatus_csr P) entry_point user_sp (ms_token (KERNEL_SPACE k2))
              kernel_stack_top (trap_handler_addr (linker P)) in
  Ret (pid, set_mem k2 (store_trap_cx (k_mem k2) trap_cx_ppn cx)).

(** The references to the argument slots, collected before any is written. *)
Fixpoint argv_slots (m : PhysMem) (token argv_base : Z) (n : nat) : outcome (list Z) :=
  match n with
  | O => Ret []
  | S n' =>
      r ← try_translated_ptr m token argv_base 8 8 true;
      a ← unwrap r;
      rest ← argv_slots m token (wrap 64 (argv_base + 8)) n';
      Ret (a :: rest)
  end.

(** One [u8] at a time through [try_translated_refmut]. *)
Fixpoint push_string (m : PhysMem) (token p : Z) (bytes : list Z) : outcome PhysMem :=
  match bytes with
  | [] => Ret m
  | c :: rest =>
      r ← try_translated_ptr m token p 1 1 true;
      a ← unwrap r;
      push_string (store m a c) token (wrap 64 (p + 1)) rest
  end.

Fixpoint push_args (m : PhysMem) (token user_sp : Z) (args : list (list Z)) (slots : list Z)
    : outcome (PhysMem * Z) :=
  match args, slots with
  | arg :: args', slot :: slots' =>
      let bytes := string_bytes arg in
      let user_sp' := wrap 64 (user_sp - (Z.of_nat (length bytes) + 1)) in
      let m1 := store_u64 m slot user_sp' in
      m2 ← push_string m1 token user_sp' (bytes ++ [0]);
      push_args m2 token user_sp' args' slots'
  | [], _ => Ret (m, user_sp)
  | _, [] => Panic
  end.

Definition tcb_exec k (pid : Z) (elf_data : list Z) (args : list (list Z)) : outcome (Kernel F) :=
  '(ms, user_sp, entry_point, w) ← from_elf (linker P) (elf_reader P) (k_fw k) elf_data;
  new_trap_cx_ppn ← trap_cx_frame (fw_mem w) ms;
  let argc := Z.of_nat (length args) in
  let user_sp := wrap 64 (user_sp - (argc + 1) * 8) in
  let argv_base := user_sp in
  slots ← argv_slots (fw_mem w) (ms_token ms) argv_base (S (length args));
  last ← index slots argc;
  '(m, user_sp) ← push_args (store_u64 (fw_mem w) last 0) (ms_token ms) user_sp args slots;
  let user_sp := user_sp - user_sp mod 8 in
  inner ← task_inner k pid;
  w1 ← drop_memory_set {| fw_mem := m; fw_alloc := fw_alloc w |} (memory_set inner);
  let cx := app_init_context (sstatus_csr P) entry_point user_sp (ms_token (KERNEL_SPACE k))
              (kernel_stack_top pid) (trap_handler_addr (linker P)) in
  let cx := set_x (set_x cx 10 argc) 11 argv_base in
  let k1 := put_task (set_fw k w1) pid
              (set_trap_cx_ppn (set_memory_set inner ms) new_trap_cx_ppn) in
  Ret (set_mem k1 (store_trap_cx (k_mem k1) new_trap_cx_ppn cx)).

Definition tcb_fork k (parent_pid : Z) : outcome (Z * Kernel F) :=
  parent_inner ← task_inner k parent_pid;
  '(ms, w) ← from_existed_user (linker P) (k_fw k) (memory_set parent_inner);
  child_cx_ppn ← trap_cx_frame (fw_mem w) ms;
  '(pid, k1) ← alloc_pid_and_stack (set_fw k w);
  let kernel_stack_top := kernel_stack_top pid in
  let child := fork_inner parent_pid parent_inner child_cx_ppn
                 (goto_trap_return (linker P) kernel_stack_top) ms in
  let k2 := put_task k1 pid child in
  let k3 := put_task k2 parent_pid (set_children parent_inner (children parent_inner ++ [pid])) in
  let cx := set_kernel_sp (load_trap_cx (k_mem k3) child_cx_ppn) kernel_stack_top in
  Ret (pid, set_mem k3 (store_trap_cx (k_mem k3) child_cx_ppn cx)).

(** The children of an exiting task move to [INITPROC]. *)
Fixpoint reparent k (cs : list Z) : outcome (Kernel F) :=
  match cs with
  | [] => Ret k
  | c :: rest =>
      t ← task_inner k c;
      let k1 := put_task k c (set_parent t (Some INITPROC)) in
      init ← task_inner k1 INITPROC;
      reparent (put_task k1 INITPROC (set_children init (children init ++ [c]))) rest
  end.

Definition exit_current_and_run_next k (exit_code : Z) : outcome (Kernel F * sysret) :=
  let '(cur, k0) := take_current_task k in
  pid ← unwrap cur;
  if pid =? IDLE_PID then Ret (k0, Shutdown (negb (exit_code =? 0)))
  else
    k1 ← remove_from_pid2task k0 pid;
    inner ← task_inner k1 pid;
    let k2 := put_task k1 pid (set_exit_code (set_task_status inner Zombie) exit_code) in
    k3 ← reparent k2 (children inner);
    inner ← task_inner k3 pid;
    '(ms, w) ← recycle_data_pages (k_fw k3) (memory_set inner);
    let inner' := set_fd_table (set_memory_set (set_children inner []) ms) [] in
    Ret (put_task (set_fw k3 w) pid inner', Exited).

(** ** System calls *)

Definition sys_exit k (exit_code : Z) : outcome (Kernel F * sysret) :=
  exit_current_and_run_next k exit_code.

Definition sys_yield k (e : list (Kernel F -> Kernel F)) : outcome (Kernel F * sysret) :=
  match e with
  | [] => k' ← suspend_current k; Ret (k', Waiting)
  | f :: _ => k' ← suspend_current_and_run_next k f; ret k' 0
  end.

Definition sys_get_time k : outcome (Kernel F * sysret) :=
  '(ms, t) ← get_time_ms (aw_timer (k_audit k));
  ret (set_audit k {| AUDIT_RING := AUDIT_RING (k_audit k); aw_timer := t |}) (as_isize ms).

Definition sys_getpid k : outcome (Kernel F * sysret) :=
  pid ← unwrap (current_task k); ret k (as_isize pid).

Definition sys_fork k : outcome (Kernel F * sysret) :=
  cur ← unwrap (current_task k);
  '(new_pid, k1) ← tcb_fork k cur;
  child ← task_inner k1 new_pid;
  let cx := set_x (load_trap_cx (k_mem k1) (trap_cx_ppn child)) 10 0 in
  let k2 := set_mem k1 (store_trap_cx (k_mem k1) (trap_cx_ppn child) cx) in
  ret (add_task k2 new_pid) (as_isize new_pid).

(** The loop that collects the arguments; [inl] is the error it returns. *)
Fixpoint collect_args (fuel : nat) (m : PhysMem) (token args : Z) (args_vec : list (list Z))
    : outcome (Z + list (list Z)) :=
  match fuel with
  | O => OutOfFuel
  | S fuel' =>
      r ← copy_from_user m token args 8;
      match r with
      | Err _ => Ret (inl (-14))
      | Ok bytes =>
          let arg_str_ptr := le_value bytes in
          if arg_str_ptr =? 0 then Ret (inr args_vec)
          else if MAX_ARGV <=? Z.of_nat (length args_vec) then Ret (inl (-1))
          else
            arg ← try_translated_str m token arg_str_ptr MAX_STR_LEN;
            match arg with
            | None => Ret (inl (-14))
            | Some arg =>
                collect_args fuel' m token (wrap 64 (args + 8)) (args_vec ++ [arg])
            end
      end
  end.

Definition arg_fuel : nat := Z.to_nat (MAX_ARGV + 2).

(** [read_fuel] bounds the number of 512-byte reads of the program file. *)
Definition sys_exec (read_fuel : nat) k (path args : Z) : outcome (Kernel F * sysret) :=
  token ← current_user_token k;
  path ← try_translated_str (k_mem k) token path MAX_STR_LEN;
  match path with
  | None => ret k (-14)
  | Some path =>
      collected ← collect_args arg_fuel (k_mem k) token args [];
      match collected with
      | inl errno => ret k errno
      | inr args_vec =>
          '(k1, opened) ← open_file k (string_bytes path) RDONLY;
          match opened with
          | None => ret k1 (-1)
          | Some key =>
              '(k2, all_data) ← read_all read_fuel k1 key [];
              pid ← unwrap (current_task k2);
              k3 ← tcb_exec k2 pid all_data args_vec;
              ret k3 (as_isize (Z.of_nat (length args_vec)))
          end
      end
  end.

(** Strong references to a block besides the one being removed. *)
Definition strong_elsewhere k (pid : Z) : bool :=
  bool_decide (pid ∈ PID2TCB (k_sched k)) || bool_decide (pid ∈ ready_queue (k_sched k))
  || bool_decide (current_task k = Some pid)
  || existsb (fun kv => bool_decide (pid ∈ children kv.2)) (map_to_list (k_tasks k)).

Definition pid_matches (pid p : Z) : bool := (pid =? -1) || (of_signed 64 pid =? p).

(** [children.iter().enumerate().find(..)] *)
Fixpoint find_zombie k (pid : Z) (cs : list Z) : outcome (option (nat * Z)) :=
  match cs with
  | [] => Ret None
  | c :: rest =>
      t ← task_inner k c;
      if is_zombie t && pid_matches pid c then Ret (Some (O, c))
      else
        r ← find_zombie k pid rest;
        Ret (match r with Some (i, p) => Some (S i, p) | None => None end)
  end.

Definition sys_waitpid k (pid exit_code_ptr : Z) : outcome (Kernel F * sysret) :=
  '(cur, inner) ← current_inner k;
  if negb (existsb (pid_matches pid) (children inner)) then ret k (-1)
  else
    pair ← find_zombie k pid (children inner);
    match pair with
    | None => ret k (-2)
    | Some (idx, found_pid) =>
        child ← task_inner k found_pid;
        let code := exit_code child in
        '(m, r) ← copy_to_user (k_mem k) (ms_token (memory_set inner)) exit_code_ptr
                    (le_bytes 4 (of_signed 32 code));
        match r with
        | Err _ => ret (set_mem k m) (-14)
        | Ok _ =>
            let k1 := put_task (set_mem k m) cur (set_children inner (delete idx (children inner))) in
            _ ← assert_ (negb (strong_elsewhere k1 found_pid));
            k2 ← drop_tcb k1 found_pid;
            ret k2 (as_isize found_pid)
        end
    end.

Definition sys_kill k (pid signum : Z) : outcome (Kernel F * sysret) :=
  if (signum <? 0) || (MAX_SIG <? signum) then ret k (ipc_error_to_ret InvalidArgument)
  else
    match sig_from_bits (Z.shiftl 1 signum) with
    | None => ret k (ipc_error_to_ret InvalidArgument)
    | Some flag =>
        match pid2task k pid with
        | None => ret k (ipc_error_to_ret ProcessNotFound)
        | Some target =>
            caller ← unwrap (current_task k);
            target_inner ← task_inner k target;
            let target_uid := Credentials.uid (Facade.sec_credentials (security target_inner)) in
            inner ← task_inner k caller;
            let request := {| req_subject := subject_of caller (security inner);
                              req_object := {| object_id := pid; object_owner_uid := target_uid |};
                              req_operation := SignalSend; req_amount := 1 |} in
            '(k1, permit) ← task_preflight k caller request;
            match permit with
            | Err error => ret k1 (ipc_error_to_ret error)
            | Ok permit =>
                target_inner ← task_inner k1 target;
                let '(k2, out) :=
                  if sig_contains (signals target_inner) flag then (k1, Err TryAgain)
                  else (put_task k1 target
                          (set_signals target_inner (sig_insert (signals target_inner) flag)), Ok 1) in
                '(k3, r) ← task_complete k2 caller permit out;
                match r with
                | Ok _ => ret k3 0
                | Err error => ret k3 (ipc_error_to_ret error)
                end
            end
        end
    end.

Definition sys_sigprocmask k (mask : Z) : outcome (Kernel F * sysret) :=
  match current_task k with
  | None => ret k (-1)
  | Some pid =>
      inner ← task_inner k pid;
      let old_mask := signal_mask inner in
      match sig_from_bits mask with
      | Some flag => ret (put_task k pid (set_signal_mask inner flag)) (as_isize old_mask)
      | None => ret k (-1)
      end
  end.

Definition sys_sigreturn k : outcome (Kernel F * sysret) :=
  match current_task k with
  | None => ret k (-1)
  | Some pid =>
      inner ← task_inner k pid;
      let inner' := set_handling_sig inner (-1) in
      cx ← unwrap (trap_ctx_backup inner);
      let k1 := put_task k pid inner' in
      ret (set_mem k1 (store_trap_cx (k_mem k1) (trap_cx_ppn inner) cx)) (as_isize (get_x cx 10))
  end.

Definition check_sigaction_error (signal action old_action : Z) : bool :=
  (action =? 0) || (old_action =? 0) || (signal =? SIGKILL) || (signal =? SIGSTOP).

Definition sys_sigaction k (signum action old_action : Z) : outcome (Kernel F * sysret) :=
  token ← current_user_token k;
  '(pid, inner) ← current_inner k;
  if MAX_SIG <? of_signed 64 signum then ret k (-1)
  else
    match sig_from_bits (Z.shiftl 1 signum) with
    | None => ret k (-1)
    | Some flag =>
        if check_sigaction_error flag action old_action then ret k (-1)
        else
          prev_action ← index (signal_actions inner) signum;
          new_action ← copy_from_user (k_mem k) token action 16;
          match new_action with
          | Err _ => ret k (-14)
          | Ok bytes =>
              '(m, r) ← copy_to_user (k_mem k) token old_action (encode_action prev_action);
              match r with
              | Err _ => ret (set_mem k m) (-14)
              | Ok _ =>
                  table ← update (signal_actions inner) signum (decode_action bytes);
                  ret (put_task (set_mem k m) pid (set_signal_actions inner table)) 0
              end
          end
    end.

Definition sys_getuid k : outcome (Kernel F * sysret) :=
  '(_, inner) ← current_inner k;
  ret k (as_isize (Credentials.uid (Facade.sec_credentials (security inner)))).

Definition sys_setuid k (uid : Z) : outcome (Kernel F * sysret) :=
  '(pid, inner) ← current_inner k;
  let cred := Facade.sec_credentials (security inner) in
  if negb (Credentials.is_root cred) then ret k (ipc_error_to_ret PermissionDenied)
  else if U32_MAX <? uid then ret k (ipc_error_to_ret InvalidArgument)
  else
    let caps := if negb (uid =? 0) then cap_empty else Credentials.capabilities cred in
    let s := {| Facade.sec_credentials := {| Credentials.uid := uid; Credentials.capabilities := caps |};
                Facade.sec_quota := Facade.sec_quota (security inner) |} in
    ret (put_task k pid (set_security inner s)) 0.

End ProcessCalls.
End SyscallProcess.
