(* ===== verification/SyscallAudit.v ===== *)
(** * Audit system calls

    Models [os/src/syscall/security.rs]: [sys_audit_read] (602) and
    [sys_ipc_stat] (603). *)
From S2P Require Import Prelude IpcApi Quota Timer AuditLog AuditFacts Facade.
From S2P Require Import Address Allocators PageTable MemorySet Signals UserAccess Pipe Task Kernel.
From S2P Require Import SyscallFs SignalHandling.
Import Audit Mem UserAccess Task Kernel SyscallFs SignalHandling.

Module SyscallAudit.

Definition RECORD_SIZE : Z := 80.     (** [size_of::<AuditRecordV1>()] *)
Definition STATS_SIZE : Z := 80.      (** [size_of::<IpcStatsV1>()] *)

Definition check_permission (subject : IpcSubject) : IpcResult unit :=
  if (subject_uid subject =? 0) || contains (subject_capabilities subject) AUDIT_READ
  then Ok tt else Err PermissionDenied.

Definition check_output_range (start count item_size : Z) : IpcResult unit :=
  bytes ← ok_or (checked_mul 64 count item_size) InvalidAddress;
  if negb (bytes =? 0) && (start =? 0) then Err InvalidAddress
  else _ ← ok_or (checked_add 64 start bytes) InvalidAddress; Ok tt.

(** The [for index in 0..batch.len] loop; memory keeps what was copied before a
    failure. *)
Fixpoint copy_records (m : PhysMem) (token start : Z) (batch : AuditBatch) (index : Z) (n : nat)
    : outcome (PhysMem * IpcResult unit) :=
  match n with
  | O => Ret (m, Ok tt)
  | S n' =>
      match record_at batch index with
      | None => Ret (m, Err InvalidArgument)
      | Some record =>
          let destination := wrap 64 (start + wrap 64 (index * RECORD_SIZE)) in
          '(m', r) ← copy_to_user m token destination (encode_record record);
          match r with
          | Err _ => Ret (m', Err InvalidAddress)
          | Ok _ => copy_records m' token start batch (index + 1) n'
          end
      end
  end.

Definition read_records (ring : AuditRing) (m : PhysMem) (subject : IpcSubject)
    (token records capacity after_sequence : Z) : outcome (PhysMem * IpcResult Z) :=
  match check_permission subject with
  | Err e => Ret (m, Err e)
  | Ok _ =>
      if capacity =? 0 then Ret (m, Ok 0)
      else
        batch ← snapshot ring after_sequence capacity;
        if b_len batch =? 0 then Ret (m, Ok 0)
        else
          match check_output_range records (b_len batch) RECORD_SIZE with
          | Err e => Ret (m, Err e)
          | Ok _ =>
              '(m', r) ← copy_records m token records batch 0 (Z.to_nat (b_len batch));
              match r with
              | Err e => Ret (m', Err e)
              | Ok _ => Ret (m', Ok (b_len batch))
              end
          end
  end.

Definition read_stats (ring : AuditRing) (m : PhysMem) (subject : IpcSubject)
    (token stats_ptr out_size flags : Z) : outcome (PhysMem * IpcResult Z) :=
  match check_permission subject with
  | Err e => Ret (m, Err e)
  | Ok _ =>
      if negb (flags =? 0) || (out_size <? STATS_SIZE) then Ret (m, Err InvalidArgument)
      else
        match check_output_range stats_ptr 1 STATS_SIZE with
        | Err e => Ret (m, Err e)
        | Ok _ =>
            snap ← stats ring;
            '(m', r) ← copy_to_user m token stats_ptr (encode_stats (stats_to_record snap));
            match r with
            | Err _ => Ret (m', Err InvalidAddress)
            | Ok _ => Ret (m', Ok 0)
            end
        end
  end.

Section AuditCalls.
Context {F : Type} {FS : FileSystem F}.
Implicit Type k : Kernel F.

Definition caller_context k : outcome (IpcSubject * Z) :=
  '(pid, inner) ← current_inner k;
  Ret (subject_of pid (security inner), get_user_token inner).

Definition finish_control_call k (operation : AuditControlOperation) (subject : IpcSubject)
    (requested_amount : Z) (out : IpcResult Z) : outcome (Kernel F * sysret) :=
  match out with
  | Ok value => ret k (as_isize value)
  | Err error =>
      w ← record_control_failure (k_audit k) operation subject requested_amount error;
      ret (set_audit k w) (- error_to_errno error)
  end.

Definition sys_audit_read k (records capacity after_sequence : Z) : outcome (Kernel F * sysret) :=
  '(subject, token) ← caller_context k;
  '(m, out) ← read_records (AUDIT_RING (k_audit k)) (k_mem k) subject token records capacity
                after_sequence;
  finish_control_call (set_mem k m) CtlAuditRead subject capacity out.

Definition sys_ipc_stat k (stats_ptr out_size flags : Z) : outcome (Kernel F * sysret) :=
  '(subject, token) ← caller_context k;
  '(m, out) ← read_stats (AUDIT_RING (k_audit k)) (k_mem k) subject token stats_ptr out_size flags;
  finish_control_call (set_mem k m) CtlIpcStat subject 0 out.

End AuditCalls.
End SyscallAudit.
