(* ===== verification/Trap.v ===== *)
(** * System call dispatch and the trap handler

    Models [os/src/syscall/mod.rs] and [os/src/trap/mod.rs]. *)
From S2P Require Import Prelude IpcApi Quota Timer AuditLog AuditFacts Facade.
From S2P Require Import Address Allocators PageTable MemorySet Signals UserAccess Pipe Task Kernel.
From S2P Require Import SyscallFs SignalHandling SyscallProcess SyscallAudit.
Import Timer Audit Mem Signals Task Kernel SyscallFs SignalHandling SyscallProcess SyscallAudit.

Module Trap.

Definition SYSCALL_DUP : Z := 24.
Definition SYSCALL_OPEN : Z := 56.
Definition SYSCALL_CLOSE : Z := 57.
Definition SYSCALL_PIPE : Z := 59.
Definition SYSCALL_READ : Z := 63.
Definition SYSCALL_WRITE : Z := 64.
Definition SYSCALL_EXIT : Z := 93.
Definition SYSCALL_YIELD : Z := 124.
Definition SYSCALL_KILL : Z := 129.
Definition SYSCALL_SIGACTION : Z := 134.
Definition SYSCALL_SIGPROCMASK : Z := 135.
Definition SYSCALL_SIGRETURN : Z := 139.
Definition SYSCALL_GET_TIME : Z := 169.
Definition SYSCALL_GETPID : Z := 172.
Definition SYSCALL_FORK : Z := 220.
Definition SYSCALL_EXEC : Z := 221.
Definition SYSCALL_WAITPID : Z := 260.
Definition SYSCALL_GETUID : Z := 600.
Definition SYSCALL_SETUID : Z := 601.
Definition SYSCALL_AUDIT_READ : Z := 602.
Definition SYSCALL_IPC_STAT : Z := 603.

(** [v as i32], [v as u32], [v as isize] of a register. *)
Definition as_i32 (v : Z) : Z := to_signed 32 (wrap 32 v).
Definition as_u32 (v : Z) : Z := wrap 32 v.

Section Dispatch.
Context {F : Type} {FS : FileSystem F}.
Variable P : Platform.
Variable read_fuel : nat.            (** see [sys_exec] *)
Implicit Type k : Kernel F.
Abbreviation env := (list (Kernel F -> Kernel F)).

Definition syscall k (e : env) (syscall_id a0 a1 a2 : Z) : outcome (Kernel F * sysret) :=
  if syscall_id =? SYSCALL_DUP then sys_dup k a0
  else if syscall_id =? SYSCALL_OPEN then sys_open k a0 (as_u32 a1)
  else if syscall_id =? SYSCALL_CLOSE then sys_close k a0
  else if syscall_id =? SYSCALL_PIPE then sys_pipe k a0
  else if syscall_id =? SYSCALL_READ then sys_read k a0 a1 a2 e
  else if syscall_id =? SYSCALL_WRITE then sys_write k a0 a1 a2 e
  else if syscall_id =? SYSCALL_EXIT then sys_exit k (as_i32 a0)
  else if syscall_id =? SYSCALL_YIELD then sys_yield k e
  else if syscall_id =? SYSCALL_KILL then sys_kill k a0 (as_i32 a1)
  else if syscall_id =? SYSCALL_SIGACTION then sys_sigaction k (as_i32 a0) a1 a2
  else if syscall_id =? SYSCALL_SIGPROCMASK then sys_sigprocmask k (as_u32 a0)
  else if syscall_id =? SYSCALL_SIGRETURN then sys_sigreturn k
  else if syscall_id =? SYSCALL_GET_TIME then sys_get_time k
  else if syscall_id =? SYSCALL_GETPID then sys_getpid k
  else if syscall_id =? SYSCALL_FORK then sys_fork P k
  else if syscall_id =? SYSCALL_EXEC then sys_exec P read_fuel k a0 a1
  else if syscall_id =? SYSCALL_WAITPID then sys_waitpid k (as_isize a0) a1
  else if syscall_id =? SYSCALL_GETUID then sys_getuid k
  else if syscall_id =? SYSCALL_SETUID then sys_setuid k a0
  else if syscall_id =? SYSCALL_AUDIT_READ then sys_audit_read k a0 a1 a2
  else if syscall_id =? SYSCALL_IPC_STAT then sys_ipc_stat k a0 a1 a2
  else Panic.

(** The causes [trap_handler] distinguishes. *)
Inductive cause : Type :=
| UserEnvCall
| StoreFault | StorePageFault | InstructionFault | InstructionPageFault | LoadFault | LoadPageFault
| IllegalInstruction
| SupervisorTimer
| OtherTrap.

Definition current_trap_cx k : outcome (Z * TrapContext) :=
  '(_, t) ← current_inner k;
  Ret (trap_cx_ppn t, load_trap_cx (k_mem k) (trap_cx_ppn t)).

(** The UserEnvCall arm: step over the instruction, call, store the result. *)
Definition handle_ecall k (e : env) : outcome (Kernel F * sysret) :=
  '(ppn, cx) ← current_trap_cx k;
  let cx := set_sepc cx (wrap 64 (sepc cx + 4)) in
  let k1 := set_mem k (store_trap_cx (k_mem k) ppn cx) in
  '(k2, result) ← syscall k1 e (get_x cx 17) (get_x cx 10) (get_x cx 11) (get_x cx 12);
  match result with
  | Returned v =>
      '(ppn, cx) ← current_trap_cx k2;
      ret (set_mem k2 (store_trap_cx (k_mem k2) ppn (set_x cx 10 (of_signed 64 v)))) v
  | _ => Ret (k2, result)
  end.

Definition handle_cause k (e : env) (c : cause) : outcome (Kernel F * sysret) :=
  match c with
  | UserEnvCall => handle_ecall k e
  | StoreFault | StorePageFault | InstructionFault | InstructionPageFault
  | LoadFault | LoadPageFault => k' ← current_add_signal k SIGSEGV; ret k' 0
  | IllegalInstruction => k' ← current_add_signal k SIGILL; ret k' 0
  | SupervisorTimer =>
      '(_, t) ← set_next_trigger (aw_timer (k_audit k));
      sys_yield (set_audit k {| AUDIT_RING := AUDIT_RING (k_audit k); aw_timer := t |}) e
  | OtherTrap => Panic
  end.

(** [trap_handler] up to [trap_return]: [Returned] means back to user mode.
    [e] is the interference during the call itself, [e'] during
    [handle_signals]. *)
Definition trap_handler k (e e' : env) (c : cause) : outcome (Kernel F * sysret) :=
  '(k1, r) ← handle_cause k e c;
  match r with
  | Returned v =>
      '(k2, running) ← handle_signals k1 e';
      if negb running then Ret (k2, Waiting)
      else
        err ← check_signals_error_of_current k2;
        match err with
        | Some errno => exit_current_and_run_next k2 errno
        | None => ret k2 v
        end
  | _ => Ret (k1, r)
  end.

End Dispatch.
End Trap.
