(* ===== verification/KernelInv.v ===== *)
(** * The process-table invariant

    [kinv] is what holds of the scheduler, the task table, the PID allocator
    and the audit log between any two kernel operations.  This file shows that the
    building blocks of the system calls keep it; [SyscallInv] puts them
    together. *)
From S2P Require Import Prelude IpcApi Quota Timer AuditLog AuditFacts Facade.
From S2P Require Import Address Allocators PageTable MemorySet Signals UserAccess Pipe Task Kernel.
From S2P Require Import SyscallFs FdFacts SignalHandling SyscallProcess.
Import Task Kernel SyscallProcess.

(** ** Inverting a returning computation *)

(** [inv_ret H] takes [H : computation = Ret v] apart, one bind, conditional or
    match at a time. *)
Ltac inv_ret1 H :=
  cbn beta iota zeta in H;
  lazymatch type of H with
  | Ret _ = Ret _ => injection H as H; try subst
  | Panic = Ret _ => discriminate H
  | OutOfFuel = Ret _ => discriminate H
  | mret _ = Ret _ => injection H as H; try subst
  | mbind _ _ = Ret _ =>
      let a := fresh "a" in let Ha := fresh "Ha" in apply bind_Ret_inv in H as (a & Ha & H)
  | (if ?b then _ else _) = Ret _ => let E := fresh "E" in destruct b eqn:E
  | (match ?x with _ => _ end) = Ret _ => let E := fresh "E" in destruct x eqn:E
  end.
Ltac inv_ret H := repeat (inv_ret1 H).

Lemma unwrap_Ret {A} (o : option A) a : unwrap o = Ret a -> o = Some a.
Proof. destruct o; cbn; congruence. Qed.

Lemma while_loop_inv {S R} (body : S -> outcome (S + R)) (I : S -> Prop) (Q : R -> Prop) :
  (forall s x, I s -> body s = Ret x -> match x with inl s' => I s' | inr r => Q r end) ->
  forall fuel s r, I s -> while_loop fuel body s = Ret r -> Q r.
Proof.
  intros Hb fuel. induction fuel as [|fuel IH]; intros s r Hs Hr; [done|].
  cbn in Hr. apply bind_Ret_inv in Hr as ([s'|r'] & Hx & Hr).
  - apply (IH s' r); [|done]. by apply (Hb s (inl s')).
  - simplify_eq. by apply (Hb s (inr r)).
Qed.

(** ** The invariant *)

Definition task_ok (t : TaskControlBlockInner) : Prop :=
  if bool_decide (task_status t = Zombie) then children t = []
  else fd_quota_ok (fd_table t) (Facade.sec_quota (security t)) /\
       Credentials.cred_wf (Facade.sec_credentials (security t)).

Definition runnable (s : Sched) : list Z := option_list (current s) ++ ready_queue s.

Record sched_inv (s : Sched) (pa : Pids.PidAllocator) : Prop := {
  si_tasks : map_Forall (fun _ => task_ok) (tasks s);
  si_nodup : NoDup (runnable s);
  si_run : forall pid, pid ∈ runnable s <-> exists t, tasks s !! pid = Some t /\ task_status t <> Zombie;
  si_map : forall pid, pid ∈ PID2TCB s <-> pid ∈ runnable s;
  si_pids : Pids.wf pa;
  si_live : forall pid, is_Some (tasks s !! pid) -> Pids.live pa pid;
  si_child_dom : forall p t c, tasks s !! p = Some t -> c ∈ children t -> is_Some (tasks s !! c);
  si_child_nodup : forall p t, tasks s !! p = Some t -> NoDup (children t);
  si_child_uniq : forall p q tp tq c, tasks s !! p = Some tp -> tasks s !! q = Some tq ->
    c ∈ children tp -> c ∈ children tq -> p = q;
  si_init : forall t, tasks s !! INITPROC = Some t -> task_status t <> Zombie;
}.

Section Inv.
Context {F : Type} {FS : FileSystem F}.
Implicit Type k : Kernel F.

(** The audit ring stands for some log, and the clock works. *)
Definition audit_ok (w : Audit.AuditWorld) : Prop := exists log, sink_view w log.

Definition kinv k : Prop := sched_inv (k_sched k) (PID_ALLOCATOR k) /\ audit_ok (k_audit k).

(** What the other tasks may do while one is suspended: the scheduler loop,
    where no task is current, gets the state and gives it back. *)
Definition rely (f : Kernel F -> Kernel F) : Prop :=
  forall k, kinv k -> current_task k = None -> kinv (f k) /\ current_task (f k) = None.

(** Changing the fields of one task that the structure does not depend on. *)
Lemma kinv_put k pid t t' :
  kinv k -> k_tasks k !! pid = Some t -> (task_status t' = Zombie <-> task_status t = Zombie) ->
  children t' = children t -> task_ok t' -> kinv (put_task k pid t').
Proof.
  intros [[] Hau] Ht Hs Hc Hok. unfold k_tasks in Ht.
  assert (Hl : forall p u', <[pid := t']> (tasks (k_sched k)) !! p = Some u' ->
            exists u, tasks (k_sched k) !! p = Some u /\ children u' = children u).
  { intros p u'. destruct (decide (p = pid)) as [->|].
    - rewrite lookup_insert_eq. intros; simplify_eq. eauto.
    - rewrite lookup_insert_ne by done. eauto. }
  assert (Hd : forall p, is_Some (<[pid := t']> (tasks (k_sched k)) !! p) <-> is_Some (tasks (k_sched k) !! p)).
  { intros p. destruct (decide (p = pid)) as [->|].
    - rewrite lookup_insert_eq, Ht. split; eauto.
    - by rewrite lookup_insert_ne. }
  split; [|exact Hau]. split; cbn; try done.
  - by apply map_Forall_insert_2.
  - intros p. rewrite si_run0. unfold k_tasks. destruct (decide (p = pid)) as [->|].
    + rewrite lookup_insert_eq, Ht. split; intros (u & ? & ?); simplify_eq; eexists; (split; [done|tauto]).
    + by rewrite lookup_insert_ne.
  - intros p Hp. apply si_live0. by apply Hd.
  - intros p u' c Hp Hc'. destruct (Hl p u' Hp) as (u & Hu & E). apply Hd.
    apply (si_child_dom0 p u c Hu). by rewrite <- E.
  - intros p u' Hp. destruct (Hl p u' Hp) as (u & Hu & ->). eauto.
  - intros p q u' v' c Hp Hq. destruct (Hl p u' Hp) as (u & Hu & ->).
    destruct (Hl q v' Hq) as (v & Hv & ->). eauto.
  - intros u'. unfold k_tasks. destruct (decide (pid = INITPROC)) as [->|].
    + rewrite lookup_insert_eq. intros; simplify_eq. rewrite Hs. eauto.
    + rewrite lookup_insert_ne by done. eauto.
Qed.

Lemma task_inner_Ret k pid t : task_inner k pid = Ret t -> k_tasks k !! pid = Some t.
Proof. apply unwrap_Ret. Qed.

Lemma kinv_task_ok k pid t : kinv k -> k_tasks k !! pid = Some t -> task_ok t.
Proof. intros [[] _] Ht. exact (si_tasks0 pid t Ht). Qed.

Lemma runnable_current k pid : current_task k = Some pid -> pid ∈ runnable (k_sched k).
Proof. intros E. unfold runnable, current_task in *. rewrite E. cbn. by left. Qed.

(** The running task is alive, and its descriptors and credentials are in
    order. *)
Lemma kinv_current k pid t :
  kinv k -> current_task k = Some pid -> k_tasks k !! pid = Some t ->
  task_status t <> Zombie /\ fd_quota_ok (fd_table t) (Facade.sec_quota (security t)) /\
  Credentials.cred_wf (Facade.sec_credentials (security t)).
Proof.
  intros Hk Hc Ht. pose proof Hk as [[] _]. apply runnable_current, si_run0 in Hc as (t' & Ht' & Hz).
  assert (t' = t) as -> by (unfold k_tasks in Ht; congruence).
  pose proof (kinv_task_ok k pid t Hk Ht) as Hok.
  unfold task_ok in Hok. by rewrite bool_decide_eq_false_2 in Hok.
Qed.

Lemma kinv_current_exists k pid :
  kinv k -> current_task k = Some pid -> exists t, task_inner k pid = Ret t /\ k_tasks k !! pid = Some t.
Proof.
  intros [[] _] Hc. apply runnable_current, si_run0 in Hc as (t & Ht & _).
  exists t. unfold task_inner, k_tasks. by rewrite Ht.
Qed.

(** Edits of a live task. *)
Lemma task_ok_alive t :
  task_status t <> Zombie -> fd_quota_ok (fd_table t) (Facade.sec_quota (security t)) ->
  Credentials.cred_wf (Facade.sec_credentials (security t)) -> task_ok t.
Proof. intros Hz Hq Hc. unfold task_ok. by rewrite bool_decide_eq_false_2. Qed.

Lemma task_ok_same t t' :
  task_ok t -> task_status t' = task_status t -> children t' = children t ->
  fd_table t' = fd_table t -> Facade.sec_quota (security t') = Facade.sec_quota (security t) ->
  Facade.sec_credentials (security t') = Facade.sec_credentials (security t) -> task_ok t'.
Proof. unfold task_ok. intros H -> -> -> -> ->. done. Qed.

(** ** The scheduler *)

Lemma sched_inv_perm s s' pa :
  sched_inv s pa -> tasks s' = tasks s -> PID2TCB s' = PID2TCB s ->
  runnable s' ≡ₚ runnable s -> sched_inv s' pa.
Proof.
  intros [] Et Em Hp. split; rewrite ?Et, ?Em; try done.
  - by rewrite Hp.
  - intros pid. rewrite Hp. apply si_run0.
  - intros pid. rewrite Hp. apply si_map0.
Qed.

Lemma runnable_take k pid :
  current_task k = Some pid -> runnable (k_sched k) = pid :: ready_queue (k_sched k).
Proof. intros E. unfold runnable, current_task in *. by rewrite E. Qed.

Lemma kinv_set_status k pid t st :
  kinv k -> current_task k = Some pid -> k_tasks k !! pid = Some t -> st <> Zombie ->
  kinv (put_task k pid (set_task_status t st)) .
Proof.
  intros Hk Hc Ht Hst. destruct (kinv_current k pid t Hk Hc Ht) as (Hz & Hq & Hcr).
  apply (kinv_put k pid t); [done|done|cbn; tauto|done|by apply task_ok_alive].
Qed.

Lemma kinv_suspend k k' : kinv k -> suspend_current k = Ret k' -> kinv k'.
Proof.
  intros Hk H. unfold suspend_current, take_current_task in H. inv_ret H.
  apply unwrap_Ret in Ha. apply task_inner_Ret in Ha0.
  pose proof (kinv_set_status k a a0 Ready Hk Ha Ha0 ltac:(done)) as Hk'.
  destruct Hk as [Hk Hau], Hk' as [Hk' _]. split; [|exact Hau].
  apply (sched_inv_perm _ _ _ Hk'); cbn.
  - done.
  - apply set_eq. intros p. rewrite elem_of_union, elem_of_singleton. split; [|by auto].
    intros [->|]; [|done]. apply (si_map _ _ Hk). by apply runnable_current.
  - unfold runnable; cbn. unfold current_task in Ha. rewrite Ha. cbn. symmetry. apply Permutation_cons_append.
Qed.

Lemma kinv_run_round k k' : kinv k -> current_task k = None -> run_tasks_round k = Ret (Some k') -> kinv k'.
Proof.
  intros Hk Hc H. unfold run_tasks_round, fetch_task in H.
  destruct (ready_queue (k_sched k)) as [|pid rest] eqn:Er; [done|]. inv_ret H.
  apply task_inner_Ret in Ha.
  set (k1 := set_current (set_sched k {| tasks := k_tasks k; PID2TCB := PID2TCB (k_sched k);
                 ready_queue := rest; current := current (k_sched k) |}) (Some pid)).
  assert (Hk1 : kinv k1).
  { destruct Hk as [Hk Hau]. split; [|exact Hau]. apply (sched_inv_perm _ _ _ Hk); cbn; try done. unfold runnable, current_task in *; cbn.
    by rewrite Er, Hc. }
  by apply (kinv_set_status k1 pid a Running Hk1).
Qed.

Lemma kinv_suspend_and_run k f k' :
  kinv k -> rely f -> suspend_current_and_run_next k f = Ret k' -> kinv k'.
Proof.
  intros Hk Hf H. unfold suspend_current_and_run_next in H.
  apply bind_Ret_inv in H as (k1 & H1 & H). apply bind_Ret_inv in H as (r & H2 & H).
  destruct r as [k2|]; [|done]. case_bool_decide; simplify_eq.
  assert (Hc1 : current_task k1 = None).
  { unfold suspend_current, take_current_task in H1. inv_ret H1. done. }
  destruct (Hf k1 (kinv_suspend _ _ Hk H1) Hc1) as [Hk1 Hc2].
  by apply (kinv_run_round (f k1)).
Qed.

(** ** Files *)

(** What an operation may touch without affecting the invariant. *)
Lemma kinv_ext k k' :
  kinv k -> k_sched k' = k_sched k -> PID_ALLOCATOR k' = PID_ALLOCATOR k ->
  k_audit k' = k_audit k -> kinv k'.
Proof. unfold kinv. by intros H -> -> ->. Qed.

Lemma kinv_set_audit k w : kinv k -> audit_ok w -> kinv (set_audit k w).
Proof. intros [H _] Hw. by split. Qed.

(** Recording keeps the audit part. *)
Lemma audit_ok_record w rq out w' :
  audit_ok w -> sink_record w rq out = Ret w' -> audit_ok w'.
Proof.
  intros [log Hv] H. destruct (sink_record_appends w log rq out Hv) as (w2 & ts & E & _ & Hv').
  rewrite E in H. simplify_eq. by eexists.
Qed.

Lemma pipe_suspend_step_inv s x :
  kinv (Pipe.io_k s) -> Forall rely (Pipe.io_env s) -> Pipe.suspend_step s = Ret x ->
  match x with
  | inl s' => kinv (Pipe.io_k s') /\ Forall rely (Pipe.io_env s')
  | inr r => kinv r.1
  end.
Proof.
  intros Hk He H. unfold Pipe.suspend_step in H. destruct (Pipe.io_env s) as [|f e] eqn:E; inv_ret H.
  - done.
  - apply Forall_cons in He as [Hf He]. cbn. split; [|done]. by eapply kinv_suspend_and_run.
Qed.

Lemma kinv_pipe_read p k buf e k' r :
  kinv k -> Forall rely e -> Pipe.pipe_read p k buf e = Ret (k', r) -> kinv k'.
Proof.
  intros Hk He H. unfold Pipe.pipe_read in H. apply bind_Ret_inv in H as (_ & _ & H).
  apply (while_loop_inv _ (fun s => kinv (Pipe.io_k s) /\ Forall rely (Pipe.io_env s))
           (fun r => kinv r.1)) in H; [done| |done].
  intros s x [Hs Hse] Hx. unfold Pipe.read_body in Hx.
  apply bind_Ret_inv in Hx as (ring & _ & Hx). case_if.
  - apply bind_Ret_inv in Hx as (c & _ & Hx). destruct c; [by simplify_eq|].
    by apply (pipe_suspend_step_inv s).
  - apply bind_Ret_inv in Hx as ([[[[ring' m'] it'] al'] o] & _ & Hx). destruct o; by simplify_eq.
Qed.

Lemma kinv_pipe_write p k buf e k' r :
  kinv k -> Forall rely e -> Pipe.pipe_write p k buf e = Ret (k', r) -> kinv k'.
Proof.
  intros Hk He H. unfold Pipe.pipe_write in H. apply bind_Ret_inv in H as (_ & _ & H).
  apply (while_loop_inv _ (fun s => kinv (Pipe.io_k s) /\ Forall rely (Pipe.io_env s))
           (fun r => kinv r.1)) in H; [done| |done].
  intros s x [Hs Hse] Hx. unfold Pipe.write_body in Hx.
  apply bind_Ret_inv in Hx as (ring & _ & Hx). case_if; [by apply (pipe_suspend_step_inv s)|].
  apply bind_Ret_inv in Hx as ([[[ring' it'] al'] o] & _ & Hx). destruct o; by simplify_eq.
Qed.

Lemma kinv_stdin_wait k e k' r :
  kinv k -> Forall rely e -> stdin_wait k e = Ret (k', r) -> kinv k'.
Proof.
  intros Hk He. revert k Hk. induction He as [|f e Hf He IH]; intros k Hk H; cbn in H;
    unfold console_getchar in H; destruct (console_in (k_io k)); repeat case_if; simplify_eq; try done;
    apply bind_Ret_inv in H as (k2 & H2 & H); apply (IH k2); try done;
    by (eapply kinv_suspend_and_run; [| |exact H2]).
Qed.

Lemma kinv_print_buffers k buf k' : kinv k -> print_buffers k buf = Ret k' -> kinv k'.
Proof.
  revert k. induction buf as [|[a n] buf IH]; intros k Hk H; cbn in H; [by simplify_eq|].
  apply bind_Ret_inv in H as (cs & _ & H). by eapply IH; [|exact H].
Qed.

Lemma kinv_inode_read k key buf n k' r : kinv k -> inode_read k key buf n = Ret (k', r) -> kinv k'.
Proof.
  revert k n. induction buf as [|[a m] buf IH]; intros k n Hk H; cbn in H; [by simplify_eq|].
  apply bind_Ret_inv in H as (o & _ & H). apply bind_Ret_inv in H as ([bs fs'] & _ & H).
  case_if; [by simplify_eq|]. by eapply IH; [|exact H].
Qed.

Lemma kinv_inode_write k key buf n k' r : kinv k -> inode_write k key buf n = Ret (k', r) -> kinv k'.
Proof.
  revert k n. induction buf as [|[a m] buf IH]; intros k n Hk H; cbn in H; [by simplify_eq|].
  apply bind_Ret_inv in H as (o & _ & H). apply bind_Ret_inv in H as ([ws fs'] & _ & H).
  apply bind_Ret_inv in H as (? & _ & H). by eapply IH; [|exact H].
Qed.

Lemma kinv_file_read k f buf e k' r :
  kinv k -> Forall rely e -> file_read k f buf e = Ret (k', r) -> kinv k'.
Proof.
  intros Hk He H. destruct f; cbn in H; [|done| |].
  - unfold stdin_read in H. apply bind_Ret_inv in H as (_ & _ & H).
    apply bind_Ret_inv in H as ([k1 c] & H1 & H). apply kinv_stdin_wait in H1; [|done..].
    destruct c; [|by simplify_eq]. apply bind_Ret_inv in H as ([a n] & _ & H). by simplify_eq.
  - by eapply kinv_pipe_read.
  - apply bind_Ret_inv in H as ([k1 n] & H1 & H). simplify_eq. by eapply kinv_inode_read.
Qed.

Lemma kinv_file_write k f buf e k' r :
  kinv k -> Forall rely e -> file_write k f buf e = Ret (k', r) -> kinv k'.
Proof.
  intros Hk He H. destruct f; cbn in H; [done| | |].
  - apply bind_Ret_inv in H as ([k1 n] & H1 & H). simplify_eq. unfold stdout_write in H1.
    apply bind_Ret_inv in H1 as (k2 & H2 & H1). simplify_eq. by eapply kinv_print_buffers.
  - by eapply kinv_pipe_write.
  - apply bind_Ret_inv in H as ([k1 n] & H1 & H). simplify_eq. by eapply kinv_inode_write.
Qed.

Lemma kinv_open_file k name flags k' r : kinv k -> open_file k name flags = Ret (k', r) -> kinv k'.
Proof. intros Hk H. unfold open_file, new_os_inode in H. inv_ret H; simplify_eq; done. Qed.

Lemma open_file_sched k name flags k' r :
  open_file k name flags = Ret (k', r) -> k_sched k' = k_sched k.
Proof. intros H. unfold open_file, new_os_inode in H. inv_ret H; simplify_eq; done. Qed.

Lemma read_all_sched fuel k key acc k' r :
  read_all fuel k key acc = Ret (k', r) ->
  k_sched k' = k_sched k /\ PID_ALLOCATOR k' = PID_ALLOCATOR k /\ k_audit k' = k_audit k.
Proof.
  revert k acc. induction fuel as [|fuel IH]; intros k acc H; [done|]. cbn in H.
  apply bind_Ret_inv in H as (o & _ & H). apply bind_Ret_inv in H as ([bs fs'] & _ & H).
  case_if; [by simplify_eq|]. apply IH in H as (-> & -> & ->). done.
Qed.

End Inv.
