(* ===== verification/SyscallInv.v ===== *)
(** * System calls keep the process-table invariant

    One lemma per system call of [SyscallFs]; [PipeCallFacts], [ProcessInv] and
    [LifecycleInv] have the others. *)
From S2P Require Import Prelude IpcApi Quota Timer AuditLog AuditFacts Facade.
From S2P Require Import Address Allocators PageTable MemorySet Signals UserAccess Pipe Task Kernel.
From S2P Require Import SyscallFs FdFacts SignalHandling SyscallProcess SyscallAudit Trap KernelInv.
Import Task Kernel SyscallFs SignalHandling SyscallProcess SyscallAudit Trap.

Section SyscallInv.
Context {F : Type} {FS : FileSystem F}.
Implicit Type k : Kernel F.

(** ** The security facade *)

Lemma put_task_id k pid t : k_tasks k !! pid = Some t -> put_task k pid t = k.
Proof.
  intros Ht. unfold put_task, set_tasks, set_sched. rewrite insert_id by done.
  destruct k as [? ? ? [] ? ?]. done.
Qed.

Lemma set_security_id t : set_security t (security t) = t.
Proof. by destruct t. Qed.

Lemma set_security_as t s : s = security t -> set_security t s = t.
Proof. intros ->. apply set_security_id. Qed.

Lemma with_quota_id s : Facade.with_quota s (Facade.sec_quota s) = s.
Proof. by destruct s. Qed.

(** Operations without a reservation leave everything but the audit log. *)
Lemma task_preflight_plain k pid rq k' r :
  req_operation rq <> PipeCreate -> task_preflight k pid rq = Ret (k', r) ->
  (exists w, k' = set_audit k w /\ (audit_ok (k_audit k) -> audit_ok w)) /\
  match r with Ok p => Quota.res_kind (Facade.permit_reservation p) = Quota.NoReservation | Err _ => True end.
Proof.
  intros Hop H. unfold task_preflight in H. apply bind_Ret_inv in H as (t & Ht & H).
  apply bind_Ret_inv in H as ([[s w] r'] & Hp & H). simplify_eq. apply task_inner_Ret in Ht.
  assert (Hs : s = security t /\ (audit_ok (k_audit k) -> audit_ok w) /\
    match r with Ok p => Quota.res_kind (Facade.permit_reservation p) = Quota.NoReservation | Err _ => True end).
  { unfold Facade.preflight in Hp. destruct (Policy.authorize rq).
    - unfold Quota.reserve in Hp. destruct (req_operation rq); try done; simplify_eq/=;
        (split_and!; [apply with_quota_id|done|done]).
    - apply bind_Ret_inv in Hp as (w' & Hw & Hp). simplify_eq. split_and!; [done| |done].
      intros Ha. by eapply audit_ok_record. }
  destruct Hs as (-> & Ha & Hr). split; [|done]. exists w. by rewrite set_security_id, put_task_id.
Qed.

Lemma task_complete_plain k pid p out k' r :
  Quota.res_kind (Facade.permit_reservation p) = Quota.NoReservation ->
  task_complete k pid p out = Ret (k', r) ->
  (exists w, k' = set_audit k w /\ (audit_ok (k_audit k) -> audit_ok w)) /\ r = out.
Proof.
  intros Hp H. unfold task_complete in H. apply bind_Ret_inv in H as (t & Ht & H).
  apply bind_Ret_inv in H as ([[s w] r'] & Hc & H). simplify_eq. apply task_inner_Ret in Ht.
  unfold Facade.complete in Hc. apply bind_Ret_inv in Hc as (w' & Hw & Hc). simplify_eq.
  split; [|done]. exists w. split; [|intros Ha; by eapply audit_ok_record]. unfold Quota.finish. rewrite Hp.
  assert (Facade.with_quota (security t)
    (if is_ok r then Facade.sec_quota (security t) else Facade.sec_quota (security t)) = security t) as ->
    by (destruct (is_ok r); apply with_quota_id).
  by rewrite set_security_id, put_task_id.
Qed.

Lemma kinv_finish_ipc_plain k pid p out k' r :
  kinv k -> Quota.res_kind (Facade.permit_reservation p) = Quota.NoReservation ->
  finish_ipc k pid p out = Ret (k', r) -> kinv k'.
Proof.
  intros Hk Hp H. unfold finish_ipc in H. apply bind_Ret_inv in H as ([k1 r1] & H1 & H).
  apply task_complete_plain in H1 as [(w & -> & Hw) _]; [|done].
  assert (kinv (set_audit k w)) by (apply kinv_set_audit; [done|apply Hw, Hk]).
  destruct r1; unfold ret in H; by simplify_eq.
Qed.

(** ** Descriptor calls *)

Lemma kinv_run_file (op : Kernel F -> FileRef -> list UserAccess.slice -> _ -> _) k file bufs e k' r :
  (forall k f b e k' r, kinv k -> Forall rely e -> op k f b e = Ret (k', r) -> kinv k') ->
  kinv k -> Forall rely e -> run_file op k file bufs e = Ret (k', r) -> kinv k'.
Proof.
  intros Hop Hk He H. unfold run_file in H. apply bind_Ret_inv in H as ([k1 r1] & H1 & H).
  apply Hop in H1; [|done..]. destruct r1; by simplify_eq.
Qed.

Lemma kinv_checked_io (op : Kernel F -> FileRef -> list UserAccess.slice -> _ -> _) k pid file rq bufs len e k' r :
  (forall k f b e k' r, kinv k -> Forall rely e -> op k f b e = Ret (k', r) -> kinv k') ->
  (forall q, rq = Some q -> req_operation q <> PipeCreate) ->
  kinv k -> Forall rely e -> checked_io op k pid file rq bufs len e = Ret (k', r) -> kinv k'.
Proof.
  intros Hop Hrq Hk He H. unfold checked_io, ret in H. destruct rq as [q|].
  - apply bind_Ret_inv in H as ([k1 p] & H1 & H).
    apply task_preflight_plain in H1 as [(w & -> & Hw) Hp]; [|by apply Hrq].
    assert (Hk1 : kinv (set_audit k w)) by (apply kinv_set_audit; [done|apply Hw, Hk]).
    destruct p as [p|]; [|by simplify_eq].
    apply bind_Ret_inv in H as ([k2 r2] & H2 & H).
    assert (Hk2 : kinv k2) by (case_if; [by simplify_eq|eapply (kinv_run_file op (set_audit k w)); [exact Hop|exact Hk1|exact He|exact H2]]).
    destruct r2; [|by simplify_eq]. by eapply kinv_finish_ipc_plain.
  - case_if; [by simplify_eq|]. apply bind_Ret_inv in H as ([k2 r2] & H2 & H).
    apply (kinv_run_file op) in H2; [|done..]. destruct r2; by simplify_eq.
Qed.

Lemma io_request_op pid s op len file q : io_request pid s op len file = Some q -> req_operation q = op.
Proof. unfold io_request. intros H. apply fmap_Some in H as (o & _ & ->). done. Qed.

Lemma kinv_record_failure k (o : option IpcRequest) e k' :
  kinv k -> match o with Some rq => record_failure k rq e | None => Ret k end = Ret k' -> kinv k'.
Proof.
  intros Hk H. destruct o; [|by simplify_eq]. unfold record_failure in H.
  apply bind_Ret_inv in H as (w & Hw & H). simplify_eq. apply kinv_set_audit; [done|].
  eapply audit_ok_record; [apply Hk|exact Hw].
Qed.

Lemma kinv_sys_write k fd buf len e k' r :
  kinv k -> Forall rely e -> sys_write k fd buf len e = Ret (k', r) -> kinv k'.
Proof.
  intros Hk He H. unfold sys_write, ret in H.
  apply bind_Ret_inv in H as (tok & _ & H). apply bind_Ret_inv in H as (pid & _ & H).
  apply bind_Ret_inv in H as (t & _ & H). case_if; [by simplify_eq|].
  apply bind_Ret_inv in H as (en & _ & H). destruct en as [file|]; [|by simplify_eq].
  case_if; [by simplify_eq|]. apply bind_Ret_inv in H as (ub & _ & H). destruct ub as [bufs|er].
  - eapply (kinv_checked_io file_write); [apply kinv_file_write| |exact Hk|exact He|exact H].
    intros q Hq. by rewrite (io_request_op _ _ _ _ _ _ Hq).
  - apply bind_Ret_inv in H as (k1 & H1 & H). simplify_eq. by eapply kinv_record_failure.
Qed.

Lemma kinv_sys_read k fd buf len e k' r :
  kinv k -> Forall rely e -> sys_read k fd buf len e = Ret (k', r) -> kinv k'.
Proof.
  intros Hk He H. unfold sys_read, ret in H.
  apply bind_Ret_inv in H as (tok & _ & H). apply bind_Ret_inv in H as (pid & _ & H).
  apply bind_Ret_inv in H as (t & _ & H). case_if; [by simplify_eq|].
  apply bind_Ret_inv in H as (en & _ & H). destruct en as [file|]; [|by simplify_eq].
  case_if; [by simplify_eq|]. apply bind_Ret_inv in H as (ub & _ & H). destruct ub as [bufs|].
  - eapply (kinv_checked_io file_read); [apply kinv_file_read| |exact Hk|exact He|exact H].
    intros q Hq. by rewrite (io_request_op _ _ _ _ _ _ Hq).
  - apply bind_Ret_inv in H as (k1 & H1 & H). simplify_eq. by eapply kinv_record_failure.
Qed.

(** A new table and quota for the running task. *)
Lemma kinv_put_fds k pid t t' :
  kinv k -> current_task k = Some pid -> k_tasks k !! pid = Some t ->
  task_status t' = task_status t -> children t' = children t ->
  fd_quota_ok (fd_table t') (Facade.sec_quota (security t')) ->
  Credentials.cred_wf (Facade.sec_credentials (security t')) ->
  kinv (put_task k pid t').
Proof.
  intros Hk Hc Ht Hs Hch Hq Hcr. destruct (kinv_current k pid t Hk Hc Ht) as (Hz & _ & _).
  apply (kinv_put k pid t); [done|done|by rewrite Hs|done|].
  apply task_ok_alive; [by rewrite Hs|done|done].
Qed.

Lemma index_slot (t : fdtable) fd o :
  index t fd = Ret o -> t !! Z.to_nat fd = Some o.
Proof. apply unwrap_Ret. Qed.

Lemma update_slot (t : fdtable) fd o t' : update t fd o = Ret t' -> t' = <[Z.to_nat fd := o]> t.
Proof. unfold update. case_if; intros; by simplify_eq. Qed.

Lemma kinv_sys_close k fd k' r : 0 <= fd -> kinv k -> sys_close k fd = Ret (k', r) -> kinv k'.
Proof.
  intros Hfd Hk H. unfold sys_close, ret in H.
  apply bind_Ret_inv in H as (pid & Hc%unwrap_Ret & H).
  apply bind_Ret_inv in H as (t & Ht%task_inner_Ret & H). case_if; [by simplify_eq|].
  apply bind_Ret_inv in H as (en & Hen%index_slot & H). destruct en as [file|]; [|by simplify_eq].
  apply bind_Ret_inv in H as (t' & Ht'%update_slot & H). simplify_eq.
  destruct (kinv_current k pid t Hk Hc Ht) as (Hz & Hq & Hcr).
  apply (kinv_put_fds k pid t); try done. cbn.
  replace fd with (Z.of_nat (Z.to_nat fd)) at 2 by lia. by eapply fd_quota_close.
Qed.

Lemma kinv_sys_dup k fd k' r : 0 <= fd -> kinv k -> sys_dup k fd = Ret (k', r) -> kinv k'.
Proof.
  intros Hfd Hk H. unfold sys_dup, ret in H.
  apply bind_Ret_inv in H as (pid & Hc%unwrap_Ret & H).
  apply bind_Ret_inv in H as (t & Ht%task_inner_Ret & H). case_if; [by simplify_eq|].
  apply bind_Ret_inv in H as (en & Hen%index_slot & H). destruct en as [file|]; [|by simplify_eq].
  destruct (kinv_current k pid t Hk Hc Ht) as (Hz & Hq & Hcr).
  unfold Facade.reserve_dup_fd in H.
  destruct (Quota.reserve_dup_fd (Facade.sec_quota (security t)) fd) as [q' res] eqn:Er.
  destruct res as [isp|er].
  - apply bind_Ret_inv in H as ([nfd t'] & Hi & H). simplify_eq.
    destruct (install_fd_spec (fd_table t) file) as (n & t'' & Hi' & Hins).
    rewrite Hi in Hi'. simplify_eq.
    pose proof (lookup_lt_Some _ _ _ Hen) as Hlt.
    assert (Hisp : Quota.is_pipe_fd (Facade.sec_quota (security t)) fd = is_pipe_file file).
    { replace fd with (Z.of_nat (Z.to_nat fd)) by lia. rewrite (fd_quota_is_pipe (fd_table t)) by done.
      unfold pipe_at. by rewrite Hen. }
    unfold Quota.reserve_dup_fd in Er. rewrite Hisp in Er.
    apply (kinv_put_fds k pid t); try done; cbn.
    + destruct (is_pipe_file file) eqn:Ef.
      * destruct (Quota.reserve_pipe_fds _ 1) as [q1 [[]|]] eqn:E1; simplify_eq. cbn.
        by eapply fd_quota_install_pipe.
      * destruct (Quota.reserve_files _ 1) as [q1 [[]|]] eqn:E1; simplify_eq. cbn.
        by eapply fd_quota_install_file.
    + by destruct isp.
  - simplify_eq. apply reserve_dup_fd_err_unchanged in Er as ->.
    rewrite with_quota_id, set_security_id, put_task_id; done.
Qed.

Lemma kinv_sys_open k path flags k' r : kinv k -> sys_open k path flags = Ret (k', r) -> kinv k'.
Proof.
  intros Hk H. unfold sys_open, ret in H.
  apply bind_Ret_inv in H as (pid & Hc%unwrap_Ret & H). apply bind_Ret_inv in H as (tok & _ & H).
  apply bind_Ret_inv in H as (p & _ & H). destruct p as [p|]; [|by simplify_eq].
  destruct (open_flags_from_bits flags) as [fl|]; [|by simplify_eq].
  apply bind_Ret_inv in H as ([k1 o] & Ho & H). pose proof (open_file_sched _ _ _ _ _ Ho) as Hsch.
  apply kinv_open_file in Ho; [|done]. destruct o as [key|]; [|by simplify_eq].
  apply bind_Ret_inv in H as (t & Ht%task_inner_Ret & H).
  assert (Hc1 : current_task k1 = Some pid) by (unfold current_task; by rewrite Hsch).
  destruct (kinv_current k1 pid t Ho Hc1 Ht) as (Hz & Hq & Hcr).
  unfold Facade.reserve_file_fd in H.
  destruct (Quota.reserve_files (Facade.sec_quota (security t)) 1) as [q' [[]|er]] eqn:Er.
  - apply bind_Ret_inv in H as ([nfd t'] & Hi & H). simplify_eq.
    destruct (install_fd_spec (fd_table t) (FInode key)) as (n & t'' & Hi' & Hins).
    rewrite Hi in Hi'. simplify_eq.
    apply (kinv_put_fds k1 pid t); try done. cbn.
    eapply (fd_quota_install_file _ _ _ (FInode key)); [exact Hq|reflexivity|exact Er|exact Hins].
  - simplify_eq. apply reserve_files_err in Er as ->.
    rewrite with_quota_id, set_security_id, put_task_id; done.
Qed.

(** ** Facade calls, as total functions *)

Lemma task_preflight_spec k pid t rq log :
  k_tasks k !! pid = Some t -> sink_view (k_audit k) log ->
  exists k' r, task_preflight k pid rq = Ret (k', r) /\
  match r with
  | Ok p => exists s, k' = put_task k pid (set_security t s) /\ Facade.permit_request p = rq /\
      Policy.authorize rq = Ok tt /\
      Facade.sec_credentials s = Facade.sec_credentials (security t) /\
      Quota.reserve (Facade.sec_quota (security t)) rq
      = (Facade.sec_quota s, Ok (Facade.permit_reservation p))
  | Err e => exists w ts, k' = set_audit k w /\ in_width 64 ts /\
      (Policy.authorize rq = Err e \/
       exists q, Quota.reserve (Facade.sec_quota (security t)) rq = (q, Err e)) /\
      sink_view w (Audit.log_append log (Audit.from_request rq (Err e) ts))
  end.
Proof.
  intros Ht Hv. unfold task_preflight, task_inner. rewrite Ht. cbn [unwrap mbind outcome_bind].
  destruct (preflight_spec (security t) (k_audit k) log rq Hv) as (s & w & r & -> & Hc & Hr).
  cbn [mbind outcome_bind]. eexists _, r. split; [done|]. destruct r as [p|e].
  - destruct Hr as (-> & Hp & Ha & Hres). exists s. by split_and!.
  - destruct Hr as (-> & Hcause & ts & Hts & Hv'). exists w, ts. split_and!; [|done| |done].
    + by rewrite set_security_id, put_task_id.
    + destruct Hcause as [|[_ ?]]; [by left|right; by eexists].
Qed.

Lemma task_complete_spec k pid t p out log :
  k_tasks k !! pid = Some t -> sink_view (k_audit k) log ->
  exists w ts, task_complete k pid p out
    = Ret (set_audit (put_task k pid (set_security t (Facade.with_quota (security t)
             (Quota.finish (Facade.sec_quota (security t)) (Facade.permit_reservation p) (is_ok out))))) w, out) /\
    in_width 64 ts /\ sink_view w (log_outcome log (Facade.permit_request p) out ts).
Proof.
  intros Ht Hv. unfold task_complete, task_inner. rewrite Ht. cbn [unwrap mbind outcome_bind].
  destruct (complete_spec (security t) (k_audit k) log p out Hv) as (w & ts & -> & Hts & Hv').
  cbn [mbind outcome_bind]. by exists w, ts.
Qed.

End SyscallInv.
