(* ===== verification/PipeCallFacts.v ===== *)
(** * [sys_pipe]: creation, copy-out and rollback *)
From S2P Require Import Prelude IpcApi Quota Timer AuditLog AuditFacts Facade.
From S2P Require Import Address Allocators PageTable MemorySet Signals UserAccess UserAccessFacts Pipe Task Kernel.
From S2P Require Import SyscallFs FdFacts SignalHandling SyscallProcess SyscallAudit Trap KernelInv SyscallInv.
Import Mem UserAccess Pipe Task Kernel SyscallFs.

Section SysPipe.
Context {F : Type} {FS : FileSystem F}.
Implicit Type k : Kernel F.

(** The request [sys_pipe] sends through the facade. *)
Definition pipe_request (pid : Z) (s : Facade.ProcessSecurityState) : IpcRequest :=
  {| req_subject := subject_of pid s;
     req_object := {| object_id := 0; object_owner_uid := Credentials.uid (Facade.sec_credentials s) |};
     req_operation := PipeCreate; req_amount := 1 |}.

Definition pipe_object (id : Z) (t : TaskControlBlockInner) : IpcObject :=
  {| object_id := id; object_owner_uid := Credentials.uid (Facade.sec_credentials (security t)) |}.

(** Only the block of the caller changes in the process table, and neither its
    status nor its children. *)
Definition task_update k k' (pid : Z) (t t' : TaskControlBlockInner) : Prop :=
  k_sched k' = k_sched (put_task k pid t') /\ PID_ALLOCATOR k' = PID_ALLOCATOR k /\
  task_status t' = task_status t /\ children t' = children t.

(** A successful call: the two lowest free descriptors are the ends of a new
    empty pipe, the caller's memory holds their numbers, and the quota counts
    and registers both. *)
Definition pipe_created k k' (pid : Z) (t : TaskControlBlockInner) (ptr : Z) : Prop :=
  exists (rfd wfd : nat) t1 t2 m1 t',
    let id := NEXT_PIPE_ID (k_io k) in
    installed (fd_table t) (FPipe (read_end_with_buffer id (pipe_object id t))) rfd t1 /\
    installed t1 (FPipe (write_end_with_buffer id (pipe_object id t))) wfd t2 /\
    copy_to_user (k_mem k) (get_user_token t) ptr (le_bytes 8 (Z.of_nat rfd)) = Ret (m1, Ok tt) /\
    copy_to_user m1 (get_user_token t) (wrap 64 (ptr + 8)) (le_bytes 8 (Z.of_nat wfd))
      = Ret (k_mem k', Ok tt) /\
    rings (k_io k') !! id = Some (set_write_end ring_new id) /\
    NEXT_PIPE_ID (k_io k') = id + 1 /\
    task_update k k' pid t t' /\ fd_table t' = t2 /\
    Facade.sec_credentials (security t') = Facade.sec_credentials (security t) /\
    fd_quota_ok t2 (Facade.sec_quota (security t')).

(** User memory after a copy-out that fails: nothing is written if the number
    [fd] of the read end cannot be, and only that number if the second cannot. *)
Inductive copy_out_fails (m : PhysMem) (token ptr fd : Z) : PhysMem -> Prop :=
| first_refused :
    ~ range_ok m token ptr 8 true -> copy_out_fails m token ptr fd m
| second_refused :
    let m1 := store_list m (phys_range m token ptr 8) (le_bytes 8 fd) in
    range_ok m token ptr 8 true -> ~ range_ok m1 token (wrap 64 (ptr + 8)) 8 true ->
    copy_out_fails m token ptr fd m1.

(** A failed call: every descriptor refers to what it referred to before, the
    credentials and the quota are the old ones, and memory is, unless the call
    failed in the copy-out. *)
Definition pipe_rolled_back k k' (pid : Z) (t : TaskControlBlockInner) (ptr : Z) (e : IpcError) : Prop :=
  (exists t', task_update k k' pid t t' /\
    (forall j, fd_file (fd_table t') j = fd_file (fd_table t) j) /\
    security t' = security t /\ fd_quota_ok (fd_table t') (Facade.sec_quota (security t))) /\
  match e with
  | InvalidAddress =>
      let id := NEXT_PIPE_ID (k_io k) in
      exists (rfd : nat) t1, installed (fd_table t) (FPipe (read_end_with_buffer id (pipe_object id t))) rfd t1 /\
        copy_out_fails (k_mem k) (get_user_token t) ptr (Z.of_nat rfd) (k_mem k')
  | _ => k_mem k' = k_mem k
  end.

Lemma finish_ipc_spec k pid t p out log :
  k_tasks k !! pid = Some t -> sink_view (k_audit k) log ->
  exists w ts, finish_ipc k pid p out
    = Ret (set_audit (put_task k pid (set_security t (Facade.with_quota (security t)
             (Quota.finish (Facade.sec_quota (security t)) (Facade.permit_reservation p) (is_ok out))))) w,
           Returned (match out with Ok v => as_isize v | Err e => ipc_error_to_ret e end)) /\
    sink_view w (log_outcome log (Facade.permit_request p) out ts).
Proof.
  intros Ht Hv. destruct (task_complete_spec k pid t p out log Ht Hv) as (w & ts & E & _ & Hv').
  exists w, ts. split; [|done]. unfold finish_ipc. rewrite E. cbn [mbind outcome_bind]. by destruct out.
Qed.

Lemma task_inner_eq k pid t : k_tasks k !! pid = Some t -> task_inner k pid = Ret t.
Proof. unfold task_inner. by intros ->. Qed.

(** Two puts on the same task are one. *)
Lemma k_tasks_put k pid t : k_tasks (put_task k pid t) = <[pid := t]> (k_tasks k).
Proof. done. Qed.

Lemma reserve_pipe_request q pid s q' res :
  Quota.reserve q (pipe_request pid s) = (q', Ok res) ->
  Quota.reserve_pipe_fds q 2 = (q', Ok tt) /\ res = Quota.mkReservation Quota.PipeFds 2.
Proof.
  unfold Quota.reserve, Quota.PIPE_ENDPOINTS_PER_PIPE; cbn.
  destruct (Quota.reserve_pipe_fds q 2) as [q1 [[]|]]; intros; by simplify_eq.
Qed.

Lemma take_fd_slot (t : fdtable) (n : nat) : (n < length t)%nat -> take_fd t (Z.of_nat n) = Ret (<[n := None]> t).
Proof.
  intros Hn. unfold take_fd. destruct (Z.ltb_spec (Z.of_nat n) (Z.of_nat (length t))); [|lia].
  rewrite update_Ret by lia. by rewrite Nat2Z.id.
Qed.

Lemma copy_fd_total m token ptr (fd : nat) :
  in_width 64 ptr ->
  exists m' r, copy_to_user m token ptr (le_bytes 8 (Z.of_nat fd)) = Ret (m', r) /\
    (r = Ok tt /\ range_ok m token ptr 8 true /\
       m' = store_list m (phys_range m token ptr 8) (le_bytes 8 (Z.of_nat fd)) \/
     r = Err InvalidAddress /\ ~ range_ok m token ptr 8 true /\ m' = m).
Proof.
  intros Hp. pose proof (copy_to_user_spec m token ptr (le_bytes 8 (Z.of_nat fd)) Hp) as H. rewrite length_le_bytes in H by lia.
  destruct H as [[Hok E]|[Hok E]]; [lia|..]; eexists _, _; (split; [exact E|]); [by left|by right].
Qed.

Lemma reserve_pipe_request_err q pid s q' e :
  Quota.reserve q (pipe_request pid s) = (q', Err e) -> e = TooManyFiles \/ e = ResourceExhausted.
Proof.
  unfold Quota.reserve, Quota.reserve_pipe_fds; cbn. repeat case_match; intros; simplify_eq; auto.
Qed.

Lemma log_outcome_pipe log pid s out ts :
  log_outcome log (pipe_request pid s) out ts
  = Audit.log_append log (Audit.from_request (pipe_request pid s) out ts).
Proof. done. Qed.

(** What follows once the descriptors are reserved and the pipe exists: [t1]
    is the block with the reserved quota. *)
Lemma reserved_room t q q' :
  fd_quota_ok t q -> Quota.reserve_pipe_fds q 2 = (q', Ok tt) -> (open_count t + 2 <= 32)%nat.
Proof.
  intros H Hr. rewrite reserve_pipe_fds_spec in Hr by (lia || by eapply fd_quota_wf).
  destruct (Z.leb_spec (Quota.open_files q + 2) Quota.MAX_OPEN_FILES) as [Hle|]; simplify_eq/=.
  unfold Quota.MAX_OPEN_FILES in Hle. rewrite (fq_files _ _ H) in Hle. lia.
Qed.

Lemma finish_rollback s s' p q' :
  Quota.quota_wf (Facade.sec_quota s) ->
  Facade.sec_credentials s' = Facade.sec_credentials s ->
  Quota.reserve_pipe_fds (Facade.sec_quota s) 2 = (q', Ok tt) -> Facade.sec_quota s' = q' ->
  Facade.permit_reservation p = Quota.mkReservation Quota.PipeFds 2 ->
  Facade.with_quota s' (Quota.finish (Facade.sec_quota s') (Facade.permit_reservation p) false) = s.
Proof.
  intros Hw Hc Hr Hq Hp. rewrite Hp, Hq. unfold Quota.finish; cbn.
  rewrite (reserve_pipe_release (Facade.sec_quota s) 2 q') by (done || lia).
  unfold Facade.with_quota. rewrite Hc. by destruct s.
Qed.

Lemma make_pipe_cases k uid :
  (exists k', make_pipe k uid = (k', Err ResourceExhausted) /\
     k_sched k' = k_sched k /\ k_audit k' = k_audit k /\ PID_ALLOCATOR k' = PID_ALLOCATOR k /\ k_fw k' = k_fw k) \/
  let id := NEXT_PIPE_ID (k_io k) in
  let obj := {| object_id := id; object_owner_uid := uid |} in
  exists k', make_pipe k uid = (k', Ok (read_end_with_buffer id obj, write_end_with_buffer id obj)) /\
    k_sched k' = k_sched k /\ k_audit k' = k_audit k /\ PID_ALLOCATOR k' = PID_ALLOCATOR k /\
    k_fw k' = k_fw k /\ NEXT_PIPE_ID (k_io k') = id + 1 /\
    rings (k_io k') !! id = Some (set_write_end ring_new id).
Proof.
  unfold make_pipe, allocate_pipe_id. destruct (checked_add 64 (NEXT_PIPE_ID (k_io k)) 1) as [n|] eqn:E.
  - right. apply checked_add_Some in E as [-> _]. eexists; split; [done|].
    split_and!; try done. cbn. apply lookup_insert_eq.
  - left. eexists; split; [done|]. done.
Qed.

(** The state in the middle of the call: the quota is reserved ([s]), the pipe
    exists, and both descriptors are in the table. *)
Record pipe_mid k k3 (pid : Z) (t : TaskControlBlockInner) (s : Facade.ProcessSecurityState)
    (p : Facade.IpcPermit) (rfd wfd : nat) (t1 t2 : fdtable) : Prop := {
  pm_sched : k_sched k3 = k_sched (put_task k pid (set_fd_table (set_security t s) t2));
  pm_pids : PID_ALLOCATOR k3 = PID_ALLOCATOR k;
  pm_audit : k_audit k3 = k_audit k;
  pm_mem : k_mem k3 = k_mem k;
  pm_next : NEXT_PIPE_ID (k_io k3) = NEXT_PIPE_ID (k_io k) + 1;
  pm_ring : let id := NEXT_PIPE_ID (k_io k) in rings (k_io k3) !! id = Some (set_write_end ring_new id);
  pm_req : Facade.permit_request p = pipe_request pid (security t);
  pm_permit : Facade.permit_reservation p = Quota.mkReservation Quota.PipeFds 2;
  pm_cred : Facade.sec_credentials s = Facade.sec_credentials (security t);
  pm_res : Quota.reserve_pipe_fds (Facade.sec_quota (security t)) 2 = (Facade.sec_quota s, Ok tt);
  pm_i1 : let id := NEXT_PIPE_ID (k_io k) in
    installed (fd_table t) (FPipe (read_end_with_buffer id (pipe_object id t))) rfd t1;
  pm_i2 : let id := NEXT_PIPE_ID (k_io k) in
    installed t1 (FPipe (write_end_with_buffer id (pipe_object id t))) wfd t2;
}.

Lemma sched_put_put k k' pid u v :
  k_sched k' = k_sched (put_task k pid u) -> k_sched (put_task k' pid v) = k_sched (put_task k pid v).
Proof.
  intros E. unfold put_task, set_tasks, k_tasks; cbn. rewrite E. cbn. unfold k_tasks.
  by rewrite insert_insert_eq.
Qed.

Lemma tasks_of_put k k' pid u :
  k_sched k' = k_sched (put_task k pid u) -> k_tasks k' !! pid = Some u.
Proof. intros E. unfold k_tasks. rewrite E. apply lookup_insert_eq. Qed.

Lemma k_tasks_audit k w : k_tasks (set_audit k w) = k_tasks k.
Proof. done. Qed.
Lemma k_tasks_mem k m : k_tasks (set_mem k m) = k_tasks k.
Proof. done. Qed.

(** The error branch: take the descriptors back and complete with the error. *)
Lemma pipe_fail_tail k k3 pid t s p rfd wfd t1 t2 ptr m log :
  pipe_mid k k3 pid t s p rfd wfd t1 t2 ->
  fd_quota_ok (fd_table t) (Facade.sec_quota (security t)) -> sink_view (k_audit k) log ->
  copy_out_fails (k_mem k) (get_user_token t) ptr (Z.of_nat rfd) m ->
  exists k' ts,
    (inner ← task_inner (set_mem k3 m) pid;
     table3 ← take_fd (fd_table inner) (Z.of_nat rfd);
     table4 ← take_fd table3 (Z.of_nat wfd);
     finish_ipc (put_task (set_mem k3 m) pid (set_fd_table inner table4)) pid p (Err InvalidAddress))
    = Ret (k', Returned (ipc_error_to_ret InvalidAddress)) /\
    sink_view (k_audit k') (Audit.log_append log (Audit.from_request (pipe_request pid (security t)) (Err InvalidAddress) ts)) /\
    pipe_rolled_back k k' pid t ptr InvalidAddress.
Proof.
  intros [] Hq Hv Hm. pose proof (in_bound _ _ _ _ pm_i3) as Hb1. pose proof (in_bound _ _ _ _ pm_i4) as Hb2.
  pose proof (in_length _ _ _ _ pm_i4) as Hl.
  rewrite (task_inner_eq (set_mem k3 m) pid _ (tasks_of_put _ k3 _ _ pm_sched0)).
  cbn [mbind outcome_bind fd_table set_fd_table].
  rewrite take_fd_slot by lia. cbn [mbind outcome_bind].
  rewrite take_fd_slot by (rewrite length_insert; lia). cbn [mbind outcome_bind].
  set (t3 := <[wfd := None]> (<[rfd := None]> t2)).
  destruct (fd_quota_rollback _ _ (FPipe _) (FPipe _) _ _ _ _ Hq (reserved_room _ _ _ Hq pm_res0) eq_refl eq_refl pm_i3 pm_i4)
    as [Hq3 Hf3]. fold t3 in Hq3, Hf3.
  set (u := set_fd_table (set_fd_table (set_security t s) t2) t3).
  destruct (finish_ipc_spec (put_task (set_mem k3 m) pid u) pid u p (Err InvalidAddress) log)
    as (w & ts & -> & Hw); [rewrite k_tasks_put; apply lookup_insert_eq|by rewrite <- pm_audit0 in Hv|].
  rewrite pm_req0 in Hw. eexists _, ts. split_and!; [done|done|].
  split; [|by eexists rfd, _].
  exists (set_security u (security t)). split_and!; [|done|done|done].
  split; [|done].
  rewrite <- (sched_put_put k (set_mem k3 m) pid _ (set_security u (security t)) pm_sched0).
  change (k_sched (set_audit ?x ?w)) with (k_sched x).
  rewrite (sched_put_put (set_mem k3 m) _ pid u) by done.
  do 3 f_equal. apply (finish_rollback (security t) s p (Facade.sec_quota s)); try done. by eapply fd_quota_wf.
Qed.

(** The success branch: register both ends and complete. *)
Lemma pipe_ok_tail k k3 pid t s p rfd wfd t1 t2 ptr m1 m2 log :
  pipe_mid k k3 pid t s p rfd wfd t1 t2 ->
  fd_quota_ok (fd_table t) (Facade.sec_quota (security t)) -> sink_view (k_audit k) log ->
  copy_to_user (k_mem k) (get_user_token t) ptr (le_bytes 8 (Z.of_nat rfd)) = Ret (m1, Ok tt) ->
  copy_to_user m1 (get_user_token t) (wrap 64 (ptr + 8)) (le_bytes 8 (Z.of_nat wfd)) = Ret (m2, Ok tt) ->
  exists k' ts,
    (inner ← task_inner (set_mem k3 m2) pid;
     finish_ipc (put_task (set_mem k3 m2) pid (set_security inner
       (Facade.register_pipe_fd (Facade.register_pipe_fd (security inner) (Z.of_nat rfd)) (Z.of_nat wfd)))) pid p (Ok 0))
    = Ret (k', Returned 0) /\
    sink_view (k_audit k') (Audit.log_append log (Audit.from_request (pipe_request pid (security t)) (Ok 0) ts)) /\
    pipe_created k k' pid t ptr.
Proof.
  intros [] Hq Hv E1 E2. rewrite (task_inner_eq (set_mem k3 m2) pid _ (tasks_of_put _ k3 _ _ pm_sched0)).
  cbn [mbind outcome_bind security set_fd_table set_security].
  set (s' := Facade.register_pipe_fd _ _).
  set (u := set_security (set_fd_table (set_security t s) t2) s').
  destruct (finish_ipc_spec (put_task (set_mem k3 m2) pid u) pid u p (Ok 0) log)
    as (w & ts & -> & Hw); [rewrite k_tasks_put; apply lookup_insert_eq|by rewrite <- pm_audit0 in Hv|].
  rewrite pm_req0 in Hw. eexists _, ts. split_and!; [done|done|].
  exists rfd, wfd, t1, t2, m1, u. split_and!; try done.
  - split; [|done]. change (k_sched (set_audit ?x ?w)) with (k_sched x).
    rewrite (sched_put_put (set_mem k3 m2) _ pid u) by done.
    by rewrite (sched_put_put k (set_mem k3 m2) pid _ _ pm_sched0).
  - exact (fd_quota_install_two _ _ _ (FPipe _) (FPipe _) _ _ _ _ Hq eq_refl eq_refl pm_res0 pm_i3 pm_i4).
Qed.

(** Up to the middle of the call. *)
Lemma pipe_mid_intro k k2 pid t s p :
  let id := NEXT_PIPE_ID (k_io k) in
  Facade.permit_request p = pipe_request pid (security t) ->
  Facade.sec_credentials s = Facade.sec_credentials (security t) ->
  Quota.reserve_pipe_fds (Facade.sec_quota (security t)) 2 = (Facade.sec_quota s, Ok tt) ->
  Facade.permit_reservation p = Quota.mkReservation Quota.PipeFds 2 ->
  k_sched k2 = k_sched (put_task k pid (set_security t s)) -> k_audit k2 = k_audit k ->
  PID_ALLOCATOR k2 = PID_ALLOCATOR k ->
  k_fw k2 = k_fw k -> NEXT_PIPE_ID (k_io k2) = id + 1 ->
  rings (k_io k2) !! id = Some (set_write_end ring_new id) ->
  exists rfd wfd t1 t2,
    install_fd (fd_table t) (FPipe (read_end_with_buffer id (pipe_object id t))) = Ret (Z.of_nat rfd, t1) /\
    install_fd t1 (FPipe (write_end_with_buffer id (pipe_object id t))) = Ret (Z.of_nat wfd, t2) /\
    pipe_mid k (put_task k2 pid (set_fd_table (set_security t s) t2)) pid t s p rfd wfd t1 t2.
Proof.
  intros id Hpr Hcr Hres Hp Hs Ha Hpa Hfw Hn Hring.
  destruct (install_fd_spec (fd_table t) (FPipe (read_end_with_buffer id (pipe_object id t))))
    as (rfd & t1 & E1 & Hi1).
  destruct (install_fd_spec t1 (FPipe (write_end_with_buffer id (pipe_object id t))))
    as (wfd & t2 & E2 & Hi2).
  exists rfd, wfd, t1, t2. split_and!; [done|done|]. split; try done.
  - by apply (sched_put_put k k2 pid (set_security t s)).
  - unfold k_mem; cbn. by rewrite Hfw.
Qed.

Lemma sys_pipe_total k pid t ptr log :
  kinv k -> current_task k = Some pid -> k_tasks k !! pid = Some t ->
  sink_view (k_audit k) log -> in_width 64 ptr ->
  exists k' out ts, sys_pipe k ptr
    = Ret (k', Returned (match out with Ok _ => 0 | Err e => ipc_error_to_ret e end)) /\
    sink_view (k_audit k') (Audit.log_append log (Audit.from_request (pipe_request pid (security t)) out ts)) /\
    (forall e, out = Err e -> e = TooManyFiles \/ e = ResourceExhausted \/ e = InvalidAddress) /\
    match out with Ok _ => pipe_created k k' pid t ptr | Err e => pipe_rolled_back k k' pid t ptr e end.
Proof.
  intros Hk Hc Ht Hv Hp. destruct (kinv_current k pid t Hk Hc Ht) as (Hz & Hq & Hcr).
  unfold sys_pipe, current_user_token. rewrite Hc. cbn [unwrap mbind outcome_bind].
  rewrite (task_inner_eq k pid t Ht). cbn [mbind outcome_bind].
  fold (pipe_request pid (security t)). set (rq := pipe_request pid (security t)).
  destruct (task_preflight_spec k pid t rq log Ht Hv) as (k1 & r & -> & Hr).
  cbn [mbind outcome_bind]. destruct r as [p|e].
  2:{ destruct Hr as (w & ts & -> & _ & Hcause & Hw). exists (set_audit k w), (Err e), ts.
      split_and!; [done|done| |].
      - intros e' E'. injection E' as <-. destruct Hcause as [Ha|[q' Hres]]; [done|].
        apply reserve_pipe_request_err in Hres. tauto.
      - split; [exists t; split_and!; [split; [by rewrite put_task_id|done]|done..]|].
        destruct Hcause as [Ha|[q' [-> | ->]%reserve_pipe_request_err]]; done. }
  destruct Hr as (s & -> & Hpr & _ & Hscr & Hres). apply reserve_pipe_request in Hres as [Hres Hpres].
  set (k1 := put_task k pid (set_security t s)).
  destruct (make_pipe_cases k1 (Credentials.uid (Facade.sec_credentials (security t))))
    as [(k2 & -> & Hs2 & Ha2 & Hpa2 & Hfw2)|(k2 & -> & Hs2 & Ha2 & Hpa2 & Hfw2 & Hid2 & Hring2)].
  {
    destruct (finish_ipc_spec k2 pid (set_security t s) p (Err ResourceExhausted) log)
      as (w & ts & -> & Hw); [by apply (tasks_of_put k)|by rewrite Ha2|].
    rewrite Hpr in Hw. eexists _, (Err ResourceExhausted), ts. split_and!; [done|done|naive_solver|].
    split; [|unfold k_mem; cbn; by rewrite Hfw2].
    exists (set_security (set_security t s) (security t)). split_and!; try done. split; [|done].
    change (k_sched (set_audit ?x ?w)) with (k_sched x). rewrite (sched_put_put k k2 pid _ _ Hs2).
    do 3 f_equal.
    apply (finish_rollback (security t) s p (Facade.sec_quota s)); try done. by eapply fd_quota_wf. }
  rewrite (task_inner_eq k2 pid (set_security t s)) by (by apply (tasks_of_put k)).
  cbn [mbind outcome_bind]. cbn [fd_table set_security].
  destruct (pipe_mid_intro k k2 pid t s p Hpr Hscr Hres Hpres Hs2 Ha2 Hpa2 Hfw2 Hid2 Hring2)
    as (rfd & wfd & t1 & t2 & Ei1 & Ei2 & Hmid).
  change (NEXT_PIPE_ID (k_io k1)) with (NEXT_PIPE_ID (k_io k)).
  fold (pipe_object (NEXT_PIPE_ID (k_io k)) t). rewrite Ei1. cbn [mbind outcome_bind].
  rewrite Ei2. cbn [mbind outcome_bind]. set (k3 := put_task k2 pid _) in *.
  rewrite (pm_mem _ _ _ _ _ _ _ _ _ _ Hmid).
  destruct (copy_fd_total (k_mem k) (get_user_token t) ptr rfd Hp) as (m1 & r1 & E1 & Hr1).
  rewrite E1. cbn [mbind outcome_bind].
  destruct Hr1 as [(-> & Hok1 & Em1)|(-> & Hn1 & Em1)]; cbn [mbind outcome_bind].
  - destruct (copy_fd_total m1 (get_user_token t) (wrap 64 (ptr + 8)) wfd) as (m2 & r2 & E2 & Hr2);
      [apply wrap_in_width; lia|]. rewrite E2. cbn [mbind outcome_bind]. destruct Hr2 as [(-> & _)|(-> & Hn2 & ->)].
    + destruct (pipe_ok_tail _ _ _ _ _ _ _ _ _ _ ptr m1 m2 log Hmid Hq Hv E1 E2) as (k' & ts & -> & Hv' & Hcr').
      exists k', (Ok 0), ts. by split_and!.
    + rewrite Em1 in *. destruct (pipe_fail_tail _ _ _ _ _ _ _ _ _ _ ptr _ log Hmid Hq Hv (second_refused _ _ _ _ Hok1 Hn2)) as (k' & ts & -> & Hv' & Hrb).
      exists k', (Err InvalidAddress), ts. split_and!; [done|done|naive_solver|done].
  - rewrite Em1 in *. destruct (pipe_fail_tail _ _ _ _ _ _ _ _ _ _ ptr _ log Hmid Hq Hv (first_refused _ _ _ _ Hn1)) as (k' & ts & -> & Hv' & Hrb).
    exists k', (Err InvalidAddress), ts. split_and!; [done|done|naive_solver|done].
Qed.

Lemma kinv_task_update k k' pid t t' :
  kinv k -> current_task k = Some pid -> k_tasks k !! pid = Some t -> task_update k k' pid t t' ->
  fd_quota_ok (fd_table t') (Facade.sec_quota (security t')) ->
  Facade.sec_credentials (security t') = Facade.sec_credentials (security t) ->
  audit_ok (k_audit k') -> kinv k'.
Proof.
  intros Hk Hc Ht (Hs & Hp & Hst & Hch) Hq Hcr Ha.
  destruct (kinv_current k pid t Hk Hc Ht) as (_ & _ & Hcw).
  destruct (kinv_put_fds k pid t t') as [Hsi _]; try done; [by rewrite Hcr|].
  split; [|done]. by rewrite Hs, Hp.
Qed.

Lemma kinv_sys_pipe k ptr k' r : in_width 64 ptr -> kinv k -> sys_pipe k ptr = Ret (k', r) -> kinv k'.
Proof.
  intros Hp Hk H.
  assert (Hc : exists pid, current_task k = Some pid).
  { unfold sys_pipe in H. apply bind_Ret_inv in H as (pid & Hc%unwrap_Ret & _). by exists pid. }
  destruct Hc as [pid Hc]. destruct (kinv_current_exists k pid Hk Hc) as (t & _ & Ht).
  destruct (proj2 Hk) as [log Hv].
  destruct (sys_pipe_total k pid t ptr log Hk Hc Ht Hv Hp) as (k2 & out & ts & E & Hv' & _ & Hout).
  rewrite E in H. injection H as <- _. assert (Ha : audit_ok (k_audit k2)) by (by eexists).
  destruct out as [v|e].
  - destruct Hout as (rfd & wfd & t1 & t2 & m1 & t' & _ & _ & _ & _ & _ & _ & Hu & Hf & Hcr & Hq).
    eapply kinv_task_update; try done. by rewrite Hf.
  - destruct Hout as [(t' & Hu & _ & Hs & Hq) _]. eapply kinv_task_update; try done; by rewrite Hs.
Qed.

(** C19: [sys_pipe] is all or nothing in the kernel's state.  It never panics,
    returns 0, EMFILE, ENOSPC or EFAULT, and leaves exactly one audit event with
    that outcome.  On success the two lowest free descriptors are the read and
    the write end of a fresh empty pipe, both numbers are in user memory, and
    quota counters and bitmap account for both.  On failure every descriptor,
    the credentials and the quota are as before the call, and so is memory,
    except that EFAULT for the second number alone leaves the first written. *)
Theorem sys_pipe_commits_or_rolls_back k pid t ptr log :
  kinv k -> current_task k = Some pid -> k_tasks k !! pid = Some t ->
  sink_view (k_audit k) log -> in_width 64 ptr ->
  exists k' out ts, sys_pipe k ptr
    = Ret (k', Returned (match out with Ok _ => 0 | Err e => ipc_error_to_ret e end)) /\
    sink_view (k_audit k') (Audit.log_append log (Audit.from_request (pipe_request pid (security t)) out ts)) /\
    (forall e, out = Err e -> e = TooManyFiles \/ e = ResourceExhausted \/ e = InvalidAddress) /\
    match out with Ok _ => pipe_created k k' pid t ptr | Err e => pipe_rolled_back k k' pid t ptr e end.
Proof. apply sys_pipe_total. Qed.

End SysPipe.
