(* ===== verification/ProcessInv.v ===== *)
(** * Process calls keep the invariant *)
From S2P Require Import Prelude IpcApi Quota Timer AuditLog AuditFacts Facade.
From S2P Require Import Address Allocators PageTable MemorySet Signals UserAccess Pipe Task Kernel.
From S2P Require Import SyscallFs FdFacts SignalHandling SyscallProcess SyscallAudit Trap KernelInv SyscallInv.
Import Timer Audit Task Kernel SyscallFs SignalHandling SyscallProcess SyscallAudit Trap.

Section ProcessInv.
Context {F : Type} {FS : FileSystem F}.
Variable P : Platform.
Implicit Type k : Kernel F.

Lemma current_inner_Ret k pid t :
  current_inner k = Ret (pid, t) -> current_task k = Some pid /\ k_tasks k !! pid = Some t.
Proof.
  unfold current_inner. intros H. apply bind_Ret_inv in H as (p & Hp%unwrap_Ret & H).
  apply bind_Ret_inv in H as (u & Hu%task_inner_Ret & H). by simplify_eq.
Qed.

(** Edits of fields the invariant does not mention. *)
Lemma kinv_put_same k pid t t' :
  kinv k -> k_tasks k !! pid = Some t -> task_status t' = task_status t ->
  children t' = children t -> fd_table t' = fd_table t -> security t' = security t ->
  kinv (put_task k pid t').
Proof.
  intros Hk Ht Hs Hc Hf Hse. apply (kinv_put k pid t); [done|done|by rewrite Hs|done|].
  apply (task_ok_same t); try done; [by eapply kinv_task_ok|by rewrite Hse..].
Qed.

(** ** Signals *)

Lemma kinv_current_add_signal k s k' : kinv k -> current_add_signal k s = Ret k' -> kinv k'.
Proof.
  intros Hk H. unfold current_add_signal in H. apply bind_Ret_inv in H as ([pid t] & Hc & H).
  apply current_inner_Ret in Hc as [Hc Ht]. simplify_eq. by apply (kinv_put_same k pid t).
Qed.

Lemma kernel_signal_effect_same t s :
  let t' := kernel_signal_effect t s in
  task_status t' = task_status t /\ children t' = children t /\
  fd_table t' = fd_table t /\ security t' = security t.
Proof. cbn. unfold kernel_signal_effect. by repeat case_if. Qed.

Lemma kinv_check_signal k sig k' b : kinv k -> check_signal k sig = Ret (k', b) -> kinv k'.
Proof.
  intros Hk H. unfold check_signal in H. apply bind_Ret_inv in H as ([pid t] & _ & H).
  apply bind_Ret_inv in H as (s & _ & H). case_if; [|by simplify_eq].
  apply bind_Ret_inv in H as (mk & _ & H). destruct mk; cbn [negb] in H; [by simplify_eq|]. case_if.
  - apply bind_Ret_inv in H as (k1 & H1 & H). simplify_eq. unfold call_kernel_signal_handler in H1.
    apply bind_Ret_inv in H1 as ([p u] & [Hc Hu]%current_inner_Ret & H1). simplify_eq.
    destruct (kernel_signal_effect_same u s) as (?&?&?&?). by apply (kinv_put_same k p u).
  - apply bind_Ret_inv in H as (k1 & H1 & H). simplify_eq. unfold call_user_signal_handler in H1.
    apply bind_Ret_inv in H1 as ([p u] & [Hc Hu]%current_inner_Ret & H1).
    apply bind_Ret_inv in H1 as (ac & _ & H1). case_if; simplify_eq; [|done].
    by apply (kinv_put_same k p u).
Qed.

Lemma kinv_check_signals k sigs k' : kinv k -> check_signals k sigs = Ret k' -> kinv k'.
Proof.
  revert k. induction sigs as [|s sigs IH]; intros k Hk H; cbn in H; [by simplify_eq|].
  apply bind_Ret_inv in H as ([k1 b] & H1 & H). apply kinv_check_signal in H1; [|done].
  destruct b; [by simplify_eq|]. by apply (IH k1).
Qed.

Lemma kinv_handle_signals k e k' b :
  kinv k -> Forall rely e -> handle_signals k e = Ret (k', b) -> kinv k'.
Proof.
  intros Hk He. revert k Hk. induction He as [|f e Hf He IH]; intros k Hk H; cbn in H;
    apply bind_Ret_inv in H as (k1 & H1 & H); apply kinv_check_signals in H1; try done;
    apply bind_Ret_inv in H as ([pid t] & _ & H); case_if; simplify_eq; try done.
  apply bind_Ret_inv in H as (k2 & H2 & H). apply (IH k2); [|done].
  by eapply kinv_suspend_and_run.
Qed.

(** ** Simple calls *)

Lemma kinv_sys_yield k e k' r : kinv k -> Forall rely e -> sys_yield k e = Ret (k', r) -> kinv k'.
Proof.
  intros Hk He H. unfold sys_yield, ret in H. destruct He as [|f e Hf He];
    apply bind_Ret_inv in H as (k1 & H1 & H); simplify_eq; [by eapply kinv_suspend|].
  by eapply kinv_suspend_and_run.
Qed.

Lemma audit_ok_timer w t' : audit_ok w -> timer_ok t' ->
  audit_ok {| AUDIT_RING := AUDIT_RING w; aw_timer := t' |}.
Proof. intros [log [Hr _]] Ht. exists log. by split. Qed.

Lemma kinv_sys_get_time k k' r : kinv k -> sys_get_time k = Ret (k', r) -> kinv k'.
Proof.
  intros Hk H. unfold sys_get_time, ret in H. apply bind_Ret_inv in H as ([ms t] & H1 & H). simplify_eq.
  apply kinv_set_audit; [done|]. apply audit_ok_timer; [apply Hk|].
  destruct (proj2 Hk) as [log [_ Ht]]. destruct (get_time_ms_ok _ Ht) as (ms' & t' & E & Ht' & _).
  rewrite E in H1. by simplify_eq.
Qed.

Lemma kinv_sys_kill k pid sig k' r : kinv k -> sys_kill k pid sig = Ret (k', r) -> kinv k'.
Proof.
  intros Hk H. unfold sys_kill, ret in H. case_if; [by simplify_eq|].
  destruct (Signals.sig_from_bits _) as [flag|]; [|by simplify_eq].
  destruct (pid2task k pid) as [target|]; [|by simplify_eq].
  apply bind_Ret_inv in H as (caller & _ & H). apply bind_Ret_inv in H as (ti & _ & H).
  apply bind_Ret_inv in H as (inner & _ & H). apply bind_Ret_inv in H as ([k1 p] & H1 & H).
  apply task_preflight_plain in H1 as [(w & -> & Hw) Hp]; [|done].
  assert (Hk1 : kinv (set_audit k w)) by (apply kinv_set_audit; [done|apply Hw, Hk]).
  destruct p as [p|]; [|by simplify_eq].
  apply bind_Ret_inv in H as (t2 & Ht2%task_inner_Ret & H).
  assert (Hfin : forall k2 out k3 r3, kinv k2 ->
    task_complete k2 caller p out = Ret (k3, r3) -> kinv k3).
  { intros k2 out k3 r3 Hk2 H3. apply task_complete_plain in H3 as [(w3 & -> & Hw3) _]; [|done].
    apply kinv_set_audit; [done|apply Hw3, Hk2]. }
  case_if; apply bind_Ret_inv in H as ([k3 r3] & H3 & H); apply Hfin in H3; try done;
    try (destruct r3; by simplify_eq).
  by apply (kinv_put_same _ target t2).
Qed.

Lemma kinv_sys_sigprocmask k m k' r : kinv k -> sys_sigprocmask k m = Ret (k', r) -> kinv k'.
Proof.
  intros Hk H. unfold sys_sigprocmask, ret in H. destruct (current_task k) as [pid|]; [|by simplify_eq].
  apply bind_Ret_inv in H as (t & Ht%task_inner_Ret & H).
  destruct (Signals.sig_from_bits m); simplify_eq; [|done]. by apply (kinv_put_same k pid t).
Qed.

Lemma kinv_sys_sigreturn k k' r : kinv k -> sys_sigreturn k = Ret (k', r) -> kinv k'.
Proof.
  intros Hk H. unfold sys_sigreturn, ret in H. destruct (current_task k) as [pid|]; [|by simplify_eq].
  apply bind_Ret_inv in H as (t & Ht%task_inner_Ret & H). apply bind_Ret_inv in H as (cx & _ & H).
  simplify_eq. by apply (kinv_put_same k pid t).
Qed.

Lemma kinv_sys_sigaction k sig a o k' r : kinv k -> sys_sigaction k sig a o = Ret (k', r) -> kinv k'.
Proof.
  intros Hk H. unfold sys_sigaction, ret in H. apply bind_Ret_inv in H as (tok & _ & H).
  apply bind_Ret_inv in H as ([pid t] & [Hc Ht]%current_inner_Ret & H). case_if; [by simplify_eq|].
  destruct (Signals.sig_from_bits _) as [flag|]; [|by simplify_eq]. case_if; [by simplify_eq|].
  apply bind_Ret_inv in H as (pa & _ & H). apply bind_Ret_inv in H as (na & _ & H).
  destruct na as [bs|]; [|by simplify_eq]. apply bind_Ret_inv in H as ([m rr] & _ & H).
  destruct rr; [|by simplify_eq]. apply bind_Ret_inv in H as (tb & _ & H). simplify_eq.
  by apply (kinv_put_same k pid t).
Qed.

Lemma kinv_sys_setuid k uid k' r : 0 <= uid -> kinv k -> sys_setuid k uid = Ret (k', r) -> kinv k'.
Proof.
  intros Hu Hk H. unfold sys_setuid, ret in H.
  apply bind_Ret_inv in H as ([pid t] & [Hc Ht]%current_inner_Ret & H).
  destruct (kinv_current k pid t Hk Hc Ht) as (Hz & Hq & Hcr).
  case_if; [by simplify_eq|]. destruct (Z.ltb_spec U32_MAX uid); [by simplify_eq|]. simplify_eq.
  apply (kinv_put_fds k pid t); try done. cbn. unfold Credentials.cred_wf; cbn.
  split; [unfold in_width, U32_MAX in *; lia|]. unfold Credentials.ROOT_UID.
  destruct (Z.eqb_spec uid 0) as [->|]; cbn [negb]; [|done].
  destruct Hcr as [_ ->]. apply negb_false_iff in E. unfold Credentials.is_root in E. by rewrite E.
Qed.

(** ** Audit calls *)

Lemma kinv_finish_control k op s n out k' r :
  kinv k -> finish_control_call k op s n out = Ret (k', r) -> kinv k'.
Proof.
  intros Hk H. unfold finish_control_call, ret in H. destruct out; [by simplify_eq|].
  apply bind_Ret_inv in H as (w & Hw & H). simplify_eq. apply kinv_set_audit; [done|].
  destruct (proj2 Hk) as [log Hv]. unfold record_control_failure in Hw.
  destruct (push_stamped_appends (k_audit k) log (from_control_failure op s n e) Hv) as (w2 & ts & E & _ & Hv').
  rewrite E in Hw. simplify_eq. by eexists.
Qed.

Lemma kinv_sys_audit_read k a b c k' r : kinv k -> sys_audit_read k a b c = Ret (k', r) -> kinv k'.
Proof.
  intros Hk H. unfold sys_audit_read in H. apply bind_Ret_inv in H as ([s tok] & _ & H).
  apply bind_Ret_inv in H as ([m out] & _ & H). by eapply kinv_finish_control; [|exact H].
Qed.

Lemma kinv_sys_ipc_stat k a b c k' r : kinv k -> sys_ipc_stat k a b c = Ret (k', r) -> kinv k'.
Proof.
  intros Hk H. unfold sys_ipc_stat in H. apply bind_Ret_inv in H as ([s tok] & _ & H).
  apply bind_Ret_inv in H as ([m out] & _ & H). by eapply kinv_finish_control; [|exact H].
Qed.

End ProcessInv.
