(* ===== verification/LifecycleInv.v ===== *)
(** * Fork, exec, exit and wait keep the invariant *)
From S2P Require Import Prelude IpcApi Quota Timer AuditLog AuditFacts Facade.
From S2P Require Import Address Allocators PageTable MemorySet Signals UserAccess Pipe Task Kernel.
From S2P Require Import SyscallFs FdFacts SignalHandling SyscallProcess SyscallAudit Trap.
From S2P Require Import KernelInv SyscallInv PipeCallFacts ProcessInv.
Import MemorySet Task Kernel SyscallFs SignalHandling SyscallProcess SyscallAudit Trap.

Section Lifecycle.
Context {F : Type} {FS : FileSystem F}.
Variable P : Platform.
Implicit Type k : Kernel F.

(** ** Fork *)

Lemma fork_fd_table_id t : fork_fd_table t = t.
Proof. unfold fork_fd_table. rewrite <- (list_fmap_id t) at 2. apply list_fmap_ext. by intros ? []. Qed.

(** The child inherits the parent's descriptors, credentials and quota. *)
Lemma task_ok_fork parent tp ppn cx ms :
  fd_quota_ok (fd_table tp) (Facade.sec_quota (security tp)) ->
  Credentials.cred_wf (Facade.sec_credentials (security tp)) ->
  task_ok (fork_inner parent tp ppn cx ms).
Proof.
  intros Hq Hc. apply task_ok_alive; [done|cbn; by rewrite fork_fd_table_id|done].
Qed.

Lemma sched_inv_fork s pa pa' parent tp pid child :
  sched_inv s pa -> tasks s !! parent = Some tp -> task_status tp <> Zombie ->
  Pids.wf pa' -> ~ Pids.live pa pid -> (forall y, Pids.live pa' y <-> Pids.live pa y \/ y = pid) ->
  task_ok child -> task_status child <> Zombie -> children child = [] ->
  sched_inv {| tasks := <[parent := set_children tp (children tp ++ [pid])]> (<[pid := child]> (tasks s));
               PID2TCB := {[pid]} ∪ PID2TCB s; ready_queue := ready_queue s ++ [pid];
               current := current s |} pa'.
Proof.
  intros Hs Htp Hz Hwf Hfresh Hlive Hok Hcz Hcc. pose proof Hs as [].
  assert (Hnone : tasks s !! pid = None).
  { destruct (tasks s !! pid) eqn:E; [|done]. exfalso. apply Hfresh, si_live. by rewrite E. }
  assert (Hne : parent <> pid) by (intros ->; congruence).
  assert (Hnr : pid ∉ runnable s).
  { intros Hr%si_run. destruct Hr as (t & Ht & _). congruence. }
  assert (Hrun : forall p, p ∈ option_list (current s) ++ ready_queue s ++ [pid] <-> p ∈ runnable s \/ p = pid).
  { intros p. rewrite app_assoc, elem_of_app, list_elem_of_singleton. done. }
  assert (Hch : forall p u c, <[parent := set_children tp (children tp ++ [pid])]> (<[pid := child]> (tasks s)) !! p = Some u ->
            c ∈ children u -> (c = pid /\ p = parent) \/ (c <> pid /\ exists u0, tasks s !! p = Some u0 /\ c ∈ children u0)).
  { intros p u c. destruct (decide (p = parent)) as [->|Hp].
    - rewrite lookup_insert_eq. intros; simplify_eq/=. rewrite elem_of_app, list_elem_of_singleton in *.
      destruct H0 as [Hc| ->]; [|by left]. right. split; [|by exists tp].
      intros ->. destruct (si_child_dom parent tp pid Htp Hc). congruence.
    - rewrite lookup_insert_ne by done. destruct (decide (p = pid)) as [->|Hp2].
      + rewrite lookup_insert_eq. intros; simplify_eq. rewrite Hcc in *. by apply not_elem_of_nil in H0.
      + rewrite lookup_insert_ne by done. intros Hu Hc. right. split; [|by exists u].
        intros ->. destruct (si_child_dom p u pid Hu Hc). congruence. }
  assert (Hdom : forall p, is_Some (<[parent := set_children tp (children tp ++ [pid])]> (<[pid := child]> (tasks s)) !! p)
            <-> is_Some (tasks s !! p) \/ p = pid).
  { intros p. destruct (decide (p = parent)) as [->|]; [rewrite lookup_insert_eq, Htp; split; eauto|].
    rewrite lookup_insert_ne by done. destruct (decide (p = pid)) as [->|].
    - rewrite lookup_insert_eq. split; eauto.
    - rewrite lookup_insert_ne by done. naive_solver. }
  split; cbn.
  - apply map_Forall_insert_2; [|by apply map_Forall_insert_2].
    pose proof (si_tasks parent tp Htp) as Hp. cbn in Hp. unfold task_ok in *. cbn.
    rewrite bool_decide_eq_false_2 in * by done. done.
  - unfold runnable; cbn. rewrite app_assoc. apply NoDup_app. split_and!; [done| |apply NoDup_singleton].
    intros x Hx ->%list_elem_of_singleton. done.
  - intros p. unfold runnable; cbn. rewrite Hrun, si_run.
    destruct (decide (p = parent)) as [->|]; [rewrite lookup_insert_eq|rewrite lookup_insert_ne by done].
    + split; [intros _; eexists; split; [done|by cbn]|]. intros _. left. by exists tp.
    + destruct (decide (p = pid)) as [->|]; [rewrite lookup_insert_eq|rewrite lookup_insert_ne by done].
      * split; [intros _; by exists child|by right].
      * naive_solver.
  - intros p. unfold runnable; cbn. rewrite Hrun, elem_of_union, elem_of_singleton, si_map. tauto.
  - done.
  - intros p Hp%Hdom. apply Hlive. destruct Hp; [left; by apply si_live|by right].
  - intros p u c Hu Hc. apply Hdom. destruct (Hch p u c Hu Hc) as [[-> _]|(_ & u0 & Hu0 & Hc0)]; [by right|].
    left. by eapply si_child_dom.
  - intros p u. destruct (decide (p = parent)) as [->|]; [rewrite lookup_insert_eq|rewrite lookup_insert_ne by done].
    + intros; simplify_eq/=. apply NoDup_app. split_and!; [by eapply si_child_nodup| |apply NoDup_singleton].
      intros x Hx ->%list_elem_of_singleton. destruct (si_child_dom parent tp pid Htp Hx). congruence.
    + destruct (decide (p = pid)) as [->|]; [rewrite lookup_insert_eq|rewrite lookup_insert_ne by done; eauto].
      intros; simplify_eq. rewrite Hcc. apply NoDup_nil_2.
  - intros p q tp' tq c Hp Hq' Hcp Hcq.
    destruct (Hch p tp' c Hp Hcp) as [[Hc1 Hp1]|(Hcn & u & Hu & Hcu)];
      destruct (Hch q tq c Hq' Hcq) as [[Hc2 Hp2]|(Hcn' & v & Hv & Hcv)]; try congruence.
    by eapply si_child_uniq.
  - intros t. destruct (decide (parent = INITPROC)) as [->|]; [rewrite lookup_insert_eq|rewrite lookup_insert_ne by done].
    + intros; by simplify_eq.
    + destruct (decide (pid = INITPROC)) as [->|]; [rewrite lookup_insert_eq|rewrite lookup_insert_ne by done; eauto].
      intros; by simplify_eq.
Qed.

(** A kernel stack touches the kernel address space and the frames only. *)
Lemma kernel_stack_new_sched k pid k' :
  kernel_stack_new k pid = Ret k' ->
  k_sched k' = k_sched k /\ PID_ALLOCATOR k' = PID_ALLOCATOR k /\ k_audit k' = k_audit k.
Proof.
  unfold kernel_stack_new. destruct (Pids.kernel_stack_position pid).
  intros H. apply bind_Ret_inv in H as ([ms w] & _ & H). by simplify_eq.
Qed.

Lemma kinv_sys_fork k k' r :
  Pids.current (PID_ALLOCATOR k) < 2 ^ 64 - 1 -> kinv k -> sys_fork P k = Ret (k', r) -> kinv k'.
Proof.
  intros Hroom Hk H. unfold sys_fork, ret in H. apply bind_Ret_inv in H as (cur & Hc%unwrap_Ret & H).
  apply bind_Ret_inv in H as ([pid k1] & H1 & H). apply bind_Ret_inv in H as (ch & _ & H). simplify_eq.
  unfold tcb_fork in H1. apply bind_Ret_inv in H1 as (tp & Htp%task_inner_Ret & H1).
  apply bind_Ret_inv in H1 as ([ms w] & _ & H1). apply bind_Ret_inv in H1 as (ppn & _ & H1).
  apply bind_Ret_inv in H1 as ([pid' k2] & H2 & H1). simplify_eq.
  unfold alloc_pid_and_stack in H2. change (PID_ALLOCATOR (set_fw k w)) with (PID_ALLOCATOR k) in H2.
  pose proof (pid_alloc_fresh (PID_ALLOCATOR k) (si_pids _ _ (proj1 Hk)) Hroom) as Hfresh.
  destruct (Pids.alloc (PID_ALLOCATOR k)) as [x pa'] eqn:Ea.
  apply bind_Ret_inv in H2 as (k3 & H3 & H2). simplify_eq.
  apply kernel_stack_new_sched in H3 as (Hs3 & Hp3 & Ha3).
  destruct (kinv_current k cur tp Hk Hc Htp) as (Hz & Hq & Hcr).
  destruct Hfresh as (Hwf' & Hnl & _ & _ & Hlv).
  split; cbn; rewrite ?Hs3, ?Hp3, ?Ha3; [|apply Hk]. unfold k_tasks; cbn. rewrite Hs3. cbn.
  apply (sched_inv_fork (k_sched k) (PID_ALLOCATOR k)); try done; [apply Hk|].
  by apply task_ok_fork.
Qed.

(** ** Exec *)

Lemma kinv_tcb_exec k pid data args k' : kinv k -> tcb_exec P k pid data args = Ret k' -> kinv k'.
Proof.
  intros Hk H. unfold tcb_exec in H. apply bind_Ret_inv in H as ([[[ms usp] en] w] & _ & H).
  apply bind_Ret_inv in H as (ppn & _ & H). apply bind_Ret_inv in H as (sl & _ & H).
  apply bind_Ret_inv in H as (la & _ & H). apply bind_Ret_inv in H as ([m us] & _ & H).
  apply bind_Ret_inv in H as (t & Ht%task_inner_Ret & H). apply bind_Ret_inv in H as (w1 & _ & H).
  simplify_eq. by apply (kinv_put_same k pid t).
Qed.

Lemma kinv_sys_exec fuel k path args k' r : kinv k -> sys_exec P fuel k path args = Ret (k', r) -> kinv k'.
Proof.
  intros Hk H. unfold sys_exec, ret in H. apply bind_Ret_inv in H as (tok & _ & H).
  apply bind_Ret_inv in H as (pa & _ & H). destruct pa as [pa|]; [|by simplify_eq].
  apply bind_Ret_inv in H as (co & _ & H). destruct co as [er|av]; [by simplify_eq|].
  apply bind_Ret_inv in H as ([k1 o] & H1 & H). apply kinv_open_file in H1; [|done].
  destruct o as [key|]; [|by simplify_eq]. apply bind_Ret_inv in H as ([k2 data] & H2 & H).
  apply read_all_sched in H2 as (Hs & Hp & Ha).
  apply bind_Ret_inv in H as (pid & _ & H). apply bind_Ret_inv in H as (k3 & H3 & H). simplify_eq.
  eapply kinv_tcb_exec; [|exact H3]. by apply (kinv_ext k1).
Qed.

(** ** Exit *)

(** What moving the children [cs] to [INITPROC] does to the block of [p]. *)
Definition reparented (cs : list Z) (p : Z) (t t' : TaskControlBlockInner) : Prop :=
  children t' = children t ++ (if decide (p = INITPROC) then cs else []) /\
  task_status t' = task_status t /\ fd_table t' = fd_table t /\ security t' = security t.

Definition tasks_related (R : Z -> TaskControlBlockInner -> TaskControlBlockInner -> Prop)
    (ts ts' : gmap Z TaskControlBlockInner) : Prop :=
  forall p, match ts !! p, ts' !! p with
            | Some t, Some t' => R p t t'
            | None, None => True
            | _, _ => False
            end.

Lemma reparented_refl p t : reparented [] p t t.
Proof. unfold reparented. by case_decide; rewrite app_nil_r. Qed.

Lemma task_ok_reparented cs p t t' :
  reparented cs p t t' -> task_ok t -> (p = INITPROC -> task_status t <> Zombie) -> task_ok t'.
Proof.
  intros (Hc & Hs & Hf & Hse) Hok Hi. unfold task_ok in *. rewrite Hs, Hf, Hse, Hc.
  case_bool_decide; [|done]. rewrite Hok. case_decide; [|done]. by apply Hi in H0.
Qed.

Lemma reparent_spec k cs k' :
  reparent k cs = Ret k' ->
  tasks_related (reparented cs) (k_tasks k) (k_tasks k') /\
  k_sched k' = {| tasks := k_tasks k'; PID2TCB := PID2TCB (k_sched k);
                  ready_queue := ready_queue (k_sched k); current := current (k_sched k) |} /\
  PID_ALLOCATOR k' = PID_ALLOCATOR k /\ k_audit k' = k_audit k.
Proof.
  revert k. induction cs as [|c cs IH]; intros k H; cbn in H.
  - simplify_eq. split_and!; try done.
    + intros p. destruct (k_tasks k' !! p); [apply reparented_refl|done].
    + by destruct k' as [? ? ? [] ? ?].
  - apply bind_Ret_inv in H as (t & Ht%task_inner_Ret & H).
    apply bind_Ret_inv in H as (i & Hi%task_inner_Ret & H). apply IH in H as (Hr & Hs & Hp & Ha).
    split_and!; try done. intros p. specialize (Hr p).
    assert (Hstep : match k_tasks k !! p with
                    | Some u => exists u', k_tasks (put_task (put_task k c (set_parent t (Some INITPROC))) INITPROC
                                  (set_children i (children i ++ [c]))) !! p = Some u' /\ reparented [c] p u u'
                    | None => k_tasks (put_task (put_task k c (set_parent t (Some INITPROC))) INITPROC
                                  (set_children i (children i ++ [c]))) !! p = None
                    end).
    { rewrite !k_tasks_put in *. unfold reparented. destruct (decide (p = INITPROC)) as [->|Hpi].
      - rewrite lookup_insert_eq. destruct (decide (c = INITPROC)) as [->|Hci].
        + rewrite lookup_insert_eq in Hi. simplify_eq. rewrite Ht. eexists; split; [done|]. by cbn.
        + rewrite lookup_insert_ne in Hi by done. rewrite Hi. eexists; split; [done|]. by cbn.
      - rewrite lookup_insert_ne by done. destruct (decide (p = c)) as [->|Hpc].
        + rewrite lookup_insert_eq, Ht. eexists; split; [done|]. cbn. by rewrite app_nil_r.
        + rewrite lookup_insert_ne by done. destruct (k_tasks k !! p); [|done].
          eexists; split; [done|]. by rewrite app_nil_r. }
    destruct (k_tasks k !! p) as [u|].
    + destruct Hstep as (u' & Hu' & Hc1 & Hst1 & Hf1 & Hse1). rewrite Hu' in Hr.
      destruct (k_tasks k' !! p) as [v|]; [|done]. destruct Hr as (Hc2 & Hst2 & Hf2 & Hse2).
      split_and!; [|congruence..]. rewrite Hc2, Hc1, <- app_assoc. by case_decide.
    + by rewrite Hstep in Hr.
Qed.

Lemma sched_inv_exit s pa pid t ts' tz :
  sched_inv s pa -> current s = Some pid -> tasks s !! pid = Some t -> pid <> INITPROC ->
  (forall p, p <> pid -> match tasks s !! p, ts' !! p with
     | Some u, Some u' => reparented (children t) p u u' | None, None => True | _, _ => False end) ->
  task_status tz = Zombie -> children tz = [] ->
  sched_inv {| tasks := <[pid := tz]> ts'; PID2TCB := PID2TCB s ∖ {[pid]};
               ready_queue := ready_queue s; current := None |} pa.
Proof.
  intros Hs Hc Ht Hni Hrel Hz Hzc. pose proof Hs as [].
  assert (Hrun : runnable s = pid :: ready_queue s) by (unfold runnable; by rewrite Hc).
  assert (Hnr : pid ∉ ready_queue s) by (rewrite Hrun in si_nodup; by apply NoDup_cons in si_nodup as [? _]).
  assert (Hl : forall p u', p <> pid -> ts' !! p = Some u' ->
            exists u, tasks s !! p = Some u /\ reparented (children t) p u u').
  { intros p u' Hp Hu'. specialize (Hrel p Hp). rewrite Hu' in Hrel. destruct (tasks s !! p); [eauto|done]. }
  assert (Hd : forall p, is_Some (<[pid := tz]> ts' !! p) <-> is_Some (tasks s !! p)).
  { intros p. destruct (decide (p = pid)) as [->|].
    - rewrite lookup_insert_eq, Ht. split; eauto.
    - rewrite lookup_insert_ne by done. specialize (Hrel p ltac:(done)).
      destruct (tasks s !! p), (ts' !! p); try done; split; eauto. }
  (** children of the new table, in terms of the old one *)
  assert (Hch : forall p u' c, <[pid := tz]> ts' !! p = Some u' -> c ∈ children u' ->
            p <> pid /\ exists u, tasks s !! p = Some u /\
            (c ∈ children u \/ p = INITPROC /\ c ∈ children t)).
  { intros p u' c. destruct (decide (p = pid)) as [->|Hp].
    - rewrite lookup_insert_eq. intros Hu Hcu. simplify_eq. rewrite Hzc in Hcu. by apply not_elem_of_nil in Hcu.
    - rewrite lookup_insert_ne by done. intros Hu' Hcu. destruct (Hl p u' Hp Hu') as (u & Hu & Hcu' & _).
      split; [done|]. exists u. split; [done|]. rewrite Hcu', elem_of_app in Hcu.
      destruct Hcu as [|Hcu]; [by left|]. case_decide; [by right|by apply not_elem_of_nil in Hcu]. }
  split; cbn.
  - intros p u'. destruct (decide (p = pid)) as [->|Hp]; [rewrite lookup_insert_eq|rewrite lookup_insert_ne by done].
    + intros; simplify_eq. unfold task_ok. by rewrite bool_decide_eq_true_2.
    + intros Hu'. destruct (Hl p u' Hp Hu') as (u & Hu & Hru).
      apply (task_ok_reparented _ _ _ _ Hru); [by apply (si_tasks p)|]. intros ->. eauto.
  - rewrite Hrun in si_nodup. by apply NoDup_cons in si_nodup as [_ ?].
  - intros p. unfold runnable; cbn. destruct (decide (p = pid)) as [->|Hp].
    + rewrite lookup_insert_eq. split; [done|]. intros (u & ? & ?). by simplify_eq.
    + rewrite lookup_insert_ne by done. specialize (si_run p). rewrite Hrun, elem_of_cons in si_run.
      split.
      * intros Hr. destruct si_run as [[u [Hu Hzu]] _]; [by right|]. specialize (Hrel p Hp). rewrite Hu in Hrel.
        destruct (ts' !! p) as [u'|]; [|done]. exists u'. split; [done|]. by rewrite (proj1 (proj2 Hrel)).
      * intros (u' & Hu' & Hzu). destruct (Hl p u' Hp Hu') as (u & Hu & _ & Hst & _).
        destruct si_run as [_ [?|?]]; [exists u; split; [done|congruence]|done|done].
  - intros p. rewrite elem_of_difference, elem_of_singleton, si_map, Hrun, elem_of_cons.
    unfold runnable; cbn. naive_solver.
  - done.
  - intros p Hp%Hd. by apply si_live.
  - intros p u' c Hu' Hcu. apply Hd. destruct (Hch p u' c Hu' Hcu) as (_ & u & Hu & [Hc1|[_ Hc1]]).
    + exact (si_child_dom p u c Hu Hc1).
    + exact (si_child_dom pid t c Ht Hc1).
  - intros p u'. destruct (decide (p = pid)) as [->|Hp]; [rewrite lookup_insert_eq|rewrite lookup_insert_ne by done].
    + intros; simplify_eq. rewrite Hzc. apply NoDup_nil_2.
    + intros Hu'. destruct (Hl p u' Hp Hu') as (u & Hu & -> & _). apply NoDup_app. split_and!.
      * by eapply si_child_nodup.
      * intros x Hx Hx'. case_decide; [|by apply not_elem_of_nil in Hx'].
        apply Hp. exact (si_child_uniq p pid u t x Hu Ht Hx Hx').
      * case_decide; [by eapply si_child_nodup|apply NoDup_nil_2].
  - intros p q u v c Hu Hv Hcu Hcv.
    destruct (Hch p u c Hu Hcu) as (Hp & u0 & Hu0 & Hc1), (Hch q v c Hv Hcv) as (Hq & v0 & Hv0 & Hc2).
    destruct Hc1 as [Hc1|[-> Hc1]], Hc2 as [Hc2|[-> Hc2]]; try done.
    + exact (si_child_uniq p q u0 v0 c Hu0 Hv0 Hc1 Hc2).
    + exfalso. apply Hp. exact (si_child_uniq p pid u0 t c Hu0 Ht Hc1 Hc2).
    + exfalso. apply Hq. exact (si_child_uniq q pid v0 t c Hv0 Ht Hc2 Hc1).
  - intros u'. rewrite lookup_insert_ne by done. intros Hu'.
    destruct (Hl INITPROC u' ltac:(done) Hu') as (u & Hu & _ & -> & _). eauto.
Qed.

Lemma kinv_exit k code k' r :
  kinv k -> exit_current_and_run_next k code = Ret (k', r) -> (forall b, r <> Shutdown b) -> kinv k'.
Proof.
  intros Hk H Hr. unfold exit_current_and_run_next, take_current_task in H.
  apply bind_Ret_inv in H as (pid & Hc%unwrap_Ret & H).
  destruct (Z.eqb_spec pid IDLE_PID) as [E|Hni]; [injection H as _ <-; by destruct (Hr _ eq_refl)|].
  apply bind_Ret_inv in H as (k1 & H1 & H). unfold remove_from_pid2task in H1. case_decide; [|done].
  injection H1 as <-. apply bind_Ret_inv in H as (t & Ht%task_inner_Ret & H).
  change (k_tasks k !! pid = Some t) in Ht.
  apply bind_Ret_inv in H as (k3 & H3 & H). apply reparent_spec in H3 as (Hrel & Hs3 & Hp3 & Ha3).
  apply bind_Ret_inv in H as (t3 & Ht3%task_inner_Ret & H).
  apply bind_Ret_inv in H as ([ms w] & _ & H). injection H as <- _.
  split; [|cbn; rewrite Ha3; apply Hk].
  cbn. rewrite Hs3, Hp3. cbn.
  apply (sched_inv_exit (k_sched k) (PID_ALLOCATOR k) pid t); try done.
  - apply Hk.
  - intros p Hp. specialize (Hrel p). cbn in Hrel. unfold k_tasks in Hrel; cbn in Hrel.
    by rewrite lookup_insert_ne in Hrel.
  - cbn. specialize (Hrel pid). rewrite Ht3 in Hrel. rewrite k_tasks_put, lookup_insert_eq in Hrel.
    destruct Hrel as (_ & Hst & _). rewrite Hst. done.
Qed.

(** ** Wait *)

Lemma find_zombie_Some k pid cs idx c :
  find_zombie k pid cs = Ret (Some (idx, c)) ->
  cs !! idx = Some c /\ exists t, k_tasks k !! c = Some t /\ task_status t = Zombie.
Proof.
  revert idx. induction cs as [|x cs IH]; intros idx H; cbn in H; [done|].
  apply bind_Ret_inv in H as (t & Ht%task_inner_Ret & H). case_if.
  - simplify_eq. apply andb_true_iff in E as [Hz _]. apply bool_decide_eq_true in Hz. eauto.
  - apply bind_Ret_inv in H as (r & Hr & H). destruct r as [[i p]|]; simplify_eq.
    apply IH in Hr. done.
Qed.

Lemma delete_NoDup_not_in (l : list Z) i x : NoDup l -> l !! i = Some x -> x ∉ delete i l.
Proof.
  intros Hn Hi Hin. apply list_elem_of_lookup in Hin as [j Hj].
  destruct (decide (j < i)%nat).
  - rewrite list_lookup_delete_lt in Hj by done. assert (i = j) by (by eapply NoDup_lookup). lia.
  - rewrite list_lookup_delete_ge in Hj by lia. assert (i = S j) by (by eapply NoDup_lookup). lia.
Qed.

Lemma sched_inv_reap s pa pa' cur t idx c tc :
  sched_inv s pa -> tasks s !! cur = Some t -> children t !! idx = Some c ->
  tasks s !! c = Some tc -> task_status tc = Zombie -> cur <> c ->
  Pids.wf pa' -> (forall y, Pids.live pa' y <-> Pids.live pa y /\ y <> c) ->
  sched_inv {| tasks := delete c (<[cur := set_children t (delete idx (children t))]> (tasks s));
               PID2TCB := PID2TCB s; ready_queue := ready_queue s; current := current s |} pa'.
Proof.
  intros Hs Ht Hi Hc Hz Hne Hwf Hlv. pose proof Hs as [].
  set (t' := set_children t (delete idx (children t))).
  assert (Hl : forall p u', delete c (<[cur := t']> (tasks s)) !! p = Some u' ->
            p <> c /\ exists u, tasks s !! p = Some u /\ task_status u' = task_status u /\
            (task_ok u -> task_ok u') /\ NoDup (children u') /\
            forall x, x ∈ children u' -> x ∈ children u /\ x <> c).
  { intros p u' Hu'. apply lookup_delete_Some in Hu' as [Hpc Hu']. split; [done|].
    destruct (decide (p = cur)) as [->|Hp].
    - rewrite lookup_insert_eq in Hu'. injection Hu' as <-. exists t. split_and!; [done|done| | |].
      + unfold task_ok, t'; cbn. case_bool_decide; [|done]. by intros ->.
      + cbn. eapply sublist_NoDup; [exact (si_child_nodup cur t Ht)|apply sublist_delete].
      + cbn. intros x Hx. split; [by eapply list_elem_of_delete_inv|]. intros ->.
        exact (delete_NoDup_not_in _ _ _ (si_child_nodup cur t Ht) Hi Hx).
    - rewrite lookup_insert_ne in Hu' by done. exists u'. split_and!; [done|done|done|by eapply si_child_nodup|].
      intros x Hx. split; [done|]. intros ->. apply Hp.
      apply (si_child_uniq p cur u' t c); try done. by eapply list_elem_of_lookup_2. }
  assert (Hd : forall p, is_Some (delete c (<[cur := t']> (tasks s)) !! p) <-> is_Some (tasks s !! p) /\ p <> c).
  { intros p. destruct (decide (p = c)) as [->|Hp].
    - rewrite lookup_delete_eq. split; [by intros []|by intros []].
    - rewrite lookup_delete_ne by done. destruct (decide (p = cur)) as [->|Hq].
      + rewrite lookup_insert_eq, Ht. split; eauto.
      + rewrite lookup_insert_ne by done. naive_solver. }
  split; cbn; try done.
  - intros p u' Hu'. destruct (Hl p u' Hu') as (_ & u & Hu & _ & Hok & _). apply Hok. by apply (si_tasks p).
  - intros p. rewrite si_run. split.
    + intros (u & Hu & Hzu). destruct (decide (p = c)) as [->|Hp]; [congruence|].
      rewrite lookup_delete_ne by done. destruct (decide (p = cur)) as [->|Hq].
      * rewrite lookup_insert_eq. eexists; split; [done|]. by simplify_eq.
      * rewrite lookup_insert_ne by done. eauto.
    + intros (u' & Hu' & Hzu). destruct (Hl p u' Hu') as (_ & u & Hu & Hst & _).
      exists u. split; [done|congruence].
  - intros p [Hp Hpc]%Hd. apply Hlv. split; [by apply si_live|done].
  - intros p u' x Hu' Hx. destruct (Hl p u' Hu') as (_ & u & Hu & _ & _ & _ & Hxs).
    destruct (Hxs x Hx) as [Hx1 Hx2]. apply Hd. split; [by eapply si_child_dom|done].
  - intros p u' Hu'. by destruct (Hl p u' Hu') as (_ & u & _ & _ & _ & ? & _).
  - intros p q u' v' x Hu' Hv' Hx Hx'.
    destruct (Hl p u' Hu') as (_ & u & Hu & _ & _ & _ & Hxs), (Hl q v' Hv') as (_ & v & Hv & _ & _ & _ & Hys).
    apply (si_child_uniq p q u v x); try done; [by apply Hxs|by apply Hys].
  - intros u' Hu'. destruct (Hl _ u' Hu') as (_ & u & Hu & -> & _). eauto.
Qed.

Lemma kernel_stack_drop_sched k pid k' :
  kernel_stack_drop k pid = Ret k' ->
  k_sched k' = k_sched k /\ PID_ALLOCATOR k' = PID_ALLOCATOR k /\ k_audit k' = k_audit k.
Proof.
  unfold kernel_stack_drop. destruct (Pids.kernel_stack_position pid).
  intros H. apply bind_Ret_inv in H as (vpn & _ & H). apply bind_Ret_inv in H as ([ms w] & _ & H).
  by simplify_eq.
Qed.

Lemma kinv_sys_waitpid k pid ptr k' r : kinv k -> sys_waitpid k pid ptr = Ret (k', r) -> kinv k'.
Proof.
  intros Hk H. unfold sys_waitpid, ret in H.
  apply bind_Ret_inv in H as ([cur t] & [Hc Ht]%current_inner_Ret & H). case_if; [by simplify_eq|].
  apply bind_Ret_inv in H as (pr & Hfz & H). destruct pr as [[idx c]|]; [|by simplify_eq].
  apply find_zombie_Some in Hfz as (Hi & tc & Htc & Hz).
  apply bind_Ret_inv in H as (ch & _ & H). apply bind_Ret_inv in H as ([m rr] & _ & H).
  destruct rr; [|by simplify_eq]. apply bind_Ret_inv in H as ([] & _ & H).
  apply bind_Ret_inv in H as (k2 & H2 & H). simplify_eq.
  destruct (kinv_current k cur t Hk Hc Ht) as (Hzc & _ & _).
  assert (Hne : cur <> c) by (intros ->; congruence).
  unfold drop_tcb in H2. apply bind_Ret_inv in H2 as (tz & _ & H2).
  apply bind_Ret_inv in H2 as (pa' & Hpa & H2). apply bind_Ret_inv in H2 as (k4 & H4 & H2).
  apply bind_Ret_inv in H2 as (w & _ & H2). simplify_eq.
  apply kernel_stack_drop_sched in H4 as (Hs4 & Hp4 & Ha4).
  split; cbn; rewrite ?Hp4, ?Ha4; [|apply Hk]. rewrite Hs4. unfold k_tasks; rewrite Hs4. cbn.
  destruct (pid_dealloc_live (PID_ALLOCATOR k) c) as (pa2 & E2 & Hwf2 & _ & Hlv2).
  - apply (si_pids _ _ (proj1 Hk)).
  - apply (si_live _ _ (proj1 Hk)). unfold k_tasks in Htc. by rewrite Htc.
  - cbn in Hpa. rewrite E2 in Hpa. simplify_eq.
    eapply (sched_inv_reap (k_sched k) (PID_ALLOCATOR k) _ cur t idx c tc); try done. apply Hk.
Qed.

End Lifecycle.
