(* ===== verification/TrapInv.v ===== *)
(** * The invariant through the dispatcher, the trap handler and the scheduler *)
From S2P Require Import Prelude IpcApi Quota Timer AuditLog AuditFacts Facade.
From S2P Require Import Address Allocators PageTable MemorySet Signals UserAccess Pipe Task Kernel.
From S2P Require Import SyscallFs FdFacts SignalHandling SyscallProcess SyscallAudit Trap.
From S2P Require Import KernelInv SyscallInv PipeCallFacts ProcessInv LifecycleInv.
Import Timer Audit Signals Task Kernel SyscallFs SignalHandling SyscallProcess SyscallAudit Trap.

Section TrapInv.
Context {F : Type} {FS : FileSystem F}.
Variable P : Platform.
Variable read_fuel : nat.
Implicit Type k : Kernel F.

(** There is a PID left for [fork] to hand out. *)
Definition pid_room k : Prop := Pids.current (PID_ALLOCATOR k) < 2 ^ 64 - 1.

Lemma kinv_syscall k e id a0 a1 a2 k' r :
  in_width 64 a0 -> kinv k -> Forall rely e -> pid_room k ->
  syscall P read_fuel k e id a0 a1 a2 = Ret (k', r) -> (forall b, r <> Shutdown b) -> kinv k'.
Proof.
  intros Ha Hk He Hroom H Hr. pose proof Ha as [Ha0 _]. unfold syscall in H.
  repeat match type of H with (if ?b then _ else _) = _ => destruct b end.
  - by eapply kinv_sys_dup.
  - by eapply kinv_sys_open.
  - by eapply kinv_sys_close.
  - by eapply kinv_sys_pipe.
  - by eapply kinv_sys_read.
  - by eapply kinv_sys_write.
  - by eapply kinv_exit.
  - by eapply kinv_sys_yield.
  - by eapply kinv_sys_kill.
  - by eapply kinv_sys_sigaction.
  - by eapply kinv_sys_sigprocmask.
  - by eapply kinv_sys_sigreturn.
  - by eapply kinv_sys_get_time.
  - unfold sys_getpid, ret in H. apply bind_Ret_inv in H as (pid & _ & H). by simplify_eq.
  - by eapply kinv_sys_fork.
  - by eapply kinv_sys_exec.
  - by eapply kinv_sys_waitpid.
  - unfold sys_getuid, ret in H. apply bind_Ret_inv in H as ([pid t] & _ & H). by simplify_eq.
  - by eapply kinv_sys_setuid.
  - by eapply kinv_sys_audit_read.
  - by eapply kinv_sys_ipc_stat.
  - done.
Qed.

(** The registers of the current task, as the hardware saved them. *)
Definition regs_ok k : Prop :=
  forall ppn cx, current_trap_cx k = Ret (ppn, cx) -> trap_cx_wf cx.

Lemma get_x_range cx i : trap_cx_wf cx -> in_width 64 (get_x cx i).
Proof.
  intros [Hl Hw]. unfold get_x. destruct (lt_dec (Z.to_nat i) 32) as [Hi|Hi].
  - destruct (lookup_lt_is_Some_2 (cx_x cx) (Z.to_nat i)) as [v Hv]; [by rewrite Hl|].
    rewrite (nth_lookup_Some _ _ _ v Hv). unfold trap_cx_words in Hw. apply Forall_app in Hw as [Hw _].
    exact (Forall_lookup_1 _ _ _ _ Hw Hv).
  - rewrite nth_overflow by lia. vm_compute. split; congruence.
Qed.

Lemma kinv_handle_ecall k e k' r :
  kinv k -> Forall rely e -> pid_room k -> regs_ok k ->
  handle_ecall P read_fuel k e = Ret (k', r) -> (forall b, r <> Shutdown b) -> kinv k'.
Proof.
  intros Hk He Hroom Hregs H Hr. unfold handle_ecall in H.
  apply bind_Ret_inv in H as ([ppn cx] & Hcx & H). apply Hregs in Hcx.
  apply bind_Ret_inv in H as ([k2 res] & H2 & H).
  assert (Hk2 : (forall b, res <> Shutdown b) -> kinv k2).
  { intros Hres. eapply kinv_syscall; [..|exact H2|exact Hres]; try done.
    by apply (get_x_range cx). }
  destruct res; [|simplify_eq; by apply Hk2..].
  apply bind_Ret_inv in H as ([ppn2 cx2] & _ & H). unfold ret in H. simplify_eq. by apply Hk2.
Qed.

Lemma set_next_trigger_ok t d t' : timer_ok t -> set_next_trigger t = Ret (d, t') -> timer_ok t'.
Proof.
  intros [Hf Hr] H. unfold set_next_trigger in H. destruct (get_time t) as [now t1] eqn:E.
  unfold get_time in E. apply bind_Ret_inv in H as (fr & _ & H). simplify_eq. split; [done|].
  intros n. apply Hr.
Qed.

Lemma kinv_handle_cause k e c k' r :
  kinv k -> Forall rely e -> pid_room k -> regs_ok k ->
  handle_cause P read_fuel k e c = Ret (k', r) -> (forall b, r <> Shutdown b) -> kinv k'.
Proof.
  intros Hk He Hroom Hregs H Hr. unfold handle_cause, ret in H.
  destruct c; try (apply bind_Ret_inv in H as (k1 & H1 & H); simplify_eq; by eapply kinv_current_add_signal).
  - by eapply kinv_handle_ecall.
  - apply bind_Ret_inv in H as ([d t] & Ht & H). eapply kinv_sys_yield; [|exact He|exact H].
    apply kinv_set_audit; [done|]. apply audit_ok_timer; [apply Hk|].
    destruct (proj2 Hk) as [log [_ Hok]]. by eapply set_next_trigger_ok.
  - done.
Qed.

Lemma kinv_trap_handler k e e' c k' r :
  kinv k -> Forall rely e -> Forall rely e' -> pid_room k -> regs_ok k ->
  trap_handler P read_fuel k e e' c = Ret (k', r) -> (forall b, r <> Shutdown b) -> kinv k'.
Proof.
  intros Hk He He' Hroom Hregs H Hr. unfold trap_handler in H.
  apply bind_Ret_inv in H as ([k1 r1] & H1 & H).
  assert (Hk1 : (forall b, r1 <> Shutdown b) -> kinv k1) by (intros Hsd; exact (kinv_handle_cause _ _ _ _ _ Hk He Hroom Hregs H1 Hsd)).
  destruct r1; [|simplify_eq; by apply Hk1..].
  apply bind_Ret_inv in H as ([k2 b] & H2 & H). apply kinv_handle_signals in H2; [|by apply Hk1|done].
  destruct b; cbn [negb] in H; [|by simplify_eq].
  apply bind_Ret_inv in H as (err & _ & H). destruct err; [|unfold ret in H; by simplify_eq].
  by eapply kinv_exit.
Qed.

(** ** Boot *)

(** Before the first process exists. *)
Definition no_tasks k : Prop :=
  k_sched k = {| tasks := ∅; PID2TCB := ∅; ready_queue := []; current := None |} /\
  PID_ALLOCATOR k = Pids.new /\ audit_ok (k_audit k).

(** [add_initproc]: [INITPROC] gets PID 1, and the invariant holds. *)
Lemma boot_kinv k elf pid k' :
  no_tasks k -> tcb_new P k elf = Ret (pid, k') -> pid = INITPROC /\ kinv (add_task k' pid).
Proof.
  intros (Hs & Hp & Ha) H. unfold tcb_new in H. apply bind_Ret_inv in H as ([[[ms usp] en] w] & _ & H).
  apply bind_Ret_inv in H as (ppn & _ & H). apply bind_Ret_inv in H as ([pid1 k1] & H1 & H). simplify_eq.
  unfold alloc_pid_and_stack in H1. change (PID_ALLOCATOR (set_fw k w)) with (PID_ALLOCATOR k) in H1.
  rewrite Hp in H1. change (Pids.alloc Pids.new) with (1, Pids.mkPids 2 []) in H1.
  apply bind_Ret_inv in H1 as (k2 & H2 & H1). simplify_eq.
  apply kernel_stack_new_sched in H2 as (Hs1 & Hp1 & Ha1).
  split; [done|]. split; [|cbn; by rewrite Ha1]. unfold k_tasks; cbn. unfold k_tasks. rewrite Hs1, Hp1. cbn. rewrite Hs. cbn.
  split; cbn.
  - apply map_Forall_insert_2; [|apply map_Forall_empty].
    apply task_ok_alive; [done|apply fd_quota_initial|apply cred_wf_initial].
  - apply NoDup_singleton.
  - intros p. unfold runnable; cbn. rewrite list_elem_of_singleton. split.
    + intros ->. rewrite lookup_insert_eq. eexists; split; [done|done].
    + intros (t & Ht & _). by apply lookup_singleton_Some in Ht as [<- _].
  - intros p. unfold runnable; cbn. set_solver.
  - split_and!; [cbn; lia|apply NoDup_nil_2|done].
  - intros p [t [<- _]%lookup_singleton_Some]. split; [cbn; lia|apply not_elem_of_nil].
  - intros p t c [<- <-]%lookup_singleton_Some Hc. by apply not_elem_of_nil in Hc.
  - intros p t [<- <-]%lookup_singleton_Some. apply NoDup_nil_2.
  - intros p q tp tq c [<- <-]%lookup_singleton_Some _ Hc. by apply not_elem_of_nil in Hc.
  - intros t [_ <-]%lookup_singleton_Some. done.
Qed.

(** ** Whole executions *)

(** The machine alternates between the scheduler loop and traps of the task it
    runs; between a task's [Waiting] and its next step, other tasks run. *)
Inductive kernel_step : Kernel F -> Kernel F -> Prop :=
| step_trap k e e' c k' r :
    Forall rely e -> Forall rely e' -> pid_room k -> regs_ok k ->
    trap_handler P read_fuel k e e' c = Ret (k', r) -> (forall b, r <> Shutdown b) -> kernel_step k k'
| step_user k m :
    (** the running program changes its own memory *)
    kernel_step k (set_mem k m)
| step_schedule k k' :
    current_task k = None -> run_tasks_round k = Ret (Some k') -> kernel_step k k'.

Inductive reachable : Kernel F -> Kernel F -> Prop :=
| reach_refl k : reachable k k
| reach_step k1 k2 k3 : reachable k1 k2 -> kernel_step k2 k3 -> reachable k1 k3.

Lemma kernel_step_inv k k' : kinv k -> kernel_step k k' -> kinv k'.
Proof.
  intros Hk Hs. destruct Hs as [k e e' c k' r He He' Hroom Hregs Ht Hr|k m|k k' Hc Hrun].
  - exact (kinv_trap_handler k e e' c k' r Hk He He' Hroom Hregs Ht Hr).
  - exact Hk.
  - exact (kinv_run_round k k' Hk Hc Hrun).
Qed.

(** C1: the process-table invariant is kept by every execution: traps of any
    cause (all 21 system calls, faults, timer interrupts), user code and the
    scheduler loop, with other tasks interleaved at every suspension.  In
    every reachable state, among other things, each live process has
    descriptor counters and a pipe bitmap that agree with its descriptor
    table and stay within 32 descriptors and 16 pipe ends, credentials that
    are root's or hold no capability, and the ready queue, the current task
    and the PID map list exactly the processes that have not exited. *)
Theorem reachable_kinv k0 k : kinv k0 -> reachable k0 k -> kinv k.
Proof.
  intros H0 Hr. induction Hr as [|k1 k2 k3 Hr IH Hs]; [done|].
  exact (kernel_step_inv _ _ (IH H0) Hs).
Qed.

End TrapInv.
