(* ===== verification/CallSpecs.v ===== *)
(** * What the descriptor, signal and identity calls do

    Total specifications of [sys_close], [sys_dup], [sys_kill] and
    [sys_setuid] on every branch: the call returns (it cannot panic in a state
    that satisfies the invariant), with this value, and the kernel state is
    this one. *)
From S2P Require Import Prelude IpcApi Quota Timer AuditLog AuditFacts Facade.
From S2P Require Import Address Allocators PageTable MemorySet Signals UserAccess Pipe Task Kernel.
From S2P Require Import SyscallFs FdFacts SignalHandling SyscallProcess KernelInv SyscallInv ProcessInv.
Import Signals Task Kernel SyscallFs SignalHandling SyscallProcess.

Section CallSpecs.
Context {F : Type} {FS : FileSystem F}.
Implicit Type k : Kernel F.

(** The running task: what every call starts from. *)
Record running k (pid : Z) (t : TaskControlBlockInner) : Prop := {
  run_inv : kinv k;
  run_current : current_task k = Some pid;
  run_task : k_tasks k !! pid = Some t;
}.

Lemma running_task_inner k pid t : running k pid t -> task_inner k pid = Ret t.
Proof. intros []. unfold task_inner. by rewrite run_task0. Qed.

Lemma running_current_inner k pid t : running k pid t -> current_inner k = Ret (pid, t).
Proof.
  intros Hr. pose proof (running_task_inner k pid t Hr) as Ht. destruct Hr.
  unfold current_inner. rewrite run_current0. cbn [unwrap mbind outcome_bind]. by rewrite Ht.
Qed.

Lemma running_set_mem k pid t m : running k pid t -> running (set_mem k m) pid t.
Proof. intros [H1 H2 H3]. split; [|done..]. by apply (kinv_ext k). Qed.

Lemma running_fd_quota k pid t :
  running k pid t -> fd_quota_ok (fd_table t) (Facade.sec_quota (security t)).
Proof. intros []. by edestruct kinv_current as (_ & Hq & _). Qed.

Lemma running_cred k pid t :
  running k pid t -> Credentials.cred_wf (Facade.sec_credentials (security t)).
Proof. intros []. by edestruct kinv_current as (_ & _ & Hc). Qed.

(** ** Descriptors *)

Lemma fd_file_None_index (t : fdtable) (fd : nat) :
  fd_file t fd = None ->
  (length t <= fd)%nat \/ index t (Z.of_nat fd) = Ret None.
Proof.
  unfold fd_file, index. rewrite Nat2Z.id. intros H.
  destruct (t !! fd) as [[f|]|] eqn:E; [done|by right|left; by apply lookup_ge_None].
Qed.

Lemma fd_file_Some_index (t : fdtable) (fd : nat) f :
  fd_file t fd = Some f ->
  t !! fd = Some (Some f) /\ (fd < length t)%nat /\ index t (Z.of_nat fd) = Ret (Some f).
Proof.
  unfold fd_file, index. rewrite Nat2Z.id. intros H.
  destruct (t !! fd) as [[g|]|] eqn:E; simplify_eq/=; try done.
  split_and!; [done|by eapply lookup_lt_Some|done].
Qed.

(** The state after a call that only edits the caller's block. *)
Definition caller_edit k k' (pid : Z) (t t' : TaskControlBlockInner) : Prop :=
  k' = put_task k pid t' /\ task_status t' = task_status t /\ children t' = children t /\
  Facade.sec_credentials (security t') = Facade.sec_credentials (security t) /\
  fd_quota_ok (fd_table t') (Facade.sec_quota (security t')).

(** [sys_close] never panics: an unknown or closed descriptor is refused
    with -1 and changes nothing; an open one is removed from the table, and the
    quota counters and the pipe bitmap follow. *)
Theorem sys_close_total k pid t (fd : nat) :
  running k pid t ->
  exists k' v, sys_close k (Z.of_nat fd) = Ret (k', Returned v) /\
  match fd_file (fd_table t) fd with
  | None => k' = k /\ v = -1
  | Some _ => v = 0 /\ exists t', caller_edit k k' pid t t' /\ fd_table t' = <[fd := None]> (fd_table t)
  end.
Proof.
  intros Hr. unfold sys_close, ret. rewrite (run_current _ _ _ Hr). cbn [unwrap mbind outcome_bind].
  rewrite (running_task_inner _ _ _ Hr). cbn [mbind outcome_bind].
  destruct (fd_file (fd_table t) fd) as [f|] eqn:Ef.
  - apply fd_file_Some_index in Ef as (Hl & Hlt & Hi).
    destruct (Z.leb_spec (Z.of_nat (length (fd_table t))) (Z.of_nat fd)); [lia|].
    rewrite Hi. cbn [mbind outcome_bind]. rewrite update_Ret by lia. cbn [mbind outcome_bind].
    rewrite Nat2Z.id. eexists _, _. split; [done|]. split; [done|].
    exists (set_security (set_fd_table t (<[fd := None]> (fd_table t)))
              (Facade.release_fd (security t) (Z.of_nat fd))). split; [|done].
    split_and!; try done. cbn. by eapply fd_quota_close; [apply (running_fd_quota k pid)|].
  - apply fd_file_None_index in Ef as [Hge|Hi].
    + destruct (Z.leb_spec (Z.of_nat (length (fd_table t))) (Z.of_nat fd)); [|lia]. by eexists _, _.
    + case_if; [by eexists _, _|]. rewrite Hi. by eexists _, _.
Qed.

(** The limit that refuses one more descriptor for a file, if any. *)
Definition dup_refusal (t : fdtable) (f : FileRef) : option IpcError :=
  if (open_count t =? 32)%nat then Some TooManyFiles
  else if is_pipe_file f && (pipe_count t =? 16)%nat then Some ResourceExhausted
  else None.

Lemma reserve_dup_cases t s fd f :
  fd_quota_ok t (Facade.sec_quota s) -> t !! fd = Some (Some f) ->
  match dup_refusal t f with
  | Some e => Facade.reserve_dup_fd s (Z.of_nat fd) = (s, Err e)
  | None => exists q', Facade.reserve_dup_fd s (Z.of_nat fd)
                       = (Facade.with_quota s q', Ok (is_pipe_file f)) /\
              (if is_pipe_file f then Quota.reserve_pipe_fds (Facade.sec_quota s) 1
               else Quota.reserve_files (Facade.sec_quota s) 1) = (q', Ok tt)
  end.
Proof.
  intros Hq Hfd. pose proof (lookup_lt_Some _ _ _ Hfd) as Hlt. pose proof Hq as [].
  unfold Facade.reserve_dup_fd, Quota.reserve_dup_fd, dup_refusal.
  rewrite (fd_quota_is_pipe t) by done. unfold pipe_at. rewrite Hfd. cbn [fmap option_fmap option_map default is_pipe_slot id].
  destruct (is_pipe_file f).
  - rewrite reserve_pipe_fds_spec by (lia || by eapply fd_quota_wf).
    unfold Quota.MAX_OPEN_FILES, Quota.MAX_OPEN_PIPE_FDS. cbn [andb].
    destruct (Nat.eqb_spec (open_count t) 32), (Z.leb_spec (Quota.open_files (Facade.sec_quota s) + 1) 32);
      try lia; cbn [negb]; [by rewrite with_quota_id|].
    destruct (Nat.eqb_spec (pipe_count t) 16), (Z.leb_spec (Quota.open_pipes (Facade.sec_quota s) + 1) 16);
      try lia; cbn [negb]; [by rewrite with_quota_id|]. by eexists.
  - rewrite reserve_files_spec by (lia || by eapply fd_quota_wf). unfold Quota.MAX_OPEN_FILES.
    destruct (Nat.eqb_spec (open_count t) 32), (Z.leb_spec (Quota.open_files (Facade.sec_quota s) + 1) 32);
      try lia; cbn [negb]; [by rewrite with_quota_id|]. by eexists.
Qed.

(** [sys_dup] never panics: it refuses an unknown descriptor with -1, a
    full table with EMFILE and a seventeenth pipe end with ENOSPC, each time
    without a change; otherwise the lowest free number refers to the same file,
    and counters and pipe bitmap account for it. *)
Theorem sys_dup_total k pid t (fd : nat) :
  running k pid t ->
  exists k' v, sys_dup k (Z.of_nat fd) = Ret (k', Returned v) /\
  match fd_file (fd_table t) fd with
  | None => k' = k /\ v = -1
  | Some f =>
      match dup_refusal (fd_table t) f with
      | Some e => k' = k /\ v = ipc_error_to_ret e
      | None => exists nfd t', v = Z.of_nat nfd /\ caller_edit k k' pid t t' /\
                  installed (fd_table t) f nfd (fd_table t')
      end
  end.
Proof.
  intros Hr. pose proof (running_fd_quota k pid t Hr) as Hq.
  unfold sys_dup, ret. rewrite (run_current _ _ _ Hr). cbn [unwrap mbind outcome_bind].
  rewrite (running_task_inner _ _ _ Hr). cbn [mbind outcome_bind].
  destruct (fd_file (fd_table t) fd) as [f|] eqn:Ef.
  2:{ apply fd_file_None_index in Ef as [Hge|Hi].
      - destruct (Z.leb_spec (Z.of_nat (length (fd_table t))) (Z.of_nat fd)); [|lia]. by eexists _, _.
      - case_if; [by eexists _, _|]. rewrite Hi. by eexists _, _. }
  apply fd_file_Some_index in Ef as (Hl & Hlt & Hi).
  destruct (Z.leb_spec (Z.of_nat (length (fd_table t))) (Z.of_nat fd)); [lia|].
  rewrite Hi. cbn [mbind outcome_bind].
  pose proof (reserve_dup_cases (fd_table t) (security t) fd f Hq Hl) as Hres.
  destruct (dup_refusal (fd_table t) f) as [e|].
  - rewrite Hres, set_security_id, put_task_id by apply Hr. by eexists _, _.
  - destruct Hres as (q' & -> & Hres).
    destruct (install_fd_spec (fd_table t) f) as (n & t' & -> & Hins). cbn [mbind outcome_bind].
    eexists _, _. split; [done|]. exists n, (set_security (set_fd_table t t')
               (if is_pipe_file f then Facade.register_pipe_fd (Facade.with_quota (security t) q') (Z.of_nat n)
                else Facade.with_quota (security t) q')). split; [|split; [|exact Hins]].
    + unfold as_isize. apply to_signed_small. pose proof (in_bound _ _ _ _ Hins).
      pose proof (in_length _ _ _ _ Hins). pose proof (fq_length _ _ Hq). pose proof (fq_max_files _ _ Hq). lia.
    + split_and!; try done; cbn; destruct (is_pipe_file f) eqn:Efp; try done; cbn.
      * by eapply fd_quota_install_pipe.
      * by eapply fd_quota_install_file.
Qed.

(** ** Sending a signal *)

(** The request [sys_kill] sends through the facade. *)
Definition kill_request (caller : Z) (t : TaskControlBlockInner) (target : Z)
    (tg : TaskControlBlockInner) : IpcRequest :=
  {| req_subject := subject_of caller (security t);
     req_object := {| object_id := target;
                      object_owner_uid := Credentials.uid (Facade.sec_credentials (security tg)) |};
     req_operation := SignalSend; req_amount := 1 |}.

(** What becomes of it: refused by the policy, already pending, or sent. *)
Definition kill_outcome (rq : IpcRequest) (tg : TaskControlBlockInner) (signum : Z) : IpcResult Z :=
  match Policy.authorize rq with
  | Err e => Err e
  | Ok _ => if Z.testbit (signals tg) signum then Err TryAgain else Ok 1
  end.

Definition kill_effect k (target : Z) (tg : TaskControlBlockInner) (signum : Z) (out : IpcResult Z) : Kernel F :=
  match out with
  | Ok _ => put_task k target (set_signals tg (Z.lor (signals tg) (2 ^ signum)))
  | Err _ => k
  end.

(** Requests that reserve nothing leave the caller's block alone. *)
Lemma task_preflight_noreserve k pid t rq log :
  k_tasks k !! pid = Some t -> sink_view (k_audit k) log -> req_operation rq <> PipeCreate ->
  match Policy.authorize rq with
  | Err e => exists w ts, task_preflight k pid rq = Ret (set_audit k w, Err e) /\
               sink_view w (Audit.log_append log (Audit.from_request rq (Err e) ts))
  | Ok _ => exists p, task_preflight k pid rq = Ret (k, Ok p) /\ Facade.permit_request p = rq /\
              Quota.res_kind (Facade.permit_reservation p) = Quota.NoReservation
  end.
Proof.
  intros Ht Hv Hop. destruct (task_preflight_spec k pid t rq log Ht Hv) as (k' & r & E & Hr).
  assert (Hres : Quota.reserve (Facade.sec_quota (security t)) rq
                 = (Facade.sec_quota (security t), Ok (Quota.mkReservation Quota.NoReservation 0))).
  { unfold Quota.reserve. by destruct (req_operation rq). }
  destruct r as [p|e].
  - destruct Hr as (s & -> & Hp & -> & Hc & Hs). rewrite Hres in Hs. injection Hs as Hs Hpr.
    exists p. split_and!; [|done|by rewrite <- Hpr]. rewrite E. do 2 f_equal.
    rewrite set_security_as, put_task_id; [done|done|]. destruct s, (security t). cbn in *. congruence.
  - destruct Hr as (w & ts & -> & _ & [->|[q Hq]] & Hw); [|congruence]. by exists w, ts.
Qed.

Lemma task_complete_noreserve k pid t p out log :
  k_tasks k !! pid = Some t -> sink_view (k_audit k) log ->
  Quota.res_kind (Facade.permit_reservation p) = Quota.NoReservation ->
  exists w ts, task_complete k pid p out = Ret (set_audit k w, out) /\
    sink_view w (log_outcome log (Facade.permit_request p) out ts).
Proof.
  intros Ht Hv Hk. destruct (task_complete_spec k pid t p out log Ht Hv) as (w & ts & E & _ & Hw).
  exists w, ts. split; [|done]. rewrite E. unfold Quota.finish. rewrite Hk.
  replace (if is_ok out then _ else _) with (Facade.sec_quota (security t)) by (by destruct (is_ok out)).
  by rewrite with_quota_id, set_security_id, put_task_id.
Qed.

Lemma sig_flag_of s : 0 <= s <= MAX_SIG -> sig_from_bits (Z.shiftl 1 s) = Some (2 ^ s).
Proof.
  intros Hs. rewrite Z.shiftl_1_l. apply SignalFlags_from_bits_total. unfold MAX_SIG in Hs.
  split; [lia|]. apply Z.pow_lt_mono_r; lia.
Qed.

Lemma kinv_pid2task k target :
  kinv k -> target ∈ PID2TCB (k_sched k) -> exists tg, k_tasks k !! target = Some tg /\ task_status tg <> Zombie.
Proof. intros [[] _] H. by apply si_run, si_map. Qed.

Lemma sys_kill_spec k pid t target signum log :
  running k pid t -> sink_view (k_audit k) log ->
  exists k' v, sys_kill k target signum = Ret (k', Returned v) /\
  if bool_decide (0 <= signum <= 31) then
    if bool_decide (target ∈ PID2TCB (k_sched k)) then
      exists tg w ts, k_tasks k !! target = Some tg /\
        let rq := kill_request pid t target tg in
        let out := kill_outcome rq tg signum in
        v = match out with Ok _ => 0 | Err e => ipc_error_to_ret e end /\
        k' = set_audit (kill_effect k target tg signum out) w /\
        sink_view w (Audit.log_append log (Audit.from_request rq out ts))
    else k' = k /\ v = -3
  else k' = k /\ v = -22.
Proof.
  intros Hr Hv. unfold sys_kill, ret, MAX_SIG.
  case_bool_decide as Hs.
  2:{ replace ((signum <? 0) || (31 <? signum)) with true by lia. by eexists _, _. }
  replace ((signum <? 0) || (31 <? signum)) with false by lia.
  rewrite sig_flag_of by (unfold MAX_SIG; lia). unfold pid2task.
  case_bool_decide as Ht.
  2:{ rewrite decide_False by done. by eexists _, _. }
  rewrite decide_True by done.
  destruct (kinv_pid2task k target) as (tg & Htg & _); [apply Hr|done|].
  assert (Hti : task_inner k target = Ret tg) by (unfold task_inner; by rewrite Htg).
  rewrite (run_current _ _ _ Hr). cbn [unwrap mbind outcome_bind]. rewrite Hti.
  cbn [mbind outcome_bind]. rewrite (running_task_inner _ _ _ Hr). cbn [mbind outcome_bind].
  cbn beta zeta. fold (kill_request pid t target tg). set (rq := kill_request pid t target tg).
  assert (Hgoal : forall out k0 w ts, kill_outcome rq tg signum = out ->
    k0 = kill_effect k target tg signum out -> sink_view w (log_outcome log rq out ts) ->
    exists k' v, Ret (set_audit k0 w, Returned match out with Ok _ => 0 | Err e => ipc_error_to_ret e end)
                 = Ret (k', Returned v) /\
      exists tg w ts, k_tasks k !! target = Some tg /\
        let rq := kill_request pid t target tg in
        let out := kill_outcome rq tg signum in
        v = match out with Ok _ => 0 | Err e => ipc_error_to_ret e end /\
        k' = set_audit (kill_effect k target tg signum out) w /\
        sink_view w (Audit.log_append log (Audit.from_request rq out ts))).
  { intros out k0 w ts <- -> Hw. eexists _, _. split; [done|]. exists tg, w, ts. done. }
  pose proof (task_preflight_noreserve k pid t rq log (run_task _ _ _ Hr) Hv) as Hpre.
  destruct (Policy.authorize rq) as [u|e] eqn:Ea.
  2:{ destruct Hpre as (w & ts & -> & Hw); [done|]. apply (Hgoal (Err e) k w ts); [|done|done].
      unfold kill_outcome. by rewrite Ea. }
  destruct Hpre as (p & -> & Hp & Hpk); [done|]. cbn [mbind outcome_bind]. rewrite Hti.
  cbn [mbind outcome_bind]. rewrite <- Z.shiftl_1_l, sig_contains_bit by lia. rewrite Z.shiftl_1_l.
  destruct (Z.testbit (signals tg) signum) eqn:Eb.
  - destruct (task_complete_noreserve k pid t p (Err TryAgain) log) as (w & ts & -> & Hw);
      [apply Hr|done|done|]. rewrite Hp in Hw. apply (Hgoal (Err TryAgain) k w ts); [|done|done].
    unfold kill_outcome. by rewrite Ea, Eb.
  - set (k2 := put_task k target (set_signals tg (sig_insert (signals tg) (2 ^ signum)))).
    assert (Hc : exists t2, k_tasks k2 !! pid = Some t2).
    { subst k2. unfold k_tasks. cbn. destruct (decide (target = pid)) as [->|].
      - rewrite lookup_insert_eq. by eexists.
      - rewrite lookup_insert_ne by done. exists t. apply Hr. }
    destruct Hc as [t2 Ht2].
    destruct (task_complete_noreserve k2 pid t2 p (Ok 1) log) as (w & ts & -> & Hw);
      [done|done|done|]. rewrite Hp in Hw. apply (Hgoal (Ok 1) k2 w ts); [|done|done].
    unfold kill_outcome. by rewrite Ea, Eb.
Qed.

(** ** Identity *)

Lemma sys_setuid_spec k pid t uid :
  running k pid t -> 0 <= uid ->
  exists k' v, sys_setuid k uid = Ret (k', Returned v) /\
  if bool_decide (Credentials.uid (Facade.sec_credentials (security t)) <> 0) then k' = k /\ v = -1
  else if bool_decide (U32_MAX < uid) then k' = k /\ v = -22
  else v = 0 /\ exists t', k' = put_task k pid t' /\ kinv k' /\
    security t' = Facade.mkSec (Credentials.mkCred uid
       (if bool_decide (uid = 0) then Credentials.capabilities (Facade.sec_credentials (security t)) else cap_empty))
       (Facade.sec_quota (security t)).
Proof.
  intros Hr Hu. assert (Hsafe : forall k' r, sys_setuid k uid = Ret (k', r) -> kinv k').
  { intros k' r. apply kinv_sys_setuid; [done|apply Hr]. }
  unfold sys_setuid, ret in *. rewrite (running_current_inner _ _ _ Hr) in *. cbn [mbind outcome_bind] in *.
  unfold Credentials.is_root, Credentials.ROOT_UID in *.
  destruct (Z.eqb_spec (Credentials.uid (Facade.sec_credentials (security t))) 0) as [E|E]; cbn [negb] in *.
  2:{ rewrite bool_decide_eq_true_2 by done. by eexists _, _. }
  rewrite bool_decide_eq_false_2 by (intros H; by apply H).
  destruct (Z.ltb_spec U32_MAX uid) as [Hw|Hw].
  - rewrite bool_decide_eq_true_2 by done. by eexists _, _.
  - rewrite bool_decide_eq_false_2 by lia. eexists _, _. split; [done|]. split; [done|].
    eexists (set_security t _). split; [done|]. split; [by eapply Hsafe|]. cbn. do 2 f_equal.
    by destruct (Z.eqb_spec uid 0) as [->|]; case_bool_decide.
Qed.

End CallSpecs.
