(* ===== verification/AuditCallFacts.v ===== *)
(** * What the audit calls do

    Total specifications of [sys_audit_read] and [sys_ipc_stat] on every
    branch: which records reach user memory, what is returned, and which calls
    leave a trace in the log they read. *)
From S2P Require Import Prelude IpcApi Quota Timer AuditLog AuditFacts Facade.
From S2P Require Import Address Allocators PageTable PageTableFacts MemorySet Signals UserAccess UserAccessFacts.
From S2P Require Import Pipe Task Kernel SyscallFs FdFacts SignalHandling SyscallProcess SyscallAudit.
From S2P Require Import KernelInv SyscallInv ProcessInv CallSpecs.
Import Audit Mem PageTable UserAccess Task Kernel SyscallFs SignalHandling SyscallProcess SyscallAudit.

(** ** User memory that holds no page table *)

(** The tables behind [token] are in shape, and no byte a user program may
    write lies in one of them. *)
Record user_space (m : PhysMem) (token : Z) : Prop := {
  us_tables : exists frames lab, pt_wf m (root_ppn (from_token token)) frames lab /\
    forall a f, user_byte_ok m (from_token token) true a -> is_Some (lab !! f) ->
      ~ in_frame f (phys_of m (from_token token) a);
}.

Section Isolation.
Context (m : PhysMem) (token ptr len : Z) (bs : list Z).
Hypothesis (Hu : user_space m token) (Hr : range_ok m token ptr len true) (Hlen : 0 < len).
Let m' := store_list m (phys_range m token ptr len) bs.

Lemma isolated_translate vpn : translate m' (from_token token) vpn = translate m (from_token token) vpn.
Proof using Hu Hr Hlen.
  destruct Hu as [(frames & lab & Hwf & Hiso)]. apply (translate_ext m m' _ frames lab); [done|].
  intros f x Hf Hx. apply store_list_other. intros [a [-> Ha]]%list_elem_of_fmap.
  apply elem_of_seqZ in Ha. destruct Hr as [|[_ Hok]]; [lia|].
  apply (Hiso a f); [apply Hok; lia|done|done].
Qed.

Lemma isolated_byte_ok w a : user_byte_ok m' (from_token token) w a <-> user_byte_ok m (from_token token) w a.
Proof using Hu Hr Hlen. unfold user_byte_ok. by rewrite isolated_translate. Qed.

Lemma isolated_phys_of a : phys_of m' (from_token token) a = phys_of m (from_token token) a.
Proof using Hu Hr Hlen. unfold phys_of. by rewrite isolated_translate. Qed.

Lemma isolated_phys_range p n : phys_range m' token p n = phys_range m token p n.
Proof using Hu Hr Hlen. unfold phys_range. apply list_fmap_ext. intros i a _. apply isolated_phys_of. Qed.

Lemma isolated_range_ok p n w : range_ok m' token p n w <-> range_ok m token p n w.
Proof using Hu Hr Hlen. unfold range_ok. by setoid_rewrite isolated_byte_ok. Qed.

Lemma isolated_user_space : user_space m' token.
Proof using Hu Hr Hlen.
  pose proof Hu as [(frames & lab & Hwf & Hiso)]. split. exists frames, lab. split.
  - apply (pt_wf_ext m); [done|]. intros f x Hf Hx. apply store_list_other.
    intros [a [-> Ha]]%list_elem_of_fmap. apply elem_of_seqZ in Ha. destruct Hr as [|[_ Hok]]; [lia|].
    apply (Hiso a f); [apply Hok; lia|done|done].
  - intros a f Ha Hf. rewrite isolated_phys_of. apply Hiso; [by apply isolated_byte_ok|done].
Qed.

End Isolation.

Lemma range_ok_split m token ptr n1 n2 w :
  0 <= n1 -> 0 <= n2 -> 0 < n1 + n2 ->
  range_ok m token ptr (n1 + n2) w <-> range_ok m token ptr n1 w /\ range_ok m token (ptr + n1) n2 w.
Proof.
  intros H1 H2 H12. unfold range_ok. split.
  - intros [|[Hl Hok]]; [lia|]. split; right; (split; [lia|]); intros a Ha; apply Hok; lia.
  - intros [[->|[Hl1 Ho1]] [->|[Hl2 Ho2]]]; [lia|right..].
    + split; [lia|]. intros a Ha. apply Ho2. lia.
    + split; [lia|]. intros a Ha. apply Ho1. lia.
    + split; [lia|]. intros a Ha. destruct (decide (a < ptr + n1)); [apply Ho1|apply Ho2]; lia.
Qed.

(** ** Copying the records *)

Definition encode_records (rs : list AuditRecordV1) : list Z := concat (encode_record <$> rs).

Lemma length_encode_record r : length (encode_record r) = 80%nat.
Proof. unfold encode_record. rewrite !length_app, !length_le_bytes by lia. done. Qed.

Lemma length_encode_records rs : length (encode_records rs) = (80 * length rs)%nat.
Proof.
  unfold encode_records. induction rs as [|r rs IH]; [done|]. cbn [fmap list_fmap concat].
  rewrite length_app, length_encode_record, IH. cbn [length]. lia.
Qed.

Lemma copy_records_spec token start batch rs : forall m index,
  user_space m token -> 0 <= index -> 0 <= start -> start + (index + Z.of_nat (length rs)) * 80 < 2 ^ 64 ->
  (forall j r, rs !! j = Some r -> record_at batch (index + Z.of_nat j) = Some r) ->
  let p := start + index * 80 in
  let size n := 80 * Z.of_nat n in
  (range_ok m token p (size (length rs)) true /\
   copy_records m token start batch index (length rs)
   = Ret (store_list m (phys_range m token p (size (length rs))) (encode_records rs), Ok tt)) \/
  (~ range_ok m token p (size (length rs)) true /\
   exists n, (n < length rs)%nat /\ range_ok m token p (size n) true /\
   copy_records m token start batch index (length rs)
   = Ret (store_list m (phys_range m token p (size n)) (encode_records (take n rs)), Err InvalidAddress)).
Proof.
  induction rs as [|r rs IH]; intros m index Hu Hi Hs Hb Hr p size.
  { left. split; [by left|]. done. }
  cbn [length copy_records]. pose proof (Hr 0%nat r eq_refl) as Hr0. rewrite Z.add_0_r in Hr0. rewrite Hr0.
  cbn [length] in Hb. unfold RECORD_SIZE.
  rewrite (wrap_small 64 (index * 80)) by (unfold in_width; lia).
  rewrite (wrap_small 64 (start + _)) by (unfold in_width; lia). fold p.
  pose proof (copy_to_user_spec m token p (encode_record r)) as Hc. rewrite length_encode_record in Hc.
  change (Z.of_nat 80) with 80 in Hc.
  replace (size (S (length rs))) with (80 + size (length rs)) by (unfold size; lia).
  assert (Hsz : 0 <= size (length rs)) by (unfold size; lia).
  assert (Hp : in_width 64 p) by (unfold in_width; subst p; lia).
  destruct Hc as [[Hok ->]|[Hok ->]]; [done|done| |]; cbn [mbind outcome_bind].
  2:{ right. split.
      - rewrite range_ok_split by lia. tauto.
      - exists 0%nat. split; [lia|]. split; [by left|]. done. }
  set (m1 := store_list m (phys_range m token p 80) (encode_record r)).
  assert (H80 : 0 < 80) by lia.
  destruct (IH m1 (index + 1)) as [[Hok1 ->]|[Hok1 (n & Hn & Hpre & ->)]]; clear IH.
  - by apply isolated_user_space.
  - lia.
  - done.
  - lia.
  - intros j r' Hj. replace (index + 1 + Z.of_nat j) with (index + Z.of_nat (S j)) by lia. by apply Hr.
  - cbn zeta in *. replace (start + (index + 1) * 80) with (p + 80) in * by (subst p; lia).
    unfold m1 in Hok1. rewrite isolated_range_ok in Hok1 by done. left. split; [rewrite range_ok_split by lia; done|].
    unfold m1. rewrite isolated_phys_range by done. rewrite phys_range_app by lia.
    unfold encode_records. cbn [fmap list_fmap concat]. rewrite store_list_app; [done|].
    unfold phys_range. by rewrite length_fmap, length_seqZ, length_encode_record.
  - cbn zeta in *. replace (start + (index + 1) * 80) with (p + 80) in * by (subst p; lia).
    unfold m1 in Hok1, Hpre. rewrite isolated_range_ok in Hok1, Hpre by done. right. split.
    + rewrite range_ok_split by lia. tauto.
    + exists (S n). split; [lia|]. replace (size (S n)) with (80 + size n) by (unfold size; lia).
      split; [rewrite range_ok_split by (unfold size; lia); done|].
      unfold m1. rewrite isolated_phys_range by done. rewrite phys_range_app by (unfold size; lia).
      unfold encode_records. cbn [take fmap list_fmap concat]. rewrite store_list_app; [done|].
      unfold phys_range. by rewrite length_fmap, length_seqZ, length_encode_record.
Qed.

(** ** [sys_audit_read] *)

(** The records a cursor read must deliver: the visible events, the first one
    marked when older events after the cursor were overwritten. *)
Definition batch_records (log : list AuditEvent) (after capacity : Z) : list AuditRecordV1 :=
  let gap := bool_decide (after < Z.of_nat (length log - retained_count (length log))) in
  imap (fun i e => to_record e (bool_decide (i = O) && gap))
       (visible log after (Z.to_nat (Z.min capacity 32))).

Lemma batch_for_records log after capacity b :
  batch_for log after capacity b ->
  b_len b = Z.of_nat (length (batch_records log after capacity)) /\
  forall j r, batch_records log after capacity !! j = Some r -> record_at b (0 + Z.of_nat j) = Some r.
Proof.
  intros (Hl & Hn & Ht & Hg). unfold batch_records in *. set (vis := visible _ _ _) in *.
  split; [by rewrite length_imap|]. intros j r Hj. rewrite Z.add_0_l.
  apply list_lookup_imap_Some in Hj as (e & He & ->). pose proof (lookup_lt_Some _ _ _ He) as Hlt.
  unfold record_at. rewrite Hn. destruct (Z.leb_spec (Z.of_nat (length vis)) (Z.of_nat j)); [lia|].
  rewrite Nat2Z.id. assert (Hb : b_events b !! j = Some e).
  { rewrite <- Ht in He. rewrite lookup_take_lt in He by done. done. }
  rewrite Hb. cbn. do 2 f_equal. destruct (Z.eqb_spec (Z.of_nat j) 0) as [E|E].
  - rewrite (bool_decide_eq_true_2 (j = O)) by lia. cbn [andb]. apply eq_true_iff_eq.
    rewrite Hg, bool_decide_eq_true. split; [tauto|]. intros ?. split; [|done]. by destruct vis.
  - by rewrite (bool_decide_eq_false_2 (j = O)) by lia.
Qed.

Lemma batch_records_short log after capacity : (length (batch_records log after capacity) <= 32)%nat.
Proof.
  unfold batch_records. rewrite length_imap. unfold visible. rewrite length_take. lia.
Qed.

Lemma check_output_range_spec start count :
  0 <= start -> 0 < count <= 32 ->
  check_output_range start count 80
  = if bool_decide (start <> 0 /\ start + count * 80 < 2 ^ 64) then Ok tt else Err InvalidAddress.
Proof.
  intros Hs Hc. unfold check_output_range, checked_mul.
  destruct (Z.ltb_spec (count * 80) (2 ^ 64)) as [_|]; [|lia]. cbn [ok_or mbind result_bind].
  destruct (Z.eqb_spec (count * 80) 0); [lia|]. cbn [negb andb].
  destruct (Z.eqb_spec start 0) as [E|E].
  - rewrite bool_decide_eq_false_2 by tauto. done.
  - unfold checked_add. destruct (Z.ltb_spec (start + count * 80) (2 ^ 64)).
    + by rewrite bool_decide_eq_true_2.
    + by rewrite bool_decide_eq_false_2 by lia.
Qed.

(** Memory after the first [n] records were copied. *)
Definition copied (m : PhysMem) (token ptr : Z) (rs : list AuditRecordV1) : PhysMem :=
  store_list m (phys_range m token ptr (80 * Z.of_nat (length rs))) (encode_records rs).

(** The outcome of a read of the records [rs]: all of them, or [EFAULT] after
    a proper prefix. *)
Definition delivers (m : PhysMem) (token ptr : Z) (rs : list AuditRecordV1) (m' : PhysMem) (out : IpcResult Z) : Prop :=
  let fits := ptr <> 0 /\ range_ok m token ptr (80 * Z.of_nat (length rs)) true in
  (rs = [] \/ fits) /\ out = Ok (Z.of_nat (length rs)) /\ m' = copied m token ptr rs \/
  ~ (rs = [] \/ fits) /\ out = Err InvalidAddress /\
  exists n, (n < length rs)%nat /\ range_ok m token ptr (80 * Z.of_nat n) true /\ m' = copied m token ptr (take n rs).

Lemma delivers_nil m token ptr : delivers m token ptr [] m (Ok 0).
Proof. left. split; [by left|]. done. Qed.

Lemma read_records_spec ring log m subject token ptr capacity after :
  ring_repr ring log -> user_space m token -> in_width 64 ptr -> in_width 64 capacity -> in_width 64 after ->
  exists m' out, read_records ring m subject token ptr capacity after = Ret (m', out) /\
  match check_permission subject with
  | Err e => m' = m /\ out = Err e
  | Ok _ => delivers m token ptr (batch_records log after capacity) m' out
  end.
Proof.
  intros Hrr Hu [Hp0 Hp] [Hc0 Hc] Ha. unfold read_records.
  destruct (check_permission subject) as [u|e]; [|by eexists _, _].
  destruct (Z.eqb_spec capacity 0) as [->|Hcz].
  { change (batch_records log after 0) with (@nil AuditRecordV1).
    eexists _, _. split; [done|]. by apply delivers_nil. }
  destruct (snapshot_refines ring log after capacity Hrr Ha Hc0) as (b & -> & Hb). cbn [mbind outcome_bind].
  destruct (batch_for_records log after capacity b Hb) as [Hlen Hrec].
  pose proof (batch_records_short log after capacity) as Hshort.
  set (rs := batch_records log after capacity) in *. rewrite Hlen.
  destruct (Z.eqb_spec (Z.of_nat (length rs)) 0) as [E0|E0].
  { assert (rs = []) as -> by (apply length_zero_iff_nil; lia).
    eexists _, _. split; [done|]. by apply delivers_nil. }
  assert (Hne : rs <> []) by (intros E; by rewrite E in E0).
  unfold RECORD_SIZE. rewrite check_output_range_spec by lia.
  case_bool_decide as Hrng.
  2:{ eexists _, _. split; [done|]. right. split_and!; [|done|].
      - intros [?|[Hpz [?|[Hlim _]]]]; [done|lia|]. apply Hrng. split; [done|]. lia.
      - exists 0%nat. split; [lia|]. split; [by left|done]. }
  rewrite Nat2Z.id.
  destruct (copy_records_spec token ptr b rs m 0 Hu) as [[Hok ->]|[Hok (n & Hn & Hpre & ->)]]; [lia|lia|lia|done|..];
    cbn [mbind outcome_bind]; cbn zeta in *; rewrite Z.mul_0_l, Z.add_0_r in *.
  - eexists _, _. split; [done|]. left. split_and!; [right; split; [apply Hrng|done]|done|done].
  - eexists _, _. split; [done|]. right. split_and!; [|done|].
    + intros [?|[_ ?]]; done.
    + exists n. split_and!; [done|done|]. unfold copied. by rewrite length_take_le by lia.
Qed.

(** The statistics of a log, as the ABI record. *)
Definition stats_record (log : list AuditEvent) : IpcStatsV1 :=
  {| s_abi_version := AUDIT_ABI_VERSION; s_struct_size := IPC_STATS_V1_SIZE; s_flags := 0;
     s_capacity := 256; s_retained := Z.of_nat (length (retained log));
     s_first_sequence := Z.of_nat (length log - length (retained log)) + 1;
     s_next_sequence := Z.of_nat (length log) + 1; s_total_events := Z.of_nat (length log);
     s_successful_events := Z.of_nat (count_ok log);
     s_failed_events := Z.of_nat (length log - count_ok log);
     s_overwritten_events := Z.of_nat (length log - length (retained log)); s_reserved0 := 0 |}.

Section AuditCallSpecs.
Context {F : Type} {FS : FileSystem F}.
Implicit Type k : Kernel F.

Lemma caller_context_eq k pid t :
  running k pid t -> caller_context k = Ret (subject_of pid (security t), get_user_token t).
Proof. intros Hr. unfold caller_context. by rewrite (running_current_inner _ _ _ Hr). Qed.

Lemma finish_control_spec k op subject amount out log :
  sink_view (k_audit k) log ->
  exists k' v, finish_control_call k op subject amount out = Ret (k', Returned v) /\
  match out with
  | Ok n => k' = k /\ v = as_isize n
  | Err e => exists w ts, k' = set_audit k w /\ v = - error_to_errno e /\
      sink_view w (log_append log (from_control_failure op subject amount e ts))
  end.
Proof.
  intros Hv. unfold finish_control_call, ret. destruct out as [n|e]; [by eexists _, _|].
  unfold record_control_failure.
  destruct (push_stamped_appends (k_audit k) log (from_control_failure op subject amount e) Hv)
    as (w & ts & -> & _ & Hw). cbn [mbind outcome_bind]. eexists _, _. split; [done|]. by exists w, ts.
Qed.

Lemma set_mem_id k : set_mem k (k_mem k) = k.
Proof. destruct k as [[] ? ? ? ? ?]. done. Qed.

(** A caller without the right gets nothing but an event in the log. *)
Lemma sys_audit_read_denied k pid t log ptr capacity after :
  running k pid t -> sink_view (k_audit k) log ->
  check_permission (subject_of pid (security t)) = Err PermissionDenied ->
  exists w ts, sys_audit_read k ptr capacity after = Ret (set_audit k w, Returned (-1)) /\
    sink_view w (log_append log
      (from_control_failure CtlAuditRead (subject_of pid (security t)) capacity PermissionDenied ts)).
Proof.
  intros Hr Hv Hp. unfold sys_audit_read, read_records. rewrite (caller_context_eq _ _ _ Hr).
  cbn [mbind outcome_bind]. rewrite Hp. cbn [mbind outcome_bind]. rewrite set_mem_id.
  destruct (finish_control_spec k CtlAuditRead (subject_of pid (security t)) capacity
              (Err PermissionDenied) log Hv) as (k' & v & -> & w & ts & -> & -> & Hw).
  by exists w, ts.
Qed.

(** What is left of a control call once its body ran: nothing in the log on
    success, one failure event otherwise. *)
Definition control_result k (op : AuditControlOperation) (subject : IpcSubject) (amount : Z)
    (log : list AuditEvent) (m' : PhysMem) (out : IpcResult Z) k' (v : Z) : Prop :=
  match out with
  | Ok n => k' = set_mem k m' /\ v = n
  | Err e => exists w ts, k' = set_audit (set_mem k m') w /\ v = - error_to_errno e /\
      sink_view w (log_append log (from_control_failure op subject amount e ts))
  end.

(** C21: [sys_audit_read] on every branch.  An unauthorized caller gets EPERM and
    one failure event; otherwise user memory receives exactly the oldest
    visible records (at most 32), byte for byte and with the gap mark, the
    count is returned and nothing is logged; when the destination is null or
    not writable user memory, the call returns EFAULT, logs one failure event,
    and has written nothing but a proper prefix of the records. *)
Theorem sys_audit_read_total k pid t log ptr capacity after :
  running k pid t -> sink_view (k_audit k) log -> user_space (k_mem k) (get_user_token t) ->
  in_width 64 ptr -> in_width 64 capacity -> in_width 64 after ->
  let subject := subject_of pid (security t) in
  exists m' out k' v, sys_audit_read k ptr capacity after = Ret (k', Returned v) /\
    control_result k CtlAuditRead subject capacity log m' out k' v /\
    match check_permission subject with
    | Err e => m' = k_mem k /\ out = Err PermissionDenied
    | Ok _ => delivers (k_mem k) (get_user_token t) ptr (batch_records log after capacity) m' out
    end.
Proof.
  intros Hr Hv Hu Hp Hc Ha subject. unfold sys_audit_read. rewrite (caller_context_eq _ _ _ Hr).
  cbn [mbind outcome_bind]. fold subject.
  destruct (read_records_spec (AUDIT_RING (k_audit k)) log (k_mem k) subject (get_user_token t) ptr capacity after
              (proj1 Hv) Hu Hp Hc Ha) as (m' & out & -> & Hout). cbn [mbind outcome_bind].
  destruct (finish_control_spec (set_mem k m') CtlAuditRead subject capacity out log Hv) as (k' & v & -> & Hf).
  exists m', out, k', v. split; [done|]. split.
  - unfold control_result. destruct out as [n|e]; [|done]. destruct Hf as [-> ->]. split; [done|].
    destruct (check_permission subject) as [u|]; [|by destruct Hout].
    destruct Hout as [(_ & [= ->] & _)|(_ & [=] & _)].
    unfold as_isize. apply to_signed_small. pose proof (batch_records_short log after capacity). lia.
  - revert Hout. unfold check_permission. by destruct (_ || _).
Qed.

(** ** [sys_ipc_stat] *)

Lemma stats_record_spec ring log :
  ring_repr ring log -> exists s, stats ring = Ret s /\ stats_to_record s = stats_record log.
Proof.
  intros Hr. destruct (stats_spec ring log Hr) as (s & Hs & E1 & E2 & E3 & E4 & E5 & E6 & E7 & E8).
  exists s. split; [done|]. unfold stats_to_record, stats_record.
  by rewrite E1, E2, E3, E4, E5, E6, E7, E8.
Qed.

(** The outcome of a statistics read by an authorized caller. *)
Definition delivers_stats (m : PhysMem) (token ptr size flags : Z) (bytes : list Z)
    (m' : PhysMem) (out : IpcResult Z) : Prop :=
  let fits := ptr <> 0 /\ range_ok m token ptr 80 true in
  if bool_decide (flags <> 0 \/ size < 80) then out = Err InvalidArgument /\ m' = m
  else fits /\ out = Ok 0 /\ m' = store_list m (phys_range m token ptr 80) bytes \/
       ~ fits /\ out = Err InvalidAddress /\ m' = m.

Lemma read_stats_spec ring log m subject token ptr size flags :
  ring_repr ring log -> in_width 64 ptr ->
  exists m' out, read_stats ring m subject token ptr size flags = Ret (m', out) /\
  match check_permission subject with
  | Err e => out = Err PermissionDenied /\ m' = m
  | Ok _ => delivers_stats m token ptr size flags (encode_stats (stats_record log)) m' out
  end.
Proof.
  intros Hrr Hp. unfold read_stats, delivers_stats, check_permission. destruct (_ || _); [|by eexists _, _].
  unfold STATS_SIZE. destruct (negb (flags =? 0) || (size <? 80)) eqn:Ef.
  { rewrite bool_decide_eq_true_2; [by eexists _, _|].
    apply orb_true_iff in Ef as [Ef|Ef]; [left|right]; bool_lia. }
  rewrite bool_decide_eq_false_2; [|apply orb_false_iff in Ef as [Ef1 Ef2]; bool_lia].
  rewrite check_output_range_spec by (destruct Hp; lia). case_bool_decide as Hrng.
  2:{ eexists _, _. split; [done|]. right. split; [|done].
      intros [Hpz [?|[Hlim _]]]; [lia|]. apply Hrng. split; [done|]. lia. }
  destruct (stats_record_spec _ _ Hrr) as (s & -> & Es). cbn [mbind outcome_bind]. rewrite Es.
  set (bytes := encode_stats (stats_record log)).
  assert (Hlb : length bytes = 80%nat).
  { unfold bytes, encode_stats. rewrite !length_app, !length_le_bytes by lia. done. }
  destruct (copy_to_user_spec m token ptr bytes Hp) as [[Hok ->]|[Hok ->]]; rewrite Hlb in *; [lia|..];
    change (Z.of_nat 80) with 80 in *; cbn [mbind outcome_bind]; (eexists _, _; split; [done|]).
  - left. split; [|done]. split; [apply Hrng|done].
  - right. split; [|done]. tauto.
Qed.

(** [sys_ipc_stat] on every branch: EPERM for an unauthorized caller, EINVAL
    for unknown flags or a small buffer, EFAULT for a bad pointer, each with
    one failure event and memory untouched; otherwise the 80 bytes of the
    statistics of the whole log, and no event. *)
Theorem sys_ipc_stat_total k pid t log ptr size flags :
  running k pid t -> sink_view (k_audit k) log -> in_width 64 ptr ->
  let subject := subject_of pid (security t) in
  exists m' out k' v, sys_ipc_stat k ptr size flags = Ret (k', Returned v) /\
    control_result k CtlIpcStat subject 0 log m' out k' v /\
    match check_permission subject with
    | Err e => out = Err PermissionDenied /\ m' = k_mem k
    | Ok _ => delivers_stats (k_mem k) (get_user_token t) ptr size flags
                (encode_stats (stats_record log)) m' out
    end.
Proof.
  intros Hr Hv Hp subject. unfold sys_ipc_stat. rewrite (caller_context_eq _ _ _ Hr).
  cbn [mbind outcome_bind]. fold subject.
  destruct (read_stats_spec (AUDIT_RING (k_audit k)) log (k_mem k) subject (get_user_token t) ptr size flags
              (proj1 Hv) Hp) as (m' & out & -> & Hout). cbn [mbind outcome_bind].
  destruct (finish_control_spec (set_mem k m') CtlIpcStat subject 0 out log Hv) as (k' & v & -> & Hf).
  exists m', out, k', v. split; [done|]. split; [|done]. unfold control_result.
  destruct out as [n|e]; [|done]. destruct Hf as [-> ->]. split; [done|].
  assert (n = 0) as ->; [|done]. revert Hout. unfold delivers_stats.
  destruct (check_permission subject); [|by intros []].
  case_bool_decide; [by intros []|]. by intros [(_ & [= ->] & _)|(_ & [=] & _)].
Qed.

End AuditCallSpecs.
