(* ===== verification/KernelPipe.v ===== *)
(** * Pipes inside the kernel

    The kernel keeps the promises of [PipeHostLaws], so the theorems on
    [Pipe::read] and [Pipe::write] hold of it; this file carries them through
    [sys_write] and [sys_read], with the facade around them. *)
From S2P Require Import Prelude IpcApi Quota Timer AuditLog AuditFacts Facade.
From S2P Require Import Address Allocators PageTable MemorySet Signals UserAccess UserAccessFacts Pipe PipeFacts.
From S2P Require Import Task Kernel SyscallFs FdFacts SignalHandling SyscallProcess KernelInv SyscallInv CallSpecs.
Import Audit Mem PageTable UserAccess Pipe Task Kernel SyscallFs.

Section KernelPipe.
Context {F : Type} {FS : FileSystem F}.
Implicit Type k : Kernel F.

#[export] Instance kernel_pipe_laws : PipeHostLaws (Kernel F).
Proof.
  constructor; try done. intros k b r b'. cbn. case_decide; subst.
  - apply lookup_insert_eq.
  - by apply lookup_insert_ne.
Qed.

(** Kernels that differ from [k] in the pipe buffers only, or also in memory. *)
Definition rings_edit k k' : Prop := exists rs, k' = set_rings k rs.
Definition rings_mem_edit k k' : Prop := exists rs m, k' = set_mem (set_rings k rs) m.

Lemma rings_edit_step k k' b r : rings_edit k k' -> rings_edit k (host_set_ring k' b r).
Proof. intros [rs ->]. by eexists. Qed.
Lemma rings_mem_edit_ring k k' b r : rings_mem_edit k k' -> rings_mem_edit k (host_set_ring k' b r).
Proof. intros (rs & m & ->). by eexists _, m. Qed.
Lemma rings_mem_edit_mem k k' m : rings_mem_edit k k' -> rings_mem_edit k (host_set_mem k' m).
Proof. intros (rs & m' & ->). by eexists rs, m. Qed.

Lemma set_rings_id k : set_rings k (rings (k_io k)) = k.
Proof. by destruct k as [? ? ? ? ? []]. Qed.

Lemma release_hold k (f : FileRef) : held (k_io (release (hold k f) f)) = held (k_io k).
Proof. cbn. by rewrite decide_True. Qed.

(** The file operation between [hold] and [release], when it only edits the
    pipe buffers and memory. *)
Lemma release_edit k f rs m :
  release (set_mem (set_rings (hold k f) rs) m) f = set_mem (set_rings k rs) m.
Proof. unfold release, hold. cbn. rewrite decide_True by done. by destruct k as [? ? ? ? ? []]. Qed.

(** ** Non-blocking transfers *)

(** A write that fits into the buffer. *)
Lemma pipe_write_fits p k buf r0 :
  let addrs := buffer_addrs buf in
  p_writable p = true -> ring_at k (p_buffer p) r0 -> nonempty_slices buf -> buf <> [] ->
  (length (contents r0) + length addrs <= 32)%nat ->
  exists rs r', pipe_write p k buf [] = Ret (set_rings k rs, Some (Z.of_nat (length addrs))) /\
    ring_at (set_rings k rs) (p_buffer p) r' /\
    contents r' = contents r0 ++ (load (k_mem k) <$> addrs).
Proof.
  intros addrs Hp Hat Hne Hbuf Hfit.
  destruct (pipe_write_spec (rings_edit k) (rings_edit_step k) p k buf [] [] r0) as ([k' out] & E & Hpost);
    try done; [eexists; by rewrite set_rings_id|].
  destruct Hpost as (j & n & Hj & [rs Ek] & (r' & Hat' & Hc & _ & _) & Hout); cbn [fst snd] in *. subst k'.
  rewrite take_nil in Hc. cbn in Hc. rewrite drop_0 in Hc.
  destruct Hout as [[-> ->]|(_ & _ & Hlt & Hfull)]; [|subst addrs; cbn in Hfull; lia].
  exists rs, r'. split_and!; [done|done|]. rewrite Hc. by rewrite take_ge by (by rewrite length_fmap).
Qed.

(** A read of bytes that are there. *)
Lemma pipe_read_ready p k buf r0 :
  let addrs := buffer_addrs buf in
  p_readable p = true -> ring_at k (p_buffer p) r0 -> nonempty_slices buf -> buf <> [] -> NoDup addrs ->
  (length addrs <= length (contents r0))%nat ->
  exists rs m r', pipe_read p k buf [] = Ret (set_mem (set_rings k rs) m, Some (Z.of_nat (length addrs))) /\
    ring_at (set_rings k rs) (p_buffer p) r' /\
    contents r' = drop (length addrs) (contents r0) /\
    (load m <$> addrs) = take (length addrs) (contents r0).
Proof.
  intros addrs Hp Hat Hne Hbuf Hnd Hfit.
  destruct (pipe_read_spec (rings_mem_edit k) (rings_mem_edit_ring k) (rings_mem_edit_mem k) p k buf [] [] r0)
    as ([k' out] & E & Hpost); try done.
  { eexists _, (k_mem k). rewrite set_rings_id. by destruct k as [[] ? ? ? ? ?]. }
  destruct Hpost as (j & n & Hj & (rs & m & Ek) & (r' & Hat' & Hc & Hn & Hd) & Hout); cbn [fst snd] in *. subst k'.
  rewrite take_nil in *. cbn [concat] in *. rewrite app_nil_r in *.
  pose proof (f_equal length Hd) as Hl. rewrite length_fmap, !length_take in Hl.
  assert (n = length addrs) as -> by (subst addrs; destruct Hout as [(_ & [?|[_ ?]])|(_ & _ & ? & ?)]; cbn in *; lia).
  exists rs, m, r'. split_and!; [|done|done|].
  - destruct Hout as [(-> & _)|(_ & _ & _ & ?)]; [done|subst addrs; lia].
  - fold addrs in Hd. rewrite take_ge in Hd by lia. exact Hd.
Qed.

(** ** Through the system calls *)

Definition pipe_io_request (pid : Z) (t : TaskControlBlockInner) (op : IpcOperation) (len : Z) (p : Pipe) : IpcRequest :=
  {| req_subject := subject_of pid (security t); req_object := p_object p; req_operation := op; req_amount := len |}.

(** The facade around an operation that completes with [n]. *)
Lemma checked_io_done op k pid t p bufs len e n rs m log rq :
  running k pid t -> sink_view (k_audit k) log -> 0 < len -> 0 <= n < 2 ^ 63 ->
  Policy.authorize rq = Ok tt -> req_operation rq = PipeRead \/ req_operation rq = PipeWrite ->
  op (hold k (FPipe p)) (FPipe p) bufs e = Ret (set_mem (set_rings (hold k (FPipe p)) rs) m, Some n) ->
  exists w ts, checked_io op k pid (FPipe p) (Some rq) bufs len e
    = Ret (set_audit (set_mem (set_rings k rs) m) w, Returned n) /\
    sink_view w (log_append log (from_request rq (Ok n) ts)).
Proof.
  intros Hr Hv Hlen Hn Ha Hop E. unfold checked_io.
  pose proof (task_preflight_noreserve k pid t rq log (run_task _ _ _ Hr) Hv) as Hpre.
  rewrite Ha in Hpre. destruct Hpre as (pm & -> & Hpm & Hk); [by destruct Hop as [-> | ->]|].
  cbn [mbind outcome_bind]. destruct (Z.eqb_spec len 0); [lia|]. unfold run_file. rewrite E.
  cbn [mbind outcome_bind]. rewrite release_edit. unfold finish_ipc.
  destruct (task_complete_noreserve (set_mem (set_rings k rs) m) pid t pm (Ok n) log) as (w & ts & -> & Hw);
    [apply Hr|done|done|]. cbn [mbind outcome_bind]. exists w, ts. split.
  - unfold ret, as_isize. by rewrite to_signed_small by lia.
  - rewrite Hpm in Hw. unfold log_outcome in Hw. rewrite bool_decide_eq_false_2 in Hw; [done|].
    by destruct Hop as [-> | ->].
Qed.

Lemma buffer_not_nil m token ptr len bufs :
  0 < len -> buffer_addrs bufs = (phys_of m (from_token token) <$> seqZ ptr len) -> bufs <> [].
Proof.
  intros Hl E ->. apply (f_equal length) in E. rewrite length_fmap, length_seqZ in E. cbn in E. lia.
Qed.

Lemma sys_write_pipe_fits k pid t (fd : nat) p buf len log r0 :
  running k pid t -> sink_view (k_audit k) log -> fd_table t !! fd = Some (Some (FPipe p)) ->
  p_writable p = true -> ring_at k (p_buffer p) r0 -> in_width 64 buf -> 0 < len ->
  Z.of_nat (length (contents r0)) + len <= 32 -> range_ok (k_mem k) (get_user_token t) buf len false ->
  exists rs r' w ts, sys_write k (Z.of_nat fd) buf len []
    = Ret (set_audit (set_rings k rs) w, Returned len) /\
    ring_at (set_rings k rs) (p_buffer p) r' /\
    contents r' = contents r0 ++ (load (k_mem k) <$> phys_range (k_mem k) (get_user_token t) buf len) /\
    sink_view w (log_append log (from_request (pipe_io_request pid t PipeWrite len p) (Ok len) ts)).
Proof.
  intros Hr Hv Hfd Hp Hat Hb Hlen Hfit Hok. unfold sys_write, current_user_token.
  rewrite (run_current _ _ _ Hr). cbn [unwrap mbind outcome_bind]. rewrite (running_task_inner _ _ _ Hr).
  cbn [mbind outcome_bind]. pose proof (lookup_lt_Some _ _ _ Hfd) as Hlt.
  destruct (Z.leb_spec (Z.of_nat (length (fd_table t))) (Z.of_nat fd)); [lia|].
  rewrite (index_Ret _ _ (Some (FPipe p))) by (by rewrite Nat2Z.id). cbn [mbind outcome_bind].
  cbn [file_writable]. rewrite Hp. cbn [negb]. unfold copy_bytes_from_user.
  destruct (try_translated_byte_buffer_spec (k_mem k) (get_user_token t) buf len false Hb)
    as (r & -> & Hbufs); [unfold in_width; lia|]. cbn [mbind outcome_bind].
  destruct r as [bufs|]; [|done]. destruct Hbufs as (_ & Ha & Hne). cbn [mbind outcome_bind].
  pose proof (buffer_not_nil _ _ _ _ _ Hlen Ha) as Hnil.
  assert (Hlb : Z.of_nat (length (buffer_addrs bufs)) = len) by (rewrite Ha, length_fmap, length_seqZ; lia).
  destruct (pipe_write_fits p (hold k (FPipe p)) bufs r0) as (rs & r' & E & Hat' & Hc); try done; [lia|].
  rewrite Hlb in E.
  replace (set_rings (hold k (FPipe p)) rs) with (set_mem (set_rings (hold k (FPipe p)) rs) (k_mem k)) in E
    by (by destruct k as [[] ? ? ? ? ?]).
  destruct (checked_io_done file_write k pid t p bufs len [] len rs (k_mem k) log
              (pipe_io_request pid t PipeWrite len p)) as (w & ts & E' & Hw); try done; [lia|by right|].
  exists rs, r', w, ts. split_and!; [|done|by rewrite Hc, Ha|done].
  etrans; [exact E'|]. do 3 f_equal. by destruct k as [[] ? ? ? ? ?].
Qed.

Lemma sys_read_pipe_ready k pid t (fd : nat) p buf len log r0 :
  running k pid t -> sink_view (k_audit k) log -> fd_table t !! fd = Some (Some (FPipe p)) ->
  p_readable p = true -> ring_at k (p_buffer p) r0 -> in_width 64 buf -> 0 < len ->
  len <= Z.of_nat (length (contents r0)) -> range_ok (k_mem k) (get_user_token t) buf len true ->
  NoDup (phys_range (k_mem k) (get_user_token t) buf len) ->
  exists rs m r' w ts, sys_read k (Z.of_nat fd) buf len []
    = Ret (set_audit (set_mem (set_rings k rs) m) w, Returned len) /\
    ring_at (set_rings k rs) (p_buffer p) r' /\
    contents r' = drop (Z.to_nat len) (contents r0) /\
    (load m <$> phys_range (k_mem k) (get_user_token t) buf len) = take (Z.to_nat len) (contents r0) /\
    sink_view w (log_append log (from_request (pipe_io_request pid t PipeRead len p) (Ok len) ts)).
Proof.
  intros Hr Hv Hfd Hp Hat Hb Hlen Hfit Hok Hnd. unfold sys_read, current_user_token.
  assert (Hl32 : len <= 32) by (pose proof (length_contents r0 (proj1 (proj2 Hat))); pose proof (available_read_range r0 (proj1 (proj2 Hat))); lia).
  rewrite (run_current _ _ _ Hr). cbn [unwrap mbind outcome_bind]. rewrite (running_task_inner _ _ _ Hr).
  cbn [mbind outcome_bind]. pose proof (lookup_lt_Some _ _ _ Hfd) as Hlt.
  destruct (Z.leb_spec (Z.of_nat (length (fd_table t))) (Z.of_nat fd)); [lia|].
  rewrite (index_Ret _ _ (Some (FPipe p))) by (by rewrite Nat2Z.id). cbn [mbind outcome_bind].
  cbn [file_readable]. rewrite Hp. cbn [negb].
  destruct (try_translated_byte_buffer_spec (k_mem k) (get_user_token t) buf len true Hb)
    as (r & -> & Hbufs); [unfold in_width; lia|]. cbn [mbind outcome_bind].
  destruct r as [bufs|]; [|done]. destruct Hbufs as (_ & Ha & Hne).
  fold (phys_range (k_mem k) (get_user_token t) buf len) in Ha.
  pose proof (buffer_not_nil _ _ _ _ _ Hlen Ha) as Hnil.
  assert (Hlb : length (buffer_addrs bufs) = Z.to_nat len).
  { rewrite Ha. unfold phys_range. rewrite length_fmap, length_seqZ. lia. }
  destruct (pipe_read_ready p (hold k (FPipe p)) bufs r0) as (rs & m & r' & E & Hat' & Hc & Hm); try done;
    [by rewrite Ha|lia|]. rewrite Hlb in *. replace (Z.of_nat (Z.to_nat len)) with len in E by lia.
  destruct (checked_io_done file_read k pid t p bufs len [] len rs m log
              (pipe_io_request pid t PipeRead len p)) as (w & ts & E' & Hw); try done; [lia|by left|].
  exists rs, m, r', w, ts. split_and!; [exact E'|done|done|by rewrite <- Ha|done].
Qed.

(** ** A round trip *)

Lemma running_set_audit_rings k pid t rs w log :
  running k pid t -> sink_view w log -> running (set_audit (set_rings k rs) w) pid t.
Proof. intros [Hk Hc Ht] Hw. split; [|done|done]. split; [apply Hk|by exists log]. Qed.

(** C18: bytes written to a pipe with [sys_write] come back from [sys_read] in
    order.  For a process that holds both ends of an empty pipe, writing up to
    32 bytes of its readable memory and reading as many into its writable
    memory (no two bytes of it the same physical byte) returns the length
    twice, leaves the destination equal to what the source was, empties the
    pipe, and leaves one audit event per call, with the byte count. *)
Theorem pipe_syscall_roundtrip k pid t (rfd wfd : nat) b obj src dst len log r0 :
  let m := k_mem k in let token := get_user_token t in
  running k pid t -> sink_view (k_audit k) log ->
  fd_table t !! rfd = Some (Some (FPipe (read_end_with_buffer b obj))) ->
  fd_table t !! wfd = Some (Some (FPipe (write_end_with_buffer b obj))) ->
  ring_at k b r0 -> contents r0 = [] -> 0 < len <= 32 -> in_width 64 src -> in_width 64 dst ->
  range_ok m token src len false -> range_ok m token dst len true -> NoDup (phys_range m token dst len) ->
  exists k1 k2 r' ts1 ts2,
    sys_write k (Z.of_nat wfd) src len [] = Ret (k1, Returned len) /\
    sys_read k1 (Z.of_nat rfd) dst len [] = Ret (k2, Returned len) /\
    (load (k_mem k2) <$> phys_range m token dst len) = (load m <$> phys_range m token src len) /\
    ring_at k2 b r' /\ contents r' = [] /\ k_sched k2 = k_sched k /\
    sink_view (k_audit k2)
      (log_append (log_append log
         (from_request (pipe_io_request pid t PipeWrite len (write_end_with_buffer b obj)) (Ok len) ts1))
         (from_request (pipe_io_request pid t PipeRead len (read_end_with_buffer b obj)) (Ok len) ts2)).
Proof.
  intros m token Hr Hv Hrfd Hwfd Hat He Hlen Hs Hd Hoks Hokd Hnd.
  destruct (sys_write_pipe_fits k pid t wfd (write_end_with_buffer b obj) src len log r0)
    as (rs & r1 & w & ts1 & E1 & Hat1 & Hc1 & Hv1); try done; [lia|rewrite He; cbn; lia|].
  fold m token in Hc1. rewrite He, app_nil_l in Hc1.
  assert (Hl1 : length (contents r1) = Z.to_nat len).
  { rewrite Hc1. unfold phys_range. rewrite !length_fmap, length_seqZ. lia. }
  destruct (sys_read_pipe_ready (set_audit (set_rings k rs) w) pid t rfd (read_end_with_buffer b obj) dst len
              (log_append log (from_request (pipe_io_request pid t PipeWrite len (write_end_with_buffer b obj)) (Ok len) ts1)) r1)
    as (rs2 & m2 & r2 & w2 & ts2 & E2 & Hat2 & Hc2 & Hm2 & Hv2); try done; [|lia|lia|].
  { by eapply running_set_audit_rings. }
  eexists _, _, r2, ts1, ts2. split_and!; [exact E1|exact E2| |exact Hat2| |done|exact Hv2].
  - rewrite take_ge, Hc1 in Hm2 by lia. exact Hm2.
  - rewrite Hc2, drop_ge by lia. done.
Qed.

End KernelPipe.
