(* ===== verification/ExampleKernel.v ===== *)
(** * A small concrete kernel

    Three processes over the address space of [UserAccessFacts]: [initproc]
    (root, with a zombie child and an empty pipe open), an ordinary user
    process of UID 1000, and the zombie.  The theorems that have hypotheses
    are applied here, at a state in which the hypotheses hold. *)
From S2P Require Import Prelude IpcApi Quota Timer AuditLog AuditFacts Facade.
From S2P Require Import Address Allocators PageTable PageTableFacts MemorySet Signals UserAccess UserAccessFacts.
From S2P Require Import Pipe PipeFacts Task Kernel SyscallFs FdFacts SignalHandling SyscallProcess.
From S2P Require Import KernelInv CallSpecs.
Import Audit Mem PageTable MemorySet UserAccess Pipe Task Kernel.

(** A file system with no files. *)
#[export] Instance ex_fs : FileSystem unit := {|
  inode := unit;
  fs_find := fun f _ => Ret (None, f);
  fs_create := fun f _ => Ret (None, f);
  fs_clear := fun f _ => Ret f;
  fs_read_at := fun f _ _ _ => Ret ([], f);
  fs_write_at := fun f _ _ _ => Ret (0, f);
  fs_ls := fun f => Ret ([], f);
|}.

Definition ex_pipe_object : IpcObject := {| object_id := 1; object_owner_uid := 0 |}.

Definition ex_security (uid : Z) (q : Quota.QuotaState) : Facade.ProcessSecurityState :=
  Facade.mkSec (Credentials.mkCred uid (if uid =? 0 then cap_all else cap_empty)) q.

Definition ex_base : TaskControlBlockInner :=
  new_inner 0x80505 0x13000 Signals.zero_init
    {| page_table := {| root_ppn := 0x80500; pt_frames := [] |}; areas := [] |}.

Definition ex_init (st : TaskStatus) : TaskControlBlockInner :=
  set_task_status
    (set_security
       (set_fd_table (set_children ex_base [2; 3])
          [Some FStdin; Some FStdout; Some FStdout;
           Some (FPipe (read_end_with_buffer 1 ex_pipe_object));
           Some (FPipe (write_end_with_buffer 1 ex_pipe_object))])
       (ex_security 0 (Quota.mkQuota 5 2 24))) st.

Definition ex_user (st : TaskStatus) : TaskControlBlockInner :=
  set_parent (set_task_status (set_security ex_base (ex_security 1000 Quota.initial)) st) (Some 1).

Definition ex_zombie : TaskControlBlockInner :=
  set_exit_code (set_fd_table (set_task_status (ex_user Zombie) Zombie) []) (-9).

Definition ex_audit : AuditWorld :=
  {| AUDIT_RING := Audit.ring_new;
     aw_timer := {| Timer.CLOCK_FREQ := 10000000; Timer.readings := fun _ => 12340000 |} |}.

Definition ex_tasks (cur : Z) : gmap Z TaskControlBlockInner :=
  {[ 1 := ex_init (if cur =? 1 then Running else Ready);
     2 := ex_user (if cur =? 2 then Running else Ready);
     3 := ex_zombie ]}.

Definition ex_kernel (cur other : Z) : Kernel unit :=
  {| k_fw := {| fw_mem := ex_mem; fw_alloc := Frames.mkFrames 0x80600 0x80700 [] |};
     KERNEL_SPACE := {| page_table := {| root_ppn := 0x80400; pt_frames := [0x80400] |}; areas := [] |};
     PID_ALLOCATOR := Pids.mkPids 4 [];
     k_sched := {| tasks := ex_tasks cur; PID2TCB := {[ 1; 2 ]}; ready_queue := [other]; current := Some cur |};
     k_audit := ex_audit;
     k_io := {| NEXT_PIPE_ID := 2; rings := {[ 1 := set_write_end ring_new 1 ]}; os_inodes := ∅;
                next_inode_key := 0; held := []; fs_state := tt; console_in := []; console_out := [] |} |}.

(** ** The invariant holds *)

Lemma ex_audit_view : sink_view ex_audit [].
Proof.
  split; [apply ring_repr_new|]. split; [vm_compute; congruence|]. intros n. vm_compute. split; congruence.
Qed.

Lemma ex_init_ok st : st <> Zombie -> task_ok (ex_init st).
Proof.
  intros Hst. apply task_ok_alive; [done| |].
  - split; cbn; try lia; try (vm_compute; split; congruence).
    intros fd. do 5 (destruct fd as [|fd]; [reflexivity|]). apply (testbit_high 5); [lia|].
    vm_compute. split; congruence.
  - split; [vm_compute; split; congruence|reflexivity].
Qed.

Lemma ex_user_ok st : st <> Zombie -> task_ok (ex_user st).
Proof.
  intros Hst. apply task_ok_alive; [done|apply fd_quota_initial|].
  split; [vm_compute; split; congruence|reflexivity].
Qed.

Lemma ex_tasks_cases cur p t :
  ex_tasks cur !! p = Some t ->
  (p = 1 /\ t = ex_init (if cur =? 1 then Running else Ready)) \/
  (p = 2 /\ t = ex_user (if cur =? 2 then Running else Ready)) \/ (p = 3 /\ t = ex_zombie).
Proof.
  unfold ex_tasks. rewrite !lookup_insert_Some, lookup_singleton_Some. naive_solver.
Qed.

Lemma ex_tasks_children cur p t c : ex_tasks cur !! p = Some t -> c ∈ children t -> p = 1 /\ (c = 2 \/ c = 3).
Proof.
  intros [[-> ->]|[[-> ->]|[-> ->]]]%ex_tasks_cases; cbn; [|by intros ?%not_elem_of_nil..].
  rewrite !elem_of_cons, elem_of_nil. naive_solver.
Qed.

Lemma ex_status b : (if b : bool then Running else Ready) <> Zombie.
Proof. by destruct b. Qed.

Lemma ex_kinv cur other : (cur = 1 /\ other = 2) \/ (cur = 2 /\ other = 1) -> kinv (ex_kernel cur other).
Proof.
  intros Hc. split; [|exists []; apply ex_audit_view].
  assert (Hrun : forall p, p ∈ runnable (k_sched (ex_kernel cur other)) <-> p = 1 \/ p = 2).
  { intros p. unfold runnable. cbn. rewrite !elem_of_cons, elem_of_nil. naive_solver. }
  split.
  - intros p t Ht. cbn in Ht. apply ex_tasks_cases in Ht as [[-> ->]|[[-> ->]|[-> ->]]].
    + apply ex_init_ok, ex_status.
    + apply ex_user_ok, ex_status.
    + done.
  - unfold runnable. cbn. apply NoDup_cons. rewrite list_elem_of_singleton. split; [lia|apply NoDup_singleton].
  - intros p. rewrite Hrun. cbn. split.
    + intros [-> | ->]; eexists; (split; [reflexivity|apply ex_status]).
    + intros (t & [[-> ->]|[[-> ->]|[-> ->]]]%ex_tasks_cases & Hz); [by left|by right|]. by destruct Hz.
  - intros p. rewrite Hrun. cbn. set_solver.
  - split_and!; [cbn; lia|apply NoDup_nil_2|done].
  - intros p [t Ht]. cbn in Ht. split; [|apply not_elem_of_nil]. cbn.
    apply ex_tasks_cases in Ht as [[-> _]|[[-> _]|[-> _]]]; lia.
  - intros p t c Ht Hch. cbn in Ht. destruct (ex_tasks_children cur p t c Ht Hch) as [_ [-> | ->]]; by eexists.
  - intros p t Ht. cbn in Ht. apply ex_tasks_cases in Ht as [[-> ->]|[[-> ->]|[-> ->]]]; cbn;
      [|apply NoDup_nil_2..]. apply (bool_decide_eq_true_1 _). reflexivity.
  - intros p q tp tq c Hp Hq Hcp Hcq. cbn in *.
    destruct (ex_tasks_children cur p tp c Hp Hcp) as [-> _].
    by destruct (ex_tasks_children cur q tq c Hq Hcq) as [-> _].
  - intros t Ht. cbn in Ht. apply ex_tasks_cases in Ht as [[_ ->]|[[? _]|[? _]]]; [apply ex_status|done..].
Qed.

Definition ex_root : Kernel unit := ex_kernel 1 2.
Definition ex_plain : Kernel unit := ex_kernel 2 1.

Lemma ex_root_running : running ex_root 1 (ex_init Running).
Proof. split; [apply ex_kinv; by left|reflexivity..]. Qed.

Lemma ex_plain_running : running ex_plain 2 (ex_user Running).
Proof. split; [apply ex_kinv; by right|reflexivity..]. Qed.
