(* ===== verification/Security.v ===== *)
(** * Who may do what

    The signal and identity calls, and what a process can still do after it
    gave up root. *)
From S2P Require Import Prelude IpcApi Quota Timer AuditLog AuditFacts Facade.
From S2P Require Import Address Allocators PageTable PageTableFacts MemorySet Signals UserAccess UserAccessFacts Pipe.
From S2P Require Import Task Kernel SyscallFs FdFacts SignalHandling SyscallProcess SyscallAudit.
From S2P Require Import KernelInv SyscallInv ProcessInv CallSpecs AuditCallFacts ExampleKernel.
Import Audit Task Kernel SyscallFs SyscallProcess SyscallAudit.

Section Security.
Context {F : Type} {FS : FileSystem F}.
Implicit Type k : Kernel F.

(** C20: [sys_kill] decides every call.  Signal numbers outside 0..31 give
    EINVAL, unknown or exited targets ESRCH, both without a trace; otherwise
    exactly one audit event records the outcome, which is EPERM when the
    policy refuses, EAGAIN when the signal is already pending, and success
    when its bit, and nothing else in the system, was set. *)
Theorem sys_kill_total k pid t target signum log :
  running k pid t -> sink_view (k_audit k) log ->
  exists k' v, sys_kill k target signum = Ret (k', Returned v) /\
  if bool_decide (0 <= signum <= 31) then
    if bool_decide (target ∈ PID2TCB (k_sched k)) then
      exists tg w ts, k_tasks k !! target = Some tg /\
        let rq := kill_request pid t target tg in
        let out := kill_outcome rq tg signum in
        v = match out with Ok _ => 0 | Err e => ipc_error_to_ret e end /\
        k' = set_audit (kill_effect k target tg signum out) w /\
        sink_view w (log_append log (from_request rq out ts))
    else k' = k /\ v = -3
  else k' = k /\ v = -22.
Proof. apply sys_kill_spec. Qed.

(** [sys_setuid] decides every call: EPERM for a process that is not root,
    EINVAL for a number that is no 32-bit UID; otherwise the UID changes, the
    capabilities are dropped with root and kept only by staying root, the
    quota stays, and the invariant of the process table holds again. *)
Theorem sys_setuid_total k pid t uid :
  running k pid t -> 0 <= uid ->
  exists k' v, sys_setuid k uid = Ret (k', Returned v) /\
  if bool_decide (Credentials.uid (Facade.sec_credentials (security t)) <> 0) then k' = k /\ v = -1
  else if bool_decide (U32_MAX < uid) then k' = k /\ v = -22
  else v = 0 /\ exists t', k' = put_task k pid t' /\ kinv k' /\
    security t' = Facade.mkSec (Credentials.mkCred uid
       (if bool_decide (uid = 0) then Credentials.capabilities (Facade.sec_credentials (security t)) else cap_empty))
       (Facade.sec_quota (security t)).
Proof. apply sys_setuid_spec. Qed.

Lemma running_put k pid t t' :
  running k pid t -> kinv (put_task k pid t') -> running (put_task k pid t') pid t'.
Proof. intros [] Hk. split; [done|done|]. unfold k_tasks. cbn. apply lookup_insert_eq. Qed.

Lemma setuid_nonroot k pid t u :
  running k pid t -> 0 <= u -> Credentials.uid (Facade.sec_credentials (security t)) <> 0 ->
  sys_setuid k u = Ret (k, Returned (-1)).
Proof.
  intros Hr Hu Hn. destruct (sys_setuid_spec k pid t u Hr Hu) as (k' & v & -> & H).
  rewrite bool_decide_eq_true_2 in H by done. by destruct H as [-> ->].
Qed.

Lemma kill_foreign_denied k pid t target tg signum log :
  running k pid t -> sink_view (k_audit k) log ->
  k_tasks k !! target = Some tg -> target ∈ PID2TCB (k_sched k) -> target <> pid ->
  Credentials.uid (Facade.sec_credentials (security t)) <> 0 ->
  Credentials.uid (Facade.sec_credentials (security tg))
    <> Credentials.uid (Facade.sec_credentials (security t)) ->
  0 <= signum <= 31 ->
  exists w ts, sys_kill k target signum = Ret (set_audit k w, Returned (-1)) /\
    sink_view w (log_append log (from_request (kill_request pid t target tg) (Err PermissionDenied) ts)).
Proof.
  intros Hr Hv Htg Hin Hne Hnz Huid Hs.
  destruct (sys_kill_spec k pid t target signum log Hr Hv) as (k' & v & -> & H).
  rewrite !bool_decide_eq_true_2 in H by done. destruct H as (tg' & w & ts & Htg' & -> & -> & Hw).
  assert (tg' = tg) as -> by congruence.
  assert (Ha : Policy.authorize (kill_request pid t target tg) = Err PermissionDenied).
  { destruct (authorize_cases (kill_request pid t target tg)) as [Ha|Ha]; [|done]. exfalso.
    apply (nonroot_signal_iff (Facade.sec_credentials (security t))) in Ha as [?|?]; try congruence.
    by apply (running_cred k pid). }
  exists w, ts. unfold kill_outcome in *. rewrite Ha in *. done.
Qed.

(** C5: giving up root is irreversible.  Once a root process has set a non-zero
    UID, every further [sys_setuid] is refused and changes nothing, every
    signal to a living process of another UID is refused and logged, and
    every read of the audit log is refused and logged. *)
Theorem dropped_privilege_confined k pid t uid log :
  running k pid t -> sink_view (k_audit k) log ->
  Credentials.uid (Facade.sec_credentials (security t)) = 0 -> 0 < uid <= U32_MAX ->
  exists k1 t1, sys_setuid k uid = Ret (k1, Returned 0) /\ running k1 pid t1 /\
    (forall u, 0 <= u -> sys_setuid k1 u = Ret (k1, Returned (-1))) /\
    (forall target tg signum, k_tasks k1 !! target = Some tg -> target ∈ PID2TCB (k_sched k1) ->
       target <> pid -> Credentials.uid (Facade.sec_credentials (security tg)) <> uid -> 0 <= signum <= 31 ->
       exists w ts, sys_kill k1 target signum = Ret (set_audit k1 w, Returned (-1)) /\
         sink_view w (log_append log (from_request (kill_request pid t1 target tg) (Err PermissionDenied) ts))) /\
    (forall ptr capacity after,
       exists w ts, sys_audit_read k1 ptr capacity after = Ret (set_audit k1 w, Returned (-1)) /\
         sink_view w (log_append log
           (from_control_failure CtlAuditRead (subject_of pid (security t1)) capacity PermissionDenied ts))).
Proof.
  intros Hr Hv H0 Hu. destruct (sys_setuid_spec k pid t uid Hr) as (k1 & v & E & H); [lia|].
  rewrite bool_decide_eq_false_2 in H by (intros Hn; by apply Hn).
  rewrite bool_decide_eq_false_2 in H by lia. destruct H as (-> & t1 & -> & Hk1 & Hs).
  rewrite bool_decide_eq_false_2 in Hs by lia.
  pose proof (running_put k pid t t1 Hr Hk1) as Hr1.
  assert (Huid : Credentials.uid (Facade.sec_credentials (security t1)) = uid) by (by rewrite Hs).
  exists (put_task k pid t1), t1. split_and!; [done|done| | |].
  - intros u Hu'. apply (setuid_nonroot _ pid t1); [done|done|]. lia.
  - intros target tg signum Htg Hin Hne Hfor Hsig. apply kill_foreign_denied; try done; rewrite Huid; [lia|done].
  - intros ptr capacity after. apply sys_audit_read_denied; [done|done|].
    unfold check_permission. cbn. rewrite Hs. cbn. destruct (Z.eqb_spec uid 0); [lia|done].
Qed.

End Security.
