(* ===== verification/SignalFacts.v ===== *)
(** * Delivering signals to user handlers

    The trap context around a handler: what the handler is entered with, what
    [sys_sigreturn] restores, and where the single backup slot and the early
    return of [check_pending_signals] fall short. *)
From S2P Require Import Prelude IpcApi Quota Timer AuditLog AuditFacts Facade.
From S2P Require Import Address Allocators PageTable MemorySet Signals UserAccess Pipe Task Kernel.
From S2P Require Import SyscallFs FdFacts SignalHandling SyscallProcess SyscallAudit Trap.
From S2P Require Import KernelInv SyscallInv ProcessInv CallSpecs ExampleKernel.
Import Mem Signals Task Kernel SyscallFs SignalHandling SyscallProcess Trap.

(** ** Registers *)

Lemma set_x_get_x cx i : (Z.to_nat i < length (cx_x cx))%nat -> set_x cx i (get_x cx i) = cx.
Proof.
  intros Hi. unfold set_x, get_x. destruct cx as [xs a b c d e]; cbn [cx_x sstatus sepc kernel_satp kernel_sp trap_handler] in *.
  f_equal. apply list_insert_id. rewrite nth_lookup. by destruct (lookup_lt_is_Some_2 xs (Z.to_nat i) Hi) as [v ->].
Qed.

Lemma trap_cx_wf_get cx i : trap_cx_wf cx -> 0 <= i < 32 -> in_width 64 (get_x cx i).
Proof.
  intros [Hl Hw] Hi. unfold get_x. destruct (lookup_lt_is_Some_2 (cx_x cx) (Z.to_nat i)) as [v Hv]; [lia|].
  rewrite (nth_lookup_Some _ _ _ v Hv). unfold trap_cx_words in Hw. apply Forall_app in Hw as [Hw _].
  exact (Forall_lookup_1 _ _ _ _ Hw Hv).
Qed.

Lemma trap_cx_wf_set_x cx i v : trap_cx_wf cx -> in_width 64 v -> trap_cx_wf (set_x cx i v).
Proof.
  intros [Hl Hw] Hv. split; [by cbn; rewrite length_insert|]. unfold trap_cx_words in *. cbn in *.
  apply Forall_app in Hw as [Hx Hr]. apply Forall_app. split; [|done]. by apply Forall_insert.
Qed.

Lemma trap_cx_wf_set_sepc cx v : trap_cx_wf cx -> in_width 64 v -> trap_cx_wf (set_sepc cx v).
Proof.
  intros [Hl Hw] Hv. split; [done|]. unfold trap_cx_words in *. cbn in *.
  apply Forall_app in Hw as [Hx Hr]. apply Forall_app. split; [done|].
  rewrite !Forall_cons in *. naive_solver.
Qed.

Lemma of_to_signed64 v : in_width 64 v -> of_signed 64 (as_isize v) = v.
Proof.
  intros Hv. unfold of_signed, as_isize, to_signed. unfold in_width in Hv.
  destruct (Z.ltb_spec v (2 ^ (64 - 1))).
  - by rewrite Z.mod_small.
  - rewrite <- (Z_mod_plus_full _ 1). replace (v - 2 ^ 64 + 1 * 2 ^ 64) with v by lia. by rewrite Z.mod_small.
Qed.

Section SignalFacts.
Context {F : Type} {FS : FileSystem F}.
Variable P : Platform.
Variable read_fuel : nat.
Implicit Type k : Kernel F.

Definition trap_cx_of k (t : TaskControlBlockInner) : TrapContext := load_trap_cx (k_mem k) (trap_cx_ppn t).

Lemma running_put_same k pid t t' m :
  running k pid t -> task_status t' = task_status t -> children t' = children t -> fd_table t' = fd_table t ->
  security t' = security t -> running (set_mem (put_task k pid t') m) pid t'.
Proof.
  intros Hr Hs Hc Hf Hsec. destruct (kinv_current k pid t) as (Hz & Hq & Hcr); [apply Hr..|].
  assert (Hk : kinv (put_task k pid t')).
  { apply (kinv_put_fds k pid t); try apply Hr; try done; by rewrite ?Hf, Hsec. }
  split; [exact Hk|apply Hr|]. unfold k_tasks. cbn. apply lookup_insert_eq.
Qed.

(** Entering a handler. *)
Lemma call_user_handler_spec k pid t sig signal a :
  running k pid t -> 0 <= sig <= 31 -> signal_actions t !! Z.to_nat sig = Some a ->
  in_width 64 (handler a) -> handler a <> 0 -> trap_cx_wf (trap_cx_of k t) ->
  exists k1 t1, call_user_signal_handler k sig signal = Ret k1 /\ running k1 pid t1 /\
    trap_cx_of k1 t1 = set_x (set_sepc (trap_cx_of k t) (handler a)) 10 sig /\
    trap_ctx_backup t1 = Some (trap_cx_of k t) /\ trap_cx_ppn t1 = trap_cx_ppn t /\
    handling_sig t1 = sig /\ signals t1 = sig_toggle (signals t) signal.
Proof.
  intros Hr Hsig Ha Hw Hh Hcx. unfold call_user_signal_handler.
  rewrite (running_current_inner _ _ _ Hr). cbn [mbind outcome_bind]. rewrite (index_Ret _ _ a Ha).
  cbn [mbind outcome_bind]. rewrite (proj2 (Z.eqb_neq _ _) Hh). cbn [negb].
  eexists _, _. split; [done|]. split; [by apply (running_put_same k pid t)|].
  split; [|done]. apply (load_store_trap_cx (k_mem k) (trap_cx_ppn t)).
  apply trap_cx_wf_set_x; [by apply trap_cx_wf_set_sepc|]. unfold in_width. lia.
Qed.

(** [sys_sigreturn] through the trap handler's system-call arm: the saved
    context comes back whole, [sepc] and the result register included. *)
Lemma sigreturn_ecall k pid t e cx :
  running k pid t -> trap_ctx_backup t = Some cx -> trap_cx_wf cx -> trap_cx_wf (trap_cx_of k t) ->
  get_x (trap_cx_of k t) 17 = SYSCALL_SIGRETURN ->
  exists k1 t1 v, handle_ecall P read_fuel k e = Ret (k1, Returned v) /\ running k1 pid t1 /\
    trap_cx_of k1 t1 = cx /\ handling_sig t1 = -1 /\ trap_ctx_backup t1 = Some cx /\
    trap_cx_ppn t1 = trap_cx_ppn t /\ signals t1 = signals t.
Proof.
  intros Hr Hb Hcx Hcur H17. unfold handle_ecall, current_trap_cx.
  rewrite (running_current_inner _ _ _ Hr). cbn [mbind outcome_bind]. fold (trap_cx_of k t).
  set (cx1 := set_sepc (trap_cx_of k t) _). assert (H17' : get_x cx1 17 = SYSCALL_SIGRETURN) by exact H17.
  rewrite H17'. set (k0 := set_mem k _). change (syscall P read_fuel k0 e SYSCALL_SIGRETURN _ _ _) with (sys_sigreturn k0).
  unfold sys_sigreturn. change (current_task k0) with (current_task k). rewrite (run_current _ _ _ Hr).
  change (task_inner k0 pid) with (task_inner k pid). rewrite (running_task_inner _ _ _ Hr).
  cbn [mbind outcome_bind]. rewrite Hb. cbn [unwrap mbind outcome_bind ret].
  set (t1 := set_handling_sig t (-1)).
  assert (Hr1 : forall m, running (set_mem (put_task k0 pid t1) m) pid t1).
  { intros m. by apply (running_put_same k pid t). }
  set (m1 := store_trap_cx (k_mem (put_task k0 pid t1)) (trap_cx_ppn t) cx).
  cbn [mbind outcome_bind]. rewrite (running_current_inner _ pid t1 (Hr1 m1)). cbn [mbind outcome_bind].
  assert (El : load_trap_cx (k_mem (set_mem (put_task k0 pid t1) m1)) (trap_cx_ppn t1) = cx).
  { unfold m1. by apply load_store_trap_cx. }
  rewrite El, of_to_signed64 by (by apply trap_cx_wf_get).
  rewrite set_x_get_x by (rewrite (proj1 Hcx); lia).
  eexists _, t1, _. split; [done|]. split; [by apply Hr1|]. split; [|done].
  by apply (load_store_trap_cx m1 (trap_cx_ppn t)).
Qed.

(** C32: a user handler runs on a copy and gives the original back.  Delivering
    a signal enters the handler with the signal number in [a0] and every
    other register as it was; and from any later state of the process in
    which its backup is still there, the [sigreturn] system call restores the
    interrupted context exactly, [sepc], [a0] and [sstatus] included, and
    marks the handler as finished. *)
Theorem signal_handler_roundtrip k pid t sig a :
  running k pid t -> 0 <= sig <= 31 -> signal_actions t !! Z.to_nat sig = Some a ->
  in_width 64 (handler a) -> handler a <> 0 -> trap_cx_wf (trap_cx_of k t) ->
  exists k1 t1, call_user_signal_handler k sig (2 ^ sig) = Ret k1 /\ running k1 pid t1 /\
    trap_cx_of k1 t1 = set_x (set_sepc (trap_cx_of k t) (handler a)) 10 sig /\ handling_sig t1 = sig /\
    forall k2 t2 e, running k2 pid t2 -> trap_ctx_backup t2 = trap_ctx_backup t1 ->
      trap_cx_wf (trap_cx_of k2 t2) -> get_x (trap_cx_of k2 t2) 17 = SYSCALL_SIGRETURN ->
      exists k3 t3 v, handle_ecall P read_fuel k2 e = Ret (k3, Returned v) /\ running k3 pid t3 /\
        trap_cx_of k3 t3 = trap_cx_of k t /\ handling_sig t3 = -1.
Proof.
  intros Hr Hsig Ha Hw Hh Hcx.
  destruct (call_user_handler_spec k pid t sig (2 ^ sig) a Hr Hsig Ha Hw Hh Hcx)
    as (k1 & t1 & E & Hr1 & Hentry & Hb & _ & Hhs & _).
  exists k1, t1. split_and!; try done. intros k2 t2 e Hr2 Hb2 Hcx2 H17.
  destruct (sigreturn_ecall k2 pid t2 e (trap_cx_of k t)) as (k3 & t3 & v & E3 & Hr3 & Hc3 & Hh3 & _);
    try done; [by rewrite Hb2|]. by exists k3, t3, v.
Qed.

(** A second signal that arrives while a handler runs overwrites the only
    backup: after both handlers have called [sigreturn], the process is back
    inside the first handler, where the second signal interrupted it, and the
    context from before the first signal is gone. *)
Theorem nested_signal_loses_context k pid t sig a e :
  running k pid t -> 0 <= sig <= 31 -> signal_actions t !! Z.to_nat sig = Some a ->
  in_width 64 (handler a) -> handler a <> 0 -> trap_cx_wf (trap_cx_of k t) ->
  forall cx0, trap_ctx_backup t = Some cx0 -> trap_cx_of k t <> cx0 ->
  exists k1 t1, call_user_signal_handler k sig (2 ^ sig) = Ret k1 /\ running k1 pid t1 /\
    trap_ctx_backup t1 = Some (trap_cx_of k t) /\
    forall m1, trap_cx_wf (trap_cx_of (set_mem k1 m1) t1) ->
      get_x (trap_cx_of (set_mem k1 m1) t1) 17 = SYSCALL_SIGRETURN ->
      exists k2 t2 v2, handle_ecall P read_fuel (set_mem k1 m1) e = Ret (k2, Returned v2) /\
        trap_cx_of k2 t2 = trap_cx_of k t /\
        forall m2, trap_cx_wf (trap_cx_of (set_mem k2 m2) t2) ->
          get_x (trap_cx_of (set_mem k2 m2) t2) 17 = SYSCALL_SIGRETURN ->
          exists k3 t3 v3, handle_ecall P read_fuel (set_mem k2 m2) e = Ret (k3, Returned v3) /\
            trap_cx_of k3 t3 = trap_cx_of k t /\ trap_cx_of k3 t3 <> cx0.
Proof.
  intros Hr Hsig Ha Hw Hh Hcx cx0 _ Hne.
  destruct (call_user_handler_spec k pid t sig (2 ^ sig) a Hr Hsig Ha Hw Hh Hcx)
    as (k1 & t1 & E & Hr1 & _ & Hb & _). exists k1, t1. split_and!; [done..|].
  intros m1 Hc1 H1. assert (Hr1' : running (set_mem k1 m1) pid t1) by (destruct Hr1; split; done).
  destruct (sigreturn_ecall _ pid t1 e (trap_cx_of k t) Hr1' Hb Hcx Hc1 H1)
    as (k2 & t2 & v2 & E2 & Hr2 & Hx2 & _ & Hb2 & _). exists k2, t2, v2. split_and!; [done..|].
  intros m2 Hc2 H2. assert (Hr2' : running (set_mem k2 m2) pid t2) by (destruct Hr2; split; done).
  destruct (sigreturn_ecall _ pid t2 e (trap_cx_of k t) Hr2' Hb2 Hcx Hc2 H2)
    as (k3 & t3 & v3 & E3 & _ & Hx3 & _). exists k3, t3, v3. by rewrite Hx3.
Qed.

(** ** Signals without a handler *)

(** [s] is pending and deliverable, is left to the process to handle, has no
    handler, and no smaller signal is pending. *)
Record unhandled (t : TaskControlBlockInner) (s : Z) : Prop := {
  uh_range : 0 <= s <= 31;
  uh_user : is_kernel_signal (2 ^ s) = false;
  uh_pending : Z.testbit (signals t) s = true;
  uh_unmasked : Z.testbit (signal_mask t) s = false;
  uh_idle : handling_sig t = -1;
  uh_action : exists a, signal_actions t !! Z.to_nat s = Some a /\ handler a = 0;
  uh_lowest : forall j, 0 <= j < s -> Z.testbit (signals t) j = false;
}.

Lemma check_signal_not_pending k pid t j :
  running k pid t -> 0 <= j <= 31 -> Z.testbit (signals t) j = false -> check_signal k j = Ret (k, false).
Proof.
  intros Hr Hj Hb. unfold check_signal. rewrite (running_current_inner _ _ _ Hr). cbn [mbind outcome_bind].
  rewrite sig_flag_of by (unfold MAX_SIG; lia). cbn [unwrap mbind outcome_bind].
  rewrite <- Z.shiftl_1_l, sig_contains_bit by lia. by rewrite Hb.
Qed.

Lemma check_signals_skip k pid t sigs rest :
  running k pid t -> Forall (fun j => 0 <= j <= 31 /\ Z.testbit (signals t) j = false) sigs ->
  check_signals k (sigs ++ rest) = check_signals k rest.
Proof.
  intros Hr Hs. induction Hs as [|j sigs [Hj Hb] Hs IH]; [done|]. cbn [app check_signals].
  rewrite (check_signal_not_pending k pid t j Hr Hj Hb). cbn [mbind outcome_bind]. exact IH.
Qed.

Lemma check_signal_unhandled k pid t s :
  running k pid t -> unhandled t s -> check_signal k s = Ret (k, true).
Proof.
  intros Hr [Hs Hu Hp Hm Hi (a & Ha & Hh) _]. unfold check_signal.
  rewrite (running_current_inner _ _ _ Hr). cbn [mbind outcome_bind].
  rewrite sig_flag_of by (unfold MAX_SIG; lia). cbn [unwrap mbind outcome_bind].
  rewrite <- Z.shiftl_1_l, !sig_contains_bit by lia. rewrite Hp, Hm, Z.shiftl_1_l. cbn [negb andb].
  unfold masked_by_handler. rewrite Hi. cbn [Z.eqb Pos.eqb mbind outcome_bind negb]. rewrite Hu.
  unfold call_user_signal_handler. rewrite (running_current_inner _ _ _ Hr). cbn [mbind outcome_bind].
  rewrite (index_Ret _ _ a Ha). cbn [mbind outcome_bind]. by rewrite Hh.
Qed.

(** Nothing above an unhandled signal is looked at. *)
Lemma check_pending_unhandled k pid t s :
  running k pid t -> unhandled t s -> check_pending_signals k = Ret k.
Proof.
  intros Hr Hu. pose proof (uh_range _ _ Hu) as Hs. unfold check_pending_signals, MAX_SIG.
  replace (31 + 1) with (s + (1 + (31 - s))) by lia. rewrite !seqZ_app by lia.
  rewrite (check_signals_skip k pid t); [|done|].
  - cbn [seqZ fmap list_fmap seq app]. change (seqZ (0 + s) 1) with [Z.of_nat 0 + (0 + s)].
    replace (Z.of_nat 0 + (0 + s)) with s by lia. cbn [app check_signals].
    by rewrite (check_signal_unhandled k pid t s Hr Hu).
  - apply Forall_forall. intros j Hj%elem_of_seqZ. split; [lia|]. apply (uh_lowest _ _ Hu). lia.
Qed.

(** A process stopped by SIGSTOP with such a signal pending. *)
Definition stuck (s : Z) (t : TaskControlBlockInner) : Prop :=
  unhandled t s /\ frozen t = true /\ killed t = false.

(** A task to which the signals of [b] are sent: they are pending too, and what
    decides their delivery stays. *)
Record receives (b : Z) (t t' : TaskControlBlockInner) : Prop := {
  rc_signals : signals t' = Z.lor (signals t) b;
  rc_mask : signal_mask t' = signal_mask t;
  rc_handling : handling_sig t' = handling_sig t;
  rc_actions : signal_actions t' = signal_actions t;
  rc_frozen : frozen t' = frozen t;
  rc_killed : killed t' = killed t;
}.

(** The other tasks keep the process table well formed, send [pid] the signals
    of [b], none below [s], and return when it is the next to run. *)
Record sends (pid s : Z) (f : Kernel F -> Kernel F) (b : Z) : Prop := {
  sn_rely : rely f;
  sn_above : forall j, 0 <= j < s -> Z.testbit b j = false;
  sn_task : forall k t, k_tasks k !! pid = Some t -> pid ∈ ready_queue (k_sched k) ->
    exists t' q, k_tasks (f k) !! pid = Some t' /\ receives b t t' /\ ready_queue (k_sched (f k)) = pid :: q;
}.

Lemma stuck_receives s b t t' :
  stuck s t -> receives b t t' -> (forall j, 0 <= j < s -> Z.testbit b j = false) -> stuck s t'.
Proof.
  intros ([Hs Hu Hp Hm Hi Ha Hl] & Hf & Hk) [Es Em Eh Eac Ef Ek] Hb. split; [|by rewrite Ef, Ek].
  split; rewrite ?Es, ?Em, ?Eh, ?Eac; try done.
  - by rewrite Z.lor_spec, Hp.
  - intros j Hj. by rewrite Z.lor_spec, Hl, Hb.
Qed.

Lemma stuck_status s t st : stuck s t -> stuck s (set_task_status t st).
Proof. intros [[] ?]. split; [split; assumption|assumption]. Qed.

Lemma suspend_stuck k pid t s f b :
  running k pid t -> stuck s t -> sends pid s f b ->
  exists k' t', suspend_current_and_run_next k f = Ret k' /\ running k' pid t' /\ stuck s t' /\ signals t' = Z.lor (signals t) b.
Proof.
  intros Hr Hs [Hf Hb Hl]. pose proof Hr as [Hk Hc Ht].
  set (k1 := add_task (put_task (set_current k None) pid (set_task_status t Ready)) pid).
  assert (E1 : suspend_current k = Ret k1).
  { unfold suspend_current, take_current_task. unfold current_task in Hc. rewrite Hc. cbn [unwrap mbind outcome_bind].
    change (task_inner (set_current k None) pid) with (task_inner k pid). by rewrite (running_task_inner _ _ _ Hr). }
  assert (Hi : k_tasks k1 !! pid = Some (set_task_status t Ready)) by (apply lookup_insert_eq).
  assert (Hq : pid ∈ ready_queue (k_sched k1)).
  { cbn. apply elem_of_app. right. by apply list_elem_of_singleton. }
  assert (Hs1 : stuck s (set_task_status t Ready)) by (by apply stuck_status).
  destruct (Hl k1 _ Hi Hq) as (t2 & q & Ht2 & Hrc & Eq). pose proof (stuck_receives _ _ _ _ Hs1 Hrc Hb) as Hs2.
  assert (E : suspend_current_and_run_next k f = Ret
     (set_current (put_task (fetch_task (f k1)).2 pid (set_task_status t2 Running)) (Some pid))).
  { unfold suspend_current_and_run_next. rewrite E1. cbn [mbind outcome_bind].
    unfold run_tasks_round, fetch_task. rewrite Eq. unfold task_inner, k_tasks. cbn.
    unfold k_tasks in Ht2. rewrite Ht2. cbn. unfold current_task in *. cbn. by rewrite Hc, bool_decide_eq_true_2. }
  exists (set_current (put_task (fetch_task (f k1)).2 pid (set_task_status t2 Running)) (Some pid)),
    (set_task_status t2 Running).
  split; [exact E|]. split_and!; [split| |].
  - exact (kinv_suspend_and_run _ _ _ Hk Hf E).
  - done.
  - apply lookup_insert_eq.
  - by apply stuck_status.
  - exact (rc_signals _ _ _ Hrc).
Qed.

(** C33: a stopped process whose lowest pending signal [s] is deliverable and
    has no handler stays stopped, whatever signals above [s] it is sent.  While
    it is frozen, [check_pending_signals] returns at [s] and looks at nothing
    above it: not at a SIGKILL when [s] is below 9, nor at a SIGCONT when it is
    below 18.  [handle_signals] goes round its loop at each of its turns, the
    process never returns to user mode, and every signal sent stays pending. *)
Theorem frozen_process_stuck pid s e bs : forall k t,
  running k pid t -> stuck s t -> Forall2 (sends pid s) e bs ->
  exists k' t', handle_signals k e = Ret (k', false) /\ running k' pid t' /\
    frozen t' = true /\ killed t' = false /\ signals t' = foldl Z.lor (signals t) bs.
Proof.
  revert bs. induction e as [|f e IH]; intros bs k t Hr Hs He; pose proof Hs as (Hu & Hf & Hk); cbn [handle_signals];
    rewrite (check_pending_unhandled k pid t s Hr Hu); cbn [mbind outcome_bind];
    rewrite (running_current_inner _ _ _ Hr); cbn [mbind outcome_bind]; rewrite Hf, Hk; cbn [negb orb].
  - apply Forall2_nil_inv_l in He as ->. by exists k, t.
  - apply Forall2_cons_inv_l in He as (b & bs' & Hf1 & He & ->).
    destruct (suspend_stuck k pid t s f b Hr Hs Hf1) as (k1 & t1 & -> & Hr1 & Hs1 & Esig).
    cbn [mbind outcome_bind foldl]. rewrite <- Esig. exact (IH bs' k1 t1 Hr1 Hs1 He).
Qed.

End SignalFacts.
