(* ===== verification/Witnesses.v ===== *)
(** * The theorems at concrete states

    Each theorem with hypotheses is applied once, at a state of
    [ExampleKernel] (or a smaller one) in which they hold. *)
From S2P Require Import Prelude IpcApi Quota Timer AuditLog AuditFacts Facade.
From S2P Require Import Address Allocators PageTable PageTableFacts MemorySet Signals UserAccess UserAccessFacts.
From S2P Require Import Pipe PipeFacts Task Kernel SyscallFs FdFacts SignalHandling SyscallProcess SyscallAudit Trap.
From S2P Require Import KernelInv SyscallInv PipeCallFacts ProcessInv LifecycleInv TrapInv CallSpecs AuditCallFacts.
From S2P Require Import KernelPipe ExampleKernel Security SignalFacts.
Import Audit Mem PageTable UserAccess Pipe Signals Task Kernel SyscallFs SignalHandling SyscallProcess SyscallAudit Trap.

(** ** The address space of the examples *)

Lemma all_indexes (P : Z -> bool) : forallb P (seqZ 0 512) = true -> forall i, idx_ok i -> P i = true.
Proof.
  intros H i Hi. apply (proj1 (forallb_forall _ _) H). apply list_elem_of_In, elem_of_seqZ. unfold idx_ok in Hi. lia.
Qed.

Definition ex_lab : gmap Z (list Z) := {[ 0x80500 := []; 0x80501 := [0]; 0x80502 := [0; 0] ]}.

Lemma ex_lab_cases f p :
  ex_lab !! f = Some p ->
  f = 0x80500 /\ p = [] \/ f = 0x80501 /\ p = [0] \/ f = 0x80502 /\ p = [0; 0].
Proof. unfold ex_lab. rewrite !lookup_insert_Some, lookup_singleton_Some. naive_solver. Qed.

(** Only entry 0 is used in the two upper tables. *)
Lemma ex_upper f i : f = 0x80500 \/ f = 0x80501 -> idx_ok i -> is_valid (entry ex_mem f i) = true -> i = 0.
Proof.
  intros Hf Hi Hv. pose (Q := fun g j => negb (is_valid (entry ex_mem g j)) || (j =? 0)).
  assert (HQ : Q f i = true).
  { destruct Hf as [-> | ->]; revert i Hi Hv; intros i Hi _; revert i Hi; apply all_indexes; vm_compute; reflexivity. }
  unfold Q in HQ. rewrite Hv in HQ. by apply Z.eqb_eq.
Qed.

(** The leaf table maps page 0x10 writable and page 0x11 read-only. *)
Lemma ex_leaf i :
  idx_ok i -> entry_allows (entry ex_mem 0x80502 i) true = true -> i = 0x10.
Proof.
  intros Hi Hv. pose (Q := fun j => negb (entry_allows (entry ex_mem 0x80502 j) true) || (j =? 0x10)).
  assert (HQ : Q i = true) by (revert i Hi Hv; intros i Hi _; revert i Hi; apply all_indexes; vm_compute; reflexivity).
  unfold Q in HQ. rewrite Hv in HQ. by apply Z.eqb_eq.
Qed.

(** An entry that is not valid was never written. *)
Lemma ex_empty f i :
  is_Some (ex_lab !! f) -> idx_ok i -> is_valid (entry ex_mem f i) = false -> entry ex_mem f i = 0.
Proof.
  intros [p Hf] Hi Hv. pose (Q := fun g j => is_valid (entry ex_mem g j) || (entry ex_mem g j =? 0)).
  assert (HQ : Q f i = true).
  { destruct (ex_lab_cases f p Hf) as [[-> _]|[[-> _]|[-> _]]]; revert i Hi Hv; intros i Hi _; revert i Hi;
      apply all_indexes; vm_compute; reflexivity. }
  unfold Q in HQ. rewrite Hv in HQ. by apply Z.eqb_eq.
Qed.

Lemma ex_pt_wf : pt_wf ex_mem 0x80500 [0x80500; 0x80501; 0x80502] ex_lab.
Proof.
  split.
  - reflexivity.
  - intros f. rewrite !elem_of_cons, elem_of_nil. split.
    + intros [-> | [-> | [-> | []]]]; by eexists.
    + intros [p [[-> _]|[[-> _]|[-> _]]]%ex_lab_cases]; tauto.
  - apply (bool_decide_eq_true_1 _). reflexivity.
  - intros f [p [[-> _]|[[-> _]|[-> _]]]%ex_lab_cases]; split; vm_compute; congruence.
  - intros f g p [[-> ->]|[[-> ->]|[-> ->]]]%ex_lab_cases [[-> E]|[[-> E]|[-> E]]]%ex_lab_cases; congruence.
  - intros f p [[-> ->]|[[-> ->]|[-> ->]]]%ex_lab_cases; cbn; lia.
  - intros f p i [[-> ->]|[[-> ->]|[-> ->]]]%ex_lab_cases Hp Hi Hv; [..|cbn in Hp; lia];
      apply ex_upper in Hv as ->; auto; vm_compute; reflexivity.
  - intros c p i [[-> E]|[[-> E]|[-> E]]]%ex_lab_cases.
    + by destruct p.
    + destruct p as [|? [|? ?]]; simplify_eq/=. split; [split; vm_compute; congruence|].
      exists 0x80500. split_and!; vm_compute; reflexivity.
    + destruct p as [|? [|? [|? ?]]]; simplify_eq/=. split; [split; vm_compute; congruence|].
      exists 0x80501. split_and!; vm_compute; reflexivity.
  - apply ex_empty.
Qed.

Lemma ex_user_space : user_space ex_mem ex_token.
Proof.
  split. exists [0x80500; 0x80501; 0x80502], ex_lab.
  change (root_ppn (from_token ex_token)) with 0x80500. split; [exact ex_pt_wf|].
  intros a f (e & He & Hw) [p Hf]. unfold phys_of. rewrite He. cbn [default from_option].
  destruct (indexes_ok (a / 4096)) as (i0 & i1 & i2 & E & _ & _ & Hi2). unfold translate in He.
  destruct (find_pte ex_mem (from_token ex_token) (a / 4096)) as [slot|] eqn:Es; [|done]. injection He as <-.
  destruct (proj1 (find_pte_leaf ex_mem (from_token ex_token) _ ex_lab _ i0 i1 i2 slot ex_pt_wf E) Es) as (c & Hc & ->).
  fold (entry ex_mem c i2) in *.
  apply ex_lab_cases in Hc as [[_ Hc]|[[_ Hc]|[-> _]]]; [done|done|]. apply ex_leaf in Hw as ->; [|done].
  assert (Eb : frame_base (pte_ppn (id (entry ex_mem 0x80502 16))) = 0x80503000) by (vm_compute; reflexivity).
  rewrite Eb. pose proof (Z.mod_pos_bound a 4096 ltac:(lia)).
  unfold in_frame. apply ex_lab_cases in Hf as [[-> _]|[[-> _]|[-> _]]]; lia.
Qed.

Lemma ex_range ptr len w :
  in_width 64 ptr -> in_width 64 len -> check_user_range ex_mem ex_token ptr len w = Ret true ->
  range_ok ex_mem ex_token ptr len w.
Proof.
  intros Hp Hl E. destruct (check_user_range_spec ex_mem ex_token ptr len w Hp Hl) as (b & E' & Hb).
  rewrite E in E'. injection E' as <-. by apply Hb.
Qed.

(** ** Descriptors *)

Lemma sys_close_total_witness :
  exists k' t', sys_close ex_root 3 = Ret (k', Returned 0) /\
    fd_table t' = <[3%nat := None]> (fd_table (ex_init Running)) /\ k' = put_task ex_root 1 t'.
Proof.
  destruct (sys_close_total ex_root 1 (ex_init Running) 3 ex_root_running) as (k' & v & E & -> & t' & He & Ht).
  exists k', t'. split_and!; [exact E|exact Ht|apply He].
Defined.

Lemma sys_dup_total_witness :
  exists k' t', sys_dup ex_root 3 = Ret (k', Returned 5) /\ k' = put_task ex_root 1 t'.
Proof.
  destruct (sys_dup_total ex_root 1 (ex_init Running) 3 ex_root_running) as (k' & v & E & nfd & t' & -> & He & Hi).
  exists k', t'. split; [|apply He]. change (Z.of_nat 3) with 3 in E.
  assert (E' : exists k2, sys_dup ex_root 3 = Ret (k2, Returned 5)) by (eexists; vm_compute; reflexivity).
  destruct E' as [k2 E']. rewrite E' in E. injection E as -> _. exact E'.
Defined.

(** ** Authority *)

Lemma sys_kill_total_witness :
  exists k' v, sys_kill ex_plain 1 9 = Ret (k', Returned v) /\ v = -1.
Proof.
  destruct (sys_kill_total ex_plain 2 (ex_user Running) 1 9 [] ex_plain_running ex_audit_view)
    as (k' & v & E & H). exists k', v. split; [exact E|].
  rewrite !bool_decide_eq_true_2 in H by (set_solver || lia). destruct H as (tg & w & ts & Htg & -> & _).
  assert (tg = ex_init Ready) as -> by (injection Htg; auto). reflexivity.
Defined.

Lemma sys_setuid_total_witness :
  sys_setuid ex_plain 0 = Ret (ex_plain, Returned (-1)) /\
  exists k', sys_setuid ex_root 1000 = Ret (k', Returned 0).
Proof.
  split.
  - destruct (sys_setuid_total ex_plain 2 (ex_user Running) 0 ex_plain_running) as (k' & v & E & H); [lia|].
    destruct H as [-> ->]. exact E.
  - destruct (sys_setuid_total ex_root 1 (ex_init Running) 1000 ex_root_running) as (k' & v & E & H); [lia|].
    destruct H as [-> _]. exists k'. exact E.
Defined.

Lemma dropped_privilege_confined_witness :
  exists k1, sys_setuid ex_root 1000 = Ret (k1, Returned 0) /\
    sys_setuid k1 0 = Ret (k1, Returned (-1)).
Proof.
  destruct (dropped_privilege_confined ex_root 1 (ex_init Running) 1000 [] ex_root_running ex_audit_view)
    as (k1 & t1 & E & _ & H & _); [reflexivity|unfold U32_MAX; lia|].
  exists k1. split; [exact E|apply H; lia].
Defined.

(** ** The audit calls *)

Lemma sys_audit_read_total_witness :
  exists k' v, sys_audit_read ex_root 0x10000 4 0 = Ret (k', Returned v).
Proof.
  destruct (sys_audit_read_total ex_root 1 (ex_init Running) [] 0x10000 4 0 ex_root_running ex_audit_view ex_user_space)
    as (m' & out & k' & v & E & _); [vm_compute; split; congruence..|]. exists k', v. exact E.
Defined.

Lemma sys_ipc_stat_total_witness :
  exists k' v, sys_ipc_stat ex_root 0x10000 80 0 = Ret (k', Returned v).
Proof.
  destruct (sys_ipc_stat_total ex_root 1 (ex_init Running) [] 0x10000 80 0 ex_root_running ex_audit_view)
    as (m' & out & k' & v & E & _); [vm_compute; split; congruence|]. exists k', v. exact E.
Defined.

(** ** Pipes *)

Lemma sys_pipe_commits_or_rolls_back_witness :
  exists k' (out : IpcResult Z), sys_pipe ex_root 0x10000
    = Ret (k', Returned (match out with Ok _ => 0 | Err e => ipc_error_to_ret e end)) /\
    match out with
    | Ok _ => pipe_created ex_root k' 1 (ex_init Running) 0x10000
    | Err e => pipe_rolled_back ex_root k' 1 (ex_init Running) 0x10000 e
    end.
Proof.
  destruct (sys_pipe_commits_or_rolls_back ex_root 1 (ex_init Running) 0x10000 [])
    as (k' & out & ts & E & _ & _ & H);
    [apply ex_kinv; by left|reflexivity|reflexivity|apply ex_audit_view|vm_compute; split; congruence|].
  exists k', out. exact (conj E H).
Defined.

Lemma pipe_syscall_roundtrip_witness :
  exists k1 k2, sys_write ex_root 4 0x10000 5 [] = Ret (k1, Returned 5) /\
    sys_read k1 3 0x10100 5 [] = Ret (k2, Returned 5).
Proof.
  destruct (pipe_syscall_roundtrip ex_root 1 (ex_init Running) 3 4 1 ex_pipe_object 0x10000 0x10100 5 []
              (set_write_end ring_new 1)) as (k1 & k2 & r' & ts1 & ts2 & E1 & E2 & _);
    [exact ex_root_running|apply ex_audit_view|reflexivity|reflexivity| |reflexivity|lia
    |vm_compute; split; congruence|vm_compute; split; congruence| | | |].
  - split; [reflexivity|]. split; [exact (proj1 (ring_new_wf 1))|reflexivity].
  - apply ex_range; [vm_compute; split; congruence..|vm_compute; reflexivity].
  - apply ex_range; [vm_compute; split; congruence..|vm_compute; reflexivity].
  - apply (bool_decide_eq_true_1 _). vm_compute. reflexivity.
  - exists k1, k2. exact (conj E1 E2).
Defined.

(** ** Executions *)

Definition ex_platform : Platform :=
  mkPlatform (MemorySet.mkLinker 0x80200000 0x80210000 0x80210000 0x80214000 0x80214000 0x80300000
                0x80300000 0x80400000 0x80400000 0x80201000 0x80202000 0x80203000)
             (fun _ => None) 0x100.

Lemma ex_words (l : list Z) : forallb (fun v => (0 <=? v) && (v <? 2 ^ 64)) l = true -> Forall (in_width 64) l.
Proof.
  intros H. apply Forall_forall. intros v Hv%list_elem_of_In. apply (proj1 (forallb_forall _ _) H) in Hv.
  unfold in_width. lia.
Qed.

Lemma ex_trap_cx k pid t :
  running k pid t -> trap_cx_ppn t = 0x80505 -> k_mem k = ex_mem -> regs_ok k.
Proof.
  intros Hr Hp Hm ppn cx. unfold current_trap_cx. rewrite (running_current_inner _ _ _ Hr). cbn [mbind outcome_bind].
  rewrite Hp, Hm. intros [= <- <-]. split; [vm_compute; reflexivity|]. apply ex_words. vm_compute. reflexivity.
Qed.

(** A store fault kills the ordinary process; the invariant still holds. *)
Lemma reachable_kinv_witness :
  exists k', reachable ex_platform 0 ex_plain k' /\ kinv k'.
Proof.
  assert (H : exists k', kernel_step ex_platform 0 ex_plain k').
  { eexists. eapply (step_trap ex_platform 0 ex_plain [] [] StoreFault).
    - apply Forall_nil_2.
    - apply Forall_nil_2.
    - reflexivity.
    - exact (ex_trap_cx _ _ _ ex_plain_running eq_refl eq_refl).
    - vm_compute; reflexivity.
    - congruence. }
  destruct H as [k' H]. assert (Hr : reachable ex_platform 0 ex_plain k') by (eapply reach_step; [apply reach_refl|exact H]).
  exists k'. split; [exact Hr|].
  apply (reachable_kinv ex_platform 0 ex_plain k'); [apply ex_kinv; right; split; reflexivity|exact Hr].
Defined.

(** ** Signals *)

Definition ex_action : SignalAction := {| handler := 0x10000; act_mask := 0 |}.

(** The ordinary process with a handler for SIGUSR1 (10). *)
Definition ex_handler_task : TaskControlBlockInner :=
  set_signal_actions (ex_user Running) (<[10%nat := ex_action]> (signal_actions (ex_user Running))).
Definition ex_handler : Kernel unit := set_mem (put_task ex_plain 2 ex_handler_task) ex_mem.

Lemma ex_handler_running : running ex_handler 2 ex_handler_task.
Proof. by apply (running_put_same ex_plain 2 (ex_user Running) ex_handler_task ex_mem ex_plain_running). Qed.

Lemma ex_cx_wf : trap_cx_wf (load_trap_cx ex_mem 0x80505).
Proof. split; [vm_compute; reflexivity|]. apply ex_words. vm_compute. reflexivity. Qed.

Lemma signal_handler_roundtrip_witness :
  exists k1, call_user_signal_handler ex_handler 10 (2 ^ 10) = Ret k1.
Proof.
  destruct (signal_handler_roundtrip ex_platform 0 ex_handler 2 ex_handler_task 10 ex_action ex_handler_running)
    as (k1 & t1 & E & _);
    [lia|reflexivity|vm_compute; split; congruence|vm_compute; congruence|exact ex_cx_wf|].
  exists k1. exact E.
Defined.

(** The same process, inside a handler that interrupted it at address 4. *)
Definition ex_cx0 : TrapContext := set_sepc (load_trap_cx ex_mem 0x80505) 4.
Definition ex_nested_task : TaskControlBlockInner :=
  set_trap_ctx_backup (set_handling_sig ex_handler_task 11) (Some ex_cx0).
Definition ex_nested : Kernel unit := set_mem (put_task ex_handler 2 ex_nested_task) ex_mem.

Lemma ex_nested_running : running ex_nested 2 ex_nested_task.
Proof. by apply (running_put_same ex_handler 2 ex_handler_task ex_nested_task ex_mem ex_handler_running). Qed.

Lemma nested_signal_loses_context_witness :
  exists k1, call_user_signal_handler ex_nested 10 (2 ^ 10) = Ret k1.
Proof.
  destruct (nested_signal_loses_context ex_platform 0 ex_nested 2 ex_nested_task 10 ex_action [] ex_nested_running)
    with (cx0 := ex_cx0) as (k1 & t1 & E & _);
    [lia|reflexivity|vm_compute; split; congruence|vm_compute; congruence|exact ex_cx_wf|reflexivity| |].
  - intros H%(f_equal sepc). vm_compute in H. congruence.
  - exists k1. exact E.
Defined.

(** The same process stopped, with SIGHUP (1) pending and no handler. *)
Definition ex_frozen_task : TaskControlBlockInner := set_frozen (set_signals (ex_user Running) SIGHUP) true.
Definition ex_frozen : Kernel unit := set_mem (put_task ex_plain 2 ex_frozen_task) ex_mem.

Lemma ex_frozen_running : running ex_frozen 2 ex_frozen_task.
Proof. by apply (running_put_same ex_plain 2 (ex_user Running) ex_frozen_task ex_mem ex_plain_running). Qed.

Lemma ex_stuck : stuck 1 ex_frozen_task.
Proof.
  split; [|split; reflexivity]. split; try reflexivity; [lia|eexists; split; reflexivity|].
  intros j Hj. change (signals ex_frozen_task) with (2 ^ 1). apply Z.pow2_bits_false. lia.
Qed.

(** The process comes first again. *)
Definition bring_forward (pid : Z) (k : Kernel unit) : Kernel unit :=
  let s := k_sched k in
  if decide (pid ∈ ready_queue s) then
    set_sched k {| tasks := tasks s; PID2TCB := PID2TCB s;
                   ready_queue := pid :: filter (fun p => p <> pid) (ready_queue s); current := current s |}
  else k.

Lemma filter_forward (pid : Z) (l : list Z) :
  NoDup l -> pid ∈ l -> pid :: filter (fun p => p <> pid) l ≡ₚ l.
Proof.
  intros Hnd Hin. apply NoDup_Permutation; [|done|].
  - apply NoDup_cons. split; [|by apply NoDup_filter]. rewrite list_elem_of_filter. tauto.
  - intros p. rewrite elem_of_cons, list_elem_of_filter. destruct (decide (p = pid)); naive_solver.
Qed.

Lemma bring_forward_rely pid : rely (bring_forward pid).
Proof.
  intros k [Hs Ha] Hc. unfold bring_forward. case_decide as Hin; [|done]. split; [|done]. split; [|done].
  apply (sched_inv_perm (k_sched k)); try done. pose proof (si_nodup _ _ Hs) as Hnd.
  unfold runnable, current_task in *. cbn. rewrite Hc in *. cbn in *. by apply filter_forward.
Qed.

(** The other tasks send the process the signals [b] and let it come first. *)
Definition send_signals (pid b : Z) (k : Kernel unit) : Kernel unit :=
  match k_tasks k !! pid with
  | Some t => bring_forward pid (put_task k pid (set_signals t (Z.lor (signals t) b)))
  | None => k
  end.

Lemma send_signals_sends pid s b :
  (forall j, 0 <= j < s -> Z.testbit b j = false) -> sends pid s (send_signals pid b) b.
Proof.
  intros Hb. split; [|exact Hb|].
  - intros k Hk Hc. unfold send_signals. destruct (k_tasks k !! pid) as [t|] eqn:Et; [|done].
    apply bring_forward_rely; [|done]. by apply (kinv_put_same k pid t).
  - intros k t Ht Hin. unfold send_signals, bring_forward. rewrite Ht, decide_True by done.
    eexists _, _. split_and!; [apply lookup_insert_eq| |reflexivity]. by split.
Qed.

(** SIGKILL, then SIGCONT, reach the stopped process: it takes neither. *)
Lemma frozen_process_stuck_witness :
  exists k' t', handle_signals ex_frozen [send_signals 2 SIGKILL; send_signals 2 SIGCONT] = Ret (k', false) /\
    running k' 2 t' /\ frozen t' = true /\ killed t' = false /\ signals t' = Z.lor (Z.lor SIGHUP SIGKILL) SIGCONT.
Proof.
  apply (frozen_process_stuck 2 1 [send_signals 2 SIGKILL; send_signals 2 SIGCONT] [SIGKILL; SIGCONT] ex_frozen ex_frozen_task
           ex_frozen_running ex_stuck).
  repeat apply Forall2_cons_2; [apply send_signals_sends..|apply Forall2_nil_2]; intros j Hj; by replace j with 0 by lia.
Defined.

(** ** The facade, the log and the quota *)

Definition ex_request : IpcRequest := kill_request 2 (ex_user Running) 1 (ex_init Ready).

Lemma facade_logs_once_and_rolls_back_witness :
  exists st' w' r, Facade.preflight (ex_security 1000 Quota.initial) ex_audit ex_request = Ret (st', w', r) /\
    match r with Err e => st' = ex_security 1000 Quota.initial | Ok _ => True end.
Proof.
  destruct (Facade.facade_logs_once_and_rolls_back (ex_security 1000 Quota.initial) ex_audit [] ex_request (Ok 0))
    as (st' & w' & r & E & H); [apply ex_audit_view|apply (bool_decide_eq_true_1 _); vm_compute; reflexivity|].
  exists st', w', r. split; [exact E|]. destruct r; [exact I|apply H].
Defined.

Definition ex_event : AuditEvent := from_request ex_request (Err PermissionDenied) 1234000.

Lemma audit_snapshot_correct_witness :
  exists r b, push_all Audit.ring_new [ex_event; ex_event] = Ret r /\ snapshot r 1 32 = Ret b.
Proof.
  destruct (audit_snapshot_correct [ex_event; ex_event] 1 32) as (r & b & E1 & E2 & _);
    [vm_compute; split; congruence|lia|]. exists r, b. exact (conj E1 E2).
Defined.

Definition ex_record : AuditRecordV1 := Audit.to_record (with_sequence ex_event 7) false.

Lemma audit_record_roundtrip_witness :
  length (encode_record ex_record) = 80%nat /\ decode_record (encode_record ex_record) = Some ex_record.
Proof. apply audit_record_roundtrip. vm_compute. repeat split; congruence. Defined.
