(* ===== verification/EfsCache.v ===== *)
(** * easy-fs: block devices and the block cache

    [easy-fs/src/block_dev.rs] and [block_cache.rs].  The device behind the
    trait is a parameter: a class with the two methods, and a second class with
    what the file system relies on.  The static [BLOCK_CACHE_MANAGER] is a
    value of [CacheManager]; the device, of which the file system has one, is
    kept next to the queue.  A caller's [get_block_cache(..).lock()] keeps a
    reference and the lock until the closure given to [read] or [modify] has
    returned: [held] lists the blocks in that state.  Asking for the lock of a
    held block spins for ever. *)
From S2P Require Import Prelude.

(** ** [block_dev.rs] *)

Class BlockDevice (D : Type) : Type := {
  read_block : D -> Z -> outcome (list Z);
  write_block : D -> Z -> list Z -> outcome D;
}.

(** [#[repr(C)]] types as they lie in a block: [of_bytes] reads a value,
    [to_bytes v old] are the bytes after storing [v] over [old], where padding
    keeps its bytes. *)
Class Pod (T : Type) : Type := {
  size_of : Z;
  of_bytes : list Z -> T;
  to_bytes : T -> list Z -> list Z;
}.

Module EfsCache.

(** [lib.rs] *)
Definition BLOCK_SZ : Z := 512.
Definition BLOCK_CACHE_SIZE : nat := 16.

Record BlockCache : Type := mkCache {
  cache : list Z;
  block_id : Z;
  modified : bool;
}.

Record CacheManager (D : Type) : Type := mkManager {
  block_device : D;
  queue : list (Z * BlockCache);
  held : list Z;
}.
Arguments mkManager {D}.
Arguments block_device {D}.
Arguments queue {D}.
Arguments held {D}.

(** [a[off..off + len(new)].copy_from_slice(new)] on the bytes of a block. *)
Definition splice (bs : list Z) (off : Z) (new : list Z) : list Z :=
  take (Z.to_nat off) bs ++ new ++ drop (Z.to_nat off + length new) bs.

Definition slice (bs : list Z) (off len : Z) : list Z :=
  take (Z.to_nat len) (drop (Z.to_nat off) bs).

(** [type DataBlock = [u8; BLOCK_SZ]] of [layout.rs] and [efs.rs]. *)
Definition DataBlock : Set := list Z.

#[export] Instance DataBlock_pod : Pod DataBlock := {|
  size_of := BLOCK_SZ;
  of_bytes := fun bs => bs;
  to_bytes := fun v _ => v;
|}.

Section Ops.
Context {D : Type} {BD : BlockDevice D}.
Implicit Type st : CacheManager D.

(** *** [BlockCache] *)

Definition cache_new (dev : D) (id : Z) : outcome BlockCache :=
  data ← read_block dev id;
  Ret {| cache := data; block_id := id; modified := false |}.

(** The bounds checks of [get_ref] and [addr_of_offset]. *)
Definition check_offset (offset size : Z) : outcome unit :=
  _ ← assert_ (wrap 64 (offset + size) <=? BLOCK_SZ);
  assert_ (offset <? BLOCK_SZ).

Definition get_ref {T} `{Pod T} (self : BlockCache) (offset : Z) : outcome T :=
  _ ← check_offset offset (size_of (T := T));
  Ret (of_bytes (slice (cache self) offset (size_of (T := T)))).

Definition get_mut {T} `{Pod T} (self : BlockCache) (offset : Z) : outcome (T * BlockCache) :=
  _ ← check_offset offset (size_of (T := T));
  Ret (of_bytes (slice (cache self) offset (size_of (T := T))),
       {| cache := cache self; block_id := block_id self; modified := true |}).

(** What the closure of [modify] leaves behind the reference it was given. *)
Definition put_back {T} `{Pod T} (self : BlockCache) (offset : Z) (v : T) : BlockCache :=
  {| cache := splice (cache self) offset (to_bytes v (slice (cache self) offset (size_of (T := T))));
     block_id := block_id self; modified := modified self |}.

Definition sync (dev : D) (self : BlockCache) : outcome (D * BlockCache) :=
  if modified self then
    let self' := {| cache := cache self; block_id := block_id self; modified := false |} in
    dev' ← write_block dev (block_id self) (cache self);
    Ret (dev', self')
  else Ret (dev, self).

(** *** [BlockCacheManager] *)

Definition manager_new (dev : D) : CacheManager D := mkManager dev [] [].

Definition find_block st (id : Z) : option BlockCache :=
  (fun p => p.2.2) <$> list_find (fun pair => pair.1 = id) (queue st).

(** The manager's own reference and one per caller. *)
Definition strong_count st (id : Z) : nat := S (length (filter (fun h => h = id) (held st))).

(** Dropping a [BlockCache] syncs it. *)
Definition evict st : outcome (CacheManager D) :=
  match list_find (fun pair => strong_count st pair.1 = 1%nat) (queue st) with
  | Some (idx, (_, bc)) =>
      '(dev, _) ← sync (block_device st) bc;
      Ret (mkManager dev (delete idx (queue st)) (held st))
  | None => Panic
  end.

Definition get_block_cache st (id : Z) : outcome (CacheManager D) :=
  match find_block st id with
  | Some _ => Ret st
  | None =>
      st1 ← (if (length (queue st) =? BLOCK_CACHE_SIZE)%nat then evict st else Ret st);
      bc ← cache_new (block_device st1) id;
      Ret (mkManager (block_device st1) (queue st1 ++ [(id, bc)]) (held st1))
  end.

Definition store_block st (id : Z) (bc : BlockCache) : CacheManager D :=
  mkManager (block_device st) ((fun p => if p.1 =? id then (id, bc) else p) <$> queue st) (held st).

(** [get_block_cache(id).lock()] *)
Definition lock st (id : Z) : outcome (BlockCache * CacheManager D) :=
  st1 ← get_block_cache st id;
  if decide (id ∈ held st1) then OutOfFuel
  else
    bc ← unwrap (find_block st1 id);
    Ret (bc, mkManager (block_device st1) (queue st1) (id :: held st1)).

(** The drop of the guard and of the reference. *)
Definition unlock st : CacheManager D := mkManager (block_device st) (queue st) (tail (held st)).

(** [.lock().read(offset, f)] and [.lock().modify(offset, f)]. *)
Definition read {T V} `{Pod T} st (id offset : Z)
    (f : T -> CacheManager D -> outcome (V * CacheManager D)) : outcome (V * CacheManager D) :=
  '(bc, st1) ← lock st id;
  t ← get_ref bc offset;
  '(v, st2) ← f t st1;
  Ret (v, unlock st2).

Definition modify {T V} `{Pod T} st (id offset : Z)
    (f : T -> CacheManager D -> outcome (V * T * CacheManager D)) : outcome (V * CacheManager D) :=
  '(bc, st1) ← lock st id;
  '(t, bc1) ← get_mut bc offset;
  '(v, t', st2) ← f t st1;
  Ret (v, unlock (store_block st2 id (put_back bc1 offset t'))).

(** Locking each cached block in turn. *)
Fixpoint sync_queue (held : list Z) (dev : D) (q : list (Z * BlockCache)) : outcome (D * list (Z * BlockCache)) :=
  match q with
  | [] => Ret (dev, [])
  | (id, bc) :: q' =>
      if decide (id ∈ held) then OutOfFuel
      else
        '(dev1, bc1) ← sync dev bc;
        '(dev2, q2) ← sync_queue held dev1 q';
        Ret (dev2, (id, bc1) :: q2)
  end.

Definition block_cache_sync_all st : outcome (CacheManager D) :=
  '(dev, q) ← sync_queue (held st) (block_device st) (queue st);
  Ret (mkManager dev q (held st)).

End Ops.
End EfsCache.

#[global] Typeclasses Opaque EfsCache.DataBlock.
