(* ===== verification/EfsCacheFacts.v ===== *)
(** * The block cache is transparent

    Clients of [EfsCache] reason about a plain map from block numbers to
    512-byte blocks: [repr st d h] says that the manager stands for the disk
    contents [d] while the blocks [h] are locked.  [read] and [modify] act on
    [d]; loading, eviction and the dirty bits do not show, and after
    [block_cache_sync_all] the device itself holds [d]. *)
From S2P Require Import Prelude EfsCache.
Import EfsCache.

Definition block_ok (b : list Z) : Prop := length b = 512%nat /\ Forall (in_width 8) b.

(** What the file system needs of a device: a store of blocks that never loses
    a write.  [dev_view] are its contents; blocks outside it are not there. *)
Class BlockDeviceLaws (D : Type) {BD : BlockDevice D} : Type := {
  dev_view : D -> gmap Z (list Z);
  dev_view_ok : forall dev, map_Forall (fun _ => block_ok) (dev_view dev);
  read_block_ok : forall dev id b, dev_view dev !! id = Some b -> read_block dev id = Ret b;
  write_block_ok : forall dev id b, is_Some (dev_view dev !! id) -> block_ok b ->
    exists dev', write_block dev id b = Ret dev' /\ dev_view dev' = <[id := b]> (dev_view dev);
}.

(** Plain-old-data types: storing keeps the size, and what was stored is read
    back when it is in range. *)
Class PodLaws (T : Type) {P : Pod T} : Type := {
  pod_ok : T -> Prop;
  pod_size : 0 < size_of (T := T) <= 512;
  pod_of_ok : forall bs, length bs = Z.to_nat (size_of (T := T)) -> Forall (in_width 8) bs -> pod_ok (of_bytes bs);
  pod_length : forall (v : T) bs, pod_ok v -> length bs = Z.to_nat (size_of (T := T)) ->
    length (to_bytes v bs) = length bs;
  pod_range : forall (v : T) bs, pod_ok v -> Forall (in_width 8) bs -> Forall (in_width 8) (to_bytes v bs);
  pod_round : forall (v : T) bs, pod_ok v -> length bs = Z.to_nat (size_of (T := T)) -> of_bytes (to_bytes v bs) = v;
}.

(** ** Slices of a block *)

Lemma length_slice bs off len :
  0 <= off -> 0 <= len -> off + len <= Z.of_nat (length bs) -> length (slice bs off len) = Z.to_nat len.
Proof. intros. unfold slice. rewrite length_take, length_drop. lia. Qed.

Lemma length_splice bs off new :
  0 <= off -> off + Z.of_nat (length new) <= Z.of_nat (length bs) -> length (splice bs off new) = length bs.
Proof. intros. unfold splice. rewrite !length_app, length_take, length_drop. lia. Qed.

Lemma slice_range bs off len : Forall (in_width 8) bs -> Forall (in_width 8) (slice bs off len).
Proof. intros. by apply Forall_take, Forall_drop. Qed.

Lemma splice_range bs off new :
  Forall (in_width 8) bs -> Forall (in_width 8) new -> Forall (in_width 8) (splice bs off new).
Proof. intros. unfold splice. rewrite !Forall_app. auto using Forall_take, Forall_drop. Qed.

Lemma lookup_splice bs off new i :
  0 <= off -> off + Z.of_nat (length new) <= Z.of_nat (length bs) -> 0 <= i ->
  splice bs off new !! Z.to_nat i =
    if decide (off <= i < off + Z.of_nat (length new)) then new !! Z.to_nat (i - off) else bs !! Z.to_nat i.
Proof.
  intros Ho Hl Hi. unfold splice. case_decide as Hr.
  - rewrite lookup_app_r by (rewrite length_take; lia). rewrite length_take, lookup_app_l by lia. f_equal. lia.
  - destruct (decide (i < off)).
    + rewrite lookup_app_l by (rewrite length_take; lia). apply lookup_take_lt. lia.
    + rewrite lookup_app_r by (rewrite length_take; lia). rewrite length_take, lookup_app_r by lia.
      rewrite lookup_drop. f_equal. lia.
Qed.

Lemma slice_splice_same bs off new :
  0 <= off -> off + Z.of_nat (length new) <= Z.of_nat (length bs) ->
  slice (splice bs off new) off (Z.of_nat (length new)) = new.
Proof.
  intros. unfold slice, splice. rewrite drop_app_length' by (rewrite length_take; lia).
  rewrite Nat2Z.id. by apply take_app_length.
Qed.

Lemma slice_splice_other bs off new off' len' :
  0 <= off -> off + Z.of_nat (length new) <= Z.of_nat (length bs) -> 0 <= off' -> 0 <= len' ->
  off' + len' <= Z.of_nat (length bs) -> off' + len' <= off \/ off + Z.of_nat (length new) <= off' ->
  slice (splice bs off new) off' len' = slice bs off' len'.
Proof.
  intros. apply list_eq. intros i. unfold slice. destruct (decide (i < Z.to_nat len')%nat).
  - rewrite !lookup_take_lt, !lookup_drop by done.
    replace (Z.to_nat off' + i)%nat with (Z.to_nat (off' + Z.of_nat i)) by lia.
    rewrite lookup_splice, decide_False by lia. done.
  - rewrite !lookup_take_ge by lia. done.
Qed.

Lemma splice_slice_id bs off len :
  0 <= off -> 0 <= len -> off + len <= Z.of_nat (length bs) -> splice bs off (slice bs off len) = bs.
Proof.
  intros. unfold splice. rewrite length_slice by done. unfold slice.
  rewrite <- drop_drop, take_drop. apply take_drop.
Qed.

Lemma slice_all bs : slice bs 0 (Z.of_nat (length bs)) = bs.
Proof. unfold slice. rewrite drop_0, Nat2Z.id. apply firstn_all. Qed.

(** ** The representation *)

Section Facts.
Context {D : Type} {BD : BlockDevice D} {BL : BlockDeviceLaws D}.
Implicit Type st : CacheManager D.
Implicit Type d : gmap Z (list Z).

Record entry_ok (dev : D) d (p : Z * BlockCache) : Prop := {
  en_id : block_id p.2 = p.1;
  en_data : d !! p.1 = Some (cache p.2);
  en_dev : is_Some (dev_view dev !! p.1);
  en_clean : modified p.2 = false -> dev_view dev !! p.1 = Some (cache p.2);
}.

Record repr st d (h : list Z) : Prop := {
  rp_nodup : NoDup (queue st).*1;
  rp_len : (length (queue st) <= BLOCK_CACHE_SIZE)%nat;
  rp_entry : Forall (entry_ok (block_device st) d) (queue st);
  rp_disk : forall id, id ∉ (queue st).*1 -> d !! id = dev_view (block_device st) !! id;
  rp_ok : map_Forall (fun _ => block_ok) d;
  rp_held : held st = h;
  rp_sub : forall id, id ∈ h -> id ∈ (queue st).*1;
  rp_hnd : NoDup h;
}.

Lemma manager_new_repr dev : repr (manager_new dev) (dev_view dev) [].
Proof.
  split; cbn; try apply NoDup_nil_2; try done; [lia|]. apply dev_view_ok.
Qed.

Lemma find_block_Some st id bc : find_block st id = Some bc -> (id, bc) ∈ queue st.
Proof.
  unfold find_block. intros ([i [j b]] & H & ->)%fmap_Some.
  apply list_find_Some in H as (Hl & Hj & _). cbn in *. subst j. by eapply list_elem_of_lookup_2.
Qed.

Lemma find_block_None st id : find_block st id = None <-> id ∉ (queue st).*1.
Proof.
  unfold find_block. rewrite fmap_None, list_find_None, Forall_forall. split.
  - intros H ([j b] & -> & Hin)%list_elem_of_fmap. by apply (H _ Hin).
  - intros H [j b] Hin Hj. apply H. apply list_elem_of_fmap. by exists (j, b).
Qed.

Lemma find_block_in st id : id ∈ (queue st).*1 -> exists bc, find_block st id = Some bc.
Proof.
  intros H. destruct (find_block st id) as [bc|] eqn:E; [by exists bc|]. by apply find_block_None in E.
Qed.

Lemma find_block_entry st d h id bc :
  repr st d h -> find_block st id = Some bc -> entry_ok (block_device st) d (id, bc).
Proof. intros Hr H%find_block_Some. by apply (proj1 (Forall_forall _ _) (rp_entry _ _ _ Hr)). Qed.

(** ** Loading and evicting *)

Lemma sync_spec dev d p :
  entry_ok dev d p -> map_Forall (fun _ => block_ok) d ->
  exists dev' bc', sync dev p.2 = Ret (dev', bc') /\ cache bc' = cache p.2 /\ block_id bc' = p.1 /\
    modified bc' = false /\ dev_view dev' = <[p.1 := cache p.2]> (dev_view dev).
Proof.
  intros [E1 E2 E3 E4] Hd. unfold sync. destruct (modified p.2) eqn:Em.
  - rewrite E1. destruct (write_block_ok dev p.1 (cache p.2) E3) as (dev' & -> & Hv); [by apply (Hd _ _ E2)|].
    eexists _, _. by split_and!.
  - eexists _, _. split_and!; [done..|]. rewrite insert_id; auto.
Qed.

(** Some entry is not held when fewer than sixteen are. *)
Lemma strong_count_one st id : id ∉ held st -> strong_count st id = 1%nat.
Proof.
  intros H. unfold strong_count. f_equal. apply length_zero_iff_nil.
  apply elem_of_nil_inv. intros x [-> Hx]%list_elem_of_filter. done.
Qed.

Lemma exists_unheld (l h : list Z) : NoDup l -> NoDup h -> (length h < length l)%nat -> exists x, x ∈ l /\ x ∉ h.
Proof.
  intros Hl Hh Hlt. destruct (decide (Exists (fun x => x ∉ h) l)) as [He|He].
  - apply Exists_exists in He as (x & ? & ?). by exists x.
  - exfalso. apply not_Exists_Forall in He; [|intros; apply _].
    assert (l ⊆+ h) as Hs%submseteq_length; [|lia].
    apply NoDup_submseteq; [done|]. intros x Hx. apply (proj1 (Forall_forall _ _) He) in Hx.
    by apply dec_stable.
Qed.

Lemma entry_ok_write dev dev' d p id b :
  entry_ok dev d p -> dev_view dev' = <[id := b]> (dev_view dev) -> d !! id = Some b -> entry_ok dev' d p.
Proof.
  intros [E1 E2 E3 E4] Hv Hb. split; try done; rewrite Hv.
  - destruct (decide (id = p.1)) as [->|]; [rewrite lookup_insert_eq; by eexists|by rewrite lookup_insert_ne].
  - intros Hm. destruct (decide (id = p.1)) as [->|]; [rewrite lookup_insert_eq; congruence|].
    rewrite lookup_insert_ne by done. auto.
Qed.

Lemma elem_of_delete_key (q : list (Z * BlockCache)) idx id bc x :
  NoDup q.*1 -> q !! idx = Some (id, bc) -> x ∈ (delete idx q).*1 <-> x ∈ q.*1 /\ x <> id.
Proof.
  intros Hnd Hi. pose proof (take_drop_middle _ _ _ Hi) as Es. rewrite delete_take_drop.
  revert Es. generalize (take idx q) (drop (S idx) q). intros t u <-. revert Hnd.
  rewrite !fmap_app, fmap_cons. cbn. rewrite NoDup_app, NoDup_cons.
  intros (_ & Hd1 & Hd2 & _). rewrite !elem_of_app, elem_of_cons. split.
  - intros [Hx|Hx]; (split; [tauto|]); intros ->; [|done]. apply (Hd1 id Hx). by left.
  - tauto.
Qed.

Lemma evict_spec st d h :
  repr st d h -> length (queue st) = BLOCK_CACHE_SIZE -> (length h < BLOCK_CACHE_SIZE)%nat ->
  exists st', evict st = Ret st' /\ repr st' d h /\ (length (queue st') < BLOCK_CACHE_SIZE)%nat /\
    (forall id, id ∈ (queue st').*1 -> id ∈ (queue st).*1).
Proof.
  intros Hr Hl Hh. pose proof Hr as []. unfold evict.
  destruct (list_find _ (queue st)) as [[idx [id bc]]|] eqn:Ef.
  2:{ exfalso. apply list_find_None in Ef.
      destruct (exists_unheld (queue st).*1 h) as (x & Hx & Hnx); [done|done|rewrite length_fmap; lia|].
      apply list_elem_of_fmap in Hx as (p & -> & Hp). apply (proj1 (Forall_forall _ _) Ef p Hp).
      apply strong_count_one. by rewrite rp_held0. }
  apply list_find_Some in Ef as (Hi & Hc & _). cbn in Hc.
  pose proof (Forall_lookup_1 _ _ _ _ rp_entry0 Hi) as He.
  destruct (sync_spec (block_device st) d (id, bc) He rp_ok0) as (dev' & bc' & E & _ & _ & _ & Hv).
  cbn in E, Hv. rewrite E. cbn [mbind outcome_bind]. eexists. split; [done|].
  pose proof (en_data _ _ _ He) as Hd. cbn in Hd.
  pose proof (fun x => elem_of_delete_key (queue st) idx id bc x rp_nodup0 Hi) as Hsub.
  assert (Hnh : id ∉ h).
  { intros Hin. revert Hc. unfold strong_count. rewrite rp_held0. intros [= Hc%length_zero_iff_nil].
    assert (id ∈ filter (fun x => x = id) h) as Hf by (by apply list_elem_of_filter). rewrite Hc in Hf. by apply not_elem_of_nil in Hf. }
  split; [|split].
  - split; cbn; try done.
    + rewrite list_fmap_delete. apply (sublist_NoDup _ (queue st).*1); [done|apply sublist_delete].
    + rewrite length_delete; [lia|by eexists].
    + apply Forall_delete. eapply Forall_impl; [exact rp_entry0|]. intros p Hp. by eapply entry_ok_write.
    + intros x Hx. rewrite Hv. destruct (decide (id = x)) as [->|]; [by rewrite lookup_insert_eq|].
      rewrite lookup_insert_ne by done. apply rp_disk0. rewrite Hsub in Hx. naive_solver.
    + intros x Hx. apply Hsub. split; [by apply rp_sub0|]. by intros ->.
  - cbn. rewrite length_delete; [|by eexists]. rewrite Hl. unfold BLOCK_CACHE_SIZE. lia.
  - cbn. intros x Hx. by apply Hsub.
Qed.

Lemma get_block_cache_spec st d h id :
  repr st d h -> is_Some (d !! id) -> (length h < BLOCK_CACHE_SIZE)%nat ->
  exists st' bc, get_block_cache st id = Ret st' /\ repr st' d h /\ find_block st' id = Some bc /\
    d !! id = Some (cache bc).
Proof.
  intros Hr [b Hb] Hh. unfold get_block_cache. destruct (find_block st id) as [bc|] eqn:Ef.
  { exists st, bc. split_and!; try done. exact (en_data _ _ _ (find_block_entry _ _ _ _ _ Hr Ef)). }
  apply find_block_None in Ef.
  assert (exists st1, (if (length (queue st) =? BLOCK_CACHE_SIZE)%nat then evict st else Ret st) = Ret st1 /\
            repr st1 d h /\ (length (queue st1) < BLOCK_CACHE_SIZE)%nat /\ id ∉ (queue st1).*1)
    as (st1 & -> & Hr1 & Hl1 & Hn1).
  { destruct (Nat.eqb_spec (length (queue st)) BLOCK_CACHE_SIZE) as [Hl|Hl].
    - destruct (evict_spec st d h Hr Hl Hh) as (st1 & -> & ? & ? & Hs). exists st1. split_and!; try done. auto.
    - exists st. split_and!; try done. pose proof (rp_len _ _ _ Hr). lia. }
  cbn [mbind outcome_bind]. pose proof Hr1 as []. assert (Hv : dev_view (block_device st1) !! id = Some b).
  { by rewrite <- rp_disk0. }
  unfold cache_new. rewrite (read_block_ok _ _ _ Hv). cbn [mbind outcome_bind].
  eexists _, {| cache := b; block_id := id; modified := false |}. split; [done|]. split; [|split; [|done]].
  - split; cbn; try done.
    + rewrite fmap_app, NoDup_app. cbn. split_and!; [done| |apply NoDup_singleton].
      intros x Hx ->%list_elem_of_singleton. done.
    + rewrite length_app. cbn. lia.
    + apply Forall_app. split; [done|]. apply Forall_singleton. by split; cbn.
    + intros x Hx. apply rp_disk0. intros Hin. apply Hx. rewrite fmap_app, elem_of_app. by left.
    + intros x Hx. rewrite fmap_app, elem_of_app. left. by apply rp_sub0.
  - unfold find_block. cbn. rewrite list_find_app_r; [|]; cbn; [by rewrite decide_True|].
    apply list_find_None, Forall_forall. intros [j c] Hj Hid. apply Hn1. apply list_elem_of_fmap. by exists (j, c).
Qed.

(** ** Locking *)

Lemma queue_keys_store st id bc : (queue (store_block st id bc)).*1 = (queue st).*1.
Proof.
  cbn. rewrite <- list_fmap_compose. apply list_fmap_ext. intros i [j b] _. cbn. by destruct (Z.eqb_spec j id) as [->|].
Qed.

Lemma lock_spec st d h id b :
  repr st d h -> d !! id = Some b -> id ∉ h -> (length h < BLOCK_CACHE_SIZE)%nat ->
  exists bc st1, lock st id = Ret (bc, st1) /\ repr st1 d (id :: h) /\ cache bc = b /\ block_id bc = id.
Proof.
  intros Hr Hb Hn Hh. unfold lock.
  destruct (get_block_cache_spec st d h id Hr) as (st1 & bc & -> & Hr1 & Hf & Hd); [by eexists|done|].
  cbn [mbind outcome_bind]. rewrite (rp_held _ _ _ Hr1), decide_False by done. rewrite Hf. cbn [unwrap mbind outcome_bind].
  eexists _, _. split; [done|]. split; [|split; [congruence|exact (en_id _ _ _ (find_block_entry _ _ _ _ _ Hr1 Hf))]].
  apply find_block_Some in Hf. destruct Hr1. split; cbn [block_device queue held]; try done.
  - intros x [->|]%elem_of_cons; [|auto]. apply list_elem_of_fmap. by exists (id, bc).
  - by apply NoDup_cons.
Qed.

Lemma repr_unlock st d h id : repr st d (id :: h) -> repr (unlock st) d h.
Proof.
  intros []. split; cbn [unlock block_device queue held]; try done.
  - by rewrite rp_held0.
  - intros x Hx. apply rp_sub0. by right.
  - by apply NoDup_cons in rp_hnd0 as [_ ?].
Qed.

(** The new contents of a locked block become visible. *)
Lemma repr_store st d h id bc :
  repr st d (id :: h) -> block_ok (cache bc) -> block_id bc = id -> modified bc = true ->
  repr (store_block st id bc) (<[id := cache bc]> d) (id :: h).
Proof.
  intros Hr Hok Hid Hm. pose proof Hr as []. pose proof (queue_keys_store st id bc) as Hkeys.
  split; rewrite ?Hkeys; try done; cbn [store_block block_device queue held].
  - by rewrite length_fmap.
  - apply Forall_fmap, Forall_forall. intros [j c] Hj. cbn. pose proof (proj1 (Forall_forall _ _) rp_entry0 _ Hj) as He.
    destruct (Z.eqb_spec j id) as [->|Hne]; pose proof He as [E1 E2 E3 E4]; cbn in *.
    + split; cbn; [done|by rewrite lookup_insert_eq|done|congruence].
    + split; cbn; try done. by rewrite lookup_insert_ne.
  - intros x Hx. rewrite lookup_insert_ne; [by apply rp_disk0|]. intros ->. apply Hx, rp_sub0. by left.
  - by apply map_Forall_insert_2.
Qed.

Lemma check_offset_ok off size : 0 <= off -> 0 < size -> off + size <= 512 -> check_offset off size = Ret tt.
Proof.
  intros. unfold check_offset, BLOCK_SZ. rewrite wrap_small by (unfold in_width; lia).
  destruct (Z.leb_spec (off + size) 512); [|lia]. cbn. by destruct (Z.ltb_spec off 512); [|lia].
Qed.

(** [read] passes the value at [offset] to the closure, which runs with the
    block locked. *)
Lemma read_spec {T V} `{PodLaws T} st d h id off b (f : T -> CacheManager D -> outcome (V * CacheManager D))
    (Post : V -> gmap Z (list Z) -> Prop) :
  repr st d h -> d !! id = Some b -> id ∉ h -> (length h < BLOCK_CACHE_SIZE)%nat ->
  0 <= off -> off + size_of (T := T) <= 512 ->
  (forall st1, repr st1 d (id :: h) -> exists v st2 d2,
     f (of_bytes (slice b off (size_of (T := T)))) st1 = Ret (v, st2) /\ repr st2 d2 (id :: h) /\ Post v d2) ->
  exists v st' d', read st id off f = Ret (v, st') /\ repr st' d' h /\ Post v d'.
Proof.
  intros Hr Hb Hn Hh Ho Hs Hf. unfold read.
  destruct (lock_spec st d h id b Hr Hb Hn Hh) as (bc & st1 & -> & Hr1 & Hc & _). cbn [mbind outcome_bind].
  unfold get_ref. rewrite check_offset_ok by (try apply pod_size; done). cbn [mbind outcome_bind]. rewrite Hc.
  destruct (Hf st1 Hr1) as (v & st2 & d2 & -> & Hr2 & HP). cbn [mbind outcome_bind].
  exists v, (unlock st2), d2. split; [done|]. split; [by eapply repr_unlock|done].
Qed.

Lemma modify_spec {T V} `{PodLaws T} st d h id off b (f : T -> CacheManager D -> outcome (V * T * CacheManager D))
    (Post : V -> T -> gmap Z (list Z) -> Prop) :
  repr st d h -> d !! id = Some b -> id ∉ h -> (length h < BLOCK_CACHE_SIZE)%nat ->
  0 <= off -> off + size_of (T := T) <= 512 ->
  (forall st1, repr st1 d (id :: h) -> exists v t st2 d2,
     f (of_bytes (slice b off (size_of (T := T)))) st1 = Ret (v, t, st2) /\ repr st2 d2 (id :: h) /\
     pod_ok t /\ Post v t d2) ->
  exists v t st' d2, modify st id off f = Ret (v, st') /\ pod_ok t /\ Post v t d2 /\
    repr st' (<[id := splice b off (to_bytes t (slice b off (size_of (T := T))))]> d2) h.
Proof.
  intros Hr Hb Hn Hh Ho Hs Hf. unfold modify.
  destruct (lock_spec st d h id b Hr Hb Hn Hh) as (bc & st1 & -> & Hr1 & Hc & Hid). cbn [mbind outcome_bind].
  unfold get_mut. pose proof (pod_size (T := T)) as Hsz. rewrite check_offset_ok by lia.
  cbn [mbind outcome_bind]. rewrite Hc.
  destruct (Hf st1 Hr1) as (v & t & st2 & d2 & -> & Hr2 & Ht & HP). cbn [mbind outcome_bind].
  eexists v, t, _, d2. split; [done|]. split_and!; [done..|]. apply (repr_unlock _ _ _ id).
  destruct (rp_ok _ _ _ Hr _ _ Hb) as [Hlb Hrb].
  assert (Hls : length (slice b off (size_of (T := T))) = Z.to_nat (size_of (T := T))) by (apply length_slice; lia).
  match goal with |- repr (store_block _ _ ?bc') _ _ => change (splice b off _) with (cache bc') end.
  apply repr_store; try done. cbn. split.
  - rewrite length_splice; [done|lia|]. rewrite pod_length by done. lia.
  - apply splice_range; [done|]. apply pod_range; [done|]. by apply slice_range.
Qed.

(** A closure that panics. *)
Lemma read_panics {T V} `{PodLaws T} st d h id off b (f : T -> CacheManager D -> outcome (V * CacheManager D)) :
  repr st d h -> d !! id = Some b -> id ∉ h -> (length h < BLOCK_CACHE_SIZE)%nat ->
  0 <= off -> off + size_of (T := T) <= 512 ->
  (forall st1, repr st1 d (id :: h) -> f (of_bytes (slice b off (size_of (T := T)))) st1 = Panic) ->
  read st id off f = Panic.
Proof.
  intros Hr Hb Hn Hh Ho Hs Hf. unfold read.
  destruct (lock_spec st d h id b Hr Hb Hn Hh) as (bc & st1 & -> & Hr1 & Hc & _). cbn [mbind outcome_bind].
  unfold get_ref. rewrite check_offset_ok by (try apply pod_size; done). cbn [mbind outcome_bind]. rewrite Hc.
  by rewrite (Hf st1 Hr1).
Qed.

Lemma modify_panics {T V} `{PodLaws T} st d h id off b (f : T -> CacheManager D -> outcome (V * T * CacheManager D)) :
  repr st d h -> d !! id = Some b -> id ∉ h -> (length h < BLOCK_CACHE_SIZE)%nat ->
  0 <= off -> off + size_of (T := T) <= 512 ->
  (forall st1, repr st1 d (id :: h) -> f (of_bytes (slice b off (size_of (T := T)))) st1 = Panic) ->
  modify st id off f = Panic.
Proof.
  intros Hr Hb Hn Hh Ho Hs Hf. unfold modify.
  destruct (lock_spec st d h id b Hr Hb Hn Hh) as (bc & st1 & -> & Hr1 & Hc & _). cbn [mbind outcome_bind].
  unfold get_mut. rewrite check_offset_ok by (try apply pod_size; done). cbn [mbind outcome_bind]. rewrite Hc.
  by rewrite (Hf st1 Hr1).
Qed.

(** Closures that touch no other block. *)
Lemma read_pure {T V} `{PodLaws T} st d h id off b (g : T -> V) :
  repr st d h -> d !! id = Some b -> id ∉ h -> (length h < BLOCK_CACHE_SIZE)%nat ->
  0 <= off -> off + size_of (T := T) <= 512 ->
  exists st', read st id off (fun t st => Ret (g t, st)) = Ret (g (of_bytes (slice b off (size_of (T := T)))), st') /\
    repr st' d h.
Proof.
  intros Hr Hb Hn Hh Ho Hs.
  destruct (read_spec st d h id off b (fun t st => Ret (g t, st))
              (fun v d2 => v = g (of_bytes (slice b off (size_of (T := T)))) /\ d2 = d))
    as (v & st' & d' & E & Hr' & -> & ->); try done.
  - intros st1 Hr1. by eexists _, _, _.
  - by exists st'.
Qed.

Lemma modify_pure {T V} `{PodLaws T} st d h id off b (g : T -> V) (u : T -> T) :
  repr st d h -> d !! id = Some b -> id ∉ h -> (length h < BLOCK_CACHE_SIZE)%nat ->
  0 <= off -> off + size_of (T := T) <= 512 ->
  let t := of_bytes (slice b off (size_of (T := T))) in
  pod_ok (u t) ->
  exists st', modify st id off (fun t st => Ret (g t, u t, st)) = Ret (g t, st') /\
    repr st' (<[id := splice b off (to_bytes (u t) (slice b off (size_of (T := T))))]> d) h.
Proof.
  intros Hr Hb Hn Hh Ho Hs t Ht.
  destruct (modify_spec st d h id off b (fun t st => Ret (g t, u t, st))
              (fun v t' d2 => v = g t /\ t' = u t /\ d2 = d))
    as (v & t' & st' & d2 & E & _ & (-> & -> & ->) & Hr'); try done.
  - intros st1 Hr1. by eexists _, _, _, _.
  - by exists st'.
Qed.

(** ** Writing back *)

Lemma entry_clean dev d p dev' bc' :
  entry_ok dev d p -> cache bc' = cache p.2 -> block_id bc' = p.1 ->
  dev_view dev' !! p.1 = Some (cache p.2) -> entry_ok dev' d (p.1, bc').
Proof.
  intros [E1 E2 E3 E4] Hc Hi Hv. split; cbn; rewrite ?Hc; try done.
Qed.

Lemma sync_queue_spec d dev q :
  map_Forall (fun _ => block_ok) d -> Forall (entry_ok dev d) q -> NoDup q.*1 ->
  exists dev' q', sync_queue [] dev q = Ret (dev', q') /\ q'.*1 = q.*1 /\ Forall (entry_ok dev' d) q' /\
    (forall id, dev_view dev' !! id = if decide (id ∈ q.*1) then d !! id else dev_view dev !! id).
Proof.
  intros Hd. revert dev. induction q as [|[id bc] q IH]; intros dev Hq Hnd.
  { exists dev, []. split_and!; try done. }
  apply Forall_cons in Hq as [Hp Hq]. cbn in Hnd. apply NoDup_cons in Hnd as [Hn Hnd].
  cbn [sync_queue]. rewrite decide_False by (by apply not_elem_of_nil).
  destruct (sync_spec dev d (id, bc) Hp Hd) as (dev1 & bc1 & E & Hc & Hi & Hm & Hv). cbn in E, Hv, Hc, Hi.
  rewrite E. cbn [mbind outcome_bind]. pose proof (en_data _ _ _ Hp) as Hdid. cbn in Hdid.
  destruct (IH dev1) as (dev2 & q2 & -> & Hk & Hq2 & Hv2); [|done|].
  { eapply Forall_impl; [exact Hq|]. intros p Hp'. by eapply entry_ok_write. }
  cbn [mbind outcome_bind]. eexists _, _. split; [done|].
  assert (Hv2id : dev_view dev2 !! id = Some (cache bc)).
  { by rewrite Hv2, decide_False, Hv, lookup_insert_eq. }
  split_and!.
  - cbn. by rewrite Hk.
  - apply Forall_cons. split; [|done]. by apply (entry_clean dev d (id, bc) dev2 bc1).
  - intros x. cbn. destruct (decide (x = id)) as [->|Hne].
    + by rewrite Hv2id, decide_True by (by left).
    + rewrite Hv2, Hv. destruct (decide (x ∈ q.*1)) as [Hx|Hx].
      * by rewrite decide_True by (by right).
      * rewrite decide_False, lookup_insert_ne; [done..|]. by intros [?|?]%elem_of_cons.
Qed.

Lemma sync_all_spec st d :
  repr st d [] ->
  exists st', block_cache_sync_all st = Ret st' /\ repr st' d [] /\ dev_view (block_device st') = d.
Proof.
  intros Hr. pose proof Hr as []. unfold block_cache_sync_all. rewrite rp_held0.
  destruct (sync_queue_spec d (block_device st) (queue st)) as (dev & q & -> & Hk & Hq & Hv); [done..|].
  cbn [mbind outcome_bind]. eexists. split; [done|].
  assert (Hall : dev_view dev = d).
  { apply map_eq. intros id. rewrite Hv. case_decide; [done|]. by rewrite rp_disk0. }
  split; [|done]. split; cbn [block_device queue held]; rewrite ?Hk; try done.
  - assert (length q = length (queue st)) as ->; [|done]. by rewrite <- (length_fmap fst q), Hk, length_fmap.
  - intros x _. by rewrite Hall.
Qed.

(** ** Sequences of cache operations *)

Inductive cache_op : Type :=
| OpRead (id : Z)
| OpWrite (id off : Z) (bytes : list Z)
| OpSyncAll.

Definition cache_op_ok (dev : D) (op : cache_op) : Prop :=
  match op with
  | OpRead id => is_Some (dev_view dev !! id)
  | OpWrite id off bytes => is_Some (dev_view dev !! id) /\ 0 <= off /\ off + Z.of_nat (length bytes) <= 512 /\
      Forall (in_width 8) bytes
  | OpSyncAll => True
  end.

(** Through the cache: a read returns the block, a write stores a range. *)
Definition run_cache_op st (op : cache_op) : outcome (list Z * CacheManager D) :=
  match op with
  | OpRead id => read st id 0 (fun (b : DataBlock) st => Ret (b, st))
  | OpWrite id off bytes => modify st id 0 (fun (b : DataBlock) st => Ret ([], splice b off bytes : DataBlock, st))
  | OpSyncAll => st' ← block_cache_sync_all st; Ret ([], st')
  end.

Fixpoint run_cache_ops st (ops : list cache_op) : outcome (list (list Z) * CacheManager D) :=
  match ops with
  | [] => Ret ([], st)
  | op :: ops' =>
      '(r, st1) ← run_cache_op st op;
      '(rs, st2) ← run_cache_ops st1 ops';
      Ret (r :: rs, st2)
  end.

(** On a plain array of blocks. *)
Definition disk_op d (op : cache_op) : list Z * gmap Z (list Z) :=
  match op with
  | OpRead id => (default [] (d !! id), d)
  | OpWrite id off bytes => ([], <[id := splice (default [] (d !! id)) off bytes]> d)
  | OpSyncAll => ([], d)
  end.

Fixpoint disk_ops d (ops : list cache_op) : list (list Z) * gmap Z (list Z) :=
  match ops with
  | [] => ([], d)
  | op :: ops' => let '(r, d1) := disk_op d op in let '(rs, d2) := disk_ops d1 ops' in (r :: rs, d2)
  end.

End Facts.

#[export] Instance DataBlock_laws : PodLaws DataBlock.
Proof.
  refine (Build_PodLaws DataBlock _ block_ok _ _ _ _ _).
  - cbn. unfold BLOCK_SZ. lia.
  - done.
  - intros v bs [Hv _] Hl. rewrite Hl. exact Hv.
  - intros v bs [_ Hv] _. exact Hv.
  - done.
Defined.

Section Sequences.
Context {D : Type} {BD : BlockDevice D} {BL : BlockDeviceLaws D}.
Implicit Type st : CacheManager D.
Implicit Type d : gmap Z (list Z).

Lemma dom_repr st d h id : repr st d h -> is_Some (d !! id) <-> is_Some (dev_view (block_device st) !! id).
Proof.
  intros []. destruct (decide (id ∈ (queue st).*1)) as [Hin|Hn]; [|by rewrite rp_disk0].
  apply list_elem_of_fmap in Hin as (p & -> & Hp).
  destruct (proj1 (Forall_forall _ _) rp_entry0 p Hp) as [_ E2 E3 _]. rewrite E2. split; [done|by eexists].
Qed.

(** Whole blocks. *)
Lemma read_block_pure {V} st d h id (b : list Z) (g : DataBlock -> V) :
  repr st d h -> d !! id = Some b -> id ∉ h -> (length h < BLOCK_CACHE_SIZE)%nat ->
  exists st', read st id 0 (fun (t : DataBlock) st => Ret (g t, st)) = Ret (g b, st') /\ repr st' d h.
Proof.
  intros Hr Hb Hn Hh. destruct (read_pure st d h id 0 b g) as (st' & E & Hr'); try done.
  destruct (rp_ok _ _ _ Hr _ _ Hb) as [Hl _]. exists st'. split; [|done]. rewrite E. cbn.
  assert (slice b 0 BLOCK_SZ = b) as ->; [|done]. unfold slice. rewrite drop_0. apply take_ge. by rewrite Hl.
Qed.

Lemma modify_block_pure {V} st d h id (b : list Z) (g : DataBlock -> V) (u : DataBlock -> DataBlock) :
  repr st d h -> d !! id = Some b -> id ∉ h -> (length h < BLOCK_CACHE_SIZE)%nat -> block_ok (u b) ->
  exists st', modify st id 0 (fun (t : DataBlock) st => Ret (g t, u t, st)) = Ret (g b, st') /\
    repr st' (<[id := (u b : list Z)]> d) h.
Proof.
  intros Hr Hb Hn Hh Hu. destruct (rp_ok _ _ _ Hr _ _ Hb) as [Hl _].
  assert (Hs : slice b 0 BLOCK_SZ = b) by (unfold slice; rewrite drop_0; apply take_ge; by rewrite Hl).
  destruct (modify_pure st d h id 0 b g u) as (st' & E & Hr'); try done; cbn in *; rewrite Hs in *; [done|].
  exists st'. split; [exact E|]. assert (splice b 0 (u b) = u b) as Ev; [|by rewrite Ev in Hr'].
  unfold splice. change (Z.to_nat 0) with 0%nat. rewrite take_0, drop_ge, app_nil_r; [done|].
  destruct Hu as [Hu _]. unfold DataBlock in *. lia.
Qed.

Lemma run_cache_op_refines st d op :
  repr st d [] -> cache_op_ok (block_device st) op ->
  exists st', run_cache_op st op = Ret ((disk_op d op).1, st') /\ repr st' (disk_op d op).2 [] /\
    (op = OpSyncAll -> dev_view (block_device st') = d).
Proof.
  intros Hr Hop. destruct op as [id|id off bytes|]; cbn [run_cache_op disk_op fst snd].
  - destruct (proj2 (dom_repr _ _ _ id Hr) Hop) as [b Hb]. rewrite Hb.
    destruct (read_block_pure st d [] id b (fun b => b : list Z)) as (st' & E & Hr');
      [done|done|apply not_elem_of_nil|cbn; unfold BLOCK_CACHE_SIZE; lia|]. by exists st'.
  - destruct Hop as (Hin & Ho & Hl & Hby). destruct (proj2 (dom_repr _ _ _ id Hr) Hin) as [b Hb]. rewrite Hb.
    destruct (rp_ok _ _ _ Hr _ _ Hb) as [Hlb Hrb].
    destruct (modify_block_pure st d [] id b (fun _ => [] : list Z) (fun b => splice b off bytes)) as (st' & E & Hr');
      [done|done|apply not_elem_of_nil|cbn; unfold BLOCK_CACHE_SIZE; lia| |by exists st'].
    split; [rewrite length_splice; unfold DataBlock in *; lia|by apply splice_range].
  - destruct (sync_all_spec st d Hr) as (st' & -> & Hr' & Hv). by exists st'.
Qed.

Lemma repr_dom_dev st d st' d' op :
  repr st d [] -> repr st' d' [] -> d' = (disk_op d op).2 -> cache_op_ok (block_device st) op ->
  forall id, is_Some (dev_view (block_device st') !! id) <-> is_Some (dev_view (block_device st) !! id).
Proof.
  intros Hr Hr' -> Hop id. rewrite <- (dom_repr _ _ _ id Hr'), <- (dom_repr _ _ _ id Hr).
  destruct op as [j|j off bytes|]; cbn; [done| |done]. destruct (decide (j = id)) as [->|]; [|by rewrite lookup_insert_ne].
  rewrite lookup_insert_eq. split; [|by eexists]. intros _. apply (dom_repr _ _ _ id Hr). apply Hop.
Qed.

Lemma run_cache_ops_refines ops : forall st d,
  repr st d [] -> Forall (cache_op_ok (block_device st)) ops ->
  exists st', run_cache_ops st ops = Ret ((disk_ops d ops).1, st') /\ repr st' (disk_ops d ops).2 [].
Proof.
  induction ops as [|op ops IH]; intros st d Hr Hops; [by exists st|].
  apply Forall_cons in Hops as [Hop Hops]. cbn [run_cache_ops disk_ops].
  destruct (run_cache_op_refines st d op Hr Hop) as (st1 & -> & Hr1 & _). cbn [mbind outcome_bind].
  destruct (IH st1 (disk_op d op).2 Hr1) as (st2 & -> & Hr2).
  { eapply Forall_impl; [exact Hops|]. intros op' Hop'.
    pose proof (repr_dom_dev st d st1 _ op Hr Hr1 eq_refl Hop) as Hd. destruct op'; cbn in *; rewrite ?Hd; done. }
  cbn [mbind outcome_bind]. destruct (disk_op d op) as [r d1]; cbn in *. destruct (disk_ops d1 ops) as [rs d2].
  by exists st2.
Qed.

(** C29: the block cache is invisible and write-back.  For any sequence of block
    reads, writes of byte ranges and [block_cache_sync_all] calls on blocks the
    device has, starting from an empty cache, no call panics or blocks, every
    read returns what a plain array of blocks would hold, whichever blocks
    were evicted in between, and after a final [block_cache_sync_all] the
    device holds exactly that array. *)
Theorem block_cache_refines_disk dev ops :
  Forall (cache_op_ok dev) ops ->
  exists st, run_cache_ops (manager_new dev) ops = Ret ((disk_ops (dev_view dev) ops).1, st) /\
    exists st', block_cache_sync_all st = Ret st' /\
      dev_view (block_device st') = (disk_ops (dev_view dev) ops).2.
Proof.
  intros Hops. destruct (run_cache_ops_refines ops (manager_new dev) (dev_view dev)) as (st & E & Hr);
    [apply manager_new_repr|done|].
  exists st. split; [done|]. destruct (sync_all_spec st _ Hr) as (st' & E' & _ & Hv). by exists st'.
Qed.

End Sequences.
