(* ===== verification/EfsWords.v ===== *)
(** * Blocks as arrays of little-endian words

    [type BitmapBlock = [u64; 64]] and [type IndirectBlock = [u32; 128]] are
    512-byte blocks seen as [cnt] words of [n] bytes. *)
From S2P Require Import Prelude EfsCache EfsCacheFacts.
Import EfsCache.

Definition Words (n : Z) (cnt : nat) : Set := list Z.

Definition words (n : Z) (cnt : nat) (bs : list Z) : list Z :=
  (fun i => le_value (slice bs (n * i) n)) <$> seqZ 0 (Z.of_nat cnt).
Definition word_bytes (n : Z) (ws : list Z) : list Z := concat (le_bytes n <$> ws).

#[export] Instance Words_pod n cnt : Pod (Words n cnt) := {|
  size_of := n * Z.of_nat cnt;
  of_bytes := words n cnt;
  to_bytes := fun v _ => word_bytes n v;
|}.
#[global] Typeclasses Opaque Words.

(** [bitmap.rs] and [layout.rs] *)
Abbreviation BitmapBlock := (Words 8 64).
Abbreviation IndirectBlock := (Words 4 128).

(** ** Round trips *)

Lemma length_words n cnt bs : length (words n cnt bs) = cnt.
Proof. unfold words. rewrite length_fmap, length_seqZ. lia. Qed.

Lemma length_word_bytes n ws : 0 <= n -> length (word_bytes n ws) = (Z.to_nat n * length ws)%nat.
Proof.
  intros Hn. unfold word_bytes. induction ws as [|w ws IH]; cbn; [lia|].
  rewrite length_app, length_le_bytes, IH by done. lia.
Qed.

Lemma word_bytes_range n ws : 0 <= n -> Forall (in_width 8) (word_bytes n ws).
Proof.
  intros Hn. unfold word_bytes. induction ws as [|w ws IH]; cbn; [done|].
  apply Forall_app. auto using le_bytes_range.
Qed.

Lemma slice_app_l l k off len :
  0 <= off -> 0 <= len -> off + len <= Z.of_nat (length l) -> slice (l ++ k) off len = slice l off len.
Proof.
  intros. unfold slice. rewrite drop_app_le by lia. rewrite take_app_le; [done|]. rewrite length_drop. lia.
Qed.

Lemma slice_app_r l k off len :
  Z.of_nat (length l) <= off -> slice (l ++ k) off len = slice k (off - Z.of_nat (length l)) len.
Proof. intros. unfold slice. rewrite drop_app_ge by lia. do 2 f_equal. lia. Qed.

(** Word [i] of the encoded array. *)
Lemma word_bytes_word n ws i w :
  0 < n -> Forall (in_width (8 * n)) ws -> ws !! i = Some w ->
  le_value (slice (word_bytes n ws) (n * Z.of_nat i) n) = w.
Proof.
  intros Hn. revert i. induction ws as [|x ws IH]; intros i Hws Hi; [done|].
  apply Forall_cons in Hws as [Hx Hws]. unfold word_bytes in *. cbn [fmap list_fmap concat].
  destruct i as [|i]; cbn in Hi.
  - injection Hi as ->. rewrite slice_app_l by (rewrite ?length_le_bytes by lia; lia).
    rewrite Z.mul_0_r. unfold slice. rewrite drop_0, take_ge by (rewrite length_le_bytes; lia).
    apply le_bytes_value; [lia|done].
  - rewrite slice_app_r by (rewrite length_le_bytes by lia; lia). rewrite length_le_bytes by lia.
    rewrite <- (IH i Hws Hi). do 3 f_equal. lia.
Qed.

Lemma words_word_bytes n cnt ws :
  0 < n -> length ws = cnt -> Forall (in_width (8 * n)) ws -> words n cnt (word_bytes n ws) = ws.
Proof.
  intros Hn Hl Hws. apply list_eq_same_length with cnt; [done|apply length_words|].
  intros i x y Hi Hx Hy. unfold words in Hx. rewrite list_lookup_fmap, lookup_seqZ_lt in Hx by lia.
  injection Hx as <-. rewrite Z.add_0_l. by apply word_bytes_word.
Qed.

Lemma le_value_width bs : Forall (in_width 8) bs -> in_width (8 * Z.of_nat (length bs)) (le_value bs).
Proof.
  intros H. unfold in_width, le_value. rewrite Z.mul_comm. by apply (little_endian_to_Z_bound 8 bs).
Qed.

Lemma words_range n cnt bs :
  0 < n -> Forall (in_width 8) bs -> Z.of_nat (length bs) = n * Z.of_nat cnt ->
  Forall (in_width (8 * n)) (words n cnt bs).
Proof.
  intros Hn Hb Hl. unfold words. apply Forall_fmap, Forall_forall. intros i Hi%elem_of_seqZ. cbn.
  pose proof (le_value_width (slice bs (n * i) n) (slice_range _ _ _ Hb)) as H.
  rewrite length_slice in H by nia. by rewrite Z2Nat.id in H by lia.
Qed.

Lemma le_bytes_le_value bs : Forall (in_width 8) bs -> le_bytes (Z.of_nat (length bs)) (le_value bs) = bs.
Proof. intros H. unfold le_bytes, le_value. by rewrite Z_to_little_endian_to_Z by (lia || done). Qed.

Lemma word_bytes_words n cnt bs :
  0 < n -> Forall (in_width 8) bs -> length bs = (Z.to_nat n * cnt)%nat -> word_bytes n (words n cnt bs) = bs.
Proof.
  intros Hn. revert bs. induction cnt as [|cnt IH]; intros bs Hb Hl.
  { destruct bs; [done|cbn in Hl; lia]. }
  assert (Hs : bs = slice bs 0 n ++ drop (Z.to_nat n) bs).
  { unfold slice. rewrite drop_0. symmetry. apply take_drop. }
  assert (E : words n (S cnt) bs = le_value (slice bs 0 n) :: words n cnt (drop (Z.to_nat n) bs)).
  { unfold words. rewrite Nat2Z.inj_succ, seqZ_cons by lia. cbn [fmap list_fmap]. rewrite Z.mul_0_r. f_equal.
    rewrite Z.pred_succ. change (seqZ (Z.succ 0)) with (seqZ (0 + 1)). rewrite <- (fmap_add_seqZ 1 0).
    rewrite <- list_fmap_compose. apply list_fmap_ext. intros j x Hx. cbn. f_equal.
    unfold slice. rewrite drop_drop. do 2 f_equal.
    apply list_elem_of_lookup_2, elem_of_seqZ in Hx. nia. }
  rewrite E. unfold word_bytes. cbn [fmap list_fmap concat].
  fold (word_bytes n (words n cnt (drop (Z.to_nat n) bs))).
  rewrite IH; [|by apply Forall_drop|rewrite length_drop; lia].
  pose proof (le_bytes_le_value (slice bs 0 n) (slice_range _ _ _ Hb)) as Hv.
  rewrite length_slice in Hv by lia. rewrite Z2Nat.id in Hv by lia. rewrite Hv. by rewrite <- Hs.
Qed.

#[export] Instance BitmapBlock_laws : PodLaws BitmapBlock.
Proof.
  refine (Build_PodLaws BitmapBlock _ (fun v => length v = 64%nat /\ Forall (in_width 64) v) _ _ _ _ _).
  - cbn. lia.
  - intros bs Hl Hb. cbn in *. split; [apply length_words|]. apply (words_range 8); [lia|done|lia].
  - intros v bs [Hv _] Hl. cbn in *. rewrite length_word_bytes, Hv, Hl by lia. lia.
  - intros v bs _ _. by apply word_bytes_range.
  - intros v bs [Hv Hw] _. cbn. by apply words_word_bytes.
Defined.

#[export] Instance IndirectBlock_laws : PodLaws IndirectBlock.
Proof.
  refine (Build_PodLaws IndirectBlock _ (fun v => length v = 128%nat /\ Forall (in_width 32) v) _ _ _ _ _).
  - cbn. lia.
  - intros bs Hl Hb. cbn in *. split; [apply length_words|]. apply (words_range 4); [lia|done|lia].
  - intros v bs [Hv _] Hl. cbn in *. rewrite length_word_bytes, Hv, Hl by lia. lia.
  - intros v bs _ _. by apply word_bytes_range.
  - intros v bs [Hv Hw] _. cbn. by apply words_word_bytes.
Defined.

(** ** Reading and changing a block of words *)

Lemma block_slice b : block_ok b -> slice b 0 512 = b.
Proof. intros [Hl _]. unfold slice. rewrite drop_0. apply take_ge. by rewrite Hl. Qed.

Lemma splice_whole b v : length b = 512%nat -> length v = 512%nat -> splice b 0 v = v.
Proof.
  intros Hb Hv. unfold splice. change (Z.to_nat 0) with 0%nat. rewrite take_0, drop_ge, app_nil_r; [done|]. lia.
Qed.

(** The arrays a block can be seen as. *)
Definition words_ok (n : Z) (cnt : nat) (ws : list Z) : Prop :=
  length ws = cnt /\ Forall (in_width (8 * n)) ws.

Lemma bitmap_pod_ok (v : BitmapBlock) : pod_ok v <-> words_ok 8 64 v.
Proof. done. Qed.
Lemma indirect_pod_ok (v : IndirectBlock) : pod_ok v <-> words_ok 4 128 v.
Proof. done. Qed.

Lemma words_block_ok n cnt b :
  block_ok b -> 0 < n -> n * Z.of_nat cnt = 512 -> words_ok n cnt (words n cnt b).
Proof. intros [Hl Hb] Hn Hs. split; [apply length_words|]. apply words_range; [done|done|lia]. Qed.

Lemma word_bytes_block n cnt ws : 0 < n -> n * Z.of_nat cnt = 512 -> length ws = cnt -> block_ok (word_bytes n ws).
Proof. intros Hn Hs Hl. split; [rewrite length_word_bytes by lia; nia|apply word_bytes_range; lia]. Qed.

Section WordBlocks.
Context {D : Type} {BD : BlockDevice D} {BL : BlockDeviceLaws D}.
Context (n : Z) (cnt : nat) {PL : PodLaws (Words n cnt)}.
Context (Hn : 0 < n) (Hsz : n * Z.of_nat cnt = 512)
  (Hok : forall v : Words n cnt, pod_ok v <-> words_ok n cnt v).
Implicit Type st : CacheManager D.
Implicit Type d : gmap Z (list Z).

Lemma read_words {V} st d h id b (g : list Z -> V) :
  repr st d h -> d !! id = Some b -> id ∉ h -> (length h < BLOCK_CACHE_SIZE)%nat ->
  exists st', read st id 0 (fun (t : Words n cnt) st => Ret (g t, st)) = Ret (g (words n cnt b), st') /\ repr st' d h.
Proof.
  intros Hr Hb Hnh Hh. destruct (read_pure (T := Words n cnt) st d h id 0 b g) as (st' & E & Hr'); try done.
  { cbn. lia. }
  exists st'. split; [|done]. rewrite E. cbn. rewrite Hsz, block_slice; [done|]. by apply (rp_ok _ _ _ Hr _ _ Hb).
Qed.

(** Closures that work on other blocks as well. *)
Lemma modify_words_spec {V} st d h id b (f : Words n cnt -> CacheManager D -> outcome (V * Words n cnt * CacheManager D))
    (Post : V -> list Z -> gmap Z (list Z) -> Prop) :
  repr st d h -> d !! id = Some b -> id ∉ h -> (length h < BLOCK_CACHE_SIZE)%nat ->
  (forall st1, repr st1 d (id :: h) -> exists v t st2 d2,
     f (words n cnt b) st1 = Ret (v, t, st2) /\ repr st2 d2 (id :: h) /\ words_ok n cnt t /\ Post v t d2) ->
  exists v t st' d2, modify st id 0 f = Ret (v, st') /\ words_ok n cnt t /\ Post v t d2 /\
    repr st' (<[id := word_bytes n t]> d2) h.
Proof.
  intros Hr Hb Hnh Hh Hf. pose proof (rp_ok _ _ _ Hr _ _ Hb) as Hbok.
  destruct (modify_spec (T := Words n cnt) st d h id 0 b f Post) as (v & t & st' & d2 & E & Ht & HP & Hr'); try done.
  { cbn. lia. }
  { cbn [size_of of_bytes Words_pod]. rewrite Hsz, block_slice by done. intros st1 Hr1.
    destruct (Hf st1 Hr1) as (v & t & st2 & d2 & E & Hr2 & Ht & HP). exists v, t, st2, d2.
    split_and!; try done. by apply Hok. }
  exists v, t, st', d2. apply Hok in Ht as Ht'. split_and!; try done. cbn [to_bytes Words_pod] in Hr'.
  rewrite splice_whole in Hr'; [done|apply Hbok|]. by apply (word_bytes_block n cnt), Ht'.
Qed.

Lemma modify_words {V} st d h id b (g : list Z -> V) (u : list Z -> list Z) :
  repr st d h -> d !! id = Some b -> id ∉ h -> (length h < BLOCK_CACHE_SIZE)%nat ->
  words_ok n cnt (u (words n cnt b)) ->
  exists st', modify st id 0 (fun (t : Words n cnt) st => Ret (g t, u t : Words n cnt, st)) = Ret (g (words n cnt b), st') /\
    repr st' (<[id := word_bytes n (u (words n cnt b))]> d) h.
Proof.
  intros Hr Hb Hnh Hh Hu.
  destruct (modify_words_spec st d h id b (fun (t : Words n cnt) st => Ret (g t, u t : Words n cnt, st))
    (fun v t d2 => v = g (words n cnt b) /\ t = u (words n cnt b) /\ d2 = d))
    as (v & t & st' & d2 & E & _ & (-> & -> & ->) & Hr'); try done.
  - intros st1 Hr1. by eexists _, _, _, _.
  - by exists st'.
Qed.

End WordBlocks.
