(* ===== verification/EfsBitmap.v ===== *)
(** * easy-fs: allocation bitmaps ([easy-fs/src/bitmap.rs])

    A bitmap is a run of blocks; bit [k] is bit [k mod 64] of a 64-bit word.
    [bit_set] reads it off the disk contents; [alloc] takes the lowest clear
    bit and changes no other, [dealloc] gives one back. *)
From S2P Require Import Prelude EfsCache EfsCacheFacts EfsWords.
Import EfsCache.

Module EfsBitmap.

Definition BLOCK_BITS : Z := BLOCK_SZ * 8.

Record Bitmap : Type := mkBitmap { start_block_id : Z; blocks : Z }.

(** (block_pos, bits64_pos, inner_pos) *)
Definition decomposition (bit : Z) : Z * Z * Z :=
  let block_pos := bit / BLOCK_BITS in
  let bit := bit mod BLOCK_BITS in
  (block_pos, bit / 64, bit mod 64).

(** [u64::trailing_ones], with the width as fuel. *)
Fixpoint trailing_ones (width : nat) (z : Z) : Z :=
  match width with
  | O => 0
  | S w => if Z.testbit z 0 then 1 + trailing_ones w (Z.shiftr z 1) else 0
  end.

Section Ops.
Context {D : Type} {BD : BlockDevice D}.
Implicit Type st : CacheManager D.

(** The closure of [alloc]. *)
Definition alloc_in_block (block_id : Z) (bitmap_block : list Z) st
    : outcome (option Z * list Z * CacheManager D) :=
  match list_find (fun bits64 => bits64 <> U64_MAX) bitmap_block with
  | Some (bits64_pos, bits64) =>
      let inner_pos := trailing_ones 64 bits64 in
      bitmap_block' ← update bitmap_block (Z.of_nat bits64_pos) (Z.lor bits64 (wrap 64 (Z.shiftl 1 inner_pos)));
      Ret (Some (wrap 64 (block_id * BLOCK_BITS + Z.of_nat bits64_pos * 64 + inner_pos)), bitmap_block', st)
  | None => Ret (None, bitmap_block, st)
  end.

Fixpoint alloc_loop (self : Bitmap) st (ids : list Z) : outcome (option Z * CacheManager D) :=
  match ids with
  | [] => Ret (None, st)
  | block_id :: ids' =>
      '(pos, st) ← modify (T := BitmapBlock) st (wrap 64 (block_id + start_block_id self)) 0
                      (alloc_in_block block_id);
      match pos with Some _ => Ret (pos, st) | None => alloc_loop self st ids' end
  end.

Definition alloc (self : Bitmap) st : outcome (option Z * CacheManager D) :=
  alloc_loop self st (seqZ 0 (blocks self)).

(** The closure of [dealloc]. *)
Definition dealloc_in_block (bits64_pos inner_pos : Z) (bitmap_block : list Z) st
    : outcome (unit * list Z * CacheManager D) :=
  w ← index bitmap_block bits64_pos;
  _ ← assert_ (0 <? Z.land w (wrap 64 (Z.shiftl 1 inner_pos)));
  bitmap_block' ← update bitmap_block bits64_pos (wrap 64 (w - wrap 64 (Z.shiftl 1 inner_pos)));
  Ret (tt, bitmap_block', st).

Definition dealloc (self : Bitmap) st (bit : Z) : outcome (CacheManager D) :=
  let '(block_pos, bits64_pos, inner_pos) := decomposition bit in
  '(_, st) ← modify (T := BitmapBlock) st (wrap 64 (block_pos + start_block_id self)) 0
               (dealloc_in_block bits64_pos inner_pos);
  Ret st.

Definition maximum (self : Bitmap) : Z := wrap 64 (blocks self * BLOCK_BITS).

End Ops.
End EfsBitmap.

Import EfsBitmap.

(** ** Bits on the disk *)

Definition word_of (d : gmap Z (list Z)) (id i : Z) : Z :=
  default 0 (words 8 64 (default [] (d !! id)) !! Z.to_nat i).

Definition bit_set (d : gmap Z (list Z)) (bm : Bitmap) (k : Z) : bool :=
  Z.testbit (word_of d (start_block_id bm + k / 4096) (k mod 4096 / 64)) (k mod 64).

Definition in_bitmap (bm : Bitmap) (id : Z) : Prop := start_block_id bm <= id < start_block_id bm + blocks bm.

(** The bitmap's blocks are on the disk. *)
Record bitmap_ok (d : gmap Z (list Z)) (bm : Bitmap) : Prop := {
  bm_start : 0 <= start_block_id bm;
  bm_blocks : 0 <= blocks bm < 2 ^ 32;
  bm_end : start_block_id bm + blocks bm <= 2 ^ 32;
  bm_there : forall id, in_bitmap bm id -> is_Some (d !! id);
}.

(** Nothing but bitmap blocks differs, and no block appears or goes. *)
Definition only_bitmap (d d' : gmap Z (list Z)) (bm : Bitmap) : Prop :=
  (forall id, ~ in_bitmap bm id -> d' !! id = d !! id) /\ (forall id, is_Some (d' !! id) <-> is_Some (d !! id)).

(** ** Words *)

Lemma trailing_ones_spec w : forall z,
  0 <= trailing_ones w z <= Z.of_nat w /\
  (forall j, 0 <= j < trailing_ones w z -> Z.testbit z j = true) /\
  (trailing_ones w z < Z.of_nat w -> Z.testbit z (trailing_ones w z) = false).
Proof.
  induction w as [|w IH]; intros z; cbn [trailing_ones]; [split_and!; lia|].
  destruct (Z.testbit z 0) eqn:E; [|split_and!; (lia || done)].
  destruct (IH (Z.shiftr z 1)) as (Hr & Ho & Hz). split; [lia|split].
  - intros j Hj. destruct (decide (j = 0)) as [->|]; [done|].
    specialize (Ho (j - 1)). rewrite Z.shiftr_spec in Ho by lia. replace (j - 1 + 1) with j in Ho by lia. apply Ho. lia.
  - intros Hlt. rewrite Z.shiftr_spec in Hz by lia. rewrite Z.add_comm. apply Hz. lia.
Qed.

Lemma all_ones_max z : in_width 64 z -> (forall j, 0 <= j < 64 -> Z.testbit z j = true) -> z = U64_MAX.
Proof.
  intros Hz Hj. apply Z.bits_inj'. intros j H0. unfold U64_MAX. rewrite Z.sub_1_r, <- Z.ones_equiv.
  destruct (decide (j < 64)).
  - rewrite Z.ones_spec_low by lia. apply Hj. lia.
  - rewrite Z.ones_spec_high by lia. apply (testbit_high 64); [lia|done].
Qed.

Lemma trailing_ones_lt z : in_width 64 z -> z <> U64_MAX -> trailing_ones 64 z < 64.
Proof.
  intros Hz Hn. destruct (trailing_ones_spec 64 z) as (Hr & Ho & _).
  destruct (decide (trailing_ones 64 z < 64)); [done|]. exfalso. apply Hn, all_ones_max; [done|].
  intros j Hj. apply Ho. lia.
Qed.

Lemma testbit_max j : 0 <= j < 64 -> Z.testbit U64_MAX j = true.
Proof. intros. unfold U64_MAX. rewrite Z.sub_1_r, <- Z.ones_equiv. apply Z.ones_spec_low. lia. Qed.

Lemma shift_small i : 0 <= i < 64 -> wrap 64 (Z.shiftl 1 i) = Z.shiftl 1 i.
Proof.
  intros Hi. apply wrap_small. rewrite Z.shiftl_1_l. split; [lia|]. apply Z.pow_lt_mono_r; lia.
Qed.

Lemma one_shift_width i : 0 <= i < 64 -> in_width 64 (Z.shiftl 1 i).
Proof. intros Hi. rewrite <- shift_small by done. by apply wrap_in_width. Qed.

(** Taking a set bit off by subtraction clears it. *)
Lemma clear_bit_ldiff w q : 0 <= q -> Z.testbit w q = true -> w - Z.shiftl 1 q = Z.ldiff w (Z.shiftl 1 q).
Proof.
  intros Hq Hb. rewrite Z.sub_nocarry_ldiff; [done|]. apply Z.bits_inj'. intros j Hj.
  rewrite Z.ldiff_spec, testbit_one_shift, Z.bits_0 by done. case_bool_decide; subst; [|done]. by rewrite Hb.
Qed.

Lemma clear_bit_spec w q j :
  Z.testbit w q = true -> 0 <= q -> in_width 64 w -> 0 <= j ->
  Z.testbit (w - Z.shiftl 1 q) j = if decide (j = q) then false else Z.testbit w j.
Proof.
  intros Hb Hq Hw Hj. rewrite clear_bit_ldiff by done. rewrite Z.ldiff_spec, testbit_one_shift by done.
  case_decide.
  - rewrite bool_decide_eq_true_2 by done. apply andb_false_r.
  - rewrite bool_decide_eq_false_2 by lia. apply andb_true_r.
Qed.

Lemma clear_bit_width w q : Z.testbit w q = true -> 0 <= q -> in_width 64 w -> in_width 64 (w - Z.shiftl 1 q).
Proof.
  intros Hb Hq Hw. split.
  - rewrite clear_bit_ldiff by done. apply Z.ldiff_nonneg. left. apply Hw.
  - rewrite Z.shiftl_1_l. unfold in_width in Hw. lia.
Qed.

(** ** A block of the bitmap *)

Lemma words_bitmap_ok b : block_ok b -> words_ok 8 64 (words 8 64 b).
Proof. intros. by apply words_block_ok. Qed.

Lemma word_of_insert_ne d id b id' i : id <> id' -> word_of (<[id := b]> d) id' i = word_of d id' i.
Proof. intros. unfold word_of. by rewrite lookup_insert_ne. Qed.

Lemma word_of_store d id ws i :
  words_ok 8 64 ws -> 0 <= i -> word_of (<[id := word_bytes 8 ws]> d) id i = default 0 (ws !! Z.to_nat i).
Proof.
  intros [Hl Hw] Hi. unfold word_of. rewrite lookup_insert_eq. cbn [default from_option Datatypes.id]. by rewrite words_word_bytes.
Qed.

Lemma word_of_block d id b i : d !! id = Some b -> word_of d id i = default 0 (words 8 64 b !! Z.to_nat i).
Proof. intros Hb. unfold word_of. by rewrite Hb. Qed.

Lemma bit_decomp k : 0 <= k -> k = k / 4096 * 4096 + k mod 4096 / 64 * 64 + k mod 64 /\
  0 <= k mod 4096 / 64 < 64 /\ 0 <= k mod 64 < 64.
Proof. intros. lia_mod. Qed.

Section BitmapFacts.
Context {D : Type} {BD : BlockDevice D} {BL : BlockDeviceLaws D}.
Implicit Type st : CacheManager D.
Implicit Type d : gmap Z (list Z).
Implicit Type bm : Bitmap.

Lemma modify_bitmap {V} st d h id b (f : list Z -> CacheManager D -> outcome (V * list Z * CacheManager D)) v t :
  repr st d h -> d !! id = Some b -> id ∉ h -> (length h < BLOCK_CACHE_SIZE)%nat ->
  (forall st1, f (words 8 64 b) st1 = Ret (v, t, st1)) -> words_ok 8 64 t ->
  exists st', modify (T := BitmapBlock) st id 0 f = Ret (v, st') /\ repr st' (<[id := word_bytes 8 t]> d) h.
Proof.
  intros Hr Hb Hn Hh Hf Ht.
  destruct (modify_words_spec 8 64 eq_refl eq_refl bitmap_pod_ok st d h id b f
              (fun v' t' d2 => v' = v /\ t' = t /\ d2 = d))
    as (v' & t' & st' & d2 & E & _ & (-> & -> & ->) & Hr'); try done.
  - intros st1 Hr1. exists v, t, st1, d. by rewrite Hf.
  - by exists st'.
Qed.

Lemma modify_bitmap_panics {V} st d h id b (f : list Z -> CacheManager D -> outcome (V * list Z * CacheManager D)) :
  repr st d h -> d !! id = Some b -> id ∉ h -> (length h < BLOCK_CACHE_SIZE)%nat ->
  (forall st1, f (words 8 64 b) st1 = Panic) -> ('(_, st) ← modify (T := BitmapBlock) st id 0 f; Ret st) = Panic.
Proof.
  intros Hr Hb Hn Hh Hf. unfold modify.
  destruct (lock_spec st d h id b Hr Hb Hn Hh) as (bc & st1 & -> & Hr1 & Hc & _). cbn [mbind outcome_bind].
  unfold get_mut. rewrite check_offset_ok by (cbn; lia). cbn [mbind outcome_bind of_bytes size_of Words_pod].
  change (8 * Z.of_nat 64) with 512. rewrite Hc, block_slice by (by apply (rp_ok _ _ _ Hr _ _ Hb)). by rewrite Hf.
Qed.

(** Bits of a bitmap whose block [i] got the words [ws]. *)
Lemma bit_set_store d bm i ws k :
  words_ok 8 64 ws -> 0 <= k ->
  bit_set (<[start_block_id bm + i := word_bytes 8 ws]> d) bm k
  = if decide (k / 4096 = i) then Z.testbit (default 0 (ws !! Z.to_nat (k mod 4096 / 64))) (k mod 64)
    else bit_set d bm k.
Proof.
  intros Hws Hk. destruct (bit_decomp k Hk) as (_ & Hi & _). unfold bit_set. case_decide as E.
  - subst i. rewrite word_of_store by (done || lia). done.
  - rewrite word_of_insert_ne by lia. done.
Qed.

Lemma bit_set_block d bm k b :
  d !! (start_block_id bm + k / 4096) = Some b ->
  bit_set d bm k = Z.testbit (default 0 (words 8 64 b !! Z.to_nat (k mod 4096 / 64))) (k mod 64).
Proof. intros Hb. unfold bit_set. by rewrite (word_of_block _ _ _ _ Hb). Qed.

(** One word of block [i] replaced: bit [4096 i + 64 p + q] gets a new value. *)
Lemma bit_set_update d bm i b p q w w' (v : bool) k :
  d !! (start_block_id bm + i) = Some b -> block_ok b -> words 8 64 b !! p = Some w -> 0 <= q < 64 ->
  in_width 64 w' -> (forall j, 0 <= j < 64 -> Z.testbit w' j = if decide (j = q) then v else Z.testbit w j) ->
  0 <= k ->
  bit_set (<[start_block_id bm + i := word_bytes 8 (<[p := w']> (words 8 64 b))]> d) bm k
  = if decide (k = i * 4096 + Z.of_nat p * 64 + q) then v else bit_set d bm k.
Proof.
  intros Hb Hok Hp Hq Hw Hbits Hk. pose proof (lookup_lt_Some _ _ _ Hp) as Hlt. rewrite length_words in Hlt.
  destruct (words_bitmap_ok b Hok) as [Hl Hws]. destruct (bit_decomp k Hk) as (Ek & Hi & Hj).
  rewrite bit_set_store; [|split; [by rewrite length_insert|by apply Forall_insert]|done].
  destruct (decide (k / 4096 = i)) as [Ei|Ei].
  - rewrite (bit_set_block d bm k b) by (by rewrite Ei).
    destruct (decide (p = Z.to_nat (k mod 4096 / 64))) as [Ep|Ep].
    + rewrite <- Ep, list_lookup_insert_eq by (rewrite length_words; lia). rewrite Hp. cbn [default from_option]. rewrite Hbits by done.
      destruct (decide (k mod 64 = q)), (decide (k = i * 4096 + Z.of_nat p * 64 + q)); (done || lia).
    + rewrite list_lookup_insert_ne by done. destruct (decide (k = _)) as [E|]; [|done]. exfalso. apply Ep. lia.
  - destruct (decide (k = _)) as [E|]; [|done]. exfalso. apply Ei. subst k. lia_mod.
Qed.

(** ** [alloc] *)

Lemma bitmap_block_there d bm i : bitmap_ok d bm -> 0 <= i < blocks bm ->
  wrap 64 (i + start_block_id bm) = start_block_id bm + i /\ exists b, d !! (start_block_id bm + i) = Some b.
Proof.
  intros [] Hi. split.
  - rewrite wrap_small; [lia|]. unfold in_width. lia.
  - apply bm_there0. unfold in_bitmap. lia.
Qed.

Lemma only_bitmap_insert d bm i b b' :
  0 <= i < blocks bm -> d !! (start_block_id bm + i) = Some b' -> only_bitmap d (<[start_block_id bm + i := b]> d) bm.
Proof.
  intros Hi Hb. split; intros id.
  - intros Hn. apply lookup_insert_ne. intros <-. apply Hn. unfold in_bitmap. lia.
  - destruct (decide (start_block_id bm + i = id)) as [<-|]; [|by rewrite lookup_insert_ne].
    rewrite lookup_insert_eq, Hb. split; by eexists.
Qed.

(** What [alloc] promises, for the bits from [lo] on. *)
Definition alloc_post d bm (lo : Z) (r : option Z) d' : Prop :=
  match r with
  | Some k => lo <= k < blocks bm * 4096 /\ bit_set d bm k = false /\
      (forall j, lo <= j < k -> bit_set d bm j = true) /\
      (forall j, 0 <= j -> bit_set d' bm j = if decide (j = k) then true else bit_set d bm j)
  | None => (forall j, lo <= j < blocks bm * 4096 -> bit_set d bm j = true) /\ d' = d
  end.

Lemma alloc_in_block_full i b st1 :
  block_ok b -> Forall (fun w => w = U64_MAX) (words 8 64 b) ->
  alloc_in_block i (words 8 64 b) st1 = Ret (None, words 8 64 b, st1).
Proof.
  intros Hok Hf. unfold alloc_in_block.
  assert (list_find (fun bits64 => bits64 <> U64_MAX) (words 8 64 b) = None) as ->; [|done].
  apply list_find_None. eapply Forall_impl; [exact Hf|]. cbn. auto.
Qed.

Lemma set_free_bit w j :
  in_width 64 w -> w <> U64_MAX -> 0 <= j < 64 ->
  let q := trailing_ones 64 w in
  Z.testbit (Z.lor w (Z.shiftl 1 q)) j = if decide (j = q) then true else Z.testbit w j.
Proof.
  intros Hw Hn Hj q. destruct (trailing_ones_spec 64 w) as (Hq & _).
  rewrite testbit_set_bit by (subst q; lia). case_decide.
  - by rewrite bool_decide_eq_true_2.
  - by rewrite bool_decide_eq_false_2 by lia.
Qed.

Lemma alloc_block_step st d h bm i :
  repr st d h -> bitmap_ok d bm -> 0 <= i < blocks bm -> (forall id, in_bitmap bm id -> id ∉ h) ->
  (length h < BLOCK_CACHE_SIZE)%nat ->
  exists r st' d', modify (T := BitmapBlock) st (wrap 64 (i + start_block_id bm)) 0 (alloc_in_block i) = Ret (r, st') /\
    repr st' d' h /\ only_bitmap d d' bm /\
    match r with
    | Some k => alloc_post d bm (i * 4096) (Some k) d'
    | None => d' = d /\ forall j, i * 4096 <= j < (i + 1) * 4096 -> bit_set d bm j = true
    end.
Proof.
  intros Hr Hbm Hi Hfree Hh. destruct (bitmap_block_there d bm i Hbm Hi) as [-> [b Hb]].
  pose proof (rp_ok _ _ _ Hr _ _ Hb) as Hok. destruct (words_bitmap_ok b Hok) as [Hl Hws].
  assert (Hnh : start_block_id bm + i ∉ h) by (apply Hfree; unfold in_bitmap; lia).
  destruct (list_find (fun bits64 => bits64 <> U64_MAX) (words 8 64 b)) as [[p w]|] eqn:Ef.
  - pose proof Ef as Ef'. apply list_find_Some in Ef' as (Hp & Hw & Hlow).
    pose proof (lookup_lt_Some _ _ _ Hp) as Hlt. rewrite length_words in Hlt.
    pose proof (Forall_lookup_1 _ _ _ _ Hws Hp) as Hww. destruct (trailing_ones_spec 64 w) as (Hq & Hones & Hzero).
    pose proof (trailing_ones_lt w Hww Hw) as Hq'. set (q := trailing_ones 64 w) in *.
    set (k := i * 4096 + Z.of_nat p * 64 + q).
    assert (Hwidth : in_width 64 (Z.lor w (Z.shiftl 1 q))).
    { apply lor_in_width; [lia|done|]. apply one_shift_width. lia. }
    destruct (modify_bitmap st d h (start_block_id bm + i) b (alloc_in_block i) (Some k)
                (<[p := Z.lor w (Z.shiftl 1 q)]> (words 8 64 b))) as (st' & -> & Hr'); try done.
    { intros st1. unfold alloc_in_block. rewrite Ef. fold q. rewrite shift_small by lia.
      rewrite update_Ret by (rewrite length_words; lia). cbn [mbind outcome_bind]. rewrite Nat2Z.id.
      rewrite wrap_small; [done|]. destruct Hbm. unfold BLOCK_BITS, BLOCK_SZ, in_width. lia. }
    { split; [by rewrite length_insert|by apply Forall_insert]. }
    eexists (Some k), st', _. split_and!; [done|done|by eapply only_bitmap_insert|].
    cbn [alloc_post]. split; [unfold k; lia|]. split_and!.
    + rewrite (bit_set_block d bm k b) by (replace (k / 4096) with i by (unfold k; lia_mod); done).
      replace (k mod 4096 / 64) with (Z.of_nat p) by (unfold k; lia_mod). rewrite Nat2Z.id, Hp.
      replace (k mod 64) with q by (unfold k; lia_mod). cbn. apply Hzero. lia.
    + intros j Hj. rewrite (bit_set_block d bm j b) by (replace (j / 4096) with i by (unfold k in Hj; lia_mod); done).
      assert (Hjp : j mod 4096 / 64 <= Z.of_nat p) by (unfold k in Hj; lia_mod).
      destruct (lookup_lt_is_Some_2 (words 8 64 b) (Z.to_nat (j mod 4096 / 64))) as [wj Hwj]; [rewrite length_words; lia_mod|].
      rewrite Hwj. cbn. destruct (decide (j mod 4096 / 64 = Z.of_nat p)) as [Ejp|Ejp].
      * rewrite Ejp, Nat2Z.id, Hp in Hwj. injection Hwj as <-. apply Hones. unfold k in Hj. lia_mod.
      * assert (wj = U64_MAX) as ->.
        { apply dec_stable. apply (Hlow (Z.to_nat (j mod 4096 / 64))); [done|lia_mod]. }
        apply testbit_max. lia_mod.
    + intros j Hj. rewrite (bit_set_update d bm i b p q w _ true) by (done || lia || by (intros; apply set_free_bit)). done.
  - assert (Hfull : Forall (fun w => w = U64_MAX) (words 8 64 b)).
    { apply list_find_None in Ef. eapply Forall_impl; [exact Ef|]. cbn. intros x Hx. by apply dec_stable. }
    destruct (modify_bitmap st d h (start_block_id bm + i) b (alloc_in_block i) None (words 8 64 b))
      as (st' & -> & Hr'); try done.
    { intros st1. by apply alloc_in_block_full. }
    rewrite word_bytes_words, insert_id in Hr' by (done || apply Hok).
    exists None, st', d. split_and!; try done. intros j Hj.
    rewrite (bit_set_block d bm j b) by (replace (j / 4096) with i by lia_mod; done).
    destruct (lookup_lt_is_Some_2 (words 8 64 b) (Z.to_nat (j mod 4096 / 64))) as [wj Hwj]; [rewrite length_words; lia_mod|].
    rewrite Hwj. cbn. rewrite (Forall_lookup_1 _ _ _ _ Hfull Hwj). apply testbit_max. lia_mod.
Qed.

Lemma alloc_loop_spec bm n : forall st d h i,
  repr st d h -> bitmap_ok d bm -> 0 <= i -> i + Z.of_nat n = blocks bm -> (forall id, in_bitmap bm id -> id ∉ h) ->
  (length h < BLOCK_CACHE_SIZE)%nat ->
  exists r st' d', alloc_loop bm st (seqZ i (Z.of_nat n)) = Ret (r, st') /\ repr st' d' h /\ only_bitmap d d' bm /\
    alloc_post d bm (i * 4096) r d'.
Proof.
  induction n as [|n IH]; intros st d h i Hr Hbm Hi Hn Hfree Hh.
  { exists None, st, d. split_and!; try done. split; [|done]. intros j Hj. exfalso. lia. }
  rewrite Nat2Z.inj_succ, seqZ_cons, Z.pred_succ by lia. cbn [alloc_loop].
  destruct (alloc_block_step st d h bm i Hr Hbm) as (r & st1 & d1 & -> & Hr1 & Ho1 & Hp); [lia|done..|].
  cbn [mbind outcome_bind]. destruct r as [k|]; [by exists (Some k), st1, d1|]. destruct Hp as [-> Hfull].
  destruct (IH st1 d h (Z.succ i)) as (r & st2 & d2 & -> & Hr2 & Ho2 & Hp); try done; [lia|lia|].
  exists r, st2, d2. split_and!; try done. unfold alloc_post in *. destruct r as [k|].
  - destruct Hp as (Hk & Hz & Hlow & Hset). split_and!; try done; [lia|lia|].
    intros j Hj. destruct (decide (j < (i + 1) * 4096)); [apply Hfull; lia|apply Hlow; lia].
  - destruct Hp as [Hall ->]. split; [|done]. intros j Hj.
    destruct (decide (j < (i + 1) * 4096)); [apply Hfull; lia|apply Hall; lia].
Qed.

Lemma alloc_spec st d h bm :
  repr st d h -> bitmap_ok d bm -> (forall id, in_bitmap bm id -> id ∉ h) -> (length h < BLOCK_CACHE_SIZE)%nat ->
  exists r st' d', alloc bm st = Ret (r, st') /\ repr st' d' h /\ only_bitmap d d' bm /\ alloc_post d bm 0 r d'.
Proof.
  intros Hr Hbm Hfree Hh. unfold alloc. pose proof (bm_blocks _ _ Hbm).
  rewrite <- (Z2Nat.id (blocks bm)) by lia. apply (alloc_loop_spec bm _ st d h 0); try done; lia.
Qed.

(** ** [dealloc] *)

Lemma dealloc_spec st d h bm k :
  repr st d h -> bitmap_ok d bm -> (forall id, in_bitmap bm id -> id ∉ h) -> (length h < BLOCK_CACHE_SIZE)%nat ->
  0 <= k < blocks bm * 4096 ->
  if bit_set d bm k then
    exists st' d', dealloc bm st k = Ret st' /\ repr st' d' h /\ only_bitmap d d' bm /\
      (forall j, 0 <= j -> bit_set d' bm j = if decide (j = k) then false else bit_set d bm j)
  else dealloc bm st k = Panic.
Proof.
  intros Hr Hbm Hfree Hh Hk. set (i := k / 4096). assert (Hi : 0 <= i < blocks bm) by (unfold i; lia_mod).
  destruct (bitmap_block_there d bm i Hbm Hi) as [Ew [b Hb]].
  destruct (bit_decomp k) as (Ek & Hp & Hq); [lia|]. unfold dealloc, decomposition. unfold BLOCK_BITS, BLOCK_SZ.
  change (512 * 8) with 4096. fold i. rewrite Ew.
  replace (k mod 4096 mod 64) with (k mod 64) by lia_mod.
  pose proof (rp_ok _ _ _ Hr _ _ Hb) as Hok. destruct (words_bitmap_ok b Hok) as [Hl Hws].
  set (p := k mod 4096 / 64) in *. set (q := k mod 64) in *.
  destruct (lookup_lt_is_Some_2 (words 8 64 b) (Z.to_nat p)) as [w Hw]; [lia|].
  pose proof (Forall_lookup_1 _ _ _ _ Hws Hw) as Hww.
  assert (Ebit : bit_set d bm k = Z.testbit w q) by (by rewrite (bit_set_block d bm k b Hb); fold p; rewrite Hw).
  assert (Hnh : start_block_id bm + i ∉ h) by (apply Hfree; unfold in_bitmap; lia).
  assert (Hin : forall st1, dealloc_in_block p q (words 8 64 b) st1 =
    if Z.testbit w q then Ret (tt, <[Z.to_nat p := w - Z.shiftl 1 q]> (words 8 64 b), st1) else Panic).
  { intros st1. unfold dealloc_in_block. rewrite (index_Ret _ _ _ Hw). cbn [mbind outcome_bind].
    rewrite shift_small by done. pose proof (land_one_shift w q ltac:(lia)) as Hlo.
    assert (0 <= Z.land w (Z.shiftl 1 q)) by (apply Z.land_nonneg; left; apply Hww).
    destruct (Z.testbit w q) eqn:Eb.
    - destruct (Z.ltb_spec 0 (Z.land w (Z.shiftl 1 q))); [|bool_lia]. cbn [assert_ mbind outcome_bind].
      rewrite update_Ret by lia. cbn [mbind outcome_bind]. rewrite wrap_small; [done|].
      apply clear_bit_width; [done|lia|done].
    - destruct (Z.ltb_spec 0 (Z.land w (Z.shiftl 1 q))); [bool_lia|done]. }
  rewrite Ebit. destruct (Z.testbit w q) eqn:Eb.
  - destruct (modify_bitmap st d h (start_block_id bm + i) b (dealloc_in_block p q) tt
                (<[Z.to_nat p := w - Z.shiftl 1 q]> (words 8 64 b))) as (st' & -> & Hr'); try done.
    { split; [by rewrite length_insert|]. apply Forall_insert; [done|]. apply clear_bit_width; [done|lia|done]. }
    cbn [mbind outcome_bind]. eexists st', _. split_and!; [done|done|by eapply only_bitmap_insert|].
    intros j Hj. rewrite (bit_set_update d bm i b (Z.to_nat p) q w _ false); try done.
    + rewrite Z2Nat.id by lia. fold i in Ek. by rewrite <- Ek.
    + apply clear_bit_width; [done|lia|done].
    + intros j' Hj'. apply clear_bit_spec; [done|lia|done|lia].
  - apply modify_bitmap_panics with d h b; try done.
Qed.

(** ** Sequences of calls *)

Inductive bitmap_op : Type := BmAlloc | BmDealloc (bit : Z).

Definition run_bitmap_op bm st (op : bitmap_op) : outcome (option Z * CacheManager D) :=
  match op with
  | BmAlloc => alloc bm st
  | BmDealloc k => st' ← dealloc bm st k; Ret (None, st')
  end.

Fixpoint run_bitmap_ops bm st (ops : list bitmap_op) : outcome (list (option Z) * CacheManager D) :=
  match ops with
  | [] => Ret ([], st)
  | op :: ops' =>
      '(r, st1) ← run_bitmap_op bm st op;
      '(rs, st2) ← run_bitmap_ops bm st1 ops';
      Ret (r :: rs, st2)
  end.

(** The set of numbers in use: a call takes the least free one, or gives one
    back, which must be in use. *)
Definition set_op (max : Z) (s : gset Z) (op : bitmap_op) : option (option Z * gset Z) :=
  match op with
  | BmAlloc =>
      match list_find (fun k => k ∉ s) (seqZ 0 max) with
      | Some (_, k) => Some (Some k, {[k]} ∪ s)
      | None => Some (None, s)
      end
  | BmDealloc k => if decide (k ∈ s) then Some (None, s ∖ {[k]}) else None
  end.

Fixpoint set_ops (max : Z) (s : gset Z) (ops : list bitmap_op) : option (list (option Z) * gset Z) :=
  match ops with
  | [] => Some ([], s)
  | op :: ops' =>
      '(r, s1) ← set_op max s op;
      '(rs, s2) ← set_ops max s1 ops';
      Some (r :: rs, s2)
  end.

Definition bitmap_op_ok bm (op : bitmap_op) : Prop :=
  match op with BmAlloc => True | BmDealloc k => 0 <= k < blocks bm * 4096 end.

Definition tracks d bm (s : gset Z) : Prop :=
  forall k, 0 <= k < blocks bm * 4096 -> bit_set d bm k = bool_decide (k ∈ s).

Lemma only_bitmap_ok d d' bm : bitmap_ok d bm -> only_bitmap d d' bm -> bitmap_ok d' bm.
Proof. intros [] [_ Hd]. split; try done. intros id Hid. by apply Hd, bm_there0. Qed.

Lemma only_bitmap_refl d bm : only_bitmap d d bm.
Proof. done. Qed.

Lemma only_bitmap_trans d1 d2 d3 bm : only_bitmap d1 d2 bm -> only_bitmap d2 d3 bm -> only_bitmap d1 d3 bm.
Proof. intros [H1 K1] [H2 K2]. split; intros id; [intros Hn; rewrite H2, H1 by done; done|by rewrite K2]. Qed.

Lemma list_find_least (s : gset Z) max k :
  0 <= k < max -> k ∉ s -> (forall j, 0 <= j < k -> j ∈ s) ->
  list_find (fun k => k ∉ s) (seqZ 0 max) = Some (Z.to_nat k, k).
Proof.
  intros Hk Hn Hlow. apply list_find_Some. split_and!; [rewrite lookup_seqZ_lt by lia; f_equal; lia|done|].
  intros i x Hx Hi. apply lookup_seqZ in Hx as [-> _]. intros Hc. apply Hc, Hlow. lia.
Qed.

Lemma bitmap_op_refines st d bm s op :
  repr st d [] -> bitmap_ok d bm -> tracks d bm s -> bitmap_op_ok bm op ->
  match set_op (blocks bm * 4096) s op with
  | Some (r, s') => exists st' d', run_bitmap_op bm st op = Ret (r, st') /\ repr st' d' [] /\
      only_bitmap d d' bm /\ tracks d' bm s'
  | None => run_bitmap_op bm st op = Panic
  end.
Proof.
  intros Hr Hbm Ht Hop. assert (Hfree : forall id, in_bitmap bm id -> id ∉ []) by (intros; apply not_elem_of_nil).
  assert (Hh : (length (@nil Z) < BLOCK_CACHE_SIZE)%nat) by (unfold BLOCK_CACHE_SIZE; cbn; lia).
  destruct op as [|k]; cbn [run_bitmap_op set_op].
  - destruct (alloc_spec st d [] bm Hr Hbm Hfree Hh) as (r & st' & d' & -> & Hr' & Ho & Hp). destruct r as [k|].
    + destruct Hp as (Hk & Hz & Hlow & Hset). rewrite (list_find_least s _ k Hk).
      * exists st', d'. split_and!; try done. intros j Hj. rewrite Hset, Ht by lia. case_decide as E.
        -- rewrite bool_decide_eq_true_2 by set_solver. done.
        -- apply bool_decide_ext. set_solver.
      * rewrite Ht in Hz by lia. by apply bool_decide_eq_false in Hz.
      * intros j Hj. specialize (Hlow j Hj). rewrite Ht in Hlow by lia. by apply bool_decide_eq_true in Hlow.
    + destruct Hp as [Hall ->]. assert (list_find (fun k => k ∉ s) (seqZ 0 (blocks bm * 4096)) = None) as ->.
      { apply list_find_None, Forall_forall. intros j Hj%elem_of_seqZ Hn. apply Hn.
        specialize (Hall j ltac:(lia)). rewrite Ht in Hall by lia. by apply bool_decide_eq_true in Hall. }
      by exists st', d.
  - pose proof (dealloc_spec st d [] bm k Hr Hbm Hfree Hh Hop) as H. rewrite Ht in H by done.
    case_bool_decide as Hk; [rewrite decide_True by done|rewrite decide_False by done; by rewrite H].
    destruct H as (st' & d' & -> & Hr' & Ho & Hset). cbn [mbind outcome_bind]. exists st', d'. split_and!; try done.
    intros j Hj. rewrite Hset, Ht by lia. case_decide as E.
    + symmetry. apply bool_decide_eq_false_2. set_solver.
    + apply bool_decide_ext. set_solver.
Qed.

Lemma bitmap_ops_refine bm ops : forall st d s,
  repr st d [] -> bitmap_ok d bm -> tracks d bm s -> Forall (bitmap_op_ok bm) ops ->
  match set_ops (blocks bm * 4096) s ops with
  | Some (rs, s') => exists st' d', run_bitmap_ops bm st ops = Ret (rs, st') /\ repr st' d' [] /\
      only_bitmap d d' bm /\ tracks d' bm s'
  | None => run_bitmap_ops bm st ops = Panic
  end.
Proof.
  induction ops as [|op ops IH]; intros st d s Hr Hbm Ht Hops; cbn [set_ops run_bitmap_ops].
  { exists st, d. split_and!; try done. }
  apply Forall_cons in Hops as [Hop Hops]. pose proof (bitmap_op_refines st d bm s op Hr Hbm Ht Hop) as H.
  destruct (set_op _ s op) as [[r s1]|]; cbn [mbind option_bind]; [|by rewrite H].
  destruct H as (st1 & d1 & -> & Hr1 & Ho1 & Ht1). cbn [mbind outcome_bind].
  specialize (IH st1 d1 s1 Hr1 (only_bitmap_ok _ _ _ Hbm Ho1) Ht1 Hops).
  destruct (set_ops _ s1 ops) as [[rs s2]|]; cbn [mbind option_bind]; [|by rewrite IH].
  destruct IH as (st2 & d2 & -> & Hr2 & Ho2 & Ht2). exists st2, d2. split_and!; try done.
  by eapply only_bitmap_trans.
Qed.

(** C30: a bitmap on the disk implements a set of numbers.  For any sequence of
    [alloc] and [dealloc] calls, [alloc] returns the least number that is not
    in the set and adds it, or [None] exactly when all are in use; [dealloc]
    removes one, and panics exactly when it is not in use; blocks outside the
    bitmap keep their contents. *)
Theorem bitmap_refines_set st d bm s ops :
  repr st d [] -> bitmap_ok d bm -> tracks d bm s -> Forall (bitmap_op_ok bm) ops ->
  match set_ops (blocks bm * 4096) s ops with
  | Some (rs, s') => exists st' d', run_bitmap_ops bm st ops = Ret (rs, st') /\ repr st' d' [] /\
      (forall id, ~ in_bitmap bm id -> d' !! id = d !! id) /\ tracks d' bm s'
  | None => run_bitmap_ops bm st ops = Panic
  end.
Proof.
  intros Hr Hbm Ht Hops. pose proof (bitmap_ops_refine bm ops st d s Hr Hbm Ht Hops) as H.
  destruct (set_ops _ s ops) as [[rs s']|]; [|done]. destruct H as (st' & d' & ? & ? & [? _] & ?). by exists st', d'.
Qed.

End BitmapFacts.
