(* ===== verification/EfsLayout.v ===== *)
(** * easy-fs: on-disk structures ([easy-fs/src/layout.rs])

    The super block, disk inodes with their direct, indirect and double
    indirect block numbers, and directory entries.  A method that gets
    [&mut self] returns the changed value; the vectors of block numbers are
    lists, and [new_blocks.next()] takes the head. *)
From S2P Require Import Prelude Utf8 EfsCache EfsWords.
Import EfsCache.

Module EfsLayout.

Definition EFS_MAGIC : Z := 0x3b800001.
Definition INODE_DIRECT_COUNT : Z := 28.
Definition NAME_LENGTH_LIMIT : Z := 27.
Definition INODE_INDIRECT1_COUNT : Z := BLOCK_SZ / 4.
Definition INODE_INDIRECT2_COUNT : Z := INODE_INDIRECT1_COUNT * INODE_INDIRECT1_COUNT.
Definition DIRECT_BOUND : Z := INODE_DIRECT_COUNT.
Definition INDIRECT1_BOUND : Z := DIRECT_BOUND + INODE_INDIRECT1_COUNT.
Definition DIRENT_SZ : Z := 32.

(** ** [SuperBlock] *)

Record SuperBlock : Type := mkSuper {
  magic : Z;
  sb_total_blocks : Z;
  inode_bitmap_blocks : Z;
  inode_area_blocks : Z;
  data_bitmap_blocks : Z;
  data_area_blocks : Z;
}.

Definition super_words (s : SuperBlock) : list Z :=
  [magic s; sb_total_blocks s; inode_bitmap_blocks s; inode_area_blocks s; data_bitmap_blocks s; data_area_blocks s].

#[export] Instance SuperBlock_pod : Pod SuperBlock := {|
  size_of := 24;
  of_bytes := fun bs =>
    let w i := default 0 (words 4 6 bs !! i) in
    mkSuper (w 0%nat) (w 1%nat) (w 2%nat) (w 3%nat) (w 4%nat) (w 5%nat);
  to_bytes := fun s _ => word_bytes 4 (super_words s);
|}.

Definition super_initialize (total_blocks inode_bitmap_blocks inode_area_blocks data_bitmap_blocks
    data_area_blocks : Z) : SuperBlock :=
  mkSuper EFS_MAGIC total_blocks inode_bitmap_blocks inode_area_blocks data_bitmap_blocks data_area_blocks.

Definition is_valid (self : SuperBlock) : bool := magic self =? EFS_MAGIC.

(** ** [DiskInode] *)

Inductive DiskInodeType : Type := File | Directory.

#[export] Instance DiskInodeType_eq_dec : EqDecision DiskInodeType.
Proof. solve_decision. Defined.

Record DiskInode : Type := mkInode {
  size : Z;
  direct : list Z;
  indirect1 : Z;
  indirect2 : Z;
  type_ : DiskInodeType;
}.

Definition with_size (self : DiskInode) (v : Z) : DiskInode :=
  mkInode v (direct self) (indirect1 self) (indirect2 self) (type_ self).
Definition with_direct (self : DiskInode) (v : list Z) : DiskInode :=
  mkInode (size self) v (indirect1 self) (indirect2 self) (type_ self).
Definition with_indirect1 (self : DiskInode) (v : Z) : DiskInode :=
  mkInode (size self) (direct self) v (indirect2 self) (type_ self).
Definition with_indirect2 (self : DiskInode) (v : Z) : DiskInode :=
  mkInode (size self) (direct self) (indirect1 self) v (type_ self).

(** The discriminants of [DiskInodeType]; another byte is no value of the type. *)
Definition type_byte (t : DiskInodeType) : Z := match t with File => 0 | Directory => 1 end.
Definition type_of_byte (b : Z) : DiskInodeType := if b =? 1 then Directory else File.

(** 31 words, one byte of type, three of padding. *)
#[export] Instance DiskInode_pod : Pod DiskInode := {|
  size_of := 128;
  of_bytes := fun bs =>
    let ws := words 4 31 bs in
    let w i := default 0 (ws !! i) in
    mkInode (w 0%nat) (take 28 (drop 1 ws)) (w 29%nat) (w 30%nat) (type_of_byte (default 0 (bs !! 124%nat)));
  to_bytes := fun v old =>
    word_bytes 4 (size v :: direct v ++ [indirect1 v; indirect2 v]) ++ type_byte (type_ v) :: drop 125 old;
|}.

Definition initialize (t : DiskInodeType) : DiskInode := mkInode 0 (replicate 28 0) 0 0 t.

Definition is_dir (self : DiskInode) : bool := bool_decide (type_ self = Directory).
Definition is_file (self : DiskInode) : bool := bool_decide (type_ self = File).

Definition _data_blocks (size : Z) : Z := wrap 32 (size + BLOCK_SZ - 1) / BLOCK_SZ.
Definition data_blocks (self : DiskInode) : Z := _data_blocks (size self).

Definition total_blocks (size : Z) : Z :=
  let data_blocks := _data_blocks size in
  let total := data_blocks in
  let total := if INODE_DIRECT_COUNT <? data_blocks then total + 1 else total in
  let total :=
    if INDIRECT1_BOUND <? data_blocks then
      total + 1 + (data_blocks - INDIRECT1_BOUND + INODE_INDIRECT1_COUNT - 1) / INODE_INDIRECT1_COUNT
    else total in
  wrap 32 total.

Definition blocks_num_needed (self : DiskInode) (new_size : Z) : outcome Z :=
  _ ← assert_ (size self <=? new_size);
  Ret (wrap 32 (total_blocks new_size - total_blocks (size self))).

Section Inode.
Context {D : Type} {BD : BlockDevice D}.
Implicit Type st : CacheManager D.

Definition read_entry (i : Z) (indirect_block : list Z) st : outcome (Z * CacheManager D) :=
  v ← index indirect_block i; Ret (v, st).

Definition get_block_id (self : DiskInode) (inner_id : Z) st : outcome (Z * CacheManager D) :=
  if inner_id <? INODE_DIRECT_COUNT then
    v ← index (direct self) inner_id; Ret (v, st)
  else if inner_id <? INDIRECT1_BOUND then
    read (T := IndirectBlock) st (indirect1 self) 0 (read_entry (inner_id - INODE_DIRECT_COUNT))
  else
    let last := inner_id - INDIRECT1_BOUND in
    '(indirect1, st) ← read (T := IndirectBlock) st (indirect2 self) 0 (read_entry (last / INODE_INDIRECT1_COUNT));
    read (T := IndirectBlock) st indirect1 0 (read_entry (last mod INODE_INDIRECT1_COUNT)).

(** *** [increase_size] *)

(** [new_blocks.next().unwrap()] *)
Definition next_block (new_blocks : list Z) : outcome (Z * list Z) :=
  match new_blocks with [] => Panic | b :: rest => Ret (b, rest) end.

(** [while current_blocks < bound { a[current_blocks] = new_blocks.next().unwrap();
    current_blocks += 1; }], where [steps] is [bound - current_blocks]. *)
Fixpoint fill (steps : nat) (a : list Z) (current_blocks : Z) (new_blocks : list Z)
    : outcome (list Z * Z * list Z) :=
  match steps with
  | O => Ret (a, current_blocks, new_blocks)
  | S steps' =>
      '(b, new_blocks) ← next_block new_blocks;
      a ← update a current_blocks b;
      fill steps' a (current_blocks + 1) new_blocks
  end.

Definition fill_to (bound : Z) (a : list Z) (current_blocks : Z) (new_blocks : list Z) :=
  fill (Z.to_nat (bound - current_blocks)) a current_blocks new_blocks.

(** The closure on the indirect block: fills it and hands on the counters. *)
Definition fill_indirect1 (bound current_blocks : Z) (new_blocks : list Z) (indirect1 : list Z) st
    : outcome (Z * list Z * list Z * CacheManager D) :=
  '(indirect1, current_blocks, new_blocks) ← fill_to bound indirect1 current_blocks new_blocks;
  Ret ((current_blocks, new_blocks), indirect1, st).

(** The innermost closure: [indirect1[b0] = new_blocks.next().unwrap()]. *)
Definition set_entry (b0 : Z) (new_blocks : list Z) (indirect1 : list Z) st
    : outcome (list Z * list Z * CacheManager D) :=
  '(b, new_blocks) ← next_block new_blocks;
  indirect1 ← update indirect1 b0 b;
  Ret (new_blocks, indirect1, st).

(** The loop from (a0, b0) to (a1, b1), with the number of steps as fuel. *)
Fixpoint fill_indirect2 (fuel : nat) (a0 b0 a1 b1 : Z) (new_blocks : list Z) (indirect2 : list Z) st
    : outcome (list Z * list Z * CacheManager D) :=
  if (a0 <? a1) || ((a0 =? a1) && (b0 <? b1)) then
    match fuel with
    | O => OutOfFuel
    | S fuel' =>
        '(indirect2, new_blocks) ←
          (if b0 =? 0 then
             '(b, new_blocks) ← next_block new_blocks;
             indirect2 ← update indirect2 a0 b;
             Ret (indirect2, new_blocks)
           else Ret (indirect2, new_blocks));
        id ← index indirect2 a0;
        '(new_blocks, st) ← modify (T := IndirectBlock) st id 0 (set_entry b0 new_blocks);
        let b0 := b0 + 1 in
        let '(a0, b0) := if b0 =? INODE_INDIRECT1_COUNT then (a0 + 1, 0) else (a0, b0) in
        fill_indirect2 fuel' a0 b0 a1 b1 new_blocks indirect2 st
    end
  else Ret (new_blocks, indirect2, st).

(** [increase_size] from the allocation of [indirect2] on. *)
Definition grow_indirect2 (self : DiskInode) (current_blocks total_blocks : Z) (new_blocks : list Z) st
    : outcome (DiskInode * CacheManager D) :=
  if INODE_INDIRECT1_COUNT <? total_blocks then
    '(self, new_blocks) ←
      (if current_blocks =? INODE_INDIRECT1_COUNT then
         '(b, new_blocks) ← next_block new_blocks; Ret (with_indirect2 self b, new_blocks)
       else Ret (self, new_blocks));
    let current_blocks := wrap 32 (current_blocks - INODE_INDIRECT1_COUNT) in
    let total_blocks := wrap 32 (total_blocks - INODE_INDIRECT1_COUNT) in
    let a0 := current_blocks / INODE_INDIRECT1_COUNT in
    let b0 := current_blocks mod INODE_INDIRECT1_COUNT in
    let a1 := total_blocks / INODE_INDIRECT1_COUNT in
    let b1 := total_blocks mod INODE_INDIRECT1_COUNT in
    '(_, st) ←
      modify (T := IndirectBlock) st (indirect2 self) 0
        (fill_indirect2 (Z.to_nat (total_blocks - current_blocks)) a0 b0 a1 b1 new_blocks);
    Ret (self, st)
  else Ret (self, st).

(** [increase_size] from the allocation of [indirect1] on. *)
Definition grow_indirect1 (self : DiskInode) (current_blocks total_blocks : Z) (new_blocks : list Z) st
    : outcome (DiskInode * CacheManager D) :=
  if INODE_DIRECT_COUNT <? total_blocks then
    '(self, new_blocks) ←
      (if current_blocks =? INODE_DIRECT_COUNT then
         '(b, new_blocks) ← next_block new_blocks; Ret (with_indirect1 self b, new_blocks)
       else Ret (self, new_blocks));
    let current_blocks := wrap 32 (current_blocks - INODE_DIRECT_COUNT) in
    let total_blocks := wrap 32 (total_blocks - INODE_DIRECT_COUNT) in
    '(current_blocks, new_blocks, st) ←
      modify (T := IndirectBlock) st (indirect1 self) 0
        (fill_indirect1 (Z.min total_blocks INODE_INDIRECT1_COUNT) current_blocks new_blocks);
    grow_indirect2 self current_blocks total_blocks new_blocks st
  else Ret (self, st).

Definition increase_size (self : DiskInode) (new_size : Z) (new_blocks : list Z) st
    : outcome (DiskInode * CacheManager D) :=
  let current_blocks := data_blocks self in
  let self := with_size self new_size in
  let total_blocks := data_blocks self in
  '(direct, current_blocks, new_blocks) ←
    fill_to (Z.min total_blocks INODE_DIRECT_COUNT) (direct self) current_blocks new_blocks;
  grow_indirect1 (with_direct self direct) current_blocks total_blocks new_blocks st.

(** *** [clear_size] *)

(** [while current_blocks < bound { v.push(a[current_blocks]); .. }] *)
Fixpoint collect (steps : nat) (a : list Z) (current_blocks : Z) (v : list Z) : outcome (list Z) :=
  match steps with
  | O => Ret v
  | S steps' =>
      b ← index a current_blocks;
      collect steps' a (current_blocks + 1) (v ++ [b])
  end.

(** The loop over the direct blocks, which also clears the entries. *)
Fixpoint take_direct (steps : nat) (a : list Z) (current_blocks : Z) (v : list Z) : outcome (list Z * list Z) :=
  match steps with
  | O => Ret (a, v)
  | S steps' =>
      b ← index a current_blocks;
      a ← update a current_blocks 0;
      take_direct steps' a (current_blocks + 1) (v ++ [b])
  end.

Definition collect_indirect1 (count : Z) (v : list Z) (indirect1 : list Z) st
    : outcome (list Z * list Z * CacheManager D) :=
  v ← collect (Z.to_nat count) indirect1 0 v;
  Ret (v, indirect1, st).

(** [for entry in indirect1.iter().take(n) { v.push( *entry ) }] *)
Definition push_entries (n : Z) (v : list Z) (indirect1 : list Z) st
    : outcome (list Z * list Z * CacheManager D) :=
  Ret (v ++ take (Z.to_nat n) indirect1, indirect1, st).

(** [for entry in indirect2.iter_mut().take(a1) { .. }] *)
Fixpoint collect_full (entries : list Z) (v : list Z) st : outcome (list Z * CacheManager D) :=
  match entries with
  | [] => Ret (v, st)
  | entry :: rest =>
      '(v, st) ← modify (T := IndirectBlock) st entry 0 (push_entries INODE_INDIRECT1_COUNT (v ++ [entry]));
      collect_full rest v st
  end.

Definition collect_indirect2 (a1 b1 : Z) (v : list Z) (indirect2 : list Z) st
    : outcome (list Z * list Z * CacheManager D) :=
  '(v, st) ← collect_full (take (Z.to_nat a1) indirect2) v st;
  if 0 <? b1 then
    entry ← index indirect2 a1;
    '(v, st) ← modify (T := IndirectBlock) st entry 0 (push_entries b1 (v ++ [entry]));
    Ret (v, indirect2, st)
  else Ret (v, indirect2, st).

Definition clear_size (self : DiskInode) st : outcome (list Z * DiskInode * CacheManager D) :=
  let data_blocks := data_blocks self in
  let self := with_size self 0 in
  '(direct, v) ← take_direct (Z.to_nat (Z.min data_blocks INODE_DIRECT_COUNT)) (direct self) 0 [];
  let self := with_direct self direct in
  if INODE_DIRECT_COUNT <? data_blocks then
    let v := v ++ [indirect1 self] in
    let data_blocks := data_blocks - INODE_DIRECT_COUNT in
    '(v, st) ← modify (T := IndirectBlock) st (indirect1 self) 0
                 (collect_indirect1 (Z.min data_blocks INODE_INDIRECT1_COUNT) v);
    let self := with_indirect1 self 0 in
    if INODE_INDIRECT1_COUNT <? data_blocks then
      let v := v ++ [indirect2 self] in
      let data_blocks := data_blocks - INODE_INDIRECT1_COUNT in
      _ ← assert_ (data_blocks <=? INODE_INDIRECT2_COUNT);
      let a1 := data_blocks / INODE_INDIRECT1_COUNT in
      let b1 := data_blocks mod INODE_INDIRECT1_COUNT in
      '(v, st) ← modify (T := IndirectBlock) st (indirect2 self) 0 (collect_indirect2 a1 b1 v);
      Ret (v, with_indirect2 self 0, st)
    else Ret (v, self, st)
  else Ret (v, self, st).

(** *** [read_at] and [write_at] *)

(** One round of the loop of [read_at]; [out] is what the buffer has received.
    The sub-slices are in range because a round stays inside a block. *)
Definition copy_out (from len : Z) (data_block : list Z) st : outcome (list Z * CacheManager D) :=
  Ret (slice data_block from len, st).

Definition read_at_body (self : DiskInode) (end_ : Z) (s : Z * Z * list Z * CacheManager D)
    : outcome ((Z * Z * list Z * CacheManager D) + (list Z * CacheManager D)) :=
  let '(start, start_block, out, st) := s in
  let end_current_block := Z.min (wrap 64 ((start / BLOCK_SZ + 1) * BLOCK_SZ)) end_ in
  let block_read_size := end_current_block - start in
  '(id, st) ← get_block_id self (wrap 32 start_block) st;
  '(bytes, st) ← read (T := DataBlock) st id 0 (copy_out (start mod BLOCK_SZ) block_read_size);
  let out := out ++ bytes in
  if end_current_block =? end_ then Ret (inr (out, st))
  else Ret (inl (end_current_block, start_block + 1, out, st)).

(** The bytes that replace the front of a buffer of length [len]. *)
Definition read_at (self : DiskInode) (offset len : Z) st : outcome (list Z * CacheManager D) :=
  let start := offset in
  let end_ := Z.min (wrap 64 (offset + len)) (size self) in
  if end_ <=? start then Ret ([], st)
  else while_loop (S (Z.to_nat ((end_ - start) / BLOCK_SZ + 1))) (read_at_body self end_)
         (start, start / BLOCK_SZ, [], st).

Definition copy_in (at_ : Z) (src : list Z) (data_block : list Z) st : outcome (unit * list Z * CacheManager D) :=
  Ret (tt, splice data_block at_ src, st).

Definition write_at_body (self : DiskInode) (buf : list Z) (end_ : Z) (s : Z * Z * Z * CacheManager D)
    : outcome ((Z * Z * Z * CacheManager D) + (Z * CacheManager D)) :=
  let '(start, start_block, write_size, st) := s in
  let end_current_block := Z.min (wrap 64 ((start / BLOCK_SZ + 1) * BLOCK_SZ)) end_ in
  let block_write_size := end_current_block - start in
  '(id, st) ← get_block_id self (wrap 32 start_block) st;
  '(_, st) ← modify (T := DataBlock) st id 0
               (copy_in (start mod BLOCK_SZ) (slice buf write_size block_write_size));
  let write_size := write_size + block_write_size in
  if end_current_block =? end_ then Ret (inr (write_size, st))
  else Ret (inl (end_current_block, start_block + 1, write_size, st)).

Definition write_at (self : DiskInode) (offset : Z) (buf : list Z) st : outcome (Z * CacheManager D) :=
  let start := offset in
  let end_ := Z.min (wrap 64 (offset + Z.of_nat (length buf))) (size self) in
  _ ← assert_ (start <=? end_);
  while_loop (S (Z.to_nat ((end_ - start) / BLOCK_SZ + 1))) (write_at_body self buf end_)
    (start, start / BLOCK_SZ, 0, st).

End Inode.

(** ** [DirEntry] *)

Record DirEntry : Type := mkDirEntry {
  name_bytes : list Z;
  inode_number : Z;
}.

Definition dirent_empty : DirEntry := mkDirEntry (replicate 28 0) 0.

(** [bytes[..name.len()]] is out of range for a name of more than 28 bytes. *)
Definition dirent_new (name : list Z) (inode_number : Z) : outcome DirEntry :=
  if Z.of_nat (length name) <=? NAME_LENGTH_LIMIT + 1 then
    Ret (mkDirEntry (name ++ replicate (Z.to_nat (NAME_LENGTH_LIMIT + 1) - length name) 0) inode_number)
  else Panic.

Definition as_bytes (self : DirEntry) : list Z := name_bytes self ++ le_bytes 4 (inode_number self).
(** What [as_bytes_mut] is after the 32 bytes behind it were overwritten. *)
Definition dirent_of_bytes (bs : list Z) : DirEntry :=
  mkDirEntry (take 28 bs) (le_value (take 4 (drop 28 bs))).

(** [self.name[i]] is out of range when no byte is zero. *)
Definition dirent_name (self : DirEntry) : outcome (list Z) :=
  '(len, _) ← unwrap (list_find (fun b => b = 0) (name_bytes self));
  let name := take len (name_bytes self) in
  _ ← unwrap (from_utf8 (S (length name)) name);
  Ret name.

End EfsLayout.
