(* ===== verification/EfsInodeFacts.v ===== *)
(** * Disk inodes as lists of blocks

    [block_of d di k] is the [k]th data block of an inode on the disk [d],
    [owned d di n] are all blocks, index blocks included, of an inode with [n]
    data blocks.  [get_block_id] reads the list, [increase_size] extends it,
    [clear_size] hands all of it back. *)
From S2P Require Import Prelude EfsCache EfsCacheFacts EfsWords EfsLayout.
Import EfsCache EfsLayout.

(** ** The structures in a block *)

Lemma words_app n cnt l k :
  0 <= n -> n * Z.of_nat cnt <= Z.of_nat (length l) -> words n cnt (l ++ k) = words n cnt l.
Proof.
  intros Hn Hl. unfold words. apply list_fmap_ext. intros i x Hx.
  apply list_elem_of_lookup_2, elem_of_seqZ in Hx. rewrite slice_app_l by nia. done.
Qed.

#[export] Instance SuperBlock_laws : PodLaws SuperBlock.
Proof.
  refine (Build_PodLaws SuperBlock _ (fun s => Forall (in_width 32) (super_words s)) _ _ _ _ _).
  - cbn. lia.
  - intros bs Hl Hb. cbn in Hl. pose proof (words_range 4 6 bs ltac:(lia) Hb ltac:(lia)) as Hw.
    pose proof (length_words 4 6 bs) as Hlen. cbn [of_bytes SuperBlock_pod].
    destruct (words 4 6 bs) as [|w0 [|w1 [|w2 [|w3 [|w4 [|w5 [|]]]]]]]; try done.
  - intros v bs _ Hl. cbn [to_bytes SuperBlock_pod size_of] in *. rewrite length_word_bytes by lia. cbn. lia.
  - intros v bs _ _. by apply word_bytes_range.
  - intros v bs Hv _. cbn [to_bytes of_bytes SuperBlock_pod]. rewrite words_word_bytes by (done || lia). by destruct v.
Defined.

Definition inode_words (v : DiskInode) : list Z := size v :: direct v ++ [indirect1 v; indirect2 v].

(** Field widths. *)
Definition inode_fields_ok (v : DiskInode) : Prop :=
  length (direct v) = 28%nat /\ Forall (in_width 32) (inode_words v).

Lemma length_inode_words v : inode_fields_ok v -> length (inode_words v) = 31%nat.
Proof. intros [Hl _]. unfold inode_words. cbn. rewrite length_app. cbn. lia. Qed.

Lemma type_of_type_byte t : type_of_byte (type_byte t) = t.
Proof. by destruct t. Qed.

Lemma take_direct_words (s : Z) dr i1 i2 : length dr = 28%nat -> take 28 (drop 1 (s :: dr ++ [i1; i2])) = dr.
Proof. intros H. cbn [drop]. by apply take_app_length'. Qed.

#[export] Instance DiskInode_laws : PodLaws DiskInode.
Proof.
  refine (Build_PodLaws DiskInode _ inode_fields_ok _ _ _ _ _).
  - cbn. lia.
  - intros bs Hl Hb. cbn [size_of DiskInode_pod] in Hl. cbn [of_bytes DiskInode_pod].
    assert (Hw : Forall (in_width (8 * 4)) (words 4 31 bs)).
    { rewrite <- (take_drop 124 bs), words_app by (rewrite ?length_take; lia).
      apply words_range; [lia|by apply Forall_take|rewrite length_take; lia]. }
    pose proof (length_words 4 31 bs) as Hlen. split; cbn [direct size indirect1 indirect2 inode_words].
    { rewrite length_take, length_drop. lia. }
    assert (Hi : forall i, (i < 31)%nat -> in_width 32 (default 0 (words 4 31 bs !! i))).
    { intros i Hi. destruct (lookup_lt_is_Some_2 (words 4 31 bs) i) as [x Hx]; [lia|]. rewrite Hx.
      exact (Forall_lookup_1 _ _ _ _ Hw Hx). }
    unfold inode_words. cbn [direct size indirect1 indirect2]. apply Forall_cons. split; [apply Hi; lia|].
    apply Forall_app. split; [by apply Forall_take, Forall_drop|].
    repeat apply Forall_cons_2; [apply Hi; lia..|apply Forall_nil_2].
  - intros v bs Hv Hl. cbn [to_bytes DiskInode_pod size_of] in *. fold (inode_words v).
    rewrite length_app, length_word_bytes, length_inode_words by (done || lia). cbn [length]. rewrite length_drop. lia.
  - intros v bs _ Hb. cbn [to_bytes DiskInode_pod]. apply Forall_app. split; [by apply word_bytes_range|].
    apply Forall_cons. split; [destruct (type_ v); vm_compute; split; congruence|by apply Forall_drop].
  - intros v bs Hv Hl. cbn [to_bytes of_bytes DiskInode_pod size_of] in *. fold (inode_words v).
    pose proof (length_inode_words v Hv) as Hiw. destruct Hv as [Hd Hw].
    assert (Hlw : length (word_bytes 4 (inode_words v)) = 124%nat) by (rewrite length_word_bytes by lia; lia).
    rewrite words_app by (rewrite ?Hlw; lia). rewrite words_word_bytes by (done || lia).
    rewrite lookup_app_r by lia. rewrite Hlw. cbn [Nat.sub lookup list_lookup default from_option Datatypes.id].
    rewrite type_of_type_byte. unfold inode_words. rewrite take_direct_words by done.
    destruct v as [s dr i1 i2 t]; cbn [size direct indirect1 indirect2 type_] in *.
    assert (E1 : (s :: dr ++ [i1; i2]) !! 29%nat = Some i1)
      by (change ((dr ++ [i1; i2]) !! 28%nat = Some i1); rewrite lookup_app_r by lia; by rewrite Hd).
    assert (E2 : (s :: dr ++ [i1; i2]) !! 30%nat = Some i2)
      by (change ((dr ++ [i1; i2]) !! 29%nat = Some i2); rewrite lookup_app_r by lia; by rewrite Hd).
    rewrite E1, E2. done.
Defined.

(** ** The blocks of an inode *)

Implicit Type d : gmap Z (list Z).
Implicit Type di : DiskInode.

(** Entry [i] of the index block [id]. *)
Definition entry_at d (id i : Z) : Z := default 0 (words 4 128 (default [] (d !! id)) !! Z.to_nat i).

Definition block_of d di (k : Z) : Z :=
  if k <? 28 then default 0 (direct di !! Z.to_nat k)
  else if k <? 156 then entry_at d (indirect1 di) (k - 28)
  else entry_at d (entry_at d (indirect2 di) ((k - 156) / 128)) ((k - 156) mod 128).

Definition blocks_of d di (n : Z) : list Z := block_of d di <$> seqZ 0 n.

(** The index blocks below [indirect2] that [n] data blocks need. *)
Definition sub_count (n : Z) : Z := (n - 156 + 127) / 128.
Definition subs_of d di (m : Z) : list Z := entry_at d (indirect2 di) <$> seqZ 0 m.

Definition meta_of d di (n : Z) : list Z :=
  (if 28 <? n then [indirect1 di] else []) ++
  (if 156 <? n then indirect2 di :: subs_of d di (sub_count n) else []).

Definition owned d di (n : Z) : list Z := blocks_of d di n ++ meta_of d di n.

Definition MAX_BLOCKS : Z := 28 + 128 + 128 * 128.

Record inode_ok d di (n : Z) : Prop := {
  io_fields : inode_fields_ok di;
  io_count : 0 <= n <= MAX_BLOCKS;
  io_nodup : NoDup (owned d di n);
  io_there : forall id, id ∈ owned d di n -> is_Some (d !! id);
}.

(** [total_blocks] counts the owned blocks. *)
Lemma length_owned d di n :
  0 <= n -> Z.of_nat (length (owned d di n))
  = n + (if 28 <? n then 1 else 0) + (if 156 <? n then 1 + sub_count n else 0).
Proof.
  intros Hn. unfold owned, meta_of, blocks_of, subs_of. rewrite !length_app, length_fmap, length_seqZ.
  destruct (Z.ltb_spec 28 n), (Z.ltb_spec 156 n); cbn [length]; try lia.
  rewrite length_fmap, length_seqZ. unfold sub_count. lia_mod.
Qed.

Lemma data_blocks_small size : 0 <= size <= 2 ^ 32 - 512 -> _data_blocks size = (size + 511) / 512.
Proof.
  intros Hs. unfold _data_blocks, BLOCK_SZ. rewrite wrap_small by (unfold in_width; lia). f_equal. lia.
Qed.

Lemma total_blocks_owned d di size :
  0 <= size <= 2 ^ 32 - 512 -> total_blocks size = Z.of_nat (length (owned d di (_data_blocks size))).
Proof.
  intros Hs. rewrite data_blocks_small by done. set (n := (size + 511) / 512). assert (0 <= n < 2 ^ 23) by (unfold n; lia_mod).
  rewrite length_owned by lia. unfold total_blocks. rewrite data_blocks_small by done. fold n.
  unfold INODE_DIRECT_COUNT, INDIRECT1_BOUND, DIRECT_BOUND, INODE_DIRECT_COUNT, INODE_INDIRECT1_COUNT, BLOCK_SZ.
  change (512 / 4) with 128. change (28 + 128) with 156. unfold sub_count.
  destruct (Z.ltb_spec 28 n), (Z.ltb_spec 156 n); rewrite wrap_small; try lia; unfold in_width; lia_mod.
Qed.

Lemma elem_blocks_of d di n b : b ∈ blocks_of d di n <-> exists k, 0 <= k < n /\ b = block_of d di k.
Proof.
  unfold blocks_of. rewrite list_elem_of_fmap. split.
  - intros (k & -> & Hk%elem_of_seqZ). exists k. split; [lia|done].
  - intros (k & Hk & ->). exists k. split; [done|]. apply elem_of_seqZ. lia.
Qed.

Lemma elem_subs_of d di m s : s ∈ subs_of d di m <-> exists a, 0 <= a < m /\ s = entry_at d (indirect2 di) a.
Proof.
  unfold subs_of. rewrite list_elem_of_fmap. split.
  - intros (k & -> & Hk%elem_of_seqZ). exists k. split; [lia|done].
  - intros (k & Hk & ->). exists k. split; [done|]. apply elem_of_seqZ. lia.
Qed.

Lemma elem_meta_of d di n s :
  s ∈ meta_of d di n <-> 28 < n /\ s = indirect1 di \/
    156 < n /\ (s = indirect2 di \/ exists a, 0 <= a < sub_count n /\ s = entry_at d (indirect2 di) a).
Proof.
  unfold meta_of. rewrite elem_of_app.
  destruct (Z.ltb_spec 28 n), (Z.ltb_spec 156 n); rewrite ?elem_of_cons, ?elem_of_nil, ?elem_subs_of; naive_solver lia.
Qed.

(** Two disks that agree on the index blocks give the same list. *)
Lemma entry_at_same d d' id i : d' !! id = d !! id -> entry_at d' id i = entry_at d id i.
Proof. intros E. unfold entry_at. by rewrite E. Qed.

Lemma sub_index k n : 156 <= k < n -> 0 <= (k - 156) / 128 < sub_count n /\ 0 <= (k - 156) mod 128 < 128.
Proof. intros. unfold sub_count. lia_mod. Qed.

Lemma block_of_ext d d' di n k :
  (forall id, id ∈ meta_of d di n -> d' !! id = d !! id) -> 0 <= k < n -> block_of d' di k = block_of d di k.
Proof.
  intros Hm Hk. unfold block_of. destruct (Z.ltb_spec k 28); [done|]. destruct (Z.ltb_spec k 156).
  - apply entry_at_same, Hm, elem_meta_of. left. split; [lia|done].
  - destruct (sub_index k n) as [Ha Hb]; [lia|].
    assert (E : entry_at d' (indirect2 di) ((k - 156) / 128) = entry_at d (indirect2 di) ((k - 156) / 128)).
    { apply entry_at_same, Hm, elem_meta_of. right. split; [lia|by left]. }
    rewrite E. apply entry_at_same, Hm, elem_meta_of. right. split; [lia|]. right. by eexists.
Qed.

Lemma owned_ext d d' di n :
  (forall id, id ∈ meta_of d di n -> d' !! id = d !! id) -> owned d' di n = owned d di n.
Proof.
  intros Hm. unfold owned. f_equal.
  - apply list_fmap_ext. intros i k Hk. apply list_elem_of_lookup_2, elem_of_seqZ in Hk. apply (block_of_ext d d' di n); [done|lia].
  - unfold meta_of. f_equal. destruct (Z.ltb_spec 156 n); [|done]. f_equal. apply list_fmap_ext. intros i a Ha.
    apply entry_at_same, Hm, elem_meta_of. right. split; [done|by left].
Qed.

Lemma inode_ok_ext d d' di n :
  inode_ok d di n -> (forall id, id ∈ meta_of d di n -> d' !! id = d !! id) ->
  (forall id, is_Some (d !! id) -> is_Some (d' !! id)) -> inode_ok d' di n.
Proof.
  intros [] Hm Hd. split; rewrite ?(owned_ext d d' di n Hm); try done. intros id Hid. by apply Hd, io_there0.
Qed.

(** ** [get_block_id] *)

Section InodeFacts.
Context {D : Type} {BD : BlockDevice D} {BL : BlockDeviceLaws D}.
Implicit Type st : CacheManager D.

Lemma entry_lookup d id b i :
  d !! id = Some b -> 0 <= i < 128 -> words 4 128 b !! Z.to_nat i = Some (entry_at d id i).
Proof.
  intros Hb Hi. unfold entry_at. rewrite Hb. cbn [default from_option Datatypes.id].
  destruct (lookup_lt_is_Some_2 (words 4 128 b) (Z.to_nat i)) as [x ->]; [rewrite length_words; lia|done].
Qed.

Lemma read_index st d h id i :
  repr st d h -> is_Some (d !! id) -> id ∉ h -> (length h < BLOCK_CACHE_SIZE)%nat -> 0 <= i < 128 ->
  exists st', read (T := IndirectBlock) st id 0 (read_entry i) = Ret (entry_at d id i, st') /\ repr st' d h.
Proof.
  intros Hr [b Hb] Hn Hh Hi.
  destruct (read_spec (T := IndirectBlock) st d h id 0 b (read_entry i) (fun v d2 => v = entry_at d id i /\ d2 = d))
    as (v & st' & d' & E & Hr' & -> & ->); try done.
  - intros st1 Hr1. exists (entry_at d id i), st1, d. split; [|done]. cbn [of_bytes size_of Words_pod].
    change (4 * Z.of_nat 128) with 512. rewrite block_slice by (by apply (rp_ok _ _ _ Hr _ _ Hb)).
    unfold read_entry. by rewrite (index_Ret _ _ _ (entry_lookup d id b i Hb Hi)).
  - by exists st'.
Qed.

Lemma get_block_id_spec st d h di n k :
  repr st d h -> inode_ok d di n -> (forall id, id ∈ meta_of d di n -> id ∉ h) -> (length h < BLOCK_CACHE_SIZE)%nat ->
  0 <= k < n -> exists st', get_block_id di k st = Ret (block_of d di k, st') /\ repr st' d h.
Proof.
  intros Hr Hio Hfree Hh Hk. unfold get_block_id, block_of.
  unfold INDIRECT1_BOUND, DIRECT_BOUND, INODE_DIRECT_COUNT, INODE_INDIRECT1_COUNT, BLOCK_SZ.
  change (512 / 4) with 128. change (28 + 128) with 156.
  assert (Hth : forall id, id ∈ meta_of d di n -> is_Some (d !! id)).
  { intros id Hid. apply (io_there _ _ _ Hio). unfold owned. apply elem_of_app. by right. }
  destruct (Z.ltb_spec k 28).
  - destruct (io_fields _ _ _ Hio) as [Hl _]. destruct (lookup_lt_is_Some_2 (direct di) (Z.to_nat k)) as [x Hx]; [lia|].
    rewrite (index_Ret _ _ _ Hx), Hx. by exists st.
  - destruct (Z.ltb_spec k 156).
    + assert (Hm : indirect1 di ∈ meta_of d di n) by (apply elem_meta_of; left; split; [lia|done]).
      apply read_index; auto. lia.
    + destruct (sub_index k n) as [Ha Hb]; [lia|].
      assert (Hm : indirect2 di ∈ meta_of d di n) by (apply elem_meta_of; right; split; [lia|by left]).
      assert (Hs : entry_at d (indirect2 di) ((k - 156) / 128) ∈ meta_of d di n).
      { apply elem_meta_of. right. split; [lia|]. right. by eexists. }
      destruct (read_index st d h (indirect2 di) ((k - 156) / 128) Hr) as (st1 & -> & Hr1); auto.
      { pose proof (io_count _ _ _ Hio). unfold MAX_BLOCKS in *. lia_mod. }
      cbn [mbind outcome_bind]. apply read_index; auto.
Qed.

End InodeFacts.
