(* ===== verification/EfsGrow.v ===== *)
(** * Growing an inode

    [DiskInode::increase_size] appends data blocks to the list of an inode and
    takes the index blocks it needs on the way; blocks that were in the list
    stay where they are. *)
From S2P Require Import Prelude EfsCache EfsCacheFacts EfsWords EfsLayout EfsInodeFacts.
Import EfsCache EfsLayout.

Implicit Type d e : gmap Z (list Z).
Implicit Type di : DiskInode.

(** ** Filling an array *)

Lemma fill_spec steps : forall a cur news,
  0 <= cur -> cur + Z.of_nat steps <= Z.of_nat (length a) -> (steps <= length news)%nat ->
  fill steps a cur news = Ret (splice a cur (take steps news), cur + Z.of_nat steps, drop steps news).
Proof.
  induction steps as [|steps IH]; intros a cur news Hc Ha Hn.
  { cbn [fill]. rewrite Z.add_0_r. unfold splice. rewrite take_0. cbn. by rewrite Nat.add_0_r, take_drop. }
  destruct news as [|b news]; [cbn in Hn; lia|]. cbn [fill next_block mbind outcome_bind].
  rewrite update_Ret by lia. cbn [mbind outcome_bind]. cbn in Hn.
  rewrite IH by (rewrite ?length_insert; lia). replace (cur + 1 + Z.of_nat steps) with (cur + Z.of_nat (S steps)) by lia.
  cbn [take drop]. do 3 f_equal. unfold splice. cbn [take]. rewrite Z2Nat.inj_add by lia. change (Z.to_nat 1) with 1%nat.
  rewrite Nat.add_1_r. assert (Hlt : (Z.to_nat cur < length a)%nat) by lia.
  rewrite (take_S_r _ _ b) by (by rewrite list_lookup_insert_eq). rewrite take_insert_ge by lia.
  rewrite <- app_assoc. cbn [app length]. rewrite drop_insert_lt by lia. do 4 f_equal. lia.
Qed.

Lemma fill_to_spec bound a cur news :
  0 <= cur -> bound <= Z.of_nat (length a) -> bound - cur <= Z.of_nat (length news) ->
  let s := Z.to_nat (bound - cur) in
  cur <= bound \/ cur <= Z.of_nat (length a) ->
  fill_to bound a cur news = Ret (splice a cur (take s news), cur + Z.of_nat s, drop s news).
Proof. intros Hc Hb Hn s Hor. unfold fill_to. apply fill_spec; unfold s; lia. Qed.

Lemma splice_nil a cur : splice a cur [] = a.
Proof. unfold splice. cbn. by rewrite Nat.add_0_r, take_drop. Qed.

(** ** Entries of index blocks *)

Lemma entry_at_insert_ne d id b id' i : id <> id' -> entry_at (<[id := b]> d) id' i = entry_at d id' i.
Proof. intros. unfold entry_at. by rewrite lookup_insert_ne. Qed.

Lemma entry_at_store d id ws i :
  words_ok 4 128 ws -> entry_at (<[id := word_bytes 4 ws]> d) id i = default 0 (ws !! Z.to_nat i).
Proof.
  intros [Hl Hw]. unfold entry_at. rewrite lookup_insert_eq. cbn [default from_option Datatypes.id].
  by rewrite words_word_bytes.
Qed.

Lemma words_index_ok b : block_ok b -> words_ok 4 128 (words 4 128 b).
Proof. intros. by apply words_block_ok. Qed.

Lemma words_ok_insert ws i x : words_ok 4 128 ws -> in_width 32 x -> words_ok 4 128 (<[i := x]> ws).
Proof. intros [Hl Hw] Hx. split; [by rewrite length_insert|by apply Forall_insert]. Qed.

(** ** Appending to the list *)

Lemma blocks_of_app d di d' di' n (news : list Z) :
  0 <= n -> (forall k, 0 <= k < n -> block_of d' di' k = block_of d di k) ->
  (forall i x, news !! i = Some x -> block_of d' di' (n + Z.of_nat i) = x) ->
  blocks_of d' di' (n + Z.of_nat (length news)) = blocks_of d di n ++ news.
Proof.
  intros Hn Hold Hnew. unfold blocks_of. rewrite seqZ_app, fmap_app by lia. f_equal.
  - apply list_fmap_ext. intros i k Hk. apply list_elem_of_lookup_2, elem_of_seqZ in Hk. apply Hold. lia.
  - apply list_eq_same_length with (length news); [done|rewrite length_fmap, length_seqZ; lia|].
    intros i x y Hi Hx Hy. rewrite list_lookup_fmap, lookup_seqZ_lt in Hx by lia. injection Hx as <-.
    rewrite <- (Hnew i y Hy). f_equal.
Qed.

(** The direct blocks. *)
Lemma direct_phase d di n (news : list Z) v :
  inode_fields_ok di -> 0 <= n -> n + Z.of_nat (length news) <= 28 ->
  Forall (in_width 32) news -> in_width 32 v ->
  let di' := with_direct (with_size di v) (splice (direct di) n news) in
  inode_fields_ok di' /\ blocks_of d di' (n + Z.of_nat (length news)) = blocks_of d di n ++ news.
Proof.
  intros [Hl Hw] Hn Hlen Hnews Hv di'. assert (Hl' : length (splice (direct di) n news) = 28%nat).
  { rewrite length_splice; [done|lia|lia]. }
  split.
  - split; [done|]. unfold inode_words in *. cbn. rewrite Forall_cons, Forall_app in Hw.
    destruct Hw as (_ & Hd & Hr). apply Forall_cons. split; [done|]. apply Forall_app. split; [|done].
    unfold splice. rewrite !Forall_app. auto using Forall_take, Forall_drop.
  - apply blocks_of_app; [done| |]; unfold block_of.
    + intros k Hk. destruct (Z.ltb_spec k 28); [|lia]. unfold di'. cbn [direct with_direct].
      rewrite lookup_splice by lia. rewrite decide_False by lia. done.
    + intros i x Hx. pose proof (lookup_lt_Some _ _ _ Hx). destruct (Z.ltb_spec (n + Z.of_nat i) 28); [|lia].
      unfold di'. cbn [direct with_direct]. rewrite lookup_splice by lia. rewrite decide_True by lia.
      replace (Z.to_nat (n + Z.of_nat i - n)) with i by lia. by rewrite Hx.
Qed.

(** The first index block. *)
Lemma indirect1_phase d di n b (news : list Z) :
  d !! indirect1 di = Some b -> block_ok b -> 28 <= n -> n + Z.of_nat (length news) <= 156 ->
  Forall (in_width 32) news ->
  let d' := <[indirect1 di := word_bytes 4 (splice (words 4 128 b) (n - 28) news)]> d in
  words_ok 4 128 (splice (words 4 128 b) (n - 28) news) /\
  blocks_of d' di (n + Z.of_nat (length news)) = blocks_of d di n ++ news.
Proof.
  intros Hb Hok Hn Hlen Hnews d'. destruct (words_index_ok b Hok) as [Hl Hw].
  assert (Hws : words_ok 4 128 (splice (words 4 128 b) (n - 28) news)).
  { split; [rewrite length_splice; [done|lia|lia]|]. unfold splice. rewrite !Forall_app. auto using Forall_take, Forall_drop. }
  split; [done|]. apply blocks_of_app; [lia| |]; unfold block_of.
  - intros k Hk. destruct (Z.ltb_spec k 28); [done|]. destruct (Z.ltb_spec k 156); [|lia]. unfold d'.
    rewrite entry_at_store by done. rewrite lookup_splice by lia. rewrite decide_False by lia.
    unfold entry_at. by rewrite Hb.
  - intros i x Hx. pose proof (lookup_lt_Some _ _ _ Hx). destruct (Z.ltb_spec (n + Z.of_nat i) 28); [lia|].
    destruct (Z.ltb_spec (n + Z.of_nat i) 156); [|lia]. unfold d'.
    rewrite entry_at_store by done. rewrite lookup_splice by lia. rewrite decide_True by lia.
    replace (Z.to_nat (n + Z.of_nat i - 28 - (n - 28))) with i by lia. by rewrite Hx.
Qed.

(** ** The second level, one data block at a time *)

(** A new index block below [indirect2]. *)
Lemma new_sub e di c s b :
  e !! indirect2 di = Some b -> block_ok b -> in_width 32 s -> 0 <= c < 16384 -> c mod 128 = 0 ->
  indirect1 di <> indirect2 di -> indirect2 di ∉ subs_of e di (c / 128) ->
  let e' := <[indirect2 di := word_bytes 4 (<[Z.to_nat (c / 128) := s]> (words 4 128 b))]> e in
  entry_at e' (indirect2 di) (c / 128) = s /\ subs_of e' di (c / 128) = subs_of e di (c / 128) /\
  forall k, 0 <= k < 156 + c -> block_of e' di k = block_of e di k.
Proof.
  intros Hb Hok Hs Hc Hm H12 Hni e'. pose proof (words_index_ok b Hok) as Hws.
  assert (He : forall i, 0 <= i -> entry_at e' (indirect2 di) i = if decide (i = c / 128) then s else entry_at e (indirect2 di) i).
  { intros i Hi. unfold e'. rewrite entry_at_store by (by apply words_ok_insert). case_decide as E.
    - subst i. rewrite list_lookup_insert_eq; [done|]. rewrite length_words. lia_mod.
    - rewrite list_lookup_insert_ne by lia_mod. unfold entry_at. by rewrite Hb. }
  split_and!.
  - rewrite He by lia_mod. by rewrite decide_True.
  - unfold subs_of. apply list_fmap_ext. intros i a Ha. apply list_elem_of_lookup_2, elem_of_seqZ in Ha.
    rewrite He by lia. by rewrite decide_False by lia.
  - intros k Hk. unfold block_of. destruct (Z.ltb_spec k 28); [done|]. destruct (Z.ltb_spec k 156).
    { unfold e'. by rewrite entry_at_insert_ne. }
    rewrite He by lia_mod. rewrite decide_False by lia_mod. unfold e'. rewrite entry_at_insert_ne; [done|].
    intros E. apply Hni, elem_subs_of. eexists. split; [|exact E]. lia_mod.
Qed.

(** One more data block in the index block it belongs to. *)
Lemma new_leaf e di c s x b :
  e !! s = Some b -> block_ok b -> in_width 32 x -> 0 <= c < 16384 -> entry_at e (indirect2 di) (c / 128) = s ->
  s <> indirect1 di -> s <> indirect2 di -> s ∉ subs_of e di (c / 128) ->
  let e' := <[s := word_bytes 4 (<[Z.to_nat (c mod 128) := x]> (words 4 128 b))]> e in
  block_of e' di (156 + c) = x /\ (forall i, entry_at e' (indirect2 di) i = entry_at e (indirect2 di) i) /\
  forall k, 0 <= k < 156 + c -> block_of e' di k = block_of e di k.
Proof.
  intros Hb Hok Hx Hc Es H1 H2 Hns e'. pose proof (words_index_ok b Hok) as Hws.
  assert (He : forall i, 0 <= i -> entry_at e' s i = if decide (i = c mod 128) then x else entry_at e s i).
  { intros i Hi. unfold e'. rewrite entry_at_store by (by apply words_ok_insert). case_decide as E.
    - subst i. rewrite list_lookup_insert_eq; [done|]. rewrite length_words. lia_mod.
    - rewrite list_lookup_insert_ne by lia_mod. unfold entry_at. by rewrite Hb. }
  assert (H2' : forall i, entry_at e' (indirect2 di) i = entry_at e (indirect2 di) i).
  { intros i. unfold e'. by rewrite entry_at_insert_ne. }
  split_and!.
  - unfold block_of. destruct (Z.ltb_spec (156 + c) 28); [lia|]. destruct (Z.ltb_spec (156 + c) 156); [lia|].
    replace (156 + c - 156) with c by lia. rewrite H2', Es, He by lia_mod. by rewrite decide_True.
  - done.
  - intros k Hk. unfold block_of. destruct (Z.ltb_spec k 28); [done|]. destruct (Z.ltb_spec k 156).
    { unfold e'. by rewrite entry_at_insert_ne. }
    rewrite H2'. destruct (decide ((k - 156) / 128 = c / 128)) as [Ea|Ea].
    + rewrite Ea, Es, He by lia_mod. rewrite decide_False by lia_mod. done.
    + unfold e'. rewrite entry_at_insert_ne; [done|]. intros E. apply Hns, elem_subs_of. eexists. split; [|exact E]. lia_mod.
Qed.

(** Everything an inode with [156 + c] data blocks owns once [indirect2] is
    there. *)
Definition own3 e di (c : Z) : list Z :=
  blocks_of e di (156 + c) ++ indirect1 di :: indirect2 di :: subs_of e di ((c + 127) / 128).

Lemma subs_of_snoc e e' di m s :
  0 <= m -> (forall i, 0 <= i < m -> entry_at e' (indirect2 di) i = entry_at e (indirect2 di) i) ->
  entry_at e' (indirect2 di) m = s -> subs_of e' di (m + 1) = subs_of e di m ++ [s].
Proof.
  intros Hm Hold Hs. unfold subs_of. rewrite seqZ_app by lia. rewrite fmap_app. f_equal.
  - apply list_fmap_ext. intros i a Ha. apply list_elem_of_lookup_2, elem_of_seqZ in Ha. apply Hold. lia.
  - change (seqZ (0 + m) 1) with [Z.of_nat 0 + (0 + m)]. cbn [fmap list_fmap]. f_equal. rewrite <- Hs. f_equal.
Qed.

Lemma subs_of_same e e' di m :
  (forall i, 0 <= i < m -> entry_at e' (indirect2 di) i = entry_at e (indirect2 di) i) -> subs_of e' di m = subs_of e di m.
Proof.
  intros H. unfold subs_of. apply list_fmap_ext. intros i a Ha. apply list_elem_of_lookup_2, elem_of_seqZ in Ha. apply H. lia.
Qed.

Lemma blocks_of_snoc e e' di n x :
  0 <= n -> (forall k, 0 <= k < n -> block_of e' di k = block_of e di k) -> block_of e' di n = x ->
  blocks_of e' di (n + 1) = blocks_of e di n ++ [x].
Proof.
  intros Hn Hold Hx. apply (blocks_of_app e di e' di n [x]); [done|done|].
  intros i y Hy. destruct i as [|i]; [|done]. injection Hy as <-. by rewrite Z.add_0_r.
Qed.

(** What the steps have in common. *)
Record grown3 e di (c : Z) e' (c' : Z) (used : list Z) : Prop := {
  g3_old : forall k, 0 <= k < 156 + c -> block_of e' di k = block_of e di k;
  g3_subs : forall i, 0 <= i < (c + 127) / 128 -> entry_at e' (indirect2 di) i = entry_at e (indirect2 di) i;
  g3_own : own3 e' di c' ≡ₚ own3 e di c ++ used;
}.

Lemma grown3_trans e1 e2 e3 di c1 c2 c3 u1 u2 :
  c1 <= c2 -> grown3 e1 di c1 e2 c2 u1 -> grown3 e2 di c2 e3 c3 u2 -> grown3 e1 di c1 e3 c3 (u1 ++ u2).
Proof.
  intros Hc [O1 S1 P1] [O2 S2 P2]. split.
  - intros k Hk. rewrite O2 by lia. by apply O1.
  - intros i Hi. rewrite S2 by lia_mod. by apply S1.
  - by rewrite P2, P1, app_assoc.
Qed.

(** A data block in an index block that is already there. *)
Lemma grown3_leaf e di c s x b :
  e !! s = Some b -> block_ok b -> in_width 32 x -> 0 <= c < 16384 -> c mod 128 <> 0 -> NoDup (own3 e di c) ->
  entry_at e (indirect2 di) (c / 128) = s ->
  grown3 e di c (<[s := word_bytes 4 (<[Z.to_nat (c mod 128) := x]> (words 4 128 b))]> e) (c + 1) [x].
Proof.
  intros Hb Hok Hx Hc Hm Hnd Es. set (m := (c + 127) / 128). assert (Em : m = c / 128 + 1) by (unfold m; lia_mod).
  unfold own3 in Hnd. fold m in Hnd. rewrite Em, (subs_of_snoc e e di (c / 128) s) in Hnd by (done || lia_mod).
  apply NoDup_app in Hnd as (_ & _ & Hnd). rewrite !NoDup_cons, NoDup_app in Hnd.
  destruct Hnd as (H1 & H2 & _ & Hs & _).
  destruct (new_leaf e di c s x b) as (Hleaf & Hent & Hold); try done.
  { intros ->. apply H1. right. apply elem_of_app. right. by left. }
  { intros ->. apply H2. apply elem_of_app. right. by left. }
  { intros Hin. apply (Hs s Hin). by left. }
  split; [done|done|]. unfold own3. replace (156 + (c + 1)) with (156 + c + 1) by lia.
  rewrite (blocks_of_snoc e) with (x := x) by (done || lia). replace ((c + 1 + 127) / 128) with m by (unfold m; lia_mod).
  rewrite (subs_of_same e) by done. fold m. rewrite <- !app_assoc. apply Permutation_app_head. cbn [app].
  rewrite !app_comm_cons. apply Permutation_cons_append.
Qed.

(** A data block and the index block it is the first of. *)
Lemma grown3_sub e di c s x b2 b :
  e !! indirect2 di = Some b2 -> e !! s = Some b -> block_ok b2 -> block_ok b -> in_width 32 s -> in_width 32 x ->
  0 <= c < 16384 -> c mod 128 = 0 -> NoDup (own3 e di c ++ [s]) ->
  let e1 := <[indirect2 di := word_bytes 4 (<[Z.to_nat (c / 128) := s]> (words 4 128 b2))]> e in
  grown3 e di c (<[s := word_bytes 4 (<[Z.to_nat (c mod 128) := x]> (words 4 128 b))]> e1) (c + 1) [s; x].
Proof.
  intros Hb2 Hb Hok2 Hok Hsw Hx Hc Hm Hnd e1. set (m := (c + 127) / 128). assert (Em : m = c / 128) by (unfold m; lia_mod).
  apply NoDup_app in Hnd as (Hnd & Hs & _).
  assert (Hsn : s ∉ own3 e di c) by (intros Hin; apply (Hs s Hin); by left).
  unfold own3 in Hnd, Hsn. fold m in Hnd, Hsn. rewrite Em in Hnd, Hsn.
  apply NoDup_app in Hnd as (_ & _ & Hnd). rewrite !NoDup_cons in Hnd. destruct Hnd as (H1 & H2 & _).
  rewrite elem_of_app, !elem_of_cons in Hsn. rewrite elem_of_cons in H1.
  destruct (new_sub e di c s b2) as (He1 & Hsubs & Hold1); try done; [tauto|]. fold e1 in He1, Hsubs, Hold1.
  destruct (new_leaf e1 di c s x b) as (Hleaf & Hent & Hold); try done; [|tauto|tauto|rewrite Hsubs; tauto|].
  { unfold e1. rewrite lookup_insert_ne by (intros E; apply Hsn; right; by rewrite E; tauto). done. }
  set (e2 := <[s := _]> e1) in *.
  assert (Hsub1 : forall i, 0 <= i < c / 128 -> entry_at e1 (indirect2 di) i = entry_at e (indirect2 di) i).
  { intros i Hi. pose proof (words_index_ok b2 Hok2). unfold e1. rewrite entry_at_store by (by apply words_ok_insert).
    rewrite list_lookup_insert_ne by lia. unfold entry_at. by rewrite Hb2. }
  split.
  - intros k Hk. rewrite Hold by done. by apply Hold1.
  - intros i Hi. fold m in Hi. rewrite Hent. apply Hsub1. lia.
  - unfold own3. replace (156 + (c + 1)) with (156 + c + 1) by lia.
    rewrite (blocks_of_snoc e) with (x := x); [|lia| |done].
    2:{ intros k Hk. rewrite Hold by done. by apply Hold1. }
    replace ((c + 1 + 127) / 128) with (c / 128 + 1) by lia_mod. fold m. rewrite Em.
    rewrite (subs_of_snoc e) with (s := s); [|lia_mod|intros i Hi; rewrite Hent; by apply Hsub1|by rewrite Hent].
    rewrite <- !app_assoc. apply Permutation_app_head. cbn [app]. rewrite !app_comm_cons.
    generalize (indirect1 di :: indirect2 di :: subs_of e di (c / 128)). intros l.
    rewrite (Permutation_cons_append _ x), <- app_assoc. apply Permutation_app_head. cbn [app]. apply Permutation_swap.
Qed.

(** ** The loop over the second level *)

Section GrowFacts.
Context {D : Type} {BD : BlockDevice D} {BL : BlockDeviceLaws D}.
Implicit Type st : CacheManager D.

Lemma modify_index {V} st d h id b (f : list Z -> CacheManager D -> outcome (V * list Z * CacheManager D)) v t :
  repr st d h -> d !! id = Some b -> id ∉ h -> (length h < BLOCK_CACHE_SIZE)%nat ->
  (forall st1, f (words 4 128 b) st1 = Ret (v, t, st1)) -> words_ok 4 128 t ->
  exists st', modify (T := IndirectBlock) st id 0 f = Ret (v, st') /\ repr st' (<[id := word_bytes 4 t]> d) h.
Proof.
  intros Hr Hb Hn Hh Hf Ht.
  destruct (modify_words_spec 4 128 eq_refl eq_refl indirect_pod_ok st d h id b f
              (fun v' t' d2 => v' = v /\ t' = t /\ d2 = d))
    as (v' & t' & st' & d2 & E & _ & (-> & -> & ->) & Hr'); try done.
  - intros st1 Hr1. exists v, t, st1, d. by rewrite Hf.
  - by exists st'.
Qed.

Lemma modify_set_entry st d h id b i x rest :
  repr st d h -> d !! id = Some b -> id ∉ h -> (length h < BLOCK_CACHE_SIZE)%nat -> 0 <= i < 128 -> in_width 32 x ->
  exists st', modify (T := IndirectBlock) st id 0 (set_entry i (x :: rest)) = Ret (rest, st') /\
    repr st' (<[id := word_bytes 4 (<[Z.to_nat i := x]> (words 4 128 b))]> d) h.
Proof.
  intros Hr Hb Hn Hh Hi Hx. apply (modify_index st d h id b); try done.
  - intros st1. unfold set_entry. cbn [next_block mbind outcome_bind].
    rewrite update_Ret by (rewrite length_words; lia). done.
  - apply words_ok_insert; [|done]. by apply words_index_ok, (rp_ok _ _ _ Hr _ _ Hb).
Qed.

(** Blocks taken between [c] and [c'] data blocks of the second level. *)
Definition needed3 (c c' : Z) : Z := c' - c + ((c' + 127) / 128 - (c + 127) / 128).

(** Outside the index blocks nothing changes. *)
Record grow_frame d d' (meta : list Z) : Prop := {
  gf_other : forall id, id ∉ meta -> d' !! id = d !! id;
  gf_dom : forall id, is_Some (d' !! id) <-> is_Some (d !! id);
}.

Lemma next_pos c : 0 <= c ->
  (if c mod 128 + 1 =? INODE_INDIRECT1_COUNT then (c / 128 + 1, 0) else (c / 128, c mod 128 + 1))
  = ((c + 1) / 128, (c + 1) mod 128).
Proof.
  intros Hc. change INODE_INDIRECT1_COUNT with 128. destruct (Z.eqb_spec (c mod 128 + 1) 128); f_equal; lia_mod.
Qed.

Lemma go_on c c' : 0 <= c <= c' ->
  (c / 128 <? c' / 128) || ((c / 128 =? c' / 128) && (c mod 128 <? c' mod 128)) = (c <? c').
Proof.
  intros Hc. destruct (Z.ltb_spec c c').
  - apply orb_true_iff. destruct (Z.ltb_spec (c / 128) (c' / 128)); [by left|right].
    apply andb_true_iff. split; [apply Z.eqb_eq|apply Z.ltb_lt]; lia_mod.
  - assert (c = c') as -> by lia. apply orb_false_iff. split; [apply Z.ltb_irrefl|].
    apply andb_false_iff. right. apply Z.ltb_irrefl.
Qed.

(** One round of the loop.  [ws] is the locked block [indirect2]: the disk the
    list is read from is [d] with [ws] in its place. *)
Lemma fill_round st d h ws di c (news : list Z) :
  let i2 := indirect2 di in let eff := fun ws d => <[i2 := word_bytes 4 ws]> d in
  repr st d (i2 :: h) -> words_ok 4 128 ws -> 0 <= c < 16384 -> (S (length h) < BLOCK_CACHE_SIZE)%nat ->
  needed3 c (c + 1) <= Z.of_nat (length news) -> Forall (in_width 32) news ->
  NoDup (own3 (eff ws d) di c ++ news) ->
  (forall id, id ∈ own3 (eff ws d) di c ++ news -> is_Some (d !! id) /\ id ∉ h) ->
  exists ws' s x used rest st' d',
    news = used ++ rest /\ Z.of_nat (length used) = needed3 c (c + 1) /\ words_ok 4 128 ws' /\
    ws' !! Z.to_nat (c / 128) = Some s /\
    (if c mod 128 =? 0 then
       '(b, new_blocks) ← next_block news; indirect2 ← update ws (c / 128) b; Ret (indirect2, new_blocks)
     else Ret (ws, news)) = Ret (ws', x :: rest) /\
    modify (T := IndirectBlock) st s 0 (set_entry (c mod 128) (x :: rest)) = Ret (rest, st') /\
    repr st' d' (i2 :: h) /\ grown3 (eff ws d) di c (eff ws' d') (c + 1) used /\
    s ∈ subs_of (eff ws' d') di ((c + 1 + 127) / 128) /\ grow_frame d d' [s].
Proof.
  intros i2 eff Hr Hws Hc Hh Hlen Hnw Hnd Hall. pose proof (rp_held _ _ _ Hr) as Hheld.
  assert (Hlw : length ws = 128%nat) by apply Hws.
  assert (Hok : map_Forall (fun _ => block_ok) d) by apply Hr.
  assert (Hi2 : is_Some (d !! i2)) by (apply Hall, elem_of_app; left; unfold own3; apply elem_of_app; right; right; left).
  assert (Hein : forall id b, id <> i2 -> d !! id = Some b -> eff ws d !! id = Some b).
  { intros id b Hne Hb. unfold eff. by rewrite lookup_insert_ne. }
  assert (Hentry : forall ws' d' i, words_ok 4 128 ws' -> entry_at (eff ws' d') i2 i = default 0 (ws' !! Z.to_nat i)).
  { intros ws' d' i Hw'. unfold eff. by apply entry_at_store. }
  assert (Hframe : forall s b, is_Some (d !! s) -> grow_frame d (<[s := b]> d) [s]).
  { intros s b Hs. split; intros id.
    - intros Hn. apply lookup_insert_ne. intros ->. apply Hn. by left.
    - destruct (decide (s = id)) as [->|]; [|by rewrite lookup_insert_ne]. rewrite lookup_insert_eq. split; [done|by eexists]. }
  assert (Hswap : forall ws' s b, s <> i2 -> eff ws' (<[s := b]> d) = <[s := b]> (eff ws' d)).
  { intros ws' s b Hne. unfold eff. by rewrite insert_insert_ne. }
  unfold needed3 in Hlen. destruct (Z.eqb_spec (c mod 128) 0) as [Em|Em].
  - (* a new index block first *)
    destruct news as [|s [|x rest]]; [cbn in Hlen; lia_mod|cbn in Hlen; lia_mod|].
    apply Forall_cons in Hnw as [Hsw Hnw]. apply Forall_cons in Hnw as [Hxw Hnw].
    destruct (Hall s) as [[bs Hbs] Hsh]; [apply elem_of_app; right; by left|].
    assert (Hsi : s <> i2).
    { intros ->. apply NoDup_app in Hnd as (_ & Hnd & _). apply (Hnd i2); [|by left].
      unfold own3. apply elem_of_app. right. right. by left. }
    set (ws' := <[Z.to_nat (c / 128) := s]> ws). assert (Hws' : words_ok 4 128 ws') by (by apply words_ok_insert).
    destruct (modify_set_entry st d (i2 :: h) s bs (c mod 128) x rest) as (st' & E & Hr');
      [done|done|by rewrite not_elem_of_cons|done|lia_mod|done|].
    exists ws', s, x, [s; x], rest, st', (<[s := word_bytes 4 (<[Z.to_nat (c mod 128) := x]> (words 4 128 bs))]> d).
    split; [done|]. split; [unfold needed3; cbn; lia_mod|]. split; [done|].
    split; [unfold ws'; apply list_lookup_insert_eq; lia_mod|]. split.
    { cbn [next_block mbind outcome_bind]. rewrite update_Ret by lia_mod. done. }
    split; [exact E|]. split; [exact Hr'|]. rewrite Hswap by done.
    assert (Heff : eff ws' d = <[i2 := word_bytes 4 (<[Z.to_nat (c / 128) := s]> (words 4 128 (word_bytes 4 ws)))]> (eff ws d)).
    { unfold eff, ws'. rewrite insert_insert_eq, words_word_bytes by (done || apply Hws). done. }
    assert (Hg : grown3 (eff ws d) di c (<[s := word_bytes 4 (<[Z.to_nat (c mod 128) := x]> (words 4 128 bs))]> (eff ws' d)) (c + 1) [s; x]).
    { rewrite Heff. apply (grown3_sub (eff ws d) di c s x (word_bytes 4 ws) bs); try done.
      - unfold eff. apply lookup_insert_eq.
      - by apply Hein.
      - by apply (word_bytes_block 4 128), Hws.
      - by apply (Hok _ _ Hbs).
      - rewrite (app_assoc _ [s] (x :: rest)) in Hnd. by apply NoDup_app in Hnd as [? _]. }
    split; [exact Hg|]. split; [|by apply Hframe; eexists].
    apply elem_subs_of. exists (c / 128). split; [lia_mod|]. rewrite <- Hswap by done. rewrite Hentry by done.
    unfold ws'. rewrite list_lookup_insert_eq by lia_mod. done.
  - (* the index block is there *)
    destruct news as [|x rest]; [cbn in Hlen; lia_mod|]. apply Forall_cons in Hnw as [Hxw Hnw].
    set (s := entry_at (eff ws d) i2 (c / 128)).
    assert (Hsl : ws !! Z.to_nat (c / 128) = Some s).
    { unfold s. rewrite Hentry by done. destruct (lookup_lt_is_Some_2 ws (Z.to_nat (c / 128))) as [y ->]; [lia_mod|done]. }
    assert (Hsin : s ∈ subs_of (eff ws d) di ((c + 127) / 128)).
    { apply elem_subs_of. exists (c / 128). split; [lia_mod|done]. }
    assert (Hso : s ∈ own3 (eff ws d) di c) by (unfold own3; apply elem_of_app; right; by right; right).
    destruct (Hall s) as [[bs Hbs] Hsh]; [apply elem_of_app; by left|].
    apply NoDup_app in Hnd as (Hnd & _).
    assert (Hsi : s <> i2).
    { intros Es. pose proof Hnd as Hnd2. unfold own3 in Hnd2. apply NoDup_app in Hnd2 as (_ & _ & Hnd2).
      rewrite !NoDup_cons in Hnd2. destruct Hnd2 as (_ & Hn2 & _). apply Hn2. fold i2. by rewrite <- Es. }
    destruct (modify_set_entry st d (i2 :: h) s bs (c mod 128) x rest) as (st' & E & Hr');
      [done|done|by rewrite not_elem_of_cons|done|lia_mod|done|].
    exists ws, s, x, [x], rest, st', (<[s := word_bytes 4 (<[Z.to_nat (c mod 128) := x]> (words 4 128 bs))]> d).
    split; [done|]. split; [unfold needed3; cbn; lia_mod|]. split_and!; try done.
    + rewrite Hswap by done. apply grown3_leaf; try done; [by apply Hein|by apply (Hok _ _ Hbs)].
    + apply elem_subs_of. exists (c / 128). split; [lia_mod|]. by rewrite Hentry, Hsl.
    + apply Hframe. by eexists.
Qed.

Lemma grow_frame_trans d1 d2 d3 m1 m2 m3 :
  grow_frame d1 d2 m1 -> grow_frame d2 d3 m2 -> (forall id, id ∈ m1 -> id ∈ m3) -> (forall id, id ∈ m2 -> id ∈ m3) ->
  grow_frame d1 d3 m3.
Proof.
  intros [O1 D1] [O2 D2] H1 H2. split; intros id.
  - intros Hn. rewrite O2, O1; auto.
  - by rewrite D2.
Qed.

Lemma grow_frame_refl d m : grow_frame d d m.
Proof. done. Qed.

Lemma fill_indirect2_spec fuel : forall st d h ws di c c' (news : list Z),
  let i2 := indirect2 di in let eff := fun ws d => <[i2 := word_bytes 4 ws]> d in
  repr st d (i2 :: h) -> words_ok 4 128 ws -> 0 <= c <= c' -> c' <= 16384 -> c' - c <= Z.of_nat fuel ->
  (S (length h) < BLOCK_CACHE_SIZE)%nat -> Z.of_nat (length news) = needed3 c c' -> Forall (in_width 32) news ->
  NoDup (own3 (eff ws d) di c ++ news) ->
  (forall id, id ∈ own3 (eff ws d) di c ++ news -> is_Some (d !! id) /\ id ∉ h) ->
  exists ws' st' d',
    fill_indirect2 fuel (c / 128) (c mod 128) (c' / 128) (c' mod 128) news ws st = Ret ([], ws', st') /\
    repr st' d' (i2 :: h) /\ words_ok 4 128 ws' /\ grown3 (eff ws d) di c (eff ws' d') c' news /\
    grow_frame d d' (subs_of (eff ws' d') di ((c' + 127) / 128)).
Proof.
  induction fuel as [|fuel IH]; intros st d h ws di c c' news i2 eff Hr Hws Hc Hc' Hfuel Hh Hlen Hnw Hnd Hall;
    cbn [fill_indirect2]; rewrite go_on by done; destruct (Z.ltb_spec c c') as [Hlt|Hge]; try lia.
  1, 3: assert (c' = c) as -> by lia; unfold needed3 in Hlen; destruct news; [|cbn in Hlen; lia];
    exists ws, st, d; split_and!; try done; split; try done; by rewrite app_nil_r.
  destruct (fill_round st d h ws di c news) as (ws1 & s & x & used & rest & st1 & d1 & -> & Hu & Hws1 & Hs1 & -> & E1 & Hr1 & Hg & Hsin & Hf);
    try done; [lia| |].
  { rewrite Hlen. unfold needed3. lia_mod. }
  cbn [mbind outcome_bind]. rewrite (index_Ret _ _ _ Hs1). cbn [mbind outcome_bind]. rewrite E1. cbn [mbind outcome_bind].
  rewrite next_pos by lia. fold i2 in Hr1. fold i2 eff in Hg, Hsin.
  apply Forall_app in Hnw as [_ Hnw]. rewrite length_app in Hlen.
  assert (Hperm : own3 (eff ws1 d1) di (c + 1) ++ rest ≡ₚ own3 (eff ws d) di c ++ used ++ rest).
  { etransitivity; [apply Permutation_app_tail; exact (g3_own _ _ _ _ _ _ Hg)|]. by rewrite <- app_assoc. }
  destruct (IH st1 d1 h ws1 di (c + 1) c' rest) as (ws2 & st2 & d2 & E2 & Hr2 & Hws2 & Hg2 & Hf2); try done; try lia.
  - unfold needed3 in *. lia.
  - change (NoDup (own3 (eff ws1 d1) di (c + 1) ++ rest)). by rewrite Hperm.
  - intros id Hid. change (id ∈ own3 (eff ws1 d1) di (c + 1) ++ rest) in Hid. rewrite Hperm in Hid.
    destruct (Hall id Hid) as [? ?].
    split; [by apply (gf_dom _ _ _ Hf)|done].
  - fold i2 eff in Hg2, Hf2. exists ws2, st2, d2. split_and!; try done.
    + eapply grown3_trans; [|exact Hg|exact Hg2]. lia.
    + eapply grow_frame_trans; [exact Hf|exact Hf2| |done].
      intros id ->%list_elem_of_singleton. apply elem_subs_of in Hsin as (a & Ha & ->). apply elem_subs_of. exists a.
      split; [lia_mod|]. symmetry. by apply (g3_subs _ _ _ _ _ _ Hg2).
Qed.

(** ** The phases of [increase_size] *)

(** The number of blocks an inode with [n] data blocks owns. *)
Definition owned_count (n : Z) : Z := n + (if 28 <? n then 1 else 0) + (if 156 <? n then 1 + sub_count n else 0).

(** The inode went from [n] to [n'] data blocks and took [used]. *)
Record grown d di (n : Z) d' di' (n' : Z) (used : list Z) : Prop := {
  gr_fields : inode_fields_ok di';
  gr_size : size di' = size di;
  gr_type : type_ di' = type_ di;
  gr_old : forall k, 0 <= k < n -> block_of d' di' k = block_of d di k;
  gr_own : owned d' di' n' ≡ₚ owned d di n ++ used;
  gr_meta : forall id, id ∈ meta_of d di n -> id ∈ meta_of d' di' n';
  gr_frame : grow_frame d d' (meta_of d' di' n');
}.

Lemma inode_grown_trans d1 d2 d3 di1 di2 di3 n1 n2 n3 u1 u2 :
  n1 <= n2 -> grown d1 di1 n1 d2 di2 n2 u1 -> grown d2 di2 n2 d3 di3 n3 u2 -> grown d1 di1 n1 d3 di3 n3 (u1 ++ u2).
Proof.
  intros Hn [] []. split; try congruence; auto.
  - intros k Hk. rewrite gr_old1 by lia. auto.
  - by rewrite gr_own1, gr_own0, app_assoc.
  - eapply grow_frame_trans; eauto.
Qed.

Lemma owned_156 d di : owned d di 156 = blocks_of d di 156 ++ [indirect1 di].
Proof. done. Qed.

Lemma owned_own3 d di n : 156 < n -> owned d di n = own3 d di (n - 156).
Proof.
  intros Hn. unfold owned, own3, meta_of. destruct (Z.ltb_spec 28 n); [|lia]. destruct (Z.ltb_spec 156 n); [|lia].
  unfold sub_count. cbn [app]. by replace (156 + (n - 156)) with n by lia.
Qed.

Lemma with_indirect2_ok di x : inode_fields_ok di -> in_width 32 x -> inode_fields_ok (with_indirect2 di x).
Proof.
  intros [Hl Hw] Hx. split; [done|]. unfold inode_words in *. cbn in *. rewrite Forall_cons, Forall_app in *.
  destruct Hw as (? & ? & Hw). split_and!; try done. rewrite !Forall_cons in *. tauto.
Qed.

Lemma with_indirect1_ok di x : inode_fields_ok di -> in_width 32 x -> inode_fields_ok (with_indirect1 di x).
Proof.
  intros [Hl Hw] Hx. split; [done|]. unfold inode_words in *. cbn in *. rewrite Forall_cons, Forall_app in *.
  destruct Hw as (? & ? & Hw). split_and!; try done. rewrite !Forall_cons in *. tauto.
Qed.

Lemma block_of_low d di k x : k < 156 -> block_of d (with_indirect2 di x) k = block_of d di k.
Proof. intros Hk. unfold block_of. cbn. destruct (Z.ltb_spec k 28); [done|]. by destruct (Z.ltb_spec k 156); [|lia]. Qed.

(** The part after the fill of the second level, when [indirect2] is set. *)
Lemma fill2_grown st d h di n n' (news : list Z) :
  repr st d h -> 156 <= n <= n' -> 156 < n' <= MAX_BLOCKS -> (S (S (length h)) < BLOCK_CACHE_SIZE)%nat ->
  Z.of_nat (length news) = needed3 (n - 156) (n' - 156) -> Forall (in_width 32) news ->
  inode_fields_ok di -> NoDup (own3 d di (n - 156) ++ news) ->
  (forall id, id ∈ own3 d di (n - 156) ++ news -> is_Some (d !! id) /\ id ∉ h) ->
  exists st' d', 
    modify (T := IndirectBlock) st (indirect2 di) 0
      (fill_indirect2 (Z.to_nat (n' - 156 - (n - 156))) ((n - 156) / 128) ((n - 156) mod 128)
         ((n' - 156) / 128) ((n' - 156) mod 128) news) = Ret ([], st') /\ repr st' d' h /\
    (forall k, 0 <= k < n -> block_of d' di k = block_of d di k) /\
    owned d' di n' ≡ₚ own3 d di (n - 156) ++ news /\ grow_frame d d' (meta_of d' di n') /\
    (forall i, 0 <= i < (n - 156 + 127) / 128 -> entry_at d' (indirect2 di) i = entry_at d (indirect2 di) i).
Proof.
  intros Hr Hn Hn' Hh Hlen Hnw Hf Hnd Hall. set (i2 := indirect2 di).
  destruct (Hall i2) as [[b2 Hb2] Hi2h]; [apply elem_of_app; left; unfold own3; apply elem_of_app; right; right; by left|].
  pose proof (rp_ok _ _ _ Hr _ _ Hb2) as Hok2.
  assert (Hid : <[i2 := word_bytes 4 (words 4 128 b2)]> d = d).
  { rewrite word_bytes_words by (done || apply Hok2). by apply insert_id. }
  destruct (modify_words_spec 4 128 eq_refl eq_refl indirect_pod_ok st d h i2 b2
     (fill_indirect2 (Z.to_nat (n' - 156 - (n - 156))) ((n - 156) / 128) ((n - 156) mod 128)
         ((n' - 156) / 128) ((n' - 156) mod 128) news)
     (fun v ws' d' => v = [] /\ grown3 d di (n - 156) (<[i2 := word_bytes 4 ws']> d') (n' - 156) news /\
        grow_frame d d' (subs_of (<[i2 := word_bytes 4 ws']> d') di ((n' - 156 + 127) / 128))))
    as (v & ws' & st' & d' & E & Hws' & (-> & Hg & Hfr) & Hr'); try done; [lia| |].
  - intros st1 Hr1. destruct (fill_indirect2_spec (Z.to_nat (n' - 156 - (n - 156))) st1 d h (words 4 128 b2) di (n - 156) (n' - 156) news)
      as (ws' & st2 & d2 & E & Hr2 & Hws' & Hg & Hfr); fold i2; rewrite ?Hid; try done;
      [by apply words_index_ok|lia|unfold MAX_BLOCKS in Hn'; lia|lia|lia|].
    fold i2 in Hg, Hfr. rewrite Hid in Hg. by exists [], ws', st2, d2.
  - exists st', (<[i2 := word_bytes 4 ws']> d'). split; [exact E|]. split; [exact Hr'|].
    assert (Ho : owned (<[i2 := word_bytes 4 ws']> d') di n' = own3 (<[i2 := word_bytes 4 ws']> d') di (n' - 156))
      by (apply owned_own3; lia).
    split_and!.
    + intros k Hk. apply (g3_old _ _ _ _ _ _ Hg). lia.
    + rewrite Ho. apply (g3_own _ _ _ _ _ _ Hg).
    + assert (Hi2m : i2 ∈ meta_of (<[i2 := word_bytes 4 ws']> d') di n') by (apply elem_meta_of; right; split; [lia|by left]).
      split; intros id.
      * intros Hid'. rewrite lookup_insert_ne by (intros <-; done). apply (gf_other _ _ _ Hfr).
        intros (a & Ha & ->)%elem_subs_of. apply Hid', elem_meta_of. right. split; [lia|]. right. by exists a.
      * destruct (decide (i2 = id)) as [<-|Hne].
        -- rewrite lookup_insert_eq, Hb2. split; by eexists.
        -- rewrite lookup_insert_ne by done. apply (gf_dom _ _ _ Hfr).
    + apply (g3_subs _ _ _ _ _ _ Hg).
Qed.

Lemma wrap32_small z : 0 <= z < 2 ^ 32 -> wrap 32 z = z.
Proof. intros. by apply wrap_small. Qed.

Lemma owned_with_indirect2 d di x : own3 d (with_indirect2 di x) 0 ≡ₚ owned d di 156 ++ [x].
Proof.
  rewrite owned_156. unfold own3. change ((0 + 127) / 128) with 0. cbn [indirect1 indirect2 with_indirect2].
  unfold subs_of. cbn [seqZ fmap list_fmap]. rewrite <- app_assoc. cbn [app].
  assert (blocks_of d (with_indirect2 di x) (156 + 0) = blocks_of d di 156) as ->; [|done].
  unfold blocks_of. apply list_fmap_ext. intros i k Hk. apply list_elem_of_lookup_2, elem_of_seqZ in Hk.
  apply block_of_low. lia.
Qed.

Lemma grow_indirect2_spec st d h di n n' (news : list Z) :
  repr st d h -> 156 <= n <= n' -> n' <= MAX_BLOCKS -> (S (S (length h)) < BLOCK_CACHE_SIZE)%nat ->
  Z.of_nat (length news) = owned_count n' - owned_count n -> Forall (in_width 32) news ->
  inode_fields_ok di -> NoDup (owned d di n ++ news) ->
  (forall id, id ∈ owned d di n ++ news -> is_Some (d !! id) /\ id ∉ h) ->
  exists di' st' d', grow_indirect2 di (n - 28) (n' - 28) news st = Ret (di', st') /\ repr st' d' h /\
    grown d di n d' di' n' news.
Proof.
  intros Hr Hn Hn' Hh Hlen Hnw Hf Hnd Hall. unfold grow_indirect2. change INODE_INDIRECT1_COUNT with 128.
  unfold MAX_BLOCKS in Hn'. destruct (Z.ltb_spec 128 (n' - 28)) as [Hgt|Hle].
  2:{ assert (n = 156 /\ n' = 156) as [-> ->] by lia. destruct news; [|cbn in Hlen; lia].
      exists di, st, d. split; [done|]. split; [done|]. split; try done. }
  unfold owned_count in Hlen. destruct (Z.ltb_spec 28 n'); [|lia]. destruct (Z.ltb_spec 156 n'); [|lia].
  destruct (Z.ltb_spec 28 n); [|lia]. unfold sub_count in Hlen.
  destruct (Z.eqb_spec (n - 28) 128) as [E|E].
  - assert (n = 156) as -> by lia. destruct (Z.ltb_spec 156 156); [lia|].
    destruct news as [|x news]; [cbn in Hlen; lia_mod|]. cbn [next_block mbind outcome_bind].
    apply Forall_cons in Hnw as [Hx Hnw]. set (di1 := with_indirect2 di x).
    rewrite !wrap32_small by lia. replace (n' - 28 - 128) with (n' - 156) by lia. replace (156 - 28 - 128) with (156 - 156) by lia.
    assert (Hp : own3 d di1 (156 - 156) ≡ₚ owned d di 156 ++ [x]) by apply owned_with_indirect2.
    destruct (fill2_grown st d h di1 156 n' news) as (st' & d' & -> & Hr' & Hold & Hown & Hfr & Hsubs);
      [exact Hr|lia|unfold MAX_BLOCKS; lia|exact Hh|unfold needed3; cbn [length] in Hlen; lia_mod|exact Hnw
      |by apply with_indirect2_ok| | |].
    + rewrite Hp, <- app_assoc. exact Hnd.
    + intros id Hid. rewrite Hp, <- app_assoc in Hid. by apply Hall.
    + cbn [mbind outcome_bind]. exists di1, st', d'. split; [reflexivity|]. split; [exact Hr'|]. split.
      * by apply with_indirect2_ok.
      * reflexivity.
      * reflexivity.
      * intros k Hk. rewrite Hold by exact Hk. apply block_of_low; lia.
      * rewrite Hown, Hp, <- app_assoc. reflexivity.
      * intros id [(_ & ->)|(? & _)]%elem_meta_of; [|lia]. apply elem_meta_of. left. split; [lia|reflexivity].
      * exact Hfr.
  - destruct (Z.ltb_spec 156 n); [|lia]. cbn [mbind outcome_bind].
    rewrite !wrap32_small by lia. replace (n' - 28 - 128) with (n' - 156) by lia. replace (n - 28 - 128) with (n - 156) by lia.
    rewrite (owned_own3 d di n) in Hnd, Hall by lia.
    destruct (fill2_grown st d h di n n' news) as (st' & d' & -> & Hr' & Hold & Hown & Hfr & Hsubs);
      [exact Hr|lia|unfold MAX_BLOCKS; lia|exact Hh|unfold needed3; lia_mod|exact Hnw|exact Hf|exact Hnd|exact Hall|].
    cbn [mbind outcome_bind]. exists di, st', d'. split; [reflexivity|]. split; [exact Hr'|]. split.
    + exact Hf.
    + reflexivity.
    + reflexivity.
    + exact Hold.
    + rewrite (owned_own3 d di n) by lia. exact Hown.
    + intros id [(_ & ->)|(_ & [->|(a & Ha & ->)])]%elem_meta_of; apply elem_meta_of.
      * left. split; [lia|reflexivity].
      * right. split; [lia|by left].
      * right. split; [lia|]. right. exists a. split; [unfold sub_count in *; lia_mod|]. symmetry. by apply Hsubs.
    + exact Hfr.
Qed.

Lemma meta_of_mid d di n : 28 < n <= 156 -> meta_of d di n = [indirect1 di].
Proof. intros Hn. unfold meta_of. destruct (Z.ltb_spec 28 n); [|lia]. by destruct (Z.ltb_spec 156 n); [lia|]. Qed.

Lemma blocks_of_direct d di x n : n <= 28 -> blocks_of d (with_indirect1 di x) n = blocks_of d di n.
Proof.
  intros Hn. unfold blocks_of. apply list_fmap_ext. intros i k Hk. apply list_elem_of_lookup_2, elem_of_seqZ in Hk.
  unfold block_of. destruct (Z.ltb_spec k 28); [done|lia].
Qed.

(** Filling the first index block, when [indirect1] is set. *)
Lemma fill1_spec st d h di n m (news : list Z) :
  repr st d h -> 28 <= n <= m -> m <= 156 -> (S (length h) < BLOCK_CACHE_SIZE)%nat ->
  m - n <= Z.of_nat (length news) -> Forall (in_width 32) news ->
  is_Some (d !! indirect1 di) -> indirect1 di ∉ h ->
  let s := Z.to_nat (m - n) in
  exists st' d', modify (T := IndirectBlock) st (indirect1 di) 0 (fill_indirect1 (m - 28) (n - 28) news)
      = Ret ((m - 28, drop s news), st') /\ repr st' d' h /\ grow_frame d d' [indirect1 di] /\
    (forall k, 0 <= k < n -> block_of d' di k = block_of d di k) /\
    blocks_of d' di m = blocks_of d di n ++ take s news.
Proof.
  intros Hr Hn Hm Hh Hlen Hnw [b Hb] Hnh s. pose proof (rp_ok _ _ _ Hr _ _ Hb) as Hok.
  assert (Hls : length (take s news) = s) by (rewrite length_take; unfold s; lia).
  destruct (indirect1_phase d di n b (take s news)) as [Hws Hbl]; [done|done|lia|rewrite Hls; unfold s; lia|by apply Forall_take|].
  rewrite Hls in Hbl. replace (n + Z.of_nat s) with m in Hbl by (unfold s; lia).
  destruct (modify_index st d h (indirect1 di) b (fill_indirect1 (m - 28) (n - 28) news) (m - 28, drop s news)
     (splice (words 4 128 b) (n - 28) (take s news))) as (st' & E & Hr'); [done|done|done|lia| |done|].
  - intros st1. unfold fill_indirect1, fill_to. replace (m - 28 - (n - 28)) with (m - n) by lia. fold s.
    rewrite fill_spec by (rewrite ?length_words; unfold s; lia). cbn [mbind outcome_bind].
    by replace (n - 28 + Z.of_nat s) with (m - 28) by (unfold s; lia).
  - exists st', (<[indirect1 di := word_bytes 4 (splice (words 4 128 b) (n - 28) (take s news))]> d).
    split; [exact E|]. split; [exact Hr'|]. split; [|split; [|exact Hbl]].
    + split; intros id.
      * intros Hid. apply lookup_insert_ne. intros <-. apply Hid. by left.
      * destruct (decide (indirect1 di = id)) as [<-|]; [|by rewrite lookup_insert_ne].
        rewrite lookup_insert_eq, Hb. split; by eexists.
    + intros k Hk. assert (Hl : blocks_of (<[indirect1 di := word_bytes 4 (splice (words 4 128 b) (n - 28) (take s news))]> d) di m !! Z.to_nat k
          = (blocks_of d di n ++ take s news) !! Z.to_nat k) by (by rewrite Hbl).
      unfold blocks_of in Hl. rewrite lookup_app_l in Hl by (rewrite length_fmap, length_seqZ; lia).
      rewrite !list_lookup_fmap, !lookup_seqZ_lt in Hl by lia. cbn in Hl. injection Hl as Hl.
      by replace (0 + Z.of_nat (Z.to_nat k)) with k in Hl by lia.
Qed.

(** The step from [n] to [m] data blocks with the first index block. *)
Lemma phase1_spec st d h di n m (news : list Z) :
  repr st d h -> 28 <= n <= m -> 28 < m <= 156 -> (S (length h) < BLOCK_CACHE_SIZE)%nat ->
  owned_count m - owned_count n <= Z.of_nat (length news) -> Forall (in_width 32) news ->
  inode_fields_ok di -> NoDup (owned d di n ++ news) ->
  (forall id, id ∈ owned d di n ++ news -> is_Some (d !! id) /\ id ∉ h) ->
  exists di1 news1 used rest st' d', news = used ++ rest /\ Z.of_nat (length used) = owned_count m - owned_count n /\
    (if n =? 28 then '(b, new_blocks) ← next_block news; Ret (with_indirect1 di b, new_blocks)
     else Ret (di, news)) = Ret (di1, news1) /\
    modify (T := IndirectBlock) st (indirect1 di1) 0 (fill_indirect1 (m - 28) (n - 28) news1)
      = Ret ((m - 28, rest), st') /\ repr st' d' h /\ grown d di n d' di1 m used.
Proof.
  intros Hr Hn Hm Hh Hlen Hnw Hf Hnd Hall. unfold owned_count in *.
  destruct (Z.ltb_spec 28 m); [|lia]. destruct (Z.ltb_spec 156 m); [lia|]. destruct (Z.ltb_spec 156 n); [lia|].
  destruct (Z.eqb_spec n 28) as [->|En].
  - destruct (Z.ltb_spec 28 28); [lia|]. destruct news as [|x news]; [cbn in Hlen; lia|].
    apply Forall_cons in Hnw as [Hx Hnw]. destruct (Hall x) as [Hxs Hxh]; [apply elem_of_app; right; by left|].
    set (di1 := with_indirect1 di x). set (s := Z.to_nat (m - 28)). cbn [length] in Hlen.
    destruct (fill1_spec st d h di1 28 m news) as (st' & d' & E & Hr' & Hfr & Hold & Hbl); [done|lia|lia|done|lia|done..|].
    exists di1, news, (x :: take s news), (drop s news), st', d'.
    split; [cbn; by rewrite take_drop|]. split; [cbn [length]; rewrite length_take; unfold s; lia|].
    split; [done|]. split; [exact E|]. split; [exact Hr'|]. split.
    + by apply with_indirect1_ok.
    + done.
    + done.
    + intros k Hk. rewrite Hold by done. unfold block_of. destruct (Z.ltb_spec k 28); [done|lia].
    + unfold owned. rewrite Hbl, meta_of_mid by lia. unfold di1 at 1. rewrite blocks_of_direct by lia.
      change (meta_of d di 28) with (@nil Z). rewrite app_nil_r, <- app_assoc. apply Permutation_app_head.
      symmetry. apply Permutation_cons_append.
    + intros id [(? & _)|(? & _)]%elem_meta_of; lia.
    + rewrite meta_of_mid by lia. exact Hfr.
  - destruct (Z.ltb_spec 28 n); [|lia]. set (s := Z.to_nat (m - n)).
    destruct (Hall (indirect1 di)) as [Hs Hnh].
    { apply elem_of_app. left. unfold owned. apply elem_of_app. right. rewrite meta_of_mid by lia. by left. }
    destruct (fill1_spec st d h di n m news) as (st' & d' & E & Hr' & Hfr & Hold & Hbl); [done|lia|lia|done|lia|done..|].
    exists di, news, (take s news), (drop s news), st', d'.
    split; [by rewrite take_drop|]. split; [rewrite length_take; unfold s; lia|].
    split; [done|]. split; [exact E|]. split; [exact Hr'|]. split.
    + done.
    + done.
    + done.
    + done.
    + unfold owned. rewrite Hbl, !meta_of_mid by lia. rewrite <- !app_assoc. apply Permutation_app_head.
      apply Permutation_app_comm.
    + intros id. by rewrite !meta_of_mid by lia.
    + rewrite meta_of_mid by lia. exact Hfr.
Qed.

Lemma grown_pre d di n d1 di1 m (used rest h : list Z) :
  grown d di n d1 di1 m used -> NoDup (owned d di n ++ used ++ rest) ->
  (forall id, id ∈ owned d di n ++ used ++ rest -> is_Some (d !! id) /\ id ∉ h) ->
  NoDup (owned d1 di1 m ++ rest) /\ forall id, id ∈ owned d1 di1 m ++ rest -> is_Some (d1 !! id) /\ id ∉ h.
Proof.
  intros Hg Hnd Hall. assert (Hp : owned d1 di1 m ++ rest ≡ₚ owned d di n ++ used ++ rest).
  { by rewrite (gr_own _ _ _ _ _ _ _ Hg), app_assoc. }
  split; [by rewrite Hp|]. intros id Hid. rewrite Hp in Hid. destruct (Hall id Hid) as [H ?].
  split; [by apply (gf_dom _ _ _ (gr_frame _ _ _ _ _ _ _ Hg))|done].
Qed.

Lemma grow_indirect1_spec st d h di n n' (news : list Z) :
  repr st d h -> 28 <= n <= n' -> n' <= MAX_BLOCKS -> (S (S (length h)) < BLOCK_CACHE_SIZE)%nat ->
  Z.of_nat (length news) = owned_count n' - owned_count n -> Forall (in_width 32) news ->
  inode_fields_ok di -> NoDup (owned d di n ++ news) ->
  (forall id, id ∈ owned d di n ++ news -> is_Some (d !! id) /\ id ∉ h) ->
  exists di' st' d', grow_indirect1 di n n' news st = Ret (di', st') /\ repr st' d' h /\
    grown d di n d' di' n' news.
Proof.
  intros Hr Hn Hn' Hh Hlen Hnw Hf Hnd Hall. unfold grow_indirect1. change INODE_INDIRECT1_COUNT with 128.
  change INODE_DIRECT_COUNT with 28. unfold MAX_BLOCKS in Hn'. destruct (Z.ltb_spec 28 n') as [Hgt|Hle].
  2:{ assert (n = 28 /\ n' = 28) as [-> ->] by lia. destruct news; [|cbn in Hlen; lia].
      exists di, st, d. split; [done|]. split; [done|]. by split; rewrite ?app_nil_r. }
  destruct (decide (n <= 156)) as [Hlow|Hhigh].
  - set (m := Z.min n' 156).
    destruct (phase1_spec st d h di n m news) as (di1 & news1 & used & rest & st1 & d1 & -> & Hu & -> & E1 & Hr1 & Hg1);
      [done|lia|lia|lia| |done..|].
    { unfold owned_count, sub_count in *. unfold m. repeat case_match; lia_mod. }
    cbn [mbind outcome_bind]. rewrite !wrap32_small by lia. replace (Z.min (n' - 28) 128) with (m - 28) by lia.
    rewrite E1. cbn [mbind outcome_bind]. apply Forall_app in Hnw as [_ Hnw]. rewrite length_app in Hlen.
    destruct (grown_pre _ _ _ _ _ _ _ _ h Hg1 Hnd Hall) as [Hnd1 Hall1].
    destruct (decide (n' <= 156)) as [Hle|Hgt2].
    + assert (m = n') as Em by lia. rewrite Em in *. destruct rest; [|cbn in Hlen; lia].
      exists di1, st1, d1. split; [|split; [done|by rewrite app_nil_r]].
      unfold grow_indirect2. change INODE_INDIRECT1_COUNT with 128. by destruct (Z.ltb_spec 128 (n' - 28)); [lia|].
    + assert (m = 156) as Em by lia. rewrite Em in *.
      destruct (grow_indirect2_spec st1 d1 h di1 156 n' rest) as (di' & st' & d' & E2 & Hr2 & Hg2);
        [done|lia|done|lia|lia|done|apply Hg1|done..|].
      exists di', st', d'. split; [exact E2|]. split; [exact Hr2|]. eapply inode_grown_trans; [|exact Hg1|exact Hg2]. lia.
  - destruct (Z.eqb_spec n 28); [lia|]. cbn [mbind outcome_bind]. rewrite !wrap32_small by lia.
    destruct (Hall (indirect1 di)) as [[b Hb] Hnh].
    { apply elem_of_app. left. unfold owned. apply elem_of_app. right. apply elem_meta_of. left. split; [lia|done]. }
    pose proof (rp_ok _ _ _ Hr _ _ Hb) as Hok.
    destruct (modify_index st d h (indirect1 di) b (fill_indirect1 (Z.min (n' - 28) 128) (n - 28) news) (n - 28, news)
                (words 4 128 b)) as (st1 & -> & Hr1); [done|done|done|lia| |by apply words_index_ok|].
    { intros st1. unfold fill_indirect1, fill_to. by replace (Z.to_nat (Z.min (n' - 28) 128 - (n - 28))) with 0%nat by lia. }
    rewrite word_bytes_words, insert_id in Hr1 by (done || apply Hok). cbn [mbind outcome_bind].
    apply grow_indirect2_spec; (done || lia).
Qed.

Lemma direct_frame d m : grow_frame d d m.
Proof. done. Qed.

(** [increase_size] with exactly the blocks [blocks_num_needed] asked for. *)
Lemma increase_size_spec st d h di new_size (news : list Z) :
  let n := data_blocks di in let n' := _data_blocks new_size in
  repr st d h -> inode_ok d di n -> 0 <= size di <= new_size -> new_size <= MAX_BLOCKS * 512 ->
  (S (S (length h)) < BLOCK_CACHE_SIZE)%nat -> Z.of_nat (length news) = owned_count n' - owned_count n ->
  Forall (in_width 32) news -> NoDup (owned d di n ++ news) ->
  (forall id, id ∈ owned d di n ++ news -> is_Some (d !! id) /\ id ∉ h) ->
  exists di' st' d', increase_size di new_size news st = Ret (di', st') /\ repr st' d' h /\
    grown d (with_size di new_size) n d' di' n' news.
Proof.
  intros n n' Hr [Hf _ _ _] Hsz Hmax Hh Hlen Hnw Hnd Hall. unfold MAX_BLOCKS in Hmax.
  assert (En : n = (size di + 511) / 512) by (unfold n, data_blocks; apply data_blocks_small; lia).
  assert (En' : n' = (new_size + 511) / 512) by (apply data_blocks_small; lia).
  assert (Hn : 0 <= n <= n') by lia_mod. assert (Hn' : n' <= MAX_BLOCKS) by (unfold MAX_BLOCKS; lia_mod).
  unfold increase_size. fold n. change (data_blocks (with_size di new_size)) with n'. change INODE_DIRECT_COUNT with 28.
  destruct Hf as [Hl Hw]. set (di0 := with_size di new_size).
  assert (Hf0 : inode_fields_ok di0).
  { split; [done|]. unfold inode_words in *. cbn. apply Forall_cons. split; [unfold in_width; lia|].
    by apply Forall_cons in Hw as [_ ?]. }
  assert (Howned : owned d di n = owned d di0 n) by done. rewrite Howned in Hnd, Hall.
  change (direct di0) with (direct di).
  destruct (decide (n <= 28)) as [Hlow|Hhigh].
  - set (m := Z.max n (Z.min n' 28)). set (s := Z.to_nat (Z.min n' 28 - n)).
    assert (Hs : (s <= length news)%nat). { unfold owned_count, sub_count in Hlen. unfold s. repeat case_match; lia_mod. }
    unfold fill_to. fold s. rewrite fill_spec by (unfold s in *; lia). cbn [mbind outcome_bind].
    assert (Hlt : length (take s news) = s) by (rewrite length_take; lia).
    destruct (direct_phase d di n (take s news) new_size) as [Hf1 Hbl]; [done|lia|rewrite Hlt; unfold s; lia|by apply Forall_take|unfold in_width; lia|].
    fold di0 in Hf1, Hbl. set (di1 := with_direct di0 (splice (direct di) n (take s news))) in *.
    rewrite Hlt in Hbl. replace (n + Z.of_nat s) with m in * by (unfold s, m; lia).
    assert (Hg1 : grown d di0 n d di1 m (take s news)).
    { split; [done|done|done| | | |apply direct_frame].
      - intros k Hk. assert (Hlk : blocks_of d di1 m !! Z.to_nat k = (blocks_of d di n ++ take s news) !! Z.to_nat k) by (by rewrite Hbl).
        unfold blocks_of in Hlk. rewrite lookup_app_l in Hlk by (rewrite length_fmap, length_seqZ; lia).
        rewrite !list_lookup_fmap, !lookup_seqZ_lt in Hlk by lia. cbn in Hlk. injection Hlk as Hlk.
        by replace (0 + Z.of_nat (Z.to_nat k)) with k in Hlk by lia.
      - unfold owned. rewrite Hbl. unfold meta_of. destruct (Z.ltb_spec 28 m); [lia|]. destruct (Z.ltb_spec 156 m); [lia|].
        destruct (Z.ltb_spec 28 n); [lia|]. destruct (Z.ltb_spec 156 n); [lia|]. cbn [app]. by rewrite !app_nil_r.
      - intros id [(? & _)|(? & _)]%elem_meta_of; lia. }
    rewrite <- (take_drop s news) in Hnd, Hall. destruct (grown_pre _ _ _ _ _ _ _ _ h Hg1 Hnd Hall) as [Hnd1 Hall1].
    destruct (decide (n' <= 28)) as [Hle|Hgt].
    + assert (m = n') as Em by lia. rewrite Em in *. unfold grow_indirect1. change INODE_DIRECT_COUNT with 28.
      destruct (Z.ltb_spec 28 n'); [lia|]. exists di1, st, d. split; [done|]. split; [done|].
      rewrite take_ge in Hg1; [done|]. unfold owned_count in Hlen. unfold s. repeat case_match; lia.
    + assert (m = 28) as Em by lia. rewrite Em in *.
      destruct (grow_indirect1_spec st d h di1 28 n' (drop s news)) as (di' & st' & d' & E & Hr' & Hg2);
        [done|lia|done|done| |by apply Forall_drop|done|done|done|].
      { rewrite length_drop. unfold owned_count in *. destruct (Z.ltb_spec 28 n); [lia|]. destruct (Z.ltb_spec 156 n); [lia|].
        destruct (Z.ltb_spec 28 28); [lia|]. destruct (Z.ltb_spec 156 28); [lia|]. unfold s in *. lia. }
      exists di', st', d'. split; [exact E|]. split; [exact Hr'|]. rewrite <- (take_drop s news).
      eapply inode_grown_trans; [|exact Hg1|exact Hg2]. lia.
  - unfold fill_to. replace (Z.to_nat (Z.min n' 28 - n)) with 0%nat by lia. cbn [fill mbind outcome_bind].
    assert (with_direct di0 (direct di) = di0) as -> by done.
    destruct (grow_indirect1_spec st d h di0 n n' news) as (di' & st' & d' & E & Hr' & Hg); try done; [lia|].
    exists di', st', d'. done.
Qed.

End GrowFacts.
