(* ===== verification/EfsFileFacts.v ===== *)
(** * Reading, writing and freeing the blocks of an inode

    The contents of a file are the bytes of its data blocks, in order.
    [read_at] returns a slice of them, [write_at] replaces one, and
    [clear_size] hands back every block the inode owns. *)
From S2P Require Import Prelude EfsCache EfsCacheFacts EfsWords EfsLayout EfsInodeFacts EfsGrow.
Import EfsCache EfsLayout.

Implicit Type d e : gmap Z (list Z).
Implicit Type di : DiskInode.

(** ** Equal-sized pieces of a list *)

Lemma length_concat_blocks (bs : list (list Z)) :
  Forall (fun b => length b = 512%nat) bs -> length (concat bs) = (512 * length bs)%nat.
Proof. induction 1 as [|b bs Hb _ IH]; cbn; [done|]. rewrite length_app. lia. Qed.

Lemma slice_concat (bs : list (list Z)) k b o m :
  Forall (fun b => length b = 512%nat) bs -> bs !! k = Some b -> 0 <= o -> 0 <= m -> o + m <= 512 ->
  slice (concat bs) (512 * Z.of_nat k + o) m = slice b o m.
Proof.
  intros Hbs. revert k. induction Hbs as [|c bs Hc Hbs IH]; intros k Hk Ho Hm Hom; [done|].
  destruct k as [|k]; cbn [concat].
  - injection Hk as ->. rewrite Z.mul_0_r, Z.add_0_l. apply slice_app_l; lia.
  - rewrite slice_app_r by lia. rewrite <- (IH k Hk Ho Hm Hom). f_equal. lia.
Qed.

Lemma splice_app_l l k off new :
  0 <= off -> off + Z.of_nat (length new) <= Z.of_nat (length l) -> splice (l ++ k) off new = splice l off new ++ k.
Proof.
  intros Ho Hl. unfold splice. rewrite take_app_le by lia. rewrite drop_app_le by lia. by rewrite <- !app_assoc.
Qed.

Lemma splice_app_r l k off new :
  Z.of_nat (length l) <= off -> splice (l ++ k) off new = l ++ splice k (off - Z.of_nat (length l)) new.
Proof.
  intros Ho. unfold splice. rewrite take_app_ge by lia. rewrite drop_app_ge by lia. rewrite <- app_assoc. do 4 f_equal; lia.
Qed.

Lemma concat_insert_splice (bs : list (list Z)) k b o src :
  Forall (fun b => length b = 512%nat) bs -> bs !! k = Some b -> 0 <= o -> o + Z.of_nat (length src) <= 512 ->
  concat (<[k := splice b o src]> bs) = splice (concat bs) (512 * Z.of_nat k + o) src.
Proof.
  intros Hbs. revert k. induction Hbs as [|c bs Hc Hbs IH]; intros k Hk Ho Hom; [done|].
  destruct k as [|k]; cbn [insert list_insert concat].
  - injection Hk as ->. rewrite Z.mul_0_r, Z.add_0_l. rewrite splice_app_l by lia. done.
  - rewrite splice_app_r by lia. change (concat (<[k := splice b o src]> bs)) with (concat (<[k := splice b o src]> bs)).
    rewrite (IH k Hk Ho Hom). f_equal. f_equal. lia.
Qed.

(** Two neighbouring stores make one. *)
Lemma splice_splice l off a b :
  0 <= off -> off + Z.of_nat (length a) + Z.of_nat (length b) <= Z.of_nat (length l) ->
  splice (splice l off a) (off + Z.of_nat (length a)) b = splice l off (a ++ b).
Proof.
  intros Ho Hl. apply list_eq. intros i.
  assert (Hla : length (splice l off a) = length l) by (apply length_splice; lia).
  replace i with (Z.to_nat (Z.of_nat i)) by lia.
  rewrite !lookup_splice by (rewrite ?length_app, ?Hla; lia). rewrite length_app.
  destruct (decide (off + Z.of_nat (length a) <= Z.of_nat i < off + Z.of_nat (length a) + Z.of_nat (length b))).
  - rewrite decide_True by lia. rewrite lookup_app_r by lia. f_equal. lia.
  - destruct (decide (off <= Z.of_nat i < off + Z.of_nat (length a))).
    + rewrite decide_True by lia. by rewrite lookup_app_l by lia.
    + by rewrite decide_False by lia.
Qed.

Lemma take_slice (l : list Z) a m :
  0 <= a -> 0 <= m -> take (Z.to_nat a) l ++ slice l a m = take (Z.to_nat (a + m)) l.
Proof.
  intros Ha Hm. unfold slice. rewrite Z2Nat.inj_add by done.
  by rewrite take_take_drop.
Qed.

Lemma slice_slice (l : list Z) a m k :
  0 <= a -> 0 <= m -> 0 <= k -> slice l a m ++ slice l (a + m) k = slice l a (m + k).
Proof.
  intros Ha Hm Hk. unfold slice. rewrite !Z2Nat.inj_add by done. rewrite <- drop_drop. by rewrite take_take_drop.
Qed.

(** ** The bytes of a file *)

Definition blk d (id : Z) : list Z := default [] (d !! id).
Definition file_bytes d di (n : Z) : list Z := concat (blk d <$> blocks_of d di n).

Lemma lookup_blocks_of d di n k : 0 <= k < n -> blocks_of d di n !! Z.to_nat k = Some (block_of d di k).
Proof.
  intros Hk. unfold blocks_of. rewrite list_lookup_fmap, lookup_seqZ_lt by lia. cbn. do 2 f_equal. lia.
Qed.

Lemma length_blocks_of d di n : 0 <= n -> length (blocks_of d di n) = Z.to_nat n.
Proof. intros. unfold blocks_of. by rewrite length_fmap, length_seqZ. Qed.

Lemma blocks_all_512 d (l : list Z) :
  map_Forall (fun _ => block_ok) d -> (forall id, id ∈ l -> is_Some (d !! id)) ->
  Forall (fun b => length b = 512%nat) (blk d <$> l).
Proof.
  intros Hok Hl. apply Forall_fmap, Forall_forall. intros id Hid. cbn. unfold blk.
  destruct (Hl id Hid) as [b Hb]. rewrite Hb. by destruct (Hok _ _ Hb).
Qed.

Lemma inode_data_there d di n id : inode_ok d di n -> id ∈ blocks_of d di n -> is_Some (d !! id).
Proof. intros Hio Hid. apply (io_there _ _ _ Hio). unfold owned. apply elem_of_app. by left. Qed.

Lemma inode_blocks_512 d di n :
  map_Forall (fun _ => block_ok) d -> inode_ok d di n ->
  Forall (fun b => length b = 512%nat) (blk d <$> blocks_of d di n).
Proof. intros Hok Hio. apply blocks_all_512; [done|]. intros. by eapply inode_data_there. Qed.

Lemma length_file_bytes d di n :
  map_Forall (fun _ => block_ok) d -> inode_ok d di n -> Z.of_nat (length (file_bytes d di n)) = 512 * n.
Proof.
  intros Hok Hio. pose proof (io_count _ _ _ Hio). unfold file_bytes.
  rewrite length_concat_blocks by (by apply inode_blocks_512). rewrite length_fmap, length_blocks_of by lia. lia.
Qed.

Lemma slice_file_bytes d di n k o m :
  map_Forall (fun _ => block_ok) d -> inode_ok d di n -> 0 <= k < n -> 0 <= o -> 0 <= m -> o + m <= 512 ->
  slice (blk d (block_of d di k)) o m = slice (file_bytes d di n) (512 * k + o) m.
Proof.
  intros Hok Hio Hk Ho Hm Hom. unfold file_bytes. symmetry.
  replace (512 * k) with (512 * Z.of_nat (Z.to_nat k)) by lia. apply slice_concat; try done.
  - by apply inode_blocks_512.
  - by rewrite list_lookup_fmap, lookup_blocks_of.
Qed.

(** Storing into one data block. *)
Lemma file_bytes_store d di n k o src :
  map_Forall (fun _ => block_ok) d -> inode_ok d di n -> 0 <= k < n -> 0 <= o -> o + Z.of_nat (length src) <= 512 ->
  let id := block_of d di k in let d' := <[id := splice (blk d id) o src]> d in
  inode_ok d' di n /\ (forall j, 0 <= j < n -> block_of d' di j = block_of d di j) /\
  file_bytes d' di n = splice (file_bytes d di n) (512 * k + o) src.
Proof.
  intros Hok Hio Hk Ho Hom id d'. pose proof (io_nodup _ _ _ Hio) as Hnd. unfold owned in Hnd.
  apply NoDup_app in Hnd as (Hnd & Hdis & _).
  assert (Hid : id ∈ blocks_of d di n) by (apply elem_blocks_of; by exists k).
  destruct (inode_data_there d di n id Hio Hid) as [b Hb].
  assert (Hmeta : forall j, j ∈ meta_of d di n -> d' !! j = d !! j).
  { intros j Hj. unfold d'. apply lookup_insert_ne. intros <-. by apply (Hdis id). }
  assert (Hdom : forall j, is_Some (d !! j) -> is_Some (d' !! j)).
  { intros j Hj. unfold d'. destruct (decide (id = j)) as [->|]; [rewrite lookup_insert_eq; by eexists|by rewrite lookup_insert_ne]. }
  split_and!; [by eapply inode_ok_ext|intros j Hj; by apply (block_of_ext d d' di n)|].
  unfold file_bytes. assert (blocks_of d' di n = blocks_of d di n) as ->.
  { unfold blocks_of. apply list_fmap_ext. intros i j Hj. apply list_elem_of_lookup_2, elem_of_seqZ in Hj.
    apply (block_of_ext d d' di n); [done|lia]. }
  replace (512 * k) with (512 * Z.of_nat (Z.to_nat k)) by lia.
  rewrite <- (concat_insert_splice _ _ (blk d id));
    [|by apply inode_blocks_512|by rewrite list_lookup_fmap, lookup_blocks_of|done|done].
  f_equal. apply list_eq. intros i. rewrite list_lookup_fmap.
  destruct (decide (i = Z.to_nat k)) as [->|Hne].
  - rewrite lookup_blocks_of by done. rewrite list_lookup_insert_eq by (rewrite length_fmap, length_blocks_of; lia).
    cbn. unfold blk, d'. fold id. by rewrite lookup_insert_eq.
  - rewrite list_lookup_insert_ne by done. rewrite list_lookup_fmap.
    destruct (blocks_of d di n !! i) as [j|] eqn:Ej; [|done]. cbn. unfold blk, d'. rewrite lookup_insert_ne; [done|].
    intros E. apply Hne. eapply NoDup_lookup; [exact Hnd|exact Ej|]. rewrite <- E. by apply lookup_blocks_of.
Qed.

Section FileFacts.
Context {D : Type} {BD : BlockDevice D} {BL : BlockDeviceLaws D}.
Implicit Type st : CacheManager D.

(** Nothing the inode owns is locked. *)
Definition unlocked d di n (h : list Z) : Prop := forall id, id ∈ owned d di n -> id ∉ h.

Lemma unlocked_meta d di n h id : unlocked d di n h -> id ∈ meta_of d di n -> id ∉ h.
Proof. intros Hu Hid. apply Hu. unfold owned. apply elem_of_app. by right. Qed.

Lemma unlocked_block d di n h k : unlocked d di n h -> 0 <= k < n -> block_of d di k ∉ h.
Proof. intros Hu Hk. apply Hu. unfold owned. apply elem_of_app. left. apply elem_blocks_of. by exists k. Qed.

Lemma read_copy_out st d h id b o m :
  repr st d h -> d !! id = Some b -> id ∉ h -> (length h < BLOCK_CACHE_SIZE)%nat ->
  exists st', read (T := DataBlock) st id 0 (copy_out o m) = Ret (slice b o m, st') /\ repr st' d h.
Proof.
  intros Hr Hb Hn Hh. destruct (read_block_pure st d h id b (fun b => slice b o m)) as (st' & E & Hr'); try done.
  exists st'. split; [exact E|exact Hr'].
Qed.

Lemma modify_copy_in st d h id b o src :
  repr st d h -> d !! id = Some b -> id ∉ h -> (length h < BLOCK_CACHE_SIZE)%nat -> block_ok (splice b o src) ->
  exists st', modify (T := DataBlock) st id 0 (copy_in o src) = Ret (tt, st') /\ repr st' (<[id := splice b o src]> d) h.
Proof.
  intros Hr Hb Hn Hh Hok.
  destruct (modify_block_pure st d h id b (fun _ => tt) (fun b => splice b o src)) as (st' & E & Hr'); try done.
  exists st'. split; [exact E|exact Hr'].
Qed.

(** The end of the round that starts at [start]. *)
Lemma round_end start end_ :
  0 <= start -> start < end_ -> end_ <= 2 ^ 32 ->
  Z.min (wrap 64 ((start / BLOCK_SZ + 1) * BLOCK_SZ)) end_ = Z.min ((start / 512 + 1) * 512) end_.
Proof.
  intros H1 H2 H3. unfold BLOCK_SZ. rewrite wrap_small; [done|]. unfold in_width. lia_mod.
Qed.

Lemma read_round st d h di n start end_ out :
  repr st d h -> inode_ok d di n -> unlocked d di n h -> (length h < BLOCK_CACHE_SIZE)%nat ->
  0 <= start < end_ -> end_ <= 512 * n ->
  let ec := Z.min ((start / 512 + 1) * 512) end_ in
  exists st', read_at_body di end_ (start, start / 512, out, st)
    = Ret (if ec =? end_ then inr (out ++ slice (file_bytes d di n) start (ec - start), st')
           else inl (ec, start / 512 + 1, out ++ slice (file_bytes d di n) start (ec - start), st')) /\
    repr st' d h.
Proof.
  intros Hr Hio Hu Hh Hs He ec. pose proof (io_count _ _ _ Hio) as Hn. unfold MAX_BLOCKS in Hn.
  unfold read_at_body. rewrite round_end by lia. fold ec. rewrite wrap32_small by lia_mod.
  destruct (get_block_id_spec st d h di n (start / 512)) as (st1 & -> & Hr1);
    [done|done|intros; by eapply unlocked_meta|done|lia_mod|].
  cbn [mbind outcome_bind]. set (id := block_of d di (start / 512)).
  destruct (io_there _ _ _ Hio id) as [b Hb].
  { unfold owned. apply elem_of_app. left. apply elem_blocks_of. exists (start / 512). split; [lia_mod|done]. }
  unfold BLOCK_SZ. destruct (read_copy_out st1 d h id b (start mod 512) (ec - start)) as (st2 & -> & Hr2);
    [done|done|apply (unlocked_block d di n); [done|lia_mod]|done|].
  cbn [mbind outcome_bind].
  pose proof (slice_file_bytes d di n (start / 512) (start mod 512) (ec - start) (rp_ok _ _ _ Hr) Hio) as Hsl.
  unfold blk in Hsl. fold id in Hsl. rewrite Hb in Hsl. cbn [default from_option Datatypes.id] in Hsl.
  rewrite Hsl by (unfold ec; lia_mod). replace (512 * (start / 512) + start mod 512) with start by lia_mod.
  exists st2. split; [|done]. by destruct (ec =? end_).
Qed.

(** [read_at] returns the bytes of the file from [off] on, up to [len] of them. *)
Lemma read_at_spec st d h di off len :
  let n := data_blocks di in
  repr st d h -> inode_ok d di n -> unlocked d di n h -> (length h < BLOCK_CACHE_SIZE)%nat ->
  0 <= size di <= MAX_BLOCKS * 512 -> 0 <= off -> 0 <= len -> off + len < 2 ^ 64 ->
  exists st', read_at di off len st = Ret (slice (take (Z.to_nat (size di)) (file_bytes d di n)) off len, st') /\ repr st' d h.
Proof.
  intros n Hr Hio Hu Hh Hsz Ho Hl Hw. unfold MAX_BLOCKS in Hsz.
  assert (En : n = (size di + 511) / 512) by (unfold n, data_blocks; apply data_blocks_small; lia).
  pose proof (length_file_bytes d di n (rp_ok _ _ _ Hr) Hio) as Hfl. set (F := file_bytes d di n) in *.
  unfold read_at. rewrite wrap_small by (unfold in_width; lia). set (end_ := Z.min (off + len) (size di)).
  assert (Eslice : slice (take (Z.to_nat (size di)) F) off len = slice F off (Z.max 0 (end_ - off))).
  { unfold slice. rewrite <- (take_drop (Z.to_nat (size di)) F) at 2. rewrite skipn_firstn_comm, take_take.
    rewrite take_drop. f_equal. unfold end_. lia. }
  rewrite Eslice. destruct (Z.leb_spec end_ off).
  { exists st. split; [|done]. replace (Z.max 0 (end_ - off)) with 0 by lia. done. }
  unfold BLOCK_SZ.
  destruct (while_loop_spec (read_at_body di end_)
     (fun s => let '(start, sb, out, st) := s in off <= start < end_ /\ sb = start / 512 /\
        out = slice F off (start - off) /\ repr st d h)
     (fun s => let '(start, _, _, _) := s in Z.to_nat ((end_ - 1) / 512 - start / 512))
     (fun r => r.1 = slice F off (end_ - off) /\ repr r.2 d h)) with
     (fuel := S (Z.to_nat ((end_ - off) / 512 + 1))) (s := (off, off / 512, @nil Z, st)) as ([out st'] & -> & Hout & Hr').
  - intros [[[start sb] out] st1] (Hst & -> & -> & Hr1).
    destruct (read_round st1 d h di n start end_ (slice F off (start - off))) as (st2 & -> & Hr2); try done; [lia|unfold end_; lia_mod|].
    fold F. set (ec := Z.min ((start / 512 + 1) * 512) end_). eexists. split; [done|].
    assert (Es : slice F off (start - off) ++ slice F start (ec - start) = slice F off (ec - off)).
    { pose proof (slice_slice F off (start - off) (ec - start)) as Es. replace (off + (start - off)) with start in Es by lia.
      rewrite Es by (unfold ec; lia_mod). f_equal. lia. }
    rewrite Es. destruct (Z.eqb_spec ec end_) as [->|]; [done|].
    split_and!; try done; unfold ec in *; lia_mod.
  - split_and!; try done; try lia. unfold slice. by replace (Z.to_nat (off - off)) with 0%nat by lia.
  - lia_mod.
  - cbn in *. subst out. exists st'. split; [|done]. by replace (Z.max 0 (end_ - off)) with (end_ - off) by lia.
Qed.

(** What [write_at] leaves: only data blocks of the inode changed. *)
Record written d di n d' (F : list Z) : Prop := {
  wr_ok : inode_ok d' di n;
  wr_blocks : forall k, 0 <= k < n -> block_of d' di k = block_of d di k;
  wr_frame : grow_frame d d' (blocks_of d di n);
  wr_bytes : file_bytes d' di n = F;
}.

Lemma block_ok_splice b o src :
  block_ok b -> 0 <= o -> o + Z.of_nat (length src) <= 512 -> Forall (in_width 8) src -> block_ok (splice b o src).
Proof. intros [Hl Hb] Ho Hs Hsrc. split; [rewrite length_splice; lia|by apply splice_range]. Qed.

Lemma write_round st d h di n start end_ off buf :
  repr st d h -> inode_ok d di n -> unlocked d di n h -> (length h < BLOCK_CACHE_SIZE)%nat ->
  0 <= off <= start -> start < end_ -> end_ <= 512 * n -> end_ - off <= Z.of_nat (length buf) -> Forall (in_width 8) buf ->
  let ec := Z.min ((start / 512 + 1) * 512) end_ in
  exists st' d', write_at_body di buf end_ (start, start / 512, start - off, st)
    = Ret (if ec =? end_ then inr (ec - off, st') else inl (ec, start / 512 + 1, ec - off, st')) /\
    repr st' d' h /\
    written d di n d' (splice (file_bytes d di n) start (slice buf (start - off) (ec - start))).
Proof.
  intros Hr Hio Hu Hh Hs Hlt He Hbuf Hby ec. pose proof (io_count _ _ _ Hio) as Hn. unfold MAX_BLOCKS in Hn.
  unfold write_at_body. rewrite round_end by lia. fold ec. rewrite wrap32_small by lia_mod.
  destruct (get_block_id_spec st d h di n (start / 512)) as (st1 & -> & Hr1);
    [done|done|intros; by eapply unlocked_meta|done|lia_mod|].
  cbn [mbind outcome_bind]. set (id := block_of d di (start / 512)). set (src := slice buf (start - off) (ec - start)).
  assert (Hid : id ∈ blocks_of d di n) by (apply elem_blocks_of; exists (start / 512); split; [lia_mod|done]).
  destruct (inode_data_there d di n id Hio Hid) as [b Hb].
  assert (Hls : length src = Z.to_nat (ec - start)) by (apply length_slice; unfold ec; lia_mod).
  assert (Hbs : blk d id = b) by (unfold blk; by rewrite Hb).
  unfold BLOCK_SZ. destruct (modify_copy_in st1 d h id b (start mod 512) src) as (st2 & -> & Hr2);
    [done|done|apply (unlocked_block d di n); [done|lia_mod]|done| |].
  { apply block_ok_splice; [by apply (rp_ok _ _ _ Hr _ _ Hb)|lia_mod|unfold ec in *; lia_mod|by apply slice_range]. }
  cbn [mbind outcome_bind].
  destruct (file_bytes_store d di n (start / 512) (start mod 512) src) as (Hio' & Hbl & Hfb);
    [apply Hr|done|lia_mod|lia_mod|unfold ec in *; lia_mod|].
  fold id in Hio', Hbl, Hfb. rewrite Hbs in Hio', Hbl, Hfb.
  exists st2, (<[id := splice b (start mod 512) src]> d). split; [|split; [exact Hr2|split; [exact Hio'|exact Hbl| |]]].
  - replace (start - off + (ec - start)) with (ec - off) by lia. by destruct (ec =? end_).
  - split; intros j.
    + intros Hj. apply lookup_insert_ne. by intros <-.
    + destruct (decide (id = j)) as [<-|]; [|by rewrite lookup_insert_ne]. rewrite lookup_insert_eq, Hb. split; by eexists.
  - rewrite Hfb. f_equal. lia_mod.
Qed.

Lemma owned_written d di n d' F : inode_ok d di n -> written d di n d' F -> owned d' di n = owned d di n.
Proof.
  intros Hio [_ _ [Hfr _] _]. apply owned_ext. intros id Hid. apply Hfr. intros Hb.
  pose proof (io_nodup _ _ _ Hio) as Hnd. unfold owned in Hnd. apply NoDup_app in Hnd as (_ & Hd & _). by apply (Hd id).
Qed.

Lemma written_trans d1 d2 d3 di n F1 F2 :
  inode_ok d1 di n -> written d1 di n d2 F1 -> written d2 di n d3 F2 -> written d1 di n d3 F2.
Proof.
  intros Hio H1 H2. pose proof (owned_written _ _ _ _ _ Hio H1) as Ho. destruct H1 as [O1 B1 [F1a F1b] _], H2 as [O2 B2 [F2a F2b] E2].
  assert (Hb : blocks_of d2 di n = blocks_of d1 di n).
  { unfold blocks_of. apply list_fmap_ext. intros i k Hk. apply list_elem_of_lookup_2, elem_of_seqZ in Hk. apply B1. lia. }
  split; try done.
  - intros k Hk. rewrite B2, B1 by done. done.
  - rewrite Hb in F2a. split; intros id; [intros Hid; rewrite F2a, F1a by done; done|by rewrite F2b].
Qed.

(** [write_at] inside the file replaces the bytes at [off]. *)
Lemma write_at_spec st d h di off buf :
  let n := data_blocks di in
  repr st d h -> inode_ok d di n -> unlocked d di n h -> (length h < BLOCK_CACHE_SIZE)%nat ->
  0 <= size di <= MAX_BLOCKS * 512 -> 0 <= off -> buf <> [] -> off + Z.of_nat (length buf) <= size di ->
  Forall (in_width 8) buf ->
  exists st' d', write_at di off buf st = Ret (Z.of_nat (length buf), st') /\ repr st' d' h /\
    written d di n d' (splice (file_bytes d di n) off buf).
Proof.
  intros n Hr Hio Hu Hh Hsz Ho Hne Hend Hby. unfold MAX_BLOCKS in Hsz.
  assert (En : n = (size di + 511) / 512) by (unfold n, data_blocks; apply data_blocks_small; lia).
  assert (Hlen : (0 < length buf)%nat) by (destruct buf; [done|cbn; lia]).
  pose proof (length_file_bytes d di n (rp_ok _ _ _ Hr) Hio) as Hfl. set (F := file_bytes d di n) in *.
  unfold write_at. rewrite wrap_small by (unfold in_width; lia). set (end_ := off + Z.of_nat (length buf)).
  replace (Z.min end_ (size di)) with end_ by lia. destruct (Z.leb_spec off end_); [|lia].
  cbn [assert_ mbind outcome_bind]. unfold BLOCK_SZ.
  assert (Hw0 : written d di n d (splice F off (take 0 buf))).
  { split; try done. cbn [take]. by rewrite splice_nil. }
  destruct (while_loop_spec (write_at_body di buf end_)
     (fun s => let '(start, sb, w, st) := s in off <= start < end_ /\ sb = start / 512 /\ w = start - off /\
        exists d1, repr st d1 h /\ written d di n d1 (splice F off (take (Z.to_nat (start - off)) buf)))
     (fun s => let '(start, _, _, _) := s in Z.to_nat ((end_ - 1) / 512 - start / 512))
     (fun r => r.1 = end_ - off /\ exists d1, repr r.2 d1 h /\ written d di n d1 (splice F off (take (Z.to_nat (end_ - off)) buf)))) with
     (fuel := S (Z.to_nat ((end_ - off) / 512 + 1))) (s := (off, off / 512, 0, st)) as ([w st'] & -> & Hout & d' & Hr' & Hw').
  - intros [[[start sb] w] st1] (Hst & -> & -> & d1 & Hr1 & Hw1).
    assert (Hu1 : unlocked d1 di n h) by (unfold unlocked; rewrite (owned_written d di n d1 _ Hio Hw1); done).
    destruct (write_round st1 d1 h di n start end_ off buf) as (st2 & d2 & -> & Hr2 & Hw2);
      [done|apply Hw1|done|done|lia|lia|unfold end_; lia_mod|lia|done|].
    set (ec := Z.min ((start / 512 + 1) * 512) end_) in *. eexists. split; [done|].
    assert (Hw12 : written d di n d2 (splice F off (take (Z.to_nat (ec - off)) buf))).
    { pose proof (written_trans _ _ _ _ _ _ _ Hio Hw1 Hw2) as Hw12. rewrite (wr_bytes _ _ _ _ _ Hw1) in Hw12.
      set (a := take (Z.to_nat (start - off)) buf) in *.
      assert (Hla : Z.of_nat (length a) = start - off) by (unfold a; rewrite length_take; lia).
      replace start with (off + Z.of_nat (length a)) in Hw12 at 1 by lia. rewrite splice_splice in Hw12.
      - unfold a in Hw12. rewrite take_slice in Hw12 by (unfold ec; lia_mod).
        by replace (start - off + (ec - start)) with (ec - off) in Hw12 by lia.
      - lia.
      - rewrite length_slice by (unfold ec; lia_mod). unfold ec; lia_mod. }
    destruct (Z.eqb_spec ec end_) as [Eec|].
    + split; [by rewrite Eec|]. exists d2. split; [done|]. by rewrite Eec in Hw12.
    + split_and!; try (unfold ec in *; lia_mod). exists d2. done.
  - split_and!; try done; try lia. exists d. split; [done|]. by replace (Z.to_nat (off - off)) with 0%nat by lia.
  - lia_mod.
  - cbn in *. subst w. exists st', d'. split; [do 2 f_equal; lia|]. split; [done|].
    rewrite take_ge in Hw' by lia. done.
Qed.

(** ** [clear_size] *)

Lemma collect_spec steps : forall a cur v,
  0 <= cur -> cur + Z.of_nat steps <= Z.of_nat (length a) ->
  collect steps a cur v = Ret (v ++ slice a cur (Z.of_nat steps)).
Proof.
  induction steps as [|steps IH]; intros a cur v Hc Hl; cbn [collect].
  { change (slice a cur (Z.of_nat 0)) with (take 0 (drop (Z.to_nat cur) a)). by rewrite take_0, app_nil_r. }
  destruct (lookup_lt_is_Some_2 a (Z.to_nat cur)) as [x Hx]; [lia|]. rewrite (index_Ret _ _ _ Hx). cbn [mbind outcome_bind].
  rewrite IH by lia. rewrite <- app_assoc. do 2 f_equal.
  pose proof (slice_slice a cur 1 (Z.of_nat steps)) as E. replace (1 + Z.of_nat steps) with (Z.of_nat (S steps)) in E by lia.
  rewrite <- E by lia. f_equal. unfold slice. change (Z.to_nat 1) with 1%nat. by rewrite (drop_S _ _ _ Hx).
Qed.

Lemma take_direct_spec steps : forall a cur v,
  0 <= cur -> cur + Z.of_nat steps <= Z.of_nat (length a) ->
  exists a', take_direct steps a cur v = Ret (a', v ++ slice a cur (Z.of_nat steps)) /\ length a' = length a /\
    (Forall (in_width 32) a -> Forall (in_width 32) a').
Proof.
  induction steps as [|steps IH]; intros a cur v Hc Hl; cbn [take_direct].
  { exists a. change (slice a cur (Z.of_nat 0)) with (take 0 (drop (Z.to_nat cur) a)). by rewrite take_0, app_nil_r. }
  destruct (lookup_lt_is_Some_2 a (Z.to_nat cur)) as [x Hx]; [lia|]. rewrite (index_Ret _ _ _ Hx). cbn [mbind outcome_bind].
  rewrite update_Ret by lia. cbn [mbind outcome_bind].
  destruct (IH (<[Z.to_nat cur := 0]> a) (cur + 1) (v ++ [x])) as (a' & -> & Hl' & Hf'); [lia|rewrite length_insert; lia|].
  exists a'. rewrite length_insert in Hl'. split_and!; [|done|].
  - rewrite <- app_assoc. do 3 f_equal.
    pose proof (slice_slice a cur 1 (Z.of_nat steps)) as E. replace (1 + Z.of_nat steps) with (Z.of_nat (S steps)) in E by lia.
    rewrite <- E by lia. assert (slice a cur 1 = [x]) as ->.
    { unfold slice. change (Z.to_nat 1) with 1%nat. by rewrite (drop_S _ _ _ Hx). }
    cbn [app]. f_equal. unfold slice. rewrite drop_insert_lt by lia. done.
  - intros Hf. apply Hf'. by apply Forall_insert.
Qed.

(** The entries of an index block as data blocks. *)
Definition entries d (s n : Z) : list Z := entry_at d s <$> seqZ 0 n.

Lemma entries_slice d s b n : d !! s = Some b -> 0 <= n <= 128 -> slice (words 4 128 b) 0 n = entries d s n.
Proof.
  intros Hb Hn. unfold slice, entries. rewrite drop_0. apply list_eq_same_length with (Z.to_nat n).
  - by rewrite length_fmap, length_seqZ.
  - rewrite length_take, length_words. lia.
  - intros i x y Hi Hx Hy. rewrite lookup_take_lt in Hx by lia. rewrite list_lookup_fmap, lookup_seqZ_lt in Hy by lia.
    injection Hy as <-. pose proof (entry_lookup d s b (Z.of_nat i) Hb) as E. rewrite Nat2Z.id, Hx in E.
    specialize (E ltac:(lia)). injection E as ->. f_equal.
Qed.

Lemma blocks_of_split d di n m : 0 <= n -> 0 <= m -> blocks_of d di (n + m) = blocks_of d di n ++ (block_of d di <$> seqZ n m).
Proof. intros. unfold blocks_of. rewrite seqZ_app by lia. by rewrite fmap_app. Qed.

Lemma blocks_first d di m : 0 <= m <= 128 -> (block_of d di <$> seqZ 28 m) = entries d (indirect1 di) m.
Proof.
  intros Hm. unfold entries. apply list_eq_same_length with (Z.to_nat m).
  - by rewrite length_fmap, length_seqZ.
  - by rewrite length_fmap, length_seqZ.
  - intros i x y Hi Hx Hy. rewrite list_lookup_fmap, lookup_seqZ_lt in Hx, Hy by lia. injection Hx as <-. injection Hy as <-.
    unfold block_of. destruct (Z.ltb_spec (28 + Z.of_nat i) 28); [lia|]. destruct (Z.ltb_spec (28 + Z.of_nat i) 156); [|lia].
    f_equal. lia.
Qed.

Lemma blocks_second d di a m :
  0 <= a -> 0 <= m <= 128 ->
  (block_of d di <$> seqZ (156 + 128 * a) m) = entries d (entry_at d (indirect2 di) a) m.
Proof.
  intros Ha Hm. unfold entries. apply list_eq_same_length with (Z.to_nat m).
  - by rewrite length_fmap, length_seqZ.
  - by rewrite length_fmap, length_seqZ.
  - intros i x y Hi Hx Hy. rewrite list_lookup_fmap, lookup_seqZ_lt in Hx, Hy by lia. injection Hx as <-. injection Hy as <-.
    unfold block_of. destruct (Z.ltb_spec (156 + 128 * a + Z.of_nat i) 28); [lia|].
    destruct (Z.ltb_spec (156 + 128 * a + Z.of_nat i) 156); [lia|].
    replace ((156 + 128 * a + Z.of_nat i - 156) / 128) with a by lia_mod. f_equal. lia_mod.
Qed.

Lemma blocks_full d di (a : nat) :
  (block_of d di <$> seqZ 156 (128 * Z.of_nat a))
  = concat ((fun s => entries d s 128) <$> subs_of d di (Z.of_nat a)).
Proof.
  induction a as [|a IH]; [done|].
  replace (128 * Z.of_nat (S a)) with (128 * Z.of_nat a + 128) by lia. rewrite seqZ_app, fmap_app, IH by lia.
  rewrite blocks_second by lia. replace (Z.of_nat (S a)) with (Z.of_nat a + 1) by lia.
  rewrite (subs_of_snoc d d di (Z.of_nat a) _) by (done || lia). rewrite fmap_app, concat_app. cbn. by rewrite app_nil_r.
Qed.

Lemma collect_full_spec (es : list Z) : forall st d h v,
  repr st d h -> (forall s, s ∈ es -> is_Some (d !! s) /\ s ∉ h) -> (length h < BLOCK_CACHE_SIZE)%nat ->
  exists st', collect_full es v st = Ret (v ++ concat ((fun s => s :: entries d s 128) <$> es), st') /\ repr st' d h.
Proof.
  induction es as [|s es IH]; intros st d h v Hr Hall Hh; cbn [collect_full].
  { exists st. by rewrite app_nil_r. }
  destruct (Hall s) as [[b Hb] Hnh]; [by left|]. pose proof (rp_ok _ _ _ Hr _ _ Hb) as Hok.
  destruct (modify_index st d h s b (push_entries INODE_INDIRECT1_COUNT (v ++ [s])) ((v ++ [s]) ++ entries d s 128)
              (words 4 128 b)) as (st1 & -> & Hr1); [done|done|done|done| |by apply words_index_ok|].
  { intros st1. unfold push_entries. rewrite <- (entries_slice d s b 128 Hb) by lia. done. }
  rewrite word_bytes_words, insert_id in Hr1 by (done || apply Hok). cbn [mbind outcome_bind].
  destruct (IH st1 d h ((v ++ [s]) ++ entries d s 128) Hr1) as (st2 & -> & Hr2); [|done|].
  { intros s' Hs'. apply Hall. by right. }
  exists st2. split; [|done]. cbn [fmap list_fmap concat]. rewrite <- !app_assoc. done.
Qed.

Lemma concat_cons_perm (f : Z -> list Z) (l : list Z) :
  concat ((fun s => s :: f s) <$> l) ≡ₚ l ++ concat (f <$> l).
Proof.
  induction l as [|s l IH]; [done|]. cbn [fmap list_fmap concat app]. apply Permutation_cons; [done|].
  rewrite IH, !app_assoc. apply Permutation_app_tail, Permutation_app_comm.
Qed.

Lemma modify_push st d h s b m v :
  repr st d h -> d !! s = Some b -> s ∉ h -> (length h < BLOCK_CACHE_SIZE)%nat -> 0 <= m <= 128 ->
  exists st', modify (T := IndirectBlock) st s 0 (push_entries m v) = Ret (v ++ entries d s m, st') /\ repr st' d h.
Proof.
  intros Hr Hb Hnh Hh Hm. pose proof (rp_ok _ _ _ Hr _ _ Hb) as Hok.
  destruct (modify_index st d h s b (push_entries m v) (v ++ entries d s m) (words 4 128 b)) as (st1 & E & Hr1);
    [done|done|done|done| |by apply words_index_ok|].
  - intros st1. unfold push_entries. by rewrite <- (entries_slice d s b m Hb) by lia.
  - rewrite word_bytes_words, insert_id in Hr1 by (done || apply Hok). by exists st1.
Qed.

(** The second level: [c] data blocks below [indirect2]. *)
Lemma collect2_spec st d h di c v :
  repr st d h -> 0 < c <= 16384 -> (S (length h) < BLOCK_CACHE_SIZE)%nat -> is_Some (d !! indirect2 di) -> indirect2 di ∉ h ->
  (forall s, s ∈ subs_of d di ((c + 127) / 128) -> is_Some (d !! s) /\ s ∉ indirect2 di :: h) ->
  exists w st', modify (T := IndirectBlock) st (indirect2 di) 0 (collect_indirect2 (c / 128) (c mod 128) v) = Ret (v ++ w, st') /\
    repr st' d h /\ w ≡ₚ subs_of d di ((c + 127) / 128) ++ (block_of d di <$> seqZ 156 c).
Proof.
  intros Hr Hc Hh [b2 Hb2] Hnh Hall. pose proof (rp_ok _ _ _ Hr _ _ Hb2) as Hok2. set (i2 := indirect2 di) in *.
  set (a1 := c / 128). set (b1 := c mod 128). set (full := subs_of d di a1).
  set (w1 := concat ((fun s => s :: entries d s 128) <$> full)).
  set (last := entry_at d i2 a1). set (w := w1 ++ (if 0 <? b1 then last :: entries d last b1 else [])).
  assert (Hfull : forall s, s ∈ full -> is_Some (d !! s) /\ s ∉ i2 :: h).
  { intros s (a & Ha & ->)%elem_subs_of. apply Hall, elem_subs_of. exists a. split; [unfold a1 in Ha; lia_mod|done]. }
  destruct (modify_words_spec 4 128 eq_refl eq_refl indirect_pod_ok st d h i2 b2 (collect_indirect2 a1 b1 v)
     (fun r ws d' => r = v ++ w /\ ws = words 4 128 b2 /\ d' = d)) as (r & ws & st' & d' & E & _ & (-> & -> & ->) & Hr');
    [done|done|done|lia| |].
  - intros st1 Hr1. unfold collect_indirect2.
    assert (Htk : take (Z.to_nat a1) (words 4 128 b2) = full).
    { rewrite <- (drop_0 (words 4 128 b2)). apply (entries_slice d i2 b2 a1 Hb2). unfold a1. lia_mod. }
    rewrite Htk. destruct (collect_full_spec full st1 d (i2 :: h) v Hr1 Hfull) as (st2 & -> & Hr2); [cbn; lia|].
    cbn [mbind outcome_bind]. fold w1. unfold w. destruct (Z.ltb_spec 0 b1) as [Hb1|Hb1].
    + assert (Hl : words 4 128 b2 !! Z.to_nat a1 = Some last) by (apply entry_lookup; [done|unfold a1, b1 in *; lia_mod]).
      rewrite (index_Ret _ _ _ Hl). cbn [mbind outcome_bind].
      destruct (Hall last) as [[bl Hbl] Hnl]; [apply elem_subs_of; exists a1; split; [unfold a1, b1 in *; lia_mod|done]|].
      destruct (modify_push st2 d (i2 :: h) last bl b1 ((v ++ w1) ++ [last])) as (st3 & -> & Hr3); try done.
      { unfold b1. lia_mod. }
      cbn [mbind outcome_bind]. eexists _, _, st3, d. split; [done|]. split; [done|].
      split; [by apply words_index_ok|]. split_and!; [|done|done]. rewrite <- !app_assoc. done.
    + eexists _, _, st2, d. split; [done|]. split; [done|]. split; [by apply words_index_ok|].
      split_and!; [|done|done]. by rewrite app_nil_r.
  - rewrite word_bytes_words, insert_id in Hr' by (done || apply Hok2). exists w, st'. split; [exact E|]. split; [done|].
    unfold w, w1. rewrite concat_cons_perm. fold full.
    replace c with (128 * Z.of_nat (Z.to_nat a1) + b1) at 2 by (unfold a1, b1; lia_mod).
    rewrite seqZ_app, fmap_app, blocks_full by (unfold a1, b1; lia_mod).
    replace (156 + 128 * Z.of_nat (Z.to_nat a1)) with (156 + 128 * a1) by (unfold a1; lia_mod).
    rewrite blocks_second by (unfold a1, b1; lia_mod). rewrite Z2Nat.id by (unfold a1; lia_mod). fold full i2 last.
    destruct (Z.ltb_spec 0 b1) as [Hb1|Hb1].
    + replace ((c + 127) / 128) with (a1 + 1) by (unfold a1, b1 in *; lia_mod).
      rewrite (subs_of_snoc d d di a1 last) by (done || unfold a1; lia_mod). fold full. rewrite <- !app_assoc.
      apply Permutation_app_head. cbn [app]. rewrite Permutation_middle. done.
    + replace ((c + 127) / 128) with a1 by (unfold a1, b1 in *; lia_mod). fold full.
      replace b1 with 0 by (unfold b1 in *; lia_mod). unfold entries at 3. cbn [seqZ fmap list_fmap]. by rewrite !app_nil_r.
Qed.

Lemma inode_clear_fields di a i1 i2 :
  length a = 28%nat -> Forall (in_width 32) a -> in_width 32 i1 -> in_width 32 i2 ->
  inode_fields_ok (mkInode 0 a i1 i2 (type_ di)).
Proof.
  intros Hl Ha H1 H2. split; [done|]. unfold inode_words. cbn. apply Forall_cons. split; [unfold in_width; lia|].
  apply Forall_app. split; [done|]. repeat apply Forall_cons_2; [done|done|apply Forall_nil_2].
Qed.

Lemma clear_size_spec st d h di :
  let n := data_blocks di in
  repr st d h -> inode_ok d di n -> unlocked d di n h -> (S (length h) < BLOCK_CACHE_SIZE)%nat ->
  exists v di' st', clear_size di st = Ret (v, di', st') /\ repr st' d h /\ v ≡ₚ owned d di n /\
    size di' = 0 /\ type_ di' = type_ di /\ inode_fields_ok di'.
Proof.
  intros n Hr Hio Hu Hh. pose proof (io_count _ _ _ Hio) as Hn. unfold MAX_BLOCKS in Hn.
  pose proof (io_fields _ _ _ Hio) as Hf. destruct Hf as [Hl Hw]. unfold inode_words in Hw.
  apply Forall_cons in Hw as [_ Hw]. apply Forall_app in Hw as [Hdw Hiw]. rewrite !Forall_cons in Hiw. destruct Hiw as (Hi1 & Hi2 & _).
  unfold clear_size. fold n. change INODE_DIRECT_COUNT with 28. change INODE_INDIRECT1_COUNT with 128.
  cbn [direct with_size].
  destruct (take_direct_spec (Z.to_nat (Z.min n 28)) (direct di) 0 []) as (a & -> & Hla & Haw); [lia|lia|].
  specialize (Haw Hdw). rewrite Hl in Hla. cbn [mbind outcome_bind]. rewrite app_nil_l, Z2Nat.id by lia.
  assert (Hdir : slice (direct di) 0 (Z.min n 28) = blocks_of d di (Z.min n 28)).
  { unfold slice. rewrite drop_0. apply list_eq_same_length with (Z.to_nat (Z.min n 28)).
    - rewrite length_blocks_of; lia.
    - rewrite length_take; lia.
    - intros i x y Hi Hx Hy. rewrite lookup_take_lt in Hx by lia. replace i with (Z.to_nat (Z.of_nat i)) in Hy by lia.
      rewrite lookup_blocks_of in Hy by lia. injection Hy as <-. unfold block_of.
      destruct (Z.ltb_spec (Z.of_nat i) 28); [|lia]. rewrite Nat2Z.id, Hx. done. }
  rewrite Hdir. destruct (Z.ltb_spec 28 n) as [Hgt|Hle].
  2:{ eexists _, _, st. split; [done|]. split; [done|]. split_and!; [|done|done|].
      - replace (Z.min n 28) with n by lia. unfold owned, meta_of. destruct (Z.ltb_spec 28 n); [lia|].
        destruct (Z.ltb_spec 156 n); [lia|]. by rewrite app_nil_r.
      - by apply (inode_clear_fields di). }
  replace (Z.min n 28) with 28 by lia. cbn [indirect1 indirect2 with_direct with_size].
  assert (Hm1 : indirect1 di ∈ meta_of d di n) by (apply elem_meta_of; left; split; [lia|done]).
  destruct (io_there _ _ _ Hio (indirect1 di)) as [b1 Hb1]; [apply elem_of_app; by right|].
  pose proof (unlocked_meta _ _ _ _ _ Hu Hm1) as Hn1. set (m := Z.min (n - 28) 128).
  set (v0 := blocks_of d di 28 ++ [indirect1 di]).
  destruct (modify_index st d h (indirect1 di) b1 (collect_indirect1 m v0) (v0 ++ entries d (indirect1 di) m) (words 4 128 b1))
    as (st1 & -> & Hr1); [done|done|done|lia| |by apply words_index_ok, (rp_ok _ _ _ Hr _ _ Hb1)|].
  { intros st1. unfold collect_indirect1. rewrite collect_spec by (rewrite ?length_words; lia).
    rewrite Z2Nat.id by lia. rewrite (entries_slice d (indirect1 di) b1 m Hb1) by lia. done. }
  rewrite word_bytes_words, insert_id in Hr1 by (done || apply (rp_ok _ _ _ Hr _ _ Hb1)). cbn [mbind outcome_bind].
  assert (Hbl : blocks_of d di (28 + m) = blocks_of d di 28 ++ entries d (indirect1 di) m).
  { rewrite blocks_of_split by lia. by rewrite blocks_first by lia. }
  destruct (Z.ltb_spec 128 (n - 28)) as [Hgt2|Hle2].
  2:{ eexists _, _, st1. split; [done|]. split; [done|]. split_and!; [|done|done|by apply (inode_clear_fields di)].
      replace n with (28 + m) by lia. unfold owned. rewrite Hbl, meta_of_mid by lia. unfold v0. rewrite <- !app_assoc.
      apply Permutation_app_head, Permutation_app_comm. }
  assert (m = 128) as Em by lia. rewrite Em in *. cbn [indirect1 indirect2 with_indirect1 with_direct with_size]. set (v1 := (v0 ++ entries d (indirect1 di) 128) ++ [indirect2 di]).
  destruct (Z.leb_spec (n - 28 - 128) INODE_INDIRECT2_COUNT) as [_|Hbad].
  2:{ unfold INODE_INDIRECT2_COUNT, INODE_INDIRECT1_COUNT, BLOCK_SZ in Hbad. change (512 / 4 * (512 / 4)) with 16384 in Hbad. lia. }
  cbn [assert_ mbind outcome_bind]. replace (n - 28 - 128) with (n - 156) by lia.
  assert (Hown : owned d di n = own3 d di (n - 156)) by (apply owned_own3; lia).
  assert (Hm2 : indirect2 di ∈ meta_of d di n) by (apply elem_meta_of; right; split; [lia|by left]).
  pose proof (io_nodup _ _ _ Hio) as Hnd. rewrite Hown in Hnd. unfold own3 in Hnd.
  apply NoDup_app in Hnd as (_ & _ & Hnd). rewrite !NoDup_cons in Hnd. destruct Hnd as (_ & Hn2 & _).
  destruct (collect2_spec st1 d h di (n - 156) v1) as (w & st2 & -> & Hr2 & Hw); [done|lia|lia| | | |].
  { apply (io_there _ _ _ Hio). apply elem_of_app. by right. }
  { by apply (unlocked_meta _ _ _ _ _ Hu). }
  { intros s Hs. assert (Hsm : s ∈ meta_of d di n).
    { apply elem_meta_of. right. split; [lia|]. right. by apply elem_subs_of in Hs. }
    split; [apply (io_there _ _ _ Hio), elem_of_app; by right|]. rewrite not_elem_of_cons. split; [by intros ->|].
    by apply (unlocked_meta _ _ _ _ _ Hu). }
  cbn [mbind outcome_bind]. eexists _, _, st2. split; [done|]. split; [done|].
  split_and!; [|done|done|by apply (inode_clear_fields di)].
  rewrite Hown. unfold own3, v1, v0. rewrite Hw. rewrite <- !app_assoc.
  replace (156 + (n - 156)) with (28 + 128 + (n - 156)) by lia. rewrite (blocks_of_split d di (28 + 128)) by lia.
  change (28 + 128) with 156 at 2. change (blocks_of d di (28 + 128)) with (blocks_of d di (28 + 128)). rewrite Hbl.
  rewrite <- !app_assoc. apply Permutation_app_head. cbn [app].
  rewrite Permutation_middle. apply Permutation_app_head.
  generalize (block_of d di <$> seqZ 156 (n - 156)) (subs_of d di ((n - 156 + 127) / 128)). intros x y.
  rewrite (Permutation_app_comm y x). rewrite !Permutation_middle. done.
Qed.

(** ** Sizes and counts *)

Lemma data_blocks_mono di new_size :
  0 <= size di <= new_size -> new_size <= 2 ^ 32 - 512 -> 0 <= data_blocks di <= _data_blocks new_size.
Proof. intros H1 H2. unfold data_blocks. rewrite !data_blocks_small by lia. lia_mod. Qed.

Lemma total_count size : 0 <= size <= 2 ^ 32 - 512 -> total_blocks size = owned_count (_data_blocks size).
Proof.
  intros Hs. rewrite (total_blocks_owned ∅ (initialize File) size) by done. rewrite length_owned; [done|].
  rewrite data_blocks_small by done. lia_mod.
Qed.

Lemma owned_count_mono n m : 0 <= n <= m -> owned_count n <= owned_count m.
Proof. intros H. unfold owned_count, sub_count. repeat case_match; lia_mod. Qed.

Lemma needed_count d di new_size (news : list Z) :
  0 <= size di <= new_size -> new_size <= 28 * 512 + 128 * 512 + 128 * 128 * 512 ->
  blocks_num_needed di new_size = Ret (Z.of_nat (length news)) ->
  Z.of_nat (length news) = owned_count (_data_blocks new_size) - owned_count (data_blocks di).
Proof.
  intros Hs Hm. unfold blocks_num_needed. destruct (Z.leb_spec (size di) new_size); [|lia].
  cbn [assert_ mbind outcome_bind]. intros [= <-]. rewrite !total_count by lia. fold (data_blocks di).
  pose proof (data_blocks_mono di new_size Hs ltac:(lia)) as Hd.
  pose proof (owned_count_mono _ _ Hd). apply wrap32_small. split; [lia|].
  assert (owned_count (_data_blocks new_size) < 2 ^ 32); [|pose proof (owned_count_mono 0 (data_blocks di)); change (owned_count 0) with 0 in *; lia].
  rewrite data_blocks_small by lia. unfold owned_count, sub_count. repeat case_match; lia_mod.
Qed.

Lemma grown_inode_ok d di n d' di' n' (used : list Z) :
  grown d di n d' di' n' used -> 0 <= n' <= MAX_BLOCKS -> NoDup (owned d di n ++ used) ->
  (forall id, id ∈ owned d di n ++ used -> is_Some (d !! id)) -> inode_ok d' di' n'.
Proof.
  intros [Hf _ _ _ Hown _ [_ Hdom]] Hn Hnd Hall. split; [done|done|by rewrite Hown|].
  intros id Hid. rewrite Hown in Hid. by apply Hdom, Hall.
Qed.

(** ** Properties *)

(** Growing an inode keeps the file.  Given exactly the blocks that
    [blocks_num_needed] asks for, fresh and distinct, [increase_size] returns;
    the inode then owns the old blocks and all the new ones, the data blocks it
    had stay at their positions and keep their contents, and only index blocks
    of the inode are written. *)
Theorem increase_size_appends st d h di new_size (news : list Z) :
  let n := data_blocks di in let n' := _data_blocks new_size in
  repr st d h -> inode_ok d di n -> 0 <= size di <= new_size -> new_size <= MAX_BLOCKS * 512 ->
  (S (S (length h)) < BLOCK_CACHE_SIZE)%nat ->
  blocks_num_needed di new_size = Ret (Z.of_nat (length news)) ->
  Forall (in_width 32) news -> NoDup (owned d di n ++ news) ->
  (forall id, id ∈ owned d di n ++ news -> is_Some (d !! id) /\ id ∉ h) ->
  exists di' st' d', increase_size di new_size news st = Ret (di', st') /\ repr st' d' h /\
    inode_ok d' di' n' /\ size di' = new_size /\ type_ di' = type_ di /\
    owned d' di' n' ≡ₚ owned d di n ++ news /\
    (forall k, 0 <= k < n -> block_of d' di' k = block_of d di k /\ blk d' (block_of d di k) = blk d (block_of d di k)) /\
    (forall id, id ∉ meta_of d' di' n' -> d' !! id = d !! id).
Proof.
  intros n n' Hr Hio Hsz Hmax Hh Hneed Hnw Hnd Hall. unfold MAX_BLOCKS in Hmax.
  assert (Hlen : Z.of_nat (length news) = owned_count n' - owned_count n) by (by apply (needed_count d di new_size)).
  destruct (increase_size_spec st d h di new_size news) as (di' & st' & d' & E & Hr' & Hg); try done.
  pose proof Hg as [Hf Es Et Hold Hown Hmeta [Hfr Hdom]].
  pose proof (data_blocks_mono di new_size Hsz ltac:(lia)) as Hmono.
  assert (Hio' : inode_ok d' di' n').
  { apply (grown_inode_ok _ _ _ _ _ _ _ Hg); [|done|intros id Hid; by apply Hall].
    unfold n', MAX_BLOCKS. rewrite data_blocks_small in * by lia. lia_mod. }
  exists di', st', d'. split_and!; try done. intros k Hk. split; [by rewrite Hold|]. unfold blk.
  rewrite Hfr; [done|]. intros Hin. pose proof (io_nodup _ _ _ Hio') as Hnd'. unfold owned in Hnd'.
  apply NoDup_app in Hnd' as (_ & Hdis & _). apply (Hdis (block_of d di k)); [|done].
  apply elem_blocks_of. exists k. fold n' in Hold. rewrite Hold by done. split; [|done].
  unfold n, n' in *. lia.
Qed.

(** C31: what is written is read back and nothing else changes.  Writing [buf]
    anywhere inside a file and then reading any range returns the file's old
    bytes with [buf] in place, and only data blocks of this inode are written. *)
Theorem disk_inode_write_read st d h di off buf off' len' :
  let n := data_blocks di in
  repr st d h -> inode_ok d di n -> unlocked d di n h -> (length h < BLOCK_CACHE_SIZE)%nat ->
  0 <= size di <= MAX_BLOCKS * 512 -> 0 <= off -> buf <> [] -> off + Z.of_nat (length buf) <= size di ->
  Forall (in_width 8) buf -> 0 <= off' -> 0 <= len' -> off' + len' < 2 ^ 64 ->
  exists st1 d1 st2, write_at di off buf st = Ret (Z.of_nat (length buf), st1) /\
    read_at di off' len' st1
      = Ret (slice (take (Z.to_nat (size di)) (splice (file_bytes d di n) off buf)) off' len', st2) /\
    repr st2 d1 h /\ forall id, id ∉ blocks_of d di n -> d1 !! id = d !! id.
Proof.
  intros n Hr Hio Hu Hh Hsz Ho Hne Hend Hby Ho' Hl' Hw.
  destruct (write_at_spec st d h di off buf) as (st1 & d1 & E1 & Hr1 & Hwr); try done. fold n in Hwr.
  assert (Hu1 : unlocked d1 di n h) by (unfold unlocked; rewrite (owned_written d di n d1 _ Hio Hwr); done).
  destruct (read_at_spec st1 d1 h di off' len') as (st2 & E2 & Hr2); try done; [apply Hwr|].
  fold n in E2. rewrite (wr_bytes _ _ _ _ _ Hwr) in E2. exists st1, d1, st2. split_and!; try done.
  apply (gf_other _ _ _ (wr_frame _ _ _ _ _ Hwr)).
Qed.

(** Truncation gives back exactly what the file owned.  [clear_size] never
    panics, leaves an empty inode of the same type and the disk unchanged, and
    returns every data and index block of the inode once, so that the count
    [Inode::clear] asserts is right. *)
Theorem clear_size_returns_owned st d h di :
  let n := data_blocks di in
  repr st d h -> inode_ok d di n -> unlocked d di n h -> (S (length h) < BLOCK_CACHE_SIZE)%nat ->
  0 <= size di <= MAX_BLOCKS * 512 ->
  exists v di' st', clear_size di st = Ret (v, di', st') /\ repr st' d h /\ v ≡ₚ owned d di n /\
    size di' = 0 /\ type_ di' = type_ di /\ Z.of_nat (length v) = total_blocks (size di).
Proof.
  intros n Hr Hio Hu Hh Hsz. unfold MAX_BLOCKS in Hsz.
  destruct (clear_size_spec st d h di) as (v & di' & st' & E & Hr' & Hp & Hs & Ht & _); try done.
  exists v, di', st'. split_and!; try done. rewrite (Permutation_length Hp). unfold n, data_blocks.
  rewrite (total_blocks_owned d di (size di)) by lia. done.
Qed.

End FileFacts.
