(* ===== verification/EfsVfs.v ===== *)
(** * easy-fs: the file system and its inodes ([efs.rs] and [vfs.rs])

    The fields of [EasyFileSystem] never change after [create] or [open], so it
    is a value; everything that changes is in the block cache.  Every public
    operation of [Inode] takes the file system's lock first and drops it last,
    so one operation runs at a time.  A file name is its UTF-8 bytes. *)
From S2P Require Import Prelude Utf8 EfsCache EfsWords EfsBitmap EfsLayout.
Import EfsCache EfsBitmap EfsLayout.

Module Efs.

Record EasyFileSystem : Type := mkEfs {
  inode_bitmap : Bitmap;
  data_bitmap : Bitmap;
  inode_area_start_block : Z;
  data_area_start_block : Z;
}.

Section Ops.
Context {D : Type} {BD : BlockDevice D}.
Implicit Type st : CacheManager D.

(** [for byte in data_block.iter_mut() { *byte = 0; }] *)
Definition zero_block (data_block : list Z) st : outcome (unit * list Z * CacheManager D) :=
  Ret (tt, (fun _ => 0) <$> data_block, st).

Definition get_disk_inode_pos (self : EasyFileSystem) (inode_id : Z) : Z * Z :=
  let inode_size := size_of (T := DiskInode) in
  let inodes_per_block := BLOCK_SZ / inode_size in
  (wrap 32 (inode_area_start_block self + inode_id / inodes_per_block),
   (inode_id mod inodes_per_block) * inode_size).

Definition get_data_block_id (self : EasyFileSystem) (data_block_id : Z) : Z :=
  wrap 32 (data_area_start_block self + data_block_id).

Definition alloc_inode (self : EasyFileSystem) st : outcome (Z * CacheManager D) :=
  '(r, st) ← alloc (inode_bitmap self) st;
  v ← unwrap r;
  Ret (wrap 32 v, st).

Definition alloc_data (self : EasyFileSystem) st : outcome (Z * CacheManager D) :=
  '(r, st) ← alloc (data_bitmap self) st;
  v ← unwrap r;
  Ret (wrap 32 (wrap 32 v + data_area_start_block self), st).

Definition dealloc_data (self : EasyFileSystem) (block_id : Z) st : outcome (CacheManager D) :=
  '(_, st) ← modify (T := DataBlock) st block_id 0 zero_block;
  dealloc (data_bitmap self) st (wrap 32 (block_id - data_area_start_block self)).

(** [for i in 0..total_blocks { .. }] *)
Fixpoint clear_blocks (ids : list Z) st : outcome (CacheManager D) :=
  match ids with
  | [] => Ret st
  | i :: ids' =>
      '(_, st) ← modify (T := DataBlock) st i 0 zero_block;
      clear_blocks ids' st
  end.

Definition set_super (s : SuperBlock) (_ : SuperBlock) st : outcome (unit * SuperBlock * CacheManager D) :=
  Ret (tt, s, st).
Definition set_inode (t : DiskInodeType) (_ : DiskInode) st : outcome (unit * DiskInode * CacheManager D) :=
  Ret (tt, initialize t, st).

Definition create (total_blocks inode_bitmap_blocks : Z) st : outcome (EasyFileSystem * CacheManager D) :=
  let inode_bitmap := mkBitmap 1 inode_bitmap_blocks in
  let inode_num := maximum inode_bitmap in
  let inode_area_blocks :=
    wrap 32 (wrap 64 (inode_num * size_of (T := DiskInode) + BLOCK_SZ - 1) / BLOCK_SZ) in
  let inode_total_blocks := wrap 32 (inode_bitmap_blocks + inode_area_blocks) in
  let data_total_blocks := wrap 32 (total_blocks - 1 - inode_total_blocks) in
  let data_bitmap_blocks := wrap 32 (data_total_blocks + 4096) / 4097 in
  let data_area_blocks := wrap 32 (data_total_blocks - data_bitmap_blocks) in
  let data_bitmap := mkBitmap (wrap 32 (1 + inode_total_blocks)) data_bitmap_blocks in
  let efs := mkEfs inode_bitmap data_bitmap (wrap 32 (1 + inode_bitmap_blocks))
               (wrap 32 (1 + inode_total_blocks + data_bitmap_blocks)) in
  st ← clear_blocks (seqZ 0 total_blocks) st;
  '(_, st) ← modify (T := SuperBlock) st 0 0
    (set_super (super_initialize total_blocks inode_bitmap_blocks inode_area_blocks data_bitmap_blocks data_area_blocks));
  '(root, st) ← alloc_inode efs st;
  _ ← assert_ (root =? 0);
  let '(root_inode_block_id, root_inode_offset) := get_disk_inode_pos efs 0 in
  '(_, st) ← modify (T := DiskInode) st root_inode_block_id root_inode_offset (set_inode Directory);
  st ← block_cache_sync_all st;
  Ret (efs, st).

Definition open_super (super_block : SuperBlock) st : outcome (EasyFileSystem * CacheManager D) :=
  _ ← assert_ (is_valid super_block);
  let inode_total_blocks := wrap 32 (inode_bitmap_blocks super_block + inode_area_blocks super_block) in
  Ret (mkEfs (mkBitmap 1 (inode_bitmap_blocks super_block))
             (mkBitmap (wrap 32 (1 + inode_total_blocks)) (data_bitmap_blocks super_block))
             (wrap 32 (1 + inode_bitmap_blocks super_block))
             (wrap 32 (1 + inode_total_blocks + data_bitmap_blocks super_block)), st).

Definition open_ st : outcome (EasyFileSystem * CacheManager D) :=
  read (T := SuperBlock) st 0 0 open_super.

End Ops.
End Efs.

Module Vfs.
Import Efs.

Record Inode : Type := mkVnode {
  block_id : Z;
  block_offset : Z;
}.

Definition inode_new (pos : Z * Z) : Inode := mkVnode pos.1 pos.2.

Definition root_inode (efs : EasyFileSystem) : Inode := inode_new (get_disk_inode_pos efs 0).

Section Ops.
Context {D : Type} {BD : BlockDevice D}.
Context (fs : EasyFileSystem).
Implicit Type st : CacheManager D.

Definition read_disk_inode {V} (self : Inode) (f : DiskInode -> CacheManager D -> outcome (V * CacheManager D)) st
    : outcome (V * CacheManager D) :=
  read st (block_id self) (block_offset self) f.

Definition modify_disk_inode {V} (self : Inode)
    (f : DiskInode -> CacheManager D -> outcome (V * DiskInode * CacheManager D)) st : outcome (V * CacheManager D) :=
  modify st (block_id self) (block_offset self) f.

(** [disk_inode.read_at(DIRENT_SZ * i, dirent.as_bytes_mut(), ..)] with its
    assertion. *)
Definition read_dirent (disk_inode : DiskInode) (i : Z) st : outcome (DirEntry * CacheManager D) :=
  '(bytes, st) ← EfsLayout.read_at disk_inode (wrap 64 (DIRENT_SZ * i)) DIRENT_SZ st;
  _ ← assert_ (Z.of_nat (length bytes) =? DIRENT_SZ);
  Ret (dirent_of_bytes bytes, st).

Fixpoint find_loop (name : list Z) (disk_inode : DiskInode) (is_ : list Z) st
    : outcome (option Z * CacheManager D) :=
  match is_ with
  | [] => Ret (None, st)
  | i :: rest =>
      '(dirent, st) ← read_dirent disk_inode i st;
      n ← dirent_name dirent;
      if bool_decide (n = name) then Ret (Some (inode_number dirent), st)
      else find_loop name disk_inode rest st
  end.

Definition find_inode_id (name : list Z) (disk_inode : DiskInode) st : outcome (option Z * CacheManager D) :=
  _ ← assert_ (is_dir disk_inode);
  let file_count := size disk_inode / DIRENT_SZ in
  find_loop name disk_inode (seqZ 0 file_count) st.

Definition find_closure (name : list Z) (disk_inode : DiskInode) st : outcome (option Inode * CacheManager D) :=
  '(r, st) ← find_inode_id name disk_inode st;
  Ret (option_map (fun inode_id => inode_new (get_disk_inode_pos fs inode_id)) r, st).

Definition find (self : Inode) (name : list Z) st : outcome (option Inode * CacheManager D) :=
  read_disk_inode self (find_closure name) st.

(** [for _ in 0..blocks_needed { v.push(fs.alloc_data()); }] *)
Fixpoint alloc_many (count : nat) (v : list Z) st : outcome (list Z * CacheManager D) :=
  match count with
  | O => Ret (v, st)
  | S count' =>
      '(b, st) ← alloc_data fs st;
      alloc_many count' (v ++ [b]) st
  end.

Definition increase_size (new_size : Z) (disk_inode : DiskInode) st : outcome (DiskInode * CacheManager D) :=
  if new_size <? size disk_inode then Ret (disk_inode, st)
  else
    blocks_needed ← blocks_num_needed disk_inode new_size;
    '(v, st) ← alloc_many (Z.to_nat blocks_needed) [] st;
    EfsLayout.increase_size disk_inode new_size v st.

(** The two closures of [create]. *)
Definition create_check (name : list Z) (root : DiskInode) st : outcome (option Z * DiskInode * CacheManager D) :=
  _ ← assert_ (is_dir root);
  '(r, st) ← find_inode_id name root st;
  Ret (r, root, st).

Definition create_append (name : list Z) (new_inode_id : Z) (root : DiskInode) st
    : outcome (unit * DiskInode * CacheManager D) :=
  let file_count := size root / DIRENT_SZ in
  let new_size := (file_count + 1) * DIRENT_SZ in
  '(root, st) ← increase_size (wrap 32 new_size) root st;
  dirent ← dirent_new name new_inode_id;
  '(_, st) ← EfsLayout.write_at root (file_count * DIRENT_SZ) (as_bytes dirent) st;
  Ret (tt, root, st).

Definition create (self : Inode) (name : list Z) st : outcome (option Inode * CacheManager D) :=
  '(found, st) ← modify_disk_inode self (create_check name) st;
  match found with
  | Some _ => Ret (None, st)
  | None =>
      '(new_inode_id, st) ← alloc_inode fs st;
      let '(new_inode_block_id, new_inode_block_offset) := get_disk_inode_pos fs new_inode_id in
      '(_, st) ← modify (T := DiskInode) st new_inode_block_id new_inode_block_offset (set_inode File);
      '(_, st) ← modify_disk_inode self (create_append name new_inode_id) st;
      let pos := get_disk_inode_pos fs new_inode_id in
      st ← block_cache_sync_all st;
      Ret (Some (inode_new pos), st)
  end.

Fixpoint ls_loop (disk_inode : DiskInode) (is_ : list Z) (v : list (list Z)) st
    : outcome (list (list Z) * CacheManager D) :=
  match is_ with
  | [] => Ret (v, st)
  | i :: rest =>
      '(dirent, st) ← read_dirent disk_inode i st;
      n ← dirent_name dirent;
      ls_loop disk_inode rest (v ++ [n]) st
  end.

Definition ls (self : Inode) st : outcome (list (list Z) * CacheManager D) :=
  read_disk_inode self (fun disk_inode =>
    ls_loop disk_inode (seqZ 0 (size disk_inode / DIRENT_SZ)) []) st.

Definition read_at (self : Inode) (offset len : Z) st : outcome (list Z * CacheManager D) :=
  read_disk_inode self (fun disk_inode => EfsLayout.read_at disk_inode offset len) st.

Definition write_closure (offset : Z) (buf : list Z) (disk_inode : DiskInode) st
    : outcome (Z * DiskInode * CacheManager D) :=
  '(disk_inode, st) ← increase_size (wrap 32 (wrap 64 (offset + Z.of_nat (length buf)))) disk_inode st;
  '(n, st) ← EfsLayout.write_at disk_inode offset buf st;
  Ret (n, disk_inode, st).

Definition write_at (self : Inode) (offset : Z) (buf : list Z) st : outcome (Z * CacheManager D) :=
  '(size, st) ← modify_disk_inode self (write_closure offset buf) st;
  st ← block_cache_sync_all st;
  Ret (size, st).

Fixpoint dealloc_all (blocks : list Z) st : outcome (CacheManager D) :=
  match blocks with
  | [] => Ret st
  | b :: rest => st ← dealloc_data fs b st; dealloc_all rest st
  end.

Definition clear_closure (disk_inode : DiskInode) st : outcome (unit * DiskInode * CacheManager D) :=
  let size := size disk_inode in
  '(data_blocks_dealloc, disk_inode, st) ← clear_size disk_inode st;
  _ ← assert_ (Z.of_nat (length data_blocks_dealloc) =? total_blocks size);
  st ← dealloc_all data_blocks_dealloc st;
  Ret (tt, disk_inode, st).

Definition clear (self : Inode) st : outcome (CacheManager D) :=
  '(_, st) ← modify_disk_inode self clear_closure st;
  block_cache_sync_all st.

End Ops.
End Vfs.
