(* ===== verification/EfsAlloc.v ===== *)
(** * Where things lie on the disk, and the data allocator

    [geometry fs area] is the layout [EasyFileSystem::create] computes: super
    block, inode bitmap, inode area, data bitmap, data area of [area] blocks.
    [data_map d U] says that the data bitmap marks exactly the blocks of the
    list [U] as used; allocation extends the list, release shortens it. *)
From S2P Require Import Prelude EfsCache EfsCacheFacts EfsWords EfsBitmap EfsLayout EfsInodeFacts EfsGrow EfsFileFacts EfsVfs.
Import EfsCache EfsBitmap EfsLayout Efs.

Definition zeros : list Z := replicate 512 0.

Lemma zeros_ok : block_ok zeros.
Proof. split; [apply length_replicate|]. apply Forall_replicate. done. Qed.

(** ** Layout *)

Record geometry (fs : EasyFileSystem) (area : Z) : Prop := {
  ge_istart : start_block_id (inode_bitmap fs) = 1;
  ge_ib : 0 < blocks (inode_bitmap fs) <= 2 ^ 20;   (** inode numbers are 32-bit *)
  ge_ia : inode_area_start_block fs = 1 + blocks (inode_bitmap fs);
  ge_dstart : start_block_id (data_bitmap fs) = inode_area_start_block fs + 1024 * blocks (inode_bitmap fs);
  ge_db : 0 <= blocks (data_bitmap fs);
  ge_da : data_area_start_block fs = start_block_id (data_bitmap fs) + blocks (data_bitmap fs);
  ge_area : 0 <= area <= blocks (data_bitmap fs) * 4096;
  ge_end : data_area_start_block fs + area <= 2 ^ 32;
}.

Definition inode_count (fs : EasyFileSystem) : Z := 4096 * blocks (inode_bitmap fs).

Definition in_area (fs : EasyFileSystem) (area id : Z) : Prop :=
  data_area_start_block fs <= id < data_area_start_block fs + area.

(** Every block of the file system exists. *)
Definition disk_there (fs : EasyFileSystem) (area : Z) (d : gmap Z (list Z)) : Prop :=
  forall id, 0 <= id < data_area_start_block fs + area -> is_Some (d !! id).

Lemma disk_there_dom fs area d d' :
  disk_there fs area d -> (forall id, is_Some (d' !! id) <-> is_Some (d !! id)) -> disk_there fs area d'.
Proof. intros H Hd id Hid. by apply Hd, H. Qed.

Definition inode_block (fs : EasyFileSystem) (i : Z) : Z := inode_area_start_block fs + i / 4.
Definition inode_offset (i : Z) : Z := i mod 4 * 128.

Section Geometry.
Context (fs : EasyFileSystem) (area : Z) (G : geometry fs area).

Lemma get_disk_inode_pos_eq i :
  0 <= i < inode_count fs -> get_disk_inode_pos fs i = (inode_block fs i, inode_offset i).
Proof.
  intros Hi. unfold get_disk_inode_pos, inode_block, inode_offset, inode_count in *. destruct G.
  change (BLOCK_SZ / size_of) with 4. change (size_of (T := DiskInode)) with 128.
  rewrite wrap32_small; [done|]. lia_mod.
Qed.

Lemma inode_block_range i :
  0 <= i < inode_count fs -> inode_area_start_block fs <= inode_block fs i < start_block_id (data_bitmap fs).
Proof. unfold inode_block, inode_count. destruct G. lia_mod. Qed.

Lemma inode_offset_range i : 0 <= inode_offset i /\ inode_offset i + 128 <= 512.
Proof. unfold inode_offset. lia_mod. Qed.

Lemma inode_block_there d i : disk_there fs area d -> 0 <= i < inode_count fs -> is_Some (d !! inode_block fs i).
Proof. intros Hd Hi. apply Hd. pose proof (inode_block_range i Hi). destruct G. lia. Qed.

Lemma area_not_inode id i : in_area fs area id -> 0 <= i < inode_count fs -> id <> inode_block fs i.
Proof. intros Ha Hi. pose proof (inode_block_range i Hi). unfold in_area in Ha. destruct G. lia. Qed.

Lemma area_not_data_bitmap id : in_area fs area id -> ~ in_bitmap (data_bitmap fs) id.
Proof. unfold in_area, in_bitmap. destruct G. lia. Qed.

Lemma area_not_inode_bitmap id : in_area fs area id -> ~ in_bitmap (inode_bitmap fs) id.
Proof. unfold in_area, in_bitmap. destruct G. lia. Qed.

Lemma inode_not_data_bitmap i : 0 <= i < inode_count fs -> ~ in_bitmap (data_bitmap fs) (inode_block fs i).
Proof. intros Hi. pose proof (inode_block_range i Hi). unfold in_bitmap. destruct G. lia. Qed.

Lemma inode_not_inode_bitmap i : 0 <= i < inode_count fs -> ~ in_bitmap (inode_bitmap fs) (inode_block fs i).
Proof. intros Hi. pose proof (inode_block_range i Hi). unfold in_bitmap. destruct G. lia. Qed.

Lemma bitmaps_apart id : in_bitmap (data_bitmap fs) id -> ~ in_bitmap (inode_bitmap fs) id.
Proof. unfold in_bitmap. destruct G. lia. Qed.

Lemma data_bitmap_ok d : disk_there fs area d -> bitmap_ok d (data_bitmap fs).
Proof. intros Hd. destruct G. split; [lia..|]. unfold in_bitmap. intros id Hid. apply Hd. lia. Qed.

Lemma inode_bitmap_ok d : disk_there fs area d -> bitmap_ok d (inode_bitmap fs).
Proof. intros Hd. destruct G. split; [lia..|]. unfold in_bitmap. intros id Hid. apply Hd. lia. Qed.

End Geometry.

Lemma bit_set_ext d d' bm k :
  0 <= k < blocks bm * 4096 -> (forall id, in_bitmap bm id -> d' !! id = d !! id) -> bit_set d' bm k = bit_set d bm k.
Proof.
  intros Hk H. unfold bit_set, word_of. rewrite H; [done|]. unfold in_bitmap. lia_mod.
Qed.

Lemma tracks_ext d d' bm s : tracks d bm s -> (forall id, in_bitmap bm id -> d' !! id = d !! id) -> tracks d' bm s.
Proof. intros Ht H k Hk. rewrite (bit_set_ext d d') by done. by apply Ht. Qed.

(** ** The blocks in use *)

Section DataMap.
Context (fs : EasyFileSystem) (area : Z).

Record data_map (d : gmap Z (list Z)) (U : list Z) : Prop := {
  dm_nodup : NoDup U;
  dm_area : forall id, id ∈ U -> in_area fs area id;
  dm_bits : forall k, 0 <= k < blocks (data_bitmap fs) * 4096 ->
    bit_set d (data_bitmap fs) k = true <-> data_area_start_block fs + k ∈ U;
  dm_zero : forall id, in_area fs area id -> id ∉ U -> d !! id = Some zeros;
}.

#[export] Instance data_map_proper d : Proper ((≡ₚ) ==> iff) (data_map d).
Proof.
  intros U U' HU. split; intros []; split.
  - by rewrite <- HU.
  - intros id. rewrite <- HU. apply dm_area0.
  - intros k. rewrite <- HU. apply dm_bits0.
  - intros id. rewrite <- HU. apply dm_zero0.
  - by rewrite HU.
  - intros id. rewrite HU. apply dm_area0.
  - intros k. rewrite HU. apply dm_bits0.
  - intros id. rewrite HU. apply dm_zero0.
Qed.

(** A change that leaves the bitmap and the free blocks alone. *)
Lemma data_map_ext d d' U :
  data_map d U -> (forall id, in_bitmap (data_bitmap fs) id -> d' !! id = d !! id) ->
  (forall id, in_area fs area id -> id ∉ U -> d' !! id = d !! id) -> data_map d' U.
Proof.
  intros [] Hb Hz. split; [done..| |].
  - intros k Hk. rewrite (bit_set_ext d d') by done. by apply dm_bits0.
  - intros id Ha Hn. rewrite Hz by done. by apply dm_zero0.
Qed.

Context {D : Type} {BD : BlockDevice D} {BL : BlockDeviceLaws D}.
Context (G : geometry fs area).
Implicit Type st : CacheManager D.

Lemma alloc_data_spec st d h U :
  repr st d h -> disk_there fs area d -> data_map d U -> (forall id, in_bitmap (data_bitmap fs) id -> id ∉ h) ->
  (length h < BLOCK_CACHE_SIZE)%nat -> Z.of_nat (length U) < area ->
  exists b st' d', alloc_data fs st = Ret (b, st') /\ repr st' d' h /\ only_bitmap d d' (data_bitmap fs) /\
    in_area fs area b /\ (b ∉ U) /\ data_map d' (U ++ [b]).
Proof.
  intros Hr Hd HU Hh Hl Hroom. pose proof (data_bitmap_ok fs area G d Hd) as Hbm.
  destruct (alloc_spec st d h _ Hr Hbm Hh Hl) as (r & st' & d' & E & Hr' & Ho & Hp).
  unfold alloc_data. rewrite E. cbn [mbind outcome_bind].
  pose proof G as []. pose proof HU as [].
  assert (Hfull : forall m, area <= m -> (forall j, 0 <= j < m -> bit_set d (data_bitmap fs) j = true) -> False).
  { intros m Hm Hall. assert (Hsub : submseteq (seqZ (data_area_start_block fs) area) U).
    - apply NoDup_submseteq; [apply NoDup_seqZ|]. intros id Hid%elem_of_seqZ.
      replace id with (data_area_start_block fs + (id - data_area_start_block fs)) by lia.
      apply dm_bits0; [lia|]. apply Hall. lia.
    - apply submseteq_length in Hsub. rewrite length_seqZ in Hsub. lia. }
  destruct r as [k|]; cbn [alloc_post] in Hp.
  2: { exfalso. destruct Hp as [Hp _]. apply (Hfull _ (proj2 ge_area0)). intros j Hj. apply Hp. lia. }
  destruct Hp as (Hk & Hfree & Hless & Hbits). cbn [unwrap mbind outcome_bind].
  assert (Hka : k < area). { destruct (decide (k < area)); [done|]. exfalso. apply (Hfull k); [lia|]. intros. apply Hless. lia. }
  exists (data_area_start_block fs + k), st', d'.
  assert (Hb : data_area_start_block fs + k ∉ U). { intros Hin. apply dm_bits0 in Hin; [congruence|lia]. }
  split_and!; try done.
  - rewrite (wrap32_small k), wrap32_small by lia. do 2 f_equal. lia.
  - unfold in_area. lia.
  - split.
    + apply NoDup_app. split_and!; [done| |apply NoDup_singleton]. intros x Hx ->%list_elem_of_singleton. done.
    + intros id [Hid| ->%list_elem_of_singleton]%elem_of_app; [by apply dm_area0|]. unfold in_area. lia.
    + intros j Hj. rewrite Hbits by lia. rewrite elem_of_app, list_elem_of_singleton. case_decide as Hjk.
      * subst j. split; [intros _; by right|done].
      * rewrite dm_bits0 by done. split; [by left|]. intros [?|?]; [done|lia].
    + intros id Ha Hn. rewrite (proj1 Ho) by (by apply (area_not_data_bitmap fs area G)). apply dm_zero0; [done|].
      intros Hin. apply Hn, elem_of_app. by left.
Qed.

Lemma alloc_many_spec count : forall st d h U v,
  repr st d h -> disk_there fs area d -> data_map d U -> (forall id, in_bitmap (data_bitmap fs) id -> id ∉ h) ->
  (length h < BLOCK_CACHE_SIZE)%nat -> Z.of_nat (length U) + Z.of_nat count <= area ->
  exists w st' d', Vfs.alloc_many fs count v st = Ret (v ++ w, st') /\ repr st' d' h /\
    only_bitmap d d' (data_bitmap fs) /\ length w = count /\ data_map d' (U ++ w) /\
    forall id, id ∈ w -> in_area fs area id /\ id ∉ U.
Proof.
  induction count as [|count IH]; intros st d h U v Hr Hd HU Hh Hl Hroom; cbn [Vfs.alloc_many].
  { exists [], st, d. rewrite !app_nil_r. split_and!; try done. intros id []%not_elem_of_nil. }
  destruct (alloc_data_spec st d h U Hr Hd HU Hh Hl ltac:(lia)) as (b & st1 & d1 & -> & Hr1 & Ho1 & Ha & Hb & HU1).
  cbn [mbind outcome_bind].
  destruct (IH st1 d1 h (U ++ [b]) (v ++ [b]) Hr1) as (w & st2 & d2 & E & Hr2 & Ho2 & Hw & HU2 & Hin); [|done..| |].
  { eapply disk_there_dom; [done|apply Ho1]. }
  { rewrite length_app. cbn. lia. }
  exists (b :: w), st2, d2. rewrite <- !app_assoc in *. cbn in *. split_and!; try done.
  - by eapply only_bitmap_trans.
  - by rewrite Hw.
  - intros id [->|Hid]%elem_of_cons; [done|]. destruct (Hin id Hid) as [? Hn]. split; [done|].
    intros Hx. apply Hn, elem_of_app. by left.
Qed.

Lemma modify_zero st d h id b :
  repr st d h -> d !! id = Some b -> id ∉ h -> (length h < BLOCK_CACHE_SIZE)%nat ->
  exists st', modify (T := DataBlock) st id 0 zero_block = Ret (tt, st') /\ repr st' (<[id := zeros]> d) h.
Proof.
  intros Hr Hb Hn Hl. pose proof (rp_ok _ _ _ Hr _ _ Hb) as [Hlen _].
  assert (Hz : ((fun _ => 0) <$> b) = zeros).
  { unfold zeros. rewrite <- Hlen. clear. induction b as [|x b IH]; [done|]. cbn. by f_equal. }
  destruct (modify_block_pure st d h id b (fun _ => tt) (fun b => (fun _ => 0) <$> b) Hr Hb Hn Hl) as (st' & E & Hr').
  { rewrite Hz. apply zeros_ok. }
  exists st'. split; [exact E|]. by rewrite Hz in Hr'.
Qed.

Lemma dealloc_data_spec st d h b U :
  repr st d h -> disk_there fs area d -> data_map d (b :: U) -> (forall id, in_bitmap (data_bitmap fs) id -> id ∉ h) ->
  b ∉ h -> (length h < BLOCK_CACHE_SIZE)%nat ->
  exists st' d', dealloc_data fs b st = Ret st' /\ repr st' d' h /\ data_map d' U /\
    (forall id, id <> b -> ~ in_bitmap (data_bitmap fs) id -> d' !! id = d !! id) /\
    (forall id, is_Some (d' !! id) <-> is_Some (d !! id)).
Proof.
  intros Hr Hd HU Hh Hb Hl. pose proof HU as []. pose proof G as [].
  assert (Ha : in_area fs area b) by (apply dm_area0; left). unfold in_area in Ha.
  destruct (Hd b ltac:(lia)) as [bb Hbb].
  destruct (modify_zero st d h b bb Hr Hbb Hb Hl) as (st1 & E1 & Hr1). unfold dealloc_data. rewrite E1. cbn [mbind outcome_bind].
  set (d1 := <[b := zeros]> d) in *. set (k := b - data_area_start_block fs).
  assert (Hdom1 : forall id, is_Some (d1 !! id) <-> is_Some (d !! id)).
  { intros id. subst d1. destruct (decide (id = b)) as [->|].
    - rewrite lookup_insert_eq, Hbb. split; eauto.
    - by rewrite lookup_insert_ne. }
  assert (Hbm1 : forall j, 0 <= j < blocks (data_bitmap fs) * 4096 -> bit_set d1 (data_bitmap fs) j = bit_set d (data_bitmap fs) j).
  { intros j Hj. apply bit_set_ext; [done|]. intros id Hid. unfold d1. rewrite lookup_insert_ne; [done|].
    intros ->. by apply (area_not_data_bitmap fs area G id). }
  assert (Hd1 : disk_there fs area d1) by (by eapply disk_there_dom).
  pose proof (dealloc_spec st1 d1 h (data_bitmap fs) k Hr1 (data_bitmap_ok fs area G d1 Hd1) Hh Hl ltac:(lia)) as Hs.
  rewrite wrap32_small by lia. fold k.
  assert (Hset : bit_set d (data_bitmap fs) k = true).
  { apply dm_bits0; [lia|]. replace (data_area_start_block fs + k) with b by lia. left. }
  rewrite Hbm1, Hset in Hs by lia. destruct Hs as (st2 & d2 & E2 & Hr2 & [Ho Hdom2] & Hbits).
  exists st2, d2. split_and!; try done.
  - split.
    + by apply NoDup_cons in dm_nodup0 as [_ ?].
    + intros id Hid. apply dm_area0. by right.
    + intros j Hj. rewrite Hbits by lia. apply NoDup_cons in dm_nodup0 as [Hnot _]. case_decide as Hjk.
      * subst j. split; [done|]. replace (data_area_start_block fs + k) with b by lia. done.
      * rewrite Hbm1, dm_bits0 by done. rewrite elem_of_cons. split; [intros [?|?]; [lia|done]|by right].
    + intros id Hid Hn. rewrite Ho by (by apply (area_not_data_bitmap fs area G)). unfold d1.
      destruct (decide (id = b)) as [->|]; [apply lookup_insert_eq|]. rewrite lookup_insert_ne by done. apply dm_zero0; [done|].
      rewrite elem_of_cons. by intros [?|?].
  - intros id Hne Hnb. rewrite Ho by done. unfold d1. by rewrite lookup_insert_ne.
  - intros id. by rewrite Hdom2, Hdom1.
Qed.

Lemma dealloc_all_spec v : forall st d h U,
  repr st d h -> disk_there fs area d -> data_map d (v ++ U) -> (forall id, in_bitmap (data_bitmap fs) id -> id ∉ h) ->
  (forall id, id ∈ v -> id ∉ h) -> (length h < BLOCK_CACHE_SIZE)%nat ->
  exists st' d', Vfs.dealloc_all fs v st = Ret st' /\ repr st' d' h /\ data_map d' U /\
    (forall id, id ∉ v -> ~ in_bitmap (data_bitmap fs) id -> d' !! id = d !! id) /\
    (forall id, is_Some (d' !! id) <-> is_Some (d !! id)).
Proof.
  induction v as [|b v IH]; intros st d h U Hr Hd HU Hh Hv Hl; cbn [Vfs.dealloc_all].
  { exists st, d. by split_and!. }
  destruct (dealloc_data_spec st d h b (v ++ U) Hr Hd HU Hh) as (st1 & d1 & -> & Hr1 & HU1 & Ho1 & Hdom1); [apply Hv; left|done|].
  cbn [mbind outcome_bind].
  destruct (IH st1 d1 h U Hr1) as (st2 & d2 & E & Hr2 & HU2 & Ho2 & Hdom2); [by eapply disk_there_dom|done..| |done|].
  { intros id Hid. apply Hv. by right. }
  exists st2, d2. split_and!; try done.
  - intros id Hid Hb. rewrite not_elem_of_cons in Hid. destruct Hid. rewrite Ho2, Ho1 by done. done.
  - intros id. by rewrite Hdom2, Hdom1.
Qed.

End DataMap.

(** ** The inode area *)

Section InodeArea.
Context (fs : EasyFileSystem) (area : Z).

Definition inode_at (d : gmap Z (list Z)) (i : Z) : DiskInode :=
  of_bytes (slice (blk d (inode_block fs i)) (inode_offset i) 128).

(** The block that [modify] stores back. *)
Definition inode_store (d : gmap Z (list Z)) (i : Z) (di : DiskInode) : gmap Z (list Z) :=
  let b := blk d (inode_block fs i) in
  <[inode_block fs i := splice b (inode_offset i) (to_bytes di (slice b (inode_offset i) 128))]> d.

Lemma inode_at_ext d d' i : d' !! inode_block fs i = d !! inode_block fs i -> inode_at d' i = inode_at d i.
Proof. intros H. unfold inode_at, blk. by rewrite H. Qed.

Lemma inode_at_store d i di b j :
  d !! inode_block fs i = Some b -> block_ok b -> inode_fields_ok di -> 0 <= i -> 0 <= j ->
  inode_at (inode_store d i di) j = if decide (j = i) then di else inode_at d j.
Proof.
  intros Hb [Hlen Hrange] Hdi Hi Hj. unfold inode_at, inode_store, blk. rewrite Hb. cbn [default from_option Datatypes.id].
  pose proof (inode_offset_range i). pose proof (inode_offset_range j).
  set (old := slice b (inode_offset i) 128).
  assert (Hold : length old = 128%nat) by (unfold old; rewrite length_slice; lia).
  assert (Hok : pod_ok (PodLaws := DiskInode_laws) di) by exact Hdi.
  assert (Hnew : length (to_bytes di old) = 128%nat) by (rewrite pod_length; [done|done|exact Hold]).
  case_decide as Hji.
  - subst j. rewrite lookup_insert_eq. cbn [default from_option Datatypes.id].
    replace 128 with (Z.of_nat (length (to_bytes di old))) at 1 by lia.
    rewrite slice_splice_same by lia. by apply pod_round.
  - destruct (decide (inode_block fs j = inode_block fs i)) as [Hbl|Hbl].
    + rewrite Hbl, lookup_insert_eq, Hb. cbn [default from_option Datatypes.id]. rewrite slice_splice_other; [done|lia..|].
      rewrite Hnew. unfold inode_offset, inode_block in *. lia_mod.
    + by rewrite lookup_insert_ne.
Qed.

Lemma inode_store_ne d i di id : id <> inode_block fs i -> inode_store d i di !! id = d !! id.
Proof. intros H. unfold inode_store. by rewrite lookup_insert_ne. Qed.

Lemma inode_store_dom d i di id :
  is_Some (d !! inode_block fs i) -> is_Some (inode_store d i di !! id) <-> is_Some (d !! id).
Proof.
  intros Hb. unfold inode_store. destruct (decide (id = inode_block fs i)) as [->|].
  - rewrite lookup_insert_eq. split; eauto.
  - by rewrite lookup_insert_ne.
Qed.

End InodeArea.
