(* ===== verification/EfsInv.v ===== *)
(** * The file system invariant

    [fs_inv d F] relates the disk [d] to the files it holds: [F] maps the
    number of each allocated inode to its type and contents.  Both bitmaps mark
    what is in use and nothing else, no block belongs to two files, and bytes
    that are in no file are zero.  The operations on open inodes ([read_at],
    [write_at], [clear] of [vfs.rs]) read and update [F]. *)
From S2P Require Import Prelude EfsCache EfsCacheFacts EfsWords EfsBitmap EfsLayout EfsInodeFacts EfsGrow EfsFileFacts EfsVfs EfsAlloc.
Import EfsCache EfsBitmap EfsLayout Efs.

Abbreviation Files := (gmap Z (DiskInodeType * list Z)).

Record file_ok (d : gmap Z (list Z)) (di : DiskInode) (t : DiskInodeType) (c : list Z) : Prop := {
  fo_type : type_ di = t;
  fo_size : size di = Z.of_nat (length c);
  fo_max : Z.of_nat (length c) <= MAX_BLOCKS * 512;
  fo_inode : inode_ok d di (data_blocks di);
  fo_bytes : file_bytes d di (data_blocks di) = c ++ replicate (Z.to_nat (512 * data_blocks di) - length c) 0;
}.

Lemma file_size_range d di t c : file_ok d di t c -> 0 <= size di <= MAX_BLOCKS * 512.
Proof. intros []. lia. Qed.

Lemma file_blocks d di t c : file_ok d di t c -> data_blocks di = _data_blocks (Z.of_nat (length c)).
Proof. intros []. unfold data_blocks. by rewrite fo_size0. Qed.

Lemma file_fits d di t c : file_ok d di t c -> Z.of_nat (length c) <= 512 * data_blocks di.
Proof.
  intros H. rewrite (file_blocks _ _ _ _ H). destruct H. unfold MAX_BLOCKS in fo_max0.
  rewrite data_blocks_small by lia. lia_mod.
Qed.

Lemma file_take d di t c :
  file_ok d di t c -> take (Z.to_nat (size di)) (file_bytes d di (data_blocks di)) = c.
Proof. intros []. rewrite fo_bytes0, fo_size0, Nat2Z.id. apply take_app_length. Qed.

Lemma file_bytes_ext d d' di n :
  inode_ok d di n -> (forall id, id ∈ owned d di n -> d' !! id = d !! id) -> file_bytes d' di n = file_bytes d di n.
Proof.
  intros Hok H. unfold file_bytes, blocks_of. f_equal. rewrite <- !list_fmap_compose. apply list_fmap_ext.
  intros k x Hx%list_elem_of_lookup_2%elem_of_seqZ. cbn.
  assert (Hb : block_of d' di x = block_of d di x).
  { apply block_of_ext with n; [|lia]. intros id Hid. apply H, elem_of_app. by right. }
  rewrite Hb. unfold blk. rewrite H; [done|]. apply elem_of_app. left. apply elem_blocks_of. exists x. split; [lia|done].
Qed.

Lemma file_ok_ext d d' di t c :
  file_ok d di t c -> (forall id, id ∈ owned d di (data_blocks di) -> d' !! id = d !! id) ->
  owned d' di (data_blocks di) = owned d di (data_blocks di) /\ file_ok d' di t c.
Proof.
  intros [] H. assert (Hm : forall id, id ∈ meta_of d di (data_blocks di) -> d' !! id = d !! id).
  { intros id Hid. apply H, elem_of_app. by right. }
  pose proof (owned_ext d d' di _ Hm) as Ho. split; [done|]. split; [done..| |].
  - pose proof fo_inode0 as []. split; [done..| |].
    + by rewrite Ho.
    + intros id Hid. rewrite Ho in Hid. rewrite H by done. by apply io_there.
  - by rewrite (file_bytes_ext d d').
Qed.

(** ** Space *)

(** The blocks a file takes, index blocks included. *)
Definition cost (f : DiskInodeType * list Z) : Z := owned_count (_data_blocks (Z.of_nat (length f.2))).
Definition space (F : Files) : Z := foldr (fun p acc => cost p.2 + acc) 0 (map_to_list F).

Lemma space_perm (l k : list (Z * (DiskInodeType * list Z))) :
  l ≡ₚ k -> foldr (fun p acc => cost p.2 + acc) 0 l = foldr (fun p acc => cost p.2 + acc) 0 k.
Proof. induction 1; cbn; try lia. Qed.

Lemma space_insert F i f : F !! i = None -> space (<[i := f]> F) = cost f + space F.
Proof. intros H. unfold space. rewrite (space_perm _ _ (map_to_list_insert F i f H)). done. Qed.

Lemma space_delete F i f : F !! i = Some f -> space F = cost f + space (delete i F).
Proof. intros H. rewrite <- (space_insert (delete i F) i f) by apply lookup_delete_eq. by rewrite insert_delete_id. Qed.

Lemma space_update F i f g : F !! i = Some f -> space (<[i := g]> F) = space F - cost f + cost g.
Proof.
  intros H. rewrite (space_delete F i f H), <- insert_delete_eq, space_insert by apply lookup_delete_eq. lia.
Qed.

Section Inv.
Context (fs : EasyFileSystem) (area : Z).

Definition own (d : gmap Z (list Z)) (i : Z) : list Z :=
  owned d (inode_at fs d i) (data_blocks (inode_at fs d i)).

Definition all_owned (d : gmap Z (list Z)) (F : Files) : list Z := concat ((fun p => own d p.1) <$> map_to_list F).

(** The super block describes [fs]. *)
Definition super_for (d : gmap Z (list Z)) : Prop :=
  exists b, d !! 0 = Some b /\
    forall D (st : CacheManager D), open_super (of_bytes (slice b 0 24)) st = Ret (fs, st).

Record fs_inv (d : gmap Z (list Z)) (F : Files) : Prop := {
  fi_super : super_for d;
  fi_there : disk_there fs area d;
  fi_ids : forall i, i ∈ dom F -> 0 <= i < inode_count fs;
  fi_inodes : tracks d (inode_bitmap fs) (dom F);
  fi_files : map_Forall (fun i f => file_ok d (inode_at fs d i) f.1 f.2) F;
  fi_data : data_map fs area d (all_owned d F);
}.

Lemma concat_perm (l k : list (list Z)) : l ≡ₚ k -> concat l ≡ₚ concat k.
Proof.
  induction 1 as [|x l k _ IH|x y l|l1 l2 l3 _ IH1 _ IH2]; cbn; [done|by rewrite IH| |by rewrite IH1].
  rewrite !app_assoc. by rewrite (Permutation_app_comm y x).
Qed.

Lemma all_owned_insert d F i f : F !! i = None -> all_owned d (<[i := f]> F) ≡ₚ own d i ++ all_owned d F.
Proof.
  intros H. unfold all_owned. change (own d i ++ concat ((fun p : Z * _ => own d p.1) <$> map_to_list F))
    with (concat ((fun p : Z * (DiskInodeType * list Z) => own d p.1) <$> (i, f) :: map_to_list F)).
  apply concat_perm, fmap_Permutation. by apply map_to_list_insert.
Qed.

Lemma all_owned_delete d F i f : F !! i = Some f -> all_owned d F ≡ₚ own d i ++ all_owned d (delete i F).
Proof.
  intros H. rewrite <- (all_owned_insert d (delete i F) i f) by apply lookup_delete_eq. by rewrite insert_delete_id.
Qed.

Lemma all_owned_ext d d' F : (forall i, i ∈ dom F -> own d' i = own d i) -> all_owned d' F = all_owned d F.
Proof.
  intros H. unfold all_owned. f_equal. apply list_fmap_ext. intros k [i f] Hk. apply H.
  apply list_elem_of_lookup_2, elem_of_map_to_list in Hk. by apply elem_of_dom_2 in Hk.
Qed.

Lemma elem_all_owned d F id : id ∈ all_owned d F <-> exists i, i ∈ dom F /\ id ∈ own d i.
Proof.
  unfold all_owned. rewrite list_elem_of_In, in_concat. split.
  - intros (l & Hl%list_elem_of_In & Hid%list_elem_of_In). apply list_elem_of_fmap in Hl as ([i f] & -> & Hp).
    apply elem_of_map_to_list in Hp. exists i. split; [by apply elem_of_dom_2 in Hp|done].
  - intros (i & [f Hf]%elem_of_dom & Hid). exists (own d i). split; apply list_elem_of_In; [|done].
    apply list_elem_of_fmap. exists (i, f). split; [done|]. by apply elem_of_map_to_list.
Qed.

Lemma length_own d i t c : file_ok d (inode_at fs d i) t c -> Z.of_nat (length (own d i)) = cost (t, c).
Proof.
  intros H. unfold own, cost, owned_count. cbn [snd]. rewrite <- (file_blocks _ _ _ _ H). apply length_owned.
  apply (io_count _ _ _ (fo_inode _ _ _ _ H)).
Qed.

Lemma length_all_owned d F :
  map_Forall (fun i f => file_ok d (inode_at fs d i) f.1 f.2) F -> Z.of_nat (length (all_owned d F)) = space F.
Proof.
  induction F as [|i f F Hi IH] using map_ind; intros Hall.
  - unfold all_owned, space. by rewrite map_to_list_empty.
  - apply map_Forall_insert in Hall as [Hf Hall]; [|done].
    rewrite (all_owned_insert d F i f Hi), length_app, Nat2Z.inj_add, (length_own _ _ _ _ Hf), IH, space_insert by done.
    by destruct f.
Qed.

Context (G : geometry fs area).

(** A file system between the reading of an inode [i] and its writing back:
    the blocks [d1] are those of the inode value [di1], and the inode block
    itself is still the one of [d]. *)
Record mid (d : gmap Z (list Z)) (F : Files) (i : Z) (t : DiskInodeType)
    (d1 : gmap Z (list Z)) (di1 : DiskInode) (c1 : list Z) : Prop := {
  mi_file : file_ok d1 di1 t c1;
  mi_data : data_map fs area d1 (owned d1 di1 (data_blocks di1) ++ all_owned d (delete i F));
  mi_out : forall id, ~ in_area fs area id -> ~ in_bitmap (data_bitmap fs) id -> d1 !! id = d !! id;
  mi_files : forall id, id ∈ all_owned d (delete i F) -> d1 !! id = d !! id;
  mi_dom : forall id, is_Some (d1 !! id) <-> is_Some (d !! id);
}.

Lemma mid_refl d F i t c : fs_inv d F -> F !! i = Some (t, c) -> mid d F i t d (inode_at fs d i) c.
Proof.
  intros [] Hi. split; try done.
  - by apply (fi_files0 i (t, c)).
  - by rewrite (all_owned_delete d F i (t, c) Hi) in fi_data0.
Qed.

Lemma mid_inode_block d F i t d1 di1 c1 j :
  mid d F i t d1 di1 c1 -> 0 <= j < inode_count fs -> d1 !! inode_block fs j = d !! inode_block fs j.
Proof.
  intros [] Hj. apply mi_out0; [|by eapply inode_not_data_bitmap]. intros Ha. by apply (area_not_inode fs area G _ j Ha).
Qed.

(** Writing the inode back re-establishes the invariant. *)
Lemma mid_store d F i t c d1 di1 c1 :
  fs_inv d F -> F !! i = Some (t, c) -> map_Forall (fun _ => block_ok) d1 -> mid d F i t d1 di1 c1 ->
  fs_inv (inode_store fs d1 i di1) (<[i := (t, c1)]> F).
Proof.
  intros HI Hi Hok1 HM. pose proof HI as []. pose proof HM as [].
  assert (Hir : 0 <= i < inode_count fs) by (apply fi_ids0; by apply elem_of_dom_2 in Hi).
  assert (Hf1 : inode_fields_ok di1) by apply (io_fields _ _ _ (fo_inode _ _ _ _ mi_file0)).
  set (d2 := inode_store fs d1 i di1).
  assert (Hd1 : disk_there fs area d1) by (by eapply disk_there_dom).
  destruct (inode_block_there fs area G d1 i Hd1 Hir) as [b Hb].
  assert (Hat : forall j, 0 <= j -> inode_at fs d2 j = if decide (j = i) then di1 else inode_at fs d1 j).
  { intros j Hj. eapply inode_at_store; try done; try lia. by eapply Hok1. }
  assert (Hne : forall id, id <> inode_block fs i -> d2 !! id = d1 !! id) by (intros; by apply inode_store_ne).
  assert (Harea : forall id, in_area fs area id -> d2 !! id = d1 !! id).
  { intros id Ha. apply Hne. by apply (area_not_inode fs area G). }
  assert (Hother : forall j f, F !! j = Some f -> j <> i -> own d2 j = own d j /\ file_ok d2 (inode_at fs d2 j) f.1 f.2).
  { intros j f Hj Hji. assert (Hjr : 0 <= j < inode_count fs) by (apply fi_ids0; by apply elem_of_dom_2 in Hj).
    assert (E : inode_at fs d2 j = inode_at fs d j).
    { rewrite Hat, decide_False by (done || lia). apply inode_at_ext. by eapply mid_inode_block. }
    assert (Hsame : forall id, id ∈ own d j -> d2 !! id = d !! id).
    { intros id Hid. assert (Hin : id ∈ all_owned d (delete i F)).
      { apply elem_all_owned. exists j. split; [|done]. apply elem_of_dom. exists f. by rewrite lookup_delete_ne. }
      rewrite Harea; [by apply mi_files0|]. apply (dm_area _ _ _ _ mi_data0), elem_of_app. by right. }
    unfold own. rewrite E. apply file_ok_ext; [by apply (fi_files0 j f)|exact Hsame]. }
  destruct (file_ok_ext d1 d2 di1 t c1 mi_file0) as [Ho2 Hfo2].
  { intros id Hid. apply Harea, (dm_area _ _ _ _ mi_data0), elem_of_app. by left. }
  assert (Ei : inode_at fs d2 i = di1) by (rewrite Hat, decide_True by (done || lia); done).
  split.
  - destruct fi_super0 as (b0 & H0 & Hopen). exists b0. split; [|exact Hopen].
    pose proof (inode_block_range fs area G i Hir). rewrite Hne by (destruct G; lia). rewrite mi_out0; [done|..].
    + unfold in_area. destruct G; lia.
    + unfold in_bitmap. destruct G; lia.
  - eapply disk_there_dom; [exact Hd1|]. intros id. apply inode_store_dom. by exists b.
  - intros j. rewrite dom_insert, elem_of_union, elem_of_singleton. intros [->|Hj]; [done|by apply fi_ids0].
  - rewrite dom_insert_lookup_L by (by exists (t, c)). eapply tracks_ext; [exact fi_inodes0|]. intros id Hid.
    rewrite Hne by (intros ->; by eapply inode_not_inode_bitmap). apply mi_out0.
    + intros Ha. by apply (area_not_inode_bitmap fs area G id Ha).
    + intros Hb'. by apply (bitmaps_apart fs area G id Hb').
  - intros j f. destruct (decide (j = i)) as [->|Hji].
    + rewrite lookup_insert_eq. intros [= <-]. by rewrite Ei.
    + rewrite lookup_insert_ne by done. intros Hj. by apply Hother.
  - rewrite <- insert_delete_eq, all_owned_insert by apply lookup_delete_eq.
    assert (all_owned d2 (delete i F) = all_owned d (delete i F)) as ->.
    { apply all_owned_ext. intros j [f Hj]%elem_of_dom. apply lookup_delete_Some in Hj as [Hji Hj].
      by apply (Hother j f). }
    unfold own. rewrite Ei, Ho2. eapply data_map_ext; [exact mi_data0| |].
    + intros id Hid. apply Hne. intros ->. by apply (inode_not_data_bitmap fs area G i Hir).
    + intros id Ha _. by apply Harea.
Qed.

End Inv.
