(* ===== verification/EfsOps.v ===== *)
(** * Open inodes: reading, writing and clearing

    [Inode::read_at], [write_at] and [clear] of [vfs.rs] on a disk that
    satisfies the file system invariant. *)
From S2P Require Import Prelude EfsCache EfsCacheFacts EfsWords EfsBitmap EfsLayout EfsInodeFacts EfsGrow EfsFileFacts EfsVfs EfsAlloc EfsInv.
Import EfsCache EfsBitmap EfsLayout Efs.

(** What a write does to the contents: extend with zeros, then replace. *)
Definition write_bytes (c : list Z) (off : Z) (buf : list Z) : list Z :=
  splice (c ++ replicate (Z.to_nat (off + Z.of_nat (length buf) - Z.of_nat (length c))) 0) off buf.

Definition grow_bytes (c : list Z) (new_size : Z) : list Z := c ++ replicate (Z.to_nat (new_size - Z.of_nat (length c))) 0.

Lemma length_grow_bytes c ns : Z.of_nat (length c) <= ns -> Z.of_nat (length (grow_bytes c ns)) = ns.
Proof. intros H. unfold grow_bytes. rewrite length_app, length_replicate. lia. Qed.

Lemma length_write_bytes c off buf :
  0 <= off -> Z.of_nat (length (write_bytes c off buf)) = Z.max (Z.of_nat (length c)) (off + Z.of_nat (length buf)).
Proof.
  intros H. unfold write_bytes. rewrite length_splice; rewrite ?length_app, ?length_replicate; lia.
Qed.

(** ** Writes in pieces *)

Definition write_all (c : list Z) (off : Z) (buf : list Z) : list Z :=
  match buf with [] => c | _ => write_bytes c off buf end.

Lemma grow_grow c n m : Z.of_nat (length c) <= n -> n <= m -> grow_bytes (grow_bytes c n) m = grow_bytes c m.
Proof.
  intros Hc Hn. unfold grow_bytes. rewrite length_app, length_replicate, <- app_assoc, <- replicate_add. do 2 f_equal. lia.
Qed.

Lemma write_bytes_app c off a b :
  0 <= off -> write_bytes (write_bytes c off a) (off + Z.of_nat (length a)) b = write_bytes c off (a ++ b).
Proof.
  intros Ho. set (n := off + Z.of_nat (length a)). set (m := n + Z.of_nat (length b)).
  set (p := Z.max (Z.of_nat (length c)) n). set (q := Z.max p m).
  assert (Eg : forall x v, grow_bytes x v = grow_bytes x (Z.max (Z.of_nat (length x)) v)).
  { intros x v. unfold grow_bytes. do 2 f_equal. lia. }
  assert (Ea : write_bytes c off a = splice (grow_bytes c p) off a) by (unfold p; rewrite <- Eg; done).
  assert (Hlp : Z.of_nat (length (grow_bytes c p)) = p) by (apply length_grow_bytes; lia).
  assert (Hls : length (splice (grow_bytes c p) off a) = length (grow_bytes c p)) by (apply length_splice; lia).
  change (write_bytes (write_bytes c off a) n b) with (splice (grow_bytes (write_bytes c off a) m) n b). rewrite Ea.
  rewrite (Eg _ m), Hls, Hlp. fold q.
  assert (E1 : grow_bytes (splice (grow_bytes c p) off a) q = splice (grow_bytes c q) off a).
  { rewrite <- (grow_grow c p q) by lia. unfold grow_bytes at 1. rewrite Hls.
    unfold grow_bytes at 3. rewrite splice_app_l by lia. done. }
  rewrite E1. unfold n. rewrite splice_splice; [|lia|].
  - change (write_bytes c off (a ++ b)) with (splice (grow_bytes c (off + Z.of_nat (length (a ++ b)))) off (a ++ b)).
    rewrite (Eg c (off + _)). do 2 f_equal. rewrite length_app. lia.
  - rewrite length_grow_bytes by lia. lia.
Qed.

Lemma write_all_app c off a b :
  0 <= off -> write_all (write_all c off a) (off + Z.of_nat (length a)) b = write_all c off (a ++ b).
Proof.
  intros Ho. destruct a as [|x a]; cbn [write_all app length].
  - by replace (off + Z.of_nat 0) with off by lia.
  - destruct b as [|y b]; [by rewrite app_nil_r|]. cbn [write_all]. by rewrite write_bytes_app.
Qed.

Lemma slice_all_app (c : list Z) off n m :
  0 <= off -> 0 <= n -> 0 <= m ->
  slice c off n ++ slice c (off + Z.of_nat (length (slice c off n))) m = slice c off (n + m).
Proof.
  intros Ho Hn Hm. destruct (decide (off + n <= Z.of_nat (length c))) as [Hle|Hgt].
  - rewrite length_slice, Z2Nat.id by lia. by apply slice_slice.
  - unfold slice. rewrite (take_ge (drop _ _)) by (rewrite length_drop; lia).
    rewrite (drop_ge c (Z.to_nat (off + _))) by (rewrite length_drop; lia). rewrite take_nil, app_nil_r.
    by rewrite take_ge by (rewrite length_drop; lia).
Qed.

Lemma slice_drop (c : list Z) off n :
  0 <= off -> slice c off n ++ drop (Z.to_nat (off + Z.of_nat (length (slice c off n)))) c = drop (Z.to_nat off) c.
Proof.
  intros Ho. unfold slice. set (l := drop (Z.to_nat off) c).
  assert (E : drop (Z.to_nat (off + Z.of_nat (length (take (Z.to_nat n) l)))) c = drop (length (take (Z.to_nat n) l)) l).
  { change (drop _ l) with (drop (length (take (Z.to_nat n) l)) (drop (Z.to_nat off) c)). rewrite drop_drop. f_equal. lia. }
  rewrite E, length_take. destruct (decide (Z.to_nat n <= length l)%nat).
  - rewrite Nat.min_l by done. apply take_drop.
  - rewrite Nat.min_r, drop_all, take_ge, app_nil_r by lia. done.
Qed.

(** ** Growing *)

Lemma concat_zeros (l : list (list Z)) : Forall (fun b => b = zeros) l -> concat l = replicate (512 * length l) 0.
Proof.
  induction 1 as [|b l -> _ IH]; [done|]. cbn [concat]. rewrite IH. unfold zeros. rewrite <- replicate_add. f_equal. cbn. lia.
Qed.

Lemma grown_block_new d di n d' di' n' used k :
  grown d di n d' di' n' used -> inode_ok d' di' n' -> 0 <= n <= k -> k < n' -> block_of d' di' k ∈ used.
Proof.
  intros [] [] Hk Hn. assert (Hin : block_of d' di' k ∈ owned d' di' n').
  { apply elem_of_app. left. apply elem_blocks_of. exists k. split; [lia|done]. }
  unfold owned in io_nodup. apply NoDup_app in io_nodup as (Hnd & Hdis & _).
  rewrite gr_own, elem_of_app in Hin. destruct Hin as [Hin|]; [|done]. exfalso.
  apply elem_of_app in Hin as [(j & Hj & E)%elem_blocks_of|Hm].
  - rewrite <- gr_old in E by done.
    pose proof (lookup_blocks_of d' di' n' k ltac:(lia)) as E1. pose proof (lookup_blocks_of d' di' n' j ltac:(lia)) as E2.
    rewrite E in E1. pose proof (NoDup_lookup _ _ _ _ Hnd E1 E2). lia.
  - apply (Hdis (block_of d' di' k)); [|by apply gr_meta]. apply elem_blocks_of. exists k. split; [lia|done].
Qed.

Lemma grown_bytes d di n d' di' n' used :
  grown d di n d' di' n' used -> inode_ok d' di' n' -> 0 <= n <= n' ->
  (forall id, id ∈ used -> d !! id = Some zeros) ->
  file_bytes d' di' n' = file_bytes d di n ++ replicate (Z.to_nat (512 * (n' - n))) 0.
Proof.
  intros HG Hok' Hn Hz.
  assert (Hout : forall k, 0 <= k < n' -> blk d' (block_of d' di' k) = blk d (block_of d' di' k)).
  { intros k Hk. unfold blk. rewrite (gf_other _ _ _ (gr_frame _ _ _ _ _ _ _ HG)); [done|]. intros Hm.
    pose proof (io_nodup _ _ _ Hok') as Hnd. unfold owned in Hnd. apply NoDup_app in Hnd as (_ & Hdis & _).
    apply (Hdis (block_of d' di' k)); [|done]. apply elem_blocks_of. exists k. split; [lia|done]. }
  unfold file_bytes at 1. replace n' with (n + (n' - n)) by lia. rewrite blocks_of_split by lia.
  rewrite fmap_app, concat_app. f_equal.
  - unfold file_bytes, blocks_of. f_equal. rewrite <- !list_fmap_compose. apply list_fmap_ext.
    intros ? x Hx%list_elem_of_lookup_2%elem_of_seqZ. cbn. rewrite Hout by lia.
    by rewrite (gr_old _ _ _ _ _ _ _ HG) by lia.
  - rewrite concat_zeros.
    + rewrite !length_fmap, length_seqZ. f_equal. lia.
    + apply Forall_fmap, Forall_fmap, Forall_forall. intros k Hk%elem_of_seqZ. cbn. rewrite Hout by lia.
      unfold blk. rewrite Hz; [done|]. eapply grown_block_new; [done|done|lia|lia].
Qed.

Section Ops.
Context {D : Type} {BD : BlockDevice D} {BL : BlockDeviceLaws D}.
Context (fs : EasyFileSystem) (area : Z) (G : geometry fs area).
Implicit Type st : CacheManager D.

Lemma all_owned_there d F id : fs_inv fs area d F -> id ∈ all_owned fs d F -> is_Some (d !! id).
Proof.
  intros [] H. apply fi_there. apply (dm_area _ _ _ _ fi_data) in H. unfold in_area in H. destruct G. lia.
Qed.

Lemma grown_file d di t c d1 di1 ns used :
  file_ok d di t c -> grown d (with_size di ns) (data_blocks di) d1 di1 (_data_blocks ns) used ->
  Z.of_nat (length c) <= ns <= MAX_BLOCKS * 512 -> NoDup (owned d di (data_blocks di) ++ used) ->
  (forall id, id ∈ used -> d !! id = Some zeros) -> file_ok d1 di1 t (grow_bytes c ns) /\ data_blocks di1 = _data_blocks ns.
Proof.
  intros Hf HG Hns Hnd Hz. pose proof Hf as []. pose proof HG as [_ Hsz Hty _ _ _ _]. cbn in Hsz, Hty.
  assert (Hm : MAX_BLOCKS = 16540) by done.
  assert (Hn1 : data_blocks di1 = _data_blocks ns) by (unfold data_blocks; by rewrite Hsz).
  pose proof (data_blocks_mono di ns ltac:(lia) ltac:(lia)) as Hmono.
  assert (Hle : _data_blocks ns <= MAX_BLOCKS) by (rewrite data_blocks_small by lia; lia_mod).
  assert (Hok1 : inode_ok d1 di1 (_data_blocks ns)).
  { eapply grown_inode_ok; [exact HG|lia|exact Hnd|]. intros id [Hid|Hid]%elem_of_app; [by apply fo_inode|].
    rewrite Hz by done. eauto. }
  pose proof (file_fits _ _ _ _ Hf) as Hfit. split; [|done].
  assert (Hfit1 : ns <= 512 * _data_blocks ns) by (rewrite data_blocks_small by lia; lia_mod).
  split.
  - congruence.
  - rewrite Hsz, length_grow_bytes; lia.
  - rewrite length_grow_bytes; lia.
  - by rewrite Hn1.
  - rewrite Hn1. rewrite (grown_bytes _ _ _ _ _ _ _ HG); [|done|lia|done].
    change (file_bytes d (with_size di ns)) with (file_bytes d di). rewrite fo_bytes.
    unfold grow_bytes. rewrite <- !app_assoc, <- !replicate_add, length_app, length_replicate. do 2 f_equal. lia.
Qed.

Lemma inv_id d F i f : fs_inv fs area d F -> F !! i = Some f -> 0 <= i < inode_count fs.
Proof. intros [] Hi. apply fi_ids. by apply elem_of_dom_2 in Hi. Qed.

(** The blocks allocated for a file that is to grow. *)
Lemma alloc_for_file st d F i t c need :
  let di := inode_at fs d i in let n := data_blocks di in
  repr st d [inode_block fs i] -> fs_inv fs area d F -> F !! i = Some (t, c) -> 0 <= need -> space F + need <= area ->
  exists w st1 d1, Vfs.alloc_many fs (Z.to_nat need) [] st = Ret (w, st1) /\ repr st1 d1 [inode_block fs i] /\
    only_bitmap d d1 (data_bitmap fs) /\ Z.of_nat (length w) = need /\ file_ok d1 di t c /\
    data_map fs area d1 ((owned d1 di n ++ w) ++ all_owned fs d (delete i F)) /\
    forall id, id ∈ w -> d1 !! id = Some zeros.
Proof.
  intros di n Hr HI Hi Hneed Hsp. pose proof HI as []. pose proof (inv_id _ _ _ _ HI Hi) as Hir.
  assert (Hf : file_ok d di t c) by (by apply (fi_files i (t, c))).
  pose proof (length_all_owned fs d F fi_files) as Hlen.
  destruct (alloc_many_spec fs area G (Z.to_nat need) st d [inode_block fs i] (all_owned fs d F) [] Hr fi_there fi_data)
    as (w & st1 & d1 & E & Hr1 & Ho1 & Hw & HU1 & Hin).
  { intros id Hid ->%list_elem_of_singleton. by apply (inode_not_data_bitmap fs area G i Hir). }
  { cbn. unfold BLOCK_CACHE_SIZE. lia. }
  { lia. }
  assert (Hsame : forall id, in_area fs area id -> d1 !! id = d !! id).
  { intros id Ha. apply Ho1. by apply (area_not_data_bitmap fs area G). }
  pose proof (all_owned_delete fs d F i (t, c) Hi) as Hperm. unfold own in Hperm. fold di n in Hperm.
  destruct (file_ok_ext d d1 di t c Hf) as [Eo1 Hf1].
  { intros id Hid. apply Hsame, (dm_area _ _ _ _ HU1), elem_of_app. left. rewrite Hperm. apply elem_of_app. by left. }
  fold n in Eo1. exists w, st1, d1. split_and!; try done; [apply Ho1..|lia| |].
  - rewrite Eo1. assert (Hp : (owned d di n ++ w) ++ all_owned fs d (delete i F) ≡ₚ all_owned fs d F ++ w).
    { rewrite Hperm, <- !app_assoc. apply Permutation_app_head, Permutation_app_comm. }
    by rewrite Hp.
  - intros id Hid. destruct (Hin id Hid) as [Ha Hn]. rewrite Hsame by done. by apply (dm_zero _ _ _ _ fi_data).
Qed.

(** The state after [DiskInode::increase_size] has taken the blocks [w]. *)
Lemma grown_mid d F i t c d1 w ns d2 di2 :
  let di := inode_at fs d i in let n := data_blocks di in
  only_bitmap d d1 (data_bitmap fs) -> file_ok d1 di t c ->
  data_map fs area d1 ((owned d1 di n ++ w) ++ all_owned fs d (delete i F)) ->
  (forall id, id ∈ w -> d1 !! id = Some zeros) -> Z.of_nat (length c) <= ns <= MAX_BLOCKS * 512 ->
  grown d1 (with_size di ns) n d2 di2 (_data_blocks ns) w ->
  mid fs area d F i t d2 di2 (grow_bytes c ns).
Proof.
  intros di n [Ho1 Hdom1] Hf1 HU1 Hzero Hns HG. pose proof (dm_nodup _ _ _ _ HU1) as (Hnd & Hdis & _)%NoDup_app.
  assert (Harea1 : forall id, id ∈ owned d1 di n ++ w -> in_area fs area id).
  { intros id Hid. apply (dm_area _ _ _ _ HU1), elem_of_app. by left. }
  destruct (grown_file d1 di t c d2 di2 ns w Hf1 HG Hns Hnd Hzero) as [Hf2 Hn2].
  assert (Hout2 : forall id, id ∉ owned d1 di n ++ w -> d2 !! id = d1 !! id).
  { intros id Hid. apply (gf_other _ _ _ (gr_frame _ _ _ _ _ _ _ HG)). intros Hm'. apply Hid.
    change (owned d1 di n) with (owned d1 (with_size di ns) n). rewrite <- (gr_own _ _ _ _ _ _ _ HG).
    apply elem_of_app. by right. }
  split.
  - exact Hf2.
  - rewrite Hn2, (gr_own _ _ _ _ _ _ _ HG). change (owned d1 (with_size di ns) n) with (owned d1 di n).
    eapply data_map_ext; [exact HU1| |].
    + intros id Hid. apply Hout2. intros Hx%Harea1. by apply (area_not_data_bitmap fs area G id Hx).
    + intros id _ Hid. apply Hout2. intros Hx. apply Hid, elem_of_app. by left.
  - intros id Ha Hb. rewrite Hout2; [by apply Ho1|]. intros Hx. by apply Ha, Harea1.
  - intros id Hid. rewrite Hout2; [|intros Hx; by apply (Hdis id)].
    apply Ho1, (area_not_data_bitmap fs area G), (dm_area _ _ _ _ HU1), elem_of_app. by right.
  - intros id. rewrite (gf_dom _ _ _ (gr_frame _ _ _ _ _ _ _ HG)). apply Hdom1.
Qed.

(** [Inode::increase_size] *)
Lemma increase_mid st d F i t c ns :
  repr st d [inode_block fs i] -> fs_inv fs area d F -> F !! i = Some (t, c) -> 0 <= ns <= MAX_BLOCKS * 512 ->
  space (<[i := (t, grow_bytes c ns)]> F) <= area ->
  exists di1 st1 d1, Vfs.increase_size fs ns (inode_at fs d i) st = Ret (di1, st1) /\ repr st1 d1 [inode_block fs i] /\
    mid fs area d F i t d1 di1 (grow_bytes c ns).
Proof.
  intros Hr HI Hi Hns Hsp. set (di := inode_at fs d i).
  assert (Hf : file_ok d di t c) by (by apply (fi_files _ _ _ _ HI i (t, c))). pose proof (fo_size _ _ _ _ Hf) as Hsz.
  assert (Hm : MAX_BLOCKS = 16540) by done. pose proof (inv_id _ _ _ _ HI Hi) as Hir.
  unfold Vfs.increase_size. destruct (Z.ltb_spec ns (size di)) as [Hlt|Hge].
  { exists di, st, d. split_and!; [done..|]. unfold grow_bytes. replace (Z.to_nat _) with 0%nat by lia.
    rewrite app_nil_r. by apply mid_refl. }
  unfold blocks_num_needed. replace (size di <=? ns) with true by (symmetry; apply Z.leb_le; lia).
  cbn [assert_ mbind outcome_bind]. pose proof (file_size_range _ _ _ _ Hf) as Hsr.
  pose proof (data_blocks_mono di ns ltac:(lia) ltac:(lia)) as Hmono.
  set (n := data_blocks di) in *. set (n' := _data_blocks ns) in *.
  pose proof (owned_count_mono n n' ltac:(lia)) as Hcm.
  assert (Hcost : space F + (owned_count n' - owned_count n) <= area).
  { rewrite (space_update F i (t, c) _ Hi) in Hsp. unfold cost in Hsp. cbn [snd] in Hsp.
    rewrite length_grow_bytes in Hsp by lia. rewrite <- (file_blocks _ _ _ _ Hf) in Hsp. fold n n' in Hsp. lia. }
  pose proof (length_all_owned fs d F (fi_files _ _ _ _ HI)) as Hlen.
  rewrite !total_count by lia. fold n'. change (_data_blocks (size di)) with n. rewrite wrap32_small by (destruct G; lia).
  destruct (alloc_for_file st d F i t c (owned_count n' - owned_count n) Hr HI Hi ltac:(lia) Hcost)
    as (w & st1 & d1 & -> & Hr1 & Ho1 & Hw & Hf1 & HU1 & Hzero). fold di n in Hf1, HU1. cbn [mbind outcome_bind].
  assert (Harea1 : forall id, id ∈ owned d1 di n ++ w -> in_area fs area id).
  { intros id Hid. apply (dm_area _ _ _ _ HU1), elem_of_app. by left. }
  destruct (increase_size_spec st1 d1 [inode_block fs i] di ns w Hr1) as (di2 & st2 & d2 & -> & Hr2 & HG).
  { exact (fo_inode _ _ _ _ Hf1). }
  { lia. } { lia. } { cbn. unfold BLOCK_CACHE_SIZE. lia. } { fold n n'. lia. }
  { apply Forall_forall. intros id Hid. pose proof (Harea1 id) as Ha. rewrite elem_of_app in Ha. unfold in_area, in_width in *.
    specialize (Ha (or_intror Hid)). destruct G. lia. }
  { apply (dm_nodup _ _ _ _) in HU1. by apply NoDup_app in HU1 as [? _]. }
  { intros id Hid. pose proof (Harea1 id Hid) as Ha. split.
    - apply Ho1, (fi_there _ _ _ _ HI). unfold in_area in Ha. destruct G. lia.
    - intros ->%list_elem_of_singleton. by apply (area_not_inode fs area G _ i Ha). }
  exists di2, st2, d2. split_and!; [done..|]. eapply grown_mid; [done..|lia|done].
Qed.

(** The inode object for inode number [i]. *)
Definition vnode (i : Z) : Vfs.Inode := Vfs.inode_new (get_disk_inode_pos fs i).

Lemma inode_slice d i b : d !! inode_block fs i = Some b ->
  of_bytes (slice b (inode_offset i) (size_of (T := DiskInode))) = inode_at fs d i.
Proof. intros Hb. unfold inode_at, blk. by rewrite Hb. Qed.

(** [modify_disk_inode] with a closure that leaves a [mid] state. *)
Lemma modify_inode_spec {V} st d F i t c (v : V) c1
    (f : DiskInode -> CacheManager D -> outcome (V * DiskInode * CacheManager D)) :
  repr st d [] -> fs_inv fs area d F -> F !! i = Some (t, c) ->
  (forall st1, repr st1 d [inode_block fs i] -> exists di1 st2 d2, f (inode_at fs d i) st1 = Ret (v, di1, st2) /\
     repr st2 d2 [inode_block fs i] /\ mid fs area d F i t d2 di1 c1) ->
  exists st' d', Vfs.modify_disk_inode (vnode i) f st = Ret (v, st') /\ repr st' d' [] /\
    fs_inv fs area d' (<[i := (t, c1)]> F).
Proof.
  intros Hr HI Hi Hf. pose proof (inv_id _ _ _ _ HI Hi) as Hir. pose proof (inode_offset_range i) as Hoff.
  destruct (inode_block_there fs area G d i (fi_there _ _ _ _ HI) Hir) as [b Hb].
  unfold Vfs.modify_disk_inode, vnode, Vfs.inode_new. rewrite (get_disk_inode_pos_eq fs area G) by done.
  cbn [fst snd Vfs.block_id Vfs.block_offset].
  destruct (modify_spec st d [] (inode_block fs i) (inode_offset i) b f
              (fun v' di1 d2 => v' = v /\ mid fs area d F i t d2 di1 c1 /\ map_Forall (fun _ => block_ok) d2))
    as (v' & di1 & st' & d2 & E & Hok & (-> & HM & Hd2) & Hr'); [done|done|apply not_elem_of_nil| | |exact (proj2 Hoff)| |].
  { cbn. unfold BLOCK_CACHE_SIZE. lia. }
  { lia. }
  { intros st1 Hr1. destruct (Hf st1 Hr1) as (di1 & st2 & d2 & E & Hr2 & HM). exists v, di1, st2, d2.
    rewrite (inode_slice d i b Hb). split_and!; try done.
    - exact (io_fields _ _ _ (fo_inode _ _ _ _ (mi_file _ _ _ _ _ _ _ _ _ HM))).
    - exact (rp_ok _ _ _ Hr2). }
  exists st', (inode_store fs d2 i di1). split_and!; [done| |by eapply mid_store].
  unfold inode_store, blk. by rewrite (mid_inode_block fs area G _ _ _ _ _ _ _ _ HM Hir), Hb.
Qed.

Lemma read_inode_spec {V} st d F i t c (v : V) (f : DiskInode -> CacheManager D -> outcome (V * CacheManager D)) :
  repr st d [] -> fs_inv fs area d F -> F !! i = Some (t, c) ->
  (forall st1, repr st1 d [inode_block fs i] -> exists st2, f (inode_at fs d i) st1 = Ret (v, st2) /\
     repr st2 d [inode_block fs i]) ->
  exists st', Vfs.read_disk_inode (vnode i) f st = Ret (v, st') /\ repr st' d [].
Proof.
  intros Hr HI Hi Hf. pose proof (inv_id _ _ _ _ HI Hi) as Hir. pose proof (inode_offset_range i) as Hoff.
  destruct (inode_block_there fs area G d i (fi_there _ _ _ _ HI) Hir) as [b Hb].
  unfold Vfs.read_disk_inode, vnode, Vfs.inode_new. rewrite (get_disk_inode_pos_eq fs area G) by done.
  cbn [fst snd Vfs.block_id Vfs.block_offset].
  destruct (read_spec st d [] (inode_block fs i) (inode_offset i) b f (fun v' d2 => v' = v /\ d2 = d))
    as (v' & st' & d2 & E & Hr' & -> & ->); [done|done|apply not_elem_of_nil| | |exact (proj2 Hoff)| |].
  { cbn. unfold BLOCK_CACHE_SIZE. lia. }
  { lia. }
  { intros st1 Hr1. destruct (Hf st1 Hr1) as (st2 & E & Hr2). exists v, st2, d.
    rewrite (inode_slice d i b Hb). by split_and!. }
  by exists st'.
Qed.

Lemma read_inode_panics {V} st d F i f0 (f : DiskInode -> CacheManager D -> outcome (V * CacheManager D)) :
  repr st d [] -> fs_inv fs area d F -> F !! i = Some f0 ->
  (forall st1, repr st1 d [inode_block fs i] -> f (inode_at fs d i) st1 = Panic) ->
  Vfs.read_disk_inode (vnode i) f st = Panic.
Proof.
  intros Hr HI Hi Hf. pose proof (inv_id _ _ _ _ HI Hi) as Hir. pose proof (inode_offset_range i) as Hoff.
  destruct (inode_block_there fs area G d i (fi_there _ _ _ _ HI) Hir) as [b Hb].
  unfold Vfs.read_disk_inode, vnode, Vfs.inode_new. rewrite (get_disk_inode_pos_eq fs area G) by done.
  cbn [fst snd Vfs.block_id Vfs.block_offset].
  apply (read_panics st d [] (inode_block fs i) (inode_offset i) b f Hr Hb (not_elem_of_nil _));
    [cbn; unfold BLOCK_CACHE_SIZE; lia|lia|exact (proj2 Hoff)|].
  intros st1 Hr1. rewrite (inode_slice d i b Hb). by apply Hf.
Qed.

Lemma modify_inode_panics {V} st d F i f0 (f : DiskInode -> CacheManager D -> outcome (V * DiskInode * CacheManager D)) :
  repr st d [] -> fs_inv fs area d F -> F !! i = Some f0 ->
  (forall st1, repr st1 d [inode_block fs i] -> f (inode_at fs d i) st1 = Panic) ->
  Vfs.modify_disk_inode (vnode i) f st = Panic.
Proof.
  intros Hr HI Hi Hf. pose proof (inv_id _ _ _ _ HI Hi) as Hir. pose proof (inode_offset_range i) as Hoff.
  destruct (inode_block_there fs area G d i (fi_there _ _ _ _ HI) Hir) as [b Hb].
  unfold Vfs.modify_disk_inode, vnode, Vfs.inode_new. rewrite (get_disk_inode_pos_eq fs area G) by done.
  cbn [fst snd Vfs.block_id Vfs.block_offset].
  apply (modify_panics st d [] (inode_block fs i) (inode_offset i) b f Hr Hb (not_elem_of_nil _));
    [cbn; unfold BLOCK_CACHE_SIZE; lia|lia|exact (proj2 Hoff)|].
  intros st1 Hr1. rewrite (inode_slice d i b Hb). by apply Hf.
Qed.

Lemma own_unlocked d F i t c :
  fs_inv fs area d F -> F !! i = Some (t, c) ->
  unlocked d (inode_at fs d i) (data_blocks (inode_at fs d i)) [inode_block fs i].
Proof.
  intros HI Hi id Hid ->%list_elem_of_singleton. pose proof (inv_id _ _ _ _ HI Hi) as Hir.
  apply (area_not_inode fs area G (inode_block fs i) i); [|done|done]. apply (dm_area _ _ _ _ (fi_data _ _ _ _ HI)).
  apply elem_all_owned. exists i. split; [by apply elem_of_dom_2 in Hi|done].
Qed.

(** *** [read_at] *)

Lemma file_read st d F i t c off len :
  repr st d [inode_block fs i] -> fs_inv fs area d F -> F !! i = Some (t, c) ->
  0 <= off -> 0 <= len -> off + len < 2 ^ 64 ->
  exists st', EfsLayout.read_at (inode_at fs d i) off len st = Ret (slice c off len, st') /\
    repr st' d [inode_block fs i].
Proof.
  intros Hr HI Hi Ho Hl Hw. assert (Hf : file_ok d (inode_at fs d i) t c) by (by apply (fi_files _ _ _ _ HI i (t, c))).
  destruct (read_at_spec st d [inode_block fs i] (inode_at fs d i) off len Hr (fo_inode _ _ _ _ Hf)
              (own_unlocked d F i t c HI Hi)) as (st' & E & Hr').
  { cbn. unfold BLOCK_CACHE_SIZE. lia. }
  { by eapply file_size_range. }
  { lia. } { lia. } { lia. }
  exists st'. rewrite E, (file_take _ _ _ _ Hf). done.
Qed.

Lemma vfs_read_spec st d F i t c off len :
  repr st d [] -> fs_inv fs area d F -> F !! i = Some (t, c) -> 0 <= off -> 0 <= len -> off + len < 2 ^ 64 ->
  exists st', Vfs.read_at (vnode i) off len st = Ret (slice c off len, st') /\ repr st' d [].
Proof.
  intros Hr HI Hi Ho Hl Hw. unfold Vfs.read_at. eapply read_inode_spec; [done..|]. intros st1 Hr1. by eapply file_read.
Qed.

(** *** [write_at] *)

Lemma write_mid st d F i t c d1 di1 off buf :
  repr st d1 [inode_block fs i] -> fs_inv fs area d F -> F !! i = Some (t, c) ->
  forall c1, mid fs area d F i t d1 di1 c1 -> 0 <= off -> buf <> [] ->
  off + Z.of_nat (length buf) <= Z.of_nat (length c1) -> Forall (in_width 8) buf ->
  exists st2 d2, EfsLayout.write_at di1 off buf st = Ret (Z.of_nat (length buf), st2) /\
    repr st2 d2 [inode_block fs i] /\ mid fs area d F i t d2 di1 (splice c1 off buf).
Proof.
  intros Hr HI Hi c1 HM Ho Hne Hlen Hb. pose proof HM as []. pose proof mi_file as [].
  pose proof (inv_id _ _ _ _ HI Hi) as Hir. set (n := data_blocks di1) in *.
  assert (Hblk : forall id, id ∈ blocks_of d1 di1 n -> id ∈ owned d1 di1 n) by (intros id Hid; apply elem_of_app; by left).
  assert (Hown : forall id, id ∈ owned d1 di1 n -> in_area fs area id).
  { intros id Hid. apply (dm_area _ _ _ _ mi_data), elem_of_app. by left. }
  destruct (write_at_spec st d1 [inode_block fs i] di1 off buf Hr fo_inode) as (st2 & d2 & E & Hr2 & HW).
  { intros id Hid ->%list_elem_of_singleton. by apply (area_not_inode fs area G _ i (Hown _ Hid) Hir). }
  { cbn. unfold BLOCK_CACHE_SIZE. lia. }
  { by eapply file_size_range. }
  { lia. } { done. } { lia. } { done. }
  fold n in HW. pose proof (owned_written _ _ _ _ _ fo_inode HW) as Eo. pose proof HW as [Hok2 _ [Hfr Hdom] Hbytes].
  exists st2, d2. split_and!; [done..|].
  assert (Hlc : length (splice c1 off buf) = length c1) by (apply length_splice; lia).
  assert (Hout : forall id, id ∉ owned d1 di1 n -> d2 !! id = d1 !! id).
  { intros id Hid. apply Hfr. intros Hx. by apply Hid, Hblk. }
  split.
  - split; fold n; rewrite ?Hlc; try done. rewrite Hbytes, fo_bytes. by rewrite splice_app_l by lia.
  - fold n. rewrite Eo. eapply data_map_ext; [exact mi_data| |].
    + intros id Hid. apply Hout. intros Hx%Hown. by apply (area_not_data_bitmap fs area G id).
    + intros id _ Hid. apply Hout. intros Hx. apply Hid, elem_of_app. by left.
  - intros id Ha Hbm. rewrite Hout; [by apply mi_out|]. intros Hx. by apply Ha, Hown.
  - intros id Hid. rewrite Hout; [by apply mi_files|]. intros Hx.
    pose proof (dm_nodup _ _ _ _ mi_data) as (_ & Hdis & _)%NoDup_app. by apply (Hdis id).
  - intros id. by rewrite Hdom.
Qed.

Lemma vfs_write_spec st d F i t c off buf :
  repr st d [] -> fs_inv fs area d F -> F !! i = Some (t, c) -> 0 <= off -> buf <> [] ->
  off + Z.of_nat (length buf) <= MAX_BLOCKS * 512 -> Forall (in_width 8) buf ->
  space (<[i := (t, write_bytes c off buf)]> F) <= area ->
  exists st' d', Vfs.write_at fs (vnode i) off buf st = Ret (Z.of_nat (length buf), st') /\ repr st' d' [] /\
    fs_inv fs area d' (<[i := (t, write_bytes c off buf)]> F) /\ dev_view (block_device st') = d'.
Proof.
  intros Hr HI Hi Ho Hne Hmax Hb Hsp. set (ns := off + Z.of_nat (length buf)) in *.
  assert (Hm : MAX_BLOCKS = 16540) by done.
  assert (Eg : write_bytes c off buf = splice (grow_bytes c ns) off buf) by done.
  assert (Hcost : cost (t, write_bytes c off buf) = cost (t, grow_bytes c ns)).
  { unfold cost. cbn [snd]. do 2 f_equal. rewrite Eg. rewrite length_splice; [done|lia|].
    unfold grow_bytes. rewrite length_app, length_replicate. lia. }
  destruct (modify_inode_spec st d F i t c (Z.of_nat (length buf)) (write_bytes c off buf) (Vfs.write_closure fs off buf) Hr HI Hi)
    as (st1 & d1 & E1 & Hr1 & HI1).
  { intros st0 Hr0. unfold Vfs.write_closure. fold ns.
    assert (wrap 32 (wrap 64 ns) = ns) as -> by (unfold wrap; rewrite (Z.mod_small ns), Z.mod_small by lia; done).
    destruct (increase_mid st0 d F i t c ns Hr0 HI Hi ltac:(lia)) as (di1 & st2 & d2 & -> & Hr2 & HM).
    { rewrite (space_update _ _ _ _ Hi) in Hsp. rewrite (space_update _ _ _ _ Hi). lia. }
    cbn [mbind outcome_bind].
    destruct (write_mid st2 d F i t c d2 di1 off buf Hr2 HI Hi _ HM Ho Hne) as (st3 & d3 & -> & Hr3 & HM3); [|done|].
    { fold ns. unfold grow_bytes. rewrite length_app, length_replicate. lia. }
    cbn [mbind outcome_bind]. rewrite Eg. by exists di1, st3, d3. }
  destruct (sync_all_spec st1 d1 Hr1) as (st2 & E2 & Hr2 & Hv). exists st2, d1.
  unfold Vfs.write_at. rewrite E1. cbn [mbind outcome_bind]. rewrite E2. by split_and!.
Qed.

(** *** [clear] *)

Lemma clear_mid st d F i t c :
  repr st d [inode_block fs i] -> fs_inv fs area d F -> F !! i = Some (t, c) ->
  exists di1 st1 d1, Vfs.clear_closure fs (inode_at fs d i) st = Ret (tt, di1, st1) /\ repr st1 d1 [inode_block fs i] /\
    mid fs area d F i t d1 di1 [].
Proof.
  intros Hr HI Hi. pose proof HI as []. set (di := inode_at fs d i).
  assert (Hf : file_ok d di t c) by (by apply (fi_files i (t, c))).
  pose proof (inv_id _ _ _ _ HI Hi) as Hir. pose proof (own_unlocked d F i t c HI Hi) as Hun. fold di in Hun.
  pose proof (file_size_range _ _ _ _ Hf) as Hsz. assert (Hm : MAX_BLOCKS = 16540) by done.
  destruct (clear_size_spec st d [inode_block fs i] di Hr (fo_inode _ _ _ _ Hf) Hun) as (v & di1 & st1 & E1 & Hr1 & Hv & Hs1 & Ht1 & Hf1).
  { cbn. unfold BLOCK_CACHE_SIZE. lia. }
  unfold Vfs.clear_closure. rewrite E1. cbn [mbind outcome_bind].
  rewrite (total_blocks_owned d di) by lia. change (_data_blocks (size di)) with (data_blocks di).
  rewrite (Permutation_length Hv), Z.eqb_refl. cbn [assert_ mbind outcome_bind].
  rewrite (all_owned_delete fs d F i (t, c) Hi) in fi_data. unfold own in fi_data. fold di in fi_data. rewrite <- Hv in fi_data.
  assert (Hva : forall id, id ∈ v -> in_area fs area id).
  { intros id Hid. apply (dm_area _ _ _ _ fi_data), elem_of_app. by left. }
  destruct (dealloc_all_spec fs area G v st1 d [inode_block fs i] _ Hr1 fi_there fi_data) as (st2 & d2 & -> & Hr2 & HU & Hout & Hdom).
  { intros id Hid ->%list_elem_of_singleton. by apply (inode_not_data_bitmap fs area G i Hir). }
  { intros id Hid ->%list_elem_of_singleton. by apply (area_not_inode fs area G _ i (Hva _ Hid) Hir). }
  { cbn. unfold BLOCK_CACHE_SIZE. lia. }
  cbn [mbind outcome_bind]. exists di1, st2, d2. split_and!; [done..|].
  assert (Hn : data_blocks di1 = 0) by (unfold data_blocks; rewrite Hs1; done).
  split.
  - split; rewrite ?Hn.
    + rewrite Ht1. apply Hf.
    + exact Hs1.
    + cbn. lia.
    + split; [done|lia|apply NoDup_nil_2|]. intros id []%not_elem_of_nil.
    + done.
  - rewrite Hn. exact HU.
  - intros id Ha Hb. apply Hout; [|done]. intros Hx. by apply Ha, Hva.
  - intros id Hid. apply Hout.
    + intros Hx. pose proof (dm_nodup _ _ _ _ fi_data) as (_ & Hdis & _)%NoDup_app. by apply (Hdis id).
    + apply (area_not_data_bitmap fs area G), (dm_area _ _ _ _ fi_data), elem_of_app. by right.
  - exact Hdom.
Qed.

Lemma vfs_clear_spec st d F i t c :
  repr st d [] -> fs_inv fs area d F -> F !! i = Some (t, c) ->
  exists st' d', Vfs.clear fs (vnode i) st = Ret st' /\ repr st' d' [] /\ fs_inv fs area d' (<[i := (t, [])]> F) /\
    dev_view (block_device st') = d'.
Proof.
  intros Hr HI Hi. destruct (modify_inode_spec st d F i t c tt [] (Vfs.clear_closure fs) Hr HI Hi) as (st1 & d1 & E1 & Hr1 & HI1).
  { intros st0 Hr0. by apply (clear_mid _ _ _ _ _ _ Hr0 HI Hi). }
  destruct (sync_all_spec st1 d1 Hr1) as (st2 & E2 & Hr2 & Hv). exists st2, d1.
  unfold Vfs.clear. rewrite E1. cbn [mbind outcome_bind]. by split_and!.
Qed.

End Ops.
