(* ===== verification/EfsDir.v ===== *)
(** * The root directory

    A directory is a file of 32-byte entries, a name padded with zeros to 28
    bytes and an inode number.  [dir_bytes] encodes a list of entries;
    [Inode::find], [ls] and [create] of [vfs.rs] search, list and extend it. *)
From S2P Require Import Prelude Utf8 EfsCache EfsCacheFacts EfsWords EfsBitmap EfsLayout EfsInodeFacts EfsGrow EfsFileFacts EfsVfs EfsAlloc EfsInv EfsOps.
Import EfsCache EfsBitmap EfsLayout Efs.

(** ** Entries *)

(** A name that [DirEntry] can hold and give back. *)
Definition name_ok (name : list Z) : Prop :=
  Forall (fun b => 0 < b < 256) name /\ (length name <= 27)%nat /\ from_utf8 (S (length name)) name <> None.

#[export] Instance name_ok_dec name : Decision (name_ok name).
Proof. unfold name_ok. apply _. Defined.

Definition pad_name (name : list Z) : list Z := name ++ replicate (28 - length name) 0.
Definition entry_of (e : list Z * Z) : DirEntry := mkDirEntry (pad_name e.1) e.2.
Definition entry_bytes (e : list Z * Z) : list Z := as_bytes (entry_of e).
Definition dir_bytes (es : list (list Z * Z)) : list Z := concat (entry_bytes <$> es).

(** What an entry can store, and what it can also give back: a name of 28 bytes
    leaves no room for the terminator. *)
Definition entry_fits (e : list Z * Z) : Prop :=
  Forall (fun b => 0 < b < 256) e.1 /\ (length e.1 <= 28)%nat /\ in_width 32 e.2.
Definition entry_good (e : list Z * Z) : Prop := name_ok e.1 /\ in_width 32 e.2.

Lemma entry_good_fits e : entry_good e -> entry_fits e.
Proof. intros [(? & ? & _) ?]. split_and!; [done|lia|done]. Qed.

Lemma entries_good_fit es : Forall entry_good es -> Forall entry_fits es.
Proof. intros H. eapply Forall_impl; [exact H|apply entry_good_fits]. Qed.

Lemma length_pad_name name : (length name <= 28)%nat -> length (pad_name name) = 28%nat.
Proof. intros H. unfold pad_name. rewrite length_app, length_replicate. lia. Qed.

Lemma length_entry_bytes e : entry_fits e -> length (entry_bytes e) = 32%nat.
Proof.
  intros (_ & Hl & _). unfold entry_bytes, as_bytes, entry_of. cbn [name_bytes inode_number].
  rewrite length_app, length_pad_name, length_le_bytes by lia. done.
Qed.

Lemma dirent_of_entry_bytes e : entry_fits e -> dirent_of_bytes (entry_bytes e) = entry_of e.
Proof.
  intros (_ & Hl & Hw). unfold dirent_of_bytes, entry_bytes, as_bytes, entry_of. cbn [name_bytes inode_number].
  pose proof (length_pad_name e.1 ltac:(lia)) as Hp. rewrite take_app_length' by done. rewrite drop_app_length' by done.
  rewrite take_ge by (rewrite length_le_bytes by lia; done). by rewrite le_bytes_value by (done || lia).
Qed.

Lemma dirent_new_ok name i : (length name <= 28)%nat -> dirent_new name i = Ret (entry_of (name, i)).
Proof.
  intros H. unfold dirent_new. change (NAME_LENGTH_LIMIT + 1) with 28. destruct (Z.leb_spec (Z.of_nat (length name)) 28); [done|lia].
Qed.

Lemma list_find_pad name :
  Forall (fun b => 0 < b < 256) name -> (length name <= 27)%nat ->
  list_find (fun b => b = 0) (pad_name name) = Some (length name, 0).
Proof.
  intros Hb Hl. apply list_find_Some. split_and!; [|done|].
  - unfold pad_name. rewrite lookup_app_r, Nat.sub_diag by lia. apply lookup_replicate_2. lia.
  - intros j y Hj Hlt. unfold pad_name in Hj. rewrite lookup_app_l in Hj by done.
    apply (Forall_lookup_1 _ _ _ _ Hb) in Hj. lia.
Qed.

Lemma dirent_name_ok e : entry_good e -> dirent_name (entry_of e) = Ret e.1.
Proof.
  intros [(Hb & Hl & Hu) _]. unfold dirent_name, entry_of. cbn [name_bytes]. rewrite list_find_pad by done.
  cbn [unwrap mbind outcome_bind]. unfold pad_name. rewrite take_app_length.
  destruct (from_utf8 _ _); [done|by contradict Hu].
Qed.

Lemma length_dir_bytes es : Forall entry_fits es -> length (dir_bytes es) = (32 * length es)%nat.
Proof.
  induction 1 as [|e es He _ IH]; [done|]. unfold dir_bytes in *. cbn [fmap list_fmap concat].
  rewrite length_app, IH, length_entry_bytes by done. cbn. lia.
Qed.

Lemma slice_dir_bytes es : Forall entry_fits es -> forall k e, es !! k = Some e ->
  slice (dir_bytes es) (32 * Z.of_nat k) 32 = entry_bytes e.
Proof.
  induction 1 as [|e0 es He Hes IH]; intros k e Hk; [done|]. unfold dir_bytes in *. cbn [fmap list_fmap concat].
  pose proof (length_entry_bytes e0 He) as Hl. destruct k as [|k]; cbn in Hk.
  - injection Hk as <-. rewrite slice_app_l by lia. replace 32 with (Z.of_nat (length (entry_bytes e0))) at 2 by lia.
    apply slice_all.
  - rewrite slice_app_r by lia. rewrite <- (IH k e Hk). f_equal. lia.
Qed.

Lemma entry_bytes_range e : entry_fits e -> Forall (in_width 8) (entry_bytes e).
Proof.
  intros (Hb & _ & _). unfold entry_bytes, as_bytes, entry_of, pad_name. cbn [name_bytes inode_number].
  rewrite !Forall_app. split_and!.
  - eapply Forall_impl; [exact Hb|]. unfold in_width. lia.
  - by apply Forall_replicate.
  - by apply le_bytes_range.
Qed.

Lemma dir_bytes_snoc es e : dir_bytes (es ++ [e]) = dir_bytes es ++ entry_bytes e.
Proof. unfold dir_bytes. rewrite fmap_app, concat_app. cbn. by rewrite app_nil_r. Qed.

(** ** Searching *)

Definition dir_find (name : list Z) (es : list (list Z * Z)) : option Z :=
  (fun p => p.2.2) <$> list_find (fun e => e.1 = name) es.

Lemma dir_find_None name es : dir_find name es = None <-> name ∉ es.*1.
Proof.
  unfold dir_find. rewrite fmap_None, list_find_None, Forall_forall. split.
  - intros H (e & -> & He)%list_elem_of_fmap. by apply (H e He).
  - intros H e He <-. apply H, list_elem_of_fmap. by exists e.
Qed.

Section Dir.
Context {D : Type} {BD : BlockDevice D} {BL : BlockDeviceLaws D}.
Context (fs : EasyFileSystem) (area : Z) (G : geometry fs area).
Implicit Type st : CacheManager D.

Section Reading.
Context (d : gmap Z (list Z)) (F : Files) (i : Z) (es : list (list Z * Z)).
Context (HI : fs_inv fs area d F) (Hi : F !! i = Some (Directory, dir_bytes es)) (Hes : Forall entry_fits es).

Lemma dir_count : size (inode_at fs d i) / DIRENT_SZ = Z.of_nat (length es).
Proof.
  pose proof (fi_files _ _ _ _ HI i _ Hi) as Hf. rewrite (fo_size _ _ _ _ Hf). cbn [snd].
  rewrite length_dir_bytes by done. unfold DIRENT_SZ. lia_mod.
Qed.

Lemma dir_length_max : 32 * Z.of_nat (length es) <= MAX_BLOCKS * 512.
Proof.
  pose proof (fi_files _ _ _ _ HI i _ Hi) as Hf. pose proof (fo_max _ _ _ _ Hf) as H. cbn [snd] in H.
  rewrite length_dir_bytes in H by done. lia.
Qed.

Lemma read_dirent_spec st k e :
  repr st d [inode_block fs i] -> es !! k = Some e ->
  exists st', Vfs.read_dirent (inode_at fs d i) (Z.of_nat k) st = Ret (entry_of e, st') /\ repr st' d [inode_block fs i].
Proof.
  intros Hr Hk. pose proof dir_length_max as Hm. assert (MAX_BLOCKS = 16540) by done.
  pose proof (lookup_lt_Some _ _ _ Hk) as Hlt. unfold Vfs.read_dirent, DIRENT_SZ.
  assert (wrap 64 (32 * Z.of_nat k) = 32 * Z.of_nat k) as -> by (unfold wrap; apply Z.mod_small; lia).
  destruct (file_read fs area G st d F i _ _ (32 * Z.of_nat k) 32 Hr HI Hi) as (st' & -> & Hr'); [lia..|].
  cbn [mbind outcome_bind]. rewrite (slice_dir_bytes es Hes k e Hk).
  pose proof (Forall_lookup_1 _ _ _ _ Hes Hk) as He. rewrite length_entry_bytes by done.
  change (Z.of_nat 32 =? 32) with true. cbn [assert_ mbind outcome_bind].
  exists st'. by rewrite dirent_of_entry_bytes.
Qed.

Lemma find_loop_spec name m : Forall entry_good es -> forall st k,
  repr st d [inode_block fs i] -> (k + m = length es)%nat ->
  exists st', Vfs.find_loop name (inode_at fs d i) (seqZ (Z.of_nat k) (Z.of_nat m)) st
    = Ret (dir_find name (drop k es), st') /\ repr st' d [inode_block fs i].
Proof.
  intros Hgood. induction m as [|m IH]; intros st k Hr Hkm.
  { rewrite seqZ_nil by lia. rewrite drop_ge by lia. by exists st. }
  rewrite seqZ_cons by lia. cbn [Vfs.find_loop].
  destruct (lookup_lt_is_Some_2 es k) as [e He]; [lia|].
  destruct (read_dirent_spec st k e Hr He) as (st1 & -> & Hr1). cbn [mbind outcome_bind].
  pose proof (Forall_lookup_1 _ _ _ _ Hgood He) as Hfit. rewrite dirent_name_ok by done. cbn [mbind outcome_bind].
  rewrite (drop_S es e k He). unfold dir_find. cbn [list_find].
  destruct (decide (e.1 = name)) as [En|En].
  - rewrite bool_decide_eq_true_2 by done. exists st1. done.
  - rewrite bool_decide_eq_false_2 by done. destruct (IH st1 (S k) Hr1 ltac:(lia)) as (st2 & E & Hr2).
    exists st2. split; [|done]. replace (Z.succ (Z.of_nat k)) with (Z.of_nat (S k)) by lia.
    replace (Z.pred (Z.of_nat (S m))) with (Z.of_nat m) by lia. rewrite E. unfold dir_find.
    by destruct (list_find _ (drop (S k) es)) as [[? ?]|].
Qed.

Lemma find_inode_id_spec st name :
  Forall entry_good es -> repr st d [inode_block fs i] ->
  exists st', Vfs.find_inode_id name (inode_at fs d i) st = Ret (dir_find name es, st') /\ repr st' d [inode_block fs i].
Proof.
  intros Hgood Hr. unfold Vfs.find_inode_id, is_dir. pose proof (fi_files _ _ _ _ HI i _ Hi) as Hf.
  rewrite (fo_type _ _ _ _ Hf). cbn [fst]. rewrite bool_decide_eq_true_2 by done. cbn [assert_ mbind outcome_bind].
  rewrite dir_count. by apply (find_loop_spec name (length es) Hgood st 0).
Qed.

Lemma ls_loop_spec m : Forall entry_good es -> forall st k v,
  repr st d [inode_block fs i] -> (k + m = length es)%nat ->
  exists st', Vfs.ls_loop (inode_at fs d i) (seqZ (Z.of_nat k) (Z.of_nat m)) v st = Ret (v ++ (drop k es).*1, st') /\
    repr st' d [inode_block fs i].
Proof.
  intros Hgood. induction m as [|m IH]; intros st k v Hr Hkm.
  { rewrite seqZ_nil by lia. rewrite drop_ge by lia. cbn. rewrite app_nil_r. by exists st. }
  rewrite seqZ_cons by lia. cbn [Vfs.ls_loop].
  destruct (lookup_lt_is_Some_2 es k) as [e He]; [lia|].
  destruct (read_dirent_spec st k e Hr He) as (st1 & -> & Hr1). cbn [mbind outcome_bind].
  pose proof (Forall_lookup_1 _ _ _ _ Hgood He) as Hfit. rewrite dirent_name_ok by done. cbn [mbind outcome_bind].
  destruct (IH st1 (S k) (v ++ [e.1]) Hr1 ltac:(lia)) as (st2 & E & Hr2). exists st2. split; [|done].
  replace (Z.succ (Z.of_nat k)) with (Z.of_nat (S k)) by lia. replace (Z.pred (Z.of_nat (S m))) with (Z.of_nat m) by lia.
  rewrite E, (drop_S es e k He), <- app_assoc. done.
Qed.

Lemma vfs_find_spec st name :
  Forall entry_good es -> repr st d [] -> exists st', Vfs.find fs (vnode fs i) name st = Ret (vnode fs <$> dir_find name es, st') /\ repr st' d [].
Proof.
  intros Hgood Hr. unfold Vfs.find. eapply read_inode_spec; [done..|]. intros st1 Hr1. unfold Vfs.find_closure.
  destruct (find_inode_id_spec st1 name Hgood Hr1) as (st2 & -> & Hr2). cbn [mbind outcome_bind]. exists st2. split; [|done].
  by destruct (dir_find name es).
Qed.

Lemma vfs_ls_spec st :
  Forall entry_good es -> repr st d [] -> exists st', Vfs.ls (vnode fs i) st = Ret (es.*1, st') /\ repr st' d [].
Proof.
  intros Hgood Hr. unfold Vfs.ls. eapply read_inode_spec; [done..|]. intros st1 Hr1. rewrite dir_count.
  by apply (ls_loop_spec (length es) Hgood st1 0 []).
Qed.

End Reading.

(** ** Creating *)

(** The number [alloc_inode] will give out. *)
Definition fresh_inode (F : Files) : option Z := snd <$> list_find (fun k => k ∉ dom F) (seqZ 0 (inode_count fs)).

Lemma alloc_inode_spec st d F :
  repr st d [] -> fs_inv fs area d F ->
  match fresh_inode F with
  | Some i => exists st' d', alloc_inode fs st = Ret (i, st') /\ repr st' d' [] /\ 0 <= i < inode_count fs /\ F !! i = None /\
      only_bitmap d d' (inode_bitmap fs) /\ tracks d' (inode_bitmap fs) ({[i]} ∪ dom F)
  | None => alloc_inode fs st = Panic
  end.
Proof.
  intros Hr []. pose proof (inode_bitmap_ok fs area G d fi_there) as Hbm.
  pose proof (bitmap_op_refines st d (inode_bitmap fs) (dom F) BmAlloc Hr Hbm fi_inodes I) as H. unfold fresh_inode, alloc_inode.
  cbn [run_bitmap_op set_op] in H. unfold inode_count. rewrite (Z.mul_comm 4096).
  destruct (list_find _ _) as [[j i]|] eqn:Ef; cbn [fmap option_fmap option_map snd].
  - destruct H as (st' & d' & -> & Hr' & Ho & Ht). apply list_find_Some in Ef as (Hl & Hn & _).
    apply list_elem_of_lookup_2, elem_of_seqZ in Hl. cbn [mbind outcome_bind unwrap]. exists st', d'.
    rewrite wrap32_small by (destruct G; lia). split_and!; try done; [lia|lia|by apply not_elem_of_dom|apply Ho..].
  - destruct H as (st' & d' & -> & _). done.
Qed.

Lemma initialize_ok t : inode_fields_ok (initialize t).
Proof.
  split; [done|]. unfold inode_words, initialize. cbn [size direct indirect1 indirect2].
  apply Forall_cons. split; [done|]. apply Forall_app. split; [by apply Forall_replicate|by repeat constructor].
Qed.

Lemma empty_file_ok d t : file_ok d (initialize t) t [].
Proof.
  split; try done. split; [apply initialize_ok|done|apply NoDup_nil_2|]. intros id []%not_elem_of_nil.
Qed.

(** A fresh inode is an empty file. *)
Lemma inv_new_file d F i t d1 :
  fs_inv fs area d F -> 0 <= i < inode_count fs -> F !! i = None -> map_Forall (fun _ => block_ok) d1 ->
  only_bitmap d d1 (inode_bitmap fs) -> tracks d1 (inode_bitmap fs) ({[i]} ∪ dom F) ->
  fs_inv fs area (inode_store fs d1 i (initialize t)) (<[i := (t, [])]> F).
Proof.
  intros [] Hir Hi Hok1 [Ho1 Hdom1] Ht. set (d2 := inode_store fs d1 i (initialize t)).
  assert (Hd1 : disk_there fs area d1) by (by eapply disk_there_dom).
  destruct (inode_block_there fs area G d1 i Hd1 Hir) as [b Hb].
  assert (Hat : forall j, 0 <= j < inode_count fs -> inode_at fs d2 j = if decide (j = i) then initialize t else inode_at fs d j).
  { intros j Hj. unfold d2. rewrite (inode_at_store fs d1 i (initialize t) b j Hb); [|by eapply Hok1|apply initialize_ok|lia..].
    case_decide; [done|]. apply inode_at_ext, Ho1. by apply (inode_not_inode_bitmap fs area G). }
  assert (Hsame : forall id, id <> inode_block fs i -> ~ in_bitmap (inode_bitmap fs) id -> d2 !! id = d !! id).
  { intros id Hne Hnb. unfold d2. rewrite inode_store_ne by done. by apply Ho1. }
  assert (Harea : forall id, in_area fs area id -> d2 !! id = d !! id).
  { intros id Ha. apply Hsame; [by apply (area_not_inode fs area G)|by apply (area_not_inode_bitmap fs area G)]. }
  assert (Hold : forall j f, F !! j = Some f -> own fs d2 j = own fs d j /\ file_ok d2 (inode_at fs d2 j) f.1 f.2).
  { intros j f Hj. pose proof (elem_of_dom_2 _ _ _ Hj) as Hjd. unfold own.
    rewrite Hat, decide_False by (try apply fi_ids; try done; congruence).
    apply file_ok_ext; [by apply (fi_files j f)|]. intros id Hid. apply Harea, (dm_area _ _ _ _ fi_data), elem_all_owned. by exists j. }
  assert (Ei : inode_at fs d2 i = initialize t) by (rewrite Hat, decide_True by done; done).
  split.
  - destruct fi_super as (b0 & H0 & Hopen). exists b0. split; [|exact Hopen].
    pose proof (inode_block_range fs area G i Hir). rewrite Hsame; [done|destruct G; lia|]. unfold in_bitmap. destruct G; lia.
  - eapply disk_there_dom; [exact Hd1|]. intros id. apply inode_store_dom. by exists b.
  - intros j. rewrite dom_insert, elem_of_union, elem_of_singleton. intros [->|Hj]; [done|by apply fi_ids].
  - rewrite dom_insert_L. eapply tracks_ext; [exact Ht|]. intros id Hid. apply inode_store_ne. intros ->.
    by apply (inode_not_inode_bitmap fs area G i Hir).
  - intros j f. destruct (decide (j = i)) as [->|Hji].
    + rewrite lookup_insert_eq. intros [= <-]. rewrite Ei. apply empty_file_ok.
    + rewrite lookup_insert_ne by done. intros Hj. by apply Hold.
  - rewrite all_owned_insert by done. unfold own. rewrite Ei. change (owned d2 (initialize t) _) with (@nil Z).
    cbn [app]. rewrite (all_owned_ext fs d d2) by (intros j [f Hj]%elem_of_dom; by apply (Hold j f)).
    eapply data_map_ext; [exact fi_data| |intros; by apply Harea]. intros id Hid. apply Hsame.
    + intros ->. by apply (inode_not_data_bitmap fs area G i Hir).
    + by apply (bitmaps_apart fs area G).
Qed.

Lemma set_inode_spec st d i t :
  repr st d [] -> disk_there fs area d -> 0 <= i < inode_count fs ->
  exists st', modify (T := DiskInode) st (inode_block fs i) (inode_offset i) (set_inode t) = Ret (tt, st') /\
    repr st' (inode_store fs d i (initialize t)) [].
Proof.
  intros Hr Hd Hir. pose proof (inode_offset_range i) as Hoff. destruct (inode_block_there fs area G d i Hd Hir) as [b Hb].
  destruct (modify_pure st d [] (inode_block fs i) (inode_offset i) b (fun _ => tt) (fun _ => initialize t) Hr Hb)
    as (st' & E & Hr').
  { apply not_elem_of_nil. } { cbn. unfold BLOCK_CACHE_SIZE. lia. } { lia. } { exact (proj2 Hoff). } { exact (initialize_ok t). }
  exists st'. split; [exact E|]. unfold inode_store, blk. by rewrite Hb.
Qed.

(** Appending an entry: the second closure of [create]. *)
Lemma append_mid st d F i es name k :
  repr st d [inode_block fs i] -> fs_inv fs area d F -> F !! i = Some (Directory, dir_bytes es) -> Forall entry_fits es ->
  entry_fits (name, k) -> 32 * (Z.of_nat (length es) + 1) <= MAX_BLOCKS * 512 ->
  space (<[i := (Directory, dir_bytes (es ++ [(name, k)]))]> F) <= area ->
  exists di1 st1 d1, Vfs.create_append fs name k (inode_at fs d i) st = Ret (tt, di1, st1) /\ repr st1 d1 [inode_block fs i] /\
    mid fs area d F i Directory d1 di1 (dir_bytes (es ++ [(name, k)])).
Proof.
  intros Hr HI Hi Hes He Hmax Hsp. pose proof (length_dir_bytes es Hes) as Hl. pose proof (length_entry_bytes _ He) as Hle.
  unfold Vfs.create_append. rewrite (dir_count d F i es HI Hi Hes). unfold DIRENT_SZ.
  set (n := Z.of_nat (length es)) in *. assert (Hm : MAX_BLOCKS = 16540) by done. rewrite wrap32_small by lia.
  assert (Hlen : length (grow_bytes (dir_bytes es) ((n + 1) * 32)) = length (dir_bytes (es ++ [(name, k)]))).
  { rewrite dir_bytes_snoc, length_app, Hle. unfold grow_bytes. rewrite length_app, length_replicate. lia. }
  destruct (increase_mid fs area G st d F i Directory (dir_bytes es) ((n + 1) * 32) Hr HI Hi ltac:(lia))
    as (di1 & st1 & d1 & -> & Hr1 & HM).
  { rewrite (space_update _ _ _ _ Hi) in Hsp. rewrite (space_update _ _ _ _ Hi). unfold cost in *. cbn [snd] in *. by rewrite Hlen. }
  cbn [mbind outcome_bind]. rewrite dirent_new_ok by apply He. cbn [mbind outcome_bind].
  change (as_bytes (entry_of (name, k))) with (entry_bytes (name, k)).
  destruct (write_mid fs area G st1 d F i Directory _ d1 di1 (n * 32) (entry_bytes (name, k)) Hr1 HI Hi _ HM)
    as (st2 & d2 & -> & Hr2 & HM2).
  { lia. } { intros E. by rewrite E in Hle. } { rewrite length_grow_bytes; lia. } { by apply entry_bytes_range. }
  cbn [mbind outcome_bind]. exists di1, st2, d2. split_and!; [done..|].
  assert (E : splice (grow_bytes (dir_bytes es) ((n + 1) * 32)) (n * 32) (entry_bytes (name, k)) = dir_bytes (es ++ [(name, k)])).
  { unfold grow_bytes. rewrite splice_app_r by lia. rewrite dir_bytes_snoc. f_equal. unfold splice.
    replace (Z.to_nat (n * 32 - _)) with 0%nat by lia. cbn [take app].
    rewrite drop_ge by (rewrite length_replicate; lia). by rewrite app_nil_r. }
  by rewrite <- E.
Qed.

Lemma mid_check st d F i es name :
  repr st d [inode_block fs i] -> fs_inv fs area d F -> F !! i = Some (Directory, dir_bytes es) -> Forall entry_good es ->
  exists di1 st1 d1, Vfs.create_check name (inode_at fs d i) st = Ret (dir_find name es, di1, st1) /\
    repr st1 d1 [inode_block fs i] /\ mid fs area d F i Directory d1 di1 (dir_bytes es).
Proof.
  intros Hr HI Hi Hgood. pose proof (entries_good_fit es Hgood) as Hes. unfold Vfs.create_check, is_dir. pose proof (fi_files _ _ _ _ HI i _ Hi) as Hf.
  rewrite (fo_type _ _ _ _ Hf). cbn [fst]. rewrite bool_decide_eq_true_2 by done. cbn [assert_ mbind outcome_bind].
  destruct (find_inode_id_spec d F i es HI Hi Hes st name Hgood Hr) as (st1 & -> & Hr1). cbn [mbind outcome_bind].
  exists (inode_at fs d i), st1, d. split_and!; [done..|]. by apply mid_refl.
Qed.

Lemma vfs_create_exists st d F i es name k :
  repr st d [] -> fs_inv fs area d F -> F !! i = Some (Directory, dir_bytes es) -> Forall entry_good es ->
  dir_find name es = Some k ->
  exists st' d', Vfs.create fs (vnode fs i) name st = Ret (None, st') /\ repr st' d' [] /\ fs_inv fs area d' F.
Proof.
  intros Hr HI Hi Hes Hk. unfold Vfs.create.
  destruct (modify_inode_spec fs area G st d F i Directory _ (dir_find name es) (dir_bytes es) (Vfs.create_check name) Hr HI Hi)
    as (st1 & d1 & -> & Hr1 & HI1). { intros st0 Hr0. by eapply mid_check. }
  cbn [mbind outcome_bind]. rewrite Hk. exists st1, d1. rewrite insert_id in HI1 by done. done.
Qed.

(** [create] up to its second closure: the name is not there and an inode is taken. *)
Lemma vfs_create_inode st d F i es name k :
  repr st d [] -> fs_inv fs area d F -> F !! i = Some (Directory, dir_bytes es) -> Forall entry_good es ->
  dir_find name es = None -> fresh_inode F = Some k ->
  exists st3 d3, repr st3 d3 [] /\ fs_inv fs area d3 (<[k := (File, [])]> F) /\ 0 <= k < inode_count fs /\
    <[k := (File, [])]> F !! i = Some (Directory, dir_bytes es) /\
    Vfs.create fs (vnode fs i) name st =
      ('(_, st) ← Vfs.modify_disk_inode (vnode fs i) (Vfs.create_append fs name k) st3;
       st ← block_cache_sync_all st;
       Ret (Some (vnode fs k), st)).
Proof.
  intros Hr HI Hi Hgood Hfind Hk. unfold Vfs.create.
  destruct (modify_inode_spec fs area G st d F i Directory _ (dir_find name es) (dir_bytes es) (Vfs.create_check name) Hr HI Hi)
    as (st1 & d1 & -> & Hr1 & HI1). { intros st0 Hr0. by eapply mid_check. }
  cbn [mbind outcome_bind]. rewrite Hfind. rewrite insert_id in HI1 by done.
  pose proof (alloc_inode_spec st1 d1 F Hr1 HI1) as Ha. rewrite Hk in Ha.
  destruct Ha as (st2 & d2 & -> & Hr2 & Hkr & HkF & Ho2 & Ht2). cbn [mbind outcome_bind].
  rewrite (get_disk_inode_pos_eq fs area G k Hkr).
  assert (Hd2 : disk_there fs area d2) by (eapply disk_there_dom; [exact (fi_there _ _ _ _ HI1)|apply Ho2]).
  destruct (set_inode_spec st2 d2 k File Hr2 Hd2 Hkr) as (st3 & -> & Hr3). cbn [mbind outcome_bind].
  exists st3, (inode_store fs d2 k (initialize File)). split_and!; [done| |lia|lia|rewrite lookup_insert_ne; [done|congruence]|].
  2: { unfold vnode. by rewrite (get_disk_inode_pos_eq fs area G k Hkr). }
  exact (inv_new_file d1 F k File d2 HI1 Hkr HkF (rp_ok _ _ _ Hr2) Ho2 Ht2).
Qed.

Lemma vfs_create_new st d F i es name k :
  repr st d [] -> fs_inv fs area d F -> F !! i = Some (Directory, dir_bytes es) -> Forall entry_good es ->
  dir_find name es = None ->
  Forall (fun b => 0 < b < 256) name -> (length name <= 28)%nat -> fresh_inode F = Some k ->
  32 * (Z.of_nat (length es) + 1) <= MAX_BLOCKS * 512 ->
  let F' := <[i := (Directory, dir_bytes (es ++ [(name, k)]))]> (<[k := (File, [])]> F) in
  space F' <= area ->
  exists st' d', Vfs.create fs (vnode fs i) name st = Ret (Some (vnode fs k), st') /\ repr st' d' [] /\
    fs_inv fs area d' F' /\ dev_view (block_device st') = d'.
Proof.
  intros Hr HI Hi Hgood Hfind Hbytes Hlen Hk Hmax F' Hsp. pose proof (entries_good_fit es Hgood) as Hes.
  destruct (vfs_create_inode st d F i es name k Hr HI Hi Hgood Hfind Hk) as (st3 & d3 & Hr3 & HI3 & Hkr & Hi3 & ->).
  assert (He : entry_fits (name, k)).
  { split_and!; [done..|]. cbn. unfold in_width. unfold inode_count in Hkr. destruct G. lia. }
  destruct (modify_inode_spec fs area G st3 _ _ i Directory _ tt (dir_bytes (es ++ [(name, k)])) (Vfs.create_append fs name k) Hr3 HI3 Hi3)
    as (st4 & d4 & -> & Hr4 & HI4). { intros st0 Hr0. by eapply append_mid. }
  cbn [mbind outcome_bind]. destruct (sync_all_spec st4 d4 Hr4) as (st5 & -> & Hr5 & Hv). cbn [mbind outcome_bind].
  by exists st5, d4.
Qed.

(** ** Names that are too long *)

(** A name of more than 28 bytes: the slice in [DirEntry::new] is out of range. *)
Lemma vfs_create_long_name st d F i es name k :
  repr st d [] -> fs_inv fs area d F -> F !! i = Some (Directory, dir_bytes es) -> Forall entry_good es ->
  dir_find name es = None -> (28 < length name)%nat -> fresh_inode F = Some k ->
  32 * (Z.of_nat (length es) + 1) <= MAX_BLOCKS * 512 ->
  space (<[i := (Directory, grow_bytes (dir_bytes es) (32 * (Z.of_nat (length es) + 1)))]> (<[k := (File, [])]> F)) <= area ->
  Vfs.create fs (vnode fs i) name st = Panic.
Proof.
  intros Hr HI Hi Hgood Hfind Hlen Hk Hmax Hsp. pose proof (entries_good_fit es Hgood) as Hes.
  destruct (vfs_create_inode st d F i es name k Hr HI Hi Hgood Hfind Hk) as (st3 & d3 & Hr3 & HI3 & Hkr & Hi3 & ->).
  rewrite (modify_inode_panics fs area G st3 _ _ i _ (Vfs.create_append fs name k) Hr3 HI3 Hi3); [done|].
  intros st4 Hr4. unfold Vfs.create_append. rewrite (dir_count _ _ i es HI3 Hi3 Hes). unfold DIRENT_SZ.
  assert (Hm : MAX_BLOCKS = 16540) by done.
  rewrite (Z.mul_comm (Z.of_nat (length es) + 1) 32), (wrap32_small (32 * _)) by lia.
  destruct (increase_mid fs area G st4 _ _ i Directory (dir_bytes es) (32 * (Z.of_nat (length es) + 1)) Hr4 HI3 Hi3 ltac:(lia) Hsp)
    as (di1 & st5 & d5 & -> & _). cbn [mbind outcome_bind].
  unfold dirent_new. change (NAME_LENGTH_LIMIT + 1) with 28. destruct (Z.leb_spec (Z.of_nat (length name)) 28); [lia|done].
Qed.

Lemma dirent_name_28 name k : Forall (fun b => 0 < b < 256) name -> length name = 28%nat -> dirent_name (entry_of (name, k)) = Panic.
Proof.
  intros Hb Hl. unfold dirent_name, entry_of, pad_name. cbn [name_bytes fst]. rewrite Hl. cbn [Nat.sub replicate]. rewrite app_nil_r.
  assert (list_find (fun b => b = 0) name = None) as ->; [|done].
  apply list_find_None. eapply Forall_impl; [exact Hb|]. intros b ? ->. lia.
Qed.

Lemma find_loop_stuck d F i es name0 k0 more name m : forall st k,
  fs_inv fs area d F -> F !! i = Some (Directory, dir_bytes (es ++ (name0, k0) :: more)) ->
  Forall entry_good es -> Forall entry_fits ((name0, k0) :: more) -> length name0 = 28%nat -> name ∉ es.*1 ->
  repr st d [inode_block fs i] -> (k <= length es)%nat -> (k + m = length (es ++ (name0, k0) :: more))%nat ->
  Vfs.find_loop name (inode_at fs d i) (seqZ (Z.of_nat k) (Z.of_nat m)) st = Panic.
Proof.
  induction m as [|m IH]; intros st k HI Hi Hgood Hfit Hl Hn Hr Hk Hkm; rewrite length_app in Hkm; cbn [length] in Hkm; [lia|].
  assert (Hes : Forall entry_fits (es ++ (name0, k0) :: more)) by (apply Forall_app; split; [by apply entries_good_fit|done]).
  rewrite seqZ_cons by lia. cbn [Vfs.find_loop]. destruct (decide (k = length es)) as [->|Hne].
  - assert (He : (es ++ (name0, k0) :: more) !! length es = Some (name0, k0)) by (by rewrite lookup_app_r, Nat.sub_diag by lia).
    destruct (read_dirent_spec d F i _ HI Hi Hes st (length es) _ Hr He) as (st1 & -> & _). cbn [mbind outcome_bind].
    apply Forall_cons in Hfit as [(Hb & _) _]. by rewrite dirent_name_28.
  - destruct (lookup_lt_is_Some_2 es k) as [e He]; [lia|].
    assert (He' : (es ++ (name0, k0) :: more) !! k = Some e) by (by apply lookup_app_l_Some).
    destruct (read_dirent_spec d F i _ HI Hi Hes st k e Hr He') as (st1 & -> & Hr1). cbn [mbind outcome_bind].
    pose proof (Forall_lookup_1 _ _ _ _ Hgood He) as Hg. rewrite dirent_name_ok by done. cbn [mbind outcome_bind].
    rewrite bool_decide_eq_false_2.
    2: { intros <-. apply Hn, list_elem_of_fmap. exists e. split; [done|]. by eapply list_elem_of_lookup_2. }
    replace (Z.succ (Z.of_nat k)) with (Z.of_nat (S k)) by lia. replace (Z.pred (Z.of_nat (S m))) with (Z.of_nat m) by lia.
    apply IH; try done; [lia|]. rewrite length_app. cbn [length]. lia.
Qed.

(** Once an entry with a name of 28 bytes is there, every search that reaches it panics. *)
Lemma vfs_find_stuck st d F i es name0 k0 more name :
  repr st d [] -> fs_inv fs area d F -> F !! i = Some (Directory, dir_bytes (es ++ (name0, k0) :: more)) ->
  Forall entry_good es -> Forall entry_fits ((name0, k0) :: more) -> length name0 = 28%nat -> name ∉ es.*1 ->
  Vfs.find fs (vnode fs i) name st = Panic.
Proof.
  intros Hr HI Hi Hgood Hfit Hl Hn. unfold Vfs.find. apply (read_inode_panics fs area G st d F i _ _ Hr HI Hi). intros st1 Hr1.
  assert (Hes : Forall entry_fits (es ++ (name0, k0) :: more)) by (apply Forall_app; split; [by apply entries_good_fit|done]).
  unfold Vfs.find_closure, Vfs.find_inode_id, is_dir. pose proof (fi_files _ _ _ _ HI i _ Hi) as Hf.
  rewrite (fo_type _ _ _ _ Hf). cbn [fst]. rewrite bool_decide_eq_true_2 by done. cbn [assert_ mbind outcome_bind].
  rewrite (dir_count d F i _ HI Hi Hes).
  rewrite (find_loop_stuck d F i es name0 k0 more name _ st1 0 HI Hi Hgood Hfit Hl Hn Hr1); [done|lia|done].
Qed.

End Dir.
