(* ===== verification/EfsMkfs.v ===== *)
(** * Creating and opening a file system

    [EasyFileSystem::create] and [open] of [efs.rs]: formatting a device gives
    a file system that holds an empty root directory, and opening it reads the
    same layout back from the super block. *)
From S2P Require Import Prelude EfsCache EfsCacheFacts EfsWords EfsBitmap EfsLayout EfsInodeFacts EfsGrow EfsFileFacts EfsVfs EfsAlloc EfsInv EfsOps EfsDir.
Import EfsCache EfsBitmap EfsLayout Efs.

(** The layout of a device of [total] blocks with [ib] inode bitmap blocks. *)
Definition data_total (total ib : Z) : Z := total - 1 - 1025 * ib.
Definition bitmap_need (t : Z) : Z := (t + 4096) / 4097.
Definition mkfs_area (total ib : Z) : Z := data_total total ib - bitmap_need (data_total total ib).

Definition layout_of (total ib : Z) : EasyFileSystem :=
  mkEfs (mkBitmap 1 ib) (mkBitmap (1 + 1025 * ib) (bitmap_need (data_total total ib)))
    (1 + ib) (1 + 1025 * ib + bitmap_need (data_total total ib)).

Definition super_of (total ib : Z) : SuperBlock :=
  super_initialize total ib (1024 * ib) (bitmap_need (data_total total ib)) (mkfs_area total ib).

(** What [create] needs: room for the inode tables, and 32-bit block numbers. *)
Definition mkfs_ok (total ib : Z) : Prop := 0 < ib <= 2 ^ 20 /\ 1 + 1025 * ib <= total < 2 ^ 32 - 4096.

Lemma bitmap_need_range t : 0 <= t -> 0 <= bitmap_need t <= t /\ t - bitmap_need t <= bitmap_need t * 4096.
Proof. unfold bitmap_need. intros. lia_mod. Qed.

Lemma layout_geometry total ib : mkfs_ok total ib -> geometry (layout_of total ib) (mkfs_area total ib).
Proof.
  intros [Hib Ht]. pose proof (bitmap_need_range (data_total total ib)) as Hr. unfold mkfs_area, layout_of.
  unfold data_total in *. split; cbn [inode_bitmap data_bitmap start_block_id blocks inode_area_start_block data_area_start_block]; lia.
Qed.

Lemma layout_end total ib : data_area_start_block (layout_of total ib) + mkfs_area total ib = total.
Proof. unfold layout_of, mkfs_area, data_total. cbn. lia. Qed.

Lemma super_of_ok total ib : mkfs_ok total ib -> pod_ok (PodLaws := SuperBlock_laws) (super_of total ib).
Proof.
  intros [Hib Ht]. pose proof (bitmap_need_range (data_total total ib)) as Hr. cbn [pod_ok SuperBlock_laws].
  unfold super_words, super_of, super_initialize, mkfs_area, data_total in *. cbn.
  repeat (apply Forall_cons_2; [unfold in_width, EFS_MAGIC; lia|]). apply Forall_nil_2.
Qed.

Lemma open_super_of {D} total ib (st : CacheManager D) :
  mkfs_ok total ib -> open_super (super_of total ib) st = Ret (layout_of total ib, st).
Proof.
  intros [Hib Ht]. pose proof (bitmap_need_range (data_total total ib)) as Hr. unfold open_super.
  change (is_valid (super_of total ib)) with true. cbn [assert_ mbind outcome_bind].
  assert (0 <= data_total total ib) as H0 by (unfold data_total; lia). specialize (Hr H0). clear H0.
  unfold super_of, super_initialize, layout_of.
  cbn [inode_bitmap_blocks inode_area_blocks data_bitmap_blocks]. set (n := bitmap_need _) in *. unfold data_total in Hr. rewrite (wrap32_small (ib + 1024 * ib)) by lia. rewrite !wrap32_small by lia.
  by replace (1 + (ib + 1024 * ib)) with (1 + 1025 * ib) by lia.
Qed.

(** ** A disk of zeros *)

Lemma words_zeros : words 8 64 zeros = replicate 64 0.
Proof. vm_compute. reflexivity. Qed.

Lemma bit_set_zeros d bm k : d !! (start_block_id bm + k / 4096) = Some zeros -> bit_set d bm k = false.
Proof.
  intros H. rewrite (bit_set_block d bm k zeros H), words_zeros.
  destruct (replicate 64 0 !! Z.to_nat _) as [w|] eqn:E; cbn [default from_option Datatypes.id].
  - apply lookup_replicate in E as [-> _]. apply Z.bits_0.
  - apply Z.bits_0.
Qed.

Section Mkfs.
Context {D : Type} {BD : BlockDevice D} {BL : BlockDeviceLaws D}.
Implicit Type st : CacheManager D.

Lemma clear_blocks_spec n : forall st d k,
  repr st d [] -> 0 <= k -> (forall id, k <= id < k + Z.of_nat n -> is_Some (d !! id)) ->
  exists st' d', clear_blocks (seqZ k (Z.of_nat n)) st = Ret st' /\ repr st' d' [] /\
    (forall id, k <= id < k + Z.of_nat n -> d' !! id = Some zeros) /\
    (forall id, ~ (k <= id < k + Z.of_nat n) -> d' !! id = d !! id).
Proof.
  induction n as [|n IH]; intros st d k Hr Hk Hd.
  { exists st, d. split_and!; [done..|lia|done]. }
  rewrite seqZ_cons by lia. cbn [clear_blocks]. destruct (Hd k ltac:(lia)) as [b Hb].
  destruct (modify_zero st d [] k b Hr Hb (not_elem_of_nil _)) as (st1 & -> & Hr1); [cbn; unfold BLOCK_CACHE_SIZE; lia|].
  cbn [mbind outcome_bind]. replace (Z.succ k) with (k + 1) by lia. replace (Z.pred (Z.of_nat (S n))) with (Z.of_nat n) by lia.
  destruct (IH st1 _ (k + 1) Hr1 ltac:(lia)) as (st2 & d2 & E & Hr2 & Hz & Ho).
  { intros id Hid. rewrite lookup_insert_ne by lia. apply Hd. lia. }
  exists st2, d2. split_and!; [done..| |].
  - intros id Hid. destruct (decide (id = k)) as [->|]; [|apply Hz; lia]. rewrite Ho by lia. apply lookup_insert_eq.
  - intros id Hid. rewrite Ho by lia. by rewrite lookup_insert_ne by lia.
Qed.

(** The fresh disk: zeros behind the super block. *)
Definition fresh_disk (total ib : Z) (d : gmap Z (list Z)) : Prop :=
  d !! 0 = Some (splice zeros 0 (to_bytes (super_of total ib) (slice zeros 0 24))) /\
  forall id, 0 < id < total -> d !! id = Some zeros.

Lemma super_slice total ib :
  mkfs_ok total ib -> of_bytes (slice (splice zeros 0 (to_bytes (super_of total ib) (slice zeros 0 24))) 0 24) = super_of total ib.
Proof.
  intros Hok. pose proof (super_of_ok total ib Hok) as Hp. set (old := slice zeros 0 24).
  assert (Hl : length (to_bytes (super_of total ib) old) = 24%nat) by (rewrite pod_length; [done|exact Hp|done]).
  pose proof (slice_splice_same zeros 0 (to_bytes (super_of total ib) old)) as H. rewrite Hl in H.
  change (Z.of_nat 24) with 24 in H. rewrite H; [|lia|cbn; lia]. by apply pod_round.
Qed.

Lemma fresh_inv total ib d : mkfs_ok total ib -> fresh_disk total ib d -> fs_inv (layout_of total ib) (mkfs_area total ib) d ∅.
Proof.
  intros Hok [H0 Hz]. pose proof (layout_geometry total ib Hok) as G. pose proof (layout_end total ib) as He.
  set (fs := layout_of total ib) in *. set (area := mkfs_area total ib) in *.
  assert (Hst : 0 < data_area_start_block fs) by (destruct G; lia). split.
  - exists (splice zeros 0 (to_bytes (super_of total ib) (slice zeros 0 24))). split; [done|]. intros D' st.
    rewrite super_slice by done. by apply open_super_of.
  - intros id Hid. destruct (decide (id = 0)) as [->|]; [eauto|]. rewrite Hz by lia. eauto.
  - intros i Hi. by rewrite dom_empty_L, elem_of_empty in Hi.
  - intros k Hk. rewrite dom_empty_L, bit_set_zeros; [done|]. apply Hz. destruct G. lia_mod.
  - intros i f Hi. by rewrite lookup_empty in Hi.
  - unfold all_owned. rewrite map_to_list_empty. cbn. split.
    + apply NoDup_nil_2.
    + by intros id Hid%not_elem_of_nil.
    + intros k Hk. rewrite bit_set_zeros; [split; [done|by intros []%not_elem_of_nil]|]. apply Hz. destruct G. lia_mod.
    + intros id [Ha1 Ha2] _. apply Hz. lia.
Qed.

Lemma modify_super st d b total ib :
  repr st d [] -> d !! 0 = Some b -> mkfs_ok total ib ->
  exists st', modify (T := SuperBlock) st 0 0 (set_super (super_of total ib)) = Ret (tt, st') /\
    repr st' (<[0 := splice b 0 (to_bytes (super_of total ib) (slice b 0 24))]> d) [].
Proof.
  intros Hr Hb Hok.
  destruct (modify_pure st d [] 0 0 b (fun _ => tt) (fun _ => super_of total ib) Hr Hb (not_elem_of_nil _)) as (st' & E & Hr').
  { cbn. unfold BLOCK_CACHE_SIZE. lia. } { lia. } { cbn. lia. } { by apply super_of_ok. }
  by exists st'.
Qed.

Lemma mkfs_spec st d total ib :
  repr st d [] -> mkfs_ok total ib -> (forall id, 0 <= id < total -> is_Some (d !! id)) ->
  exists st' d', create total ib st = Ret (layout_of total ib, st') /\ repr st' d' [] /\
    fs_inv (layout_of total ib) (mkfs_area total ib) d' {[0 := (Directory, [])]} /\ dev_view (block_device st') = d'.
Proof.
  intros Hr Hok Hd. pose proof Hok as [Hib Ht]. pose proof (layout_geometry total ib Hok) as G.
  pose proof (bitmap_need_range (data_total total ib)) as Hn. unfold create, maximum.
  change (size_of (T := DiskInode)) with 128. change BLOCK_BITS with 4096. change BLOCK_SZ with 512. cbn [blocks].
  assert (wrap 64 (wrap 64 (ib * 4096) * 128 + 512 - 1) / 512 = 1024 * ib) as ->.
  { unfold wrap. rewrite (Z.mod_small (ib * 4096)) by lia. rewrite Z.mod_small by lia. lia_mod. }
  rewrite (wrap32_small (1024 * ib)), (wrap32_small (ib + 1024 * ib)) by lia.
  rewrite (wrap32_small (total - 1 - (ib + 1024 * ib))) by lia.
  replace (total - 1 - (ib + 1024 * ib)) with (data_total total ib) by (unfold data_total; lia).
  assert (Hdt : 0 <= data_total total ib < 2 ^ 32 - 4096 - 1025) by (unfold data_total; lia). specialize (Hn ltac:(lia)).
  rewrite (wrap32_small (data_total total ib + 4096)) by lia. fold (bitmap_need (data_total total ib)).
  rewrite (wrap32_small (data_total total ib - _)) by lia. fold (mkfs_area total ib).
  assert (He : 1 + (ib + 1024 * ib) + bitmap_need (data_total total ib) <= total) by (unfold data_total in *; lia).
  rewrite !wrap32_small by lia.
  replace (1 + (ib + 1024 * ib)) with (1 + 1025 * ib) by lia. fold (layout_of total ib). fold (super_of total ib).
  destruct (clear_blocks_spec (Z.to_nat total) st d 0 Hr ltac:(lia)) as (st1 & d1 & E1 & Hr1 & Hz1 & _).
  { intros id Hid. apply Hd. lia. }
  rewrite Z2Nat.id in E1, Hz1 by lia. rewrite E1. cbn [mbind outcome_bind].
  destruct (modify_super st1 d1 zeros total ib Hr1 (Hz1 0 ltac:(lia)) Hok) as (st2 & -> & Hr2). cbn [mbind outcome_bind].
  match type of Hr2 with repr _ ?d _ => set (d2 := d) in * end.
  assert (HF : fresh_disk total ib d2).
  { split; [apply lookup_insert_eq|]. intros id Hid. unfold d2. rewrite lookup_insert_ne by lia. apply Hz1. lia. }
  pose proof (fresh_inv total ib d2 Hok HF) as HI2. set (fs := layout_of total ib) in *.
  pose proof (alloc_inode_spec fs (mkfs_area total ib) G st2 d2 ∅ Hr2 HI2) as Ha.
  assert (fresh_inode fs ∅ = Some 0) as Ef.
  { unfold fresh_inode. rewrite (list_find_least _ _ 0); [done| | |intros; lia].
    - unfold inode_count. destruct G. lia.
    - rewrite dom_empty_L. apply not_elem_of_empty. }
  rewrite Ef in Ha. destruct Ha as (st3 & d3 & -> & Hr3 & H0r & _ & Ho3 & Ht3). cbn [mbind outcome_bind].
  change (0 =? 0) with true. cbn [assert_ mbind outcome_bind]. rewrite (get_disk_inode_pos_eq fs _ G 0 H0r).
  assert (Hd3 : disk_there fs (mkfs_area total ib) d3) by (eapply disk_there_dom; [exact (fi_there _ _ _ _ HI2)|apply Ho3]).
  destruct (set_inode_spec fs _ G st3 d3 0 Directory Hr3 Hd3 H0r) as (st4 & -> & Hr4). cbn [mbind outcome_bind].
  destruct (sync_all_spec st4 _ Hr4) as (st5 & -> & Hr5 & Hv). cbn [mbind outcome_bind].
  eexists st5, _. split_and!; [done|exact Hr5| |exact Hv].
  exact (inv_new_file fs _ G d2 ∅ 0 Directory d3 HI2 H0r (lookup_empty _) (rp_ok _ _ _ Hr3) Ho3 Ht3).
Qed.

Lemma open_spec st d fs area F :
  repr st d [] -> fs_inv fs area d F -> exists st', open_ st = Ret (fs, st') /\ repr st' d [].
Proof.
  intros Hr HI. destruct (fi_super _ _ _ _ HI) as (b & Hb & Hopen).
  destruct (read_spec st d [] 0 0 b open_super (fun v d2 => v = fs /\ d2 = d) Hr Hb (not_elem_of_nil _))
    as (v & st' & d' & E & Hr' & -> & ->).
  { cbn. unfold BLOCK_CACHE_SIZE. lia. } { lia. } { cbn. lia. }
  { intros st1 Hr1. exists fs, st1, d. split; [apply Hopen|]. split; [exact Hr1|done]. }
  by exists st'.
Qed.

End Mkfs.
