(* ===== verification/EfsSpec.v ===== *)
(** * What easy-fs promises

    The abstract file system is a [Tree]: the entries of the root directory and
    the contents of the files, keyed by inode number.  [spec_op] is what each
    operation does to it; it is undefined where the code relies on its caller
    or on free space.  The theorems: the code implements [spec_op] for any
    sequence of operations, formatting gives the empty tree, updates survive
    opening the device again, and what happens to names that are too long. *)
From S2P Require Import Prelude Utf8 EfsCache EfsCacheFacts EfsWords EfsBitmap EfsLayout EfsInodeFacts EfsGrow EfsFileFacts EfsVfs.
From S2P Require Import EfsAlloc EfsInv EfsOps EfsDir EfsMkfs.
Import EfsCache EfsBitmap EfsLayout Efs.

(** ** Operations and results, over a type of handles *)

Inductive fs_op (H : Type) : Type :=
| FsFind (name : list Z)
| FsCreate (name : list Z)
| FsLs
| FsRead (h : H) (off len : Z)
| FsWrite (h : H) (off : Z) (buf : list Z)
| FsClear (h : H).

Inductive fs_result (H : Type) : Type :=
| RInode (h : option H)
| RNames (names : list (list Z))
| RBytes (bytes : list Z)
| RCount (n : Z)
| RDone.

Arguments FsFind {H}. Arguments FsCreate {H}. Arguments FsLs {H}.
Arguments FsRead {H}. Arguments FsWrite {H}. Arguments FsClear {H}.
Arguments RInode {H}. Arguments RNames {H}. Arguments RBytes {H}. Arguments RCount {H}. Arguments RDone {H}.

Definition map_op {A B} (f : A -> B) (op : fs_op A) : fs_op B :=
  match op with
  | FsFind name => FsFind name
  | FsCreate name => FsCreate name
  | FsLs => FsLs
  | FsRead h off len => FsRead (f h) off len
  | FsWrite h off buf => FsWrite (f h) off buf
  | FsClear h => FsClear (f h)
  end.

Definition map_result {A B} (f : A -> B) (r : fs_result A) : fs_result B :=
  match r with
  | RInode h => RInode (f <$> h)
  | RNames ns => RNames ns
  | RBytes bs => RBytes bs
  | RCount n => RCount n
  | RDone => RDone
  end.

(** ** The code *)

Section Run.
Context {D : Type} {BD : BlockDevice D}.
Implicit Type st : CacheManager D.

Definition run_op (fs : EasyFileSystem) (op : fs_op Vfs.Inode) st : outcome (fs_result Vfs.Inode * CacheManager D) :=
  match op with
  | FsFind name => '(r, st) ← Vfs.find fs (Vfs.root_inode fs) name st; Ret (RInode r, st)
  | FsCreate name => '(r, st) ← Vfs.create fs (Vfs.root_inode fs) name st; Ret (RInode r, st)
  | FsLs => '(r, st) ← Vfs.ls (Vfs.root_inode fs) st; Ret (RNames r, st)
  | FsRead h off len => '(r, st) ← Vfs.read_at h off len st; Ret (RBytes r, st)
  | FsWrite h off buf => '(r, st) ← Vfs.write_at fs h off buf st; Ret (RCount r, st)
  | FsClear h => st ← Vfs.clear fs h st; Ret (RDone, st)
  end.

Fixpoint run_ops (fs : EasyFileSystem) (ops : list (fs_op Vfs.Inode)) st
    : outcome (list (fs_result Vfs.Inode) * CacheManager D) :=
  match ops with
  | [] => Ret ([], st)
  | op :: ops' =>
      '(r, st) ← run_op fs op st;
      '(rs, st) ← run_ops fs ops' st;
      Ret (r :: rs, st)
  end.

End Run.

(** ** The specification *)

Record Tree : Type := mkTree {
  entries : list (list Z * Z);
  contents : gmap Z (list Z);
}.

Definition empty_tree : Tree := mkTree [] ∅.

(** The inodes of a tree: number 0 is the root directory. *)
Definition files_of (T : Tree) : Files := <[0 := (Directory, dir_bytes (entries T))]> (pair File <$> contents T).

Section Spec.
Context (fs : EasyFileSystem) (area : Z).

Definition spec_create (T : Tree) (name : list Z) : option (fs_result Z * Tree) :=
  match dir_find name (entries T) with
  | Some _ => Some (RInode None, T)
  | None =>
      k ← fresh_inode fs (files_of T);
      let T' := mkTree (entries T ++ [(name, k)]) (<[k := []]> (contents T)) in
      if decide (name_ok name /\ 32 * (Z.of_nat (length (entries T)) + 1) <= MAX_BLOCKS * 512 /\ space (files_of T') <= area)
      then Some (RInode (Some k), T') else None
  end.

Definition spec_write (T : Tree) (h off : Z) (buf : list Z) : option (fs_result Z * Tree) :=
  c ← contents T !! h;
  let T' := mkTree (entries T) (<[h := write_bytes c off buf]> (contents T)) in
  if decide (0 <= off /\ buf <> [] /\ off + Z.of_nat (length buf) <= MAX_BLOCKS * 512 /\ Forall (in_width 8) buf /\
             space (files_of T') <= area)
  then Some (RCount (Z.of_nat (length buf)), T') else None.

Definition spec_op (T : Tree) (op : fs_op Z) : option (fs_result Z * Tree) :=
  match op with
  | FsFind name => Some (RInode (dir_find name (entries T)), T)
  | FsCreate name => spec_create T name
  | FsLs => Some (RNames (entries T).*1, T)
  | FsRead h off len =>
      c ← contents T !! h;
      if decide (0 <= off /\ 0 <= len /\ off + len < 2 ^ 64) then Some (RBytes (slice c off len), T) else None
  | FsWrite h off buf => spec_write T h off buf
  | FsClear h => _ ← contents T !! h; Some (RDone, mkTree (entries T) (<[h := []]> (contents T)))
  end.

Fixpoint spec_ops (T : Tree) (ops : list (fs_op Z)) : option (list (fs_result Z) * Tree) :=
  match ops with
  | [] => Some ([], T)
  | op :: ops' =>
      '(r, T1) ← spec_op T op;
      '(rs, T2) ← spec_ops T1 ops';
      Some (r :: rs, T2)
  end.

(** Names and inode numbers are distinct, and the inodes are those of the entries. *)
Record tree_ok (T : Tree) : Prop := {
  to_good : Forall entry_good (entries T);
  to_names : NoDup (entries T).*1;
  to_inodes : NoDup (entries T).*2;
  to_dom : forall k, k ∈ dom (contents T) <-> k ∈ (entries T).*2;
  to_root : 0 ∉ dom (contents T);
}.

Lemma empty_tree_ok : tree_ok empty_tree.
Proof.
  split; [apply Forall_nil_2|apply NoDup_nil_2|apply NoDup_nil_2| |].
  - intros k. cbn. rewrite dom_empty, elem_of_empty. split; [done|]. by intros ?%not_elem_of_nil.
  - cbn. rewrite dom_empty. apply not_elem_of_empty.
Qed.

Lemma tree_ok_contents T h c : tree_ok T -> is_Some (contents T !! h) -> tree_ok (mkTree (entries T) (<[h := c]> (contents T))).
Proof. intros [] Hh. split; cbn; try done; by rewrite dom_insert_lookup_L. Qed.

Lemma tree_ok_create T name k :
  tree_ok T -> entry_good (name, k) -> dir_find name (entries T) = None -> k <> 0 -> contents T !! k = None ->
  tree_ok (mkTree (entries T ++ [(name, k)]) (<[k := []]> (contents T))).
Proof.
  intros [] He Hn H0 Hk. apply dir_find_None in Hn. apply not_elem_of_dom in Hk.
  split; cbn [entries contents]; rewrite ?fmap_app; cbn [fmap list_fmap fst snd].
  - apply Forall_app. split; [done|]. by apply Forall_singleton.
  - apply NoDup_app. split_and!; [done| |apply NoDup_singleton]. by intros x Hx ->%list_elem_of_singleton.
  - apply NoDup_app. split_and!; [done| |apply NoDup_singleton]. intros x Hx ->%list_elem_of_singleton. by apply Hk, to_dom0.
  - intros x. rewrite dom_insert, elem_of_union, elem_of_singleton, elem_of_app, list_elem_of_singleton, to_dom0. tauto.
  - rewrite dom_insert, elem_of_union, elem_of_singleton. intros [?|?]; [by apply H0|done].
Qed.

Lemma files_of_root T : files_of T !! 0 = Some (Directory, dir_bytes (entries T)).
Proof. apply lookup_insert_eq. Qed.

Lemma files_of_file T h c : tree_ok T -> contents T !! h = Some c -> files_of T !! h = Some (File, c).
Proof.
  intros Ht Hc. unfold files_of. rewrite lookup_insert_ne, lookup_fmap, Hc; [done|]. intros <-.
  apply (to_root T Ht), elem_of_dom. by exists c.
Qed.

Lemma files_of_update T h c : tree_ok T -> is_Some (contents T !! h) ->
  files_of (mkTree (entries T) (<[h := c]> (contents T))) = <[h := (File, c)]> (files_of T).
Proof.
  intros Ht Hh. unfold files_of. cbn. rewrite fmap_insert, insert_insert_ne; [done|]. intros <-.
  by apply (to_root T Ht), elem_of_dom.
Qed.

Lemma files_of_create T name k :
  k <> 0 -> files_of (mkTree (entries T ++ [(name, k)]) (<[k := []]> (contents T)))
  = <[0 := (Directory, dir_bytes (entries T ++ [(name, k)]))]> (<[k := (File, [])]> (files_of T)).
Proof.
  intros H0. unfold files_of. cbn. rewrite fmap_insert, (insert_insert_ne _ k 0) by done. by rewrite insert_insert_eq.
Qed.

Context {D : Type} {BD : BlockDevice D} {BL : BlockDeviceLaws D}.
Context (G : geometry fs area).

(** The cache and the device behind it hold the tree. *)
Definition holds (st : CacheManager D) (T : Tree) : Prop :=
  exists d, repr st d [] /\ fs_inv fs area d (files_of T) /\ tree_ok T.

(** The device alone holds the tree. *)
Definition durable (st : CacheManager D) (T : Tree) : Prop :=
  fs_inv fs area (dev_view (block_device st)) (files_of T) /\ tree_ok T.

Definition updates (op : fs_op Z) (r : fs_result Z) : Prop :=
  match op, r with
  | FsCreate _, RInode (Some _) | FsWrite _ _ _, _ | FsClear _, _ => True
  | _, _ => False
  end.

Lemma root_vnode : Vfs.root_inode fs = vnode fs 0.
Proof. done. Qed.

Lemma fresh_inode_spec F k : fresh_inode fs F = Some k -> 0 <= k < inode_count fs /\ F !! k = None.
Proof.
  unfold fresh_inode. intros ([j x] & Hf & ->)%fmap_Some. apply list_find_Some in Hf as (Hl & Hn & _).
  apply list_elem_of_lookup_2, elem_of_seqZ in Hl. cbn. split; [lia|by apply not_elem_of_dom].
Qed.

Lemma run_create_refines st d T name r T' :
  repr st d [] -> fs_inv fs area d (files_of T) -> tree_ok T -> spec_create T name = Some (r, T') ->
  exists st', run_op fs (FsCreate name) st = Ret (map_result (vnode fs) r, st') /\ holds st' T' /\
    (updates (FsCreate name) r -> durable st' T').
Proof.
  intros Hr HI Ht Hs. unfold spec_create in Hs. cbn [run_op]. rewrite root_vnode.
  pose proof (files_of_root T) as H0. pose proof (to_good T Ht) as Hg.
  destruct (dir_find name (entries T)) as [k|] eqn:Ef.
  - injection Hs as <- <-. destruct (vfs_create_exists fs area G st d _ 0 _ name k Hr HI H0 Hg Ef) as (st' & d' & -> & Hr' & HI').
    cbn [mbind outcome_bind]. exists st'. split_and!; [done| |done]. by exists d'.
  - destruct (fresh_inode fs (files_of T)) as [k|] eqn:Ek; cbn [mbind option_bind] in Hs; [|done].
    case_decide as Hc; [|done]. injection Hs as <- <-. destruct Hc as (Hname & Hmax & Hsp).
    destruct (fresh_inode_spec _ _ Ek) as [Hkr HkF].
    assert (Hk0 : k <> 0) by (intros ->; rewrite H0 in HkF; done). rewrite files_of_create in Hsp by done.
    destruct (vfs_create_new fs area G st d _ 0 _ name k Hr HI H0 Hg Ef (proj1 Hname)) as (st' & d' & -> & Hr' & HI' & Hv);
      [destruct Hname; lia|done|done|done|].
    assert (Ht' : tree_ok (mkTree (entries T ++ [(name, k)]) (<[k := []]> (contents T)))).
    { apply tree_ok_create; try done.
      - split; [done|]. unfold in_width, inode_count in *. cbn. destruct G. lia.
      - unfold files_of in HkF. rewrite lookup_insert_ne, lookup_fmap in HkF by done. by destruct (contents T !! k). }
    cbn [mbind outcome_bind]. exists st'. rewrite <- files_of_create in HI' by done. split_and!; [done|by exists d'|].
    intros _. split; [by rewrite Hv|done].
Qed.

Lemma run_write_refines st d T h off buf r T' :
  repr st d [] -> fs_inv fs area d (files_of T) -> tree_ok T -> spec_write T h off buf = Some (r, T') ->
  exists st', run_op fs (FsWrite (vnode fs h) off buf) st = Ret (map_result (vnode fs) r, st') /\ holds st' T' /\ durable st' T'.
Proof.
  intros Hr HI Ht Hs. unfold spec_write in Hs. destruct (contents T !! h) as [c|] eqn:Ec; cbn [mbind option_bind] in Hs; [|done].
  case_decide as Hc; [|done]. injection Hs as <- <-. destruct Hc as (Ho & Hne & Hmax & Hb & Hsp).
  rewrite files_of_update in Hsp by (done || by rewrite Ec).
  destruct (vfs_write_spec fs area G st d _ h File c off buf Hr HI (files_of_file T h c Ht Ec) Ho Hne Hmax Hb Hsp)
    as (st' & d' & E & Hr' & HI' & Hv).
  cbn [run_op]. rewrite E. cbn [mbind outcome_bind]. rewrite <- files_of_update in HI' by (done || by rewrite Ec).
  exists st'. assert (Ht' : tree_ok (mkTree (entries T) (<[h := write_bytes c off buf]> (contents T))))
    by (apply tree_ok_contents; [done|by rewrite Ec]).
  split_and!; [done|by exists d'|]. split; [by rewrite Hv|done].
Qed.

Lemma fs_op_refines st T op r T' :
  holds st T -> spec_op T op = Some (r, T') ->
  exists st', run_op fs (map_op (vnode fs) op) st = Ret (map_result (vnode fs) r, st') /\ holds st' T' /\
    (updates op r -> durable st' T').
Proof.
  intros (d & Hr & HI & Ht) Hs. pose proof (files_of_root T) as H0. pose proof (to_good T Ht) as Hg.
  pose proof (entries_good_fit _ Hg) as Hfit. destruct op as [name|name| |h off len|h off buf|h]; cbn [map_op spec_op] in *.
  - injection Hs as <- <-. cbn [run_op]. rewrite root_vnode.
    destruct (vfs_find_spec fs area G d _ 0 _ HI H0 Hfit st name Hg Hr) as (st' & -> & Hr').
    cbn [mbind outcome_bind]. exists st'. split_and!; [done|by exists d|done].
  - by eapply run_create_refines.
  - injection Hs as <- <-. cbn [run_op]. rewrite root_vnode.
    destruct (vfs_ls_spec fs area G d _ 0 _ HI H0 Hfit st Hg Hr) as (st' & -> & Hr').
    cbn [mbind outcome_bind]. exists st'. split_and!; [done|by exists d|done].
  - destruct (contents T !! h) as [c|] eqn:Ec; cbn [mbind option_bind] in Hs; [|done].
    case_decide as Hc; [|done]. injection Hs as <- <-. destruct Hc as (Ho & Hl & Hw). cbn [run_op].
    destruct (vfs_read_spec fs area G st d _ h File c off len Hr HI (files_of_file T h c Ht Ec) Ho Hl Hw) as (st' & -> & Hr').
    cbn [mbind outcome_bind]. exists st'. split_and!; [done|by exists d|done].
  - destruct (run_write_refines st d T h off buf r T' Hr HI Ht Hs) as (st' & E & Hh & Hd). by exists st'.
  - destruct (contents T !! h) as [c|] eqn:Ec; cbn [mbind option_bind] in Hs; [|done]. injection Hs as <- <-. cbn [run_op].
    destruct (vfs_clear_spec fs area G st d _ h File c Hr HI (files_of_file T h c Ht Ec)) as (st' & d' & -> & Hr' & HI' & Hv).
    cbn [mbind outcome_bind]. rewrite <- files_of_update in HI' by (done || by rewrite Ec).
    assert (Ht' : tree_ok (mkTree (entries T) (<[h := []]> (contents T)))) by (apply tree_ok_contents; [done|by rewrite Ec]).
    exists st'. split_and!; [done|by exists d'|]. intros _. split; [by rewrite Hv|done].
Qed.

Lemma fs_ops_refine ops : forall st T rs T',
  holds st T -> spec_ops T ops = Some (rs, T') ->
  exists st', run_ops fs (map_op (vnode fs) <$> ops) st = Ret (map_result (vnode fs) <$> rs, st') /\ holds st' T'.
Proof.
  induction ops as [|op ops IH]; intros st T rs T' Hh Hs; cbn [spec_ops] in Hs.
  { injection Hs as <- <-. by exists st. }
  destruct (spec_op T op) as [[r T1]|] eqn:Eo; cbn [mbind option_bind] in Hs; [|done].
  destruct (spec_ops T1 ops) as [[rs1 T2]|] eqn:Es; cbn [mbind option_bind] in Hs; [|done]. injection Hs as <- <-.
  destruct (fs_op_refines st T op r T1 Hh Eo) as (st1 & E1 & Hh1 & _).
  destruct (IH st1 T1 rs1 T2 Hh1 Es) as (st2 & E2 & Hh2). exists st2. split; [|done].
  cbn [fmap list_fmap run_ops]. rewrite E1. cbn [mbind outcome_bind]. rewrite E2. done.
Qed.

Lemma open_holds st T :
  durable st T -> exists st', open_ (manager_new (block_device st)) = Ret (fs, st') /\ holds st' T.
Proof.
  intros [HI Ht]. destruct (open_spec _ _ fs area _ (manager_new_repr (block_device st)) HI) as (st' & E & Hr).
  exists st'. split; [done|]. by exists (dev_view (block_device st)).
Qed.

End Spec.

Section Claims.
Context {D : Type} {BD : BlockDevice D} {BL : BlockDeviceLaws D}.

(** C8: easy-fs refines the abstract tree.  On a file system that holds a tree,
    any sequence of [find], [create], [ls], [read_at], [write_at] and [clear]
    that the specification defines runs without a panic or a loop, returns what
    the specification returns (inode numbers as inode objects), and leaves the
    tree of the specification: names stay distinct, each file has its own
    blocks, bytes never written read as zero, and both bitmaps mark exactly
    what is in use. *)
Theorem easy_fs_refines_tree fs area (st : CacheManager D) T ops rs T' :
  geometry fs area -> holds fs area st T -> spec_ops fs area T ops = Some (rs, T') ->
  exists st', run_ops fs (map_op (vnode fs) <$> ops) st = Ret (map_result (vnode fs) <$> rs, st') /\ holds fs area st' T'.
Proof. intros G Hh Hs. by eapply fs_ops_refine. Qed.

Lemma mkfs_holds (dev : D) total ib :
  mkfs_ok total ib -> (forall id, 0 <= id < total -> is_Some (dev_view dev !! id)) ->
  let fs := layout_of total ib in let area := mkfs_area total ib in
  exists st, create total ib (manager_new dev) = Ret (fs, st) /\ geometry fs area /\ holds fs area st empty_tree /\
    durable fs area st empty_tree.
Proof.
  intros Hok Hd fs area. destruct (mkfs_spec _ _ total ib (manager_new_repr dev) Hok Hd) as (st & d & E & Hr & HI & Hv).
  assert (Ef : files_of empty_tree = {[0 := (Directory, [])]}).
  { unfold files_of, empty_tree. cbn. by rewrite fmap_empty, insert_empty. }
  rewrite <- Ef in HI. exists st. split_and!; [done|by apply layout_geometry| |].
  - exists d. split_and!; [done..|apply empty_tree_ok].
  - split; [by rewrite Hv|apply empty_tree_ok].
Qed.

(** C26: formatting.  On any device that has the blocks it is told about,
    [EasyFileSystem::create] returns the file system its layout arithmetic
    describes, whatever the blocks held before; it holds the empty tree, and
    opening the device afterwards finds the same file system and the same tree. *)
Theorem mkfs_then_open (dev : D) total ib :
  mkfs_ok total ib -> (forall id, 0 <= id < total -> is_Some (dev_view dev !! id)) ->
  let fs := layout_of total ib in let area := mkfs_area total ib in
  exists st, create total ib (manager_new dev) = Ret (fs, st) /\ geometry fs area /\ holds fs area st empty_tree /\
    exists st', open_ (manager_new (block_device st)) = Ret (fs, st') /\ holds fs area st' empty_tree.
Proof.
  intros Hok Hd fs area. destruct (mkfs_holds dev total ib Hok Hd) as (st & E & HG & Hh & Hdur).
  exists st. split_and!; try done. by apply open_holds.
Qed.

(** C15: updates survive.  After a [write_at], a [clear] or a [create] that made
    a file has returned, the device alone holds the new tree: a fresh cache on
    the device opens the same file system and finds it, so nothing that was
    reported done is lost with the cache. *)
Theorem updates_survive_remount fs area (st : CacheManager D) T op r T' :
  geometry fs area -> holds fs area st T -> spec_op fs area T op = Some (r, T') -> updates op r ->
  exists st', run_op fs (map_op (vnode fs) op) st = Ret (map_result (vnode fs) r, st') /\
    exists st'', open_ (manager_new (block_device st')) = Ret (fs, st'') /\ holds fs area st'' T'.
Proof.
  intros G Hh Hs Hu. destruct (fs_op_refines fs area G st T op r T' Hh Hs) as (st' & E & _ & Hd).
  exists st'. split; [done|]. by apply open_holds, Hd.
Qed.

(** One more entry takes at most three blocks. *)
Lemma dir_growth es :
  Forall entry_fits es -> 32 * (Z.of_nat (length es) + 1) <= MAX_BLOCKS * 512 ->
  forall c, Z.of_nat (length c) = 32 * (Z.of_nat (length es) + 1) -> cost (Directory, c) <= cost (Directory, dir_bytes es) + 3.
Proof.
  intros Hes Hmax c Hc. unfold cost. cbn [snd]. rewrite length_dir_bytes by done. rewrite Hc. unfold MAX_BLOCKS in Hmax.
  rewrite !data_blocks_small by lia. unfold owned_count, sub_count.
  set (n := Z.of_nat (32 * length es)). assert (Hn : 32 * (Z.of_nat (length es) + 1) = n + 32) by lia. rewrite Hn.
  repeat case_if; lia_mod.
Qed.

Lemma create_space fs T k c :
  tree_ok T -> fresh_inode fs (files_of T) = Some k ->
  32 * (Z.of_nat (length (entries T)) + 1) <= MAX_BLOCKS * 512 -> Z.of_nat (length c) = 32 * (Z.of_nat (length (entries T)) + 1) ->
  space (<[0 := (Directory, c)]> (<[k := (File, [])]> (files_of T))) <= space (files_of T) + 3.
Proof.
  intros Ht Hk Hmax Hc. destruct (fresh_inode_spec _ _ _ Hk) as [_ HkF]. pose proof (files_of_root T) as H0.
  rewrite (space_update _ 0 (Directory, dir_bytes (entries T))) by (rewrite lookup_insert_ne; [done|congruence]).
  rewrite space_insert by done. pose proof (dir_growth _ (entries_good_fit _ (to_good T Ht)) Hmax c Hc) as H.
  change (cost (File, [])) with 0. lia.
Qed.

(** A name of more than 28 bytes panics.  [DirEntry::new] slices its 28-byte
    array with the length of the name before anything has checked it, so
    creating a file with a longer name that is not there, on a file system with
    room for it, panics. *)
Theorem create_long_name_panics fs area (st : CacheManager D) T name k :
  geometry fs area -> holds fs area st T -> dir_find name (entries T) = None -> (28 < length name)%nat ->
  fresh_inode fs (files_of T) = Some k -> 32 * (Z.of_nat (length (entries T)) + 1) <= MAX_BLOCKS * 512 ->
  space (files_of T) + 3 <= area ->
  run_op fs (FsCreate name) st = Panic.
Proof.
  intros G (d & Hr & HI & Ht) Hfind Hlen Hk Hmax Hsp. cbn [run_op]. rewrite root_vnode.
  rewrite (vfs_create_long_name fs area G st d _ 0 _ name k Hr HI (files_of_root T) (to_good T Ht) Hfind Hlen Hk Hmax); [done|].
  pose proof (length_dir_bytes _ (entries_good_fit _ (to_good T Ht))) as Hl.
  pose proof (create_space fs T k (grow_bytes (dir_bytes (entries T)) (32 * (Z.of_nat (length (entries T)) + 1))) Ht Hk Hmax) as H.
  rewrite length_grow_bytes in H by lia. specialize (H eq_refl). lia.
Qed.

(** C40: a name of 28 bytes jams the directory.  It fills the entry and leaves no
    room for the terminator: [create] makes the file, and from then on every
    search for a name that was not there before, the new one included, panics. *)
Theorem name_of_28_bytes_jams fs area (st : CacheManager D) T name k other :
  geometry fs area -> holds fs area st T -> dir_find name (entries T) = None ->
  Forall (fun b => 0 < b < 256) name -> length name = 28%nat ->
  fresh_inode fs (files_of T) = Some k -> 32 * (Z.of_nat (length (entries T)) + 1) <= MAX_BLOCKS * 512 ->
  space (files_of T) + 3 <= area -> other ∉ (entries T).*1 ->
  exists st', run_op fs (FsCreate name) st = Ret (RInode (Some (vnode fs k)), st') /\
    run_op fs (FsFind other) st' = Panic.
Proof.
  intros G (d & Hr & HI & Ht) Hfind Hb Hlen Hk Hmax Hsp Hother. cbn [run_op]. rewrite root_vnode.
  pose proof (to_good T Ht) as Hg. pose proof (entries_good_fit _ Hg) as Hfit.
  destruct (fresh_inode_spec _ _ _ Hk) as [Hkr _].
  assert (He : entry_fits (name, k)).
  { split_and!; [done|cbn; lia|]. unfold in_width, inode_count in *. cbn. destruct G. lia. }
  assert (Hl : Z.of_nat (length (dir_bytes (entries T ++ [(name, k)]))) = 32 * (Z.of_nat (length (entries T)) + 1)).
  { rewrite length_dir_bytes, length_app by (apply Forall_app; split; [done|by apply Forall_singleton]). cbn. lia. }
  pose proof (create_space fs T k _ Ht Hk Hmax Hl) as Hc.
  destruct (vfs_create_new fs area G st d _ 0 _ name k Hr HI (files_of_root T) Hg Hfind Hb ltac:(lia) Hk Hmax ltac:(lia))
    as (st' & d' & -> & Hr' & HI' & _).
  cbn [mbind outcome_bind]. exists st'. split; [done|].
  rewrite (vfs_find_stuck fs area G st' d' _ 0 (entries T) name k [] other Hr' HI'); [done| |done|by apply Forall_singleton|done|done].
  apply lookup_insert_eq.
Qed.

End Claims.
