(* ===== verification/EfsKernel.v ===== *)
(** * easy-fs under the kernel

    The instance of [FileSystem] that the kernel runs on: the root directory of
    an opened easy-fs.  The kernel decodes a path into characters below 256 and
    easy-fs compares UTF-8, so a name is the encoding of the path.  [open_file],
    [OSInode::read], [write] and [read_all] of [fs/inode.rs] act on the tree. *)
From S2P Require Import Prelude Utf8 EfsCache EfsCacheFacts EfsWords EfsBitmap EfsLayout EfsInodeFacts EfsGrow EfsFileFacts EfsVfs.
From S2P Require Import EfsAlloc EfsInv EfsOps EfsDir EfsMkfs EfsSpec.
From S2P Require Import PageTable UserAccess UserAccessFacts Pipe Task Kernel.
Import Mem UserAccess Task Kernel.

#[export] Instance efs_file_system {D} {BD : BlockDevice D} : FileSystem (Efs.EasyFileSystem * EfsCache.CacheManager D) := {|
  inode := Vfs.Inode;
  fs_find := fun F name =>
    '(r, st) ← Vfs.find F.1 (Vfs.root_inode F.1) (encode_chars name) F.2; Ret (r, (F.1, st));
  fs_create := fun F name =>
    '(r, st) ← Vfs.create F.1 (Vfs.root_inode F.1) (encode_chars name) F.2; Ret (r, (F.1, st));
  fs_clear := fun F i => st ← Vfs.clear F.1 i F.2; Ret (F.1, st);
  fs_read_at := fun F i off len => '(r, st) ← Vfs.read_at i off len F.2; Ret (r, (F.1, st));
  fs_write_at := fun F i off buf => '(n, st) ← Vfs.write_at F.1 i off buf F.2; Ret (n, (F.1, st));
  fs_ls := fun F => '(r, st) ← Vfs.ls (Vfs.root_inode F.1) F.2; Ret (r, (F.1, st));
|}.

Section KernelFs.
Context {D : Type} {BD : BlockDevice D} {EL : BlockDeviceLaws D}.
Abbreviation EF := (Efs.EasyFileSystem * EfsCache.CacheManager D)%type.
Implicit Type k : Kernel EF.
Context (fs : Efs.EasyFileSystem) (area : Z) (G : geometry fs area).

(** The kernel's file system holds the tree. *)
Definition kholds k (T : Tree) : Prop :=
  exists st, fs_state (k_io k) = (fs, st) /\ holds fs area st T.

Lemma fs_find_spec st T name :
  holds fs area st T ->
  exists st', fs_find (fs, st) name = Ret (vnode fs <$> dir_find (encode_chars name) (entries T), (fs, st')) /\ holds fs area st' T.
Proof.
  intros (d & Hr & HI & Ht). pose proof (to_good T Ht) as Hg.
  destruct (vfs_find_spec fs area G d _ 0 _ HI (files_of_root T) (entries_good_fit _ Hg) st (encode_chars name) Hg Hr)
    as (st' & E & Hr').
  exists st'. split; [|by exists d]. cbn [fs_find efs_file_system fst snd]. rewrite root_vnode, E. done.
Qed.

Lemma run_update st T op r T' :
  holds fs area st T -> spec_op fs area T op = Some (r, T') ->
  exists st', run_op fs (map_op (vnode fs) op) st = Ret (map_result (vnode fs) r, st') /\ holds fs area st' T'.
Proof.
  intros Hh Hs. destruct (fs_op_refines fs area G st T op r T' Hh Hs) as (st' & E & H & _). by exists st'.
Qed.

Lemma fs_create_spec st T name r T' :
  holds fs area st T -> spec_create fs area T (encode_chars name) = Some (RInode r, T') ->
  exists st', fs_create (fs, st) name = Ret (vnode fs <$> r, (fs, st')) /\ holds fs area st' T'.
Proof.
  intros Hh Hs. destruct (run_update st T (FsCreate (encode_chars name)) _ T' Hh Hs) as (st' & E & Hh').
  exists st'. split; [|done]. cbn [map_op run_op map_result] in E. apply bind_Ret_inv in E as ([v st1] & E & Ev).
  injection Ev as <- <-. cbn [fs_create efs_file_system fst snd]. by rewrite E.
Qed.

Lemma fs_clear_spec st T h c :
  holds fs area st T -> contents T !! h = Some c ->
  exists st', fs_clear (fs, st) (vnode fs h) = Ret (fs, st') /\ holds fs area st' (mkTree (entries T) (<[h := []]> (contents T))).
Proof.
  intros Hh Hc. destruct (run_update st T (FsClear h) RDone (mkTree (entries T) (<[h := []]> (contents T))) Hh)
    as (st' & E & Hh'). { cbn. by rewrite Hc. }
  exists st'. split; [|done]. cbn [map_op run_op map_result] in E. apply bind_Ret_inv in E as (st1 & E & Ev).
  injection Ev as <-. cbn [fs_clear efs_file_system fst snd]. by rewrite E.
Qed.

Lemma fs_read_spec st T h c off n :
  holds fs area st T -> contents T !! h = Some c -> 0 <= off -> 0 <= n -> off + n < 2 ^ 64 ->
  exists st', fs_read_at (fs, st) (vnode fs h) off n = Ret (EfsCache.slice c off n, (fs, st')) /\ holds fs area st' T.
Proof.
  intros Hh Hc Ho Hn Hw. destruct (run_update st T (FsRead h off n) (RBytes (EfsCache.slice c off n)) T Hh) as (st' & E & Hh').
  { cbn. rewrite Hc. cbn. by rewrite decide_True. }
  exists st'. split; [|done]. cbn [map_op run_op map_result] in E. apply bind_Ret_inv in E as ([v st1] & E & Ev).
  injection Ev as -> <-. cbn [fs_read_at efs_file_system fst snd]. by rewrite E.
Qed.

Lemma fs_write_spec st T h c off buf :
  let T' := mkTree (entries T) (<[h := write_bytes c off buf]> (contents T)) in
  holds fs area st T -> contents T !! h = Some c -> 0 <= off -> buf <> [] ->
  off + Z.of_nat (length buf) <= MAX_BLOCKS * 512 -> Forall (in_width 8) buf -> space (files_of T') <= area ->
  exists st', fs_write_at (fs, st) (vnode fs h) off buf = Ret (Z.of_nat (length buf), (fs, st')) /\ holds fs area st' T'.
Proof.
  intros T' Hh Hc Ho Hne Hm Hb Hsp.
  destruct (run_update st T (FsWrite h off buf) (RCount (Z.of_nat (length buf))) T' Hh) as (st' & E & Hh').
  { cbn [spec_op]. unfold spec_write. rewrite Hc. cbn [mbind option_bind]. by rewrite decide_True. }
  exists st'. split; [|done]. cbn [map_op run_op map_result] in E. apply bind_Ret_inv in E as ([v st1] & E & Ev).
  injection Ev as -> <-. cbn [fs_write_at efs_file_system fst snd]. by rewrite E.
Qed.

(** ** [open_file] *)

Definition spec_open (T : Tree) (name : list Z) (flags : Z) : option (option Z * Tree) :=
  let name := encode_chars name in
  match dir_find name (entries T) with
  | Some h =>
      if bits_contains flags CREATE || bits_contains flags TRUNC
      then Some (Some h, mkTree (entries T) (<[h := []]> (contents T)))
      else Some (Some h, T)
  | None =>
      if bits_contains flags CREATE then
        '(r, T') ← spec_create fs area T name;
        match r with RInode h => Some (h, T') | _ => None end
      else Some (None, T)
  end.

(** The open file that a successful open leaves under a new key. *)
Definition opened (flags h : Z) : OSInode EF :=
  mkOSInode EF _ (read_write flags).1 (read_write flags).2 0 (vnode fs h).

Definition opened_as k (r : option Z) (flags : Z) k' (key : option Z) : Prop :=
  match r with
  | Some h => key = Some (next_inode_key (k_io k)) /\
      os_inodes (k_io k') = <[next_inode_key (k_io k) := opened flags h]> (os_inodes (k_io k)) /\
      next_inode_key (k_io k') = next_inode_key (k_io k) + 1
  | None => key = None /\ os_inodes (k_io k') = os_inodes (k_io k) /\ next_inode_key (k_io k') = next_inode_key (k_io k)
  end.

Lemma dir_find_contents T name h : tree_ok T -> dir_find name (entries T) = Some h -> is_Some (contents T !! h).
Proof.
  intros Ht Hf. apply elem_of_dom, (to_dom T Ht). unfold dir_find in Hf. apply fmap_Some in Hf as ([j [n x]] & Hl & ->).
  apply list_find_Some in Hl as (Hl & _). apply list_elem_of_lookup_2 in Hl. apply list_elem_of_fmap. by exists (n, x).
Qed.

Lemma open_file_spec k T name flags r T' :
  kholds k T -> spec_open T name flags = Some (r, T') ->
  exists k' key, open_file k name flags = Ret (k', key) /\ kholds k' T' /\ opened_as k r flags k' key /\ k_mem k' = k_mem k.
Proof.
  intros (st & Es & Hh) Hs. unfold spec_open in Hs. unfold open_file. rewrite Es.
  destruct (fs_find_spec st T name Hh) as (st1 & E1 & Hh1). rewrite E1. cbn [mbind outcome_bind].
  unfold opened_as, opened. destruct (read_write flags) as [rd wr]. cbn [fst snd].
  destruct (dir_find _ _) as [h|] eqn:Ef; cbn [fmap option_fmap option_map].
  - destruct Hh1 as (d & Hr & HI & Ht). destruct (dir_find_contents T _ h Ht Ef) as [c Hc].
    assert (Hh1 : holds fs area st1 T) by (by exists d). destruct (fs_clear_spec st1 T h c Hh1 Hc) as (st2 & E2 & Hh2).
    rewrite E2. cbn [mbind outcome_bind].
    destruct (bits_contains flags CREATE), (bits_contains flags TRUNC); cbn [orb mbind outcome_bind] in *; injection Hs as <- <-;
      eexists _, _; (split; [reflexivity|]); (split; [eexists; split; [reflexivity|done]|]); done.
  - destruct (bits_contains flags CREATE).
    + destruct (spec_create _ _ _ _) as [[[h| | | |] T1]|] eqn:Ec; cbn [mbind option_bind] in Hs; try done. injection Hs as <- <-.
      destruct (fs_create_spec st1 T name h T1 Hh1 Ec) as (st2 & E2 & Hh2). rewrite E2. cbn [mbind outcome_bind].
      destruct h as [h|]; cbn [fmap option_fmap option_map]; eexists _, _; (split; [reflexivity|]);
        (split; [eexists; split; [reflexivity|done]|]); done.
    + injection Hs as <- <-. eexists _, _. split; [reflexivity|]. split; [|done]. eexists. split; [reflexivity|done].
Qed.

(** ** [OSInode::write] and [read] *)

(** An open file at an offset. *)
Definition at_offset k (key h : Z) (off : Z) : Prop :=
  exists o : OSInode EF, os_inodes (k_io k) !! key = Some o /\ oi_inode o = vnode fs h /\ oi_offset o = off.

Lemma put_offset_at k key h o off' :
  os_inodes (k_io k) !! key = Some o -> oi_inode o = vnode fs h -> at_offset (put_offset k key o off') key h off'.
Proof. intros Ho Hi. eexists. split; [apply lookup_insert_eq|]. done. Qed.

Lemma kholds_put_offset k T key o off : kholds k T -> kholds (put_offset k key o off) T.
Proof. done. Qed.

(** The bytes a user buffer holds. *)
Definition buffer_bytes (m : PhysMem) (buf : list slice) : list Z :=
  concat ((fun s => load_bytes m s.1 (Z.to_nat s.2)) <$> buf).
Definition buffer_len (buf : list slice) : Z := foldr (fun s acc => s.2 + acc) 0 buf.

Lemma length_buffer_bytes m buf : Forall (fun s => 0 < s.2) buf -> Z.of_nat (length (buffer_bytes m buf)) = buffer_len buf.
Proof.
  induction 1 as [|s buf Hs _ IH]; [done|]. change (buffer_len (s :: buf)) with (s.2 + buffer_len buf).
  unfold buffer_bytes in *. cbn [fmap list_fmap concat]. rewrite length_app, length_load_bytes. lia.
Qed.

Lemma cost_mono t c c' :
  Z.of_nat (length c) <= Z.of_nat (length c') -> Z.of_nat (length c') <= MAX_BLOCKS * 512 -> cost (t, c) <= cost (t, c').
Proof.
  intros Hl Hm. unfold cost, MAX_BLOCKS in *. cbn [snd]. apply owned_count_mono. rewrite !data_blocks_small by lia. lia_mod.
Qed.

Lemma length_write_all c off buf :
  0 <= off -> Z.of_nat (length c) <= Z.of_nat (length (write_all c off buf)) <= Z.max (Z.of_nat (length c)) (off + Z.of_nat (length buf)).
Proof. intros Ho. destruct buf as [|b buf]; cbn [write_all]; [cbn; lia|]. rewrite length_write_bytes by done. lia. Qed.

Lemma inode_write_spec buf : forall k T key h c off total,
  let bytes := buffer_bytes (k_mem k) buf in
  let T' := mkTree (entries T) (<[h := write_all c off bytes]> (contents T)) in
  kholds k T -> contents T !! h = Some c -> at_offset k key h off -> 0 <= off ->
  Forall (fun s => 0 < s.2) buf -> Forall (in_width 8) bytes -> off + buffer_len buf <= MAX_BLOCKS * 512 ->
  Z.of_nat (length c) <= MAX_BLOCKS * 512 -> space (files_of T') <= area ->
  exists k', inode_write k key buf total = Ret (k', total + buffer_len buf) /\ kholds k' T' /\
    at_offset k' key h (off + buffer_len buf) /\ k_mem k' = k_mem k.
Proof.
  induction buf as [|[a n] buf IH]; intros k T key h c off total bytes T' Hk Hc Hat Ho Hbuf Hb Hmax Hcm Hsp.
  { exists k. cbn [inode_write buffer_len foldr]. rewrite !Z.add_0_r. split_and!; try done.
    unfold T', bytes, buffer_bytes. cbn. rewrite insert_id by done. by destruct T. }
  apply Forall_cons in Hbuf as [Hn Hbuf]. cbn [snd] in Hn. cbn [buffer_len foldr snd] in Hmax |- *. fold (buffer_len buf) in *.
  destruct Hk as (st & Es & Hh). destruct Hat as (o & Hoi & Hi & Hoff).
  set (b := load_bytes (k_mem k) a (Z.to_nat n)). assert (Hlb : Z.of_nat (length b) = n) by (unfold b; rewrite length_load_bytes; lia).
  assert (Eb : bytes = b ++ buffer_bytes (k_mem k) buf) by done. rewrite Eb in Hb. apply Forall_app in Hb as [Hb1 Hb2].
  pose proof (length_buffer_bytes (k_mem k) buf Hbuf) as Hlr.
  assert (Hbne : b <> []) by (intros E; rewrite E in Hlb; cbn in Hlb; lia).
  assert (Ew : write_all c off b = write_bytes c off b) by (by destruct b).
  assert (Ea : write_all (write_bytes c off b) (off + n) (buffer_bytes (k_mem k) buf) = write_all c off bytes).
  { rewrite <- Ew, Eb, <- Hlb. by apply write_all_app. }
  destruct Hh as (d & Hr & HI & Ht). assert (Hh : holds fs area st T) by (by exists d).
  pose proof (length_write_all (write_bytes c off b) (off + n) (buffer_bytes (k_mem k) buf) ltac:(lia)) as Hlw. rewrite Ea in Hlw.
  pose proof (length_write_bytes c off b Ho) as Hlwb.
  destruct (fs_write_spec st T h c off b Hh Hc Ho Hbne ltac:(lia) Hb1) as (st1 & E1 & Hh1).
  { etransitivity; [|exact Hsp]. unfold T'. rewrite !files_of_update by (done || by rewrite Hc).
    rewrite !(space_update _ _ _ _ (files_of_file T h c Ht Hc)).
    pose proof (cost_mono EfsLayout.File (write_bytes c off b) (write_all c off bytes)). lia. }
  cbn [inode_write]. unfold os_inode. rewrite Hoi. cbn [unwrap mbind outcome_bind]. rewrite Es, Hi, Hoff. fold b. rewrite E1.
  cbn [mbind outcome_bind]. rewrite Hlb, Z.eqb_refl. cbn [assert_ mbind outcome_bind].
  set (k1 := put_offset (set_fs k (fs, st1)) key o (off + n)).
  destruct (IH k1 (mkTree (entries T) (<[h := write_bytes c off b]> (contents T))) key h (write_bytes c off b) (off + n) (total + n))
    as (k' & E' & Hk' & Hat' & Hm').
  { by exists st1. } { apply lookup_insert_eq. } { by apply put_offset_at. } { lia. } { done. } { exact Hb2. } { lia. } { lia. }
  { cbn [entries contents]. rewrite insert_insert_eq. change (k_mem k1) with (k_mem k). by rewrite Ea. }
  exists k'. cbn [entries contents] in Hk'. rewrite insert_insert_eq in Hk'. change (k_mem k1) with (k_mem k) in *. rewrite Ea in Hk'.
  rewrite !Z.add_assoc. by split_and!.
Qed.

Lemma store_list_short m as1 as2 bs : (length bs <= length as1)%nat -> store_list m (as1 ++ as2) bs = store_list m as1 bs.
Proof.
  revert m bs. induction as1 as [|x as1 IH]; intros m [|b bs] Hl; cbn in *; try done; [by destruct as2|lia|]. apply IH. lia.
Qed.

Lemma store_bytes_slice m a n bs : Z.of_nat (length bs) <= n -> store_bytes m a bs = store_list m (slice_addrs (a, n)) bs.
Proof.
  intros Hl. rewrite store_bytes_list. unfold slice_addrs. cbn [fst snd].
  replace n with (Z.of_nat (length bs) + (n - Z.of_nat (length bs))) by lia. rewrite seqZ_app by lia.
  rewrite store_list_short; [done|]. rewrite length_seqZ. lia.
Qed.

Lemma inode_read_spec buf : forall k T key h c off total,
  let bytes := EfsCache.slice c off (buffer_len buf) in
  kholds k T -> contents T !! h = Some c -> at_offset k key h off -> 0 <= off ->
  Forall (fun s => 0 < s.2) buf -> off + buffer_len buf < 2 ^ 64 ->
  exists k', inode_read k key buf total = Ret (k', total + Z.of_nat (length bytes)) /\ kholds k' T /\
    at_offset k' key h (off + Z.of_nat (length bytes)) /\ k_mem k' = store_list (k_mem k) (buffer_addrs buf) bytes.
Proof.
  induction buf as [|[a n] buf IH]; intros k T key h c off total bytes Hk Hc Hat Ho Hbuf Hw.
  { exists k. unfold bytes, EfsCache.slice. cbn. rewrite !Z.add_0_r. by split_and!. }
  apply Forall_cons in Hbuf as [Hn Hbuf]. cbn [snd] in Hn. cbn [buffer_len foldr snd] in Hw. fold (buffer_len buf) in Hw.
  assert (Hl0 : 0 <= buffer_len buf) by (rewrite <- (length_buffer_bytes ∅ buf Hbuf); lia).
  destruct Hk as (st & Es & Hh). destruct Hat as (o & Hoi & Hi & Hoff). set (b := EfsCache.slice c off n).
  assert (Eb : bytes = b ++ EfsCache.slice c (off + Z.of_nat (length b)) (buffer_len buf)).
  { unfold bytes, b. cbn [buffer_len foldr snd]. fold (buffer_len buf). by rewrite slice_all_app by lia. }
  assert (Hlb : Z.of_nat (length b) <= n) by (unfold b, EfsCache.slice; rewrite length_take; lia).
  destruct (fs_read_spec st T h c off n Hh Hc Ho ltac:(lia) ltac:(lia)) as (st1 & E1 & Hh1).
  cbn [inode_read]. unfold os_inode. rewrite Hoi. cbn [unwrap mbind outcome_bind]. rewrite Es, Hi, Hoff, E1. cbn [mbind outcome_bind].
  fold b. set (k1 := set_mem (set_fs k (fs, st1)) (store_bytes (k_mem k) a b)).
  destruct (Z.eqb_spec (Z.of_nat (length b)) 0) as [Hz|Hz].
  - assert (b = []) as Hbn by (destruct b; [done|cbn in Hz; lia]).
    assert (Hend : Z.of_nat (length c) <= off).
    { destruct (decide (Z.of_nat (length c) <= off)); [done|]. unfold b, EfsCache.slice in Hz. rewrite length_take, length_drop in Hz. lia. }
    assert (Hbytes : bytes = []).
    { rewrite Eb, Hbn. cbn. unfold EfsCache.slice. rewrite drop_ge by lia. apply take_nil. }
    exists k1. rewrite Hbytes. cbn [length]. rewrite !Z.add_0_r. split_and!; [done|by exists st1|by exists o|].
    change (k_mem k1) with (store_bytes (k_mem k) a b). rewrite Hbn. by destruct (buffer_addrs ((a, n) :: buf)).
  - destruct (IH (put_offset k1 key o (off + Z.of_nat (length b))) T key h c (off + Z.of_nat (length b)) (total + Z.of_nat (length b)))
      as (k' & E' & Hk' & Hat' & Hm').
    { by exists st1. } { done. } { by apply put_offset_at. } { lia. } { done. } { lia. }
    exists k'. split_and!; [|done| |].
    + rewrite E', Eb, length_app. do 2 f_equal. lia.
    + rewrite Eb, length_app, Nat2Z.inj_add, Z.add_assoc. done.
    + rewrite Hm'. change (k_mem (put_offset k1 _ _ _)) with (store_bytes (k_mem k) a b). rewrite (store_bytes_slice _ a n) by done.
      change (buffer_addrs ((a, n) :: buf)) with (slice_addrs (a, n) ++ buffer_addrs buf). rewrite Eb.
      pose proof (length_slice_addrs (a, n)) as Hls. cbn [snd] in Hls. destruct (decide (Z.of_nat (length b) = n)).
      * rewrite store_list_app; [done|lia].
      * assert (Hnil : EfsCache.slice c (off + Z.of_nat (length b)) (buffer_len buf) = []).
        { unfold b, EfsCache.slice in *. rewrite length_take, length_drop in *. rewrite drop_ge by lia. apply take_nil. }
        rewrite Hnil, app_nil_r, store_list_short by lia. by destruct (buffer_addrs buf).
Qed.

(** ** [read_all] *)

Lemma read_all_spec fuel : forall k T key h c off acc,
  kholds k T -> contents T !! h = Some c -> at_offset k key h off -> 0 <= off < 2 ^ 63 -> Z.of_nat (length c) < 2 ^ 63 ->
  (0 < fuel)%nat -> Z.of_nat (length c) - off <= 512 * (Z.of_nat fuel - 1) ->
  exists k', read_all fuel k key acc = Ret (k', acc ++ drop (Z.to_nat off) c) /\ kholds k' T /\ k_mem k' = k_mem k.
Proof.
  induction fuel as [|fuel IH]; intros k T key h c off acc Hk Hc Hat Ho Hw H0 Hf; [lia|]. pose proof Ho as [Ho0 _].
  destruct Hk as (st & Es & Hh). destruct Hat as (o & Hoi & Hi & Hoff). cbn [read_all]. unfold os_inode.
  rewrite Hoi. cbn [unwrap mbind outcome_bind]. rewrite Es, Hi, Hoff.
  destruct (fs_read_spec st T h c off 512 Hh Hc Ho0 ltac:(lia) ltac:(lia)) as (st1 & -> & Hh1). cbn [mbind outcome_bind].
  set (b := EfsCache.slice c off 512).
  assert (Hlb : length b = Nat.min 512 (length c - Z.to_nat off)) by (unfold b, EfsCache.slice; by rewrite length_take, length_drop).
  destruct (Z.eqb_spec (Z.of_nat (length b)) 0) as [Hz|Hz].
  - rewrite drop_ge by lia. rewrite app_nil_r. eexists. split; [done|]. split; [by exists st1|done].
  - set (k1 := put_offset (set_fs k (fs, st1)) key o (off + Z.of_nat (length b))).
    destruct (IH k1 T key h c (off + Z.of_nat (length b)) (acc ++ b)) as (k' & E & Hk' & Hm).
    { by exists st1. } { done. } { by apply put_offset_at. } { lia. } { lia. } { lia. } { lia. }
    exists k'. split_and!; [|done|done]. rewrite E, <- app_assoc. do 3 f_equal.
    by apply slice_drop.
Qed.

(** ** A file that was just created *)

Lemma dir_find_snoc name h es : dir_find name es = None -> dir_find name (es ++ [(name, h)]) = Some h.
Proof.
  intros Hn. apply dir_find_None in Hn. unfold dir_find. rewrite list_find_app_r.
  - cbn. by rewrite decide_True.
  - apply list_find_None, Forall_forall. intros e He Hen. apply Hn, list_elem_of_fmap. by exists e.
Qed.

Lemma spec_open_created T name flags h T1 :
  bits_contains flags CREATE = true -> spec_open T name flags = Some (Some h, T1) ->
  contents T1 !! h = Some [] /\ dir_find (encode_chars name) (entries T1) = Some h.
Proof.
  intros Hc Hs. unfold spec_open in Hs. rewrite Hc in Hs. cbn [orb] in Hs. destruct (dir_find _ _) as [h0|] eqn:Ef.
  - injection Hs as -> <-. cbn. by rewrite lookup_insert_eq.
  - unfold spec_create in Hs. rewrite Ef in Hs. destruct (fresh_inode fs (files_of T)) as [x|]; cbn [mbind option_bind] in Hs; [|done].
    case_decide; cbn [mbind option_bind] in Hs; [|done]. injection Hs as -> <-. cbn. rewrite lookup_insert_eq. split; [done|].
    by apply dir_find_snoc.
Qed.

End KernelFs.

Section Claims.
Context {D : Type} {BD : BlockDevice D} {EL : BlockDeviceLaws D}.
Implicit Type k : Kernel (Efs.EasyFileSystem * EfsCache.CacheManager D).

(** C28: [open_file] over easy-fs.  With [CREATE] an existing file is emptied and
    a missing one is made, with [TRUNC] alone an existing file is emptied,
    otherwise the tree stays as it is; the open file has the access modes of
    its flags and offset 0 and is added to the open files, and nothing is
    opened exactly when the name is missing and may not be made. *)
Theorem open_file_refines_tree fs area k T name flags r T' :
  geometry fs area -> kholds fs area k T -> spec_open fs area T name flags = Some (r, T') ->
  exists k' key, open_file k name flags = Ret (k', key) /\ kholds fs area k' T' /\ opened_as fs k r flags k' key /\ k_mem k' = k_mem k.
Proof. intros G Hk Hs. by eapply open_file_spec. Qed.

(** [OSInode::read] delivers the file from the offset on: the user buffer
    receives the bytes there are, up to its length, in order over its pages;
    their number is returned and added to the offset; the rest of memory and
    the file system are unchanged. *)
Theorem os_inode_read_delivers fs area k T key h c off buf :
  let bytes := EfsCache.slice c off (buffer_len buf) in
  geometry fs area -> kholds fs area k T -> contents T !! h = Some c -> at_offset fs k key h off -> 0 <= off ->
  Forall (fun s => 0 < s.2) buf -> off + buffer_len buf < 2 ^ 64 ->
  exists k', file_read k (FInode key) buf [] = Ret (k', Some (Z.of_nat (length bytes))) /\ kholds fs area k' T /\
    at_offset fs k' key h (off + Z.of_nat (length bytes)) /\ k_mem k' = store_list (k_mem k) (buffer_addrs buf) bytes.
Proof.
  intros bytes G Hk Hc Hat Ho Hb Hw. destruct (inode_read_spec fs area G buf k T key h c off 0 Hk Hc Hat Ho Hb Hw) as (k' & E & H).
  exists k'. split; [|exact H]. cbn [file_read]. rewrite E. done.
Qed.

(** C27: a file that is created, written and read back.  Opening a path with
    [CREATE | WRONLY] and writing a user buffer leaves a file whose contents
    are the bytes of the buffer: opening the path again and reading it to the
    end, the way [sys_exec] loads a program, returns exactly them. *)
Theorem file_create_write_read fs area k T name h T1 buf fuel :
  let bytes := buffer_bytes (k_mem k) buf in let flags := Z.lor CREATE WRONLY in
  geometry fs area -> kholds fs area k T -> spec_open fs area T name flags = Some (Some h, T1) ->
  Forall (fun s => 0 < s.2) buf -> Forall (in_width 8) bytes -> buf <> [] -> buffer_len buf <= MAX_BLOCKS * 512 ->
  space (files_of (mkTree (entries T1) (<[h := bytes]> (contents T1)))) <= area ->
  buffer_len buf <= 512 * (Z.of_nat fuel - 1) ->
  exists k1 key1 k2 k3 key2 k4, open_file k name flags = Ret (k1, Some key1) /\
    file_write k1 (FInode key1) buf [] = Ret (k2, Some (buffer_len buf)) /\
    open_file k2 name RDONLY = Ret (k3, Some key2) /\ read_all fuel k3 key2 [] = Ret (k4, bytes).
Proof.
  intros bytes flags G Hk Hs Hpos Hb Hne Hmax Hsp Hf. pose proof (length_buffer_bytes (k_mem k) buf Hpos) as Hlen. fold bytes in Hlen.
  destruct (open_file_spec fs area G k T name flags (Some h) T1 Hk Hs) as (k1 & key1 & E1 & Hk1 & (-> & Ho1 & _) & Hm1).
  destruct (spec_open_created fs area T name flags h T1 eq_refl Hs) as [Hc1 Hf1].
  assert (Hat1 : at_offset fs k1 (next_inode_key (k_io k)) h 0) by (eexists; rewrite Ho1; split; [apply lookup_insert_eq|done]).
  assert (Hbl : 0 < buffer_len buf).
  { rewrite <- Hlen. destruct buf as [|s buf]; [done|]. apply Forall_cons in Hpos as [? _]. unfold bytes, buffer_bytes.
    cbn [fmap list_fmap concat]. rewrite length_app, length_load_bytes. lia. }
  assert (Ew : write_all [] 0 bytes = bytes).
  { assert (bytes <> []) by (intros E; rewrite E in Hlen; cbn in Hlen; lia). replace (write_all [] 0 bytes) with (write_bytes [] 0 bytes) by (by destruct bytes).
    unfold write_bytes, EfsCache.splice. cbn [Z.to_nat take app Nat.add]. rewrite drop_ge; [apply app_nil_r|].
    cbn [length app]. rewrite length_replicate. lia. }
  destruct (inode_write_spec fs area G buf k1 T1 (next_inode_key (k_io k)) h [] 0 0 Hk1 Hc1 Hat1 ltac:(lia) Hpos) as (k2 & E2 & Hk2 & _ & _).
  { by rewrite Hm1. } { lia. } { cbn. unfold MAX_BLOCKS. lia. } { rewrite Hm1. fold bytes. by rewrite Ew. }
  rewrite Hm1 in Hk2. fold bytes in Hk2. rewrite Ew in Hk2. set (T2 := mkTree (entries T1) (<[h := bytes]> (contents T1))) in *.
  assert (Hs2 : spec_open fs area T2 name RDONLY = Some (Some h, T2)) by (unfold spec_open; cbn [entries T2]; rewrite Hf1; done).
  destruct (open_file_spec fs area G k2 T2 name RDONLY (Some h) T2 Hk2 Hs2) as (k3 & key2 & E3 & Hk3 & (-> & Ho3 & _) & _).
  assert (Hat3 : at_offset fs k3 (next_inode_key (k_io k2)) h 0) by (eexists; rewrite Ho3; split; [apply lookup_insert_eq|done]).
  destruct (read_all_spec fs area G fuel k3 T2 _ h bytes 0 [] Hk3 (lookup_insert_eq _ _ _) Hat3) as (k4 & E4 & _).
  { lia. } { unfold MAX_BLOCKS in Hmax. lia. } { lia. } { lia. }
  exists k1, (next_inode_key (k_io k)), k2, k3, (next_inode_key (k_io k2)), k4. split_and!; try done.
  cbn [file_write]. rewrite E2. done.
Qed.

End Claims.
