(* ===== verification/EfsExample.v ===== *)
(** * A disk in memory

    A device that satisfies the laws easy-fs relies on, with the theorems about
    the block cache, the bitmaps and the inodes applied to it; then a file
    system on it, and a kernel over that. *)
From S2P Require Import Prelude Utf8 PageTable UserAccess UserAccessFacts Pipe Task Kernel ExampleKernel EfsCache.
From S2P Require Import EfsCacheFacts EfsWords EfsBitmap EfsLayout EfsInodeFacts EfsGrow EfsFileFacts EfsVfs EfsAlloc.
From S2P Require Import EfsInv EfsOps EfsDir EfsMkfs EfsSpec EfsKernel.
Import EfsCache EfsBitmap EfsLayout.

Record RamDisk : Type := Ram { ram : gmap Z (list Z) }.

#[export] Instance block_ok_dec b : Decision (block_ok b).
Proof. unfold block_ok. apply _. Defined.

#[export] Instance ram_device : BlockDevice RamDisk := {|
  read_block := fun dev id =>
    match ram dev !! id with Some b => if decide (block_ok b) then Ret b else Panic | None => Panic end;
  write_block := fun dev id b =>
    match ram dev !! id with
    | Some b0 => if decide (block_ok b0 /\ block_ok b) then Ret (Ram (<[id := b]> (ram dev))) else Panic
    | None => Panic
    end;
|}.

Definition ram_view (dev : RamDisk) : gmap Z (list Z) := filter (fun p => block_ok p.2) (ram dev).

Lemma ram_view_lookup dev id b : ram_view dev !! id = Some b <-> ram dev !! id = Some b /\ block_ok b.
Proof. unfold ram_view. rewrite map_lookup_filter_Some. done. Qed.

#[export] Instance ram_laws : BlockDeviceLaws RamDisk.
Proof.
  refine (Build_BlockDeviceLaws RamDisk _ ram_view _ _ _).
  - intros dev id b Hb. by apply ram_view_lookup in Hb as [_ ?].
  - intros dev id b [Hb Hok]%ram_view_lookup. cbn. rewrite Hb. by rewrite decide_True.
  - intros dev id b [b0 [Hb Hok]%ram_view_lookup] Hb'. cbn. rewrite Hb, decide_True by done. eexists. split; [done|].
    unfold ram_view. cbn. by rewrite map_filter_insert_True.
Defined.

(** Forty empty blocks. *)
Definition ex_dev : RamDisk := Ram (list_to_map ((fun i => (i, replicate 512 0)) <$> seqZ 0 40)).
Definition ex_fs_disk : gmap Z (list Z) := dev_view ex_dev.
Definition ex_manager : CacheManager RamDisk := manager_new ex_dev.

Lemma ex_manager_repr : repr ex_manager ex_fs_disk [].
Proof. exact (manager_new_repr ex_dev). Qed.

Lemma ex_block id : 0 <= id < 40 -> ex_fs_disk !! id = Some (replicate 512 0).
Proof.
  intros Hid. apply ram_view_lookup. split; [|apply (bool_decide_eq_true_1 _); vm_compute; reflexivity].
  unfold ex_dev. cbn [ram]. apply elem_of_list_to_map.
  - rewrite <- list_fmap_compose. cbn. change (NoDup ((fun x : Z => x) <$> seqZ 0 40)).
    rewrite list_fmap_id. apply NoDup_seqZ.
  - apply list_elem_of_fmap. exists id. split; [done|]. apply elem_of_seqZ. lia.
Qed.

Lemma ex_block_some id : 0 <= id < 40 -> is_Some (ex_fs_disk !! id).
Proof. intros. eexists. by apply ex_block. Qed.

(** ** The block cache *)

Definition ex_cache_ops : list cache_op :=
  OpWrite 3 1 [7; 8] :: OpSyncAll :: OpWrite 3 2 [9] :: (OpRead <$> seqZ 10 20) ++ [OpRead 3].

Lemma block_cache_refines_disk_witness :
  exists st, run_cache_ops (manager_new ex_dev) ex_cache_ops
    = Ret ((disk_ops (dev_view ex_dev) ex_cache_ops).1, st).
Proof.
  destruct (block_cache_refines_disk ex_dev ex_cache_ops) as (st & E & _).
  - unfold ex_cache_ops. apply Forall_cons_2; [|apply Forall_cons_2; [exact I|apply Forall_cons_2]].
    + split_and!; [by apply ex_block_some|lia|cbn; lia|]. repeat constructor; vm_compute; congruence.
    + split_and!; [by apply ex_block_some|lia|cbn; lia|]. repeat constructor; vm_compute; congruence.
    + apply Forall_app. split.
      * apply Forall_fmap, Forall_forall. intros id Hid%elem_of_seqZ. cbn. apply ex_block_some. lia.
      * apply Forall_singleton. by apply ex_block_some.
  - exists st. exact E.
Defined.

(** ** Bitmaps *)

Definition ex_bitmap : Bitmap := mkBitmap 1 1.

Lemma ex_bitmap_ok : bitmap_ok ex_fs_disk ex_bitmap.
Proof.
  split; cbn; try lia. intros id Hid. unfold in_bitmap in Hid. cbn in Hid. apply ex_block_some. lia.
Qed.

Lemma ex_tracks : tracks ex_fs_disk ex_bitmap ∅.
Proof.
  intros k Hk. cbn in Hk. unfold bit_set, word_of. cbn [start_block_id ex_bitmap].
  replace (k / 4096) with 0 by lia_mod. rewrite ex_block by lia. cbn [default from_option Datatypes.id].
  assert (words 8 64 (replicate 512 0) = replicate 64 0) as -> by (vm_compute; reflexivity).
  rewrite lookup_replicate_2 by lia_mod. cbn [default from_option Datatypes.id]. rewrite Z.bits_0.
  symmetry. by apply bool_decide_eq_false_2.
Qed.

Definition ex_bitmap_ops : list bitmap_op := [BmAlloc; BmAlloc; BmDealloc 0; BmAlloc; BmAlloc].

Lemma ex_set_ops : exists s, set_ops (blocks ex_bitmap * 4096) ∅ ex_bitmap_ops = Some ([Some 0; Some 1; None; Some 0; Some 2], s).
Proof. eexists. vm_compute. reflexivity. Qed.

Lemma bitmap_refines_set_witness :
  exists st, run_bitmap_ops ex_bitmap ex_manager ex_bitmap_ops = Ret ([Some 0; Some 1; None; Some 0; Some 2], st).
Proof.
  pose proof (bitmap_refines_set ex_manager ex_fs_disk ex_bitmap ∅ ex_bitmap_ops ex_manager_repr ex_bitmap_ok ex_tracks) as H.
  destruct ex_set_ops as [s E]. rewrite E in H. destruct H as (st & d' & H & _).
  - repeat (apply Forall_cons_2; [first [exact I | cbn; lia]|]). apply Forall_nil_2.
  - exists st. exact H.
Defined.

(** ** Inodes *)

Lemma ex_inode_ok n di : inode_fields_ok di -> 0 <= n <= 2 -> owned ex_fs_disk di n = seqZ 5 n -> inode_ok ex_fs_disk di n.
Proof.
  intros Hf Hn Ho. split; rewrite ?Ho; [done|unfold MAX_BLOCKS; lia|apply NoDup_seqZ|].
  intros id Hid%elem_of_seqZ. apply ex_block_some. lia.
Qed.

Lemma ex_fields di : forallb (fun v => (0 <=? v) && (v <? 2 ^ 32)) (inode_words di) = true ->
  length (direct di) = 28%nat -> inode_fields_ok di.
Proof.
  intros H Hl. split; [done|]. apply Forall_forall. intros v Hv%list_elem_of_In.
  apply (proj1 (forallb_forall _ _) H) in Hv. unfold in_width. lia.
Qed.

Definition ex_empty : DiskInode := initialize File.
Definition ex_file : DiskInode := mkInode 600 ([5; 6] ++ replicate 26 0) 0 0 File.

Lemma ex_empty_ok : inode_ok ex_fs_disk ex_empty 0.
Proof. apply ex_inode_ok; [by apply ex_fields|lia|reflexivity]. Qed.

Lemma ex_file_ok : inode_ok ex_fs_disk ex_file 2.
Proof. apply ex_inode_ok; [by apply ex_fields|lia|reflexivity]. Qed.

Lemma increase_size_appends_witness :
  exists di' st', increase_size ex_empty 600 [5; 6] ex_manager = Ret (di', st') /\ size di' = 600.
Proof.
  destruct (increase_size_appends ex_manager ex_fs_disk [] ex_empty 600 [5; 6])
    as (di' & st' & d' & E & _ & _ & Hs & _).
  - exact ex_manager_repr.
  - exact ex_empty_ok.
  - cbn. lia.
  - unfold MAX_BLOCKS. lia.
  - cbn. unfold BLOCK_CACHE_SIZE. lia.
  - reflexivity.
  - repeat constructor; vm_compute; congruence.
  - apply (bool_decide_eq_true_1 _). vm_compute. reflexivity.
  - intros id Hid. split; [|apply not_elem_of_nil]. apply ex_block_some.
    change (id ∈ [5; 6]) in Hid. rewrite !elem_of_cons in Hid. destruct Hid as [->|[->|[]%not_elem_of_nil]]; lia.
  - exists di', st'. exact (conj E Hs).
Defined.

Lemma ex_unlocked di n : unlocked ex_fs_disk di n [].
Proof. intros id _. apply not_elem_of_nil. Qed.

Lemma disk_inode_write_read_witness :
  exists st1 st2, write_at ex_file 510 [1; 2; 3] ex_manager = Ret (3, st1) /\
    read_at ex_file 509 5 st1 = Ret ([0; 1; 2; 3; 0], st2).
Proof.
  destruct (disk_inode_write_read ex_manager ex_fs_disk [] ex_file 510 [1; 2; 3] 509 5) as (st1 & d1 & st2 & E1 & E2 & _).
  - exact ex_manager_repr.
  - exact ex_file_ok.
  - apply ex_unlocked.
  - cbn. unfold BLOCK_CACHE_SIZE. lia.
  - unfold MAX_BLOCKS. cbn. lia.
  - lia.
  - discriminate.
  - cbn. lia.
  - repeat constructor; vm_compute; congruence.
  - lia.
  - lia.
  - lia.
  - exists st1, st2. split; [exact E1|]. rewrite E2. do 2 f_equal.
Defined.

Lemma clear_size_returns_owned_witness :
  exists v di' st', clear_size ex_file ex_manager = Ret (v, di', st') /\ v ≡ₚ [5; 6].
Proof.
  destruct (clear_size_returns_owned ex_manager ex_fs_disk [] ex_file) as (v & di' & st' & E & _ & Hv & _).
  - exact ex_manager_repr.
  - exact ex_file_ok.
  - apply ex_unlocked.
  - cbn. unfold BLOCK_CACHE_SIZE. lia.
  - unfold MAX_BLOCKS. cbn. lia.
  - exists v, di', st'. exact (conj E Hv).
Defined.

(** ** A file system in memory

    The theorems of [EfsSpec] applied to a device of 1100 blocks. *)
Import EfsCache EfsBitmap EfsLayout Efs.

Definition big_dev : RamDisk := Ram (list_to_map ((fun i => (i, replicate 512 7)) <$> seqZ 0 1100)).

Lemma big_there id : 0 <= id < 1100 -> is_Some (dev_view big_dev !! id).
Proof.
  intros Hid. exists (replicate 512 7). apply ram_view_lookup. split; [|apply (bool_decide_eq_true_1 _); vm_compute; reflexivity].
  unfold big_dev. cbn [ram]. apply elem_of_list_to_map.
  - rewrite <- list_fmap_compose. cbn. change (NoDup ((fun x : Z => x) <$> seqZ 0 1100)).
    rewrite list_fmap_id. apply NoDup_seqZ.
  - apply list_elem_of_fmap. exists id. split; [done|]. apply elem_of_seqZ. lia.
Qed.

Lemma big_ok : mkfs_ok 1100 1.
Proof. unfold mkfs_ok. lia. Qed.

Definition big_fs : EasyFileSystem := layout_of 1100 1.

Lemma mkfs_then_open_witness :
  exists st st', create 1100 1 (manager_new big_dev) = Ret (big_fs, st) /\
    open_ (manager_new (block_device st)) = Ret (big_fs, st').
Proof.
  destruct (mkfs_then_open big_dev 1100 1 big_ok big_there) as (st & E & _ & _ & st' & E' & _).
  exists st, st'. exact (conj E E').
Defined.

Lemma big_holds : exists st, geometry big_fs 73 /\ holds big_fs 73 st empty_tree.
Proof.
  destruct (mkfs_holds big_dev 1100 1 big_ok big_there) as (st & _ & HG & Hh & _). exists st. exact (conj HG Hh).
Qed.

(** A file [a], written across a block border past its end. *)
Definition big_ops : list (fs_op Z) :=
  [FsCreate [97]; FsWrite 1 510 [1; 2; 3]; FsCreate [98; 99]; FsRead 1 508 10; FsFind [97]; FsCreate [97]; FsLs; FsClear 1;
   FsRead 1 0 4; FsFind [120]].

Definition big_results : list (fs_result Z) :=
  [RInode (Some 1); RCount 3; RInode (Some 2); RBytes [0; 0; 1; 2; 3]; RInode (Some 1); RInode None; RNames [[97]; [98; 99]];
   RDone; RBytes []; RInode None].

Lemma big_spec : exists T, spec_ops big_fs 73 empty_tree big_ops = Some (big_results, T).
Proof. eexists. vm_compute. reflexivity. Qed.

Lemma easy_fs_refines_tree_witness :
  exists st st', run_ops big_fs (map_op (vnode big_fs) <$> big_ops) st = Ret (map_result (vnode big_fs) <$> big_results, st').
Proof.
  destruct big_holds as (st & HG & Hh). destruct big_spec as [T Hs].
  destruct (easy_fs_refines_tree big_fs 73 st empty_tree big_ops big_results T HG Hh Hs) as (st' & E & _).
  exists st, st'. exact E.
Defined.

Lemma big_create : exists T, spec_op big_fs 73 empty_tree (FsCreate [97]) = Some (RInode (Some 1), T).
Proof. eexists. vm_compute. reflexivity. Qed.

Lemma updates_survive_remount_witness :
  exists st st' st'', run_op big_fs (FsCreate [97]) st = Ret (RInode (Some (vnode big_fs 1)), st') /\
    open_ (manager_new (block_device st')) = Ret (big_fs, st'').
Proof.
  destruct big_holds as (st & HG & Hh). destruct big_create as [T Hs].
  destruct (updates_survive_remount big_fs 73 st empty_tree (FsCreate [97]) (RInode (Some 1)) T HG Hh Hs I)
    as (st' & E & st'' & E' & _).
  exists st, st', st''. exact (conj E E').
Defined.

Lemma big_fresh : fresh_inode big_fs (files_of empty_tree) = Some 1.
Proof. vm_compute. reflexivity. Qed.

Lemma big_room : space (files_of empty_tree) + 3 <= 73.
Proof. vm_compute. discriminate. Qed.

Lemma create_long_name_panics_witness : exists st, run_op big_fs (FsCreate (replicate 29 97)) st = Panic.
Proof.
  destruct big_holds as (st & HG & Hh). exists st.
  apply (create_long_name_panics big_fs 73 st empty_tree (replicate 29 97) 1 HG Hh).
  - reflexivity.
  - cbn. lia.
  - exact big_fresh.
  - vm_compute. discriminate.
  - exact big_room.
Defined.

Lemma name_of_28_bytes_jams_witness :
  exists st st', run_op big_fs (FsCreate (replicate 28 97)) st = Ret (RInode (Some (vnode big_fs 1)), st') /\
    run_op big_fs (FsFind [98]) st' = Panic.
Proof.
  destruct big_holds as (st & HG & Hh). exists st.
  apply (name_of_28_bytes_jams big_fs 73 st empty_tree (replicate 28 97) 1 [98] HG Hh).
  - reflexivity.
  - apply Forall_replicate. lia.
  - reflexivity.
  - exact big_fresh.
  - vm_compute. discriminate.
  - exact big_room.
  - apply not_elem_of_nil.
Defined.

(** ** A kernel over a file system in memory

    The theorems of [EfsKernel] applied to the small kernel of [ExampleKernel]
    on the file system above. *)
Import Mem UserAccess Task Kernel.

Abbreviation ExFs := (Efs.EasyFileSystem * EfsCache.CacheManager RamDisk)%type.

(** Open file 0 is inode [h] at offset [off]. *)
Definition fs_kernel (st : EfsCache.CacheManager RamDisk) (h : Z) (off : Z) : Kernel ExFs :=
  let k := ex_kernel 1 2 in
  mkKernel ExFs _ (k_fw k) (KERNEL_SPACE k) (PID_ALLOCATOR k) (k_sched k) (k_audit k)
    (mkIoState ExFs _ 2 ∅ {[ 0 := mkOSInode ExFs _ true true off (vnode big_fs h) ]} 1 [] (big_fs, st) [] []).

Lemma fs_kernel_holds st h off T : holds big_fs 73 st T -> kholds big_fs 73 (fs_kernel st h off) T.
Proof. intros H. by exists st. Qed.

Definition ex_out : list slice := [(0x80601000, 16); (0x80602000, 20)].

(** The path [f]. *)
Lemma ex_open_spec : exists T, spec_open big_fs 73 empty_tree [102] (Z.lor CREATE WRONLY) = Some (Some 1, T) /\
  space (files_of (mkTree (entries T) (<[1 := buffer_bytes ex_mem ex_out]> (contents T)))) <= 73.
Proof. eexists. split; [vm_compute; reflexivity|]. vm_compute. discriminate. Qed.

Lemma open_file_refines_tree_witness :
  exists st k' key, open_file (fs_kernel st 1 0) [102] (Z.lor CREATE WRONLY) = Ret (k', Some key).
Proof.
  destruct big_holds as (st & HG & Hh). destruct ex_open_spec as (T & Hs & _).
  destruct (open_file_refines_tree big_fs 73 (fs_kernel st 1 0) empty_tree [102] (Z.lor CREATE WRONLY) (Some 1) T HG
              (fs_kernel_holds st 1 0 _ Hh) Hs) as (k' & key & E & _ & [Hk _] & _).
  exists st, k', (next_inode_key (k_io (fs_kernel st 1 0))). rewrite <- Hk. exact E.
Defined.

(** Two pages of a user buffer. *)
Definition ex_buffer : list slice := [(0x80700FF0, 16); (0x80702000, 20)].

Lemma ex_file_tree_spec : exists T, spec_ops big_fs 73 empty_tree [FsCreate [102]; FsWrite 1 0 [1; 2; 3; 4; 5]]
  = Some ([RInode (Some 1); RCount 5], T) /\ contents T !! 1 = Some [1; 2; 3; 4; 5].
Proof. eexists. split; vm_compute; reflexivity. Qed.

Lemma ex_file_holds : exists st T, geometry big_fs 73 /\ holds big_fs 73 st T /\ contents T !! 1 = Some [1; 2; 3; 4; 5].
Proof.
  destruct big_holds as (st & HG & Hh). destruct ex_file_tree_spec as (T & Hs & Hc).
  destruct (fs_ops_refine big_fs 73 HG _ st empty_tree _ T Hh Hs) as (st' & _ & Hh').
  exists st', T. exact (conj HG (conj Hh' Hc)).
Qed.

Lemma os_inode_read_delivers_witness :
  exists st k', file_read (fs_kernel st 1 2) (FInode 0) ex_buffer [] = Ret (k', Some 3).
Proof.
  destruct ex_file_holds as (st & T & HG & Hh & Hc).
  destruct (os_inode_read_delivers big_fs 73 (fs_kernel st 1 2) T 0 1 [1; 2; 3; 4; 5] 2 ex_buffer HG (fs_kernel_holds st 1 2 T Hh) Hc)
    as (k' & E & _).
  - eexists. split; [reflexivity|]. split; reflexivity.
  - lia.
  - repeat (apply Forall_cons_2; [cbn; lia|]). apply Forall_nil_2.
  - cbn. lia.
  - exists st, k'. exact E.
Defined.

Lemma file_create_write_read_witness :
  exists st k1 key1 k2 k3 key2 k4, open_file (fs_kernel st 1 0) [102] (Z.lor CREATE WRONLY) = Ret (k1, Some key1) /\
    file_write k1 (FInode key1) ex_out [] = Ret (k2, Some 36) /\
    open_file k2 [102] RDONLY = Ret (k3, Some key2) /\
    read_all 3 k3 key2 [] = Ret (k4, buffer_bytes (k_mem (fs_kernel st 1 0)) ex_out).
Proof.
  destruct big_holds as (st & HG & Hh). destruct ex_open_spec as (T & Hs & Hsp). exists st.
  apply (file_create_write_read big_fs 73 (fs_kernel st 1 0) empty_tree [102] 1 T ex_out 3 HG (fs_kernel_holds st 1 0 _ Hh) Hs).
  - repeat (apply Forall_cons_2; [cbn; lia|]). apply Forall_nil_2.
  - apply (bool_decide_eq_true_1 _). vm_compute. reflexivity.
  - discriminate.
  - vm_compute. discriminate.
  - exact Hsp.
  - vm_compute. discriminate.
Defined.
