(* ===== verification/AuditCtl.v ===== *)
(** * The audit viewer

    [user/src/audit.rs] and [user/src/bin/auditctl.rs]: the user-side audit
    interface and the program that prints statistics and records.  The two
    system calls are an interface, [AuditService]: a call returns its result,
    what it left in the caller's buffer, and the state other processes will
    find.  What the program prints is the list of strings passed to [print!]
    and [println!], newlines included. *)
From stdpp Require Import strings pretty.
From S2P Require Import Prelude IpcApi AuditLog AuditFacts.
Import Audit.

(** [syscall::{sys_ipc_stat, sys_audit_read}] with valid buffers. *)
Class AuditService (W : Type) : Type := {
  svc_stat : W -> IpcStatsV1 -> Z * IpcStatsV1 * W;
  svc_read : W -> list AuditRecordV1 -> Z -> Z * list AuditRecordV1 * W;
}.

Module AuditCtl.
Local Open Scope string_scope.
Local Open Scope Z_scope.

(** ** [audit.rs] *)

Definition EPERM : Z := 1.
Definition ESRCH : Z := 3.
Definition EAGAIN : Z := 11.
Definition EFAULT : Z := 14.
Definition EINVAL : Z := 22.
Definition EMFILE : Z := 24.
Definition ENOSPC : Z := 28.

(** The [Default] values of the two structures. *)
Definition record_default : AuditRecordV1 := mkRecord 0 0 0 0 0 0 0 0 0 0 0 0 0 0 0.
Definition stats_default : IpcStatsV1 := mkStats 0 0 0 0 0 0 0 0 0 0 0 0.

Definition succeeded (self : AuditRecordV1) : bool := r_errno self =? 0.
Definition has_gap_before (self : AuditRecordV1) : bool :=
  negb (Z.land (r_flags self) AUDIT_RECORD_F_GAP_BEFORE =? 0).

Definition operation_name (operation : Z) : option string :=
  if operation =? AUDIT_OP_UNSPECIFIED then Some "unspecified"
  else if operation =? AUDIT_OP_SIGNAL_SEND then Some "signal_send"
  else if operation =? AUDIT_OP_PIPE_CREATE then Some "pipe_create"
  else if operation =? AUDIT_OP_PIPE_READ then Some "pipe_read"
  else if operation =? AUDIT_OP_PIPE_WRITE then Some "pipe_write"
  else if operation =? AUDIT_OP_AUDIT_READ then Some "audit_read"
  else if operation =? AUDIT_OP_IPC_STAT then Some "ipc_stat"
  else None.

Section Program.
Context {W : Type} {S : AuditService W}.
Implicit Type w : W.
Implicit Type out : list string.

(** [audit::stat] and [audit::read] *)
Definition stat w (stats : IpcStatsV1) : Z * IpcStatsV1 * W := svc_stat w stats.
Definition read w (records : list AuditRecordV1) (after_sequence : Z) : Z * list AuditRecordV1 * W :=
  svc_read w records after_sequence.

(** ** [auditctl.rs] *)

Definition BATCH_SIZE : nat := 32.
Definition EXIT_ERROR : Z := 1.
Definition EXIT_USAGE : Z := 2.

Definition nl : string := String (Ascii.ascii_of_nat 10) EmptyString.
Definition println (s : string) out : list string := out ++ [s +:+ nl].
Definition print (s : string) out : list string := out ++ [s].
Definition dec (z : Z) : string := pretty z.

Definition usage out : list string :=
  println "  Requires UID 0 or AUDIT_READ capability; time_ms is kernel time."
    (println "  after_sequence: last processed sequence, unsigned decimal u64"
       (println "  read: read through the initial log tail (default cursor: 0)"
          (println "  stat: show audit buffer statistics"
             (println "Usage: auditctl stat | read [after_sequence] | help" out)))).

Definition errno_name (errno : Z) : string :=
  if errno =? 1 then "EPERM" else if errno =? 3 then "ESRCH" else if errno =? 11 then "EAGAIN"
  else if errno =? 14 then "EFAULT" else if errno =? 22 then "EINVAL" else if errno =? 24 then "EMFILE"
  else if errno =? 28 then "ENOSPC" else "UNKNOWN".

Definition syscall_error (call : string) (result : Z) out : Z * list string :=
  let errno := Z.abs result in
  (EXIT_ERROR,
   println ("auditctl: " +:+ call +:+ " failed: " +:+ errno_name errno +:+ " (errno=" +:+ dec errno +:+
            ", return=" +:+ dec result +:+ ")") out).

Definition load_stats w out : result Z IpcStatsV1 * W * list string :=
  let '(result, stats, w) := stat w stats_default in
  if result <? 0 then
    let '(code, out) := syscall_error "ipc_stat" result out in (Err code, w, out)
  else if negb (result =? 0) then
    (Err EXIT_ERROR, w, println ("auditctl: invalid ipc_stat return value: " +:+ dec result) out)
  else if negb (s_abi_version stats =? AUDIT_ABI_VERSION) || negb (s_struct_size stats =? IPC_STATS_V1_SIZE) then
    (Err EXIT_ERROR, w,
     println ("auditctl: incompatible stats ABI: version=" +:+ dec (s_abi_version stats) +:+
              ", size=" +:+ dec (s_struct_size stats)) out)
  else if negb (load_stats_consistent stats) then
    (Err EXIT_ERROR, w, println "auditctl: inconsistent audit statistics" out)
  else (Ok stats, w, out).

Definition show_stats w out : Z * W * list string :=
  let '(r, w, out) := load_stats w out in
  match r with
  | Err code => (code, w, out)
  | Ok stats =>
      (0, w,
       println ("first_sequence=" +:+ dec (s_first_sequence stats) +:+ " next_sequence=" +:+ dec (s_next_sequence stats))
         (println ("total_events=" +:+ dec (s_total_events stats) +:+ " successful_events=" +:+ dec (s_successful_events stats) +:+
                   " failed_events=" +:+ dec (s_failed_events stats) +:+ " overwritten_events=" +:+ dec (s_overwritten_events stats))
            (println ("capacity=" +:+ dec (s_capacity stats) +:+ " retained=" +:+ dec (s_retained stats)) out)))
  end.

Definition show_record (record : AuditRecordV1) out : list string :=
  let out := print ("seq=" +:+ dec (r_sequence record) +:+ " time_ms=" +:+ dec (r_timestamp_ms record) +:+
                    " pid=" +:+ dec (r_subject_pid record) +:+ " uid=" +:+ dec (r_subject_uid record) +:+
                    " op=" +:+ default "unknown" (operation_name (r_operation record)) +:+ "(" +:+ dec (r_operation record) +:+
                    ") object_id=" +:+ dec (r_object_id record) +:+ " owner_uid=") out in
  let out := if r_object_owner_uid record =? AUDIT_UID_UNKNOWN then print "unknown" out
             else print (dec (r_object_owner_uid record)) out in
  let out := print (" requested=" +:+ dec (r_requested_amount record)) out in
  if succeeded record then println (" result=" +:+ dec (r_result_value record) +:+ " status=OK") out
  else println (" status=ERROR errno=" +:+ dec (r_errno record) +:+ "(" +:+ errno_name (wrap 64 (r_errno record)) +:+ ")") out.

Definition show_gap (record : AuditRecordV1) out : list string :=
  if has_gap_before record then
    println ("auditctl: warning: GAP_BEFORE before sequence " +:+ dec (r_sequence record) +:+ "; records were overwritten") out
  else out.

(** The checks on one record of a batch. *)
Definition bad_record (index : nat) (previous : Z) (record : AuditRecordV1) : bool :=
  negb (r_abi_version record =? AUDIT_ABI_VERSION) || negb (r_record_size record =? AUDIT_RECORD_V1_SIZE) ||
  (r_sequence record <=? previous) || (r_errno record <? 0) || (negb (Nat.eqb index 0) && has_gap_before record).

(** The index of the first record that fails them. *)
Fixpoint validate (index : nat) (previous : Z) (records : list AuditRecordV1) : option nat :=
  match records with
  | [] => None
  | record :: rest =>
      if bad_record index previous record then Some index
      else validate (Datatypes.S index) (r_sequence record) rest
  end.

(** [for record in &records[..count]]; the flag says whether the loop was left by [break 'read]. *)
Fixpoint show_batch (through : Z) (records : list AuditRecordV1) (cursor displayed : Z) out
    : bool * Z * Z * list string :=
  match records with
  | [] => (false, cursor, displayed, out)
  | record :: rest =>
      let out := show_gap record out in
      if through <? r_sequence record then (true, cursor, displayed, out)
      else show_batch through rest (r_sequence record) (wrap 64 (displayed + 1)) (show_record record out)
  end.

Definition summary (displayed cursor through : Z) out : Z * list string :=
  (0, println ("auditctl: records=" +:+ dec displayed +:+ " cursor=" +:+ dec cursor +:+ " through=" +:+ dec through) out).

(** One round of the loop of [read_records], from the loop condition on. *)
Definition read_round (through : Z) (s : Z * Z * list AuditRecordV1 * W * list string)
    : outcome ((Z * Z * list AuditRecordV1 * W * list string) + (Z * W * list string)) :=
  let '(cursor, displayed, records, w, out) := s in
  let finish cursor displayed w out := let '(code, out) := summary displayed cursor through out in Ret (inr (code, w, out)) in
  if negb (cursor <? through) then finish cursor displayed w out
  else
    let '(result, records, w) := read w records cursor in
    if result <? 0 then
      let '(_, out) := syscall_error "audit_read" result out in
      Ret (inr (EXIT_ERROR, w, println ("auditctl: retry with: auditctl read " +:+ dec cursor) out))
    else if result =? 0 then finish cursor displayed w out
    else if Z.of_nat (length records) <? result then
      Ret (inr (EXIT_ERROR, w, println ("auditctl: invalid audit_read count: " +:+ dec result) out))
    else
      let batch := take (Z.to_nat result) records in
      match validate 0 cursor batch with
      | Some index =>
          Ret (inr (EXIT_ERROR, w,
            println ("auditctl: invalid audit record at batch index " +:+ dec (Z.of_nat index) +:+ "; cursor=" +:+ dec cursor) out))
      | None =>
          let '(broke, cursor, displayed, out) := show_batch through batch cursor displayed out in
          if broke then finish cursor displayed w out
          else Ret (inl (cursor, displayed, records, w, out))
      end.

Definition read_records (fuel : nat) (cursor : Z) w out : outcome (Z * W * list string) :=
  let '(r, w, out) := load_stats w out in
  match r with
  | Err code => Ret (code, w, out)
  | Ok stats =>
      let through := wrap 64 (s_next_sequence stats - 1) in
      while_loop fuel (read_round through) (cursor, 0, replicate BATCH_SIZE record_default, w, out)
  end.

(** [after.parse::<u64>()] on a string of digits. *)
Definition digit (c : Ascii.ascii) : option Z :=
  let n := Z.of_nat (Ascii.nat_of_ascii c) in if (48 <=? n) && (n <=? 57) then Some (n - 48) else None.

Fixpoint parse_u64 (acc : Z) (s : string) : option Z :=
  match s with
  | EmptyString => Some acc
  | String c s' =>
      d ← digit c;
      m ← checked_mul 64 acc 10;
      n ← checked_add 64 m d;
      parse_u64 n s'
  end.

Fixpoint all_digits (s : string) : bool :=
  match s with
  | EmptyString => true
  | String c s' => match digit c with Some _ => all_digits s' | None => false end
  end.

Definition is_empty (s : string) : bool := match s with EmptyString => true | _ => false end.

Definition main (fuel : nat) (argv : list string) w out : outcome (Z * W * list string) :=
  match drop 1 argv with
  | [a] =>
      if String.eqb a "help" || String.eqb a "--help" || String.eqb a "-h" then Ret (0, w, usage out)
      else if String.eqb a "stat" then Ret (show_stats w out)
      else if String.eqb a "read" then read_records fuel 0 w out
      else Ret (EXIT_USAGE, w, usage out)
  | [a; after] =>
      if String.eqb a "read" then
        match (if negb (is_empty after) && all_digits after then parse_u64 0 after else None) with
        | Some cursor => read_records fuel cursor w out
        | None => Ret (EXIT_USAGE, w, usage (println "auditctl: invalid after_sequence" out))
        end
      else Ret (EXIT_USAGE, w, usage out)
  | _ => Ret (EXIT_USAGE, w, usage out)
  end.

End Program.
End AuditCtl.
