(* ===== verification/AuditCtlFacts.v ===== *)
(** * What the audit viewer promises

    [auditctl] against two views of the system.  Against an arbitrary kernel,
    which may return anything at all from the two audit calls, it ends, with an
    exit code of its own, because a batch is shown only after its sequence
    numbers were found to grow.  Against a kernel that keeps the promises of
    [AuditServiceLaws], it shows every event up to the tail it started with, in
    order, or reports the place where events were overwritten. *)
From stdpp Require Import strings.
From S2P Require Import Prelude IpcApi AuditLog AuditFacts AuditCallFacts AuditCtl.
Import Audit AuditCtl.

(** ** Output only grows *)

Section Output.
Implicit Types out ls : list string.

Lemma println_prefix s out ls : ls `prefix_of` out -> ls `prefix_of` println s out.
Proof. intros. by apply prefix_app_r. Qed.
Lemma print_prefix s out ls : ls `prefix_of` out -> ls `prefix_of` print s out.
Proof. intros. by apply prefix_app_r. Qed.
Lemma output_refl out : out `prefix_of` out.
Proof. done. Qed.
End Output.

Create HintDb output.
#[export] Hint Resolve println_prefix print_prefix output_refl : output.

Lemma usage_prefix out ls : ls `prefix_of` out -> ls `prefix_of` usage out.
Proof. intros. unfold usage. auto 10 with output. Qed.

Lemma show_record_prefix r out ls : ls `prefix_of` out -> ls `prefix_of` show_record r out.
Proof. intros. unfold show_record. repeat case_match; auto 10 with output. Qed.

Lemma show_gap_prefix r out ls : ls `prefix_of` out -> ls `prefix_of` show_gap r out.
Proof. intros. unfold show_gap. case_match; auto with output. Qed.

#[export] Hint Resolve usage_prefix show_record_prefix show_gap_prefix : output.

Lemma show_batch_prefix through recs c d out ls b c' d' out' :
  ls `prefix_of` out -> show_batch through recs c d out = (b, c', d', out') -> ls `prefix_of` out'.
Proof.
  revert c d out. induction recs as [|r recs IH]; intros c d out Hp E; cbn in E; [by simplify_eq|].
  case_match; [simplify_eq; auto with output|]. eapply IH; [|done]. auto with output.
Qed.

(** ** Any kernel *)

(** A batch that passed the checks moves the cursor forward. *)
Lemma validate_cons index prev r recs :
  validate index prev (r :: recs) = None ->
  prev < r_sequence r /\ validate (Datatypes.S index) (r_sequence r) recs = None.
Proof.
  cbn. unfold bad_record. case_match eqn:E; [done|]. intros Hv. split; [|done].
  repeat (apply orb_false_iff in E as [E ?]). by apply Z.leb_gt.
Qed.

Lemma show_batch_progress through index recs c d out c' d' out' :
  validate index c recs = None -> show_batch through recs c d out = (false, c', d', out') ->
  c + Z.of_nat (Nat.min 1 (length recs)) <= c'.
Proof.
  revert index c d out. induction recs as [|r recs IH]; intros index c d out Hv E; cbn in E.
  { simplify_eq. cbn. lia. }
  apply validate_cons in Hv as [Hlt Hv]. case_match; [done|].
  apply (IH _ _ _ _ Hv) in E. cbn [length]. lia.
Qed.

Section AnyKernel.
Context {W : Type} {S : AuditService W}.
Implicit Type w : W.
Implicit Type out : list string.

Lemma load_stats_codes w out r w' out' :
  load_stats w out = (r, w', out') ->
  out `prefix_of` out' /\ match r with Ok _ => True | Err code => code = EXIT_ERROR end.
Proof.
  unfold load_stats, syscall_error. intros E. repeat case_match; simplify_eq; auto with output.
Qed.

(** A round that leaves the loop at a known point. *)
Ltac round_ends := eexists; split; [reflexivity|]; cbv beta iota; auto with output.

Lemma read_round_total through out0 s :
  let '(cursor, displayed, records, w, out) := s in
  out0 `prefix_of` out ->
  exists x, read_round through s = Ret x /\
  match x with
  | inl (cursor', _, _, _, out') => out0 `prefix_of` out' /\ cursor < cursor' /\ cursor < through
  | inr (code, _, out') => (code = 0 \/ code = EXIT_ERROR) /\ out0 `prefix_of` out'
  end.
Proof.
  destruct s as [[[[cursor displayed] records] w] out]. intros Hout. unfold read_round, summary, syscall_error.
  destruct (Z.ltb_spec cursor through) as [Hc|Hc]; cbn [negb]; [|round_ends].
  destruct (read w records cursor) as [[n recs] w1]. cbn [negb].
  destruct (n <? 0) eqn:En; [round_ends|].
  destruct (n =? 0) eqn:Ez; [round_ends|].
  destruct (Z.of_nat (length recs) <? n) eqn:El; [round_ends|].
  destruct (validate 0 cursor (take (Z.to_nat n) recs)) eqn:Ev; [round_ends|].
  destruct (show_batch through (take (Z.to_nat n) recs) cursor displayed out) as [[[b c'] d'] out'] eqn:Es.
  pose proof (show_batch_prefix _ _ _ _ _ _ _ _ _ _ Hout Es) as Hout'.
  destruct b; [round_ends|]. eexists. split; [reflexivity|]. cbv beta iota. split; [done|].
  apply (show_batch_progress _ _ _ _ _ _ _ _ _ Ev) in Es. rewrite length_take in Es.
  split; [|done]. bool_lia.
Qed.

Lemma read_records_returns cursor w out :
  exists n, forall fuel, (n <= fuel)%nat ->
  exists code w' out', read_records fuel cursor w out = Ret (code, w', out') /\
    (code = 0 \/ code = EXIT_ERROR) /\ out `prefix_of` out'.
Proof.
  unfold read_records. destruct (load_stats w out) as [[r w1] out1] eqn:E.
  apply load_stats_codes in E as [Hp Hr]. destruct r as [stats|code].
  2:{ exists 0%nat. intros fuel _. exists code, w1, out1. auto. }
  set (through := wrap 64 (s_next_sequence stats - 1)).
  exists (Datatypes.S (Z.to_nat (through - cursor))). intros fuel Hf.
  destruct (while_loop_spec (read_round through)
              (fun s => let '(_, _, _, _, o) := s in out `prefix_of` o)
              (fun s => let '(c, _, _, _, _) := s in Z.to_nat (through - c))
              (fun r : Z * W * list string => let '(code, _, o) := r in
                 (code = 0 \/ code = EXIT_ERROR) /\ out `prefix_of` o))
    with (fuel := fuel) (s := (cursor, 0, replicate BATCH_SIZE record_default, w1, out1)) as ([[code w2] out2] & E & Hq).
  - intros s Hs. pose proof (read_round_total through out s) as Ht.
    destruct s as [[[[c d] recs] w'] o]. destruct (Ht Hs) as (x & -> & Hx). exists x. split; [done|].
    destruct x as [[[[[c' d'] recs'] w''] o']|[[code w''] o']]; [|done].
    destruct Hx as (Ho & Hc & Ht'). split; [done|]. lia.
  - done.
  - lia.
  - by exists code, w2, out2.
Qed.

Lemma show_stats_codes w out code w' out' :
  show_stats w out = (code, w', out') -> (code = 0 \/ code = EXIT_ERROR) /\ out `prefix_of` out'.
Proof.
  unfold show_stats. destruct (load_stats w out) as [[r w1] out1] eqn:E.
  apply load_stats_codes in E as [Hp Hr]. destruct r; intros; simplify_eq; auto 10 with output.
Qed.

(** C34: whatever arguments [auditctl] is given and whatever the two audit
    calls return, garbage included, it returns: the read loop ends, nothing is
    indexed out of range, the exit code is 0, 1 or 2, the output is only
    extended, and after a usage error (exit code 2) no call was made. *)
Theorem auditctl_returns (argv : list string) w out :
  exists n, forall fuel, (n <= fuel)%nat ->
  exists code w' out', main fuel argv w out = Ret (code, w', out') /\
    (code = 0 \/ code = EXIT_ERROR \/ code = EXIT_USAGE) /\ out `prefix_of` out' /\
    (code = EXIT_USAGE -> w' = w).
Proof.
  assert (Huse : forall code out1, (code = 0 \/ code = EXIT_USAGE) -> out `prefix_of` out1 ->
    exists n, forall fuel : nat, (n <= fuel)%nat -> exists code' w' out', Ret (code, w, usage out1) = Ret (code', w', out') /\
      (code' = 0 \/ code' = EXIT_ERROR \/ code' = EXIT_USAGE) /\ out `prefix_of` out' /\ (code' = EXIT_USAGE -> w' = w)).
  { intros code out1 Hc Ho. exists 0%nat. intros _ _. eexists _, _, _. split; [done|]. intuition auto with output. }
  assert (Hread : forall cursor, exists n, forall fuel, (n <= fuel)%nat ->
    exists code w' out', read_records fuel cursor w out = Ret (code, w', out') /\
      (code = 0 \/ code = EXIT_ERROR \/ code = EXIT_USAGE) /\ out `prefix_of` out' /\ (code = EXIT_USAGE -> w' = w)).
  { intros cursor. destruct (read_records_returns cursor w out) as [n Hn]. exists n. intros fuel Hf.
    destruct (Hn fuel Hf) as (code & w' & out' & E & Hc & Ho). exists code, w', out'.
    unfold EXIT_ERROR, EXIT_USAGE in *. intuition lia. }
  unfold main. destruct (drop 1 argv) as [|a [|after [|]]]; auto with output.
  - destruct (_ || _); [auto with output|]. destruct (String.eqb a "stat").
    { exists 0%nat. intros _ _. destruct (show_stats w out) as [[code w'] out'] eqn:E.
      exists code, w', out'. split; [done|]. apply show_stats_codes in E as [Hc Ho].
      unfold EXIT_ERROR, EXIT_USAGE in *. intuition lia. }
    destruct (String.eqb a "read"); auto with output.
  - destruct (String.eqb a "read"); [|auto with output].
    destruct (if _ && _ then _ else _); auto 10 with output.
Qed.

End AnyKernel.

(** ** A kernel that keeps its promises *)

(** Calls of other processes may add events to the log before each call. *)
Class AuditServiceLaws (W : Type) {S : AuditService W} : Type := {
  svc_view : W -> list AuditEvent -> Prop;
  view_log : forall w log, svc_view w log ->
    sequenced log /\ Z.of_nat (length log) < U64_MAX /\ Forall (fun e => 0 <= ev_errno e) log;
  stat_law : forall w log buf, svc_view w log ->
    exists more w', svc_stat w buf = (0, stats_record (log ++ more), w') /\ svc_view w' (log ++ more);
  read_law : forall w log buf after, svc_view w log -> length buf = BATCH_SIZE -> in_width 64 after ->
    exists more buf' w',
      let recs := batch_records (log ++ more) after (Z.of_nat BATCH_SIZE) in
      svc_read w buf after = (Z.of_nat (length recs), buf', w') /\ svc_view w' (log ++ more) /\
      length buf' = BATCH_SIZE /\ take (length recs) buf' = recs;
}.

Definition record_lines (e : AuditEvent) : list string := show_record (to_record e false) [].
Definition gap_line (seq : Z) : list string :=
  println ("auditctl: warning: GAP_BEFORE before sequence " +:+ dec seq +:+ "; records were overwritten") [].

(** The event numbered [s] is no longer among the last 256 of the log. *)
Definition overwritten (log : list AuditEvent) (s : Z) : Prop := s + 256 <= Z.of_nat (length log).

(** Output that accounts for every event after [from] up to [to], showing
    [count] of them: the next event, or a warning and a later event when those
    between were overwritten. *)
Inductive shown (log : list AuditEvent) (from : Z) : list string -> Z -> Z -> Prop :=
| shown_nothing : shown log from [] 0 from
| shown_next ls count to e :
    shown log from ls count to -> log !! Z.to_nat to = Some e ->
    shown log from (ls ++ record_lines e) (count + 1) (to + 1)
| shown_gap ls count to e :
    shown log from ls count to -> e ∈ log -> to + 1 < ev_sequence e -> overwritten log (ev_sequence e - 1) ->
    shown log from (ls ++ gap_line (ev_sequence e) ++ record_lines e) (count + 1) (ev_sequence e).

(** A finished reading: everything up to [through] is accounted for, if only by
    a last warning that the rest was overwritten. *)
Definition read_through (log : list AuditEvent) (through from : Z) (ls : list string) (count last : Z) : Prop :=
  (shown log from ls count last /\ through <= last) \/
  (exists ls', shown log from ls' count last /\ last < through /\ overwritten log through /\
     exists e, e ∈ log /\ through < ev_sequence e /\ ls = ls' ++ gap_line (ev_sequence e)).

Lemma shown_mono log more from ls count to : shown log from ls count to -> shown (log ++ more) from ls count to.
Proof.
  induction 1 as [|? ? ? e _ IH He|? ? to e _ IH He Hlt Ho]; [constructor|..].
  - apply shown_next; [done|]. by apply lookup_app_l_Some.
  - apply (shown_gap _ _ _ _ to); [done|set_solver|done|]. unfold overwritten in *. rewrite length_app. lia.
Qed.

Lemma shown_bounds log from ls count to : 0 <= from -> shown log from ls count to -> 0 <= count /\ from + count <= to.
Proof. intros Hf. induction 1; lia. Qed.

Lemma shown_upper log from ls count to :
  sequenced log -> 0 <= from -> shown log from ls count to -> to <= Z.max from (Z.of_nat (length log)).
Proof.
  intros Hs Hf Hsh. pose proof (shown_bounds _ _ _ _ _ Hf Hsh) as Hb. revert Hb.
  destruct Hsh as [|? ? ? e Hsh' He|? ? ? e Hsh' He Hlt Ho]; intros Hb; [lia|..].
  - apply lookup_lt_Some in He. lia.
  - apply list_elem_of_lookup_1 in He as [i He]. pose proof (Hs _ _ He). apply lookup_lt_Some in He. lia.
Qed.

Lemma show_record_app r out ls : show_record r (out ++ ls) = out ++ show_record r ls.
Proof. unfold show_record, println, print. repeat case_match; by rewrite <- !app_assoc. Qed.

Lemma show_record_lines e g out : show_record (to_record e g) out = out ++ record_lines e.
Proof. unfold record_lines. rewrite <- (app_nil_r out) at 1. by rewrite show_record_app. Qed.

Lemma show_gap_unflagged e out : show_gap (to_record e false) out = out.
Proof. done. Qed.
Lemma show_gap_flagged e out : show_gap (to_record e true) out = out ++ gap_line (ev_sequence e).
Proof. done. Qed.

Definition plain (e : AuditEvent) : AuditRecordV1 := to_record e false.

(** Consecutive unflagged records are shown one after the other. *)
Lemma show_batch_run through log from vis c d out ls :
  0 <= from -> Z.of_nat (length log) < U64_MAX -> sequenced log ->
  vis `prefix_of` drop (Z.to_nat c) log -> shown log from ls d c ->
  exists b c' d' ls', show_batch through (plain <$> vis) c d (out ++ ls) = (b, c', d', out ++ ls') /\
    shown log from ls' d' c' /\ (b = true -> through <= c').
Proof.
  intros Hf Hl Hs. revert c d ls. induction vis as [|e vis IH]; intros c d ls [rest Hd] Hsh.
  { exists false, c, d, ls. done. }
  destruct (shown_bounds _ _ _ _ _ Hf Hsh) as [Hd0 Hdc]. cbn [app] in Hd.
  assert (He : log !! Z.to_nat c = Some e).
  { rewrite <- (Nat.add_0_r (Z.to_nat c)), <- lookup_drop. by rewrite Hd. }
  pose proof (Hs _ _ He) as Hseq. rewrite Z2Nat.id in Hseq by lia.
  pose proof (lookup_lt_Some _ _ _ He) as Hlt.
  cbn [fmap list_fmap show_batch]. change (plain e) with (to_record e false). rewrite show_gap_unflagged. cbn [r_sequence to_record]. rewrite Hseq.
  destruct (Z.ltb_spec through (c + 1)) as [Ht|Ht].
  { exists true, c, d, ls. split_and!; [done|done|lia]. }
  rewrite show_record_lines, <- app_assoc. rewrite wrap_small by (unfold in_width, U64_MAX in *; lia).
  destruct (IH (c + 1) (d + 1) (ls ++ record_lines e)) as (b & c' & d' & ls' & -> & Hsh' & Hb).
  - exists rest. replace (Z.to_nat (c + 1)) with (Datatypes.S (Z.to_nat c)) by lia.
    rewrite <- Nat.add_1_r, <- drop_drop, Hd. done.
  - by apply shown_next.
  - by exists b, c', d', ls'.
Qed.

(** The records of a batch: only the first can be flagged. *)
Lemma batch_records_cons log after e vis :
  visible log after 32 = e :: vis ->
  batch_records log after (Z.of_nat BATCH_SIZE)
  = to_record e (bool_decide (after < Z.of_nat (length log - retained_count (length log)))) :: (plain <$> vis).
Proof.
  intros Hv. unfold batch_records. change (Z.to_nat (Z.min (Z.of_nat BATCH_SIZE) 32)) with 32%nat. rewrite Hv.
  cbn [imap]. f_equal. clear Hv. generalize (bool_decide (after < Z.of_nat (length log - retained_count (length log)))).
  intros b. rewrite <- imap_const. apply imap_ext. intros i x _. done.
Qed.

Lemma validate_run index prev log vis (n : nat) :
  sequenced log -> Forall (fun e => 0 <= ev_errno e) log -> prev <= Z.of_nat n ->
  vis `prefix_of` drop n log -> validate index prev (plain <$> vis) = None.
Proof.
  intros Hs He. revert index prev n. induction vis as [|e vis IH]; intros index prev n Hp [rest Hd]; [done|].
  cbn [app] in Hd. assert (Hn : log !! n = Some e).
  { rewrite <- (Nat.add_0_r n), <- lookup_drop. by rewrite Hd. }
  pose proof (Hs _ _ Hn) as Hseq. rewrite Forall_lookup in He. pose proof (He _ _ Hn) as Hen.
  cbn [fmap list_fmap validate]. unfold bad_record. change (plain e) with (to_record e false). cbn [r_abi_version r_record_size r_sequence r_errno to_record].
  rewrite !Z.eqb_refl, andb_false_r. destruct (Z.leb_spec (ev_sequence e) prev); [lia|].
  destruct (Z.ltb_spec (ev_errno e) 0); [lia|]. cbn [negb orb].
  apply (IH _ _ (Datatypes.S n)); [lia|]. exists rest. rewrite <- Nat.add_1_r, <- drop_drop, Hd. done.
Qed.

Definition summary_line (displayed cursor through : Z) : list string :=
  println ("auditctl: records=" +:+ dec displayed +:+ " cursor=" +:+ dec cursor +:+ " through=" +:+ dec through) [].

Lemma summary_eq displayed cursor through out :
  summary displayed cursor through out = (0, out ++ summary_line displayed cursor through).
Proof. done. Qed.

(** What the events of a batch are: those the ring still has after the cursor. *)
Lemma visible_head log after :
  sequenced log -> 0 <= after < Z.of_nat (length log) ->
  let k := Nat.max (length log - retained_count (length log)) (Z.to_nat after) in
  exists e vis, visible log after 32 = e :: vis /\ log !! k = Some e /\
    vis `prefix_of` drop (Datatypes.S k) log.
Proof.
  intros Hs Ha k. rewrite (visible_drop log after 32 Hs) by lia. fold k.
  destruct (lookup_lt_is_Some_2 log k) as [e He]; [unfold k, retained_count; lia|].
  exists e, (take 31 (drop (Datatypes.S k) log)). split_and!; [|done|].
  - by rewrite (drop_S log e k He).
  - exists (drop 31 (drop (Datatypes.S k) log)). by rewrite take_drop.
Qed.

(** The batch a round gets is accepted and printed. *)
Lemma batch_shown through log from c d out ls :
  sequenced log -> Z.of_nat (length log) < U64_MAX -> Forall (fun e => 0 <= ev_errno e) log -> 0 <= from ->
  c < through <= Z.of_nat (length log) -> shown log from ls d c ->
  let recs := batch_records log c (Z.of_nat BATCH_SIZE) in
  (0 < length recs <= 32)%nat /\ validate 0 c recs = None /\
  exists b c' d' ls', show_batch through recs c d (out ++ ls) = (b, c', d', out ++ ls') /\
    if b then read_through log through from ls' d' c' else shown log from ls' d' c' /\ c < c'.
Proof.
  intros Hs Hl He Hf Hc Hsh recs. destruct (shown_bounds _ _ _ _ _ Hf Hsh) as [Hd0 Hdc].
  destruct (visible_head log c Hs) as (e & vis & Hv & Hk & Hpre); [lia|].
  set (k := Nat.max _ _) in *. pose proof (Hs _ _ Hk) as Hseq. pose proof (lookup_lt_Some _ _ _ Hk) as Hlt.
  pose proof (batch_records_short log c (Z.of_nat BATCH_SIZE)) as Hshort. fold recs in Hshort.
  assert (Hrecs : recs = to_record e (bool_decide (c < Z.of_nat (length log - retained_count (length log)))) :: (plain <$> vis))
    by (by apply batch_records_cons).
  assert (Hval : validate 0 c recs = None).
  { rewrite Hrecs. cbn [validate]. unfold bad_record. cbn [r_abi_version r_record_size r_sequence r_errno to_record].
    rewrite !Z.eqb_refl. destruct (Z.leb_spec (ev_sequence e) c); [lia|].
    rewrite Forall_lookup in He. pose proof (He _ _ Hk). destruct (Z.ltb_spec (ev_errno e) 0); [lia|].
    apply (validate_run _ _ log _ (Datatypes.S k)); [done|by apply Forall_lookup|lia|done]. }
  assert (Hlen : (0 < length recs <= 32)%nat) by (split; [by rewrite Hrecs; cbn; lia|done]).
  split; [done|]. split; [done|].
  assert (Hshow : exists b c' d' ls', show_batch through recs c d (out ++ ls) = (b, c', d', out ++ ls') /\
    if b then read_through log through from ls' d' c' else shown log from ls' d' c').
  2:{ destruct Hshow as (b & c' & d' & ls' & E & Hb). exists b, c', d', ls'. split; [done|].
      destruct b; [done|]. split; [done|]. apply (show_batch_progress _ _ _ _ _ _ _ _ _ Hval) in E. lia. }
  clear Hval Hlen Hshort. rewrite Hrecs. case_bool_decide as Hgap.
  - (* events after the cursor were overwritten *)
    cbn [show_batch]. rewrite show_gap_flagged, <- app_assoc. cbn [r_sequence to_record].
    assert (Ho : overwritten log (ev_sequence e - 1)) by (unfold overwritten, retained_count in *; lia).
    assert (Hin : e ∈ log) by (by eapply list_elem_of_lookup_2).
    destruct (Z.ltb_spec through (ev_sequence e)) as [Ht|Ht].
    { exists true, c, d, (ls ++ gap_line (ev_sequence e)). split; [done|]. right. exists ls.
      split_and!; [done|lia|unfold overwritten in *; lia|]. exists e. done. }
    rewrite show_record_lines, <- !app_assoc.
    rewrite wrap_small by (unfold in_width, U64_MAX in *; lia).
    destruct (show_batch_run through log from vis (ev_sequence e) (d + 1) out
                (ls ++ gap_line (ev_sequence e) ++ record_lines e)) as (b & c' & d' & ls' & -> & Hsh' & Hb);
      try done.
    { replace (Z.to_nat (ev_sequence e)) with (Datatypes.S k) by lia. done. }
    { apply (shown_gap _ _ _ _ c); [done|done|unfold retained_count in *; lia|done]. }
    exists b, c', d', ls'. split; [done|]. destruct b; [left; auto|done].
  - change (to_record e false :: (plain <$> vis)) with (plain <$> (e :: vis)).
    assert (Hkc : k = Z.to_nat c) by lia.
    destruct (show_batch_run through log from (e :: vis) c d out ls) as (b & c' & d' & ls' & -> & Hsh' & Hb);
      try done.
    { rewrite <- Hkc, (drop_S log e k Hk). by apply prefix_cons. }
    exists b, c', d', ls'. split; [done|]. destruct b; [left; auto|done].
Qed.

Lemma stats_record_consistent log :
  Z.of_nat (length log) < U64_MAX -> load_stats_consistent (stats_record log) = true.
Proof.
  intros Hl. unfold U64_MAX in Hl. pose proof (count_ok_le log) as Hc. pose proof (retained_length log) as Hr.
  unfold retained_count in Hr. unfold load_stats_consistent, stats_record.
  cbn [s_capacity s_retained s_successful_events s_failed_events s_total_events s_first_sequence s_next_sequence].
  rewrite (bool_decide_eq_true_2 (checked_add _ _ _ = _)) by (apply checked_add_Some; lia).
  rewrite (bool_decide_eq_true_2 (checked_sub _ _ = _)).
  2:{ unfold checked_sub. case_match eqn:E; [f_equal; lia|bool_lia]. }
  destruct (Z.ltb_spec 256 (Z.of_nat (length (retained log)))); [lia|].
  destruct (Z.eqb_spec (Z.of_nat (length log - length (retained log)) + 1) 0); [lia|done].
Qed.

Section LawfulKernel.
Context {W : Type} {S : AuditService W} {SL : AuditServiceLaws W}.
Implicit Type w : W.

Lemma read_round_shown through log from c d recs w out ls :
  svc_view w log -> length recs = BATCH_SIZE -> in_width 64 from -> in_width 64 c ->
  through <= Z.of_nat (length log) -> shown log from ls d c ->
  exists x, read_round through (c, d, recs, w, out ++ ls) = Ret x /\
  exists more c' d' ls', (match x with
  | inl (c1, d1, recs', w', out') => c1 = c' /\ d1 = d' /\ svc_view w' (log ++ more) /\ length recs' = BATCH_SIZE /\
      out' = out ++ ls' /\ shown (log ++ more) from ls' d' c' /\ in_width 64 c' /\ c < c' /\ c < through
  | inr (code, w', out') => code = 0 /\ svc_view w' (log ++ more) /\ out' = out ++ ls' ++ summary_line d' c' through /\
      read_through (log ++ more) through from ls' d' c'
  end).
Proof.
  intros Hv Hr Hf Hc Ht Hsh. unfold read_round. rewrite !summary_eq.
  destruct (Z.ltb_spec c through) as [Hlt|Hge]; cbn [negb].
  2:{ eexists. split; [done|]. exists [], c, d, ls. rewrite app_nil_r, app_assoc. split_and!; try done. by left. }
  unfold read. destruct (read_law w log recs c Hv Hr Hc) as (more & recs' & w' & -> & Hv' & Hr' & Htake).
  destruct (view_log _ _ Hv') as (Hs & Hl & He).
  destruct (batch_shown through (log ++ more) from c d out ls) as (Hlen & Hval & b & c' & d' & ls' & Hshow & Hb); try done.
  { destruct Hf; done. }
  { rewrite length_app. lia. }
  { by apply shown_mono. }
  set (batch := batch_records _ _ _) in *.
  destruct (Z.ltb_spec (Z.of_nat (length batch)) 0); [lia|].
  destruct (Z.eqb_spec (Z.of_nat (length batch)) 0); [lia|].
  rewrite Hr'. unfold BATCH_SIZE at 1. destruct (Z.ltb_spec (Z.of_nat 32) (Z.of_nat (length batch))); [lia|].
  rewrite Nat2Z.id, Htake, Hval, Hshow. destruct b.
  - rewrite summary_eq. eexists. split; [done|]. exists more, c', d', ls'. by rewrite app_assoc.
  - eexists. split; [done|]. exists more, c', d', ls'. destruct Hb as [Hsh' Hlt']. split_and!; try done.
    destruct Hf as [Hf0 Hf1], Hc as [Hc0 Hc1]. pose proof (shown_upper _ _ _ _ _ Hs Hf0 Hsh').
    unfold in_width, U64_MAX in *. lia.
Qed.

(** [auditctl read] against a kernel whose log grows while it runs.  It
    exits with 0 after printing, in order, every event after the cursor up to
    the last one of the log when it started; the only events it does not print
    are ones the ring had overwritten, and where that happened it printed a
    warning.  The summary line names the number of records shown and the
    cursor reached. *)
Theorem auditctl_reads_without_silent_loss w log cursor out :
  svc_view w log -> in_width 64 cursor ->
  exists n, forall fuel, (n <= fuel)%nat ->
  exists log0 log1 w' lines count last,
    read_records fuel cursor w out = Ret (0, w', out ++ lines ++ summary_line count last (Z.of_nat (length log0))) /\
    log `prefix_of` log0 /\ log0 `prefix_of` log1 /\ svc_view w' log1 /\
    read_through log1 (Z.of_nat (length log0)) cursor lines count last.
Proof.
  intros Hv Hc. destruct (stat_law w log stats_default Hv) as (more & w1 & Hstat & Hv1).
  destruct (view_log _ _ Hv1) as (Hs & Hl & He). set (log0 := log ++ more) in *.
  assert (Hload : load_stats w out = (Ok (stats_record log0), w1, out)).
  { unfold load_stats, stat. rewrite Hstat. cbn [Z.ltb Z.compare negb Z.eqb].
    change (negb (s_abi_version (stats_record log0) =? AUDIT_ABI_VERSION) || _) with false. cbn iota.
    by rewrite stats_record_consistent. }
  exists (Datatypes.S (Z.to_nat (Z.of_nat (length log0) - cursor))). intros fuel Hfuel.
  unfold read_records. rewrite Hload. cbn [s_next_sequence stats_record].
  rewrite wrap_small by (unfold in_width, U64_MAX in *; lia).
  replace (Z.of_nat (length log0) + 1 - 1) with (Z.of_nat (length log0)) by lia.
  set (through := Z.of_nat (length log0)) in *.
  destruct (while_loop_spec (read_round through)
    (fun s : Z * Z * list AuditRecordV1 * W * list string => let '(c, d, recs, w, o) := s in
       exists more ls, svc_view w (log0 ++ more) /\ length recs = BATCH_SIZE /\ in_width 64 c /\
         o = out ++ ls /\ shown (log0 ++ more) cursor ls d c)
    (fun s => let '(c, _, _, _, _) := s in Z.to_nat (through - c))
    (fun r : Z * W * list string => let '(code, w', o) := r in
       exists more ls d c, code = 0 /\ svc_view w' (log0 ++ more) /\ o = out ++ ls ++ summary_line d c through /\
         read_through (log0 ++ more) through cursor ls d c))
    with (fuel := fuel) (s := (cursor, 0, replicate BATCH_SIZE record_default, w1, out))
    as ([[code w2] o2] & E & more2 & ls & d & c & -> & Hv2 & -> & Hread).
  - intros [[[[c d] recs] w2] o] (more2 & ls & Hv2 & Hr & Hcw & -> & Hsh).
    destruct (read_round_shown through (log0 ++ more2) cursor c d recs w2 out ls)
      as (x & -> & more3 & c' & d' & ls' & Hx); try done.
    { rewrite length_app. lia. }
    exists x. split; [done|]. rewrite <- app_assoc in Hx. destruct x as [[[[[c1 d1] recs'] w'] o']|[[code w'] o']].
    + destruct Hx as (-> & -> & Hv3 & Hr' & -> & Hsh' & Hcw' & Hlt & Hlt'). split; [|lia]. by exists (more2 ++ more3), ls'.
    + destruct Hx as (-> & Hv3 & -> & Hread). by exists (more2 ++ more3), ls', d', c'.
  - exists [], []. rewrite !app_nil_r. split_and!; try done. constructor.
  - lia.
  - rewrite E. exists log0, (log0 ++ more2), w2, ls, d, c. split_and!; try done; by eexists.
Qed.

End LawfulKernel.
