(* ===== verification/UserLib.v ===== *)
(** * The user library

    [user/src/syscall.rs], [user/src/lib.rs], [user/src/console.rs] and
    [user/src/lang_items.rs]: the requests the wrappers put into registers, the
    functions programs call, the polling loops of [wait], [waitpid] and
    [sleep], and the entry point [_start], which finds the arguments [exec] left
    on the stack.  A program runs on a [UserMachine]: [ecall] and memory. *)
From S2P Require Import Prelude Utf8 Signals UserAccess.
Import UserAccess.

Module UserSyscall.

Definition SYSCALL_DUP : Z := 24.
Definition SYSCALL_OPEN : Z := 56.
Definition SYSCALL_CLOSE : Z := 57.
Definition SYSCALL_PIPE : Z := 59.
Definition SYSCALL_READ : Z := 63.
Definition SYSCALL_WRITE : Z := 64.
Definition SYSCALL_EXIT : Z := 93.
Definition SYSCALL_YIELD : Z := 124.
Definition SYSCALL_KILL : Z := 129.
Definition SYSCALL_SIGACTION : Z := 134.
Definition SYSCALL_SIGPROCMASK : Z := 135.
Definition SYSCALL_SIGRETURN : Z := 139.
Definition SYSCALL_GET_TIME : Z := 169.
Definition SYSCALL_GETPID : Z := 172.
Definition SYSCALL_FORK : Z := 220.
Definition SYSCALL_EXEC : Z := 221.
Definition SYSCALL_WAITPID : Z := 260.
Definition SYSCALL_GETUID : Z := 600.
Definition SYSCALL_SETUID : Z := 601.
Definition SYSCALL_AUDIT_READ : Z := 602.
Definition SYSCALL_IPC_STAT : Z := 603.

(** [x17], [x10], [x11] and [x12] at the [ecall]. *)
Record Request : Type := syscall { id : Z; arg0 : Z; arg1 : Z; arg2 : Z }.

(** [v as usize] of an [i32] or [isize]: sign extension. *)
Definition as_usize (v : Z) : Z := of_signed 64 v.

(** A [&str], [&[T]] or [&mut [T]] is its address and length. *)
Definition sys_dup (fd : Z) : Request := syscall SYSCALL_DUP fd 0 0.
Definition sys_open (path : slice) (flags : Z) : Request := syscall SYSCALL_OPEN path.1 flags 0.
Definition sys_close (fd : Z) : Request := syscall SYSCALL_CLOSE fd 0 0.
Definition sys_pipe (pipe : slice) : Request := syscall SYSCALL_PIPE pipe.1 0 0.
Definition sys_read (fd : Z) (buffer : slice) : Request := syscall SYSCALL_READ fd buffer.1 buffer.2.
Definition sys_write (fd : Z) (buffer : slice) : Request := syscall SYSCALL_WRITE fd buffer.1 buffer.2.
(** Returning from this call is a panic ([exit] below). *)
Definition sys_exit (exit_code : Z) : Request := syscall SYSCALL_EXIT (as_usize exit_code) 0 0.
Definition sys_yield : Request := syscall SYSCALL_YIELD 0 0 0.
Definition sys_kill (pid signal : Z) : Request := syscall SYSCALL_KILL pid (as_usize signal) 0.
Definition sys_get_time : Request := syscall SYSCALL_GET_TIME 0 0 0.
Definition sys_getpid : Request := syscall SYSCALL_GETPID 0 0 0.
Definition sys_fork : Request := syscall SYSCALL_FORK 0 0 0.
Definition sys_exec (path args : slice) : Request := syscall SYSCALL_EXEC path.1 args.1 0.
Definition sys_waitpid (pid exit_code : Z) : Request := syscall SYSCALL_WAITPID (as_usize pid) exit_code 0.
Definition sys_sigaction (signum action old_action : Z) : Request :=
  syscall SYSCALL_SIGACTION (as_usize signum) action old_action.
Definition sys_sigprocmask (mask : Z) : Request := syscall SYSCALL_SIGPROCMASK mask 0 0.
Definition sys_sigreturn : Request := syscall SYSCALL_SIGRETURN 0 0 0.
Definition sys_getuid : Request := syscall SYSCALL_GETUID 0 0 0.
Definition sys_setuid (uid : Z) : Request := syscall SYSCALL_SETUID uid 0 0.
Definition sys_audit_read (records capacity after_sequence : Z) : Request :=
  syscall SYSCALL_AUDIT_READ records capacity after_sequence.
Definition sys_ipc_stat (stats out_size flags : Z) : Request := syscall SYSCALL_IPC_STAT stats out_size flags.

End UserSyscall.
Import UserSyscall.

(** What a program runs on.  [ecall] returns the new value of [x10] as a signed
    word; a call that does not come back, and a memory access that faults, is a
    [Panic]. *)
Class UserMachine (W : Type) : Type := {
  ecall : W -> Request -> outcome (Z * W);
  load_u8 : W -> Z -> outcome Z;
}.

Module UserLib.

(** ** Flags *)

Module OpenFlags.
Definition RDONLY : Z := 0.
Definition WRONLY : Z := Z.shiftl 1 0.
Definition RDWR : Z := Z.shiftl 1 1.
Definition CREATE : Z := Z.shiftl 1 9.
Definition TRUNC : Z := Z.shiftl 1 10.
End OpenFlags.

Definition SIGDEF : Z := 0.
Definition SIGHUP : Z := 1.
Definition SIGINT : Z := 2.
Definition SIGQUIT : Z := 3.
Definition SIGILL : Z := 4.
Definition SIGTRAP : Z := 5.
Definition SIGABRT : Z := 6.
Definition SIGBUS : Z := 7.
Definition SIGFPE : Z := 8.
Definition SIGKILL : Z := 9.
Definition SIGUSR1 : Z := 10.
Definition SIGSEGV : Z := 11.
Definition SIGUSR2 : Z := 12.
Definition SIGPIPE : Z := 13.
Definition SIGALRM : Z := 14.
Definition SIGTERM : Z := 15.
Definition SIGSTKFLT : Z := 16.
Definition SIGCHLD : Z := 17.
Definition SIGCONT : Z := 18.
Definition SIGSTOP : Z := 19.
Definition SIGTSTP : Z := 20.
Definition SIGTTIN : Z := 21.
Definition SIGTTOU : Z := 22.
Definition SIGURG : Z := 23.
Definition SIGXCPU : Z := 24.
Definition SIGXFSZ : Z := 25.
Definition SIGVTALRM : Z := 26.
Definition SIGPROF : Z := 27.
Definition SIGWINCH : Z := 28.
Definition SIGIO : Z := 29.
Definition SIGPWR : Z := 30.
Definition SIGSYS : Z := 31.

(** [SignalFlags], over [i32]: the last flag is negative. *)
Module SignalFlags.
Definition SIGDEF : Z := 1.
Definition SIGHUP : Z := Z.shiftl 1 1.
Definition SIGINT : Z := Z.shiftl 1 2.
Definition SIGQUIT : Z := Z.shiftl 1 3.
Definition SIGILL : Z := Z.shiftl 1 4.
Definition SIGTRAP : Z := Z.shiftl 1 5.
Definition SIGABRT : Z := Z.shiftl 1 6.
Definition SIGBUS : Z := Z.shiftl 1 7.
Definition SIGFPE : Z := Z.shiftl 1 8.
Definition SIGKILL : Z := Z.shiftl 1 9.
Definition SIGUSR1 : Z := Z.shiftl 1 10.
Definition SIGSEGV : Z := Z.shiftl 1 11.
Definition SIGUSR2 : Z := Z.shiftl 1 12.
Definition SIGPIPE : Z := Z.shiftl 1 13.
Definition SIGALRM : Z := Z.shiftl 1 14.
Definition SIGTERM : Z := Z.shiftl 1 15.
Definition SIGSTKFLT : Z := Z.shiftl 1 16.
Definition SIGCHLD : Z := Z.shiftl 1 17.
Definition SIGCONT : Z := Z.shiftl 1 18.
Definition SIGSTOP : Z := Z.shiftl 1 19.
Definition SIGTSTP : Z := Z.shiftl 1 20.
Definition SIGTTIN : Z := Z.shiftl 1 21.
Definition SIGTTOU : Z := Z.shiftl 1 22.
Definition SIGURG : Z := Z.shiftl 1 23.
Definition SIGXCPU : Z := Z.shiftl 1 24.
Definition SIGXFSZ : Z := Z.shiftl 1 25.
Definition SIGVTALRM : Z := Z.shiftl 1 26.
Definition SIGPROF : Z := Z.shiftl 1 27.
Definition SIGWINCH : Z := Z.shiftl 1 28.
Definition SIGIO : Z := Z.shiftl 1 29.
Definition SIGPWR : Z := Z.shiftl 1 30.
Definition SIGSYS : Z := to_signed 32 (Z.shiftl 1 31).
End SignalFlags.

(** [SignalAction { handler: 0, mask: SignalFlags::empty() }] *)
Definition action_default : Signals.SignalAction := {| Signals.handler := 0; Signals.act_mask := 0 |}.

(** ** Calls *)

Section Program.
Context {W : Type} {M : UserMachine W}.
Implicit Type w : W.

Definition dup w (fd : Z) := ecall w (sys_dup fd).
Definition open_ w (path : slice) (flags : Z) := ecall w (sys_open path flags).
Definition close w (fd : Z) := ecall w (sys_close fd).
Definition pipe w (pipe_fd : slice) := ecall w (sys_pipe pipe_fd).
Definition read w (fd : Z) (buf : slice) := ecall w (sys_read fd buf).
Definition write w (fd : Z) (buf : slice) := ecall w (sys_write fd buf).
Definition yield_ w := ecall w sys_yield.
Definition get_time w := ecall w sys_get_time.
Definition getpid w := ecall w sys_getpid.
Definition fork w := ecall w sys_fork.
Definition exec w (path args : slice) := ecall w (sys_exec path args).
Definition kill w (pid signum : Z) := ecall w (sys_kill pid signum).
Definition sigprocmask w (mask : Z) := ecall w (sys_sigprocmask mask).
Definition sigreturn w := ecall w sys_sigreturn.
Definition getuid w := ecall w sys_getuid.
Definition setuid w (uid : Z) := ecall w (sys_setuid uid).

(** [Option<&SignalAction>] as an address: [None] is null. *)
Definition sigaction w (signum : Z) (action old_action : option Z) :=
  ecall w (sys_sigaction signum (default 0 action) (default 0 old_action)).

(** [exit] panics when the call returns. *)
Definition exit w (exit_code : Z) : outcome W := '(_, _) ← ecall w (sys_exit exit_code); Panic.

(** One round of the loops of [wait] and [waitpid]. *)
Definition wait_round (pid exit_code : Z) w : outcome (W + (Z * W)) :=
  '(r, w) ← ecall w (sys_waitpid pid exit_code);
  if r =? -2 then '(_, w) ← yield_ w; Ret (inl w) else Ret (inr (r, w)).

Definition wait (fuel : nat) w (exit_code : Z) : outcome (Z * W) :=
  while_loop fuel (wait_round (-1) exit_code) w.
Definition waitpid (fuel : nat) w (pid exit_code : Z) : outcome (Z * W) :=
  while_loop fuel (wait_round (to_signed 64 pid) exit_code) w.
Definition waitpid_nb w (pid exit_code : Z) := ecall w (sys_waitpid (to_signed 64 pid) exit_code).

Definition sleep_round (deadline : Z) w : outcome (W + W) :=
  '(now, w) ← get_time w;
  if now <? deadline then '(_, w) ← yield_ w; Ret (inl w) else Ret (inr w).

Definition sleep (fuel : nat) w (period_ms : Z) : outcome W :=
  '(start, w) ← get_time w;
  while_loop fuel (sleep_round (to_signed 64 (of_signed 64 (start + to_signed 64 period_ms)))) w.

(** ** [console.rs] and [lang_items.rs] *)

Definition STDIN : Z := 0.
Definition STDOUT : Z := 1.

(** [Stdout::write_str]; the result of the write is dropped. *)
Definition write_str w (s : slice) : outcome W := '(_, w) ← write w STDOUT s; Ret w.

(** [getchar]: [c] is the address of the one-byte buffer. *)
Definition getchar w (c : Z) : outcome (Z * W) :=
  '(_, w) ← read w STDIN (c, 1);
  b ← load_u8 w c;
  Ret (b, w).

(** The panic handler after it printed its message: it ends in
    [unreachable!()], which is a panic again. *)
Definition panic_handler w : outcome W :=
  '(pid, w) ← getpid w;
  '(_, w) ← kill w (as_usize pid) SignalFlags.SIGABRT;
  Panic.

(** ** [_start] *)

Fixpoint load_word_bytes w (a : Z) (n : nat) : outcome (list Z) :=
  match n with
  | O => Ret []
  | S n' => b ← load_u8 w a; rest ← load_word_bytes w (wrap 64 (a + 1)) n'; Ret (b :: rest)
  end.

(** [(a as *const usize).read_volatile()] *)
Definition load_usize w (a : Z) : outcome Z := bs ← load_word_bytes w a 8; Ret (le_value bs).

(** [(0usize..).find(|i| byte at str_start + *i == 0).unwrap()], with the bytes
    it saw. *)
Fixpoint find_nul (fuel : nat) w (str_start : Z) : outcome (list Z) :=
  match fuel with
  | O => OutOfFuel
  | S fuel' =>
      b ← load_u8 w str_start;
      if b =? 0 then Ret [] else rest ← find_nul fuel' w (wrap 64 (str_start + 1)); Ret (b :: rest)
  end.

(** The loop over [0..argc]: the argument strings, as code points. *)
Fixpoint start_args (fuel : nat) w (argv : Z) (argc : nat) : outcome (list (list Z)) :=
  match argc with
  | O => Ret []
  | S n =>
      str_start ← load_usize w argv;
      bytes ← find_nul fuel w str_start;
      s ← unwrap (from_utf8 (S (length bytes)) bytes);
      rest ← start_args fuel w (wrap 64 (argv + 8)) n;
      Ret (s :: rest)
  end.

(** [_start]; the heap set-up is the allocator's. *)
Definition start_ (main : W -> Z -> list (list Z) -> outcome (Z * W)) (fuel : nat) w (argc argv : Z) : outcome W :=
  v ← start_args fuel w argv (Z.to_nat argc);
  '(code, w) ← main w argc v;
  exit w code.

End Program.
End UserLib.
