(* ===== verification/UserAbi.v ===== *)
(** * User programs on the kernel

    The two ends of the system call interface put together: the numbers and
    register contents of [user/src/syscall.rs] against the dispatch of
    [os/src/syscall/mod.rs], and the kernel as a [UserMachine]; then what the
    library's loops and loads return on it. *)
From S2P Require Import Prelude IpcApi Quota Timer AuditLog AuditFacts Facade Address Allocators PageTable UserAccess.
From S2P Require Import UserAccessFacts Pipe MemorySet Signals Task Kernel SyscallFs SignalHandling SyscallProcess.
From S2P Require Import SyscallAudit Trap CallSpecs UserLib.
Import Timer Audit Mem Signals UserAccess Task Kernel SyscallFs SignalHandling SyscallProcess SyscallAudit Trap.

Section UserAbi.
Context {F : Type} {FS : FileSystem F}.
Variable P : Platform.
Variable read_fuel : nat.
Implicit Type k : Kernel F.
Abbreviation env := (list (Kernel F -> Kernel F)).

(** The kernel's answer to an [ecall]. *)
Definition dispatch k (e : env) (q : UserSyscall.Request) : outcome (Kernel F * sysret) :=
  syscall P read_fuel k e (UserSyscall.id q) (UserSyscall.arg0 q) (UserSyscall.arg1 q) (UserSyscall.arg2 q).

(** An [i32] or [isize] survives the register. *)
Lemma as_i32_as_usize v : - 2 ^ 31 <= v < 2 ^ 31 -> as_i32 (UserSyscall.as_usize v) = v.
Proof.
  intros Hv. unfold as_i32, UserSyscall.as_usize, of_signed, to_signed, wrap.
  destruct (Z.ltb_spec ((v mod 2 ^ 64) mod 2 ^ 32) (2 ^ (32 - 1))); lia_mod.
Qed.

Lemma as_isize_as_usize v : - 2 ^ 63 <= v < 2 ^ 63 -> as_isize (UserSyscall.as_usize v) = v.
Proof.
  intros Hv. unfold as_isize, UserSyscall.as_usize, of_signed, to_signed.
  destruct (Z.ltb_spec (v mod 2 ^ 64) (2 ^ (64 - 1))); lia_mod.
Qed.

(** C36: the user library and the kernel agree on every call: with its number
    and registers, each wrapper reaches the handler of its name, with the
    arguments the program passed, negative ones included. *)
Theorem user_abi_matches_kernel k (e : env) (fd pid target uid mask flags status signal len : Z) (path args buf : slice) (p q : Z) :
  in_width 32 flags -> - 2 ^ 31 <= status < 2 ^ 31 -> - 2 ^ 31 <= signal < 2 ^ 31 ->
  - 2 ^ 63 <= pid < 2 ^ 63 -> in_width 32 mask ->
  let call := dispatch k e in
  call (UserSyscall.sys_dup fd) = sys_dup k fd /\
  call (UserSyscall.sys_open path flags) = sys_open k path.1 flags /\
  call (UserSyscall.sys_close fd) = sys_close k fd /\
  call (UserSyscall.sys_pipe buf) = sys_pipe k buf.1 /\
  call (UserSyscall.sys_read fd buf) = sys_read k fd buf.1 buf.2 e /\
  call (UserSyscall.sys_write fd buf) = sys_write k fd buf.1 buf.2 e /\
  call (UserSyscall.sys_exit status) = sys_exit k status /\
  call UserSyscall.sys_yield = sys_yield k e /\
  call (UserSyscall.sys_kill target signal) = sys_kill k target signal /\
  call (UserSyscall.sys_sigaction signal p q) = sys_sigaction k signal p q /\
  call (UserSyscall.sys_sigprocmask mask) = sys_sigprocmask k mask /\
  call UserSyscall.sys_sigreturn = sys_sigreturn k /\
  call UserSyscall.sys_get_time = sys_get_time k /\
  call UserSyscall.sys_getpid = sys_getpid k /\
  call UserSyscall.sys_fork = sys_fork P k /\
  call (UserSyscall.sys_exec path args) = sys_exec P read_fuel k path.1 args.1 /\
  call (UserSyscall.sys_waitpid pid p) = sys_waitpid k pid p /\
  call UserSyscall.sys_getuid = sys_getuid k /\
  call (UserSyscall.sys_setuid uid) = sys_setuid k uid /\
  call (UserSyscall.sys_audit_read p len q) = sys_audit_read k p len q /\
  call (UserSyscall.sys_ipc_stat p len q) = sys_ipc_stat k p len q.
Proof.
  intros Hf Hst Hsi Hp Hm call. subst call. unfold dispatch.
  pose proof (wrap_small 32 flags Hf) as E1. pose proof (wrap_small 32 mask Hm) as E2.
  pose proof (as_i32_as_usize status Hst) as E3. pose proof (as_i32_as_usize signal Hsi) as E4.
  pose proof (as_isize_as_usize pid Hp) as E5.
  split_and!.
  17: transitivity (sys_waitpid k (as_isize (UserSyscall.as_usize pid)) p); [reflexivity|congruence].
  11: transitivity (sys_sigprocmask k (wrap 32 mask)); [reflexivity|congruence].
  10: transitivity (sys_sigaction k (as_i32 (UserSyscall.as_usize signal)) p q); [reflexivity|congruence].
  9: transitivity (sys_kill k target (as_i32 (UserSyscall.as_usize signal))); [reflexivity|congruence].
  7: transitivity (sys_exit k (as_i32 (UserSyscall.as_usize status))); [reflexivity|congruence].
  2: transitivity (sys_open k path.1 (wrap 32 flags)); [reflexivity|congruence].
  all: reflexivity.
Qed.

(** ** The kernel under a program *)

(** What the rest of the system does around one call: before it, and while it
    waits. *)
Record Turn : Type := mkTurn { before : Kernel F -> Kernel F; during : env }.

(** A program and the turns still to come; without them nothing else runs. *)
Record Process : Type := mkProcess { p_kernel : Kernel F; p_turns : list Turn }.

Definition next_turn (ts : list Turn) : Turn * list Turn :=
  match ts with [] => ({| before := fun k => k; during := [] |}, []) | t :: ts => (t, ts) end.

Definition process_ecall (w : Process) (q : UserSyscall.Request) : outcome (Z * Process) :=
  let (t, ts) := next_turn (p_turns w) in
  '(k, r) ← dispatch (before t (p_kernel w)) (during t) q;
  match r with
  | Returned v => Ret (v, {| p_kernel := k; p_turns := ts |})
  | _ => Panic
  end.

(** A load goes through the page table of the current task: it needs a user
    page with read permission. *)
Definition process_load (w : Process) (a : Z) : outcome Z :=
  token ← current_user_token (p_kernel w);
  r ← copy_from_user (k_mem (p_kernel w)) token a 1;
  match r with Ok bs => index bs 0 | Err _ => Panic end.

#[export] Instance process_machine : UserMachine Process := {|
  ecall := process_ecall;
  load_u8 := process_load;
|}.

End UserAbi.

(** ** A program's view of the kernel

    Calls and loads of a running process, as the user library sees them: what a
    load returns where a page is readable, what the polling loops return, and
    what becomes of the panic handler's signal. *)
Import Audit Mem PageTable Signals UserAccess Task Kernel SyscallFs SyscallProcess Trap.

(** ** Loops *)

Section Loops.
Context {W : Type} {M : UserMachine W}.
Implicit Type w : W.

(** [n] rounds of polling that found no child ready. *)
Fixpoint polls (pid code : Z) (n : nat) w (w' : W) : Prop :=
  match n with
  | O => w' = w
  | S n' => exists w1 w2 v, ecall w (UserSyscall.sys_waitpid pid code) = Ret (-2, w1) /\
      ecall w1 UserSyscall.sys_yield = Ret (v, w2) /\ polls pid code n' w2 w'
  end.

(** [waitpid] returns the first answer of the kernel that is not "not yet",
    having yielded once before each further question. *)
Lemma waitpid_first_answer pid code n w w1 r w2 :
  polls pid code n w w1 -> ecall w1 (UserSyscall.sys_waitpid pid code) = Ret (r, w2) -> r <> -2 ->
  forall fuel, (n < fuel)%nat -> while_loop fuel (UserLib.wait_round pid code) w = Ret (r, w2).
Proof.
  intros Hp Hr Hne fuel. revert w fuel Hp. induction n as [|n IH]; intros w fuel Hp Hf; (destruct fuel as [|fuel]; [lia|]).
  - cbn in Hp. subst w1. cbn. unfold UserLib.wait_round. rewrite Hr. cbn.
    destruct (Z.eqb_spec r (-2)); [done|]. done.
  - destruct Hp as (w3 & w4 & v & E1 & E2 & Hp). cbn. unfold UserLib.wait_round, UserLib.yield_. rewrite E1. cbn.
    rewrite E2. cbn. apply IH; [done|lia].
Qed.

(** Nothing else is ever returned. *)
Lemma waitpid_only_answers pid code fuel w r w2 :
  while_loop fuel (UserLib.wait_round pid code) w = Ret (r, w2) ->
  r <> -2 /\ exists n w1, polls pid code n w w1 /\ ecall w1 (UserSyscall.sys_waitpid pid code) = Ret (r, w2).
Proof.
  revert w. induction fuel as [|fuel IH]; intros w H; [done|]. cbn in H.
  apply bind_Ret_inv in H as (x & Hx & H). unfold UserLib.wait_round in Hx.
  apply bind_Ret_inv in Hx as ([v w1] & E & Hx). destruct (Z.eqb_spec v (-2)) as [->|Hv].
  - apply bind_Ret_inv in Hx as ([v' w3] & E' & Hx). simplify_eq. destruct (IH w3 H) as (Hr & n & w4 & Hp & Hc).
    split; [done|]. exists (S n), w4. split; [|done]. by exists w1, w3, v'.
  - simplify_eq. split; [done|]. by exists 0%nat, w.
Qed.
End Loops.

Section UserProcess.
Context {F : Type} {FS : FileSystem F}.
Variable P : Platform.
Variable read_fuel : nat.
Implicit Type k : Kernel F.
#[local] Existing Instance process_machine.

(** ** The panic handler *)

(** The handler passes the flag [1 << 6] where the call takes a number: the
    kernel refuses it, and the process is not signalled. *)
Lemma panic_handler_not_killed k e pid :
  dispatch P read_fuel k e (UserSyscall.sys_kill pid UserLib.SignalFlags.SIGABRT) = Ret (k, Returned (-22)).
Proof. reflexivity. Qed.

(** ** Loads *)

Lemma running_user_token k pid t : running k pid t -> current_user_token k = Ret (get_user_token t).
Proof.
  intros Hr. unfold current_user_token. rewrite (run_current _ _ _ Hr). cbn [unwrap mbind outcome_bind].
  rewrite (running_task_inner _ _ _ Hr). done.
Qed.

Lemma process_load_byte (w : Process) pid t a :
  running (p_kernel w) pid t -> 0 <= a < 2 ^ 38 ->
  let m := k_mem (p_kernel w) in
  let pt := from_token (get_user_token t) in
  user_byte_ok m pt false a -> process_load w a = Ret (load m (phys_of m pt a)).
Proof.
  intros Hr Ha m pt Hok. unfold process_load. rewrite (running_user_token _ _ _ Hr). cbn [mbind outcome_bind]. fold m.
  destruct (copy_from_user_spec m (get_user_token t) a 1) as [[_ ->]|[Hn _]]; [unfold in_width; lia|lia|done|].
  exfalso. apply Hn. right. split; [lia|]. intros b Hb. by replace b with a by lia.
Qed.

(** A run of readable bytes. *)
Lemma load_word_bytes_ok (w : Process) pid t a (n : nat) :
  running (p_kernel w) pid t -> 0 <= a ->
  let m := k_mem (p_kernel w) in
  range_ok m (get_user_token t) a (Z.of_nat n) false ->
  UserLib.load_word_bytes (M := process_machine P read_fuel) w a n
  = Ret (load m <$> phys_range m (get_user_token t) a (Z.of_nat n)).
Proof.
  intros Hr Ha m Hok. revert a Ha Hok. induction n as [|n IH]; intros a Ha Hok; [done|].
  destruct Hok as [|[Hl Hok]]; [lia|]. cbn [UserLib.load_word_bytes load_u8 process_machine].
  rewrite (process_load_byte w pid t a Hr) by (try (apply Hok); lia). cbn [mbind outcome_bind].
  rewrite wrap_small by (unfold in_width; lia).
  rewrite IH by first [lia|right; split; [lia|intros; apply Hok; lia]]. cbn [mbind outcome_bind].
  unfold phys_range. rewrite (seqZ_cons a (Z.of_nat (S n))) by lia. by replace (Z.pred (Z.of_nat (S n))) with (Z.of_nat n) by lia.
Qed.

End UserProcess.
