(* ===== verification/UserShell.v ===== *)
(** * The shell

    [user/src/bin/user_shell.rs] (and [bin/initproc.rs]): the line editor, the
    parser of commands with their redirections, and the pipelines it runs.  A
    string is its code points.  Where the compiler and the allocator put the
    program's strings and arrays is a parameter. *)
From stdpp Require Import strings.
From S2P Require Import Prelude Utf8 UserAccess UserLib.
Import UserAccess UserSyscall.

(** A program's own writes to its memory. *)
Class UserStore (W : Type) : Type := { store_u8 : W -> Z -> Z -> outcome W }.

Module UserShell.

(** A literal of the program, as its code points. *)
Definition lit (s : string) : list Z := (fun c => Z.of_N (Ascii.N_of_ascii c)) <$> String.list_ascii_of_string s.

Definition LF : Z := 0x0a.
Definition CR : Z := 0x0d.
Definition DL : Z := 0x7f.
Definition BS : Z := 0x08.
Definition SPACE : Z := 0x20.
Definition BAR : Z := 0x7c.
Definition LESS : Z := 0x3c.
Definition GREATER : Z := 0x3e.
Definition NUL : Z := 0.
Definition LINE_START : list Z := lit ">> ".

(** ** Parsing *)

(** [str::split] by a character. *)
Fixpoint split (sep : Z) (s : list Z) : list (list Z) :=
  match s with
  | [] => [[]]
  | c :: rest =>
      if c =? sep then [] :: split sep rest
      else match split sep rest with w :: ws => (c :: w) :: ws | [] => [[c]] end
  end.

(** [args_addr] holds the addresses of the strings in [args_copy], then null. *)
Record ProcessArguments : Type := mkArguments { input : list Z; output : list Z; args_copy : list (list Z) }.

(** Finds [mark], takes the next argument, and drains both. *)
Definition redirect (mark : list Z) (args : list (list Z)) : outcome (list Z * list (list Z)) :=
  match list_find (fun arg => arg = mark) args with
  | Some (idx, _) =>
      next ← unwrap (args !! (idx + 1)%nat);
      Ret (next, take idx args ++ drop (idx + 2) args)
  | None => Ret ([], args)
  end.

Definition is_empty (s : list Z) : bool := match s with [] => true | _ => false end.

Definition new (command : list Z) : outcome ProcessArguments :=
  let args := split SPACE command in
  let args_copy := (fun arg => arg ++ [NUL]) <$> filter (fun arg => is_empty arg = false) args in
  '(input, args_copy) ← redirect [LESS; NUL] args_copy;
  '(output, args_copy) ← redirect [GREATER; NUL] args_copy;
  Ret (mkArguments input output args_copy).

Fixpoint parse_all (commands : list (list Z)) : outcome (list ProcessArguments) :=
  match commands with
  | [] => Ret []
  | cmd :: rest => pa ← new cmd; pas ← parse_all rest; Ret (pa :: pas)
  end.

(** The checks on the redirections of a pipeline of [n] commands. *)
Fixpoint bound_from (n i : nat) (pas : list ProcessArguments) : bool :=
  match pas with
  | [] => true
  | pa :: rest =>
      (if (i =? 0)%nat then is_empty (output pa)
       else if (i =? n - 1)%nat then is_empty (input pa)
       else is_empty (output pa) && is_empty (input pa)) && bound_from n (S i) rest
  end.

Definition valid (pas : list ProcessArguments) : bool :=
  (length pas =? 1)%nat || bound_from (length pas) 0 pas.

(** ** The program *)

Section Program.
Context {W : Type} {M : UserMachine W} {St : UserStore W}.
Implicit Type w : W.
Variable str_at : list Z -> slice.          (** a string of the program *)
Variable args_at : list (list Z) -> slice.  (** the array of the addresses of strings, then null *)
Variable cell : Z.                          (** the buffer of [getchar] *)
Variable pipe_fd : Z.                       (** the array [pipe_fd] *)
Variable exit_code : Z.                     (** the variable [exit_code] *)
Variable fuel : nat.                        (** rounds of [waitpid] *)

(** [print!]: each piece of the format is one [write_str]. *)
Fixpoint print w (pieces : list (list Z)) : outcome W :=
  match pieces with
  | [] => Ret w
  | s :: rest => w ← UserLib.write_str w (str_at s); print w rest
  end.

Definition opening_failed : list Z := lit "Error when opening file ".
Definition executing_failed : list Z := lit "Error when executing!" ++ [LF].
Definition binding_failed : list Z := lit "Invalid command: Inputs/Outputs cannot be correctly binded!" ++ [LF].
Definition banner : list Z := lit "Rust user shell" ++ [LF].

(** The new value of standard descriptor [std] is a copy of [fd]. *)
Definition replace_std w (std fd : Z) : outcome W :=
  '(_, w) ← UserLib.close w std;
  '(r, w) ← UserLib.dup w fd;
  _ ← assert_ (r =? std);
  Ret w.

(** A redirection to or from a file: [inr] when it cannot be opened and the
    child's [main] returns. *)
Definition redirect_file w (name : list Z) (flags std : Z) : outcome (W + (Z * W)) :=
  if is_empty name then Ret (inl w) else
  '(fd, w) ← UserLib.open_ w (str_at name) flags;
  if fd =? -1 then w ← print w [opening_failed; name; [LF]]; Ret (inr (-4, w))
  else
    w ← replace_std w std (as_usize fd);
    '(_, w) ← UserLib.close w (as_usize fd);
    Ret (inl w).

Fixpoint close_pipes w (pipes_fd : list (Z * Z)) : outcome W :=
  match pipes_fd with
  | [] => Ret w
  | (r, wr) :: rest =>
      '(_, w) ← UserLib.close w r;
      '(_, w) ← UserLib.close w wr;
      close_pipes w rest
  end.

(** The descriptors of child [i] of [n]. *)
Definition child_fds w (i n : nat) (pa : ProcessArguments) (pipes_fd : list (Z * Z)) : outcome (W + (Z * W)) :=
  r ← redirect_file w (input pa) UserLib.OpenFlags.RDONLY 0;
  match r with inr e => Ret (inr e) | inl w =>
  r ← redirect_file w (output pa) (Z.lor UserLib.OpenFlags.CREATE UserLib.OpenFlags.WRONLY) 1;
  match r with inr e => Ret (inr e) | inl w =>
  w ← (if (0 <? i)%nat then p ← unwrap (pipes_fd !! (i - 1)%nat); replace_std w 0 p.1 else Ret w);
  w ← (if (i <? n - 1)%nat then p ← unwrap (pipes_fd !! i); replace_std w 1 p.2 else Ret w);
  w ← close_pipes w pipes_fd;
  Ret (inl w)
  end end.

(** The child: [exec] returns only if it fails. *)
Definition child w (i n : nat) (pa : ProcessArguments) (pipes_fd : list (Z * Z)) : outcome (Z * W) :=
  r ← child_fds w i n pa pipes_fd;
  match r with
  | inr e => Ret e
  | inl w =>
      arg0 ← unwrap (args_copy pa !! 0%nat);
      '(r, w) ← UserLib.exec w (str_at arg0) (args_at (args_copy pa));
      if r =? -1 then w ← print w [executing_failed]; Ret (-4, w) else Panic
  end.

Fixpoint store_zeros w (a : Z) (n : nat) : outcome W :=
  match n with O => Ret w | S n' => w ← store_u8 w a 0; store_zeros w (wrap 64 (a + 1)) n' end.

(** [let mut pipe_fd = [0usize; 2]; pipe(&mut pipe_fd);]: its result is dropped. *)
Definition create_pipe w : outcome ((Z * Z) * W) :=
  w ← store_zeros w pipe_fd 16;
  '(_, w) ← UserLib.pipe w (pipe_fd, 2);
  r ← UserLib.load_usize w pipe_fd;
  wr ← UserLib.load_usize w (wrap 64 (pipe_fd + 8));
  Ret ((r, wr), w).

Fixpoint create_pipes w (n : nat) : outcome (list (Z * Z) * W) :=
  match n with
  | O => Ret ([], w)
  | S n' => '(p, w) ← create_pipe w; '(ps, w) ← create_pipes w n'; Ret (p :: ps, w)
  end.

(** The [fork] loop, in the parent and, where it returns 0, in the child. *)
Fixpoint spawn w (i n : nat) (pas : list ProcessArguments) (pipes_fd : list (Z * Z)) : outcome ((list Z * W) + (Z * W)) :=
  match pas with
  | [] => Ret (inl ([], w))
  | pa :: rest =>
      '(pid, w) ← UserLib.fork w;
      if pid =? 0 then e ← child w i n pa pipes_fd; Ret (inr e)
      else
        r ← spawn w (S i) n rest pipes_fd;
        match r with inr e => Ret (inr e) | inl (children, w) => Ret (inl (pid :: children, w)) end
  end.

Fixpoint wait_all w (children : list Z) : outcome W :=
  match children with
  | [] => Ret w
  | pid :: rest =>
      '(exit_pid, w) ← UserLib.waitpid fuel w (as_usize pid) exit_code;
      _ ← assert_ (pid =? exit_pid);
      wait_all w rest
  end.

(** A line that is not empty; [inr] is the result of [main] in a child. *)
Definition run_line w (line : list Z) : outcome (W + (Z * W)) :=
  pas ← parse_all (split BAR line);
  if negb (valid pas) then w ← print w [binding_failed]; Ret (inl w)
  else
    let n := length pas in
    '(pipes_fd, w) ← create_pipes w (n - 1);
    r ← spawn w 0 n pas pipes_fd;
    match r with
    | inr e => Ret (inr e)
    | inl (children, w) =>
        w ← close_pipes w pipes_fd;
        w ← store_zeros w exit_code 4;
        w ← wait_all w children;
        Ret (inl w)
    end.

(** One round of the loop of [main]: a character. *)
Definition main_round (s : list Z * W) : outcome ((list Z * W) + (Z * W)) :=
  let '(line, w) := s in
  '(c, w) ← UserLib.getchar w cell;
  if (c =? LF) || (c =? CR) then
    w ← print w [[LF]];
    r ← (if is_empty line then Ret (inl w) else run_line w line);
    match r with
    | inr e => Ret (inr e)
    | inl w => w ← print w [LINE_START]; Ret (inl ([], w))
    end
  else if (c =? BS) || (c =? DL) then
    if is_empty line then Ret (inl (line, w))
    else w ← print w [[BS]]; w ← print w [[SPACE]]; w ← print w [[BS]]; Ret (inl (take (length line - 1) line, w))
  else w ← print w [[c]]; Ret (inl (line ++ [c], w)).

Definition main (rounds : nat) w : outcome (Z * W) :=
  w ← print w [banner];
  w ← print w [LINE_START];
  while_loop rounds main_round ([], w).

(** ** [initproc] *)

Definition user_shell : list Z := lit "user_shell" ++ [NUL].

(** The child's call of [exec] returns only if it fails. *)
Definition initproc (rounds : nat) w : outcome (Z * W) :=
  '(pid, w) ← UserLib.fork w;
  if pid =? 0 then '(_, w) ← UserLib.exec w (str_at user_shell) (args_at []); Ret (0, w)
  else
    while_loop rounds (fun w =>
      w ← store_zeros w exit_code 4;
      '(pid, w) ← UserLib.wait fuel w exit_code;
      if pid =? -1 then '(_, w) ← UserLib.yield_ w; Ret (inl w) else Ret (inl w)) w.

End Program.
End UserShell.
