(* ===== verification/UserShellFacts.v ===== *)
(** * What the shell does with a line

    The parser against the grammar of commands, the lines that panic it, and the descriptors a command of a
    pipeline runs with, on the kernel of this development. *)
From S2P Require Import Prelude IpcApi Quota Timer AuditLog AuditFacts Facade Address Allocators PageTable UserAccess.
From S2P Require Import UserAccessFacts Pipe MemorySet Signals Task Kernel SyscallFs FdFacts SignalHandling.
From S2P Require Import SyscallProcess SyscallAudit Trap KernelInv SyscallInv CallSpecs UserLib UserAbi UserShell.
Import Task Kernel SyscallFs UserShell.

(** ** Words *)

Definition words (s : list Z) : list (list Z) := filter (fun arg => is_empty arg = false) (split SPACE s).

(** A word: not empty, no space. *)
Definition word (w : list Z) : Prop := w <> [] /\ SPACE ∉ w.

(** A line with the words [ws], and spaces around and between them. *)
Inductive spaced : list (list Z) -> list Z -> Prop :=
| spaced_nil : spaced [] []
| spaced_space ws s : spaced ws s -> spaced ws (SPACE :: s)
| spaced_last w : word w -> spaced [w] w
| spaced_word w ws s : word w -> spaced ws s -> spaced (w :: ws) (w ++ SPACE :: s).

Lemma split_none sep s : sep ∉ s -> split sep s = [s].
Proof.
  induction s as [|c s IH]; [done|]. intros [Hc Hs]%not_elem_of_cons. cbn. rewrite (proj2 (Z.eqb_neq c sep)) by done. by rewrite IH.
Qed.

Lemma split_app sep w s : sep ∉ w -> split sep (w ++ sep :: s) = w :: split sep s.
Proof.
  induction w as [|c w IH]; cbn; [by rewrite Z.eqb_refl|]. intros [Hc Hw]%not_elem_of_cons.
  rewrite (proj2 (Z.eqb_neq c sep)) by done. by rewrite IH.
Qed.

Lemma word_not_empty w : word w -> is_empty w = false.
Proof. by destruct w; [intros [? _]|]. Qed.

Lemma words_spaced ws s : spaced ws s -> words s = ws.
Proof.
  induction 1 as [|ws s _ IH|w Hw|w ws s Hw _ IH]; unfold words in *.
  - reflexivity.
  - change (split SPACE (SPACE :: s)) with ([] :: split SPACE s). by rewrite filter_cons_False.
  - rewrite split_none by apply Hw. rewrite filter_cons_True by (by apply word_not_empty). done.
  - rewrite split_app by apply Hw. rewrite filter_cons_True by (by apply word_not_empty). by rewrite IH.
Qed.

(** Every line has words: its [words]. *)
Lemma spaced_after w s : SPACE ∉ w -> spaced (words (w ++ s)) (w ++ s).
Proof.
  revert w. induction s as [|c s IH]; intros w Hw.
  - rewrite app_nil_r. unfold words. rewrite split_none by done. destruct w as [|c w]; [apply spaced_nil|].
    rewrite filter_cons_True by done. by apply spaced_last.
  - destruct (decide (c = SPACE)) as [->|Hc].
    + unfold words. rewrite split_app by done. specialize (IH [] (not_elem_of_nil _)). destruct w as [|c w].
      * rewrite filter_cons_False by done. by apply spaced_space.
      * rewrite filter_cons_True by done. by apply spaced_word.
    + replace (w ++ c :: s) with ((w ++ [c]) ++ s) by (by rewrite <- app_assoc). apply IH.
      rewrite not_elem_of_app, list_elem_of_singleton. by split.
Qed.

Lemma spaced_words s : spaced (words s) s.
Proof. exact (spaced_after [] s (not_elem_of_nil _)). Qed.

(** ** Redirections *)

Definition terminated (w : list Z) : list Z := w ++ [NUL].

Lemma terminated_inj v w : terminated v = terminated w -> v = w.
Proof. apply (inj (fun x => x ++ [NUL])). Qed.

Lemma redirect_some mark pre next post :
  mark ∉ pre -> redirect mark (pre ++ mark :: next :: post) = Ret (next, pre ++ post).
Proof.
  intros Hp. unfold redirect.
  assert (E : list_find (fun arg => arg = mark) (pre ++ mark :: next :: post) = Some (length pre, mark)).
  { apply list_find_Some. split_and!; [by rewrite list_lookup_middle|done|]. intros j y Hj Hlt ->.
    rewrite lookup_app_l in Hj by done. apply Hp. by eapply list_elem_of_lookup_2. }
  rewrite E. replace (length pre + 1)%nat with (S (length pre)) by lia.
  rewrite lookup_app_r by lia. replace (S (length pre) - length pre)%nat with 1%nat by lia. cbn [lookup list_lookup unwrap mbind outcome_bind].
  do 3 f_equal.
  - rewrite take_app_le by lia. by rewrite take_ge.
  - rewrite drop_app_ge by lia. replace (length pre + 2 - length pre)%nat with 2%nat by lia. reflexivity.
Qed.

Lemma redirect_none mark args : mark ∉ args -> redirect mark args = Ret ([], args).
Proof.
  intros Hn. unfold redirect. destruct (list_find _ args) as [[i y]|] eqn:E; [|done]. apply list_find_Some in E as (Hi & -> & _).
  exfalso. apply Hn. by eapply list_elem_of_lookup_2.
Qed.

Lemma redirect_dangling mark pre : mark ∉ pre -> redirect mark (pre ++ [mark]) = Panic.
Proof.
  intros Hp. unfold redirect.
  assert (E : list_find (fun arg => arg = mark) (pre ++ [mark]) = Some (length pre, mark)).
  { apply list_find_Some. split_and!; [by rewrite list_lookup_middle|done|]. intros j y Hj Hlt ->.
    rewrite lookup_app_l in Hj by done. apply Hp. by eapply list_elem_of_lookup_2. }
  rewrite E. rewrite lookup_ge_None_2 by (rewrite length_app; cbn; lia). done.
Qed.

Lemma not_terminated v (ws : list (list Z)) : v ∉ ws -> terminated v ∉ (terminated <$> ws).
Proof. intros Hn (w & E & Hw)%list_elem_of_fmap. apply terminated_inj in E as <-. done. Qed.

Lemma new_words s : new s =
  ('(input, args) ← redirect [LESS; NUL] (terminated <$> words s);
   '(output, args) ← redirect [GREATER; NUL] args;
   Ret (mkArguments input output args)).
Proof. reflexivity. Qed.

(** ** The grammar of a command *)

(** What a user writes: an argument, an input file, an output file. *)
Inductive item : Type := Plain (w : list Z) | From (file : list Z) | Into (file : list Z).

Definition render (i : item) : list (list Z) :=
  match i with Plain w => [w] | From file => [[LESS]; file] | Into file => [[GREATER]; file] end.

Definition plain_of (i : item) : list (list Z) := match i with Plain w => [w] | _ => [] end.
Definition input_of (i : item) : list (list Z) := match i with From file => [file] | _ => [] end.
Definition output_of (i : item) : list (list Z) := match i with Into file => [file] | _ => [] end.

(** No argument is a mark; the input redirection, looked for first, is not the
    file of the output. *)
Definition item_ok (i : item) : Prop :=
  match i with Plain w => w <> [LESS] /\ w <> [GREATER] | From _ => True | Into file => file <> [LESS] end.

(** At most one input and one output file. *)
Record command_ok (items : list item) : Prop := {
  co_items : Forall item_ok items;
  co_input : (length (items ≫= input_of) <= 1)%nat;
  co_output : (length (items ≫= output_of) <= 1)%nat;
}.

(** The string of the redirection, empty without one. *)
Definition redirected (files : list (list Z)) : list Z := from_option terminated [] (head files).

Lemma bind_singleton (sel : item -> list (list Z)) items file :
  items ≫= sel = [file] ->
  exists a i b, items = a ++ i :: b /\ sel i = [file] /\ a ≫= sel = [] /\ b ≫= sel = [].
Proof.
  induction items as [|i items IH]; [done|]. rewrite bind_cons. destruct (sel i) as [|f l] eqn:Ei; cbn.
  - intros (a & j & b & -> & Ej & Ha & Hb)%IH. exists (i :: a), j, b. split_and!; [done..| |done]. by rewrite bind_cons, Ei.
  - intros [= -> [-> Hr]%app_nil]. exists [], i, items. by split_and!.
Qed.

Lemma no_less items : Forall item_ok items -> items ≫= input_of = [] -> [LESS] ∉ items ≫= render.
Proof.
  intros Hok Hin (i & Hi & Hm)%list_elem_of_bind. rewrite Forall_forall in Hok. specialize (Hok i Hm).
  assert (Hi0 : input_of i = []).
  { apply list_elem_of_split in Hm as (a & b & ->). rewrite bind_app, bind_cons in Hin. by apply app_nil in Hin as [_ [? _]%app_nil]. }
  destruct i as [w|f|f]; [|done|]; cbn in *; rewrite ?elem_of_cons, elem_of_nil in Hi; naive_solver.
Qed.

Lemma no_greater items :
  Forall item_ok items -> items ≫= input_of = [] -> items ≫= output_of = [] ->
  ([GREATER] ∉ items ≫= render) /\ (items ≫= render) = (items ≫= plain_of).
Proof.
  induction 1 as [|i items Hi _ IH]; [split; [apply not_elem_of_nil|done]|]. rewrite !bind_cons. intros [E1 H1]%app_nil [E2 H2]%app_nil.
  destruct (IH H1 H2) as [Hn E]. destruct i as [w|f|f]; [|done|done]. cbn in *. rewrite E in *. split; [|done].
  rewrite not_elem_of_cons. naive_solver.
Qed.

(** C38: the parser of the shell against the grammar of commands: arguments
    other than the marks, at most one [< file] and at most one [> file], whose
    file is not named [<], in any order and with any spaces around and between
    the words.  The program runs with the arguments
    in their order, its input and its output are the files, each string
    terminated, and a redirection that is not written is none. *)
Theorem shell_parses_redirections items s :
  command_ok items -> spaced (items ≫= render) s ->
  new s = Ret (mkArguments (redirected (items ≫= input_of)) (redirected (items ≫= output_of)) (terminated <$> (items ≫= plain_of))).
Proof.
  intros [Hok Hin Hout] Hs. rewrite new_words, (words_spaced _ _ Hs).
  change [LESS; NUL] with (terminated [LESS]). change [GREATER; NUL] with (terminated [GREATER]).
  assert (H1 : exists items', redirect (terminated [LESS]) (terminated <$> (items ≫= render)) =
      Ret (redirected (items ≫= input_of), terminated <$> (items' ≫= render)) /\ Forall item_ok items' /\
      items' ≫= input_of = [] /\ (items' ≫= output_of) = (items ≫= output_of) /\ (items' ≫= plain_of) = (items ≫= plain_of)).
  { destruct (items ≫= input_of) as [|f [|]] eqn:E; [| |cbn in Hin; lia].
    - exists items. split_and!; try done. apply redirect_none, not_terminated. by apply no_less.
    - destruct (bind_singleton _ _ _ E) as (a & [w|f'|f'] & b & -> & Ei & Ha & Hb); [done| |done]. injection Ei as ->.
      exists (a ++ b). apply Forall_app in Hok as [Hoka [_ Hokb]%Forall_cons].
      rewrite !bind_app, !bind_cons, Ha, Hb. split_and!; [|by apply Forall_app|done..].
      cbn [render app]. rewrite !fmap_app, !fmap_cons. apply redirect_some, not_terminated. by apply no_less. }
  destruct H1 as (items' & -> & Hok' & Hin' & Eout & Eplain). cbn [mbind outcome_bind]. rewrite <- Eout, <- Eplain in *.
  destruct (items' ≫= output_of) as [|f [|]] eqn:E; [| |cbn in Hout; lia].
  - destruct (no_greater items' Hok' Hin' E) as [Hn ->]. rewrite redirect_none; [done|]. apply not_terminated. by destruct (no_greater items' Hok' Hin' E) as [? <-].
  - destruct (bind_singleton _ _ _ E) as (a & [w|f'|f'] & b & -> & Ei & Ha & Hb); [done|done|]. injection Ei as ->.
    apply Forall_app in Hok' as [Hoka [_ Hokb]%Forall_cons]. rewrite !bind_app, !bind_cons in *.
    apply app_nil in Hin' as [Hia [_ Hib]%app_nil].
    destruct (no_greater a Hoka Hia Ha) as [Hna Era], (no_greater b Hokb Hib Hb) as [_ Erb].
    cbn [render app]. rewrite fmap_app, !fmap_cons, redirect_some by (by apply not_terminated).
    cbn [mbind outcome_bind plain_of app]. by rewrite <- fmap_app, Era, Erb.
Qed.

(** ** A redirection without a file *)

Lemma redirect_total mark args : (exists r, redirect mark args = Ret r) \/ redirect mark args = Panic.
Proof.
  unfold redirect. destruct (list_find _ args) as [[i y]|]; [|by left; eexists].
  destruct (args !! (i + 1)%nat); [by left; eexists|by right].
Qed.

Lemma new_total s : (exists pa, new s = Ret pa) \/ new s = Panic.
Proof.
  rewrite new_words. destruct (redirect_total [LESS; NUL] (terminated <$> words s)) as [[[i a] ->]| ->]; [|by right]. cbn [mbind outcome_bind].
  destruct (redirect_total [GREATER; NUL] a) as [[[o a'] ->]| ->]; [left; by eexists|by right].
Qed.

Lemma parse_all_panic cmds cmd : cmd ∈ cmds -> new cmd = Panic -> parse_all cmds = Panic.
Proof.
  intros Hin Hp. induction cmds as [|c cmds IH]; [by apply not_elem_of_nil in Hin|]. cbn.
  apply elem_of_cons in Hin as [<-|Hin]; [by rewrite Hp|].
  destruct (new_total c) as [[pa ->]| ->]; [|done]. cbn [mbind outcome_bind]. by rewrite IH.
Qed.

Lemma parse_all_total cmds : (forall cmd, cmd ∈ cmds -> exists pa, new cmd = Ret pa) -> exists pas, parse_all cmds = Ret pas.
Proof.
  induction cmds as [|c cmds IH]; intros H; [by eexists|]. cbn. destruct (H c) as [pa ->]; [by left|].
  destruct IH as [pas ->]; [|by eexists]. intros cmd Hin. apply H. by right.
Qed.

(** The first [mark] is the last word. *)
Inductive unfiled (mark : list Z) : list (list Z) -> Prop :=
| unfiled_last pre : mark ∉ pre -> unfiled mark (pre ++ [mark]).

(** The words without the first [mark] and its file. *)
Inductive drained (mark : list Z) : list (list Z) -> list (list Z) -> Prop :=
| drained_none ws : mark ∉ ws -> drained mark ws ws
| drained_first pre file post : mark ∉ pre -> drained mark (pre ++ mark :: file :: post) (pre ++ post).

(** A command with a redirection and no file for it: the first [<] is last, or
    the first [>] is once the input redirection is taken out. *)
Inductive dangling : list (list Z) -> Prop :=
| dangling_input ws : unfiled [LESS] ws -> dangling ws
| dangling_output ws ws' : drained [LESS] ws ws' -> unfiled [GREATER] ws' -> dangling ws.

Lemma unfiled_or_drained mark ws : unfiled mark ws \/ exists ws', drained mark ws ws'.
Proof.
  destruct (decide (mark ∈ ws)) as [Hin|Hn]; [|right; exists ws; by left].
  apply list_elem_of_split_l in Hin as (pre & [|file post] & -> & Hpre); [by left|]. right. eexists. by right.
Qed.

Lemma redirect_unfiled mark ws : unfiled mark ws -> redirect (terminated mark) (terminated <$> ws) = Panic.
Proof. intros [pre Hp]. rewrite fmap_app. by apply redirect_dangling, not_terminated. Qed.

Lemma redirect_drained mark ws ws' :
  drained mark ws ws' -> exists file, redirect (terminated mark) (terminated <$> ws) = Ret (file, terminated <$> ws').
Proof.
  intros [ws0 Hn|pre file post Hp].
  - eexists. by apply redirect_none, not_terminated.
  - eexists. rewrite !fmap_app, !fmap_cons. by apply redirect_some, not_terminated.
Qed.

Lemma new_dangling ws s : spaced ws s -> dangling ws -> new s = Panic.
Proof.
  intros Hs Hd. rewrite new_words, (words_spaced _ _ Hs). destruct Hd as [ws Hu|ws ws' Hd Hu].
  - change [LESS; NUL] with (terminated [LESS]). by rewrite redirect_unfiled.
  - change [LESS; NUL] with (terminated [LESS]). destruct (redirect_drained _ _ _ Hd) as [file ->]. cbn [mbind outcome_bind].
    change [GREATER; NUL] with (terminated [GREATER]). by rewrite redirect_unfiled.
Qed.

Lemma new_filed s : ~ dangling (words s) -> exists pa, new s = Ret pa.
Proof.
  intros Hd. rewrite new_words. change [LESS; NUL] with (terminated [LESS]).
  destruct (unfiled_or_drained [LESS] (words s)) as [Hu|[ws' Hw]]; [by destruct Hd; left|].
  destruct (redirect_drained _ _ _ Hw) as [file ->]. cbn [mbind outcome_bind]. change [GREATER; NUL] with (terminated [GREATER]).
  destruct (unfiled_or_drained [GREATER] ws') as [Hu|[ws'' Hw']]; [by destruct Hd; right with ws'|].
  destruct (redirect_drained _ _ _ Hw') as [file' ->]. by eexists.
Qed.

(** C39: exactly the lines with a command whose redirection has no file panic
    the parser: its first [<] is its last word, or its first [>] is once the
    first [<] and its file are taken out.  Such a line panics the shell itself, in the parent
    and before any check; every other line is parsed. *)
Theorem redirection_without_file_panics {W} {M : UserMachine W} {St : UserStore W} str_at args_at pipe_fd exit_code fuel (w : W) line :
  let bad := exists cmd ws, cmd ∈ split BAR line /\ spaced ws cmd /\ dangling ws in
  (bad -> run_line str_at args_at pipe_fd exit_code fuel w line = Panic) /\
  (~ bad -> exists pas, parse_all (split BAR line) = Ret pas).
Proof.
  intros bad. split.
  - intros (cmd & ws & Hin & Hs & Hd). unfold run_line. by rewrite (parse_all_panic _ cmd Hin (new_dangling _ _ Hs Hd)).
  - intros Hn. apply parse_all_total. intros cmd Hin. apply new_filed. intros Hd. apply Hn. exists cmd, (words cmd).
    split_and!; [done| |done]. apply spaced_words.
Qed.

(** ** A line of commands *)

(** [cat], [in], [-n], [out]. *)
Definition ex_cat : list Z := [99; 97; 116].
Definition ex_in : list Z := [105; 110].
Definition ex_n : list Z := [45; 110].
Definition ex_out : list Z := [111; 117; 116].

(** [cat < in  -n > out], two spaces before the option. *)
Definition ex_command : list Z := ex_cat ++ SPACE :: [LESS] ++ SPACE :: ex_in ++ SPACE :: SPACE :: ex_n ++ SPACE :: [GREATER] ++ SPACE :: ex_out.

(** [-n > out  cat < in]. *)
Definition ex_reversed : list Z := ex_n ++ SPACE :: [GREATER] ++ SPACE :: ex_out ++ SPACE :: SPACE :: ex_cat ++ SPACE :: [LESS] ++ SPACE :: ex_in.

(** The witnesses' lines are made of words: by computation. *)
Lemma spaced_of ws s : words s = ws -> spaced ws s.
Proof. intros <-. apply spaced_words. Qed.

Lemma command_ok_of items :
  forallb (fun i => match i with Plain w => negb (bool_decide (w = [LESS])) && negb (bool_decide (w = [GREATER]))
                    | From _ => true | Into file => negb (bool_decide (file = [LESS])) end) items = true ->
  (length (items ≫= input_of) <=? 1)%nat && (length (items ≫= output_of) <=? 1)%nat = true -> command_ok items.
Proof.
  intros H [H1%Nat.leb_le H2%Nat.leb_le]%andb_true_iff. split; [|done..]. apply Forall_forall. intros i Hi.
  rewrite forallb_forall in H. apply list_elem_of_In in Hi. specialize (H i Hi). destruct i; cbn in *; [|done|].
  - apply andb_true_iff in H as [Ha%negb_true_iff%bool_decide_eq_false Hb%negb_true_iff%bool_decide_eq_false]. done.
  - by apply negb_true_iff, bool_decide_eq_false in H.
Qed.

Lemma shell_parses_redirections_witness :
  new ex_command = Ret (mkArguments (terminated ex_in) (terminated ex_out) [terminated ex_cat; terminated ex_n]) /\
  new ex_reversed = Ret (mkArguments (terminated ex_in) (terminated ex_out) [terminated ex_n; terminated ex_cat]) /\
  new (ex_cat ++ SPACE :: [GREATER] ++ SPACE :: ex_out) = Ret (mkArguments [] (terminated ex_out) [terminated ex_cat]).
Proof.
  split_and!.
  - apply (shell_parses_redirections [Plain ex_cat; From ex_in; Plain ex_n; Into ex_out]); [by apply command_ok_of|by apply spaced_of].
  - apply (shell_parses_redirections [Plain ex_n; Into ex_out; Plain ex_cat; From ex_in]); [by apply command_ok_of|by apply spaced_of].
  - apply (shell_parses_redirections [Plain ex_cat; Into ex_out]); [by apply command_ok_of|by apply spaced_of].
Defined.

(** ** The descriptors of a pipeline

    The shell's child between [fork] and [exec], on the kernel of this
    development: its descriptor calls through [sys_close] and [sys_dup]. *)
Import UserAccess Task Kernel SyscallFs UserShell.

(** The descriptor numbers of pipes. *)
Definition ends (fds : list (nat * nat)) : list nat := fds ≫= fun p => [p.1; p.2].
Definition pipe_fds (fds : list (nat * nat)) : list (Z * Z) := prod_map Z.of_nat Z.of_nat <$> fds.

Lemma fd_file_insert (T : fdtable) i j :
  fd_file (<[i := None]> T) j = if decide (j = i) then None else fd_file T j.
Proof.
  unfold fd_file. case_decide as E; [subst|by rewrite list_lookup_insert_ne].
  destruct (decide (i < length T)%nat); [by rewrite list_lookup_insert_eq|]. by rewrite list_insert_ge, lookup_ge_None_2 by lia.
Qed.

Lemma fd_file_installed T f fd T' j : installed T f fd T' -> fd_file T' j = if decide (j = fd) then Some f else fd_file T j.
Proof.
  intros Hi. unfold fd_file. case_decide as E; [subst; by rewrite (in_here _ _ _ _ Hi)|]. by rewrite (in_others _ _ _ _ Hi).
Qed.

(** The lowest free number is one with no file. *)
Lemma installed_lowest T f fd T' j : installed T f fd T' -> fd_file T j = None -> (fd <= j)%nat.
Proof.
  intros Hi Hj. destruct (decide (fd <= j)%nat); [done|]. destruct (in_lowest _ _ _ _ Hi j) as [g Hg]; [lia|].
  unfold fd_file in Hj. rewrite Hg in Hj. done.
Qed.

Section Wiring.
Context {F : Type} {FS : FileSystem F}.
Variable P : Platform.
Variable read_fuel : nat.
Variable str_at : list Z -> slice.
Abbreviation Process := (UserAbi.Process (F := F)).
#[local] Instance machine : UserMachine Process := process_machine P read_fuel.

(** A program's store goes through the page table of the current task: it
    needs a user page with write permission. *)
#[local] Instance process_store : UserStore Process := {|
  store_u8 := fun w a b =>
    token ← current_user_token (p_kernel w);
    '(m, r) ← copy_to_user (k_mem (p_kernel w)) token a [b];
    match r with
    | Ok _ => Ret {| p_kernel := set_mem (p_kernel w) m; p_turns := p_turns w |}
    | Err _ => Panic
    end;
|}.

(** What runs between two calls leaves the descriptors of [pid] alone. *)
Definition undisturbed (pid : Z) (tn : Turn (F := F)) : Prop :=
  forall k t, running k pid t -> exists t', running (before tn k) pid t' /\ fd_table t' = fd_table t.

(** A process with the descriptor table [T]. *)
Record has_table (pid : Z) (w : Process) (T : fdtable) : Prop := {
  ht_running : exists t, running (p_kernel w) pid t /\ fd_table t = T;
  ht_turns : Forall (undisturbed pid) (p_turns w);
}.

(** The state a call finds. *)
Lemma has_table_call pid w T tn ts :
  has_table pid w T -> next_turn (p_turns w) = (tn, ts) ->
  (exists t, running (before tn (p_kernel w)) pid t /\ fd_table t = T) /\ Forall (undisturbed pid) ts.
Proof.
  intros [(t & Hr & <-) Ht] E. destruct (p_turns w) as [|tn' ts']; cbn in E; simplify_eq; [by split; [exists t|]|].
  apply Forall_cons in Ht as [Htn Hts]. destruct (Htn _ _ Hr) as (t' & Hr' & <-). split; [by exists t'|done].
Qed.

Lemma running_edit k k' pid t t' : running k pid t -> kinv k' -> caller_edit k k' pid t t' -> running k' pid t'.
Proof. intros [] Hk (-> & _). split; [done..|]. apply lookup_insert_eq. Qed.

(** [close] of any number: the descriptor is free, the others stay. *)
Lemma close_table pid w T (fd : nat) :
  has_table pid w T ->
  exists v w' T', UserLib.close w (Z.of_nat fd) = Ret (v, w') /\ has_table pid w' T' /\
    (T' = T /\ fd_file T fd = None \/ T' = <[fd := None]> T /\ fd_file T fd <> None).
Proof.
  intros Ht. unfold UserLib.close. cbn [ecall machine process_machine]. unfold process_ecall.
  destruct (next_turn (p_turns w)) as [tn ts] eqn:E. destruct (has_table_call pid w T tn ts Ht E) as [(t & Hr & <-) Hts].
  change (dispatch _ _ _ _ _) with (sys_close (before tn (p_kernel w)) (Z.of_nat fd)).
  destruct (sys_close_total _ _ _ fd Hr) as (k' & v & Ec & H). rewrite Ec. cbn [mbind outcome_bind].
  apply (kinv_sys_close _ _ _ _ (Nat2Z.is_nonneg fd) (run_inv _ _ _ Hr)) in Ec.
  destruct (fd_file (fd_table t) fd) as [f|].
  - destruct H as (-> & t' & He & ET). eexists _, _, _. split; [done|]. split; [|right; by split].
    split; [|done]. exists t'. split; [by eapply running_edit|done].
  - destruct H as [-> ->]. eexists _, _, _. split; [done|]. split; [|left; by split]. split; [|done]. by exists t.
Qed.

Lemma dup_table pid w T (fd : nat) f :
  has_table pid w T -> fd_file T fd = Some f -> dup_refusal T f = None ->
  exists (nfd : nat) w' T', UserLib.dup w (Z.of_nat fd) = Ret (Z.of_nat nfd, w') /\ has_table pid w' T' /\ installed T f nfd T'.
Proof.
  intros Ht Hf Hq. unfold UserLib.dup. cbn [ecall machine process_machine]. unfold process_ecall.
  destruct (next_turn (p_turns w)) as [tn ts] eqn:E. destruct (has_table_call pid w T tn ts Ht E) as [(t & Hr & <-) Hts].
  change (dispatch _ _ _ _ _) with (sys_dup (before tn (p_kernel w)) (Z.of_nat fd)).
  destruct (sys_dup_total _ _ _ fd Hr) as (k' & v & Ec & H). rewrite Ec. cbn [mbind outcome_bind].
  apply (kinv_sys_dup _ _ _ _ (Nat2Z.is_nonneg fd) (run_inv _ _ _ Hr)) in Ec.
  rewrite Hf, Hq in H. destruct H as (nfd & t' & -> & He & Hi). eexists nfd, _, _. split; [done|]. split; [|exact Hi].
  split; [|done]. exists t'. split; [by eapply running_edit|done].
Qed.

(** A refused copy: the error is the result of the call. *)
Lemma dup_refused pid w T (fd : nat) f e :
  has_table pid w T -> fd_file T fd = Some f -> dup_refusal T f = Some e ->
  exists v w', UserLib.dup w (Z.of_nat fd) = Ret (v, w') /\ v < 0.
Proof.
  intros Ht Hf Hq. unfold UserLib.dup. cbn [ecall machine process_machine]. unfold process_ecall.
  destruct (next_turn (p_turns w)) as [tn ts] eqn:E. destruct (has_table_call pid w T tn ts Ht E) as [(t & Hr & <-) Hts].
  change (dispatch _ _ _ _ _) with (sys_dup (before tn (p_kernel w)) (Z.of_nat fd)).
  destruct (sys_dup_total _ _ _ fd Hr) as (k' & v & Ec & H). rewrite Ec. cbn [mbind outcome_bind].
  rewrite Hf, Hq in H. destruct H as [_ ->]. eexists _, _. split; [done|]. by destruct e.
Qed.

Lemma has_table_room pid w T : has_table pid w T -> (open_count T <= 32)%nat.
Proof. intros [(t & Hr & <-) _]. by apply (fq_max_files _ _ (running_fd_quota _ _ _ Hr)). Qed.

(** Standard descriptor [std] replaced by a copy of [fd]. *)
Lemma replace_std_table pid w T (std fd : nat) f :
  has_table pid w T -> (forall j, (j <= std)%nat -> fd_file T j <> None) -> fd_file T fd = Some f -> fd <> std ->
  (pipe_count T < 16)%nat ->
  exists w' T', replace_std w (Z.of_nat std) (Z.of_nat fd) = Ret w' /\ has_table pid w' T' /\
    (forall j, fd_file T' j = if decide (j = std) then Some f else fd_file T j) /\ (pipe_count T' <= S (pipe_count T))%nat.
Proof.
  intros Ht Hlow Hf Hne Hp. unfold replace_std. pose proof (has_table_room pid w T Ht) as Hroom.
  destruct (close_table pid w T std Ht) as (v & w1 & T1 & -> & Ht1 & H1). cbn [mbind outcome_bind].
  destruct H1 as [[_ Hnone]|[-> Hopen]]; [by destruct (Hlow std)|].
  destruct (fd_file T std) as [g|] eqn:Eg; [|done]. apply fd_file_Some_index in Eg as (Eg & _ & _).
  pose proof (open_count_remove _ _ _ Eg) as Ho. pose proof (pipe_count_remove _ _ _ Eg) as Hpc.
  destruct (dup_table pid w1 _ fd f Ht1) as (nfd & w2 & T2 & -> & Ht2 & Hi).
  - rewrite fd_file_insert. by rewrite decide_False.
  - unfold dup_refusal. destruct (Nat.eqb_spec (open_count (<[std := None]> T)) 32); [lia|].
    destruct (Nat.eqb_spec (pipe_count (<[std := None]> T)) 16); [lia|]. by rewrite andb_false_r.
  - cbn [mbind outcome_bind]. assert (nfd = std) as ->.
    { assert (nfd <= std)%nat by (eapply installed_lowest; [done|]; rewrite fd_file_insert; by rewrite decide_True).
      destruct (decide (nfd = std)); [done|]. destruct (in_free _ _ _ _ Hi) as [Hn|Hn];
        destruct (Hlow nfd); try lia; unfold fd_file; rewrite list_lookup_insert_ne in Hn by done; by rewrite Hn. }
    rewrite Z.eqb_refl. cbn [assert_ mbind outcome_bind]. exists w2, T2. split_and!; [done..| |].
    + intros j. rewrite (fd_file_installed _ _ _ _ _ Hi). case_decide as E; [done|]. rewrite fd_file_insert. by rewrite decide_False.
    + rewrite (in_pipe _ _ _ _ Hi). destruct (is_pipe_file f); lia.
Qed.

(** All the pipe ends closed, whatever was open. *)
Lemma close_pipes_table pid w T fds :
  has_table pid w T ->
  exists w' T', close_pipes w (pipe_fds fds) = Ret w' /\ has_table pid w' T' /\
    forall j, fd_file T' j = if decide (j ∈ ends fds) then None else fd_file T j.
Proof.
  assert (Hclose : forall w T (fd : nat), has_table pid w T -> exists v w' T', UserLib.close w (Z.of_nat fd) = Ret (v, w') /\
            has_table pid w' T' /\ forall j, fd_file T' j = if decide (j = fd) then None else fd_file T j).
  { intros w0 T0 fd H0. destruct (close_table pid w0 T0 fd H0) as (v & w' & T' & E & H' & HT). exists v, w', T'. split_and!; [done..|].
    intros j. destruct HT as [[-> Hn]|[-> _]]; [|apply fd_file_insert]. case_decide; by subst. }
  revert w T. induction fds as [|[r wr] fds IH]; intros w T Ht.
  - exists w, T. split_and!; [done..|]. intros j. rewrite decide_False; [done|]. apply not_elem_of_nil.
  - change (pipe_fds ((r, wr) :: fds)) with ((Z.of_nat r, Z.of_nat wr) :: pipe_fds fds). cbn [close_pipes].
    destruct (Hclose w T r Ht) as (v1 & w1 & T1 & -> & Ht1 & H1). cbn [mbind outcome_bind].
    destruct (Hclose w1 T1 wr Ht1) as (v2 & w2 & T2 & -> & Ht2 & H2). cbn [mbind outcome_bind].
    destruct (IH w2 T2 Ht2) as (w3 & T3 & -> & Ht3 & H3). exists w3, T3. split_and!; [done..|].
    intros j. rewrite H3, H2, H1. change (ends ((r, wr) :: fds)) with (r :: wr :: ends fds).
    repeat case_decide; rewrite ?elem_of_cons in *; naive_solver.
Qed.

Lemma ends_elem fds p : p ∈ fds -> p.1 ∈ ends fds /\ p.2 ∈ ends fds.
Proof. intros Hp. split; apply list_elem_of_bind; exists p; (split; [set_solver|done]). Qed.

(** C37: command [i] of a pipeline of [n] without files runs with its input
    from the pipe before it and its output into the pipe after it, the first
    and the last with the shell's; every end the parent created is closed in
    it, so that a reader sees the end of its input, and the other descriptors
    stay.  Up to 14 pipe ends, 8 commands, leave room for the copies. *)
Theorem pipeline_child_wiring pid w T fds i n pa :
  has_table pid w T -> n = S (length fds) -> (i < n)%nat -> input pa = [] -> output pa = [] ->
  fd_file T 0 <> None -> fd_file T 1 <> None -> (forall e, e ∈ ends fds -> (2 <= e)%nat /\ fd_file T e <> None) ->
  (pipe_count T <= 14)%nat ->
  exists w' T', child_fds str_at w i n pa (pipe_fds fds) = Ret (inl w') /\ has_table pid w' T' /\
    fd_file T' 0 = match i with O => fd_file T 0 | S i' => p ← fds !! i'; fd_file T p.1 end /\
    fd_file T' 1 = match fds !! i with Some p => fd_file T p.2 | None => fd_file T 1 end /\
    forall e, (2 <= e)%nat -> fd_file T' e = if decide (e ∈ ends fds) then None else fd_file T e.
Proof.
  intros Ht -> Hi Hin Hout H0 H1 Hends Hp. unfold child_fds, redirect_file. rewrite Hin, Hout. cbn [is_empty mbind outcome_bind].
  assert (Hstd : forall e, e ∈ ends fds -> e <> 0%nat /\ e <> 1%nat) by (intros e He; destruct (Hends e He); lia).
  assert (Hget : forall j, (j < length fds)%nat -> exists p f g, fds !! j = Some p /\ pipe_fds fds !! j = Some (Z.of_nat p.1, Z.of_nat p.2) /\
     (2 <= p.1)%nat /\ (2 <= p.2)%nat /\ fd_file T p.1 = Some f /\ fd_file T p.2 = Some g).
  { intros j Hj. destruct (lookup_lt_is_Some_2 fds j Hj) as [p Ej]. pose proof (list_elem_of_lookup_2 _ _ _ Ej) as [Ha Hb]%ends_elem.
    destruct (Hends _ Ha) as [Ha2 Hfa], (Hends _ Hb) as [Hb2 Hfb].
    destruct (fd_file T p.1) as [f|] eqn:Ef; [|done]. destruct (fd_file T p.2) as [g|] eqn:Eg; [|done].
    exists p, f, g. split_and!; try done. unfold pipe_fds. by rewrite list_lookup_fmap, Ej. }
  set (in_ := match i with O => fd_file T 0 | S i' => p ← fds !! i'; fd_file T p.1 end).
  set (out := match fds !! i with Some p => fd_file T p.2 | None => fd_file T 1 end).
  assert (S1 : exists w1 T1, (if (0 <? i)%nat then p ← unwrap (pipe_fds fds !! (i - 1)%nat); replace_std w 0 p.1 else Ret w) = Ret w1 /\
     has_table pid w1 T1 /\ (forall j, fd_file T1 j = if decide (j = 0%nat) then in_ else fd_file T j) /\ (pipe_count T1 <= 15)%nat /\ in_ <> None).
  { destruct i as [|i]; cbn [Nat.ltb Nat.leb].
    - exists w, T. split_and!; [done..| |lia|done]. intros j. by case_decide; subst.
    - replace (S i - 1)%nat with i by lia. destruct (Hget i) as (p & f & g & Ej & -> & ? & ? & Ef & Eg); [lia|]. cbn [unwrap mbind outcome_bind].
      destruct (replace_std_table pid w T 0 p.1 f Ht) as (w1 & T1 & E & Ht1 & HT1 & Hp1); [intros j Hj; by replace j with 0%nat by lia|done|lia|lia|].
      exists w1, T1. subst in_. rewrite Ej. cbn. rewrite Ef. split_and!; [exact E|done|done|lia|done]. }
  destruct S1 as (w1 & T1 & -> & Ht1 & HT1 & Hp1 & Hin0). cbn [mbind outcome_bind].
  assert (S2 : exists w2 T2, (if (i <? S (length fds) - 1)%nat then p ← unwrap (pipe_fds fds !! i); replace_std w1 1 p.2 else Ret w1) = Ret w2 /\
     has_table pid w2 T2 /\ (forall j, fd_file T2 j = if decide (j = 1%nat) then out else fd_file T1 j)).
  { replace (S (length fds) - 1)%nat with (length fds) by lia. destruct (Nat.ltb_spec i (length fds)) as [Hlt|Hge].
    - destruct (Hget i Hlt) as (p & f & g & Ej & -> & ? & ? & Ef & Eg). cbn [unwrap mbind outcome_bind].
      destruct (replace_std_table pid w1 T1 1 p.2 g Ht1) as (w2 & T2 & E & Ht2 & HT2 & Hp2).
      + intros [|[|j]] Hj; [by rewrite HT1|by rewrite HT1|lia].
      + rewrite HT1. by rewrite decide_False by lia.
      + lia.
      + lia.
      + exists w2, T2. subst out. rewrite Ej, Eg. split_and!; [exact E|done..].
    - exists w1, T1. split_and!; [done..|]. intros j. subst out. rewrite lookup_ge_None_2 by done.
      case_decide; [subst; by rewrite HT1|done]. }
  destruct S2 as (w2 & T2 & -> & Ht2 & HT2). cbn [mbind outcome_bind].
  destruct (close_pipes_table pid w2 T2 fds Ht2) as (w3 & T3 & -> & Ht3 & HT3). cbn [mbind outcome_bind].
  exists w3, T3. split_and!; [done..| | |].
  - rewrite HT3, HT2, HT1. rewrite decide_False by (intros [? ?]%Hstd; done). done.
  - rewrite HT3, HT2. rewrite decide_False by (intros [? ?]%Hstd; done). done.
  - intros e He. rewrite HT3, HT2, HT1. case_decide; [done|]. by rewrite !decide_False by lia.
Qed.

(** With all 16 pipe ends in use, a pipeline of nine commands, a command that
    reads from a pipe panics: its input is already closed when the kernel
    refuses the copy. *)
Lemma ninth_command_panics pid w T fds i n pa f :
  has_table pid w T -> (0 < i)%nat -> input pa = [] -> output pa = [] ->
  fd_file T 0 = Some f -> is_pipe_file f = false -> pipe_count T = 16%nat ->
  (exists p g, fds !! (i - 1)%nat = Some p /\ (2 <= p.1)%nat /\ fd_file T p.1 = Some (FPipe g)) ->
  child_fds str_at w i n pa (pipe_fds fds) = Panic.
Proof.
  intros Ht Hi Hin Hout H0 Hf Hp (p & g & Ep & Hlow & Hg). unfold child_fds, redirect_file. rewrite Hin, Hout. cbn [is_empty mbind outcome_bind].
  destruct (Nat.ltb_spec 0 i); [|lia]. 
  assert (E : pipe_fds fds !! (i - 1)%nat = Some (Z.of_nat p.1, Z.of_nat p.2)) by (unfold pipe_fds; by rewrite list_lookup_fmap, Ep).
  rewrite E. cbn [unwrap mbind outcome_bind fst]. unfold replace_std. change 0 with (Z.of_nat 0).
  destruct (close_table pid w T 0 Ht) as (v & w1 & T1 & -> & Ht1 & H1). cbn [mbind outcome_bind].
  destruct H1 as [[_ Hn]|[-> _]]; [by rewrite H0 in Hn|].
  pose proof H0 as (El & _ & _)%fd_file_Some_index. pose proof (pipe_count_remove _ _ _ El) as Hpc. rewrite Hf in Hpc.
  pose proof (open_count_remove _ _ _ El) as Ho. pose proof (has_table_room pid w T Ht) as Hroom.
  assert (Hd : dup_refusal (<[0%nat := None]> T) (FPipe g) = Some ResourceExhausted).
  { unfold dup_refusal. cbn [is_pipe_file andb]. destruct (Nat.eqb_spec (open_count (<[0%nat := None]> T)) 32); [lia|].
    destruct (Nat.eqb_spec (pipe_count (<[0%nat := None]> T)) 16); [done|lia]. }
  destruct (dup_refused pid w1 _ p.1 (FPipe g) ResourceExhausted Ht1) as (r & w2 & -> & Hr); [|done|].
  - rewrite fd_file_insert. by rewrite decide_False by lia.
  - cbn [mbind outcome_bind]. by rewrite (proj2 (Z.eqb_neq r (Z.of_nat 0))) by lia.
Qed.
End Wiring.
