(* ===== verification/UserTests.v ===== *)
(** * The test suite

    [user/src/bin/usertests.rs]: the program that runs every test of the
    repository as a process and compares its exit code.  A string is its code
    points, NUL included, as in [UserShell]. *)
From stdpp Require Import strings pretty.
From S2P Require Import Prelude Utf8 UserAccess UserLib UserShell.
Import UserAccess UserSyscall UserShell.

Module UserTests.

(** A terminated literal. *)
Definition litz (s : string) : list Z := lit s ++ [NUL].

(** An item of the suite: the program (its [argv[0]]), three arguments, the exit code. *)
Record TestCase : Type := mkTest { t0 : list Z; t1 : list Z; t2 : list Z; t3 : list Z; t4 : Z }.

Definition simple (name : string) (code : Z) : TestCase := mkTest (litz name) [NUL] [NUL] [NUL] code.

Definition SUCC_TESTS : list TestCase :=
  [simple "filetest_simple" 0; mkTest (litz "cat") (litz "filea") [NUL] [NUL] 0;
   mkTest (litz "cmdline_args") (litz "1") (litz "2") (litz "3") 0;
   simple "exit" 0; simple "fantastic_text" 0; simple "forktest_simple" 0; simple "forktest" 0; simple "forktest2" 0;
   simple "forktree" 0; simple "hello_world" 0; simple "huge_write" 0; simple "matrix" 0; simple "pipe_large_test" 0;
   simple "pipetest" 0; simple "run_pipe_test" 0; simple "quota_test" 0; simple "ipc_audit_integration_test" 0;
   simple "badptr" 0; simple "cred_test" 0; simple "sleep_simple" 0; simple "sleep" 0; simple "sig_simple" 0;
   simple "sig_simple2" 0; simple "sig_tests" 0; simple "yield" 0; simple "auditctl_test" 0; simple "audit_test" 0;
   mkTest (litz "until_timeout") (litz "audit_stress_test") (litz "10000") [NUL] 0].

Definition FAIL_TESTS : list TestCase :=
  [simple "stack_overflow" (-11); simple "priv_csr" (-4); simple "priv_inst" (-4); simple "store_fault" (-11)].

(** [s.strip_suffix('\0').unwrap_or(s)] *)
Definition strip_nul (s : list Z) : list Z :=
  match last s with Some c => if c =? NUL then take (length s - 1) s else s | None => s end.

Definition test_name (test : TestCase) : list Z :=
  let program := strip_nul (t0 test) in
  if bool_decide (program = lit "until_timeout") then strip_nul (t1 test) else program.

(** The array of four string addresses: [None] is null. *)
Definition argv_for (test : TestCase) : list (option (list Z)) :=
  Some (t0 test) :: ((fun argument => if bool_decide (argument = [NUL]) then None else Some argument) <$> [t1 test; t2 test; t3 test]).

(** [Display] of an integer writes the sign and the digits. *)
Definition dec (n : Z) : list (list Z) := (if n <? 0 then [lit "-"] else []) ++ [lit (pretty (Z.abs_N n))].

Definition esc : list Z := [0x1b].
Definition red : list Z := esc ++ lit "[31m".
Definition green : list Z := esc ++ lit "[32m".
Definition reset : list Z := esc ++ lit "[0m" ++ [LF].

Section Program.
Context {W : Type} {M : UserMachine W} {St : UserStore W}.
Implicit Type w : W.
Variable str_at : list Z -> slice.                   (** a string of the program *)
Variable argv_at : list (option (list Z)) -> slice.  (** the array [argv] *)
Variable exit_code : Z.                              (** the variable [exit_code] *)
Variable fuel : nat.                                 (** rounds of [waitpid] *)

Abbreviation print := (UserShell.print str_at).

Definition load_i32 w (a : Z) : outcome Z := bs ← UserLib.load_word_bytes w a 4; Ret (to_signed 32 (le_value bs)).

(** One item of the suite: has it passed? *)
Definition run_test w (test : TestCase) : outcome (bool * W) :=
  let name := test_name test in
  let argv := argv_for test in
  w ← print w [lit "[usertests] RUN  "; name; [LF]];
  '(pid, w) ← UserLib.fork w;
  if pid <? 0 then
    w ← print w ([red ++ lit "[usertests] FAIL "; name; lit ": fork returned "] ++ dec pid ++ [reset]); Ret (false, w)
  else if pid =? 0 then
    '(result, w) ← UserLib.exec w (str_at (t0 test)) (argv_at argv);
    w ← print w ([red ++ lit "[usertests] FAIL "; name; lit ": exec unexpectedly returned "] ++ dec result ++ [reset]);
    w ← UserLib.exit w 127; Ret (false, w)
  else
    w ← store_zeros w exit_code 4;
    '(wait_pid, w) ← UserLib.waitpid fuel w (as_usize pid) exit_code;
    if negb (wait_pid =? pid) then
      w ← print w ([red ++ lit "[usertests] FAIL "; name; lit ": waitpid expected "] ++ dec pid ++ [lit " but returned "] ++ dec wait_pid ++ [reset]);
      Ret (false, w)
    else
      code ← load_i32 w exit_code;
      if code =? t4 test then
        w ← print w ([green ++ lit "[usertests] PASS "; name; lit ": exit="] ++ dec code ++ [reset]); Ret (true, w)
      else
        w ← print w ([red ++ lit "[usertests] FAIL "; name; lit ": expected exit="] ++ dec (t4 test) ++ [lit " actual exit="] ++ dec code ++ [reset]);
        Ret (false, w).

Fixpoint run_each w (passed : Z) (tests : list TestCase) : outcome (Z * W) :=
  match tests with
  | [] => Ret (passed, w)
  | test :: rest => '(ok, w) ← run_test w test; run_each w (if ok : bool then passed + 1 else passed) rest
  end.

Definition run_tests w (suite : list Z) (tests : list TestCase) : outcome (Z * W) :=
  let total := Z.of_nat (length tests) in
  w ← print w ([lit "[usertests] Running "; suite; lit " suite ("] ++ dec total ++ [lit " tests)" ++ [LF]]);
  '(passed, w) ← run_each w 0 tests;
  w ← print w ([lit "[usertests] "; suite; lit " suite result: "] ++ dec passed ++ [lit "/"] ++ dec total ++ [lit " passed" ++ [LF]]);
  Ret (passed, w).

Definition main w : outcome (Z * W) :=
  '(succ_num, w) ← run_tests w (lit "expected-success") SUCC_TESTS;
  '(err_num, w) ← run_tests w (lit "expected-failure") FAIL_TESTS;
  let passed := succ_num + err_num in
  let total := Z.of_nat (length SUCC_TESTS) + Z.of_nat (length FAIL_TESTS) in
  if passed =? total then
    w ← print w ([green ++ lit "[usertests] PASS all tests: "] ++ dec passed ++ [lit "/"] ++ dec total ++ [[LF] ++ lit "Usertests passed!" ++ reset]);
    Ret (0, w)
  else
    w ← print w ([red ++ lit "[usertests] FAIL summary: "] ++ dec passed ++ [lit "/"] ++ dec total ++ [lit " passed" ++ [LF] ++ lit "Usertests failed!" ++ reset]);
    Ret (1, w).

End Program.
End UserTests.

(** ** What a passed suite shows *)

Section Facts.
Context {W : Type} {M : UserMachine W} {St : UserStore W}.
Implicit Type w : W.
Variable str_at : list Z -> slice.
Variable argv_at : list (option (list Z)) -> slice.
Variable exit_code : Z.
Variable fuel : nat.

(** A child was created for the test, that very child was waited for, and the
    kernel left the expected exit code. *)
Definition child_passed (test : UserTests.TestCase) : Prop :=
  exists w pid w1 w2 w3, UserLib.fork w = Ret (pid, w1) /\ 0 < pid /\ store_zeros w1 exit_code 4 = Ret w2 /\
    UserLib.waitpid fuel w2 (as_usize pid) exit_code = Ret (pid, w3) /\
    UserTests.load_i32 w3 exit_code = Ret (UserTests.t4 test).

Lemma run_test_passed w test w' :
  UserTests.run_test str_at argv_at exit_code fuel w test = Ret (true, w') -> child_passed test.
Proof.
  unfold UserTests.run_test. intros H.
  apply bind_Ret_inv in H as (w0 & _ & H). apply bind_Ret_inv in H as ([pid w1] & Hf & H).
  destruct (Z.ltb_spec pid 0); [by apply bind_Ret_inv in H as (? & _ & H)|].
  destruct (Z.eqb_spec pid 0).
  { apply bind_Ret_inv in H as ([r w2] & _ & H). apply bind_Ret_inv in H as (w3 & _ & H). by apply bind_Ret_inv in H as (w4 & _ & H). }
  apply bind_Ret_inv in H as (w2 & Hs & H). apply bind_Ret_inv in H as ([wp w3] & Hw & H).
  destruct (Z.eqb_spec wp pid) as [->|]; cbn [negb] in H; [|by apply bind_Ret_inv in H as (? & _ & H)].
  apply bind_Ret_inv in H as (code & Hc & H).
  destruct (Z.eqb_spec code (UserTests.t4 test)) as [->|]; [|by apply bind_Ret_inv in H as (? & _ & H)].
  exists w0, pid, w1, w2, w3. split_and!; [done|lia|done..].
Qed.

Lemma run_each_counts w passed tests n w' :
  UserTests.run_each str_at argv_at exit_code fuel w passed tests = Ret (n, w') ->
  passed <= n <= passed + Z.of_nat (length tests) /\ (n = passed + Z.of_nat (length tests) -> Forall child_passed tests).
Proof.
  revert w passed. induction tests as [|t tests IH]; intros w passed H; cbn in H.
  - simplify_eq. split; [cbn; lia|done].
  - apply bind_Ret_inv in H as ([ok w1] & Ht & H). apply IH in H as [Hn Hall]. cbn [length]. destruct ok.
    + split; [lia|]. intros E. constructor; [by eapply run_test_passed|]. apply Hall. lia.
    + split; [lia|]. lia.
Qed.

Lemma run_tests_counts w suite tests n w' :
  UserTests.run_tests str_at argv_at exit_code fuel w suite tests = Ret (n, w') ->
  0 <= n <= Z.of_nat (length tests) /\ (n = Z.of_nat (length tests) -> Forall child_passed tests).
Proof.
  unfold UserTests.run_tests. intros H. apply bind_Ret_inv in H as (w0 & _ & H). apply bind_Ret_inv in H as ([m w1] & Hr & H).
  apply bind_Ret_inv in H as (w2 & _ & H). simplify_eq. by apply run_each_counts in Hr.
Qed.

(** The suite's own exit code is 0 only when every test of both tables ran as
    a child and left its expected exit code: a failed [fork], a failed [exec],
    a wrong child or a wrong code makes it 1. *)
Theorem suite_success w w' :
  UserTests.main str_at argv_at exit_code fuel w = Ret (0, w') ->
  Forall child_passed (UserTests.SUCC_TESTS ++ UserTests.FAIL_TESTS).
Proof.
  unfold UserTests.main. intros H. apply bind_Ret_inv in H as ([n w1] & H1 & H). apply bind_Ret_inv in H as ([m w2] & H2 & H).
  apply run_tests_counts in H1 as [Hn H1]. apply run_tests_counts in H2 as [Hm H2].
  destruct (_ =? _) eqn:E in H; [|by apply bind_Ret_inv in H as (? & _ & H)]. apply Z.eqb_eq in E.
  apply Forall_app. split; [apply H1|apply H2]; lia.
Qed.
End Facts.
