(* ===== verification/AuditCtlKernel.v ===== *)
(** * The audit viewer on the kernel

    [auditctl] as a process of this kernel: its two calls go through the user
    library, the dispatcher, the page tables and the audit ring, and it reads
    the answer back from its own memory.  Such a process keeps the promises of
    [AuditServiceLaws], with other tasks adding to the log between its calls. *)
From S2P Require Import Prelude IpcApi Quota Timer AuditLog AuditFacts Facade.
From S2P Require Import Address Allocators PageTable MemorySet Signals UserAccess UserAccessFacts Pipe Task Kernel.
From S2P Require Import SyscallFs SignalHandling SyscallProcess SyscallAudit Trap KernelInv CallSpecs AuditCallFacts.
From S2P Require Import UserLib UserAbi AuditCtl AuditCtlFacts.
Import Audit Mem UserAccess Task Kernel SyscallFs SyscallAudit Trap.

(** An event whose record fits its fields. *)
Definition event_ok (e : AuditEvent) : Prop := record_in_range (to_record e false) /\ 0 <= ev_errno e.

(** An array of records in memory. *)
Fixpoint decode_records (n : nat) (bs : list Z) : list AuditRecordV1 :=
  match n with
  | O => []
  | S n' => default AuditCtl.record_default (decode_record (take 80 bs)) :: decode_records n' (drop 80 bs)
  end.

Lemma length_decode_records n bs : length (decode_records n bs) = n.
Proof. revert bs. induction n as [|n IH]; intros bs; cbn; [done|]. by rewrite IH. Qed.

Lemma decode_encode_records rs n rest :
  Forall record_in_range rs -> (length rs <= n)%nat ->
  take (length rs) (decode_records n (encode_records rs ++ rest)) = rs.
Proof.
  intros Hr. revert n. induction Hr as [|r rs Hr Hrs IH]; intros n Hn; [done|].
  destruct n as [|n]; [cbn in Hn; lia|]. destruct (decode_encode_record r Hr) as [Hl Hd].
  unfold encode_records. cbn [fmap list_fmap concat decode_records length take]. rewrite <- app_assoc.
  rewrite take_app_length' by done. rewrite drop_app_length' by done. rewrite Hd. cbn [default from_option].
  f_equal. apply IH. cbn in Hn. lia.
Qed.

Lemma batch_in_range log after capacity : Forall event_ok log -> Forall record_in_range (batch_records log after capacity).
Proof.
  intros Hl. apply Forall_lookup. intros i r Hr. unfold batch_records in Hr.
  apply list_lookup_imap_Some in Hr as (e & He & ->). unfold visible in He.
  apply list_elem_of_lookup_2, elem_of_take in He as (j & He & _).
  apply list_elem_of_lookup_2, list_elem_of_filter in He as [_ He].
  assert (Hin : e ∈ log) by (unfold retained in He; by apply subseteq_drop in He).
  rewrite Forall_forall in Hl. destruct (Hl e Hin) as [Hrec _]. unfold record_in_range, to_record in *. cbn in *.
  destruct (_ && _); [|done]. destruct Hrec as (?&?&?&?&?). split_and!; try done. all: intuition.
Qed.

Section AuditCtlKernel.
Context {F : Type} {FS : FileSystem F}.
Variable P : Platform.
Variable read_fuel : nat.
(** Where the program keeps its array of records and its statistics. *)
Variables RECORDS STATS : Z.
Implicit Type k : Kernel F.
#[local] Existing Instance process_machine.

Definition RECORDS_BYTES : Z := 2560.

(** A call and the load of what it left in the buffer.  A call that does not
    return ends the program; the last alternative stands for that. *)
Definition call_and_load (w : Process) (q : UserSyscall.Request) (buf : Z) (n : nat) : outcome (Z * list Z * Process) :=
  '(v, w) ← process_ecall P read_fuel w q;
  bs ← UserLib.load_word_bytes (M := process_machine P read_fuel) w buf n;
  Ret (v, bs, w).

#[local] Instance process_audit : AuditService Process := {|
  svc_stat := fun w stats =>
    match call_and_load w (UserSyscall.sys_ipc_stat STATS IPC_STATS_V1_SIZE 0) STATS 80 with
    | Ret (v, bs, w') => (v, default stats (decode_stats bs), w')
    | _ => (-1, stats, w)
    end;
  svc_read := fun w records after =>
    match call_and_load w (UserSyscall.sys_audit_read RECORDS (Z.of_nat (length records)) after) RECORDS
            (80 * length records) with
    | Ret (v, bs, w') => (v, decode_records (length records) bs, w')
    | _ => (-1, records, w)
    end;
|}.

(** ** The process *)

(** A buffer of the program: mapped for reading and writing, no two of its
    bytes on the same physical byte. *)
Record buffer_ok (m : PhysMem) (token ptr len : Z) : Prop := {
  bo_ptr : 0 < ptr;
  bo_read : range_ok m token ptr len false;
  bo_write : range_ok m token ptr len true;
  bo_distinct : NoDup (phys_range m token ptr len);
}.

(** Other tasks between two calls: the program's memory and block stay, and
    the log only grows. *)
Definition quiet (t : Turn) : Prop :=
  forall k pid inner log, running k pid inner -> sink_view (k_audit k) log ->
  let k' := before t k in
  running k' pid inner /\ k_mem k' = k_mem k /\
  exists more, sink_view (k_audit k') (log ++ more) /\ Forall event_ok more.

Record viewer (w : Process) (log : list AuditEvent) : Prop := {
  vw_process : exists pid t,
    running (p_kernel w) pid t /\ check_permission (subject_of pid (security t)) = Ok tt /\
    user_space (k_mem (p_kernel w)) (get_user_token t) /\
    buffer_ok (k_mem (p_kernel w)) (get_user_token t) RECORDS RECORDS_BYTES /\
    buffer_ok (k_mem (p_kernel w)) (get_user_token t) STATS 80;
  vw_log : sink_view (k_audit (p_kernel w)) log;
  vw_events : Forall event_ok log;
  vw_turns : Forall quiet (p_turns w);
}.

Lemma viewer_turn w log :
  viewer w log ->
  let (t, ts) := next_turn (p_turns w) in
  exists more, viewer {| p_kernel := before t (p_kernel w); p_turns := ts |} (log ++ more).
Proof.
  intros [(pid & t & Hr & Hp & Hu & Hb1 & Hb2) Hl He Hq]. unfold next_turn. destruct w as [k turns]. cbn in *.
  destruct turns as [|tu ts].
  { exists []. rewrite app_nil_r. split; cbn; try done. by exists pid, t. }
  apply Forall_cons in Hq as [Hq Hts]. destruct (Hq k pid t log Hr Hl) as (Hr' & Em & more & Hl' & Hmore).
  exists more. split; cbn; [|done|by apply Forall_app|done]. exists pid, t. rewrite Em. done.
Qed.

Lemma running_same k pid t m pid' t' : running k pid t -> running (set_mem k m) pid' t' -> t' = t.
Proof. intros [_ E1 E2] [_ E3 E4]. change (current_task k = Some pid') in E3. change (k_tasks k !! pid' = Some t') in E4. congruence. Qed.

Lemma buffer_ok_store m token ptr len p n bs :
  user_space m token -> range_ok m token p n true -> 0 < n -> buffer_ok m token ptr len ->
  buffer_ok (store_list m (phys_range m token p n) bs) token ptr len.
Proof.
  intros Hu Hr Hn [H1 H2 H3 H4]. split; [done|..].
  - by apply isolated_range_ok.
  - by apply isolated_range_ok.
  - by rewrite isolated_phys_range.
Qed.

(** A delivery into one buffer leaves the process as it was, up to memory. *)
Lemma viewer_store k ts log token p n bs :
  viewer {| p_kernel := k; p_turns := ts |} log ->
  (exists pid t, running k pid t /\ token = get_user_token t) ->
  range_ok (k_mem k) token p n true -> 0 < n ->
  viewer {| p_kernel := set_mem k (store_list (k_mem k) (phys_range (k_mem k) token p n) bs); p_turns := ts |} log.
Proof.
  intros [(pid & t & Hr & Hp & Hu & Hb1 & Hb2) Hl He Hq] (pid' & t' & Hr' & ->) Hok Hn. cbn in *.
  rewrite <- (set_mem_id k) in Hr'. apply (running_same k pid t) in Hr' as ->; [|done].
  split; cbn; [|done..]. exists pid, t. split_and!; [by apply running_set_mem|done|by apply isolated_user_space|..];
    by apply buffer_ok_store.
Qed.

Lemma range_ok_prefix m token p n n' w : 0 <= n' <= n -> 0 < n -> range_ok m token p n w -> range_ok m token p n' w.
Proof. intros Hk Hn [|[Hl Ho]]; [lia|]. right. split; [lia|]. intros a Ha. apply Ho. lia. Qed.

(** What a buffer holds after bytes were stored at its start. *)
Lemma buffer_after_store m token ptr len bs :
  user_space m token -> buffer_ok m token ptr len -> 0 < Z.of_nat (length bs) <= len ->
  let m' := store_list m (phys_range m token ptr (Z.of_nat (length bs))) bs in
  exists rest, (load m' <$> phys_range m' token ptr len) = bs ++ rest.
Proof.
  intros Hu [_ _ Hw Hnd] Hl m'. set (n := Z.of_nat (length bs)) in *.
  assert (Hok : range_ok m token ptr n true) by (apply (range_ok_prefix _ _ _ len); [lia|lia|done]).
  unfold m'. rewrite isolated_phys_range by (done || lia).
  replace len with (n + (len - n)) in Hnd |- * by lia. rewrite phys_range_app in Hnd |- * by lia.
  rewrite fmap_app, load_store_list; [by eexists| |].
  - by apply NoDup_app in Hnd as (? & _).
  - unfold phys_range. rewrite length_fmap, length_seqZ. lia.
Qed.

(** The process after records were delivered into its array. *)
Lemma copied_buffer k ts log pid t recs :
  viewer {| p_kernel := k; p_turns := ts |} log -> running k pid t ->
  user_space (k_mem k) (get_user_token t) -> buffer_ok (k_mem k) (get_user_token t) RECORDS RECORDS_BYTES ->
  (length recs <= 32)%nat ->
  let m' := copied (k_mem k) (get_user_token t) RECORDS recs in
  viewer {| p_kernel := set_mem k m'; p_turns := ts |} log /\
  exists rest, (load m' <$> phys_range m' (get_user_token t) RECORDS RECORDS_BYTES) = encode_records recs ++ rest.
Proof.
  intros Hv Hr Hu Hb Hlen m'. unfold m', copied. destruct (decide (recs = [])) as [->|Hne].
  { change (store_list (k_mem k) (phys_range (k_mem k) (get_user_token t) RECORDS (80 * Z.of_nat (length []))) (encode_records []))
      with (k_mem k). rewrite set_mem_id. split; [done|]. by eexists. }
  assert (Hn : length recs <> 0%nat) by (by intros ?%length_zero_iff_nil).
  pose proof (length_encode_records recs) as Hl. replace (80 * Z.of_nat (length recs)) with (Z.of_nat (length (encode_records recs))) by lia.
  split.
  - apply (viewer_store k ts log (get_user_token t)); [done|by exists pid, t| |lia].
    apply (range_ok_prefix _ _ _ RECORDS_BYTES); [unfold RECORDS_BYTES; lia..|apply Hb].
  - apply buffer_after_store; [done|done|unfold RECORDS_BYTES; lia].
Qed.

(** The read call of such a process. *)
Lemma viewer_audit_read k e ts log after :
  viewer {| p_kernel := k; p_turns := ts |} log -> in_width 64 after ->
  let recs := batch_records log after (Z.of_nat AuditCtl.BATCH_SIZE) in
  exists m' rest,
    dispatch P read_fuel k e (UserSyscall.sys_audit_read RECORDS (Z.of_nat AuditCtl.BATCH_SIZE) after)
    = Ret (set_mem k m', Returned (Z.of_nat (length recs))) /\
    let w' := {| p_kernel := set_mem k m'; p_turns := ts |} in
    viewer w' log /\
    UserLib.load_word_bytes (M := process_machine P read_fuel) w' RECORDS (80 * AuditCtl.BATCH_SIZE)
    = Ret (encode_records recs ++ rest).
Proof.
  intros Hv Ha recs. pose proof Hv as [(pid & t & Hr & Hp & Hu & Hb1 & _) Hl He _]. cbn [p_kernel p_turns] in *.
  pose proof Hb1 as [Hpos Hrd Hwr Hnd]. change (Z.of_nat AuditCtl.BATCH_SIZE) with 32 in *.
  assert (Hrange : RECORDS + RECORDS_BYTES <= 2 ^ 38) by (destruct Hwr as [|[]]; [done|done]).
  unfold RECORDS_BYTES in *.
  assert (HP : in_width 64 RECORDS) by (unfold in_width; lia).
  assert (H32 : in_width 64 32) by (vm_compute; split; congruence).
  pose proof (sys_audit_read_total k pid t log RECORDS 32 after Hr Hl Hu HP H32 Ha) as Htot.
  destruct Htot as (m' & out & k' & v & E & Hres & Hdel).
  rewrite Hp in Hdel. fold recs in Hdel. pose proof (batch_records_short log after 32) as Hshort. fold recs in Hshort.
  assert (Hfit : range_ok (k_mem k) (get_user_token t) RECORDS (80 * Z.of_nat (length recs)) true)
    by (apply (range_ok_prefix _ _ _ 2560); [lia|lia|done]).
  destruct Hdel as [(_ & -> & ->)|(Hno & _)].
  2:{ exfalso. apply Hno. right. split; [lia|done]. }
  destruct Hres as [-> ->].
  destruct (copied_buffer k ts log pid t recs) as (Hv' & rest & Hload); try done.
  set (m' := copied (k_mem k) (get_user_token t) RECORDS recs) in *.
  exists m', rest. split; [exact E|]. split; [exact Hv'|].
  pose proof Hv' as [(pid2 & t2 & Hr2 & _ & _ & Hb2 & _) _ _ _]. cbn [p_kernel p_turns] in *.
  apply (running_same k pid t) in Hr2 as Et; [subst t2|done].
  rewrite (load_word_bytes_ok P read_fuel {| p_kernel := set_mem k m'; p_turns := ts |} pid2 t RECORDS (80 * AuditCtl.BATCH_SIZE) Hr2)
    by (lia || apply Hb2).
  change (Ret (load m' <$> phys_range m' (get_user_token t) RECORDS RECORDS_BYTES) = Ret (encode_records recs ++ rest)).
  by rewrite Hload.
Qed.

Lemma stats_record_in_range log : Z.of_nat (length log) < U64_MAX -> stats_in_range (stats_record log).
Proof.
  intros Hl. unfold U64_MAX in Hl. pose proof (count_ok_le log). pose proof (retained_length log) as Hr. unfold retained_count in Hr.
  unfold stats_in_range, stats_record, in_width. cbn [s_abi_version s_struct_size s_flags s_capacity s_retained
    s_first_sequence s_next_sequence s_total_events s_successful_events s_failed_events s_overwritten_events s_reserved0].
  unfold AUDIT_ABI_VERSION, IPC_STATS_V1_SIZE. lia.
Qed.

Lemma viewer_log w log : viewer w log ->
  sequenced log /\ Z.of_nat (length log) < U64_MAX /\ Forall (fun e => 0 <= ev_errno e) log.
Proof.
  intros [_ [Hr _] He _]. split_and!; [by apply rr_seq in Hr| |apply (Forall_impl _ _ _ He); by intros e [_ ?]].
  pose proof (rr_next _ _ Hr). pose proof (rr_bound _ _ Hr). lia.
Qed.

(** The statistics call. *)
Lemma viewer_ipc_stat k e ts log :
  viewer {| p_kernel := k; p_turns := ts |} log ->
  exists m',
    dispatch P read_fuel k e (UserSyscall.sys_ipc_stat STATS IPC_STATS_V1_SIZE 0) = Ret (set_mem k m', Returned 0) /\
    let w' := {| p_kernel := set_mem k m'; p_turns := ts |} in
    viewer w' log /\
    UserLib.load_word_bytes (M := process_machine P read_fuel) w' STATS 80 = Ret (encode_stats (stats_record log)).
Proof.
  intros Hv. pose proof Hv as [(pid & t & Hr & Hp & Hu & _ & Hb) Hl He _]. cbn [p_kernel p_turns] in *.
  pose proof Hb as [Hpos Hrd Hwr Hnd].
  assert (Hrange : STATS + 80 <= 2 ^ 38) by (destruct Hwr as [|[]]; [done|done]).
  assert (HP : in_width 64 STATS) by (unfold in_width; lia).
  pose proof (sys_ipc_stat_total k pid t log STATS 80 0 Hr Hl HP) as (m' & out & k' & v & E & Hres & Hdel).
  rewrite Hp in Hdel. unfold delivers_stats in Hdel. rewrite bool_decide_eq_false_2 in Hdel by lia.
  destruct Hdel as [(_ & -> & ->)|(Hno & _)]; [|exfalso; apply Hno; split; [lia|done]].
  destruct Hres as [-> ->]. set (bs := encode_stats (stats_record log)) in *.
  assert (Hbs : length bs = 80%nat) by (apply audit_stats_roundtrip, stats_record_in_range; by destruct (viewer_log _ _ Hv) as (_ & ? & _)).
  destruct (buffer_after_store (k_mem k) (get_user_token t) STATS 80 bs) as (rest & Hload); [done|done|lia|].
  rewrite Hbs in Hload. change (Z.of_nat 80) with 80 in Hload.
  set (m' := store_list (k_mem k) (phys_range (k_mem k) (get_user_token t) STATS 80) bs) in *.
  exists m'. split; [exact E|].
  assert (Hv' : viewer {| p_kernel := set_mem k m'; p_turns := ts |} log).
  { apply (viewer_store k ts log (get_user_token t)); [done|by exists pid, t|done|lia]. }
  split; [exact Hv'|]. pose proof Hv' as [(pid2 & t2 & Hr2 & _ & _ & _ & Hb2) _ _ _]. cbn [p_kernel p_turns] in *.
  apply (running_same k pid t) in Hr2 as Et; [subst t2|done].
  rewrite (load_word_bytes_ok P read_fuel {| p_kernel := set_mem k m'; p_turns := ts |} pid2 t STATS 80 Hr2)
    by (lia || apply Hb2).
  change (Ret (load m' <$> phys_range m' (get_user_token t) STATS 80) = Ret bs). rewrite Hload.
  assert (rest = []) as ->; [|by rewrite app_nil_r].
  apply (f_equal length) in Hload. unfold phys_range in Hload. rewrite !length_fmap, length_seqZ, length_app, Hbs in Hload.
  apply length_zero_iff_nil. lia.
Qed.

Lemma process_stat_law w log buf :
  viewer w log -> exists more w', svc_stat w buf = (0, stats_record (log ++ more), w') /\ viewer w' (log ++ more).
Proof.
  intros Hv. pose proof (viewer_turn w log Hv) as Ht. destruct (next_turn (p_turns w)) as [t ts] eqn:En.
  destruct Ht as [more Ht]. destruct (viewer_ipc_stat _ (during t) _ _ Ht) as (m' & E & Hv' & Hload).
  exists more, {| p_kernel := set_mem (before t (p_kernel w)) m'; p_turns := ts |}. split; [|done].
  cbn [svc_stat process_audit]. unfold call_and_load, process_ecall. rewrite En, E. cbn [mbind outcome_bind].
  rewrite Hload. cbn [mbind outcome_bind].
  destruct (audit_stats_roundtrip (stats_record (log ++ more))) as [_ ->]; [|done].
  apply stats_record_in_range. by destruct (viewer_log _ _ Ht) as (_ & ? & _).
Qed.

Lemma process_read_law w log buf after :
  viewer w log -> length buf = AuditCtl.BATCH_SIZE -> in_width 64 after ->
  exists more buf' w',
    let recs := batch_records (log ++ more) after (Z.of_nat AuditCtl.BATCH_SIZE) in
    svc_read w buf after = (Z.of_nat (length recs), buf', w') /\ viewer w' (log ++ more) /\
    length buf' = AuditCtl.BATCH_SIZE /\ take (length recs) buf' = recs.
Proof.
  intros Hv Hbuf Ha. pose proof (viewer_turn w log Hv) as Ht.
  destruct (next_turn (p_turns w)) as [t ts] eqn:En. destruct Ht as [more Ht].
  destruct (viewer_audit_read _ (during t) _ _ after Ht Ha) as (m' & rest & E & Hv' & Hload).
  set (recs := batch_records (log ++ more) after (Z.of_nat AuditCtl.BATCH_SIZE)) in *.
  exists more, (decode_records AuditCtl.BATCH_SIZE (encode_records recs ++ rest)),
    {| p_kernel := set_mem (before t (p_kernel w)) m'; p_turns := ts |}.
  split_and!; [|done|by rewrite length_decode_records|].
  + cbn [svc_read process_audit]. unfold call_and_load, process_ecall. rewrite Hbuf, En, E. cbn [mbind outcome_bind].
    rewrite Hload. done.
  + apply decode_encode_records; [apply batch_in_range, Ht|]. apply batch_records_short.
Qed.

(** The process keeps the promises the viewer relies on. *)
#[local] Instance process_audit_laws : AuditServiceLaws Process := {|
  svc_view := viewer;
  view_log := viewer_log;
  stat_law := process_stat_law;
  read_law := process_read_law;
|}.

(** C35: [auditctl read] as a root (or [AUDIT_READ]) process of this kernel,
    while other tasks add to the log between its calls.  Through the wrappers,
    the dispatcher, its page table and the ring, it exits with 0 after printing,
    in order, every event after the cursor up to the last one of the log when it
    started; the only events it does not print are ones the ring had
    overwritten, and where that happened it printed a warning. *)
Theorem auditctl_on_kernel_loses_nothing_silently (w : Process) (log : list AuditEvent) (cursor : Z) (out : list String.string) :
  viewer w log -> in_width 64 cursor ->
  exists n, forall fuel, (n <= fuel)%nat ->
  exists log0 log1 w' lines count last,
    AuditCtl.read_records fuel cursor w out
    = Ret (0, w', out ++ lines ++ summary_line count last (Z.of_nat (length log0))) /\
    log `prefix_of` log0 /\ log0 `prefix_of` log1 /\ viewer w' log1 /\
    read_through log1 (Z.of_nat (length log0)) cursor lines count last.
Proof. exact (auditctl_reads_without_silent_loss (SL := process_audit_laws) w log cursor out). Qed.

End AuditCtlKernel.
