(* ===== verification/UserExample.v ===== *)
(** * User programs at concrete states

    On the example kernel, a root process of [ExampleKernel] runs the audit
    viewer, and a process of UID 1000 has its signal refused before each of its
    first two calls; the shell; the viewer on a hostile kernel. *)
From stdpp Require Import strings.
From S2P Require Import Prelude IpcApi Quota Timer AuditLog AuditFacts Facade Address Allocators PageTable UserAccess.
From S2P Require Import UserAccessFacts Pipe MemorySet Signals Task Kernel SyscallFs FdFacts SignalHandling.
From S2P Require Import SyscallProcess SyscallAudit Trap KernelInv CallSpecs AuditCallFacts ExampleKernel Witnesses.
From S2P Require Import AuditCtl AuditCtlFacts UserLib UserAbi UserShell UserShellFacts AuditCtlKernel.
Import Audit PageTable Mem UserAccess Task Kernel SyscallFs SyscallProcess Trap.

Lemma user_abi_matches_kernel_witness :
  dispatch ex_platform 0 ex_root [] (UserSyscall.sys_kill 1 (-1)) = sys_kill ex_root 1 (-1) /\
  dispatch ex_platform 0 ex_root [] (UserSyscall.sys_waitpid (-1) 0x10000) = sys_waitpid ex_root (-1) 0x10000.
Proof.
  destruct (user_abi_matches_kernel ex_platform 0 ex_root [] 0 (-1) 1 0 0 0 0 (-1) 0 (0, 0) (0, 0) (0, 0) 0x10000 0)
    as (_ & _ & _ & _ & _ & _ & _ & _ & Hk & _ & _ & _ & _ & _ & _ & _ & Hw & _); [vm_compute; split; congruence..|].
  exact (conj Hk Hw).
Defined.

(** ** The audit viewer *)

Definition ex_event (ts : Z) : AuditEvent := mkEvent 0 ts AUDIT_OP_SIGNAL_SEND 1 2 1000 1 0 1 0.

(** Another task's refused signal, as an event in the log. *)
Definition ex_turn : Turn :=
  {| before := fun k : Kernel unit => match push_stamped (k_audit k) ex_event with Ret w => set_audit k w | _ => k end;
     during := [] |}.

Lemma ex_turn_quiet : quiet ex_turn.
Proof.
  intros k pid t log Hr Hv. cbn [ex_turn before]. destruct (push_stamped_appends (k_audit k) log ex_event Hv) as (w & ts & E & Hts & Hv').
  rewrite E. split; [|split; [done|]].
  { destruct Hr as [H1 H2 H3]. split; [|done..]. apply kinv_set_audit; [done|]. by eexists. }
  unfold log_append in Hv'. pose proof (rr_bound _ _ (proj1 Hv')) as Hb. pose proof (rr_next _ _ (proj1 Hv')) as Hn.
  destruct (Z.ltb_spec (Z.of_nat (length log) + 1) U64_MAX) as [Hl|Hl].
  - eexists. split; [exact Hv'|]. apply Forall_singleton. unfold event_ok, record_in_range, ex_event, U64_MAX in *.
    cbn. unfold AUDIT_ABI_VERSION, AUDIT_RECORD_V1_SIZE, AUDIT_OP_SIGNAL_SEND, in_width in *. lia.
  - exists []. rewrite app_nil_r. done.
Qed.

Definition ex_viewer : Process := {| p_kernel := ex_root; p_turns := [ex_turn; ex_turn] |}.

Lemma ex_buffer ptr len :
  0x10000 <= ptr -> 0 < len -> ptr + len <= 0x11000 ->
  check_user_range ex_mem ex_token ptr len false = Ret true -> check_user_range ex_mem ex_token ptr len true = Ret true ->
  buffer_ok ex_mem ex_token ptr len.
Proof.
  intros Hp Hl He H1 H2.
  assert (Hr : forall w, check_user_range ex_mem ex_token ptr len w = Ret true -> range_ok ex_mem ex_token ptr len w)
    by (intros w; apply ex_range; unfold in_width; lia).
  split; [lia|by apply Hr|by apply Hr|]. assert (Ep : ptr / 4096 = 16) by lia_mod.
  destruct (range_ok_mapped _ _ _ _ _ ptr (Hr true H2)) as [pte Et]; [lia|].
  rewrite (phys_range_page _ _ _ _ pte Et) by lia_mod. apply NoDup_seqZ.
Qed.

Lemma ex_viewer_ok : viewer 0x10100 0x10f00 ex_viewer [].
Proof.
  split; [|apply ex_audit_view|done|].
  - exists 1, (ex_init Running). split_and!; [apply ex_root_running|reflexivity|apply ex_user_space|..];
      (apply ex_buffer; [unfold RECORDS_BYTES; lia..|vm_compute; reflexivity|vm_compute; reflexivity]).
  - by repeat (apply Forall_cons; split; [apply ex_turn_quiet|]).
Qed.

Lemma auditctl_on_kernel_loses_nothing_silently_witness :
  exists fuel (log0 log1 : list AuditEvent) w' lines count last,
    AuditCtl.read_records (S := process_audit ex_platform 0 0x10100 0x10f00) fuel 0 ex_viewer []
    = Ret (0, w', lines ++ summary_line count last (Z.of_nat (length log0))) /\
    read_through log1 (Z.of_nat (length log0)) 0 lines count last.
Proof.
  destruct (auditctl_on_kernel_loses_nothing_silently ex_platform 0 0x10100 0x10f00 ex_viewer [] 0 []
              ex_viewer_ok) as [n Hn]; [vm_compute; split; congruence|].
  destruct (Hn n (le_n n)) as (log0 & log1 & w' & lines & count & last & E & _ & _ & _ & H).
  exists n, log0, log1, w', lines, count, last. exact (conj E H).
Defined.

Local Open Scope string_scope.

(** What it prints: the first refusal was in the log when it asked for the
    statistics, the second came later. *)
Example viewer_output :
  match AuditCtl.read_records (S := process_audit ex_platform 0 0x10100 0x10f00) 3 0 ex_viewer [] with
  | Ret (code, _, out) => code = 0 /\ out =
      ["seq=1 time_ms=1234 pid=2 uid=1000 op=signal_send(1) object_id=1 owner_uid="; "0"; " requested=1";
       " status=ERROR errno=1(EPERM)" +:+ AuditCtl.nl;
       "auditctl: records=1 cursor=1 through=1" +:+ AuditCtl.nl]
  | _ => False
  end.
Proof. vm_compute. by split. Qed.

(** ** The shell on the example kernel

    The shell as the root process of [ExampleKernel], whose descriptors 3 and 4
    are the ends of a pipe. *)
Module Shell.
Import UserAccess Task Kernel SyscallFs UserShell.

Definition ex_shell : Process := {| p_kernel := ex_root; p_turns := [] |}.
Definition ex_str_at (s : list Z) : slice := (0x10000, Z.of_nat (length s)).
Definition ex_args_at (args : list (list Z)) : slice := (0x10800, Z.of_nat (S (length args))).

(** [cat <|exit], [cat < in >] and [cat < <]. *)
Definition ex_line : list Z := ex_cat ++ SPACE :: [LESS] ++ BAR :: [101; 120; 105; 116].
Definition ex_line_out : list Z := ex_cat ++ SPACE :: [LESS] ++ SPACE :: ex_in ++ SPACE :: [GREATER].
Definition ex_line_twice : list Z := ex_cat ++ SPACE :: [LESS] ++ SPACE :: [LESS].

(** The words of [cat < <] have no redirection without a file. *)
Lemma ex_twice_filed cmd ws : cmd ∈ split BAR ex_line_twice -> spaced ws cmd -> ~ dangling ws.
Proof.
  intros Hin Hs Hd. pose proof (new_dangling _ _ Hs Hd) as E. apply list_elem_of_In in Hin. vm_compute in Hin.
  destruct Hin as [<-|[]]. vm_compute in E. discriminate E.
Qed.

Lemma redirection_without_file_panics_witness :
  (forall line, line ∈ [ex_line; ex_line_out] ->
     run_line (M := process_machine ex_platform 0) (St := process_store) ex_str_at ex_args_at 0x10c00 0x10c10 5 ex_shell line = Panic) /\
  exists pas, parse_all (split BAR ex_line_twice) = Ret pas.
Proof.
  pose proof (redirection_without_file_panics (M := process_machine ex_platform 0) (St := process_store)
    ex_str_at ex_args_at 0x10c00 0x10c10 5 ex_shell) as H. split.
  - intros line Hin. apply H. apply list_elem_of_In in Hin. destruct Hin as [<-|[<-|[]]].
    + exists (ex_cat ++ SPACE :: [LESS])%list, [ex_cat; [LESS]]. split_and!; [vm_compute; left|by apply spaced_of|].
      apply dangling_input, (unfiled_last [LESS] [ex_cat]). intros He. apply list_elem_of_In in He. destruct He as [He|[]]; discriminate He.
    + exists ex_line_out, [ex_cat; [LESS]; ex_in; [GREATER]]. split_and!; [vm_compute; left|by apply spaced_of|].
      apply (dangling_output _ [ex_cat; [GREATER]]).
      * apply (drained_first [LESS] [ex_cat] ex_in [[GREATER]]). intros He. apply list_elem_of_In in He. destruct He as [He|[]]; discriminate He.
      * apply (unfiled_last [GREATER] [ex_cat]). intros He. apply list_elem_of_In in He. destruct He as [He|[]]; discriminate He.
  - apply (H ex_line_twice). intros (cmd & ws & Hin & Hs & Hd). exact (ex_twice_filed cmd ws Hin Hs Hd).
Defined.

Definition ex_prog : ProcessArguments := mkArguments [] [] [terminated ex_cat].

Lemma ex_shell_table : has_table 1 ex_shell (fd_table (ex_init Running)).
Proof. split; [|done]. exists (ex_init Running). split; [apply ex_root_running|done]. Qed.

(** [cat | cat]: the writer and the reader of the one pipe. *)
Lemma pipeline_child_wiring_witness :
  (exists w' T', child_fds (M := process_machine ex_platform 0) ex_str_at ex_shell 0 2 ex_prog (pipe_fds [(3, 4)%nat]) = Ret (inl w') /\
    has_table 1 w' T' /\ fd_file T' 0 = Some FStdin /\ fd_file T' 1 = fd_file (fd_table (ex_init Running)) 4 /\ fd_file T' 3 = None) /\
  exists w' T', child_fds (M := process_machine ex_platform 0) ex_str_at ex_shell 1 2 ex_prog (pipe_fds [(3, 4)%nat]) = Ret (inl w') /\
    has_table 1 w' T' /\ fd_file T' 0 = fd_file (fd_table (ex_init Running)) 3 /\ fd_file T' 1 = Some FStdout /\ fd_file T' 4 = None.
Proof.
  assert (He : forall e, e ∈ ends [(3, 4)%nat] -> (2 <= e)%nat /\ fd_file (fd_table (ex_init Running)) e <> None).
  { intros e He. apply list_elem_of_In in He. cbn in He. destruct He as [<-|[<-|[]]]; (split; [lia|done]). }
  split.
  - destruct (pipeline_child_wiring ex_platform 0 ex_str_at 1 ex_shell (fd_table (ex_init Running)) [(3, 4)%nat] 0 2 ex_prog)
      as (w' & T' & E & Ht & H0 & H1 & Hn); [apply ex_shell_table|done|lia|done..|exact He|cbn; lia|].
    exists w', T'. split_and!; [exact E|exact Ht|exact H0|exact H1|]. by rewrite (Hn 3%nat) by lia.
  - destruct (pipeline_child_wiring ex_platform 0 ex_str_at 1 ex_shell (fd_table (ex_init Running)) [(3, 4)%nat] 1 2 ex_prog)
      as (w' & T' & E & Ht & H0 & H1 & Hn); [apply ex_shell_table|done|lia|done..|exact He|cbn; lia|].
    exists w', T'. split_and!; [exact E|exact Ht|exact H0|exact H1|]. by rewrite (Hn 4%nat) by lia.
Defined.
End Shell.

(** ** The audit viewer on a hostile kernel

    A kernel that reports a log of five events and then delivers event 3 for
    every read.  [auditctl] shows it once, refuses the repeated sequence
    number, and stops. *)
Module HostileKernel.
Import Audit AuditCtl.
Local Open Scope string_scope.

Definition stuck_stats : IpcStatsV1 := mkStats 1 80 0 256 5 1 6 5 5 0 0 0.
Definition stuck_record : AuditRecordV1 := mkRecord 1 80 3 0 0 1000 1000 0 3 70 2 9 16 16 0.

#[local] Instance stuck_kernel : AuditService unit := {|
  svc_stat := fun w _ => (0, stuck_stats, w);
  svc_read := fun w buf _ => (1, <[0%nat := stuck_record]> buf, w);
|}.

Example stuck_read_output :
  main 3 ["auditctl"; "read"] tt []
  = Ret (1, tt,
         ["seq=3 time_ms=70 pid=2 uid=1000 op=pipe_read(3) object_id=9 owner_uid="; "1000"; " requested=16";
          " result=16 status=OK" +:+ nl;
          "auditctl: invalid audit record at batch index 0; cursor=3" +:+ nl]).
Proof. vm_compute. reflexivity. Qed.

Example bad_cursor_is_refused :
  exists out, main 0 ["auditctl"; "read"; "18446744073709551616"] tt [] = Ret (2, tt, out).
Proof. eexists. vm_compute. reflexivity. Qed.

Lemma auditctl_returns_witness :
  exists fuel code out', main fuel ["auditctl"; "read"; "2"] tt [] = Ret (code, tt, out') /\
    (code = 0 \/ code = 1 \/ code = 2).
Proof.
  destruct (auditctl_returns ["auditctl"; "read"; "2"] tt []) as [n Hn].
  destruct (Hn n (le_n n)) as (code & [] & out' & E & Hc & _). exists n, code, out'. exact (conj E Hc).
Defined.
End HostileKernel.
