(* ===== verification/ExecArgs.v ===== *)
(** * Program arguments, from [exec] to [_start]

    [TaskControlBlock::exec] pushes the argument strings and their addresses
    onto the new user stack; [_start] of the user library reads them back.  The
    two sides meet here: what one writes is what the other finds. *)
From S2P Require Import Prelude Utf8 IpcApi Quota Timer AuditLog AuditFacts Facade.
From S2P Require Import Address Allocators PageTable PageTableFacts MemorySet Signals UserAccess UserAccessFacts Pipe Task Kernel.
From S2P Require Import SyscallFs SignalHandling SyscallProcess SyscallAudit Trap KernelInv CallSpecs AuditCallFacts LifecycleInv SignalFacts.
From S2P Require Import UserLib UserAbi AuditCtlKernel.
Import Audit Address Mem PageTable MemorySet Signals UserAccess Task Kernel SyscallFs SyscallProcess.

(** ** Encodings *)

Lemma string_bytes_encode s : Forall (in_width 8) s -> string_bytes s = encode_chars s.
Proof.
  intros Hs. unfold string_bytes, encode_chars. f_equal. apply list_fmap_ext. intros i c Hc.
  pose proof (Forall_lookup_1 _ _ _ _ Hs Hc) as [H0 H1]. change (2 ^ 8) with 256 in H1. unfold encode_char.
  destruct (c <? 0x80); [done|].
  enough (forallb (fun c => bool_decide ([Z.lor 0xc0 (Z.shiftr c 6); Z.lor 0x80 (Z.land c 0x3f)]
                                         = [0xc0 + c / 64; 0x80 + c mod 64])) (seqZ 0 256) = true) as Hall.
  { rewrite forallb_forall in Hall. specialize (Hall c). apply bool_decide_eq_true_1 in Hall; [done|].
    apply list_elem_of_In, elem_of_seqZ. lia. }
  vm_compute. reflexivity.
Qed.

Lemma string_bytes_nul s : 0 ∉ s -> Forall (in_width 8) s -> 0 ∉ string_bytes s.
Proof.
  intros Hn Hs. rewrite string_bytes_encode by done. unfold encode_chars.
  rewrite list_elem_of_In, in_concat. intros (bs & Hbs & H0). apply list_elem_of_In, list_elem_of_fmap in Hbs as (c & -> & Hc).
  pose proof (proj1 (Forall_forall _ _) Hs c Hc) as [Hc0 Hc1]. change (2 ^ 8) with 256 in Hc1. unfold encode_char in H0.
  destruct (Z.ltb_spec c 0x80) as [Hl|Hl]; cbn in H0.
  - destruct H0 as [->|[]]. done.
  - assert (0 <= c / 64) by (apply Z.div_pos; lia). pose proof (Z.mod_pos_bound c 64 ltac:(lia)). lia.
Qed.

(** ** References into the user stack *)

Lemma translate_va_phys m pt a :
  0 <= a -> is_Some (translate m pt (a / 4096)) -> translate_va m pt a = Some (phys_of m pt a).
Proof.
  intros Ha [pte Ht]. unfold translate_va, phys_of. rewrite Ht. unfold translate in Ht.
  rewrite floor_div. destruct (find_pte m pt (a / 4096)) as [slot|]; [|done]. cbn [fmap option_fmap option_map] in *.
  injection Ht as ->. cbn [default from_option]. f_equal. rewrite page_offset_mod.
  assert (Hp : 0 <= pte_ppn pte < 2 ^ 44).
  { unfold pte_ppn, PhysPageNum_from. rewrite !land_low_bits by (unfold PPN_WIDTH_SV39, PA_WIDTH_SV39, PAGE_SIZE_BITS; lia).
    apply Z.mod_pos_bound. vm_compute. reflexivity. }
  change (id pte) with pte. unfold frame_base. rewrite addr_from_page_num_mul by lia. pose proof (Z.mod_pos_bound a 4096 ltac:(lia)).
  rewrite wrap_small by (unfold in_width; lia). apply PhysAddr_from_small. lia.
Qed.

Lemma try_translated_ptr_ok m token a size align w :
  0 < a -> 0 < size -> a mod align = 0 -> a mod 4096 + size <= 4096 -> range_ok m token a size w ->
  try_translated_ptr m token a size align w = Ret (Some (phys_of m (from_token token) a)).
Proof.
  intros Ha Hz Hal Hpage Hok. unfold try_translated_ptr.
  destruct (Z.eqb_spec size 0); [lia|]. destruct (Z.eqb_spec a 0); [lia|]. rewrite Hal. cbn [orb negb Z.eqb].
  pose proof Hok as [|[Hlim Hb]]; [lia|]. unfold checked_add.
  destruct (Z.ltb_spec (a + size) (2 ^ 64)); [|lia].
  rewrite USER_VA_LIMIT_val. destruct (Z.ltb_spec (2 ^ 38) (a + size)); [lia|].
  unfold PAGE_SIZE_BITS. rewrite !Z.shiftr_div_pow2 by lia. change (2 ^ 12) with 4096.
  destruct (Z.eqb_spec (a / 4096) ((a + size - 1) / 4096)) as [_|Hne]; [|exfalso; apply Hne; lia_mod]. cbn [negb].
  destruct (check_user_range_spec m token a size w) as (b & -> & Hb'); [unfold in_width; lia..|].
  cbn [mbind outcome_bind]. rewrite (proj2 Hb' Hok). cbn [negb].
  rewrite VirtAddr_from_small by lia. f_equal. apply translate_va_phys; [lia|]. apply (range_ok_mapped _ _ a size w); [done|lia].
Qed.

(** ** The argument area

    A part [[base, top)] of the user stack, mapped page by page and without
    aliases.  [U m a] is the user byte at [a]. *)
Section Area.
Context (m0 : PhysMem) (token base top : Z).
Hypothesis (Hu0 : user_space m0 token) (Hbase : 0 < base <= top).
Hypothesis (Hwrite : range_ok m0 token base (top - base) true) (Hread : range_ok m0 token base (top - base) false).
Hypothesis (Hdistinct : NoDup (phys_range m0 token base (top - base))).

Definition U (m : PhysMem) (a : Z) : Z := load m (phys_of m0 (from_token token) a).

(** The same address space, after stores into it. *)
Definition same_space (m : PhysMem) : Prop :=
  user_space m token /\ forall vpn, translate m (from_token token) vpn = translate m0 (from_token token) vpn.

Definition put (m : PhysMem) (a : Z) (bs : list Z) : PhysMem :=
  store_list m (phys_range m0 token a (Z.of_nat (length bs))) bs.

Lemma same_space_refl : same_space m0.
Proof using Hu0. by split. Qed.


Lemma same_phys_of m a : same_space m -> phys_of m (from_token token) a = phys_of m0 (from_token token) a.
Proof. intros [_ Ht]. unfold phys_of. by rewrite Ht. Qed.

Lemma same_phys_range m a n : same_space m -> phys_range m token a n = phys_range m0 token a n.
Proof. intros Hs. unfold phys_range. apply list_fmap_ext. intros. by apply same_phys_of. Qed.

Lemma same_range_ok m a n w : same_space m -> range_ok m token a n w <-> range_ok m0 token a n w.
Proof. intros [_ Ht]. unfold range_ok, user_byte_ok. by setoid_rewrite Ht. Qed.

Lemma area_ok m a n w : same_space m -> base <= a -> 0 <= n -> a + n <= top -> range_ok m token a n w.
Proof using Hwrite Hread.
  intros Hs Ha Hn Ht. rewrite same_range_ok by done. destruct (decide (n = 0)) as [->|]; [by left|]. right.
  assert (Hok : range_ok m0 token base (top - base) w) by (by destruct w).
  destruct Hok as [|[Hl Ho]]; [lia|]. split; [lia|]. intros b Hb. apply Ho. lia.
Qed.

Lemma area_inj a b :
  base <= a < top -> base <= b < top ->
  phys_of m0 (from_token token) a = phys_of m0 (from_token token) b -> a = b.
Proof using Hdistinct.
  intros Ha Hb E.
  assert (Hat : forall x, base <= x < top -> (phys_of m0 (from_token token) <$> seqZ base (top - base)) !! Z.to_nat (x - base)
                 = Some (phys_of m0 (from_token token) x)).
  { intros x Hx. rewrite list_lookup_fmap, lookup_seqZ_lt by lia. cbn. do 2 f_equal. lia. }
  pose proof (Hat a Ha) as H1. pose proof (Hat b Hb) as H2. rewrite E in H1.
  pose proof (NoDup_lookup _ _ _ _ Hdistinct H1 H2). lia.
Qed.

Lemma put_same m a bs :
  same_space m -> base <= a -> a + Z.of_nat (length bs) <= top -> same_space (put m a bs).
Proof using Hwrite Hread.
  intros Hs Ha Ht. destruct (decide (bs = [])) as [->|Hne].
  { done. }
  assert (length bs <> 0%nat) by (by intros ?%length_zero_iff_nil).
  pose proof Hs as [Hus Htr]. unfold put. rewrite <- (same_phys_range m) by done.
  assert (Hok : range_ok m token a (Z.of_nat (length bs)) true) by (apply area_ok; [done|lia..]).
  split; [by apply isolated_user_space; [done..|lia]|]. intros vpn. rewrite isolated_translate by (done || lia). apply Htr.
Qed.

Lemma put_in m a bs :
  base <= a -> a + Z.of_nat (length bs) <= top -> U (put m a bs) <$> seqZ a (Z.of_nat (length bs)) = bs.
Proof using Hdistinct.
  intros Ha Ht. unfold U, put.
  transitivity (load (store_list m (phys_range m0 token a (Z.of_nat (length bs))) bs)
                  <$> phys_range m0 token a (Z.of_nat (length bs))).
  { unfold phys_range. by rewrite <- list_fmap_compose. }
  apply load_store_list; [|unfold phys_range; rewrite length_fmap, length_seqZ; lia].
  unfold phys_range. apply NoDup_fmap_2_strong; [|apply NoDup_seqZ].
  intros x y Hx%elem_of_seqZ Hy%elem_of_seqZ. apply area_inj; lia.
Qed.

Lemma put_out m a bs x :
  base <= a -> a + Z.of_nat (length bs) <= top -> base <= x < top -> ~ (a <= x < a + Z.of_nat (length bs)) ->
  U (put m a bs) x = U m x.
Proof using Hdistinct.
  intros Ha Ht Hx Hout. unfold U, put. apply store_list_other. unfold phys_range.
  intros (y & E & Hy%elem_of_seqZ)%list_elem_of_fmap. apply Hout. apply area_inj in E; [subst y; lia|lia|lia].
Qed.

Lemma put_far m a bs x :
  base <= a -> a + Z.of_nat (length bs) <= top -> x ∉ phys_range m0 token base (top - base) ->
  load (put m a bs) x = load m x.
Proof.
  intros Ha Ht Hx. unfold put. apply store_list_other. intros Hin. apply Hx. unfold phys_range in *.
  apply list_elem_of_fmap in Hin as (y & -> & Hy%elem_of_seqZ). apply list_elem_of_fmap. exists y.
  split; [done|]. apply elem_of_seqZ. lia.
Qed.

(** ** What [exec] writes *)

Abbreviation phys := (phys_of m0 (from_token token)).

Lemma store_u64_put m a v :
  base <= a -> a + 8 <= top -> a mod 8 = 0 -> store_u64 m (phys a) v = put m a (le_bytes 8 v).
Proof using Hwrite Hbase.
  intros Ha Ht Hal. unfold store_u64, put. rewrite store_bytes_list, length_le_bytes by lia. change (Z.of_nat (Z.to_nat 8)) with 8.
  f_equal. destruct (range_ok_mapped _ _ _ _ _ a Hwrite) as [pte Hp]; [lia|].
  unfold phys_range. rewrite <- (phys_of_page m0 (from_token token) pte a 8) by (done || lia_mod).
  unfold phys_of. by rewrite Hp.
Qed.

Lemma put_cons m a b bs : put m a (b :: bs) = put (put m a [b]) (a + 1) bs.
Proof.
  unfold put. cbn [length]. replace (Z.of_nat (S (length bs))) with (1 + Z.of_nat (length bs)) by lia.
  rewrite phys_range_app by lia. change (b :: bs) with ([b] ++ bs). by rewrite store_list_app.
Qed.

Lemma push_string_put m p bytes :
  same_space m -> base <= p -> p + Z.of_nat (length bytes) <= top ->
  push_string m token p bytes = Ret (put m p bytes).
Proof using Hbase Hwrite Hread.
  revert m p. induction bytes as [|b bs IH]; intros m p Hs Hp Ht; [done|]. cbn [push_string length] in *.
  assert (Htop : top <= 2 ^ 38) by (destruct Hwrite as [|[]]; lia).
  rewrite try_translated_ptr_ok by first [lia|lia_mod|apply area_ok; (done || lia)]. cbn [mbind outcome_bind unwrap].
  rewrite (same_phys_of m p Hs), wrap_small by (unfold in_width; lia).
  change (store m (phys p) b) with (put m p [b]). rewrite IH; [by rewrite (put_cons m p b bs)|..]; [|lia..].
  apply put_same; [done|lia|cbn; lia].
Qed.

Fixpoint slot_addrs (a : Z) (n : nat) : list Z :=
  match n with O => [] | S n' => phys a :: slot_addrs (a + 8) n' end.

Lemma slot_addrs_snoc a n : slot_addrs a (S n) = slot_addrs a n ++ [phys (a + 8 * Z.of_nat n)].
Proof.
  revert a. induction n as [|n IH]; intros a; cbn [slot_addrs app]; [do 2 f_equal; lia|]. f_equal.
  rewrite <- (Z.add_0_r a) at 1. cbn [slot_addrs] in IH. rewrite Z.add_0_r, IH. do 3 f_equal. lia.
Qed.

Lemma length_slot_addrs a n : length (slot_addrs a n) = n.
Proof. revert a. induction n as [|n IH]; intros a; cbn; [done|]. by rewrite IH. Qed.

Lemma argv_slots_ok m a n :
  same_space m -> base <= a -> a + 8 * Z.of_nat n <= top -> a mod 8 = 0 ->
  argv_slots m token a n = Ret (slot_addrs a n).
Proof using Hbase Hwrite Hread.
  revert a. induction n as [|n IH]; intros a Hs Ha Ht Hal; [done|]. cbn [argv_slots slot_addrs].
  assert (Htop : top <= 2 ^ 38) by (destruct Hwrite as [|[]]; lia).
  rewrite try_translated_ptr_ok by first [lia|lia_mod|apply area_ok; (done || lia)]. cbn [mbind outcome_bind unwrap].
  rewrite wrap_small by (unfold in_width; lia). rewrite IH by (done || lia || lia_mod). cbn [mbind outcome_bind].
  by rewrite (same_phys_of m a Hs).
Qed.

Definition args_size (args : list (list Z)) : Z :=
  foldr (fun arg n => Z.of_nat (length (string_bytes arg)) + 1 + n) 0 args.

Lemma args_size_nonneg args : 0 <= args_size args.
Proof. induction args as [|arg args IH]; cbn [args_size foldr]; [lia|]. unfold args_size in IH. lia. Qed.

(** The argument vector at [argv]: an address per string, and the strings with
    their terminators. *)
Fixpoint args_at (m : PhysMem) (argv : Z) (args : list (list Z)) : Prop :=
  match args with
  | [] => True
  | arg :: rest => (exists p, base <= p /\ p + Z.of_nat (length (string_bytes arg)) + 1 <= top /\
      (U m <$> seqZ argv 8) = le_bytes 8 p /\
      (U m <$> seqZ p (Z.of_nat (length (string_bytes arg)) + 1)) = string_bytes arg ++ [0]) /\
      args_at m (argv + 8) rest
  end.

Lemma U_range_ext m m' a n :
  (forall x, a <= x < a + n -> U m' x = U m x) ->
  (U m' <$> seqZ a n) = (U m <$> seqZ a n).
Proof. intros H. apply list_fmap_ext. intros i x Hx. apply lookup_seqZ in Hx as [-> Hi]. apply H. lia. Qed.

Lemma args_at_ext m m' argv args :
  (forall x, base <= x < top -> U m' x = U m x) -> base <= argv -> argv + 8 * Z.of_nat (length args) <= top ->
  args_at m argv args -> args_at m' argv args.
Proof.
  intros Hx. revert argv. induction args as [|arg args IH]; intros argv Ha Ht Hat; [done|]. cbn [length] in Ht.
  destruct Hat as [(p & Hp & Hpt & Hw & Hs) Hat]. split; [|apply IH; (done || lia)].
  exists p. split_and!; [done|done| |]; [rewrite <- Hw|rewrite <- Hs]; apply U_range_ext; intros x Hr; apply Hx; lia.
Qed.

Lemma push_args_ok args : forall m sp argv extra,
  same_space m -> argv mod 8 = 0 -> base <= sp - args_size args -> sp <= argv ->
  argv + 8 * Z.of_nat (length args) <= top ->
  exists m', push_args m token sp args (slot_addrs argv (length args) ++ extra) = Ret (m', sp - args_size args) /\
    same_space m' /\ args_at m' argv args /\
    (forall x, base <= x < top -> ~ (sp - args_size args <= x < sp) -> ~ (argv <= x < argv + 8 * Z.of_nat (length args)) ->
       U m' x = U m x) /\
    (forall x, x ∉ phys_range m0 token base (top - base) -> load m' x = load m x).
Proof using Hbase Hwrite Hread Hdistinct.
  induction args as [|arg args IH]; intros m sp argv extra Hs Hal Hsz Hsp Ht.
  { exists m. cbn in *. split_and!; [do 2 f_equal; lia|done..]. }
  pose proof (args_size_nonneg args) as Hnn.
  cbn [length args_size foldr slot_addrs push_args app] in *. fold (args_size args) in *.
  set (bytes := string_bytes arg) in *. set (n := Z.of_nat (length bytes)) in *.
  assert (Htop : top <= 2 ^ 38) by (destruct Hwrite as [|[]]; lia).
  rewrite wrap_small by (unfold in_width; lia). rewrite store_u64_put by lia.
  set (sp1 := sp - (n + 1)) in *. set (m1 := put m argv (le_bytes 8 sp1)).
  assert (H8 : Z.of_nat (length (le_bytes 8 sp1)) = 8) by (rewrite length_le_bytes by lia; done).
  assert (Hs1 : same_space m1) by (apply put_same; [done|lia|lia]).
  assert (Hn : Z.of_nat (length (bytes ++ [0])) = n + 1) by (rewrite length_app; cbn; lia).
  rewrite push_string_put by (done || lia). cbn [mbind outcome_bind].
  set (m2 := put m1 sp1 (bytes ++ [0])).
  assert (Hs2 : same_space m2) by (apply put_same; [done|lia|lia]).
  destruct (IH m2 sp1 (argv + 8) extra Hs2) as (m' & -> & Hs' & Hat & Hout & Hfar); [lia_mod|lia..|].
  exists m'. split; [do 2 f_equal; lia|]. split; [done|]. split; [|split].
  - cbn [args_at]. fold bytes. fold n. split; [|done]. exists sp1. split_and!; [lia|lia| |].
    + pose proof (put_in m argv (le_bytes 8 sp1)) as Hin. rewrite H8 in Hin. rewrite <- Hin by lia.
      apply U_range_ext. intros x Hx. rewrite Hout by lia. apply put_out; lia.
    + pose proof (put_in m1 sp1 (bytes ++ [0])) as Hin. rewrite Hn in Hin. rewrite <- Hin by lia.
      apply U_range_ext. intros x Hx. apply Hout; lia.
  - intros x Hx H1 H2. rewrite Hout by lia. unfold m2. rewrite put_out by lia. apply put_out; lia.
  - intros x Hx. rewrite Hfar by done. unfold m2. rewrite put_far by (done || lia). apply put_far; (done || lia).
Qed.

(** ** What [_start] reads *)

Section Start.
Context {F : Type} {FS : FileSystem F}.
Variable P : Platform.
Variable read_fuel : nat.
Context (w : Process (F := F)) (pid : Z) (t : TaskControlBlockInner).
Hypothesis (Hrun : running (p_kernel w) pid t) (Htok : get_user_token t = token) (Hspace : same_space (k_mem (p_kernel w))).
#[local] Existing Instance process_machine.

Lemma load_area a (n : nat) :
  base <= a -> a + Z.of_nat n <= top ->
  UserLib.load_word_bytes (M := process_machine P read_fuel) w a n = Ret (U (k_mem (p_kernel w)) <$> seqZ a (Z.of_nat n)).
Proof using All.
  intros Ha Ht. rewrite (load_word_bytes_ok P read_fuel w pid t a n Hrun) by first [lia|rewrite Htok; by apply area_ok; (done || lia)].
  rewrite Htok, same_phys_range by done. unfold U, phys_range. by rewrite <- list_fmap_compose.
Qed.

Lemma load_u8_area a : base <= a < top -> process_load w a = Ret (U (k_mem (p_kernel w)) a).
Proof using All.
  intros Ha. pose proof (load_area a 1) as H. cbn [UserLib.load_word_bytes load_u8 process_machine] in H.
  rewrite seqZ_cons in H by lia. specialize (H ltac:(lia) ltac:(lia)).
  destruct (process_load w a) as [b| |]; [|discriminate..]. cbn in H. by injection H as ->.
Qed.

Lemma find_nul_area bytes p fuel :
  0 ∉ bytes -> base <= p -> p + Z.of_nat (length bytes) + 1 <= top -> (length bytes < fuel)%nat ->
  (U (k_mem (p_kernel w)) <$> seqZ p (Z.of_nat (length bytes) + 1)) = bytes ++ [0] ->
  UserLib.find_nul (M := process_machine P read_fuel) fuel w p = Ret bytes.
Proof using All.
  revert p fuel. induction bytes as [|b bytes IH]; intros p fuel Hn Hp Ht Hf Hb; (destruct fuel as [|fuel]; [cbn in Hf; lia|]);
    cbn [length UserLib.find_nul load_u8 process_machine] in *; rewrite load_u8_area by lia; cbn [mbind outcome_bind];
    rewrite seqZ_cons, fmap_cons in Hb by lia.
  - change ([] ++ [0]) with [0] in Hb. pose proof (f_equal (hd 1) Hb) as Hb0. cbn [hd] in Hb0. by rewrite Hb0.
  - change ((b :: bytes) ++ [0]) with (b :: (bytes ++ [0])) in Hb. injection Hb as Hb Hrest. rewrite Hb.
    apply not_elem_of_cons in Hn as [Hne Hn]. destruct (Z.eqb_spec b 0); [congruence|].
    assert (Htop : top <= 2 ^ 38) by (destruct Hwrite as [|[]]; lia).
    rewrite wrap_small by (unfold in_width; lia). change (p + 1) with (Z.succ p). rewrite (IH (Z.succ p) fuel); [done|done|lia..|].
    rewrite <- Hrest. do 2 f_equal. lia.
Qed.

(** A string [exec] can have collected: NUL-free, from bytes. *)
Definition arg_ok (arg : list Z) : Prop := Forall (in_width 8) arg /\ 0 ∉ arg.

Lemma start_args_area args argv fuel :
  args_at (k_mem (p_kernel w)) argv args -> Forall arg_ok args -> base <= argv ->
  argv + 8 * Z.of_nat (length args) <= top -> args_size args < Z.of_nat fuel ->
  UserLib.start_args (M := process_machine P read_fuel) fuel w argv (length args) = Ret args.
Proof using All.
  revert argv. induction args as [|arg args IH]; intros argv Hat Hok Ha Ht Hf; [done|].
  apply Forall_cons in Hok as [[H8 Hnul] Hok]. destruct Hat as [(p & Hp & Hpt & Hword & Hstr) Hat].
  pose proof (args_size_nonneg args) as Hnn. cbn [args_size foldr length UserLib.start_args] in *. fold (args_size args) in *.
  assert (Htop : top <= 2 ^ 38) by (destruct Hwrite as [|[]]; lia).
  unfold UserLib.load_usize. rewrite load_area by lia. change (Z.of_nat 8) with 8. rewrite Hword. cbn [mbind outcome_bind].
  rewrite le_bytes_value by (unfold in_width; lia).
  rewrite (find_nul_area (string_bytes arg)) by (done || lia || by apply string_bytes_nul). cbn [mbind outcome_bind].
  rewrite string_bytes_encode by done. rewrite from_utf8_encode by (done || lia). cbn [mbind outcome_bind unwrap].
  rewrite wrap_small by (unfold in_width; lia). rewrite IH by (done || lia). done.
Qed.

End Start.
End Area.

(** ** [exec] *)

Lemma drop_frames_mem fs : forall w w1 m,
  drop_frames w fs = Ret w1 -> drop_frames {| fw_mem := m; fw_alloc := fw_alloc w |} fs = Ret {| fw_mem := m; fw_alloc := fw_alloc w1 |}.
Proof.
  induction fs as [|f fs IH]; intros w w1 m H; cbn [drop_frames] in *; [by simplify_eq|].
  apply bind_Ret_inv in H as (w2 & H2 & H). unfold frame_dealloc in *. cbn [fw_alloc].
  apply bind_Ret_inv in H2 as (a & Ha & [= <-]). rewrite Ha. cbn [mbind outcome_bind].
  exact (IH {| fw_mem := fw_mem w; fw_alloc := a |} w1 m H).
Qed.

Lemma drop_memory_set_mem ms w w1 m :
  drop_memory_set w ms = Ret w1 ->
  drop_memory_set {| fw_mem := m; fw_alloc := fw_alloc w |} ms = Ret {| fw_mem := m; fw_alloc := fw_alloc w1 |}.
Proof.
  unfold drop_memory_set. intros H. apply bind_Ret_inv in H as (w2 & H2 & H).
  rewrite (drop_frames_mem _ _ _ m H2). cbn [mbind outcome_bind]. by apply drop_frames_mem.
Qed.

(** The new address space, as [exec] relies on it: page tables in shape and out
    of reach of user stores, the argument area of the stack mapped without
    aliases, and the frame of the trap context apart from both. *)
Record exec_space (m : PhysMem) (token base sp tcx : Z) : Prop := {
  xs_tables : exists frames lab, pt_wf m (root_ppn (from_token token)) frames lab /\ lab !! tcx = None /\
    forall a f, user_byte_ok m (from_token token) true a -> is_Some (lab !! f) ->
      ~ in_frame f (phys_of m (from_token token) a);
  xs_bounds : 0 < base <= sp;
  xs_align : sp mod 8 = 0;
  xs_write : range_ok m token base (sp - base) true;
  xs_read : range_ok m token base (sp - base) false;
  xs_distinct : NoDup (phys_range m token base (sp - base));
  xs_frame : ppn_ok tcx;
  xs_apart : forall a, base <= a < sp -> ~ in_frame tcx (phys_of m (from_token token) a);
}.

Lemma exec_user_space m token base sp tcx : exec_space m token base sp tcx -> user_space m token.
Proof. intros [(frames & lab & H1 & _ & H2) _ _ _ _ _ _ _]. split. by exists frames, lab. Qed.

Lemma length_trap_cx_words cx : length (cx_x cx) = 32%nat -> length (trap_cx_words cx) = 37%nat.
Proof. intros H. unfold trap_cx_words. rewrite length_app, H. done. Qed.

(** Storing the trap context disturbs neither the tables nor the arguments. *)
Lemma exec_trap_store m token base sp tcx m1 cx :
  exec_space m token base sp tcx -> length (cx_x cx) = 32%nat ->
  (forall x, x ∉ phys_range m token base (sp - base) -> load m1 x = load m x) ->
  let m2 := store_trap_cx m1 tcx cx in
  same_space m token m2 /\ forall a, base <= a < sp -> U m token m2 a = U m token m1 a.
Proof.
  intros Hx Hcx Hfar m2. pose proof Hx as [(frames & lab & Hwf & Hlab & Hiso) Hb _ Hw _ _ Hf Hap].
  assert (Hout : forall x, ~ in_frame tcx x -> load m2 x = load m1 x).
  { intros x Hn. apply store_words_outside. rewrite length_trap_cx_words by done. rewrite frame_base_mul by done.
    unfold in_frame in Hn. lia. }
  assert (Htab : forall f x, is_Some (lab !! f) -> in_frame f x -> load m2 x = load m x).
  { intros f x Hl Hin. rewrite Hout.
    - apply Hfar. unfold phys_range. intros (a & -> & Ha%elem_of_seqZ)%list_elem_of_fmap.
      destruct Hw as [|[_ Hw]]; [lia|]. apply (Hiso a f); [apply Hw; lia|done|done].
    - intros Ht. assert (f = tcx) as -> by (unfold in_frame in *; lia). rewrite Hlab in Hl. by destruct Hl. }
  assert (Htr : forall vpn, translate m2 (from_token token) vpn = translate m (from_token token) vpn)
    by (intros vpn; by apply (translate_ext m m2 _ frames lab)).
  split; [split; [|done]|].
  - split. exists frames, lab. split; [by apply (pt_wf_ext m)|]. intros a f Ha Hl.
    assert (Hph : phys_of m2 (from_token token) a = phys_of m (from_token token) a) by (unfold phys_of; by rewrite Htr).
    rewrite Hph. apply Hiso; [|done]. unfold user_byte_ok in *. by rewrite Htr in Ha.
  - intros a Ha. unfold U. apply Hout. by apply Hap.
Qed.

(** The stack writes of [exec], as one step. *)
Lemma exec_stack_written m0 token base sp tcx (args : list (list Z)) :
  let argc := Z.of_nat (length args) in
  let argv := sp - (argc + 1) * 8 in
  base = argv - args_size args -> exec_space m0 token base sp tcx ->
  exists slots last m2,
    argv_slots m0 token argv (S (length args)) = Ret slots /\ index slots argc = Ret last /\
    push_args (store_u64 m0 last 0) token argv args slots = Ret (m2, base) /\
    args_at m0 token base sp m2 argv args /\
    forall x, x ∉ phys_range m0 token base (sp - base) -> load m2 x = load m0 x.
Proof.
  intros argc argv Ebase Hx. pose proof Hx as [_ [Hb0 Hb1] Hal Hw Hr Hnd _ _]. pose proof (exec_user_space _ _ _ _ _ Hx) as Hu.
  pose proof (args_size_nonneg args) as Hnn.
  set (n := length args) in *. set (m1 := put m0 token m0 (argv + 8 * argc) (le_bytes 8 0)).
  assert (H8 : Z.of_nat (length (le_bytes 8 0)) = 8) by (by rewrite length_le_bytes by lia).
  assert (Hs1 : same_space m0 token m1)
    by (apply (put_same m0 token base sp); [done..|by apply same_space_refl|lia|lia]).
  set (last := phys_of m0 (from_token token) (argv + 8 * argc)).
  destruct (push_args_ok m0 token base sp) with (args := args) (m := m1) (sp := argv) (argv := argv) (extra := [last])
    as (m2 & Hpush & _ & Hat & _ & Hfar); [first [done|lia|lia_mod]..|].
  exists (slot_addrs m0 token argv (S n)), last, m2. split_and!.
  - apply (argv_slots_ok m0 token base sp); first [done|lia|lia_mod|by apply same_space_refl].
  - rewrite slot_addrs_snoc. fold argc last. apply index_Ret. unfold argc.
    rewrite Nat2Z.id, lookup_app_r, length_slot_addrs, Nat.sub_diag by (by rewrite length_slot_addrs). done.
  - unfold last. rewrite (store_u64_put m0 token base sp) by first [done|lia|lia_mod]. fold m1 last.
    rewrite slot_addrs_snoc. fold argc last n in Hpush |- *. by rewrite Hpush, Ebase.
  - done.
  - intros x Hx'. rewrite Hfar by done. apply (put_far m0 token base sp); [lia..|done].
Qed.

(** A context made of machine words. *)
Lemma app_init_wf status entry sp ksatp ksp handler :
  Forall (in_width 64) [status; entry; sp; ksatp; ksp; handler] ->
  trap_cx_wf (app_init_context status entry sp ksatp ksp handler).
Proof.
  rewrite !Forall_cons. intros (Hst & Hen & Hsp & Hks & Hkp & Hh & _). split; [done|]. unfold trap_cx_words, app_init_context, set_sp, set_x.
  cbn [cx_x sstatus sepc kernel_satp kernel_sp trap_handler]. apply Forall_app. split.
  - apply Forall_insert; [|done]. apply Forall_replicate. unfold in_width. lia.
  - rewrite !Forall_cons. split_and!; try done. apply land_in_width; [done|]. by vm_compute.
Qed.

Section Exec.
Context {F : Type} {FS : FileSystem F}.
Variable P : Platform.
Variable read_fuel : nat.
Implicit Type k : Kernel F.

(** The call, once the new space is built: what it leaves in the registers, on
    the stack and in the frame allocator, and what it does not touch. *)
Lemma exec_hand_over k pid t elf (args : list (list Z)) ms sp entry w tcx w1 :
  let argc := Z.of_nat (length args) in
  let argv := sp - (argc + 1) * 8 in
  let base := argv - args_size args in
  running k pid t -> Forall arg_ok args ->
  from_elf (linker P) (elf_reader P) (k_fw k) elf = Ret (ms, sp, entry, w) ->
  trap_cx_frame (fw_mem w) ms = Ret tcx ->
  exec_space (fw_mem w) (ms_token ms) base sp tcx ->
  drop_memory_set w (memory_set t) = Ret w1 ->
  Forall (in_width 64) [sstatus_csr P; entry; ms_token (KERNEL_SPACE k); kernel_stack_top pid; trap_handler_addr (linker P)] ->
  exists k' t', tcb_exec P k pid elf args = Ret k' /\ running k' pid t' /\
    memory_set t' = ms /\ trap_cx_ppn t' = tcx /\
    (let cx := load_trap_cx (k_mem k') tcx in
     sepc cx = entry /\ get_x cx 2 = base - base mod 8 /\ get_x cx 10 = argc /\ get_x cx 11 = argv) /\
    fw_alloc (k_fw k') = fw_alloc w1 /\
    (forall x, x ∉ phys_range (fw_mem w) (ms_token ms) base (sp - base) -> ~ in_frame tcx x -> load (k_mem k') x = load (fw_mem w) x) /\
    forall ts fuel, args_size args < Z.of_nat fuel ->
      UserLib.start_args (M := process_machine P read_fuel) fuel {| p_kernel := k'; p_turns := ts |} argv (length args)
      = Ret args.
Proof.
  intros argc argv base Hrun Hargs Helf Htcx Hx Hdrop Hwords.
  pose proof Hx as [_ [Hb0 Hb1] Hal Hw Hr Hnd Hf _].
  set (m0 := fw_mem w) in *. set (token := ms_token ms) in *. pose proof (args_size_nonneg args) as Hnn.
  assert (Htop : sp <= 2 ^ 38) by (destruct Hw as [|[]]; lia).
  destruct (exec_stack_written m0 token base sp tcx args eq_refl Hx) as (slots & last & m2 & Hslots & Hlast & Hpush & Hat & Hfar).
  fold argc argv in Hslots, Hlast, Hpush, Hat.
  set (cx0 := app_init_context (sstatus_csr P) entry (base - base mod 8) (ms_token (KERNEL_SPACE k)) (kernel_stack_top pid)
               (trap_handler_addr (linker P))).
  set (cx := set_x (set_x cx0 10 argc) 11 argv).
  set (t' := set_trap_cx_ppn (set_memory_set t ms) tcx).
  set (k1 := put_task (set_fw k {| fw_mem := m2; fw_alloc := fw_alloc w1 |}) pid t').
  set (k' := set_mem k1 (store_trap_cx m2 tcx cx)).
  assert (E : tcb_exec P k pid elf args = Ret k').
  { unfold tcb_exec. rewrite Helf. cbn [mbind outcome_bind]. fold m0. rewrite Htcx. cbn [mbind outcome_bind].
    fold token argc. rewrite wrap_small by (unfold in_width; lia). fold argv. rewrite Hslots. cbn [mbind outcome_bind].
    rewrite Hlast. cbn [mbind outcome_bind]. rewrite Hpush. cbn [mbind outcome_bind].
    rewrite (running_task_inner _ _ _ Hrun). cbn [mbind outcome_bind].
    rewrite (drop_memory_set_mem _ _ _ m2 Hdrop). done. }
  assert (Hrun' : running k' pid t').
  { split; [exact (kinv_tcb_exec P k pid elf args k' (run_inv _ _ _ Hrun) E)| |].
    - exact (run_current _ _ _ Hrun).
    - change (<[pid := t']> (k_tasks k) !! pid = Some t'). by rewrite lookup_insert_eq. }
  exists k', t'. split; [exact E|]. split; [exact Hrun'|]. split; [done|]. split; [done|].
  destruct (exec_trap_store m0 token base sp tcx m2 cx Hx) as [Hs' HU]; [done|done|].
  split; [|split; [done|split]].
  - change (k_mem k') with (store_trap_cx m2 tcx cx). cbn zeta. rewrite load_store_trap_cx; [done|].
    apply trap_cx_wf_set_x; [apply trap_cx_wf_set_x; [apply app_init_wf|]|].
    + assert (Hal8 : in_width 64 (base - base mod 8)).
      { pose proof (Z.mod_pos_bound base 8 ltac:(lia)). pose proof (Z.mod_le base 8 ltac:(lia) ltac:(lia)). unfold in_width. lia. }
      rewrite !Forall_cons in Hwords. destruct Hwords as (Hw1 & Hw2 & Hw3 & Hw4 & Hw5 & _).
      by repeat (apply Forall_cons; split).
    + unfold in_width. lia.
    + unfold in_width. lia.
  - intros x Hx1 Hx2. change (k_mem k') with (store_trap_cx m2 tcx cx). rewrite <- (Hfar x Hx1).
    apply store_words_outside. rewrite length_trap_cx_words, frame_base_mul by done. unfold in_frame in Hx2. lia.
  - intros ts fuel Hfuel.
    assert (Hat' : args_at m0 token base sp (store_trap_cx m2 tcx cx) argv args)
      by (apply (args_at_ext m0 token base sp m2); [done|lia|lia|done]).
    assert (Hu : user_space m0 token) by (by eapply exec_user_space).
    apply (start_args_area m0 token base sp) with (pid := pid) (t := t'); first [done|lia].
Qed.
End Exec.
