(* ===== verification/ExecSpec.v ===== *)
(** * [exec], from the image to [_start]

    The address space that [from_elf] builds meets what [exec] relies on, so
    the whole call is accounted for: it succeeds, it replaces the program's
    memory, gives the old frames back and hands the arguments over. *)
From S2P Require Import Prelude Utf8 IpcApi Quota Timer AuditLog AuditFacts Facade.
From S2P Require Import Address Allocators PageTable PageTableFacts MemorySet MemorySetInv MemorySetSpec MemorySetFork.
From S2P Require Import Signals UserAccess UserAccessFacts Pipe Task Kernel.
From S2P Require Import SyscallFs SignalHandling SyscallProcess SyscallAudit Trap KernelInv CallSpecs AuditCallFacts LifecycleInv SignalFacts.
From S2P Require Import UserLib UserAbi AuditCtlKernel ExecArgs.
Import Audit Address Mem PageTable MemorySet Signals UserAccess Task Kernel SyscallFs SyscallProcess.

(** ** The frame of the trap context *)

Lemma trap_frame lo L w ms lab d phs :
  space_at lo (user_base L) w ms lab (elf_layout d phs) ->
  exists tcx, trap_cx_frame (fw_mem w) ms = Ret tcx /\ (TRAP_CONTEXT_VPN, tcx) ∈ space_pairs (areas ms) /\ ppn_ok tcx /\ lab !! tcx = None.
Proof.
  intros Hsp. pose proof Hsp as [Hok Hlay _].
  destruct (laid_out_area _ _ _ trap_region Hlay) as (fs & Hin & Hn & _); [apply elem_of_app; right; right; by left|].
  destruct fs as [|tcx [|? ?]]; [done| |done].
  destruct (area_translate lo (user_base L) w ms lab (rg_l trap_region) (rg_r trap_region) (rg_perm trap_region) [tcx] 0 tcx Hok Hin Hn eq_refl)
    as (Ht & Hp & _).
  exists tcx. assert (Hpair : (TRAP_CONTEXT_VPN, tcx) ∈ space_pairs (areas ms)).
  { unfold space_pairs. apply list_elem_of_In, in_concat. exists (data_frames (region_area trap_region [tcx])).
    split; apply list_elem_of_In; [by apply list_elem_of_fmap_2|by left]. }
  assert (Hf : tcx ∈ space_frames (areas ms)).
  { rewrite <- space_pairs_frames. apply list_elem_of_fmap. by exists (TRAP_CONTEXT_VPN, tcx). }
  destruct (frames_disjoint _ _ _ _ _ _ tcx (so_frames _ _ _ _ _ Hok) Hf) as (_ & Hlab & Hfo). split_and!; [|done..].
  unfold trap_cx_frame. assert (Ev : page_num_from_addr (VirtAddr_from TRAP_CONTEXT) = Ret TRAP_CONTEXT_VPN) by (by vm_compute).
  rewrite Ev. cbn [mbind outcome_bind]. unfold ms_translate. change (rg_l trap_region + Z.of_nat 0) with TRAP_CONTEXT_VPN in Ht.
  rewrite Ht. cbn [unwrap mbind outcome_bind]. by rewrite Hp.
Qed.

(** ** The stack *)

Lemma range_ok_root m pt ptr len write :
  ppn_ok (root_ppn pt) -> ptr + len <= 2 ^ 38 -> (forall a, ptr <= a < ptr + len -> user_byte_ok m pt write a) ->
  range_ok m (token pt) ptr len write.
Proof.
  intros Hr Hl H. right. split; [done|]. intros a Ha. rewrite (user_byte_ok_root m _ pt) by (by apply from_token_root). by apply H.
Qed.

Lemma exec_space_of_elf lo L w ms lab d elf base tcx :
  let sp := (elf_end elf + 3) * 4096 in
  space_at lo (user_base L) w ms lab (elf_layout d (load_phs (elf_program_headers elf))) -> trampoline_ok L ->
  0 <= elf_end elf -> elf_end elf + 3 <= 2 ^ 26 -> sp - USER_STACK_SIZE <= base <= sp -> 
  (TRAP_CONTEXT_VPN, tcx) ∈ space_pairs (areas ms) -> ppn_ok tcx -> lab !! tcx = None ->
  exec_space (fw_mem w) (ms_token ms) base sp tcx.
Proof.
  intros sp Hsp HL He He' Hb Hpair Htf Htl. pose proof Hsp as [Hok Hlay Hgw].
  pose proof (space_root _ _ _ _ _ Hok) as Hroot. pose proof (from_token_root _ Hroot) as Er.
  assert (Hst : stack_region (elf_end elf) ∈ elf_layout d (load_phs (elf_program_headers elf))) by (apply elem_of_app; right; by left).
  unfold USER_STACK_SIZE in Hb.
  assert (Hbyte : forall a, base <= a < sp -> exists f, (a / 4096, f) ∈ space_pairs (areas ms) /\
            phys_of (fw_mem w) (page_table ms) a = f * 4096 + a mod 4096 /\ forall write, user_byte_ok (fw_mem w) (page_table ms) write a).
  { intros a Ha. destruct (region_byte lo (user_base L) w ms lab _ (stack_region (elf_end elf)) a Hsp Hst) as (f & Hp & _ & Ef & _ & Hu); [cbn; lia|].
    exists f. split_and!; [done..|]. intros write. apply Hu. by destruct write. }
  assert (Hphys : forall a, phys_of (fw_mem w) (from_token (ms_token ms)) a = phys_of (fw_mem w) (page_table ms) a)
    by (intros a; by apply phys_of_root).
  split.
  - exists (pt_frames (page_table ms)), lab. unfold ms_token. rewrite Er. split_and!; [apply (fo_pt _ _ _ _ _ _ (so_frames _ _ _ _ _ Hok))|done|].
    intros a f Ha Hf. rewrite (phys_of_root _ _ (page_table ms)) by done. apply (space_isolated lo L w ms lab _ a true f Hsp HL); [|done].
    by rewrite <- (user_byte_ok_root _ (from_token (token (page_table ms)))).
  - lia.
  - unfold sp. lia_mod.
  - apply range_ok_root; [done|lia|]. intros a Ha. destruct (Hbyte a) as (f & _ & _ & Hu); [lia|]. apply Hu.
  - apply range_ok_root; [done|lia|]. intros a Ha. destruct (Hbyte a) as (f & _ & _ & Hu); [lia|]. apply Hu.
  - unfold phys_range. apply NoDup_fmap_2_strong; [|apply NoDup_seqZ]. intros x y Hx%elem_of_seqZ Hy%elem_of_seqZ. rewrite !Hphys.
    apply (space_inj lo (user_base L) w ms lab _ (stack_region (elf_end elf)) (stack_region (elf_end elf)) x y Hsp); (done || (cbn; lia)).
  - done.
  - intros a Ha. rewrite Hphys. destruct (Hbyte a Ha) as (f & Hp & -> & _). intros Hin.
    assert (f = tcx) as -> by (unfold in_frame in Hin; lia_mod).
    assert (E : a / 4096 = TRAP_CONTEXT_VPN).
    { apply (NoDup_snd_inj (space_pairs (areas ms)) _ _ tcx); [|done..]. rewrite space_pairs_frames.
      pose proof (fo_nodup _ _ _ _ _ _ (so_frames _ _ _ _ _ Hok)) as Hnd. by apply NoDup_app in Hnd as (_ & _ & ?). }
    unfold TRAP_CONTEXT_VPN in E. lia_mod.
Qed.

(** The arguments and the trap context go to data frames. *)
Lemma exec_tables_untouched lo L w ms lab d elf base tcx g x :
  let sp := (elf_end elf + 3) * 4096 in
  space_at lo (user_base L) w ms lab (elf_layout d (load_phs (elf_program_headers elf))) ->
  sp - USER_STACK_SIZE <= base <= sp -> (TRAP_CONTEXT_VPN, tcx) ∈ space_pairs (areas ms) ->
  g ∈ pt_frames (page_table ms) -> in_frame g x ->
  (x ∉ phys_range (fw_mem w) (ms_token ms) base (sp - base)) /\ ~ in_frame tcx x.
Proof.
  intros sp Hsp Hb Hpair Hg Hx. pose proof Hsp as [Hok _ _]. unfold USER_STACK_SIZE in Hb.
  pose proof (from_token_root _ (space_root _ _ _ _ _ Hok)) as Er.
  assert (Hno : forall u, (u, g) ∈ space_pairs (areas ms) -> False).
  { intros u Hu. assert (Hf : g ∈ space_frames (areas ms)).
    { rewrite <- space_pairs_frames. apply list_elem_of_fmap. by exists (u, g). }
    by destruct (frames_disjoint _ _ _ _ _ _ g (so_frames _ _ _ _ _ Hok) Hf) as [Hn _]. }
  split.
  - unfold phys_range. intros (a & -> & Ha%elem_of_seqZ)%list_elem_of_fmap.
    rewrite (phys_of_root _ _ (page_table ms)) in Hx by done.
    destruct (region_byte lo (user_base L) w ms lab _ (stack_region (elf_end elf)) a Hsp) as (f & Hp & _ & Ef & _);
      [apply elem_of_app; right; by left|cbn; lia|].
    rewrite Ef in Hx. assert (g = f) as -> by (unfold in_frame in Hx; lia_mod). by apply (Hno (a / 4096)).
  - intros Hx'. assert (g = tcx) as -> by (by eapply in_frame_inj). by apply (Hno TRAP_CONTEXT_VPN).
Qed.

(** The old space is still there when the new one has been built. *)
Lemma space_ok_other lo base w w' pt pt' data ms lab :
  space_ok lo base w ms lab -> ms_effect lo w w' pt pt' data -> Frames.wf lo (fw_alloc w') ->
  (forall f, f ∈ ms_frames ms -> f ∉ pt_frames pt) -> space_ok lo base w' ms lab.
Proof.
  intros Hok Heff Hw Hd. pose proof Hok as [Hf Ha]. split; [|done]. apply (frames_ok_ext lo base w); [done..| |].
  - intros f Hin. eapply ms_effect_live; [done|]. by apply (ms_frames_live lo base w ms lab).
  - intros f x Hin. assert (Hm : f ∈ ms_frames ms) by (apply elem_of_app; by left).
    apply (ms_effect_keeps lo w w' pt pt' data f x Heff); [by apply (ms_frames_live lo base w ms lab)|by apply Hd].
Qed.

Section Exec.
Context {F : Type} {FS : FileSystem F}.
Variable P : Platform.
Variable read_fuel : nat.
Implicit Type k : Kernel F.

(** C11: [exec] replaces the program.  For any process with a well-formed
    address space, any loadable image and any arguments that fit in the stack,
    and frames enough, the call succeeds: the process has a well-formed space
    built from the image, the frames of the old one are free again, the
    registers hold the entry point, an aligned stack pointer, [argc] and
    [argv], and [_start], running on the memory and page tables the call left
    behind, finds exactly the argument strings, whatever their number. *)
Theorem exec_replaces_program lo base0 lab k pid t elf ef (args : list (list Z)) :
  let argc := Z.of_nat (length args) in
  let argv := (elf_end ef + 3) * 4096 - (argc + 1) * 8 in
  let base := argv - args_size args in
  running k pid t -> Forall arg_ok args ->
  space_ok lo base0 (k_fw k) (memory_set t) lab ->
  elf_fits lo (linker P) (elf_reader P) (k_fw k) elf ef ->
  args_size args + 8 * (argc + 1) <= USER_STACK_SIZE ->
  Forall (in_width 64) [sstatus_csr P; elf_entry_point ef; ms_token (KERNEL_SPACE k); kernel_stack_top pid; trap_handler_addr (linker P)] ->
  exists k' t', tcb_exec P k pid elf args = Ret k' /\ running k' pid t' /\
    (exists lab', space_ok lo (user_base (linker P)) (k_fw k') (memory_set t') lab') /\
    (forall f, f ∈ ms_frames (memory_set t) -> ~ Frames.live lo (fw_alloc (k_fw k')) f) /\
    (let cx := load_trap_cx (k_mem k') (trap_cx_ppn t') in
     sepc cx = elf_entry_point ef /\ get_x cx 2 = base - base mod 8 /\ get_x cx 10 = argc /\ get_x cx 11 = argv) /\
    forall ts fuel, args_size args < Z.of_nat fuel ->
      UserLib.start_args (M := process_machine P read_fuel) fuel {| p_kernel := k'; p_turns := ts |} argv (length args)
      = Ret args.
Proof.
  intros argc argv base Hrun Hargs Hold Hfit Hroom Hwords. pose proof (args_size_nonneg args) as Hnn.
  pose proof Hfit as [Hwf HL _ _ _ _ Hsegs Hst _]. pose proof (last_end_ge _ _ _ Hsegs) as He.
  destruct (from_elf_spec lo (linker P) (elf_reader P) (k_fw k) elf ef Hfit) as (ms & w & lab' & fs & E & Hsp & Heff & Hfs & _).
  destruct (trap_frame lo (linker P) w ms lab' _ _ Hsp) as (tcx & Et & Hpair & Htf & Htl).
  assert (Hx : exec_space (fw_mem w) (ms_token ms) base ((elf_end ef + 3) * 4096) tcx).
  { apply (exec_space_of_elf lo (linker P) w ms lab' elf ef); try done. unfold base, argv. lia. }
  assert (Hold' : space_ok lo base0 w (memory_set t) lab).
  { apply (space_ok_other lo base0 (k_fw k) w {| root_ppn := root_ppn (page_table ms); pt_frames := [] |} (page_table ms) fs); [done|exact Heff|by eapply space_at_wf|]. intros f _. apply not_elem_of_nil. }
  destruct (drop_memory_set_spec lo base0 w (memory_set t) lab Hold') as (w1 & Ed & Em1 & Hw1 & Hl1 & _).
  destruct (exec_hand_over P read_fuel k pid t elf args ms _ _ w tcx w1 Hrun Hargs E Et Hx Ed Hwords)
    as (k' & t' & Ek & Hrun' & Ems & Etc & Hregs & Ea & Hmem & Hstart).
  exists k', t'. split_and!; [done|done| | |by rewrite Etc|done].
  - exists lab'. rewrite Ems. pose proof Hsp as [[Hf Har] _ _]. split; [|done].
    apply (frames_ok_ext lo (user_base (linker P)) w); [done|by rewrite Ea| |].
    + intros f Hin. rewrite Ea. apply Hl1. split.
      * apply (ms_frames_live lo (user_base (linker P)) w ms lab'); [apply Hsp|done].
      * intros Hin'. pose proof (ms_frames_live lo base0 (k_fw k) (memory_set t) lab f Hold Hin') as Hl.
        destruct (me_tables _ _ _ _ _ _ Heff) as (tables & Etb & _ & Hfresh & _). apply (Hfresh f); [|done].
        cbn in Etb. unfold ms_frames in Hin. by rewrite Etb, Hfs in Hin.
    + intros g x Hg Hin. destruct (exec_tables_untouched lo (linker P) w ms lab' elf ef base tcx g x Hsp) as [H1 H2];
        [unfold base, argv; lia|done..|]. by apply Hmem.
  - intros f Hf. rewrite Ea. intros Hl. by apply Hl1 in Hl as [_ Hn].
Qed.
End Exec.
