(* ===== verification/KernelMem.v ===== *)
(** * The memory invariant of the kernel

    [mem_inv] says that the kernel's space, the kernel stacks and the spaces of
    all processes are well formed and share no frame.  This file shows what
    keeps it: bookkeeping that touches no space ([inert]), writes to the data
    pages of one process, and turns of other tasks ([mrely]). *)
From S2P Require Import Prelude IpcApi Quota Timer AuditLog AuditFacts Facade.
From S2P Require Import Address Allocators PageTable PageTableFacts MemorySet MemorySetInv MemorySetSpec MemorySetFork FrameWorldInv.
From S2P Require Import Signals UserAccess UserAccessFacts Pipe Task Kernel.
From S2P Require Import SyscallFs SignalHandling SyscallProcess SyscallAudit KernelInv ProcessInv SignalFacts ExecArgs ExecSpec.
Import Audit Mem PageTable MemorySet Signals UserAccess Pipe Task Kernel SyscallFs SignalHandling SyscallProcess SyscallAudit.

(** ** The invariant *)

(** What the invariant sees of a task. *)
Definition task_view (t : TaskControlBlockInner) : Space * option TrapContext :=
  (mkSpace (memory_set t) (trap_cx_ppn t) (is_zombie t), trap_ctx_backup t).

(** A saved context has all the registers. *)
Definition backup_ok (b : option TrapContext) : Prop := forall cx, b = Some cx -> length (cx_x cx) = 32%nat.

(** The data frames of a space. *)
Definition in_data (s : Space) (x : Z) : Prop := exists f, f ∈ space_frames (areas (sp_ms s)) /\ in_frame f x.

Section KernelMem.
Context {F : Type} {FS : FileSystem F}.
Variable lo : Z.
Variable L : LinkerSymbols.
Variable kb : list (Z * Z).
Variable kareas : list MapArea.
Hypothesis Hkl : kernel_layout kb kareas.
Hypothesis HL : trampoline_ok L.
Implicit Type k : Kernel F.

Definition views k : gmap Z (Space * option TrapContext) := task_view <$> k_tasks k.
Definition spaces k : gmap Z Space := fst <$> views k.

Definition mem_inv k : Prop :=
  (exists stks, world_ok lo L kb kareas (k_fw k) (KERNEL_SPACE k) stks (spaces k) /\
     forall pid, pid ∈ stks.*1 <-> is_Some (spaces k !! pid)) /\
  map_Forall (fun _ v => backup_ok v.2) (views k).

(** The invariant, and the space of one process. *)
Definition at_space (pid : Z) (s : Space) k : Prop := mem_inv k /\ spaces k !! pid = Some s.

Lemma spaces_lookup k pid t : k_tasks k !! pid = Some t -> spaces k !! pid = Some (task_view t).1.
Proof. intros H. unfold spaces, views. by rewrite !lookup_fmap, H. Qed.

Lemma spaces_lookup_inv k pid s : spaces k !! pid = Some s -> exists t, k_tasks k !! pid = Some t /\ s = (task_view t).1.
Proof. unfold spaces, views. rewrite !lookup_fmap. destruct (k_tasks k !! pid) as [t|]; [|done]. intros [= <-]. by exists t. Qed.

(** ** Bookkeeping *)

(** The steps that touch neither memory nor the spaces. *)
Definition inert k k' : Prop := k_fw k' = k_fw k /\ KERNEL_SPACE k' = KERNEL_SPACE k /\ views k' = views k.

#[export] Instance inert_preorder : PreOrder inert.
Proof. split; [done|]. intros a b c (E1 & E2 & E3) (H1 & H2 & H3). unfold inert. by rewrite H1, H2, H3. Qed.

Lemma mem_inv_inert k k' : inert k k' -> mem_inv k -> mem_inv k'.
Proof. unfold mem_inv, spaces. by intros (-> & -> & ->). Qed.

Lemma at_space_inert pid s k k' : inert k k' -> at_space pid s k -> at_space pid s k'.
Proof. unfold at_space. intros H [Hm Hs]. split; [by eapply mem_inv_inert|]. unfold spaces. by destruct H as (_ & _ & ->). Qed.

Lemma inert_put k pid t t' : k_tasks k !! pid = Some t -> task_view t' = task_view t -> inert k (put_task k pid t').
Proof.
  intros Ht Hv. split_and!; [done..|]. unfold views, put_task, set_tasks, k_tasks in *. cbn.
  rewrite fmap_insert, insert_id; [done|]. by rewrite lookup_fmap, Ht, Hv.
Qed.

Lemma inert_same k k' : k_fw k' = k_fw k -> KERNEL_SPACE k' = KERNEL_SPACE k -> k_tasks k' = k_tasks k -> inert k k'.
Proof. unfold inert, views. by intros -> -> ->. Qed.

(** ** The space of a live process *)

Lemma at_space_layout pid s k :
  at_space pid s k -> sp_dead s = false ->
  exists lab gs, space_at lo (user_base L) (k_fw k) (sp_ms s) lab gs /\
    (TRAP_CONTEXT_VPN, sp_cx s) ∈ space_pairs (areas (sp_ms s)) /\ trap_page_private (areas (sp_ms s)).
Proof.
  intros [[(stks & Hw & _) _] Hs] Hd. destruct (wo_fine _ _ _ _ _ _ _ _ Hw pid s Hs) as (base & lab & Hok & H).
  destruct (H Hd) as (-> & Hb & Hc & Hpr). exists lab, (area_region (fw_mem (k_fw k)) <$> areas (sp_ms s)). split; [|done].
  by apply space_has_layout.
Qed.

Lemma at_space_root pid s k : at_space pid s k -> sp_dead s = false -> root_ppn (from_token (ms_token (sp_ms s))) = root_ppn (page_table (sp_ms s)).
Proof.
  intros H Hd. destruct (at_space_layout _ _ _ H Hd) as (lab & gs & Hsp & _). apply from_token_root. eapply space_root. apply Hsp.
Qed.

(** A byte the program may touch is in a data frame. *)
Lemma user_byte_in_data pid s k a write :
  at_space pid s k -> sp_dead s = false -> user_byte_ok (k_mem k) (from_token (ms_token (sp_ms s))) write a ->
  in_data s (phys_of (k_mem k) (from_token (ms_token (sp_ms s))) a).
Proof using HL.
  intros H Hd Hb. destruct (at_space_layout _ _ _ H Hd) as (lab & gs & Hsp & _). pose proof (at_space_root _ _ _ H Hd) as Er.
  rewrite (phys_of_root _ _ (page_table (sp_ms s))) by done. rewrite (user_byte_ok_root _ _ (page_table (sp_ms s))) in Hb by done.
  by apply (user_phys_frame lo L (k_fw k) (sp_ms s) lab gs a write).
Qed.

Lemma trap_cx_in_data pid s k x : at_space pid s k -> sp_dead s = false -> in_frame (sp_cx s) x -> in_data s x.
Proof.
  intros H Hd Hx. destruct (at_space_layout _ _ _ H Hd) as (lab & gs & _ & Hc & _). exists (sp_cx s). split; [|done].
  rewrite <- space_pairs_frames. apply list_elem_of_fmap. by exists (TRAP_CONTEXT_VPN, sp_cx s).
Qed.

Lemma trap_cx_ppn_ok pid s k : at_space pid s k -> sp_dead s = false -> ppn_ok (sp_cx s).
Proof.
  intros H Hd. destruct (at_space_layout _ _ _ H Hd) as (lab & gs & Hsp & Hc & _). pose proof (sa_ok _ _ _ _ _ _ Hsp) as [Hf _].
  assert (Hin : sp_cx s ∈ space_frames (areas (sp_ms s))).
  { rewrite <- space_pairs_frames. apply list_elem_of_fmap. by exists (TRAP_CONTEXT_VPN, sp_cx s). }
  by destruct (frames_disjoint _ _ _ _ _ _ _ Hf Hin) as (_ & _ & ?).
Qed.

(** ** Writes to the data of one process *)

Lemma world_ok_data w m' KS stks sp pid s :
  world_ok lo L kb kareas w KS stks sp -> sp !! pid = Some s ->
  (forall x, ~ in_data s x -> load m' x = load (fw_mem w) x) ->
  world_ok lo L kb kareas {| fw_mem := m'; fw_alloc := fw_alloc w |} KS stks sp.
Proof.
  intros H Hs Hx. pose proof (world_live lo L kb kareas w KS stks sp) as Hlive.
  apply (world_ext lo L kb kareas w); [done|by apply (world_wf lo L kb kareas w KS stks sp)|intros f; by apply Hlive|].
  intros f x Hf Hin. apply Hx. intros (g & Hg & Hgx). assert (g = f) as -> by (by eapply in_frame_inj).
  assert (Hgs : f ∈ ms_frames (sp_ms s)) by (apply elem_of_app; by right).
  destruct Hf as [Hf|(q & t & Ht & Hf)].
  - apply (wo_kapart _ _ _ _ _ _ _ _ H pid s f Hs Hgs). apply elem_of_app. by left.
  - destruct (decide (q = pid)) as [->|Hne].
    + simplify_eq. destruct (wo_fine _ _ _ _ _ _ _ _ H pid s Hs) as (base & lab & [Hfo _] & _).
      by destruct (frames_disjoint _ _ _ _ _ _ f Hfo Hg) as [Hno _].
    + apply (wo_apart _ _ _ _ _ _ _ _ H pid q s t f); [done..|]. apply elem_of_app. by left.
Qed.

Lemma at_space_write pid s k m :
  at_space pid s k -> (forall x, ~ in_data s x -> load m x = load (k_mem k) x) -> at_space pid s (set_mem k m).
Proof.
  intros [[(stks & Hw & Hst) Hb] Hs] Hx. split; [|done]. split; [|done]. exists stks. split; [|done].
  by apply (world_ok_data (k_fw k) m _ _ _ pid s).
Qed.

Lemma store_trap_cx_outside m ppn cx x :
  ppn_ok ppn -> length (cx_x cx) = 32%nat -> ~ in_frame ppn x -> load (store_trap_cx m ppn cx) x = load m x.
Proof.
  intros Hp Hl Hx. unfold store_trap_cx. apply store_words_outside. rewrite length_trap_cx_words by done.
  rewrite frame_base_mul by done. unfold in_frame in Hx. lia.
Qed.

Lemma length_load_trap_cx m ppn : length (cx_x (load_trap_cx m ppn)) = 32%nat.
Proof. unfold load_trap_cx, trap_cx_of_words. cbn [cx_x]. by rewrite length_take, length_load_words. Qed.

Lemma length_set_x cx i v : length (cx_x (set_x cx i v)) = length (cx_x cx).
Proof. unfold set_x. cbn. apply length_insert. Qed.

Lemma at_space_trap_cx pid s k cx :
  at_space pid s k -> sp_dead s = false -> length (cx_x cx) = 32%nat ->
  at_space pid s (set_mem k (store_trap_cx (k_mem k) (sp_cx s) cx)).
Proof.
  intros H Hd Hl. apply at_space_write; [done|]. intros x Hx. apply store_trap_cx_outside; [by eapply trap_cx_ppn_ok|done|].
  intros Hin. apply Hx. by eapply trap_cx_in_data.
Qed.

(** *** User buffers *)

Definition bufs_in (s : Space) (bufs : list slice) : Prop :=
  Forall (fun b => 0 < b.2 /\ forall x, b.1 <= x < b.1 + b.2 -> in_data s x) bufs.

Lemma byte_buffer_in_data pid s k ptr len write v :
  at_space pid s k -> sp_dead s = false -> in_width 64 ptr -> in_width 64 len ->
  try_translated_byte_buffer (k_mem k) (ms_token (sp_ms s)) ptr len write = Ret (Some v) -> bufs_in s v.
Proof using HL.
  intros H Hd Hp Hl E. destruct (try_translated_byte_buffer_spec (k_mem k) (ms_token (sp_ms s)) ptr len write Hp Hl) as (r & E' & Hr).
  rewrite E in E'. injection E' as <-. destruct Hr as (Hok & Ha & Hne). apply Forall_forall. intros b Hb.
  split; [by apply (proj1 (Forall_forall _ _) Hne b)|]. intros x Hx.
  assert (Hin : x ∈ buffer_addrs v).
  { unfold buffer_addrs. apply list_elem_of_In, in_concat. exists (slice_addrs b).
    split; apply list_elem_of_In; [by apply list_elem_of_fmap_2|]. unfold slice_addrs. by apply elem_of_seqZ. }
  rewrite Ha in Hin. apply list_elem_of_fmap in Hin as (a & -> & Hin%elem_of_seqZ).
  destruct Hok as [->|[_ Hok]]; [lia|]. apply (user_byte_in_data pid s k a write); [done..|]. by apply Hok.
Qed.

Lemma scatter_outside s m bufs bs m' x :
  bufs_in s bufs -> scatter m bufs bs = Ret m' -> ~ in_data s x -> load m' x = load m x.
Proof.
  intros Hb. revert m bs. induction Hb as [|[a n] bufs Ha _ IH]; intros m bs E Hx; cbn in E; [by simplify_eq|].
  case_if; [done|]. rewrite (IH _ _ E Hx). rewrite store_bytes_list. apply store_list_other. rewrite length_take.
  intros Hin%elem_of_seqZ. cbn in Ha. apply Hx, Ha. lia.
Qed.

Lemma copy_to_user_in_data pid s k dst source m r :
  at_space pid s k -> sp_dead s = false -> in_width 64 dst -> Z.of_nat (length source) < 2 ^ 64 ->
  copy_to_user (k_mem k) (ms_token (sp_ms s)) dst source = Ret (m, r) -> at_space pid s (set_mem k m).
Proof using HL.
  intros H Hd Hdst Hl E. unfold copy_to_user in E. apply at_space_write; [done|]. intros x Hx. case_if; [by simplify_eq|].
  apply bind_Ret_inv in E as (o & Ho & E). destruct o as [bufs|]; [|by simplify_eq].
  apply bind_Ret_inv in E as (m2 & Hm & E). simplify_eq. eapply scatter_outside; [|exact Hm|exact Hx].
  eapply byte_buffer_in_data; [done..| |exact Ho]. unfold in_width. lia.
Qed.

(** ** Turns of other tasks *)

(** What the tasks that run while [pid] waits do to it: nothing. *)
Definition mrely (pid : Z) (f : Kernel F -> Kernel F) : Prop :=
  rely f /\ forall k s, kinv k -> current_task k = None -> sp_dead s = false -> at_space pid s k -> at_space pid s (f k).

Lemma mrely_rely pid e : Forall (mrely pid) e -> Forall rely e.
Proof. intros H. eapply Forall_impl; [exact H|]. by intros f [Hf _]. Qed.

Lemma alive_view t st : task_status t <> Zombie -> st <> Zombie -> task_view (set_task_status t st) = task_view t.
Proof. intros H1 H2. unfold task_view, is_zombie. cbn. by rewrite !bool_decide_eq_false_2. Qed.

Lemma inert_suspend k k' : kinv k -> suspend_current k = Ret k' -> inert k k' /\ current_task k' = None.
Proof.
  intros Hk H. unfold suspend_current, take_current_task in H. inv_ret H. apply unwrap_Ret in Ha. apply task_inner_Ret in Ha0.
  destruct (kinv_current k a a0 Hk Ha Ha0) as (Hz & _). split; [|done].
  apply (inert_put k a a0); [done|]. by apply alive_view.
Qed.

Lemma inert_run_round k k' : kinv k -> current_task k = None -> run_tasks_round k = Ret (Some k') -> inert k k'.
Proof.
  intros Hk Hc H. unfold run_tasks_round, fetch_task in H. destruct (ready_queue (k_sched k)) as [|pid rest] eqn:Er; [done|]. inv_ret H.
  apply task_inner_Ret in Ha. assert (Hin : pid ∈ runnable (k_sched k)).
  { unfold runnable, current_task in *. rewrite Hc, Er. by left. }
  destruct Hk as [Hk _]. apply (si_run _ _ Hk) in Hin as (t & Ht & Hz).
  assert (a = t) as -> by (unfold k_tasks in Ha; cbn in Ha; congruence). apply (inert_put k pid t); [done|]. by apply alive_view.
Qed.

Lemma at_space_suspend_and_run pid s k f k' :
  kinv k -> at_space pid s k -> sp_dead s = false -> mrely pid f -> suspend_current_and_run_next k f = Ret k' ->
  kinv k' /\ at_space pid s k'.
Proof.
  intros Hk H Hd [Hr Hf] E. split; [by eapply kinv_suspend_and_run|]. unfold suspend_current_and_run_next in E.
  apply bind_Ret_inv in E as (k1 & E1 & E). apply bind_Ret_inv in E as (r & E2 & E).
  destruct r as [k2|]; [|done]. case_bool_decide; simplify_eq. pose proof (kinv_suspend _ _ Hk E1) as Hk1.
  destruct (inert_suspend k k1 Hk E1) as [Hi Hc1]. destruct (Hr k1 Hk1 Hc1) as [Hk2 Hc2].
  apply (at_space_inert pid s (f k1)); [by apply inert_run_round|]. apply Hf; [done..|]. by apply (at_space_inert pid s k).
Qed.

(** ** Pipes and files *)

Definition iter_in (s : Space) (it : UserBufferIterator) : Prop := bufs_in s (it_buffers it) /\ 0 <= current_idx it.

Lemma iter_next_in s it o it' :
  iter_in s it -> iter_next it = Ret (o, it') -> iter_in s it' /\ forall a, o = Some a -> in_data s a.
Proof.
  intros [Hb Hi] E. unfold iter_next in E. case_if; [by simplify_eq|]. apply bind_Ret_inv in E as ([base n] & Ei & E).
  case_if; [done|]. apply negb_false_iff, Z.ltb_lt in E1. unfold index in Ei. apply unwrap_Ret in Ei.
  simplify_eq. split.
  - case_if; (split; [exact Hb|cbn; lia]).
  - intros a [= <-]. apply (Forall_lookup_1 _ _ _ _ Hb Ei). cbn. lia.
Qed.

Lemma store_outside s m a b x : in_data s a -> ~ in_data s x -> load (store m a b) x = load m x.
Proof. intros Ha Hx. apply load_store_ne. by intros ->. Qed.

Lemma read_chunk_in s n : forall want ring m it already ring' m' it' already' o,
  iter_in s it -> read_chunk n want ring m it already = Ret (ring', m', it', already', o) ->
  iter_in s it' /\ forall x, ~ in_data s x -> load m' x = load m x.
Proof.
  induction n as [|n IH]; intros want ring m it already ring' m' it' already' o Hit E; cbn in E; [by simplify_eq|].
  apply bind_Ret_inv in E as ([nxt it2] & E1 & E). destruct (iter_next_in s it nxt it2 Hit E1) as [Hit2 Ha].
  destruct nxt as [a|]; [|by simplify_eq]. apply bind_Ret_inv in E as ([c ring2] & _ & E).
  assert (Hst : forall x, ~ in_data s x -> load (store m a c) x = load m x) by (intros x; apply store_outside; by apply Ha).
  case_if; [by simplify_eq|]. destruct (IH _ _ _ _ _ _ _ _ _ _ Hit2 E) as [H1 H2]. split; [done|].
  intros x Hx. by rewrite H2, Hst.
Qed.

Lemma write_chunk_in s n : forall want ring m it already ring' it' already' o,
  iter_in s it -> write_chunk n want ring m it already = Ret (ring', it', already', o) -> iter_in s it'.
Proof.
  induction n as [|n IH]; intros want ring m it already ring' it' already' o Hit E; cbn in E; [by simplify_eq|].
  apply bind_Ret_inv in E as ([nxt it2] & E1 & E). destruct (iter_next_in s it nxt it2 Hit E1) as [Hit2 _].
  destruct nxt as [a|]; [|by simplify_eq]. apply bind_Ret_inv in E as (ring2 & _ & E).
  case_if; [by simplify_eq|]. by eapply IH.
Qed.

Definition io_ok (pid : Z) (s : Space) (st : IoState (Kernel F)) : Prop :=
  kinv (io_k st) /\ at_space pid s (io_k st) /\ iter_in s (io_it st) /\ Forall (mrely pid) (io_env st).

Lemma suspend_step_mem pid s st x :
  sp_dead s = false -> io_ok pid s st -> suspend_step st = Ret x ->
  match x with inl st' => io_ok pid s st' | inr r => at_space pid s r.1 end.
Proof.
  intros Hd (Hk & Ha & Hi & He) E. unfold suspend_step in E. destruct (io_env st) as [|f e] eqn:Ee; [by simplify_eq|].
  apply bind_Ret_inv in E as (k' & Ek & E). simplify_eq. apply Forall_cons in He as [Hf He].
  by destruct (at_space_suspend_and_run pid s (io_k st) f k' Hk Ha Hd Hf Ek).
Qed.

Lemma at_space_pipe_read p pid s k buf e k' r :
  kinv k -> at_space pid s k -> sp_dead s = false -> bufs_in s buf -> Forall (mrely pid) e ->
  pipe_read p k buf e = Ret (k', r) -> at_space pid s k'.
Proof.
  intros Hk H Hd Hb He E. unfold pipe_read in E. apply bind_Ret_inv in E as (_ & _ & E).
  apply (while_loop_inv _ (io_ok pid s) (fun r => at_space pid s r.1)) in E; [done| |done]. clear Hk H E He.
  intros st x Hst Hx. unfold read_body in Hx. apply bind_Ret_inv in Hx as (ring & _ & Hx). case_if.
  - apply bind_Ret_inv in Hx as (c & _ & Hx). destruct c; [simplify_eq; by apply Hst|]. by eapply suspend_step_mem.
  - apply bind_Ret_inv in Hx as ([[[[ring' m'] it'] al'] o] & Ec & Hx). destruct Hst as (Hk & Ha & Hi & He).
    destruct (read_chunk_in s _ _ _ _ _ _ _ _ _ _ _ Hi Ec) as [Hi' Hm].
    set (k2 := host_set_ring (host_set_mem (io_k st) m') (p_buffer p) ring') in *.
    assert (H2 : at_space pid s k2).
    { apply (at_space_inert pid s (set_mem (io_k st) m')); [by apply inert_same|]. by apply at_space_write. }
    destruct o; simplify_eq; [done|]. by split_and!.
Qed.

Lemma at_space_pipe_write p pid s k buf e k' r :
  kinv k -> at_space pid s k -> sp_dead s = false -> bufs_in s buf -> Forall (mrely pid) e ->
  pipe_write p k buf e = Ret (k', r) -> at_space pid s k'.
Proof.
  intros Hk H Hd Hb He E. unfold pipe_write in E. apply bind_Ret_inv in E as (_ & _ & E).
  apply (while_loop_inv _ (io_ok pid s) (fun r => at_space pid s r.1)) in E; [done| |done]. clear Hk H E He.
  intros st x Hst Hx. unfold write_body in Hx. apply bind_Ret_inv in Hx as (ring & _ & Hx). case_if; [by eapply suspend_step_mem|].
  apply bind_Ret_inv in Hx as ([[[ring' it'] al'] o] & Ec & Hx). destruct Hst as (Hk & Ha & Hi & He).
  pose proof (write_chunk_in s _ _ _ _ _ _ _ _ _ _ Hi Ec) as Hi'.
  set (k2 := host_set_ring (io_k st) (p_buffer p) ring') in *.
  assert (H2 : at_space pid s k2) by (apply (at_space_inert pid s (io_k st)); [by apply inert_same|done]).
  destruct o; simplify_eq; [done|]. by split_and!.
Qed.

End KernelMem.
