(* ===== verification/SyscallMem.v ===== *)
(** * System calls keep the memory invariant

    Every call that does not create, replace or end a process leaves all spaces
    as they are and writes to the data pages of its caller only. *)
From S2P Require Import Prelude IpcApi Quota Timer AuditLog AuditFacts Facade.
From S2P Require Import Address Allocators PageTable PageTableFacts MemorySet MemorySetInv MemorySetSpec MemorySetFork FrameWorldInv.
From S2P Require Import Signals UserAccess UserAccessFacts Pipe Task Kernel.
From S2P Require Import SyscallFs FdFacts SignalHandling SyscallProcess SyscallAudit Trap.
From S2P Require Import KernelInv SyscallInv PipeCallFacts ProcessInv LifecycleInv TrapInv AuditCallFacts SignalFacts ExecArgs ExecSpec KernelMem.
Import Timer Audit Mem PageTable MemorySet Signals UserAccess Pipe Task Kernel SyscallFs SignalHandling SyscallProcess SyscallAudit Trap.

(** What [inode_read] relies on: a read returns no more than was asked for. *)
Definition reads_bounded {F} (FS : FileSystem F) : Prop :=
  forall (fs : F) i off n bs fs', fs_read_at fs i off n = Ret (bs, fs') -> Z.of_nat (length bs) <= Z.max 0 n.

Section SyscallMem.
Context {F : Type} {FS : FileSystem F}.
Variable lo : Z.
Variable L : LinkerSymbols.
Variable kb : list (Z * Z).
Variable kareas : list MapArea.
Hypothesis Hkl : kernel_layout kb kareas.
Hypothesis HL : trampoline_ok L.
Hypothesis Hfs : reads_bounded FS.
Implicit Type k : Kernel F.
Abbreviation at_space := (KernelMem.at_space lo L kb kareas).
Abbreviation mrely := (KernelMem.mrely lo L kb kareas).

(** A live process with a space of its own that is running. *)
Record caller (pid : Z) (s : Space) k : Prop := {
  ca_inv : kinv k;
  ca_space : at_space pid s k;
  ca_alive : sp_dead s = false;
  ca_current : current_task k = Some pid;
}.

Lemma caller_space pid s k t : at_space pid s k -> k_tasks k !! pid = Some t -> s = (task_view t).1.
Proof. intros [_ H] Ht. rewrite (spaces_lookup k pid t Ht) in H. by injection H as <-. Qed.

Lemma caller_current pid s k p : caller pid s k -> unwrap (current_task k) = Ret p -> p = pid.
Proof. intros [_ _ _ Hc] H%unwrap_Ret. congruence. Qed.

Lemma caller_token pid s k token : caller pid s k -> current_user_token k = Ret token -> token = ms_token (sp_ms s).
Proof.
  intros H E. unfold current_user_token in E. apply bind_Ret_inv in E as (p & Hp & E). apply (caller_current _ _ _ _ H) in Hp as ->.
  apply bind_Ret_inv in E as (t & Ht%task_inner_Ret & E). simplify_eq. by rewrite (caller_space pid s k t (ca_space _ _ _ H) Ht).
Qed.

Lemma caller_inner pid s k p t :
  caller pid s k -> current_inner k = Ret (p, t) -> p = pid /\ k_tasks k !! pid = Some t /\ s = (task_view t).1.
Proof.
  intros H E. apply current_inner_Ret in E as [Hc Ht]. destruct H as [_ Hs _ Hc']. assert (p = pid) as -> by congruence.
  split_and!; [done..|]. by eapply caller_space.
Qed.

Lemma caller_inert pid s k k' : inert k k' -> caller pid s k -> at_space pid s k'.
Proof. intros Hi [_ H _ _]. by eapply at_space_inert. Qed.

(** ** Pieces of calls *)

Lemma inert_put_audit k pid t t' w : k_tasks k !! pid = Some t -> task_view t' = task_view t -> inert k (set_audit (put_task k pid t') w).
Proof. intros Ht Hv. etransitivity; [by apply (inert_put k pid t)|by apply inert_same]. Qed.

Lemma inert_preflight k pid rq k' r : task_preflight k pid rq = Ret (k', r) -> inert k k'.
Proof.
  intros H. unfold task_preflight in H. apply bind_Ret_inv in H as (t & Ht%task_inner_Ret & H).
  apply bind_Ret_inv in H as ([[s w] o] & _ & H). simplify_eq. by apply (inert_put_audit k pid t).
Qed.

Lemma inert_complete k pid p out k' r : task_complete k pid p out = Ret (k', r) -> inert k k'.
Proof.
  intros H. unfold task_complete in H. apply bind_Ret_inv in H as (t & Ht%task_inner_Ret & H).
  apply bind_Ret_inv in H as ([[s w] o] & _ & H). simplify_eq. by apply (inert_put_audit k pid t).
Qed.

Lemma inert_finish k pid p out k' r : finish_ipc k pid p out = Ret (k', r) -> inert k k'.
Proof.
  intros H. unfold finish_ipc in H. apply bind_Ret_inv in H as ([k1 o] & H1%inert_complete & H).
  destruct o; unfold ret in H; by simplify_eq.
Qed.

Lemma inert_record_failure k (o : option IpcRequest) e k' :
  match o with Some rq => record_failure k rq e | None => Ret k end = Ret k' -> inert k k'.
Proof.
  destruct o; intros H; [|by simplify_eq]. unfold record_failure in H. apply bind_Ret_inv in H as (w & _ & H). simplify_eq.
  by apply inert_same.
Qed.

Lemma inert_finish_control k op s n out k' r : finish_control_call k op s n out = Ret (k', r) -> inert k k'.
Proof.
  intros H. unfold finish_control_call, ret in H. destruct out; [by simplify_eq|].
  apply bind_Ret_inv in H as (w & _ & H). simplify_eq. by apply inert_same.
Qed.

Lemma inert_open_file k name flags k' r : open_file k name flags = Ret (k', r) -> inert k k'.
Proof. intros H. unfold open_file, new_os_inode in H. inv_ret H; simplify_eq; by apply inert_same. Qed.

Lemma inert_read_all fuel k key acc k' r : read_all fuel k key acc = Ret (k', r) -> inert k k'.
Proof.
  revert k acc. induction fuel as [|fuel IH]; intros k acc H; [done|]. cbn in H.
  apply bind_Ret_inv in H as (o & _ & H). apply bind_Ret_inv in H as ([bs fs'] & _ & H).
  case_if; [simplify_eq; by apply inert_same|]. apply IH in H. etransitivity; [|exact H]. by apply inert_same.
Qed.

(** ** Files *)

Lemma console_getchar_inert k c k1 : console_getchar k = (c, k1) -> inert k k1 /\ (kinv k -> kinv k1).
Proof.
  unfold console_getchar. destruct (console_in (k_io k)); intros [= <- <-]; (split; [by apply inert_same|done]).
Qed.

Lemma at_space_stdin_wait pid s k e k' r :
  kinv k -> at_space pid s k -> sp_dead s = false -> Forall (mrely pid) e -> stdin_wait k e = Ret (k', r) -> at_space pid s k'.
Proof.
  intros Hk Ha Hd He. revert k Hk Ha. induction He as [|f e Hf He IH]; intros k Hk Ha H; cbn [stdin_wait] in H;
    destruct (console_getchar k) as [c k1] eqn:Ec; apply console_getchar_inert in Ec as [Hi Hc];
    apply (at_space_inert lo L kb kareas pid s k k1 Hi) in Ha; apply Hc in Hk; (case_if; [by simplify_eq|]); [by simplify_eq|].
  apply bind_Ret_inv in H as (k2 & H2 & H).
  destruct (at_space_suspend_and_run lo L kb kareas pid s k1 f k2 Hk Ha Hd Hf H2). by apply (IH k2).
Qed.

Lemma inert_print_buffers k buf k' : print_buffers k buf = Ret k' -> inert k k'.
Proof.
  revert k. induction buf as [|[a n] buf IH]; intros k H; cbn in H; [by simplify_eq|].
  apply bind_Ret_inv in H as (cs & _ & H). apply IH in H. etransitivity; [|exact H]. by apply inert_same.
Qed.

Lemma at_space_inode_read pid s k key buf n k' r :
  at_space pid s k -> bufs_in s buf -> inode_read k key buf n = Ret (k', r) -> at_space pid s k'.
Proof using Hfs.
  intros Ha Hb. revert k n Ha. induction Hb as [|[a m] buf Hm _ IH]; intros k n Ha H; cbn in H; [by simplify_eq|].
  apply bind_Ret_inv in H as (o & _ & H). apply bind_Ret_inv in H as ([bs fs'] & Hr%Hfs & H).
  assert (H1 : at_space pid s (set_mem (set_fs k fs') (store_bytes (k_mem k) a bs))).
  { apply at_space_write; [by apply (at_space_inert lo L kb kareas pid s k); [apply inert_same|]|]. intros x Hx.
    rewrite store_bytes_list. apply store_list_other. intros Hin%elem_of_seqZ. cbn in Hm. apply Hx, Hm. lia. }
  case_if; [by simplify_eq|]. eapply IH; [|exact H]. eapply at_space_inert; [|exact H1]. by apply inert_same.
Qed.

Lemma inert_inode_write k key buf n k' r : inode_write k key buf n = Ret (k', r) -> inert k k'.
Proof.
  revert k n. induction buf as [|[a m] buf IH]; intros k n H; cbn in H; [by simplify_eq|].
  apply bind_Ret_inv in H as (o & _ & H). apply bind_Ret_inv in H as ([ws fs'] & _ & H).
  apply bind_Ret_inv in H as (? & _ & H). apply IH in H. etransitivity; [|exact H]. by apply inert_same.
Qed.

(** What [read] and [write] need of the file behind a descriptor. *)
Definition file_op_ok (op : Kernel F -> FileRef -> list slice -> list (Kernel F -> Kernel F) -> outcome (Kernel F * option Z)) : Prop :=
  forall pid s k f buf e k' r, kinv k -> at_space pid s k -> sp_dead s = false -> bufs_in s buf -> Forall (mrely pid) e ->
    op k f buf e = Ret (k', r) -> at_space pid s k'.

Lemma file_read_ok : file_op_ok file_read.
Proof using Hfs.
  intros pid s k f buf e k' r Hk Ha Hd Hb He H. destruct f as [| |p|key]; cbn in H; [|done| |].
  - unfold stdin_read in H. apply bind_Ret_inv in H as (_ & _ & H). apply bind_Ret_inv in H as ([k1 c] & H1 & H).
    apply (at_space_stdin_wait pid s) in H1; [|done..]. destruct c; [|by simplify_eq].
    apply bind_Ret_inv in H as ([a n] & Hi & H). simplify_eq. apply at_space_write; [done|]. intros x Hx.
    apply (store_outside s); [|done]. unfold index in Hi. apply unwrap_Ret in Hi.
    destruct (Forall_lookup_1 _ _ _ _ Hb Hi) as [Hn Hin]. apply Hin. cbn in *. lia.
  - by apply (at_space_pipe_read lo L kb kareas p pid s k buf e k' r).
  - apply bind_Ret_inv in H as ([k1 n] & H1 & H). simplify_eq. by eapply at_space_inode_read.
Qed.

Lemma file_write_ok : file_op_ok file_write.
Proof.
  intros pid s k f buf e k' r Hk Ha Hd Hb He H. destruct f as [| |p|key]; cbn in H; [done| | |].
  - apply bind_Ret_inv in H as ([k1 n] & H1 & H). simplify_eq. unfold stdout_write in H1.
    apply bind_Ret_inv in H1 as (k2 & H2%inert_print_buffers & H1). simplify_eq. by eapply at_space_inert.
  - by apply (at_space_pipe_write lo L kb kareas p pid s k buf e k' r).
  - apply bind_Ret_inv in H as ([k1 n] & H1%inert_inode_write & H). simplify_eq. by eapply at_space_inert.
Qed.

Lemma at_space_run_file op pid s k f buf e k' r :
  file_op_ok op -> kinv k -> at_space pid s k -> sp_dead s = false -> bufs_in s buf -> Forall (mrely pid) e ->
  run_file op k f buf e = Ret (k', r) -> at_space pid s k'.
Proof.
  intros Hop Hk Ha Hd Hb He H. unfold run_file in H. apply bind_Ret_inv in H as ([k1 o] & H1 & H).
  apply (Hop pid s) in H1; [|exact Hk|by apply (at_space_inert lo L kb kareas pid s k); [apply inert_same|]|done..].
  destruct o; simplify_eq; [|done]. eapply at_space_inert; [|exact H1]. by apply inert_same.
Qed.

Lemma at_space_checked_io op pid s k p0 f rq bufs len e k' r :
  file_op_ok op -> kinv k -> at_space pid s k -> sp_dead s = false -> bufs_in s bufs -> Forall (mrely pid) e ->
  (forall q, rq = Some q -> req_operation q <> PipeCreate) ->
  checked_io op k p0 f rq bufs len e = Ret (k', r) -> at_space pid s k'.
Proof.
  intros Hop Hk Ha Hd Hb He Hrq H. unfold checked_io, ret in H. destruct rq as [q|].
  - apply bind_Ret_inv in H as ([k1 p] & H1 & H). pose proof (inert_preflight _ _ _ _ _ H1) as Hi.
    assert (Hk1 : kinv k1).
    { apply task_preflight_plain in H1 as [(w & -> & Hw) _]; [|by apply Hrq]. apply kinv_set_audit; [done|apply Hw, Hk]. }
    apply (at_space_inert lo L kb kareas pid s k k1 Hi) in Ha.
    destruct p as [p|]; [|by simplify_eq]. apply bind_Ret_inv in H as ([k2 o] & H2 & H).
    assert (Ha2 : at_space pid s k2).
    { case_if; [by simplify_eq|]. by eapply at_space_run_file. }
    destruct o; [|by simplify_eq]. apply inert_finish in H. by eapply at_space_inert.
  - case_if; [by simplify_eq|]. apply bind_Ret_inv in H as ([k1 o] & H1 & H).
    assert (Ha1 : at_space pid s k1) by (by eapply at_space_run_file). destruct o; by simplify_eq.
Qed.

(** ** File-descriptor calls *)

Lemma at_sys_write pid s k fd buf len e k' r :
  caller pid s k -> in_width 64 buf -> in_width 64 len -> Forall (mrely pid) e ->
  sys_write k fd buf len e = Ret (k', r) -> at_space pid s k'.
Proof using HL.
  intros Hc Hb Hl He H. pose proof Hc as [Hk Ha Hd _]. unfold sys_write, ret in H.
  apply bind_Ret_inv in H as (tok & Ht & H). apply (caller_token _ _ _ _ Hc) in Ht as ->.
  apply bind_Ret_inv in H as (p & _ & H). apply bind_Ret_inv in H as (t & _ & H). case_if; [by simplify_eq|].
  apply bind_Ret_inv in H as (en & _ & H). destruct en as [file|]; [|by simplify_eq].
  case_if; [by simplify_eq|]. apply bind_Ret_inv in H as (ub & Hub & H). destruct ub as [bufs|er].
  - unfold copy_bytes_from_user in Hub. apply bind_Ret_inv in Hub as ([v|] & Hv & Hub); [|done]. simplify_eq.
    eapply (at_space_checked_io file_write); [apply file_write_ok|exact Hk|exact Ha|exact Hd| |exact He| |exact H].
    + by apply (byte_buffer_in_data lo L kb kareas HL pid s k buf len false).
    + intros q Hq. by rewrite (io_request_op _ _ _ _ _ _ Hq).
  - apply bind_Ret_inv in H as (k1 & H1%inert_record_failure & H). simplify_eq. by eapply at_space_inert.
Qed.

Lemma at_sys_read pid s k fd buf len e k' r :
  caller pid s k -> in_width 64 buf -> in_width 64 len -> Forall (mrely pid) e ->
  sys_read k fd buf len e = Ret (k', r) -> at_space pid s k'.
Proof using HL Hfs.
  intros Hc Hb Hl He H. pose proof Hc as [Hk Ha Hd _]. unfold sys_read, ret in H.
  apply bind_Ret_inv in H as (tok & Ht & H). apply (caller_token _ _ _ _ Hc) in Ht as ->.
  apply bind_Ret_inv in H as (p & _ & H). apply bind_Ret_inv in H as (t & _ & H). case_if; [by simplify_eq|].
  apply bind_Ret_inv in H as (en & _ & H). destruct en as [file|]; [|by simplify_eq].
  case_if; [by simplify_eq|]. apply bind_Ret_inv in H as (ub & Hub & H). destruct ub as [bufs|].
  - eapply (at_space_checked_io file_read); [apply file_read_ok|exact Hk|exact Ha|exact Hd| |exact He| |exact H].
    + by apply (byte_buffer_in_data lo L kb kareas HL pid s k buf len true).
    + intros q Hq. by rewrite (io_request_op _ _ _ _ _ _ Hq).
  - apply bind_Ret_inv in H as (k1 & H1%inert_record_failure & H). simplify_eq. by eapply at_space_inert.
Qed.

Lemma inert_sys_close k fd k' r : sys_close k fd = Ret (k', r) -> inert k k'.
Proof.
  intros H. unfold sys_close, ret in H. inv_ret H; try done. apply task_inner_Ret in Ha0. by apply (inert_put k a a0).
Qed.

Lemma inert_sys_dup k fd k' r : sys_dup k fd = Ret (k', r) -> inert k k'.
Proof.
  intros H. unfold sys_dup, ret in H. inv_ret H; try done; apply task_inner_Ret in Ha0; by apply (inert_put k a a0).
Qed.

Lemma inert_sys_open k path flags k' r : sys_open k path flags = Ret (k', r) -> inert k k'.
Proof.
  intros H. unfold sys_open, ret in H. inv_ret H; try done; apply inert_open_file in Ha2; try done;
    apply task_inner_Ret in Ha3; (etransitivity; [exact Ha2|]); by eapply inert_put.
Qed.

Lemma make_pipe_inert k uid k' r : make_pipe k uid = (k', r) -> inert k k'.
Proof. unfold make_pipe. destruct (allocate_pipe_id _) as [next [e|id]]; intros [= <- <-]; by apply inert_same. Qed.

Lemma at_space_copies pid s k a b bs1 bs2 m1 r1 m2 r2 :
  at_space pid s k -> sp_dead s = false -> in_width 64 a -> in_width 64 b ->
  Z.of_nat (length bs1) < 2 ^ 64 -> Z.of_nat (length bs2) < 2 ^ 64 ->
  copy_to_user (k_mem k) (ms_token (sp_ms s)) a bs1 = Ret (m1, r1) ->
  match r1 with Ok _ => copy_to_user m1 (ms_token (sp_ms s)) b bs2 | Err e => Ret (m1, Err e) end = Ret (m2, r2) ->
  at_space pid s (set_mem k m2).
Proof using HL.
  intros Ha Hd H1 H2 Hl1 Hl2 E1 E2. pose proof (copy_to_user_in_data lo L kb kareas HL pid s k a bs1 m1 r1 Ha Hd H1 Hl1 E1) as Ha1.
  destruct r1; [|by simplify_eq]. change (set_mem k m2) with (set_mem (set_mem k m1) m2).
  by apply (copy_to_user_in_data lo L kb kareas HL pid s (set_mem k m1) b bs2 m2 r2).
Qed.

Lemma at_sys_pipe pid s k ptr k' r :
  caller pid s k -> in_width 64 ptr -> sys_pipe k ptr = Ret (k', r) -> at_space pid s k'.
Proof using HL.
  intros Hc Hp H. pose proof Hc as [Hk Ha Hd _]. unfold sys_pipe in H.
  apply bind_Ret_inv in H as (p & _ & H). apply bind_Ret_inv in H as (tok & Ht & H). apply (caller_token _ _ _ _ Hc) in Ht as ->.
  apply bind_Ret_inv in H as (t & _ & H). apply bind_Ret_inv in H as ([k1 permit] & H1%inert_preflight & H).
  apply (at_space_inert lo L kb kareas pid s k k1 H1) in Ha. destruct permit as [permit|]; [|unfold ret in H; by simplify_eq].
  destruct (make_pipe k1 _) as [k2 made] eqn:Em. apply make_pipe_inert in Em. apply (at_space_inert lo L kb kareas pid s k1 k2 Em) in Ha.
  destruct made as [[pr pw]|]; [|apply inert_finish in H; by eapply at_space_inert].
  apply bind_Ret_inv in H as (t2 & Ht2%task_inner_Ret & H). apply bind_Ret_inv in H as ([rfd tb1] & _ & H).
  apply bind_Ret_inv in H as ([wfd tb2] & _ & H). set (k3 := put_task k2 p (set_fd_table t2 tb2)) in *.
  assert (Ha3 : at_space pid s k3) by (eapply at_space_inert; [by apply (inert_put k2 p t2)|done]).
  apply bind_Ret_inv in H as ([m1 r1] & E1 & H). apply bind_Ret_inv in H as ([m2 r2] & E2 & H).
  assert (Ha4 : at_space pid s (set_mem k3 m2)).
  { eapply (at_space_copies pid s k3 ptr (wrap 64 (ptr + 8))); [done..|by apply wrap_in_width| | |exact E1|exact E2];
      rewrite length_le_bytes by lia; done. }
  apply bind_Ret_inv in H as (t4 & Ht4%task_inner_Ret & H). destruct r2 as [u|er].
  - apply inert_finish in H. eapply at_space_inert; [etransitivity; [|exact H]|exact Ha4]. by apply (inert_put _ p t4).
  - apply bind_Ret_inv in H as (tb3 & _ & H). apply bind_Ret_inv in H as (tb4 & _ & H). apply inert_finish in H.
    eapply at_space_inert; [etransitivity; [|exact H]|exact Ha4]. by apply (inert_put _ p t4).
Qed.

(** ** Signals, credentials, time *)

Lemma inert_sys_kill k pid sig k' r : sys_kill k pid sig = Ret (k', r) -> inert k k'.
Proof.
  intros H. unfold sys_kill, ret in H. case_if; [by simplify_eq|]. destruct (sig_from_bits _) as [flag|]; [|by simplify_eq].
  destruct (pid2task k pid) as [tgt|]; [|by simplify_eq]. apply bind_Ret_inv in H as (p & _ & H).
  apply bind_Ret_inv in H as (ti & _ & H). apply bind_Ret_inv in H as (t & _ & H).
  apply bind_Ret_inv in H as ([k1 permit] & H1%inert_preflight & H). destruct permit as [permit|]; [|by simplify_eq].
  apply bind_Ret_inv in H as (t2 & Ht2%task_inner_Ret & H).
  match type of H with (let '(_, _) := ?x in _) = _ => destruct x as [k2 out] eqn:E2 end.
  assert (Hi2 : inert k1 k2) by (case_if; simplify_eq; [done|by apply (inert_put k1 tgt t2)]).
  apply bind_Ret_inv in H as ([k3 o] & H3%inert_complete & H). assert (Hi : inert k k3) by (etransitivity; [exact H1|]; by etransitivity).
  destruct o; by simplify_eq.
Qed.

Lemma inert_sys_sigprocmask k m k' r : sys_sigprocmask k m = Ret (k', r) -> inert k k'.
Proof.
  intros H. unfold sys_sigprocmask, ret in H. inv_ret H; try done. apply task_inner_Ret in Ha. by apply (inert_put k z a).
Qed.

Lemma inert_sys_setuid k uid k' r : sys_setuid k uid = Ret (k', r) -> inert k k'.
Proof.
  intros H. unfold sys_setuid, ret in H. apply bind_Ret_inv in H as ([p t] & Hc & H). apply current_inner_Ret in Hc as [_ Ht].
  repeat case_if; simplify_eq; try done; by apply (inert_put k p t).
Qed.

Lemma inert_sys_get_time k k' r : sys_get_time k = Ret (k', r) -> inert k k'.
Proof. intros H. unfold sys_get_time, ret in H. apply bind_Ret_inv in H as ([ms t] & _ & H). simplify_eq. by apply inert_same. Qed.

Lemma length_encode_action a : length (encode_action a) = 16%nat.
Proof. unfold encode_action. rewrite !length_app, !length_le_bytes by lia. done. Qed.

Lemma at_sys_sigaction pid s k sig a o k' r :
  caller pid s k -> in_width 64 o -> sys_sigaction k sig a o = Ret (k', r) -> at_space pid s k'.
Proof using HL.
  intros Hc Ho H. pose proof Hc as [Hk Ha Hd _]. unfold sys_sigaction, ret in H.
  apply bind_Ret_inv in H as (tok & Ht & H). apply (caller_token _ _ _ _ Hc) in Ht as ->.
  apply bind_Ret_inv in H as ([p t] & Hi & H). apply (caller_inner _ _ _ _ _ Hc) in Hi as (-> & Ht & _).
  case_if; [by simplify_eq|]. destruct (sig_from_bits _); [|by simplify_eq]. case_if; [by simplify_eq|].
  apply bind_Ret_inv in H as (prev & _ & H). apply bind_Ret_inv in H as (nw & _ & H). destruct nw as [bs|]; [|by simplify_eq].
  apply bind_Ret_inv in H as ([m r1] & Ecp & H).
  assert (Ha1 : at_space pid s (set_mem k m)).
  { eapply (copy_to_user_in_data lo L kb kareas HL pid s k o); [done..| |exact Ecp]. by rewrite length_encode_action. }
  destruct r1; [|by simplify_eq]. apply bind_Ret_inv in H as (tb & _ & H). simplify_eq.
  eapply at_space_inert; [|exact Ha1]. by apply (inert_put _ pid t).
Qed.

(** A saved context comes and goes. *)
Lemma at_space_put_backup pid s k t t' :
  at_space pid s k -> k_tasks k !! pid = Some t -> (task_view t').1 = (task_view t).1 -> backup_ok (trap_ctx_backup t') ->
  at_space pid s (put_task k pid t').
Proof.
  intros [[(stks & Hw & Hst) Hb] Hs] Ht Hv Hbk.
  assert (Esp : spaces (put_task k pid t') = spaces k).
  { unfold spaces, views, put_task, set_tasks, k_tasks in *. cbn. rewrite !fmap_insert, insert_id; [done|]. by rewrite !lookup_fmap, Ht, Hv. }
  split; [|by rewrite Esp]. split; [exists stks; rewrite Esp; done|].
  unfold views, put_task, set_tasks, k_tasks in *. cbn. rewrite fmap_insert. by apply map_Forall_insert_2.
Qed.

Lemma task_backup_ok pid s k t : at_space pid s k -> k_tasks k !! pid = Some t -> backup_ok (trap_ctx_backup t).
Proof. intros [[_ Hb] _] Ht. apply (Hb pid (task_view t)). unfold views. by rewrite lookup_fmap, Ht. Qed.

Lemma at_sys_sigreturn pid s k k' r : caller pid s k -> sys_sigreturn k = Ret (k', r) -> at_space pid s k'.
Proof.
  intros Hc H. pose proof Hc as [Hk Ha Hd Hcur]. unfold sys_sigreturn, ret in H. rewrite Hcur in H.
  apply bind_Ret_inv in H as (t & Ht%task_inner_Ret & H). apply bind_Ret_inv in H as (cx & Hcx%unwrap_Ret & H). simplify_eq.
  pose proof (caller_space pid s k t Ha Ht) as Es.
  assert (Ha1 : at_space pid s (put_task k pid (set_handling_sig t (-1)))) by (eapply at_space_inert; [by apply (inert_put k pid t)|done]).
  pose proof (task_backup_ok pid s k t Ha Ht cx Hcx) as Hl. rewrite Es in Ha1, Hd |- *.
  exact (at_space_trap_cx lo L kb kareas pid (task_view t).1 _ cx Ha1 Hd Hl).
Qed.

Lemma at_current_add_signal pid s k sig k' : caller pid s k -> current_add_signal k sig = Ret k' -> at_space pid s k'.
Proof.
  intros Hc H. unfold current_add_signal in H. apply bind_Ret_inv in H as ([p t] & Hi & H). simplify_eq.
  apply (caller_inner _ _ _ _ _ Hc) in Hi as (-> & Ht & _). eapply caller_inert; [|exact Hc]. by apply (inert_put k pid t).
Qed.

Lemma kernel_effect_view t sig : task_view (kernel_signal_effect t sig) = task_view t.
Proof. unfold kernel_signal_effect. by repeat case_if. Qed.

Lemma at_check_signal pid s k sig k' b :
  caller pid s k -> check_signal k sig = Ret (k', b) -> at_space pid s k' /\ current_task k' = Some pid.
Proof.
  intros Hc H. pose proof Hc as [Hk Ha Hd Hcur]. unfold check_signal in H. apply bind_Ret_inv in H as ([p t] & Hi & H).
  apply (caller_inner _ _ _ _ _ Hc) in Hi as (-> & Ht & Es). apply bind_Ret_inv in H as (signal & _ & H).
  case_if; [|by simplify_eq]. apply bind_Ret_inv in H as (masked & _ & H). case_if; [|by simplify_eq].
  case_if; apply bind_Ret_inv in H as (k2 & H2 & H); simplify_eq.
  - unfold call_kernel_signal_handler in H2. apply bind_Ret_inv in H2 as ([p2 t2] & Hi & H2). simplify_eq.
    apply (caller_inner _ _ _ _ _ Hc) in Hi as (-> & Ht2 & _). split; [|done]. eapply at_space_inert; [|exact Ha].
    apply (inert_put k pid t2); [done|apply kernel_effect_view].
  - unfold call_user_signal_handler in H2. apply bind_Ret_inv in H2 as ([p2 t2] & Hi & H2).
    apply (caller_inner _ _ _ _ _ Hc) in Hi as (-> & Ht2 & _). assert (t2 = t) as -> by congruence. apply bind_Ret_inv in H2 as (act & _ & H2).
    case_if; [|by simplify_eq]. simplify_eq. split; [|done].
    match goal with |- at_space _ _ (set_mem (put_task _ _ ?t3) (store_trap_cx _ _ ?cx)) =>
      assert (Ha1 : at_space pid (task_view t).1 (put_task k pid t3));
      [|apply (at_space_trap_cx lo L kb kareas pid (task_view t).1 (put_task k pid t3) cx Ha1 Hd)] end.
    + apply (at_space_put_backup pid (task_view t).1 k t); [done..|]. intros cx [= <-]. apply length_load_trap_cx.
    + rewrite length_set_x. exact (length_load_trap_cx (k_mem k) (trap_cx_ppn t)).
Qed.

Lemma caller_step pid s k k' : caller pid s k -> kinv k' -> at_space pid s k' -> current_task k' = Some pid -> caller pid s k'.
Proof. by intros [_ _ Hd _]. Qed.

Lemma at_check_signals pid s k sigs k' : caller pid s k -> check_signals k sigs = Ret k' -> caller pid s k'.
Proof.
  revert k. induction sigs as [|sig sigs IH]; intros k Hc H; cbn in H; [by simplify_eq|].
  apply bind_Ret_inv in H as ([k1 b] & H1 & H). pose proof (kinv_check_signal _ _ _ _ (ca_inv _ _ _ Hc) H1) as Hk1.
  destruct (at_check_signal pid s k sig k1 b Hc H1) as [Ha1 Hc1].
  assert (Hcl : caller pid s k1) by (by apply (caller_step pid s k)). destruct b; [by simplify_eq|]. by apply (IH k1).
Qed.

Lemma caller_suspend pid s k f k' : caller pid s k -> mrely pid f -> suspend_current_and_run_next k f = Ret k' -> caller pid s k'.
Proof.
  intros Hc Hf E. pose proof Hc as [Hk Ha Hd Hcur]. destruct (at_space_suspend_and_run lo L kb kareas pid s k f k' Hk Ha Hd Hf E) as [Hk' Ha'].
  apply (caller_step pid s k); [done..|]. unfold suspend_current_and_run_next in E.
  apply bind_Ret_inv in E as (k1 & _ & E). apply bind_Ret_inv in E as (o & _ & E). destruct o as [k2|]; [|done].
  case_bool_decide as Ec; simplify_eq. congruence.
Qed.

Lemma at_handle_signals pid s k e k' b : caller pid s k -> Forall (mrely pid) e -> handle_signals k e = Ret (k', b) -> caller pid s k'.
Proof.
  intros Hc He. revert k Hc. induction He as [|f e Hf He IH]; intros k Hc H; cbn in H;
    apply bind_Ret_inv in H as (k1 & H1 & H); apply (at_check_signals pid s) in H1; try done;
    apply bind_Ret_inv in H as ([p t] & _ & H); (case_if; [by simplify_eq|]); [by simplify_eq|].
  apply bind_Ret_inv in H as (k2 & H2 & H). apply (IH k2); [|done]. by eapply caller_suspend.
Qed.

Lemma at_sys_yield pid s k e k' r : caller pid s k -> Forall (mrely pid) e -> sys_yield k e = Ret (k', r) -> at_space pid s k'.
Proof.
  intros Hc He H. unfold sys_yield, ret in H. destruct He as [|f e Hf He]; apply bind_Ret_inv in H as (k1 & H1 & H); simplify_eq.
  - destruct (inert_suspend k k' (ca_inv _ _ _ Hc) H1) as [Hi _]. by eapply caller_inert.
  - by apply (caller_suspend pid s k f).
Qed.

(** ** The audit calls *)

Lemma at_space_same_mem pid s k : at_space pid s k -> at_space pid s (set_mem k (k_mem k)).
Proof. intros Ha. eapply at_space_inert; [|exact Ha]. apply inert_same; [|done..]. unfold set_mem, k_mem. cbn. by destruct (k_fw k). Qed.

Lemma at_copy_records pid s k start batch n : forall idx m r,
  at_space pid s k -> sp_dead s = false ->
  copy_records (k_mem k) (ms_token (sp_ms s)) start batch idx n = Ret (m, r) -> at_space pid s (set_mem k m).
Proof using HL.
  revert k. induction n as [|n IH]; intros k idx m r Ha Hd H; cbn [copy_records] in H.
  { simplify_eq. by apply at_space_same_mem. }
  destruct (record_at batch idx) as [rec|].
  2:{ simplify_eq. by apply at_space_same_mem. }
  apply bind_Ret_inv in H as ([m1 r1] & E1 & H).
  assert (Ha1 : at_space pid s (set_mem k m1)).
  { eapply (copy_to_user_in_data lo L kb kareas HL pid s k); [done|done| | |exact E1]; [by apply wrap_in_width|by rewrite length_encode_record]. }
  destruct r1 as [u|]; [|by simplify_eq]. change (set_mem k m) with (set_mem (set_mem k m1) m). by eapply IH.
Qed.

Lemma at_sys_audit_read pid s k a b c k' r : caller pid s k -> sys_audit_read k a b c = Ret (k', r) -> at_space pid s k'.
Proof using HL.
  intros Hc H. pose proof Hc as [_ Ha Hd _]. unfold sys_audit_read in H. apply bind_Ret_inv in H as ([subj tok] & Ht & H).
  apply bind_Ret_inv in H as ([m out] & E & H). apply inert_finish_control in H. eapply at_space_inert; [exact H|].
  unfold caller_context in Ht. apply bind_Ret_inv in Ht as ([p t] & Hi & Ht). apply (caller_inner _ _ _ _ _ Hc) in Hi as (-> & _ & Es).
  simplify_eq. unfold read_records in E. destruct (check_permission _); [|simplify_eq; by apply at_space_same_mem].
  case_if; [simplify_eq; by apply at_space_same_mem|]. apply bind_Ret_inv in E as (batch & _ & E).
  case_if; [simplify_eq; by apply at_space_same_mem|].
  destruct (check_output_range _ _ _); [|simplify_eq; by apply at_space_same_mem].
  apply bind_Ret_inv in E as ([m1 r1] & E & E'). assert (m = m1) as -> by (destruct r1; by simplify_eq).
  exact (at_copy_records pid (task_view t).1 k _ _ _ _ _ _ Ha Hd E).
Qed.

Lemma at_sys_ipc_stat pid s k a b c k' r : caller pid s k -> in_width 64 a -> sys_ipc_stat k a b c = Ret (k', r) -> at_space pid s k'.
Proof using HL.
  intros Hc Hw H. pose proof Hc as [_ Ha Hd _]. unfold sys_ipc_stat in H. apply bind_Ret_inv in H as ([subj tok] & Ht & H).
  apply bind_Ret_inv in H as ([m out] & E & H). apply inert_finish_control in H. eapply at_space_inert; [exact H|].
  unfold caller_context in Ht. apply bind_Ret_inv in Ht as ([p t] & Hi & Ht). apply (caller_inner _ _ _ _ _ Hc) in Hi as (-> & _ & Es).
  simplify_eq. unfold read_stats in E. destruct (check_permission _); [|simplify_eq; by apply at_space_same_mem].
  case_if; [simplify_eq; by apply at_space_same_mem|].
  destruct (check_output_range _ _ _); [|simplify_eq; by apply at_space_same_mem].
  apply bind_Ret_inv in E as (snap & _ & E). apply bind_Ret_inv in E as ([m1 r1] & E & E').
  assert (m = m1) as -> by (destruct r1; by simplify_eq).
  eapply (copy_to_user_in_data lo L kb kareas HL pid (task_view t).1 k a); [done..| |exact E]. unfold encode_stats. by rewrite !length_app, !length_le_bytes by lia.
Qed.

End SyscallMem.
