(* ===== verification/ForkSpec.v ===== *)
(** * [fork], from the parent's pages to the child's first return

    The whole call: the child's space, its kernel stack, its trap context and
    its entry in the task table, under the memory invariant of the kernel. *)
From S2P Require Import Prelude IpcApi Quota Timer AuditLog AuditFacts Facade.
From S2P Require Import Address Allocators PageTable PageTableFacts MemorySet MemorySetInv MemorySetSpec MemorySetFork FrameWorldInv.
From S2P Require Import Signals UserAccess UserAccessFacts Pipe Task Kernel.
From S2P Require Import SyscallFs SignalHandling SyscallProcess SyscallAudit Trap KernelInv CallSpecs LifecycleInv TrapInv SignalFacts ExecArgs ExecSpec KernelMem SyscallMem.
Import Audit Address Mem PageTable MemorySet Signals UserAccess Task Kernel SyscallFs SignalHandling SyscallProcess Trap.

(** ** Pages of a space *)

Lemma pair_page lo base w ms lab gs u f :
  space_at lo base w ms lab gs -> (u, f) ∈ space_pairs (areas ms) ->
  ppn_ok f /\ (exists pte, translate (fw_mem w) (page_table ms) u = Some pte /\ pte_ppn pte = f) /\
  exists g, g ∈ gs /\ in_region g u.
Proof.
  intros Hsp Hin. pose proof Hsp as [Hok Hlay _].
  assert (Hf : f ∈ space_frames (areas ms)) by (rewrite <- space_pairs_frames; apply list_elem_of_fmap; by exists (u, f)).
  destruct (frames_disjoint _ _ _ _ _ _ f (so_frames _ _ _ _ _ Hok) Hf) as (_ & _ & Hfo). split; [done|].
  unfold space_pairs in Hin. apply list_elem_of_In, in_concat in Hin as (l & Hl & Hin).
  apply list_elem_of_In, list_elem_of_fmap in Hl as (a & -> & Ha). apply list_elem_of_In in Hin.
  destruct (laid_out_regions _ _ _ a Hlay Ha) as (g & fs & Hg & -> & Hn). cbn in Hin.
  apply list_elem_of_lookup in Hin as [i Hi]. apply lookup_zip_with_Some in Hi as (x & y & [= <- <-] & Hx & Hy).
  apply lookup_seqZ in Hx as [-> Hx].
  destruct (area_translate lo base w ms lab (rg_l g) (rg_r g) (rg_perm g) fs i f Hok Ha Hn Hy) as (Ht & Hp & _).
  split; [by eexists|]. exists g. split; [done|]. unfold in_region. lia.
Qed.

Lemma trap_frame_of_pair lo base w ms lab gs f :
  space_at lo base w ms lab gs -> (TRAP_CONTEXT_VPN, f) ∈ space_pairs (areas ms) -> trap_cx_frame (fw_mem w) ms = Ret f.
Proof.
  intros Hsp Hin. destruct (pair_page _ _ _ _ _ _ _ _ Hsp Hin) as (_ & (pte & Ht & Hp) & _). unfold trap_cx_frame.
  assert (Ev : page_num_from_addr (VirtAddr_from TRAP_CONTEXT) = Ret TRAP_CONTEXT_VPN) by (by vm_compute).
  rewrite Ev. cbn [mbind outcome_bind]. unfold ms_translate. rewrite Ht. cbn [unwrap mbind outcome_bind]. by rewrite Hp.
Qed.

Lemma pair_inj lo base w ms lab gs u v f :
  space_at lo base w ms lab gs -> (u, f) ∈ space_pairs (areas ms) -> (v, f) ∈ space_pairs (areas ms) -> u = v.
Proof.
  intros [[Hf _] _ _]. apply NoDup_snd_inj. rewrite space_pairs_frames.
  pose proof (fo_nodup _ _ _ _ _ _ Hf) as Hnd. by apply NoDup_app in Hnd as (_ & _ & ?).
Qed.

(** The copy of a page. *)
Lemma copied_at lo L w src dst lab1 lab2 gs u f :
  copying lo L w src dst lab1 lab2 gs gs -> (u, f) ∈ space_pairs (areas src) ->
  exists f', (u, f') ∈ space_pairs (areas dst) /\ ppn_ok f' /\
    forall i, 0 <= i < 4096 -> load (fw_mem w) (f' * 4096 + i) = load (fw_mem w) (f * 4096 + i).
Proof.
  intros Hc Hin. pose proof Hc as [Hs Hd _]. destruct (pair_page _ _ _ _ _ _ _ _ Hs Hin) as (_ & _ & g & Hg & Hu).
  assert (Hb : forall i, 0 <= i < 4096 -> exists f', (u, f') ∈ space_pairs (areas dst) /\ ppn_ok f' /\
            load (fw_mem w) (f' * 4096 + i) = load (fw_mem w) (f * 4096 + i)).
  { intros i Hi. set (a := u * 4096 + i). assert (Ea : a / 4096 = u /\ a mod 4096 = i) by (unfold a; lia_mod). destruct Ea as [Ea Em].
    assert (Hr : rg_l g * 4096 <= a < rg_r g * 4096) by (unfold in_region, a in *; lia).
    destruct (region_byte lo (user_base L) w src lab1 gs g a Hs Hg Hr) as (f1 & Hp1 & _ & E1 & _).
    destruct (region_byte lo (user_base L) w dst lab2 gs g a Hd Hg Hr) as (f2 & Hp2 & Hf2 & E2 & _).
    destruct (same_regions_byte lo L w src dst lab1 lab2 gs g a Hc Hg Hr) as [Hl _]. rewrite E1, E2 in Hl. rewrite Ea, Em in *.
    exists f2. split_and!; [done..|]. rewrite Hl. do 2 f_equal. f_equal.
    destruct (pair_page _ _ _ _ _ _ _ _ Hs Hp1) as (_ & (p1 & Ht1 & <-) & _).
    destruct (pair_page _ _ _ _ _ _ _ _ Hs Hin) as (_ & (p2 & Ht2 & <-) & _). congruence. }
  destruct (Hb 0) as (f' & Hp & Hf & _); [lia|]. exists f'. split_and!; [done..|]. intros i Hi.
  destruct (Hb i Hi) as (f2 & Hp2 & _ & Hl).
  destruct (pair_page _ _ _ _ _ _ _ _ Hd Hp) as (_ & (p1 & Ht1 & <-) & _).
  destruct (pair_page _ _ _ _ _ _ _ _ Hd Hp2) as (_ & (p2 & Ht2 & <-) & _).
  assert (p1 = p2) as -> by congruence. done.
Qed.

Lemma private_copied lo L w src dst lab1 lab2 gs :
  copying lo L w src dst lab1 lab2 gs gs -> trap_page_private (areas src) -> trap_page_private (areas dst).
Proof.
  intros [[_ Hs _] [_ Hd _] _] H. apply Forall_forall. intros a Ha Hc.
  destruct (laid_out_regions _ _ _ a Hd Ha) as (g & fs & Hg & -> & _).
  destruct (laid_out_area _ _ _ g Hs Hg) as (fs' & Hin & _). by apply (proj1 (Forall_forall _ _) H (region_area g fs')).
Qed.

(** Translations follow from the table frames. *)
Lemma space_same_view lo base w ms lab m' :
  space_ok lo base w ms lab -> (forall f x, f ∈ pt_frames (page_table ms) -> in_frame f x -> load m' x = load (fw_mem w) x) ->
  forall a, phys_of m' (page_table ms) a = phys_of (fw_mem w) (page_table ms) a /\
    forall write, user_byte_ok m' (page_table ms) write a <-> user_byte_ok (fw_mem w) (page_table ms) write a.
Proof.
  intros [Hf _] Hx a. pose proof (fo_pt _ _ _ _ _ _ Hf) as Hpt.
  assert (Ht : translate m' (page_table ms) (a / 4096) = translate (fw_mem w) (page_table ms) (a / 4096)).
  { apply (translate_ext _ _ _ (pt_frames (page_table ms)) lab); [apply Hpt|]. intros f x Hl. apply Hx.
    by apply (pw_dom _ _ _ _ (po_wf _ _ _ _ Hpt)). }
  unfold phys_of, user_byte_ok. by rewrite Ht.
Qed.

Lemma load_words_ext m m' a b n :
  (forall i, 0 <= i < 8 * Z.of_nat n -> load m' (b + i) = load m (a + i)) -> load_words m' b n = load_words m a n.
Proof.
  revert a b. induction n as [|n IH]; intros a b H; [done|]. cbn [load_words]. f_equal.
  - unfold load_u64. f_equal. rewrite !load_bytes_fmap. apply list_eq. intros i. rewrite !list_lookup_fmap.
    destruct (decide (i < 8)%nat) as [Hi|Hi].
    + rewrite !lookup_seqZ_lt by lia. cbn. f_equal. apply H. lia.
    + rewrite !lookup_seqZ_ge by lia. done.
  - apply IH. intros i Hi. rewrite <- !Z.add_assoc. apply H. lia.
Qed.

Lemma load_trap_cx_ext m m' f g :
  ppn_ok f -> ppn_ok g -> (forall i, 0 <= i < 4096 -> load m' (g * 4096 + i) = load m (f * 4096 + i)) ->
  load_trap_cx m' g = load_trap_cx m f.
Proof.
  intros Hf Hg H. unfold load_trap_cx. f_equal. rewrite !frame_base_mul by done. apply load_words_ext. intros i Hi. apply H. lia.
Qed.

Lemma trap_cx_wf_kernel_sp cx v : trap_cx_wf cx -> in_width 64 v -> trap_cx_wf (set_kernel_sp cx v).
Proof.
  intros [Hl Hw] Hv. split; [done|]. unfold trap_cx_words, set_kernel_sp in *. cbn [cx_x sstatus sepc kernel_satp kernel_sp trap_handler].
  apply Forall_app in Hw as [Hx Hr]. apply Forall_app. split; [done|]. rewrite !Forall_cons in *. tauto.
Qed.
(** ** The call *)

Section Fork.
Context {F : Type} {FS : FileSystem F}.
Variable P : Platform.
Variable lo : Z.
Variable kb : list (Z * Z).
Variable kareas : list MapArea.
Hypothesis Hkl : kernel_layout kb kareas.
Hypothesis HL : trampoline_ok (linker P).
Implicit Type k : Kernel F.
Abbreviation L := (linker P).
Abbreviation mem_inv := (KernelMem.mem_inv lo L kb kareas).
Abbreviation at_space := (KernelMem.at_space lo L kb kareas).

Definition task_pages k (t : TaskControlBlockInner) : Z := regions_pages (area_region (k_mem k) <$> areas (memory_set t)).

(** The state between the two halves of [tcb_fork]: the child's space is
    there. *)
Record forked_space k (pid : Z) (t : TaskControlBlockInner) (dst : MemorySet) (w : FrameWorld) (cxf : Z) : Prop := {
  fk_call : from_existed_user L (k_fw k) (memory_set t) = Ret (dst, w);
  fk_frame : trap_cx_frame (fw_mem w) dst = Ret cxf;
  fk_pair : (TRAP_CONTEXT_VPN, cxf) ∈ space_pairs (areas dst);
  fk_copy : exists lab lab' gs, space_at lo (user_base L) (k_fw k) (memory_set t) lab gs /\
    copying lo L w (memory_set t) dst lab lab' gs gs;
  fk_effect : ms_effect lo (k_fw k) w {| root_ppn := root_ppn (page_table dst); pt_frames := [] |} (page_table dst) (space_frames (areas dst));
  fk_avail : avail (fw_alloc (k_fw k)) - (3 * task_pages k t + 3) <= avail (fw_alloc w);
  fk_context : load_trap_cx (fw_mem w) cxf = load_trap_cx (k_mem k) (trap_cx_ppn t);
  fk_private : trap_page_private (areas dst);
}.

Lemma fork_space k pid t :
  at_space pid (task_view t).1 k -> is_zombie t = false -> 3 * task_pages k t + 3 <= avail (fw_alloc (k_fw k)) ->
  exists dst w cxf, forked_space k pid t dst w cxf.
Proof using HL.
  intros Ha Hz Hav. destruct Ha as [[(stks & Hw & _) _] Hs].
  destruct (wo_fine _ _ _ _ _ _ _ _ Hw pid _ Hs) as (base & lab & Hok & Hd). destruct (Hd Hz) as (-> & Hb & Hp & Hpr). cbn [sp_ms sp_cx task_view fst] in *.
  pose proof (space_has_layout _ _ _ _ _ Hok Hb) as Hsp. unfold task_pages, k_mem in *.
  destruct (from_existed_user_spec lo L (k_fw k) (memory_set t) lab _ Hsp HL Hav) as (dst & w & lab' & fs & E & Hc & Heff & Hfs & Hav').
  destruct (copied_at _ _ _ _ _ _ _ _ _ _ Hc Hp) as (cxf & Hp' & Hf' & Hbytes). subst fs.
  exists dst, w, cxf. split; [done|by eapply trap_frame_of_pair; [apply Hc|]|done|by exists lab, lab', (area_region (fw_mem (k_fw k)) <$> areas (memory_set t))|done|done| |by apply (private_copied lo L w (memory_set t) dst lab lab' _ Hc)].
  destruct (pair_page _ _ _ _ _ _ _ _ Hsp Hp) as (Hf & _). apply load_trap_cx_ext; [done..|]. intros i Hi. rewrite Hbytes by done.
  apply (ms_effect_keeps lo (k_fw k) w _ _ _ (trap_cx_ppn t) _ Heff); [|apply not_elem_of_nil|unfold in_frame; lia].
  apply (ms_frames_live lo (user_base L) (k_fw k) (memory_set t) lab); [done|]. apply elem_of_app. right.
  rewrite <- space_pairs_frames. apply list_elem_of_fmap. by exists (TRAP_CONTEXT_VPN, trap_cx_ppn t).
Qed.

Lemma fork_world k pid t dst w cxf c stks :
  world_ok lo L kb kareas (k_fw k) (KERNEL_SPACE k) stks (spaces k) -> spaces k !! c = None -> c ∉ stks.*1 -> pid_ok c ->
  forked_space k pid t dst w cxf -> 6 <= avail (fw_alloc w) ->
  exists KS' w' fs,
    insert_framed_area w (KERNEL_SPACE k) (VirtAddr_from (Pids.kernel_stack_position c).1) (VirtAddr_from (Pids.kernel_stack_position c).2)
      KSTACK_PERM = Ret (KS', w') /\
    world_ok lo L kb kareas w' KS' (stks ++ [(c, fs)]) (<[c := mkSpace dst cxf false]> (spaces k)) /\
    (forall f x, f ∈ ms_frames dst -> in_frame f x -> load (fw_mem w') x = load (fw_mem w) x) /\
    (forall q s f x, spaces k !! q = Some s -> f ∈ ms_frames (sp_ms s) -> in_frame f x -> load (fw_mem w') x = load (k_mem k) x).
Proof using Hkl.
  intros Hw Hn Hnst Hc Hfk Hav. pose proof Hfk as [_ _ Hpair (lab & lab' & gs & Hsp & Hcp) Heff _ _ Hpr].
  pose proof (cp_dst _ _ _ _ _ _ _ _ _ Hcp) as Hd.
  assert (Hw1 : world_ok lo L kb kareas w (KERNEL_SPACE k) stks (<[c := mkSpace dst cxf false]> (spaces k))).
  { apply (world_add lo L kb kareas (k_fw k) w _ _ _ c _ (space_frames (areas dst))); try done; [|by eapply space_at_wf].
    exists (user_base L), lab'. split; [apply Hd|]. intros _. split_and!; [done|by eapply space_at_below|done|done]. }
  destruct (world_stack_push lo L kb kareas Hkl w (KERNEL_SPACE k) stks _ c Hw1 Hc Hnst Hav) as (fs & KS' & w' & E & Hw2 & Heff2 & _).
  assert (Hkeep : forall q s f x, <[c := mkSpace dst cxf false]> (spaces k) !! q = Some s -> f ∈ ms_frames (sp_ms s) -> in_frame f x ->
            load (fw_mem w') x = load (fw_mem w) x).
  { intros q s f x Hq Hin. apply (ms_effect_keeps lo w w' _ _ fs f x Heff2).
    - apply (world_live lo L kb kareas w _ _ _ f Hw1). right. by exists q, s.
    - intros Hin'. apply (wo_kapart _ _ _ _ _ _ _ _ Hw1 q s f Hq Hin). apply elem_of_app. by left. }
  exists KS', w', fs. split_and!; [done|done| |].
  - intros f x Hin. apply (Hkeep c (mkSpace dst cxf false)); [apply lookup_insert_eq|done].
  - intros q s f x Hq Hin Hx. rewrite (Hkeep q s f x); [|rewrite lookup_insert_ne; [done|intros ->; congruence]|done|done].
    apply (ms_effect_keeps lo (k_fw k) w _ _ _ f x Heff); [|apply not_elem_of_nil|done].
    apply (world_live lo L kb kareas (k_fw k) _ _ _ f Hw). right. by exists q, s.
Qed.

(** ** Both returns *)

(** The child's memory, in the final state, against the parent's before the
    call. *)
Record forked_memory (m m' : PhysMem) (src dst : MemorySet) : Prop := {
  fm_mapped : forall a, mapped dst a <-> mapped src a;
  fm_rights : forall a write, 0 <= a < 2 ^ 39 -> user_byte_ok m' (page_table dst) write a <-> user_byte_ok m (page_table src) write a;
  fm_bytes : forall a, mapped src a -> a / 4096 <> TRAP_CONTEXT_VPN ->
    load m' (phys_of m' (page_table dst) a) = load m (phys_of m (page_table src) a);
  fm_apart : forall a b, mapped src a -> mapped dst b -> phys_of m' (page_table src) a <> phys_of m' (page_table dst) b;
}.

Lemma forked_memory_of k pid t dst w cxf m' :
  forked_space k pid t dst w cxf ->
  (forall f x, f ∈ ms_frames dst -> in_frame f x -> ~ in_frame cxf x -> load m' x = load (fw_mem w) x) ->
  (forall f x, f ∈ ms_frames (memory_set t) -> in_frame f x -> load m' x = load (k_mem k) x) ->
  forked_memory (k_mem k) m' (memory_set t) dst.
Proof using HL.
  intros [_ _ Hpair (lab & lab' & gs & Hsp & Hcp) Heff _ _ _] Hdst Hsrc. unfold k_mem in *. pose proof Hcp as [Hs1 Hd Hap].
  assert (Hold : forall f x, f ∈ ms_frames (memory_set t) -> in_frame f x -> load (fw_mem w) x = load (fw_mem (k_fw k)) x).
  { intros f x Hf. apply (ms_effect_keeps lo (k_fw k) w _ _ _ f x Heff); [|apply not_elem_of_nil].
    apply (ms_frames_live lo (user_base L) (k_fw k) (memory_set t) lab); [apply Hsp|done]. }
  pose proof (space_same_view _ _ _ _ _ (fw_mem w) (sa_ok _ _ _ _ _ _ Hsp)) as V1.
  pose proof (space_same_view _ _ _ _ _ m' (sa_ok _ _ _ _ _ _ Hsp)) as V2.
  pose proof (space_same_view _ _ _ _ _ m' (sa_ok _ _ _ _ _ _ Hd)) as V3.
  specialize (V1 ltac:(intros f x Hf; apply (Hold f); apply elem_of_app; by left)).
  specialize (V2 ltac:(intros f x Hf; apply (Hsrc f); apply elem_of_app; by left)).
  assert (Hcx : cxf ∈ space_frames (areas dst)).
  { rewrite <- space_pairs_frames. apply list_elem_of_fmap. by exists (TRAP_CONTEXT_VPN, cxf). }
  assert (Hno : cxf ∉ pt_frames (page_table dst)) by (by destruct (frames_disjoint _ _ _ _ _ _ cxf (so_frames _ _ _ _ _ (sa_ok _ _ _ _ _ _ Hd)) Hcx)).
  assert (V3' : forall a, phys_of m' (page_table dst) a = phys_of (fw_mem w) (page_table dst) a /\
            forall write, user_byte_ok m' (page_table dst) write a <-> user_byte_ok (fw_mem w) (page_table dst) write a).
  { apply V3. intros f x Hf Hx. apply (Hdst f); [apply elem_of_app; by left|done|].
    intros Hx'. assert (f = cxf) as -> by (by eapply in_frame_inj). done. }
  clear V3.
  assert (Hm : forall a, mapped (memory_set t) a <-> exists g, g ∈ gs /\ rg_l g * 4096 <= a < rg_r g * 4096) by (intros a; by apply (mapped_region lo (user_base L) (k_fw k) (memory_set t) lab)).
  assert (Hm' : forall a, mapped dst a <-> exists g, g ∈ gs /\ rg_l g * 4096 <= a < rg_r g * 4096) by (intros a; by apply (mapped_region lo (user_base L) w dst lab')).
  split.
  - intros a. by rewrite Hm, Hm'.
  - intros a write Ha. rewrite (proj2 (V3' a)), <- (proj2 (V1 a)). split; intros Hu.
    + destruct (user_byte_region lo L w dst lab' gs a write Hd HL Ha Hu) as (g & Hg & Hr).
      by apply (same_regions_byte lo L w (memory_set t) dst lab lab' gs g a Hcp Hg Hr).
    + destruct (user_byte_region lo L w (memory_set t) lab gs a write Hs1 HL Ha Hu) as (g & Hg & Hr).
      by apply (same_regions_byte lo L w (memory_set t) dst lab lab' gs g a Hcp Hg Hr).
  - intros a (g & Hg & Hr)%Hm Hne. rewrite (proj1 (V3' a)), <- (proj1 (V1 a)).
    destruct (same_regions_byte lo L w (memory_set t) dst lab lab' gs g a Hcp Hg Hr) as [Hl _].
    destruct (region_byte lo (user_base L) w dst lab' gs g a Hd Hg Hr) as (f & Hp & _ & Ef & _).
    destruct (region_byte lo (user_base L) w (memory_set t) lab gs g a Hs1 Hg Hr) as (f1 & Hp1 & _ & Ef1 & _).
    assert (Hin : in_frame f (phys_of (fw_mem w) (page_table dst) a)) by (rewrite Ef; unfold in_frame; lia_mod).
    rewrite (Hdst f) by (done || (apply elem_of_app; right; rewrite <- space_pairs_frames; apply list_elem_of_fmap; by exists (a / 4096, f))
      || (intros Hx; assert (f = cxf) as -> by (by eapply in_frame_inj); apply Hne; by eapply pair_inj)).
    rewrite Hl. apply (Hold f1); [apply elem_of_app; right; rewrite <- space_pairs_frames; apply list_elem_of_fmap; by exists (a / 4096, f1)|].
    rewrite Ef1. unfold in_frame. lia_mod.
  - intros a b (g1 & Hg1 & Hr1)%Hm (g2 & Hg2 & Hr2)%Hm'. rewrite (proj1 (V2 a)), (proj1 (V3' b)), <- (proj1 (V1 a)).
    by apply (regions_disjoint lo L w (memory_set t) dst lab lab' gs gs g1 g2).
Qed.

(** Frames of its own for every process: the task table, seen by frames. *)
Lemma spaces_task k q u : k_tasks k !! q = Some u -> spaces k !! q = Some (mkSpace (memory_set u) (trap_cx_ppn u) (is_zombie u)).
Proof. apply spaces_lookup. Qed.


(** The child enters the task table. *)
Lemma mem_inv_child k k' pid c t child stks :
  k_tasks k !! pid = Some t -> k_tasks k !! c = None ->
  k_tasks k' = <[pid := set_children t (children t ++ [c])]> (<[c := child]> (k_tasks k)) ->
  (exists fs, world_ok lo L kb kareas (k_fw k') (KERNEL_SPACE k') (stks ++ [(c, fs)]) (<[c := (task_view child).1]> (spaces k))) ->
  (forall p, p ∈ stks.*1 <-> is_Some (spaces k !! p)) -> trap_ctx_backup child = None ->
  map_Forall (fun _ v => backup_ok v.2) (views k) ->
  mem_inv k' /\ spaces k' = <[c := (task_view child).1]> (spaces k).
Proof.
  intros Ht Hc Etk (fs & Hw) Hst Hbk Hb.
  assert (Ev : views k' = <[c := task_view child]> (views k)).
  { unfold views. rewrite Etk, !fmap_insert. apply insert_id. assert (c <> pid) by congruence.
    rewrite lookup_insert_ne, lookup_fmap, Ht by done. done. }
  assert (Es : spaces k' = <[c := (task_view child).1]> (spaces k)) by (unfold spaces; by rewrite Ev, fmap_insert).
  split; [|done]. split.
  - exists (stks ++ [(c, fs)]). split; [by rewrite Es|]. intros p. rewrite fmap_app, elem_of_app, Es. cbn. rewrite list_elem_of_singleton.
    rewrite Hst. destruct (decide (p = c)) as [->|Hne]; [rewrite lookup_insert_eq; split; [by eexists|by right]|].
    rewrite lookup_insert_ne by done. naive_solver.
  - rewrite Ev. apply map_Forall_insert_2; [|done]. unfold task_view. cbn. rewrite Hbk. by intros cx.
Qed.

(** [c] is the PID [fork] hands out. *)
Definition next_pid k : Z := (Pids.alloc (PID_ALLOCATOR k)).1.

Record fork_ready k (pid : Z) (t : TaskControlBlockInner) : Prop := {
  fr_run : running k pid t;
  fr_mem : mem_inv k;
  fr_pids : Pids.current (PID_ALLOCATOR k) <= 2 ^ 24;
  fr_frames : 3 * task_pages k t + 9 <= avail (fw_alloc (k_fw k));
}.

Lemma next_pid_fresh k pid t : fork_ready k pid t -> pid_ok (next_pid k) /\ k_tasks k !! next_pid k = None.
Proof.
  intros [[[Hk _] _ _] _ Hp _]. pose proof (pid_alloc_fresh (PID_ALLOCATOR k) (si_pids _ _ Hk)) as H. unfold next_pid.
  destruct (Pids.alloc (PID_ALLOCATOR k)) as [c pa]. cbn [fst]. destruct H as (_ & Hl & Hr & _); [lia|].
  split; [unfold pid_ok; lia|]. destruct (k_tasks k !! c) eqn:E; [|done]. exfalso. apply Hl, (si_live _ _ Hk). unfold k_tasks in E. by rewrite E.
Qed.

(** [tcb_fork]: everything but the zero in the child's [a0]. *)
Lemma tcb_fork_spec k pid t :
  fork_ready k pid t ->
  let c := next_pid k in
  exists dst w cxf k3, forked_space k pid t dst w cxf /\
    tcb_fork P k pid = Ret (c, set_mem k3 (store_trap_cx (k_mem k3) cxf (set_kernel_sp (load_trap_cx (k_mem k3) cxf) (kernel_stack_top c)))) /\
    mem_inv k3 /\ k_sched k3 = {| tasks := <[pid := set_children t (children t ++ [c])]>
        (<[c := fork_inner pid t cxf (goto_trap_return L (kernel_stack_top c)) dst]> (k_tasks k));
      PID2TCB := PID2TCB (k_sched k); ready_queue := ready_queue (k_sched k); current := current (k_sched k) |} /\
    (forall f x, f ∈ ms_frames dst -> in_frame f x -> load (k_mem k3) x = load (fw_mem w) x) /\
    (forall q s f x, spaces k !! q = Some s -> f ∈ ms_frames (sp_ms s) -> in_frame f x -> load (k_mem k3) x = load (k_mem k) x).
Proof using HL Hkl.
  intros Hr c. destruct (next_pid_fresh k pid t Hr) as [Hc Hfresh]. fold c in Hc, Hfresh. destruct Hr as [[Hk Hcur Ht] Hm Hp Hav].
  pose proof (kinv_current k pid t Hk Hcur Ht) as (Hz & _).
  assert (Ha : at_space pid (task_view t).1 k) by (split; [done|by apply spaces_lookup]).
  destruct (fork_space k pid t Ha) as (dst & w & cxf & Hfk); [unfold is_zombie; by rewrite bool_decide_eq_false_2|lia|].
  pose proof Hm as [(stks & Hw & Hst) Hb]. pose proof (fk_avail _ _ _ _ _ _ Hfk) as Hav'.
  assert (Hnone : spaces k !! c = None) by (unfold spaces, views; by rewrite !lookup_fmap, Hfresh).
  destruct (fork_world k pid t dst w cxf c stks Hw Hnone) as (KS' & w' & fs & E & Hw' & Hd & Hold); [|done|done|lia|].
  { rewrite Hst, Hnone. by intros [? ?]. }
  set (child := fork_inner pid t cxf (goto_trap_return L (kernel_stack_top c)) dst).
  set (k1 := set_fw (set_kernel_space (set_pids (set_fw k w) (Pids.alloc (PID_ALLOCATOR k)).2) KS') w').
  set (k3 := put_task (put_task k1 c child) pid (set_children t (children t ++ [c]))).
  exists dst, w, cxf, k3. split_and!; [done| |..|done|done].
  - unfold tcb_fork, task_inner. rewrite Ht. cbn [unwrap mbind outcome_bind]. rewrite (fk_call _ _ _ _ _ _ Hfk). cbn [mbind outcome_bind].
    rewrite (fk_frame _ _ _ _ _ _ Hfk). cbn [mbind outcome_bind]. unfold alloc_pid_and_stack.
    change (PID_ALLOCATOR (set_fw k w)) with (PID_ALLOCATOR k). rewrite (surjective_pairing (Pids.alloc (PID_ALLOCATOR k))).
    change (Pids.alloc (PID_ALLOCATOR k)).1 with c. unfold kernel_stack_new. rewrite (surjective_pairing (Pids.kernel_stack_position c)).
    change (Z.lor PERM_R PERM_W) with KSTACK_PERM. cbn [set_pids set_fw k_fw KERNEL_SPACE]. rewrite E. reflexivity.
  - apply (mem_inv_child k k3 pid c t child stks); try done. by exists fs.
  - reflexivity.
Qed.

(** What the caller and its child have after [fork]. *)
Record fork_done k k' (pid c : Z) (t child : TaskControlBlockInner) : Prop := {
  fd_running : running k' pid (set_children t (children t ++ [c]));
  fd_mem : mem_inv k';
  fd_fresh : k_tasks k !! c = None;
  fd_child : k_tasks k' !! c = Some child;
  fd_others : forall q, q <> pid -> q <> c -> k_tasks k' !! q = k_tasks k !! q;
  fd_ready : ready_queue (k_sched k') = ready_queue (k_sched k) ++ [c];
  fd_inherits : parent child = Some pid /\ children child = [] /\ fd_table child = fd_table t /\
    Facade.sec_credentials (security child) = Facade.sec_credentials (security t);
  fd_memory : forked_memory (k_mem k) (k_mem k') (memory_set t) (memory_set child);
  fd_old_memory : forall q u f x, k_tasks k !! q = Some u -> f ∈ ms_frames (memory_set u) -> in_frame f x ->
    load (k_mem k') x = load (k_mem k) x;
}.

Lemma running_space k pid t : running k pid t -> mem_inv k -> at_space pid (task_view t).1 k /\ is_zombie t = false.
Proof.
  intros [Hk Hcur Ht] Hm. destruct (kinv_current k pid t Hk Hcur Ht) as (Hz & _). split; [split; [done|by apply spaces_lookup]|].
  unfold is_zombie. by rewrite bool_decide_eq_false_2.
Qed.

(** The page of the trap context is one of the caller's data pages. *)
Lemma running_trap_frame k pid t :
  running k pid t -> mem_inv k -> trap_cx_ppn t ∈ ms_frames (memory_set t) /\ ppn_ok (trap_cx_ppn t).
Proof using HL Hkl.
  intros Hr Hm. destruct (running_space k pid t Hr Hm) as [Ha Hz].
  destruct (at_space_layout lo L kb kareas pid _ k Ha Hz) as (lab & gs & Hsp & Hp & _). cbn [sp_ms sp_cx task_view fst] in Hsp, Hp.
  split; [|by destruct (pair_page _ _ _ _ _ _ _ _ Hsp Hp)]. apply elem_of_app. right. rewrite <- space_pairs_frames.
  apply list_elem_of_fmap. by exists (TRAP_CONTEXT_VPN, trap_cx_ppn t).
Qed.

Lemma child_frame_in k pid t dst w cxf : forked_space k pid t dst w cxf -> cxf ∈ ms_frames dst.
Proof.
  intros Hfk. apply elem_of_app. right. rewrite <- space_pairs_frames. apply list_elem_of_fmap. exists (TRAP_CONTEXT_VPN, cxf).
  split; [done|apply Hfk].
Qed.

(** The child's frames were free: no space has the one of its trap context. *)
Lemma child_frame_fresh k pid t dst w cxf q s f :
  mem_inv k -> forked_space k pid t dst w cxf -> spaces k !! q = Some s -> f ∈ ms_frames (sp_ms s) -> f <> cxf.
Proof.
  intros [(stks & Hw & _) _] Hfk Hq Hf ->. pose proof (child_frame_in _ _ _ _ _ _ Hfk) as Hin.
  destruct (me_tables _ _ _ _ _ _ (fk_effect _ _ _ _ _ _ Hfk)) as (tables & Et & _ & Hfr & _). cbn in Et.
  apply (Hfr cxf); [unfold ms_frames in Hin; by rewrite Et in Hin|].
  apply (world_live lo L kb kareas (k_fw k) _ _ _ cxf Hw). right. by exists q, s.
Qed.

(** The trap context written twice, as [tcb_fork] and [sys_fork] do. *)
Lemma at_space_trap_cx_twice pid s k cx1 cx2 :
  at_space pid s k -> sp_dead s = false -> length (cx_x cx1) = 32%nat -> length (cx_x cx2) = 32%nat ->
  let m := store_trap_cx (store_trap_cx (k_mem k) (sp_cx s) cx1) (sp_cx s) cx2 in
  at_space pid s (set_mem k m) /\ forall x, ~ in_frame (sp_cx s) x -> load m x = load (k_mem k) x.
Proof.
  intros Ha Hz H1 H2 m. pose proof (at_space_trap_cx lo L kb kareas pid s k cx1 Ha Hz H1) as Ha1. split.
  - exact (at_space_trap_cx lo L kb kareas pid s _ cx2 Ha1 Hz H2).
  - intros x Hx. unfold m. assert (Hf : ppn_ok (sp_cx s)) by (by apply (trap_cx_ppn_ok lo L kb kareas pid s k)).
    by rewrite !store_trap_cx_outside.
Qed.

(** The call itself. *)
Lemma sys_fork_spec k pid t :
  let c := next_pid k in let cx := load_trap_cx (k_mem k) (trap_cx_ppn t) in
  fork_ready k pid t -> trap_cx_wf cx ->
  exists k' child, sys_fork P k = Ret (k', Returned c) /\ fork_done k k' pid c t child /\
    load_trap_cx (k_mem k') (trap_cx_ppn t) = cx /\
    load_trap_cx (k_mem k') (trap_cx_ppn child) = set_x (set_kernel_sp cx (kernel_stack_top c)) 10 0.
Proof using HL Hkl.
  intros c cx Hr Hcx. destruct (next_pid_fresh k pid t Hr) as [Hc Hfresh]. fold c in Hc, Hfresh.
  destruct (tcb_fork_spec k pid t Hr) as (dst & w & cxf & k3 & Hfk & Etcb & Hm3 & Es3 & Hdst & Hold). fold c in Etcb, Es3.
  set (child := fork_inner pid t cxf (goto_trap_return L (kernel_stack_top c)) dst) in *.
  destruct Hr as [Hrun Hm Hpids Hav]. pose proof Hrun as [Hk Hcur Ht].
  assert (Hne : pid <> c) by (intros ->; congruence).
  pose proof (child_frame_in _ _ _ _ _ _ Hfk) as Hcxf.
  assert (Hctx : load_trap_cx (k_mem k3) cxf = cx).
  { unfold cx. rewrite <- (fk_context _ _ _ _ _ _ Hfk). pose proof Hfk as [_ _ Hp (lab & lab' & gs & _ & [_ Hd _]) _ _ _ _].
    destruct (pair_page _ _ _ _ _ _ _ _ Hd Hp) as (Hf & _). apply load_trap_cx_ext; [done..|]. intros i Hi. apply (Hdst cxf); [done|]. unfold in_frame. lia. }
  rewrite Hctx in Etcb. set (cx1 := set_kernel_sp cx (kernel_stack_top c)) in *.
  assert (Hcx1 : trap_cx_wf cx1) by (apply trap_cx_wf_kernel_sp; [done|by apply wrap_in_width]).
  set (cs := mkSpace dst cxf false). assert (Hcs : at_space c cs k3).
  { split; [done|]. rewrite (spaces_lookup k3 c child); [done|]. unfold k_tasks. rewrite Es3. cbn. by rewrite lookup_insert_ne, lookup_insert_eq. }
  set (cx2 := set_x cx1 10 0) in *.
  assert (Hcx2 : trap_cx_wf cx2) by (apply trap_cx_wf_set_x; [done|by vm_compute]).
  destruct (at_space_trap_cx_twice c cs k3 cx1 cx2 Hcs eq_refl) as [H5 Hout]; [apply Hcx1|apply Hcx2|]. cbn [cs sp_cx] in H5, Hout.
  set (k4 := set_mem k3 (store_trap_cx (k_mem k3) cxf cx1)) in *. set (k5 := set_mem k4 (store_trap_cx (k_mem k4) cxf cx2)).
  assert (Hf : ppn_ok cxf) by (by apply (trap_cx_ppn_ok lo L kb kareas c cs k3)).
  assert (Ecx4 : load_trap_cx (k_mem k4) cxf = cx1) by (by apply (load_store_trap_cx (k_mem k3))).
  assert (Hmem5 : forall q s f x, spaces k !! q = Some s -> f ∈ ms_frames (sp_ms s) -> in_frame f x -> load (k_mem k5) x = load (k_mem k) x).
  { intros q s f x Hq Hf0 Hx. change (load (k_mem k5) x) with (load (store_trap_cx (store_trap_cx (k_mem k3) cxf cx1) cxf cx2) x). rewrite Hout; [by apply (Hold q s f x)|].
    intros Hx'. apply (child_frame_fresh k pid t dst w cxf q s f Hm Hfk Hq Hf0). by eapply in_frame_inj. }
  pose proof (spaces_task k pid t Ht) as Hst.
  exists (add_task k5 c), child.
  assert (E : sys_fork P k = Ret (add_task k5 c, Returned c)).
  { unfold sys_fork. rewrite Hcur. cbn [unwrap mbind outcome_bind]. rewrite Etcb. cbn [mbind outcome_bind].
    assert (Ech : task_inner k4 c = Ret child).
    { unfold task_inner, k_tasks. change (k_sched k4) with (k_sched k3). rewrite Es3. cbn [tasks]. by rewrite lookup_insert_ne, lookup_insert_eq. }
    rewrite Ech. cbn [mbind outcome_bind]. change (trap_cx_ppn child) with cxf. rewrite Ecx4. unfold ret, as_isize.
    rewrite to_signed_small; [done|]. unfold pid_ok in Hc. lia. }
  assert (Etk : k_tasks (add_task k5 c) = <[pid := set_children t (children t ++ [c])]> (<[c := child]> (k_tasks k))).
  { cbn. unfold k_tasks. change (k_sched k5) with (k_sched k3). by rewrite Es3. }
  split_and!; [exact E| | |].
  - split; rewrite ?Etk.
    + split; [|cbn; by rewrite Es3|rewrite Etk; apply lookup_insert_eq].
      apply (kinv_sys_fork P k _ (Returned c)); [lia|done|exact E].
    + apply (mem_inv_inert lo L kb kareas k5); [by apply inert_same|apply H5].
    + exact Hfresh.
    + by rewrite lookup_insert_ne, lookup_insert_eq.
    + intros q H1 H2. by rewrite !lookup_insert_ne.
    + cbn. by rewrite Es3.
    + split_and!; try done. apply fork_fd_table_id.
    + apply (forked_memory_of k pid t dst w cxf); [done| |].
      * intros f x Hf' Hx Hx'. etransitivity; [by apply Hout|]. by apply (Hdst f).
      * intros f x Hf1. by apply (Hmem5 pid _ f x Hst).
    + intros q u f x Hu Hf1. by apply (Hmem5 q _ f x (spaces_task k q u Hu)).
  - change (k_mem (add_task k5 c)) with (k_mem k5). unfold cx.
    destruct (running_trap_frame k pid t Hrun Hm) as [Hin Hft]. apply load_trap_cx_ext; [done..|]. intros i Hi.
    apply (Hmem5 pid _ (trap_cx_ppn t) _ Hst); [done|]. unfold in_frame. lia.
  - change (k_mem (add_task k5 c)) with (k_mem k5). by apply (load_store_trap_cx (k_mem k4)).
Qed.

(** ** From trap to trap *)

Variable read_fuel : nat.

(** The kernel after the trap handler has stepped over the [ecall]. *)
Definition stepped k (t : TaskControlBlockInner) (cx : TrapContext) : Kernel F := set_mem k (store_trap_cx (k_mem k) (trap_cx_ppn t) cx).

Lemma mem_inv_stepped k pid t cx : running k pid t -> mem_inv k -> length (cx_x cx) = 32%nat -> mem_inv (stepped k t cx).
Proof. intros Hr Hm Hl. destruct (running_space k pid t Hr Hm) as [Ha Hz]. apply (at_space_trap_cx lo L kb kareas pid _ k cx Ha Hz Hl). Qed.

(** Two processes, two trap contexts. *)
Lemma trap_frames_apart k p q t u :
  mem_inv k -> p <> q -> k_tasks k !! p = Some t -> k_tasks k !! q = Some u -> is_zombie t = false -> is_zombie u = false ->
  trap_cx_ppn t <> trap_cx_ppn u /\ ppn_ok (trap_cx_ppn t) /\ ppn_ok (trap_cx_ppn u).
Proof.
  intros Hm Hne Ht Hu Hzt Hzu. pose proof (spaces_task k p t Ht) as Hst. pose proof (spaces_task k q u Hu) as Hsu.
  destruct (at_space_layout lo L kb kareas p _ k (conj Hm Hst) Hzt) as (lab & gs & Hsp & Hp & _).
  destruct (at_space_layout lo L kb kareas q _ k (conj Hm Hsu) Hzu) as (lab2 & gs2 & Hsp2 & Hp2 & _). cbn [sp_ms sp_cx] in *.
  split_and!; [|by destruct (pair_page _ _ _ _ _ _ _ _ Hsp Hp)|by destruct (pair_page _ _ _ _ _ _ _ _ Hsp2 Hp2)].
  assert (H1 : trap_cx_ppn t ∈ ms_frames (memory_set t)).
  { apply elem_of_app. right. rewrite <- space_pairs_frames. apply list_elem_of_fmap. by exists (TRAP_CONTEXT_VPN, trap_cx_ppn t). }
  assert (H2 : trap_cx_ppn u ∈ ms_frames (memory_set u)).
  { apply elem_of_app. right. rewrite <- space_pairs_frames. apply list_elem_of_fmap. by exists (TRAP_CONTEXT_VPN, trap_cx_ppn u). }
  intros E. destruct Hm as [(stks & Hw & _) _]. apply (wo_apart _ _ _ _ _ _ _ _ Hw p q _ _ (trap_cx_ppn t) Hne Hst Hsu H1). by rewrite E.
Qed.

(** C12: [fork] returns twice.  A process that makes the call [SYSCALL_FORK],
    with a PID and frames to spare, goes on after its [ecall] with the new PID
    [c] in [a0]; and there is a ready child whose trap context is the same but
    for 0 in [a0] and its own kernel stack.  The child has the parent's
    descriptors and credentials and the same pages with the same rights and
    contents, on frames of its own; no memory of any existing process, the
    parent included, has changed but the parent's trap context; and the
    invariants of the process table and of memory hold. *)
Theorem fork_returns_twice k pid t e :
  let c := next_pid k in
  let cx := load_trap_cx (k_mem k) (trap_cx_ppn t) in
  let cx' := set_sepc cx (wrap 64 (sepc cx + 4)) in
  fork_ready k pid t -> trap_cx_wf cx -> get_x cx 17 = SYSCALL_FORK ->
  exists k2 child, fork_done (stepped k t cx') k2 pid c t child /\
    let k' := set_mem k2 (store_trap_cx (k_mem k2) (trap_cx_ppn t) (set_x cx' 10 c)) in
    handle_ecall P read_fuel k e = Ret (k', Returned c) /\ mem_inv k' /\
    load_trap_cx (k_mem k') (trap_cx_ppn t) = set_x cx' 10 c /\
    load_trap_cx (k_mem k') (trap_cx_ppn child) = set_x (set_kernel_sp cx' (kernel_stack_top c)) 10 0.
Proof using HL Hkl.
  intros c cx cx' Hr Hcx Hid. pose proof (next_pid_fresh k pid t Hr) as [Hc _]. fold c in Hc. pose proof Hr as [Hrun Hm Hp Hav].
  assert (Hcx' : trap_cx_wf cx') by (apply trap_cx_wf_set_sepc; [done|by apply wrap_in_width]).
  destruct (running_space k pid t Hrun Hm) as [Ha Hz].
  assert (Hr1 : fork_ready (stepped k t cx') pid t).
  { split; [by apply running_set_mem|by apply (mem_inv_stepped k pid); [| |apply Hcx']|done|].
    unfold task_pages in *. by rewrite (regions_pages_areas _ (k_mem k)). }
  assert (Hl1 : load_trap_cx (k_mem (stepped k t cx')) (trap_cx_ppn t) = cx') by (by apply (load_store_trap_cx (k_mem k))).
  destruct (sys_fork_spec (stepped k t cx') pid t Hr1) as (k2 & child & E & Hd & Hp2 & Hch); [by rewrite Hl1|].
  change (next_pid (stepped k t cx')) with c in *. rewrite Hl1 in Hp2, Hch.
  pose proof (fd_running _ _ _ _ _ _ Hd) as Hrun2. pose proof (fd_mem _ _ _ _ _ _ Hd) as Hm2.
  set (cx2 := set_x cx' 10 c). assert (Hcx2 : trap_cx_wf cx2) by (apply trap_cx_wf_set_x; [done|unfold pid_ok, in_width in *; lia]).
  exists k2, child. split; [exact Hd|]. intros k'.
  assert (Hm' : mem_inv k').
  { apply (mem_inv_stepped k2 pid (set_children t (children t ++ [c])) cx2 Hrun2 Hm2), Hcx2. }
  split_and!; [|done|by apply (load_store_trap_cx (k_mem k2))|].
  - unfold handle_ecall, current_trap_cx. rewrite (running_current_inner _ _ _ Hrun). cbn [mbind outcome_bind]. fold cx. fold cx'.
    change (set_mem k (store_trap_cx (k_mem k) (trap_cx_ppn t) cx')) with (stepped k t cx').
    change (get_x cx' 17) with (get_x cx 17). rewrite Hid. change (syscall P read_fuel (stepped k t cx') e SYSCALL_FORK (get_x cx' 10) (get_x cx' 11) (get_x cx' 12)) with (sys_fork P (stepped k t cx')).
    rewrite E. cbn [mbind outcome_bind]. rewrite (running_current_inner _ _ _ Hrun2). cbn [mbind outcome_bind].
    change (trap_cx_ppn (set_children t (children t ++ [c]))) with (trap_cx_ppn t). rewrite Hp2. unfold ret, of_signed.
    rewrite Z.mod_small by (unfold pid_ok in Hc; lia). reflexivity.
  - assert (Hzc : is_zombie child = false).
    { destruct Hrun2 as [Hk2 _ _]. pose proof (proj1 Hk2) as Hs2. assert (Hin : c ∈ runnable (k_sched k2)).
      { unfold runnable. rewrite (fd_ready _ _ _ _ _ _ Hd). apply elem_of_app. right. apply elem_of_app. right. by left. }
      apply (si_run _ _ Hs2) in Hin as (u & Hu & Hzu). pose proof (fd_child _ _ _ _ _ _ Hd) as Hc2. unfold k_tasks in Hc2.
      assert (u = child) as -> by congruence. unfold is_zombie. by rewrite bool_decide_eq_false_2. }
    assert (Hne : pid <> c). { intros E2. pose proof (fd_fresh _ _ _ _ _ _ Hd) as Hfr. rewrite <- E2 in Hfr. pose proof (run_task _ _ _ Hrun) as Ht. change (k_tasks (stepped k t cx')) with (k_tasks k) in Hfr. congruence. }
    destruct (trap_frames_apart k2 pid c _ child Hm2 Hne (run_task _ _ _ Hrun2) (fd_child _ _ _ _ _ _ Hd) Hz Hzc) as (Hn & Hf1 & Hf2).
    rewrite <- Hch. apply load_trap_cx_ext; [done..|]. intros i Hi. apply store_trap_cx_outside; [done|apply Hcx2|].
    intros Hin. apply Hn. apply (in_frame_inj _ _ (trap_cx_ppn child * 4096 + i)); [done|]. unfold in_frame. lia.
Qed.
End Fork.
