(* ===== verification/LifecycleMem.v ===== *)
(** * Process creation and end keep the memory invariant

    [exec] builds the new space next to the old one and swaps them; [exit]
    gives the data pages back and keeps the tables; [waitpid] collects the rest
    of a zombie with its kernel stack. *)
From S2P Require Import Prelude IpcApi Quota Timer AuditLog AuditFacts Facade.
From S2P Require Import Address Allocators PageTable PageTableFacts MemorySet MemorySetInv MemorySetSpec MemorySetFork FrameWorldInv.
From S2P Require Import Signals UserAccess UserAccessFacts Pipe Task Kernel.
From S2P Require Import SyscallFs SignalHandling SyscallProcess SyscallAudit Trap KernelInv CallSpecs ProcessInv LifecycleInv TrapInv.
From S2P Require Import SignalFacts ExecArgs ExecSpec KernelMem SyscallMem ForkSpec.
Import Audit Address Mem PageTable MemorySet Signals UserAccess Task Kernel SyscallFs SignalHandling SyscallProcess Trap.

(** ** Writing the arguments *)

Section LiveSpace.
Variable lo : Z.
Variable L : LinkerSymbols.
Hypothesis HL : trampoline_ok L.
Variable al : Frames.StackFrameAllocator.
Variable s : Space.
Let ms := sp_ms s.

(** The space being filled, over memory [m]. *)
Definition live_mem (m : PhysMem) : Prop :=
  exists lab, space_ok lo (user_base L) {| fw_mem := m; fw_alloc := al |} (sp_ms s) lab /\ below_trampoline (areas (sp_ms s)).

Lemma live_mem_write m m' : live_mem m -> (forall x, ~ in_data s x -> load m' x = load m x) -> live_mem m'.
Proof.
  intros (lab & [Hf Ha] & Hb) Hx. exists lab. split; [|done]. split; [|done]. apply (frames_ok_ext lo _ {| fw_mem := m; fw_alloc := al |}); [done|apply (fo_pt _ _ _ _ _ _ Hf)| |].
  - intros f Hin. by apply (frames_live lo _ _ _ _ lab f Hf).
  - intros f x Hin Hfx. apply Hx. intros (g & Hg & Hgx). assert (g = f) as -> by (by eapply in_frame_inj).
    by destruct (frames_disjoint _ _ _ _ _ _ f Hf Hg) as [Hn _].
Qed.

Lemma live_mem_ptr m a size align p :
  live_mem m -> try_translated_ptr m (ms_token ms) a size align true = Ret (Some p) -> 0 < size -> 0 <= a ->
  forall x, p <= x < p + size -> in_data s x.
Proof using HL.
  intros (lab & Hok & Hb) E Hsz Ha x Hx. pose proof E as E0. unfold try_translated_ptr in E0.
  destruct ((size =? 0) || (a =? 0) || negb (a mod align =? 0)) eqn:E1; [done|].
  destruct (checked_add 64 a size) as [end_|] eqn:E2; [|done]. apply checked_add_Some in E2 as [-> Hlt].
  destruct (Z.ltb_spec USER_VA_LIMIT (a + size)) as [|Hlim]; [done|]. rewrite USER_VA_LIMIT_val in Hlim.
  destruct (Z.eqb_spec (Z.shiftr a PAGE_SIZE_BITS) (Z.shiftr (a + size - 1) PAGE_SIZE_BITS)) as [Epg|]; [|done]. cbn [negb] in E0.
  change PAGE_SIZE_BITS with 12 in Epg. rewrite !Z.shiftr_div_pow2 in Epg by lia. change (2 ^ 12) with 4096 in Epg.
  destruct (check_user_range_spec m (ms_token ms) a size true) as (b & Eb & Hbr); [unfold in_width; lia..|]. rewrite Eb in E0. cbn [mbind outcome_bind] in E0.
  destruct b; [|done]. pose proof (proj1 Hbr eq_refl) as Hro. destruct Hro as [|[Hro1 Hr]]; [lia|].
  assert (Hal : a <> 0 /\ a mod align = 0).
  { apply orb_false_iff in E1 as [E1 E1']. apply orb_false_iff in E1 as [_ E1]. split; [by apply Z.eqb_neq|].
    by apply negb_false_iff, Z.eqb_eq in E1'. }
  rewrite try_translated_ptr_ok in E; [|lia|lia|apply Hal|lia_mod|by right]. injection E as <-.
  assert (Er : root_ppn (from_token (ms_token ms)) = root_ppn (page_table ms)) by (apply from_token_root; eapply space_root; exact Hok).
  pose proof (space_has_layout _ _ _ _ _ Hok Hb) as Hsp.
  assert (Hi : exists i, 0 <= i < size /\ x = phys_of m (from_token (ms_token ms)) a + i).
  { exists (x - phys_of m (from_token (ms_token ms)) a). lia. }
  destruct Hi as (i & Hi & Ex). assert (Ed : (a + i) / 4096 = a / 4096 /\ (a + i) mod 4096 = a mod 4096 + i) by (clear -Epg Hi Ha; lia_mod).
  assert (Ex' : x = phys_of m (from_token (ms_token ms)) (a + i)).
  { rewrite Ex. unfold phys_of. destruct Ed as [-> ->]. lia. }
  rewrite Ex', (phys_of_root _ _ (page_table ms)) by done.
  apply (user_phys_frame lo L {| fw_mem := m; fw_alloc := al |} ms lab _ (a + i) true Hsp HL).
  rewrite (user_byte_ok_root _ _ (from_token (ms_token ms))) by done. apply Hr. lia.
Qed.

(** Eight bytes of data. *)
Definition slot_in (a : Z) : Prop := forall x, a <= x < a + 8 -> in_data s x.

Lemma argv_slots_in m base n slots :
  live_mem m -> 0 <= base -> argv_slots m (ms_token ms) base n = Ret slots -> Forall slot_in slots.
Proof using HL.
  intros Hm. revert base slots. induction n as [|n IH]; intros base slots Hb E; cbn in E; [by simplify_eq; constructor|].
  apply bind_Ret_inv in E as (r & Er & E). apply bind_Ret_inv in E as (a & ->%unwrap_Ret & E).
  apply bind_Ret_inv in E as (rest & Erest & E). simplify_eq. constructor; [|eapply IH; [|exact Erest]; by apply wrap_in_width].
  intros x. by apply (live_mem_ptr m base 8 8 a).
Qed.

Lemma store_u64_in m a v : live_mem m -> slot_in a -> live_mem (store_u64 m a v).
Proof.
  intros Hm Ha. apply (live_mem_write m); [done|]. intros x Hx. unfold store_u64. rewrite store_bytes_list.
  apply store_list_other. rewrite length_le_bytes by lia. intros Hin%elem_of_seqZ. apply Hx, Ha. lia.
Qed.

(** The writes stay in the data frames. *)
Lemma push_string_outside bs x : forall m p m', live_mem m -> 0 <= p -> push_string m (ms_token ms) p bs = Ret m' ->
  ~ in_data s x -> load m' x = load m x.
Proof using HL.
  induction bs as [|c bs IH]; intros m p m' Hm Hp E Hx; cbn in E; [by simplify_eq|].
  apply bind_Ret_inv in E as (r & Er & E). apply bind_Ret_inv in E as (a & ->%unwrap_Ret & E).
  assert (Ha : in_data s a) by (apply (live_mem_ptr m p 1 1 a); (done || lia)).
  rewrite (IH (store m a c) (wrap 64 (p + 1)) m'); [by apply (store_outside s)| |by apply (wrap_in_width 64)|done|done].
  apply (live_mem_write m); [done|]. intros y Hy. by apply (store_outside s).
Qed.

Lemma store_u64_data m a v x : slot_in a -> ~ in_data s x -> load (store_u64 m a v) x = load m x.
Proof.
  intros Ha Hx. unfold store_u64. rewrite store_bytes_list. apply store_list_other. rewrite length_le_bytes by lia.
  intros Hin%elem_of_seqZ. apply Hx, Ha. lia.
Qed.

Lemma push_args_outside args x : forall m sp slots m' sp',
  live_mem m -> Forall slot_in slots -> push_args m (ms_token ms) sp args slots = Ret (m', sp') ->
  ~ in_data s x -> load m' x = load m x.
Proof using HL.
  induction args as [|arg args IH]; intros m sp slots m' sp' Hm Hs E Hx; cbn in E; [by destruct slots; simplify_eq|].
  destruct Hs as [|slot slots Hslot Hs]; [done|]. apply bind_Ret_inv in E as (m2 & E2 & E).
  assert (Hm1 : forall v, live_mem (store_u64 m slot v)) by (intros v; by apply store_u64_in).
  pose proof (fun y => push_string_outside _ y _ _ m2 (Hm1 _) (proj1 (wrap_in_width 64 _ ltac:(lia))) E2) as Hout.
  assert (Hm2 : live_mem m2) by (eapply live_mem_write; [apply Hm1|exact Hout]).
  rewrite (IH m2 _ slots m' sp' Hm2 Hs E Hx), Hout by done. by apply store_u64_data.
Qed.
End LiveSpace.

(** ** [exec] *)

Lemma elf_private lo L read_elf w0 w d elf ms lab :
  elf_fits lo L read_elf w0 d elf -> space_at lo (user_base L) w ms lab (elf_layout d (load_phs (elf_program_headers elf))) ->
  trap_page_private (areas ms).
Proof.
  intros Hfit [_ Hlay _]. apply Forall_forall. intros a Ha Hc. pose proof Hfit as [_ _ _ _ _ _ Hsegs Hst _].
  destruct (laid_out_regions _ _ _ a Hlay Ha) as (g & fs & Hg & -> & _). unfold covers in Hc. cbn in Hc |- *. unfold TRAP_CONTEXT_VPN in Hc.
  apply elem_of_app in Hg as [Hg|[->|[->|Hg%not_elem_of_nil]%elem_of_cons]%elem_of_cons]; [|cbn in Hc; lia|by vm_compute|done].
  apply list_elem_of_fmap in Hg as (ph & -> & Hph). destruct (segs_fit_in _ _ _ ph Hsegs Hph) as (e & Hseg).
  destruct (seg_region_wf d e ph) as [_ Hr]; [|cbn in Hc; lia]. done.
Qed.

Section Lifecycle.
Context {F : Type} {FS : FileSystem F}.
Variable P : Platform.
Variable lo : Z.
Variable kb : list (Z * Z).
Variable kareas : list MapArea.
Hypothesis Hkl : kernel_layout kb kareas.
Hypothesis HL : trampoline_ok (linker P).
Implicit Type k : Kernel F.
Abbreviation L := (linker P).
Abbreviation mem_inv := (KernelMem.mem_inv lo L kb kareas).
Abbreviation at_space := (KernelMem.at_space lo L kb kareas).

(** A new task in place of [pid]'s, with frames and spaces to match. *)
Lemma mem_inv_replace k k' pid t t' stks :
  k_tasks k !! pid = Some t -> k_tasks k' = <[pid := t']> (k_tasks k) -> trap_ctx_backup t' = trap_ctx_backup t ->
  world_ok lo L kb kareas (k_fw k') (KERNEL_SPACE k') stks (<[pid := (task_view t').1]> (spaces k)) ->
  (forall p, p ∈ stks.*1 <-> is_Some (spaces k !! p)) -> map_Forall (fun _ v => backup_ok v.2) (views k) ->
  mem_inv k' /\ spaces k' = <[pid := (task_view t').1]> (spaces k).
Proof.
  intros Ht Etk Ebk Hw Hst Hb.
  assert (Ev : views k' = <[pid := task_view t']> (views k)) by (unfold views; by rewrite Etk, fmap_insert).
  assert (Es : spaces k' = <[pid := (task_view t').1]> (spaces k)) by (unfold spaces; by rewrite Ev, fmap_insert).
  split; [|done]. split.
  - exists stks. rewrite Es. split; [done|]. intros p. rewrite Hst. destruct (decide (p = pid)) as [->|Hne].
    + rewrite lookup_insert_eq, (spaces_lookup k pid t Ht). split; by eexists.
    + by rewrite lookup_insert_ne.
  - rewrite Ev. apply map_Forall_insert_2; [|done]. unfold task_view. cbn. rewrite Ebk.
    apply (Hb pid (task_view t)). unfold views. by rewrite lookup_fmap, Ht.
Qed.

Lemma no_space_minus_one k : kinv k -> spaces k !! (-1) = None.
Proof.
  intros [Hk _]. destruct (spaces k !! (-1)) as [s|] eqn:E; [|done]. apply spaces_lookup_inv in E as (t & Ht & _).
  destruct (si_live _ _ Hk (-1)) as [H _]; [by eexists|lia].
Qed.

Lemma mem_inv_tcb_exec k pid t elf ef args k' :
  running k pid t -> mem_inv k -> elf_fits lo L (elf_reader P) (k_fw k) elf ef ->
  tcb_exec P k pid elf args = Ret k' -> mem_inv k'.
Proof using HL.
  intros Hrun Hm Hfit E. pose proof Hrun as [Hk Hcur Ht]. pose proof Hm as [(stks & Hw & Hst) Hb]. pose proof (no_space_minus_one k Hk) as Hnew.
  destruct (running_space P lo kb kareas k pid t Hrun Hm) as [Ha Hz].
  destruct (from_elf_spec lo L (elf_reader P) (k_fw k) elf ef Hfit) as (ms & w & lab & fs & E0 & Hsp & Heff & Hfs & _).
  destruct (trap_frame lo L w ms lab _ _ Hsp) as (tcx & Et & Hpair & Htf & Htl).
  set (s := mkSpace ms tcx false).
  assert (Hw1 : world_ok lo L kb kareas w (KERNEL_SPACE k) stks (<[-1 := s]> (spaces k))).
  { apply (world_add lo L kb kareas (k_fw k) w _ _ _ (-1) s fs); try done; [|by eapply space_at_wf].
    exists (user_base L), lab. split; [apply Hsp|]. intros _. split_and!; [done|by eapply space_at_below|done|by eapply elf_private]. }
  assert (Hlive : live_mem lo L (fw_alloc w) s (fw_mem w)).
  { exists lab. split; [|by eapply space_at_below]. destruct w. apply Hsp. }
  unfold tcb_exec in E. rewrite E0 in E. cbn [mbind outcome_bind] in E. rewrite Et in E. cbn [mbind outcome_bind] in E.
  apply bind_Ret_inv in E as (slots & Esl & E). apply bind_Ret_inv in E as (last & Elast & E).
  apply bind_Ret_inv in E as ([m usp] & Eargs & E). apply bind_Ret_inv in E as (inner & Einner%task_inner_Ret & E).
  apply bind_Ret_inv in E as (w1 & Edrop & E). assert (inner = t) as -> by congruence. injection E as <-.
  pose proof (argv_slots_in lo L HL (fw_alloc w) s (fw_mem w) _ _ slots Hlive (proj1 (wrap_in_width 64 _ ltac:(lia))) Esl) as Hslots.
  assert (Hlast : slot_in s last).
  { unfold index in Elast. apply unwrap_Ret in Elast. by apply (Forall_lookup_1 _ _ _ _ Hslots Elast). }
  pose proof (fun x => push_args_outside lo L HL (fw_alloc w) s args x _ _ slots m usp
    (store_u64_in lo L (fw_alloc w) s (fw_mem w) last 0 Hlive Hlast) Hslots Eargs) as Hout.
  set (w2 := {| fw_mem := m; fw_alloc := fw_alloc w |}) in *.
  assert (Hw2 : world_ok lo L kb kareas w2 (KERNEL_SPACE k) stks (<[-1 := s]> (spaces k))).
  { apply (world_ok_data lo L kb kareas w m _ _ _ (-1) s); [done|apply lookup_insert_eq|]. intros x Hx. rewrite Hout by done. by apply (store_u64_data s). }
  assert (Hs : <[-1 := s]> (spaces k) !! pid = Some (task_view t).1).
  { rewrite lookup_insert_ne; [by apply spaces_lookup|]. intros <-. by rewrite (spaces_lookup k (-1) t Ht) in Hnew. }
  destruct (wo_fine _ _ _ _ _ _ _ _ Hw2 pid _ Hs) as (base & lab0 & Hold & _). cbn [sp_ms task_view fst] in Hold.
  destruct (drop_memory_set_spec lo base w2 (memory_set t) lab0 Hold) as (w3 & Ed & Em3 & Hwf3 & Hl3 & _).
  rewrite Ed in Edrop. injection Edrop as ->.
  pose proof (world_remove lo L kb kareas w2 w1 _ _ _ pid _ Hw2 Hs Em3 Hwf3 Hl3) as Hw3.
  assert (Hne : -1 <> pid) by (intros <-; by rewrite (spaces_lookup k (-1) t Ht) in Hnew).
  rewrite delete_insert_ne in Hw3 by done.
  apply (world_rename lo L kb kareas w1 _ _ _ (-1) pid s) in Hw3; [|by rewrite lookup_delete_ne|by apply lookup_delete_eq].
  rewrite insert_delete_eq in Hw3.
  set (t' := set_trap_cx_ppn (set_memory_set t ms) tcx) in *.
  assert (Ev : (task_view t').1 = s) by (unfold task_view, s; cbn; f_equal; exact Hz).
  set (k1 := put_task (set_fw k w1) pid t') in *.
  destruct (mem_inv_replace k k1 pid t t' stks Ht eq_refl eq_refl) as [Hm1 Es1]; [by rewrite Ev|done|done|].
  assert (Ha1 : at_space pid s k1) by (split; [done|]; rewrite Es1, Ev; apply lookup_insert_eq).
  apply (at_space_trap_cx lo L kb kareas pid s k1 _ Ha1 eq_refl). rewrite !length_set_x. unfold app_init_context. cbn. by rewrite length_insert.
Qed.

(** Every image the file system holds can be loaded into the frames left. *)
Definition images_fit (read_fuel : nat) k : Prop :=
  forall k0 name k1 key k2 d ef, k_io k0 = k_io k -> fw_alloc (k_fw k0) = fw_alloc (k_fw k) ->
    open_file k0 name RDONLY = Ret (k1, Some key) -> read_all read_fuel k1 key [] = Ret (k2, d) ->
    elf_reader P d = Some ef -> elf_fits lo L (elf_reader P) (k_fw k0) d ef.

Lemma from_elf_reads w d x : from_elf L (elf_reader P) w d = Ret x -> exists ef, elf_reader P d = Some ef.
Proof.
  intros E. unfold from_elf in E. apply bind_Ret_inv in E as ([m1 w1] & _ & E). apply bind_Ret_inv in E as ([m2 w2] & _ & E).
  apply bind_Ret_inv in E as (ef & Hef%unwrap_Ret & _). by exists ef.
Qed.

Lemma mem_inv_sys_exec read_fuel k pid t path args k' r :
  running k pid t -> mem_inv k -> images_fit read_fuel k -> sys_exec P read_fuel k path args = Ret (k', r) -> mem_inv k'.
Proof using HL.
  intros Hrun Hm Hfit H. pose proof Hrun as [Hk Hcur Ht]. unfold sys_exec, ret in H. apply bind_Ret_inv in H as (tok & _ & H).
  apply bind_Ret_inv in H as (p & _ & H). destruct p as [p|]; [|by simplify_eq].
  apply bind_Ret_inv in H as (cl & _ & H). destruct cl as [errno|av]; [by simplify_eq|].
  apply bind_Ret_inv in H as ([k1 o] & H1 & H). pose proof (inert_open_file _ _ _ _ _ H1) as Hi1.
  destruct o as [key|]; [|simplify_eq; by eapply mem_inv_inert].
  apply bind_Ret_inv in H as ([k2 d] & H2 & H). pose proof (inert_read_all _ _ _ _ _ _ H2) as Hi2.
  apply bind_Ret_inv in H as (pid' & Hp%unwrap_Ret & H). apply bind_Ret_inv in H as (k3 & H3 & H). simplify_eq.
  assert (Hi : inert k k2) by (by etransitivity). pose proof (open_file_sched _ _ _ _ _ H1) as Es1.
  destruct (read_all_sched _ _ _ _ _ _ H2) as (Es2 & Ep2 & Ea2).
  assert (Hrun2 : running k2 pid t).
  { split; [|unfold current_task; rewrite Es2, Es1; exact Hcur|unfold k_tasks; rewrite Es2, Es1; exact Ht].
    apply (kinv_ext k1); [by eapply kinv_open_file|done..]. }
  assert (pid' = pid) as -> by (pose proof (run_current _ _ _ Hrun2); congruence).
  unfold tcb_exec in H3. apply bind_Ret_inv in H3 as (x & Ex & H3). destruct (from_elf_reads _ _ _ Ex) as (ef & Hef).
  eapply (mem_inv_tcb_exec k2 pid t d ef); [done|by apply (mem_inv_inert lo L kb kareas k)| |].
  - rewrite (proj1 Hi). by apply (Hfit k (string_bytes p) k1 key k2 d ef).
  - unfold tcb_exec. rewrite Ex. exact H3.
Qed.

(** ** [exit] *)

Lemma inert_reparent cs : forall k k', reparent k cs = Ret k' -> inert k k'.
Proof.
  induction cs as [|c cs IH]; intros k k' H; cbn in H; [by simplify_eq|].
  apply bind_Ret_inv in H as (t & Ht%task_inner_Ret & H). apply bind_Ret_inv in H as (i & Hi%task_inner_Ret & H).
  apply IH in H. etransitivity; [|exact H]. etransitivity; [apply (inert_put k c t (set_parent t (Some INITPROC)) Ht eq_refl)|].
  by apply (inert_put _ INITPROC i).
Qed.

Lemma mem_inv_exit k code k' r :
  kinv k -> mem_inv k -> exit_current_and_run_next k code = Ret (k', r) -> mem_inv k'.
Proof.
  intros Hk Hm H. pose proof Hm as [(stks & Hw & Hst) Hb]. unfold exit_current_and_run_next, take_current_task in H.
  apply bind_Ret_inv in H as (pid & Hpid%unwrap_Ret & H). case_if; [simplify_eq; by apply (mem_inv_inert lo L kb kareas k); [apply inert_same|]|].
  apply bind_Ret_inv in H as (k1 & H1 & H). apply bind_Ret_inv in H as (t & Ht%task_inner_Ret & H).
  apply bind_Ret_inv in H as (k3 & H3%inert_reparent & H). apply bind_Ret_inv in H as (t3 & Ht3%task_inner_Ret & H).
  apply bind_Ret_inv in H as ([ms w] & Hr & H). simplify_eq.
  assert (Hi1 : k_fw k1 = k_fw k /\ KERNEL_SPACE k1 = KERNEL_SPACE k /\ k_tasks k1 = k_tasks k).
  { unfold remove_from_pid2task in H1. case_decide; [|done]. by simplify_eq. }
  destruct Hi1 as (Ef1 & Ek1 & Et1). rewrite Et1 in Ht.
  set (tz := set_exit_code (set_task_status t Zombie) code) in *.
  assert (Ev3 : views k3 = <[pid := task_view tz]> (views k)).
  { destruct H3 as (_ & _ & ->). unfold views, put_task, set_tasks. cbn. unfold k_tasks in *. by rewrite fmap_insert, Et1. }
  assert (Evt : task_view t3 = task_view tz).
  { assert (E3 : views k3 !! pid = Some (task_view tz)) by (rewrite Ev3; apply lookup_insert_eq).
    unfold views in E3. rewrite lookup_fmap, Ht3 in E3. exact (inj Some _ _ E3). }
  destruct H3 as (Ef3 & Ek3 & _). cbn in Ef3, Ek3. rewrite Ef1 in Ef3. rewrite Ek1 in Ek3. rewrite Ef3 in Hr.
  assert (Ems : memory_set t3 = memory_set t /\ trap_cx_ppn t3 = trap_cx_ppn t /\ is_zombie t3 = true /\ trap_ctx_backup t3 = trap_ctx_backup t).
  { unfold task_view in Evt. injection Evt as E1 E2 E3 E4. rewrite E1, E2, E3, E4. done. }
  destruct Ems as (Ems & Ecx & Ez & Ebk). rewrite Ems in Hr.
  destruct (kinv_current k pid t Hk Hpid Ht) as (Hz & _). pose proof (spaces_lookup k pid t Ht) as Hs.
  destruct (wo_fine _ _ _ _ _ _ _ _ Hw pid _ Hs) as (base & lab & [Hf _] & _). cbn [sp_ms task_view fst] in Hf.
  pose proof (fo_nodup _ _ _ _ _ _ Hf) as Hnd. apply NoDup_app in Hnd as (_ & _ & Hnd).
  destruct (drop_frames_spec lo (space_frames (areas (memory_set t))) (k_fw k)) as (w1 & Ed & Em & Hwf & Hl & _);
    [apply (fo_pt _ _ _ _ _ _ Hf)|done|apply (fo_live _ _ _ _ _ _ Hf)|].
  unfold recycle_data_pages in Hr. change (concat (area_frames <$> areas (memory_set t))) with (space_frames (areas (memory_set t))) in Hr.
  rewrite Ed in Hr. cbn [mbind outcome_bind] in Hr. injection Hr as <- <-.
  set (t' := set_fd_table _ _).
  assert (Et' : (task_view t').1 = mkSpace {| page_table := page_table (memory_set t); areas := [] |} (trap_cx_ppn t) true).
  { unfold t', task_view. cbn. f_equal; [done|exact Ez]. }
  pose proof (world_kill lo L kb kareas (k_fw k) w1 _ _ _ pid _ Hw Hs Em Hwf Hl) as Hw'. cbn [sp_ms sp_cx task_view fst] in Hw'.
  assert (Ev' : views (put_task (set_fw k3 w1) pid t') = <[pid := task_view t']> (views k)).
  { transitivity (<[pid := task_view t']> (views k3)); [|rewrite Ev3; apply insert_insert_eq]. apply fmap_insert. }
  assert (Es' : spaces (put_task (set_fw k3 w1) pid t') = <[pid := (task_view t').1]> (spaces k)) by (unfold spaces; by rewrite Ev', fmap_insert).
  split.
  - exists stks. rewrite Es', Et'. split; [by rewrite <- Ek3 in Hw'|]. intros p. rewrite Hst. destruct (decide (p = pid)) as [->|Hne].
    + rewrite lookup_insert_eq, Hs. split; by eexists.
    + by rewrite lookup_insert_ne.
  - rewrite Ev'. apply map_Forall_insert_2; [|done]. unfold task_view, t'. cbn. rewrite Ebk.
    apply (Hb pid (task_view t)). unfold views. by rewrite lookup_fmap, Ht.
Qed.

(** ** [waitpid] *)

Lemma mem_inv_drop_tcb k c k' : mem_inv k -> drop_tcb k c = Ret k' -> mem_inv k'.
Proof using Hkl.
  intros [(stks & Hw & Hst) Hb] H. unfold drop_tcb in H. apply bind_Ret_inv in H as (t & Ht%task_inner_Ret & H).
  apply bind_Ret_inv in H as (pids & _ & H). apply bind_Ret_inv in H as (k1 & H1 & H). apply bind_Ret_inv in H as (w & Hd & H). simplify_eq.
  pose proof (spaces_lookup k c t Ht) as Hs.
  assert (Hin : c ∈ stks.*1) by (apply Hst; by eexists). apply list_elem_of_fmap in Hin as ([c' fs] & -> & Hin).
  apply list_elem_of_split in Hin as (s1 & s2 & ->). cbn [fst] in *.
  assert (Hp : pid_ok c').
  { pose proof (wo_stacks _ _ _ _ _ _ _ _ Hw) as Hpo. apply Forall_app in Hpo as [_ Hpo]. by apply Forall_cons in Hpo as [[? _] _]. }
  destruct (world_stack_pop lo L kb kareas Hkl (k_fw k) (KERNEL_SPACE k) s1 c' fs s2 (spaces k) Hw) as (w1 & KS' & Erem & Hw1 & _).
  destruct (kernel_stack_area c' KSTACK_PERM Hp) as [_ Ep].
  unfold kernel_stack_drop in H1. rewrite (surjective_pairing (Pids.kernel_stack_position c')) in H1. rewrite Ep in H1.
  cbn [mbind outcome_bind set_pids k_fw KERNEL_SPACE] in H1. rewrite Erem in H1. cbn [mbind outcome_bind] in H1. injection H1 as <-.
  cbn [set_fw set_kernel_space k_fw] in Hd.
  destruct (wo_fine _ _ _ _ _ _ _ _ Hw1 c' _ Hs) as (base & lab & Hok & _). cbn [sp_ms task_view fst] in Hok.
  destruct (drop_memory_set_spec lo base w1 (memory_set t) lab Hok) as (w2 & Ed & Em2 & Hwf2 & Hl2 & _).
  rewrite Ed in Hd. injection Hd as ->.
  pose proof (world_remove lo L kb kareas w1 w _ _ _ c' _ Hw1 Hs Em2 Hwf2 Hl2) as Hw2.
  assert (Ev : forall k2, k_tasks k2 = delete c' (k_tasks k) -> views k2 = delete c' (views k)) by (intros k2 E; unfold views; by rewrite E, fmap_delete).
  match goal with |- KernelMem.mem_inv _ _ _ _ ?k2 => specialize (Ev k2 eq_refl) end.
  assert (Es : forall k2, views k2 = delete c' (views k) -> spaces k2 = delete c' (spaces k)) by (intros k2 E; unfold spaces; by rewrite E, fmap_delete).
  specialize (Es _ Ev). split.
  - exists (s1 ++ s2). rewrite Es. split; [exact Hw2|]. intros p. specialize (Hst p).
    pose proof (wo_nodup _ _ _ _ _ _ _ _ Hw) as Hnd. rewrite fmap_app, fmap_cons in Hnd, Hst. cbn [fst] in Hnd, Hst.
    rewrite <- (Permutation_middle s1.*1 s2.*1 c') in Hnd. apply NoDup_cons in Hnd as [Hno _]. rewrite fmap_app.
    rewrite elem_of_app, elem_of_cons in Hst. rewrite elem_of_app in Hno |- *. destruct (decide (p = c')) as [->|Hne].
    + rewrite lookup_delete_eq. split; [tauto|by intros [? ?]].
    + rewrite lookup_delete_ne by done. naive_solver.
  - rewrite Ev. intros p v [_ Hv]%lookup_delete_Some. by apply (Hb p v).
Qed.

Lemma mem_inv_sys_waitpid k pid t p ptr k' r :
  running k pid t -> mem_inv k -> in_width 64 ptr -> sys_waitpid k p ptr = Ret (k', r) -> mem_inv k'.
Proof using Hkl HL.
  intros Hrun Hm Hptr H. destruct (running_space P lo kb kareas k pid t Hrun Hm) as [Ha Hz]. unfold sys_waitpid, ret in H.
  rewrite (running_current_inner _ _ _ Hrun) in H. cbn [mbind outcome_bind] in H. case_if; [by simplify_eq|].
  apply bind_Ret_inv in H as (pr & _ & H). destruct pr as [[idx c]|]; [|by simplify_eq].
  apply bind_Ret_inv in H as (ch & _ & H). apply bind_Ret_inv in H as ([m rr] & Ecp & H).
  assert (Ha1 : at_space pid (task_view t).1 (set_mem k m)).
  { eapply (copy_to_user_in_data lo L kb kareas HL pid (task_view t).1 k ptr); [done..| |exact Ecp]. by rewrite length_le_bytes by lia. }
  destruct rr; [|simplify_eq; apply Ha1]. apply bind_Ret_inv in H as ([] & _ & H).
  apply bind_Ret_inv in H as (k2 & H2 & H). simplify_eq. apply (mem_inv_drop_tcb _ c k') in H2; [done|].
  apply (mem_inv_inert lo L kb kareas (set_mem k m)); [|apply Ha1]. apply (inert_put _ pid t); [apply Hrun|done].
Qed.
End Lifecycle.
