(* ===== verification/Isolation.v ===== *)
(** * Isolation of processes

    Memory through whole executions: the invariant of [KernelMem] is kept by
    every trap, by programs that write where their page tables let them, and by
    the scheduler; so in every reachable state no program reaches a byte of
    another, of a page table, of a kernel stack or of a trap context. *)
From S2P Require Import Prelude IpcApi Quota Timer AuditLog AuditFacts Facade.
From S2P Require Import Address Allocators PageTable PageTableFacts MemorySet MemorySetInv MemorySetSpec MemorySetFork FrameWorldInv.
From S2P Require Import Signals UserAccess UserAccessFacts Pipe Task Kernel.
From S2P Require Import SyscallFs FdFacts SignalHandling SyscallProcess SyscallAudit Trap.
From S2P Require Import KernelInv SyscallInv PipeCallFacts ProcessInv LifecycleInv TrapInv CallSpecs SignalFacts ExecArgs ExecSpec KernelMem SyscallMem ForkSpec LifecycleMem.
Import Timer Audit Mem PageTable MemorySet Signals UserAccess Pipe Task Kernel SyscallFs SignalHandling SyscallProcess SyscallAudit Trap.

Section Isolation.
Context {F : Type} {FS : FileSystem F}.
Variable P : Platform.
Variable read_fuel : nat.
Variable lo : Z.
Variable kb : list (Z * Z).
Variable kareas : list MapArea.
Hypothesis Hkl : kernel_layout kb kareas.
Hypothesis HL : trampoline_ok (linker P).
Hypothesis Hfs : reads_bounded FS.
Implicit Type k : Kernel F.
Abbreviation L := (linker P).
Abbreviation mem_inv := (KernelMem.mem_inv lo L kb kareas).
Abbreviation at_space := (KernelMem.at_space lo L kb kareas).
Abbreviation mrely := (KernelMem.mrely lo L kb kareas).

(** ** Resources *)

(** What a call may find missing: PIDs (their kernel stacks would leave the
    upper half) and frames.  Running out panics the kernel or overlaps stacks,
    so these bound the executions considered. *)
Record roomy k : Prop := {
  ro_pids : Pids.current (PID_ALLOCATOR k) <= 2 ^ 24;
  ro_fork : forall pid t, current_task k = Some pid -> k_tasks k !! pid = Some t -> 3 * task_pages k t + 9 <= avail (fw_alloc (k_fw k));
  ro_exec : images_fit P lo read_fuel k;
}.

(** The turns of other tasks leave the current one alone. *)
Definition turns k (e : list (Kernel F -> Kernel F)) : Prop :=
  Forall rely e /\ forall p, current_task k = Some p -> Forall (mrely p) e.

Lemma running_caller k pid t : running k pid t -> mem_inv k -> SyscallMem.caller lo L kb kareas pid (task_view t).1 k.
Proof. intros Hr Hm. destruct (running_space P lo kb kareas k pid t Hr Hm) as [Ha Hz]. split; [apply Hr|done|done|apply Hr]. Qed.

Lemma at_space_mem pid s k : at_space pid s k -> mem_inv k.
Proof. by intros [? _]. Qed.

(** ** System calls *)

Lemma mem_inv_syscall k pid t e id a0 a1 a2 k' r :
  running k pid t -> mem_inv k -> roomy k -> Forall (mrely pid) e ->
  in_width 64 a0 -> in_width 64 a1 -> in_width 64 a2 -> trap_cx_wf (load_trap_cx (k_mem k) (trap_cx_ppn t)) ->
  syscall P read_fuel k e id a0 a1 a2 = Ret (k', r) -> mem_inv k'.
Proof using Hkl HL Hfs.
  intros Hrun Hm Hroom He H0 H1 H2 Hcx H. pose proof (running_caller k pid t Hrun Hm) as Hc. unfold syscall in H.
  repeat match type of H with (if ?b then _ else _) = _ => destruct b end.
  - apply inert_sys_dup in H. by eapply mem_inv_inert.
  - apply inert_sys_open in H. by eapply mem_inv_inert.
  - apply inert_sys_close in H. by eapply mem_inv_inert.
  - eapply at_space_mem, at_sys_pipe; [exact HL|exact Hc|exact H0|exact H].
  - eapply at_space_mem, at_sys_read; [exact HL|exact Hfs|exact Hc| | |exact He|exact H]; done.
  - eapply at_space_mem, at_sys_write; [exact HL|exact Hc| | |exact He|exact H]; done.
  - eapply mem_inv_exit; [apply Hrun|exact Hm|exact H].
  - eapply at_space_mem, at_sys_yield; [exact Hc|exact He|exact H].
  - apply inert_sys_kill in H. by eapply mem_inv_inert.
  - eapply at_space_mem, at_sys_sigaction; [exact HL|exact Hc|exact H2|exact H].
  - apply inert_sys_sigprocmask in H. by eapply mem_inv_inert.
  - eapply at_space_mem, at_sys_sigreturn; [exact Hc|exact H].
  - apply inert_sys_get_time in H. by eapply mem_inv_inert.
  - unfold sys_getpid, ret in H. apply bind_Ret_inv in H as (p & _ & H). by simplify_eq.
  - assert (Hr : fork_ready P lo kb kareas k pid t).
    { split; [done|done|apply Hroom|]. apply (ro_fork k Hroom pid); apply Hrun. }
    destruct (sys_fork_spec P lo kb kareas Hkl HL k pid t Hr Hcx) as (k2 & child & E & Hd & _). rewrite E in H. simplify_eq. apply Hd.
  - eapply mem_inv_sys_exec; [exact HL|exact Hrun|exact Hm|apply Hroom|exact H].
  - eapply mem_inv_sys_waitpid; [exact Hkl|exact HL|exact Hrun|exact Hm|exact H1|exact H].
  - unfold sys_getuid, ret in H. apply bind_Ret_inv in H as ([p u] & _ & H). by simplify_eq.
  - apply inert_sys_setuid in H. by eapply mem_inv_inert.
  - eapply at_space_mem, at_sys_audit_read; [exact HL|exact Hc|exact H].
  - eapply at_space_mem, at_sys_ipc_stat; [exact HL|exact Hc|exact H0|exact H].
  - done.
Qed.

(** ** Traps *)

Lemma roomy_mem k m : roomy k -> roomy (set_mem k m).
Proof.
  intros [Hp Hf He]. split; [done| |].
  - intros pid t Hc Ht. specialize (Hf pid t Hc Ht). unfold task_pages in *. by rewrite (regions_pages_areas _ (k_mem k)).
  - exact He.
Qed.

Lemma current_running k p u : kinv k -> current_inner k = Ret (p, u) -> running k p u.
Proof. intros Hk [Hc Ht]%current_inner_Ret. by split. Qed.

Lemma turns_current k p u e : running k p u -> turns k e -> Forall (mrely p) e /\ Forall rely e.
Proof. intros Hr [He1 He2]. split; [|done]. by apply He2, Hr. Qed.

Lemma mem_inv_handle_ecall k e k' r :
  kinv k -> mem_inv k -> turns k e -> roomy k -> regs_ok k -> handle_ecall P read_fuel k e = Ret (k', r) ->
  (forall b, r <> Shutdown b) -> mem_inv k'.
Proof using Hkl HL Hfs.
  intros Hk Hm He Hroom Hregs H Hr. unfold handle_ecall in H. apply bind_Ret_inv in H as ([ppn cx] & Hcx & H).
  pose proof (Hregs _ _ Hcx) as Hwf. unfold current_trap_cx in Hcx. apply bind_Ret_inv in Hcx as ([p u] & Hi & Hcx).
  apply (current_running k p u Hk) in Hi as Hrun. injection Hcx as <- Ecx.
  set (cx1 := set_sepc cx (wrap 64 (sepc cx + 4))) in *.
  assert (Hwf1 : trap_cx_wf cx1) by (apply trap_cx_wf_set_sepc; [done|by apply wrap_in_width]).
  change (set_mem k (store_trap_cx (k_mem k) (trap_cx_ppn u) cx1)) with (stepped k u cx1) in H.
  pose proof (mem_inv_stepped P lo kb kareas k p u cx1 Hrun Hm (proj1 Hwf1)) as Hm1.
  assert (Hrun1 : running (stepped k u cx1) p u) by (by apply running_set_mem).
  destruct (turns_current k p u e Hrun He) as [He1 He2].
  apply bind_Ret_inv in H as ([k2 res] & H2 & H).
  assert (Hm2 : mem_inv k2).
  { apply (mem_inv_syscall (stepped k u cx1) p u e (get_x cx1 17) (get_x cx1 10) (get_x cx1 11) (get_x cx1 12) k2 res); try done;
      [by apply roomy_mem|by apply get_x_range..|]. change (k_mem (stepped k u cx1)) with (store_trap_cx (k_mem k) (trap_cx_ppn u) cx1).
    by rewrite (load_store_trap_cx (k_mem k)). }
  assert (Hk2 : (forall b, res <> Shutdown b) -> kinv k2).
  { intros Hres. apply (kinv_syscall P read_fuel (stepped k u cx1) e (get_x cx1 17) (get_x cx1 10) (get_x cx1 11) (get_x cx1 12) k2 res); try done.
    - by apply get_x_range.
    - unfold pid_room. pose proof (ro_pids k Hroom). cbn. lia. }
  destruct res; [|simplify_eq; done..]. apply bind_Ret_inv in H as ([ppn2 cx2] & Hcx2 & H). unfold ret in H. simplify_eq.
  unfold current_trap_cx in Hcx2. apply bind_Ret_inv in Hcx2 as ([p2 u2] & Hi2 & Hcx2). injection Hcx2 as <- <-.
  apply (current_running k2 p2 u2) in Hi2 as Hrun2; [|by apply Hk2].
  apply (mem_inv_stepped P lo kb kareas k2 p2 u2 _ Hrun2 Hm2). rewrite length_set_x.
  exact (length_load_trap_cx (k_mem k2) (trap_cx_ppn u2)).
Qed.

Lemma mem_inv_handle_cause k e c k' r :
  kinv k -> mem_inv k -> turns k e -> roomy k -> regs_ok k -> handle_cause P read_fuel k e c = Ret (k', r) ->
  (forall b, r <> Shutdown b) -> mem_inv k'.
Proof using Hkl HL Hfs.
  intros Hk Hm He Hroom Hregs H Hr.
  assert (Hsig : forall sig k1, current_add_signal k sig = Ret k1 -> mem_inv k1).
  { intros sig k1 H1. pose proof H1 as H0. unfold current_add_signal in H0. apply bind_Ret_inv in H0 as ([p u] & Hi & _).
    apply (current_running k p u Hk) in Hi. eapply at_space_mem, at_current_add_signal; [by apply running_caller|exact H1]. }
  unfold handle_cause, ret in H.
  destruct c; try (apply bind_Ret_inv in H as (k1 & H1 & H); simplify_eq; by eapply Hsig).
  - by eapply mem_inv_handle_ecall.
  - apply bind_Ret_inv in H as ([d tm] & Ht & H).
    set (k1 := set_audit k {| AUDIT_RING := AUDIT_RING (k_audit k); aw_timer := tm |}) in *.
    assert (Hk1 : kinv k1).
    { apply kinv_set_audit; [done|]. apply audit_ok_timer; [apply Hk|]. destruct (proj2 Hk) as [log [_ Hok]]. by eapply set_next_trigger_ok. }
    assert (Hm1 : mem_inv k1) by (apply (mem_inv_inert lo L kb kareas k); [by apply inert_same|done]).
    assert (Hcur : exists p u, running k1 p u).
    { destruct (current_task k) as [p|] eqn:Ec.
      - destruct (kinv_current_exists k1 p Hk1 Ec) as (u & _ & Hu). by exists p, u.
      - exfalso. unfold sys_yield, suspend_current_and_run_next, suspend_current, take_current_task, k1 in H. cbn in H.
        unfold current_task in Ec. rewrite Ec in H. by destruct e. }
    destruct Hcur as (p & u & Hrun1). destruct (turns_current k1 p u e Hrun1 He) as [He1 _].
    eapply at_space_mem, at_sys_yield; [by apply running_caller|exact He1|exact H].
  - done.
Qed.

Lemma mem_inv_trap_handler k e e' c k' r :
  kinv k -> mem_inv k -> turns k e -> (forall k1 r1, handle_cause P read_fuel k e c = Ret (k1, r1) -> turns k1 e') ->
  roomy k -> regs_ok k -> trap_handler P read_fuel k e e' c = Ret (k', r) -> (forall b, r <> Shutdown b) -> mem_inv k'.
Proof using Hkl HL Hfs.
  intros Hk Hm He He' Hroom Hregs H Hr. unfold trap_handler in H. apply bind_Ret_inv in H as ([k1 r1] & H1 & H).
  specialize (He' k1 r1 H1).
  pose proof (proj1 He) as Hrely.
  assert (Hroom' : pid_room k) by (unfold pid_room; pose proof (ro_pids k Hroom); lia).
  assert (Hk1 : (forall b, r1 <> Shutdown b) -> kinv k1) by (intros Hsd; exact (kinv_handle_cause P read_fuel _ _ _ _ _ Hk Hrely Hroom' Hregs H1 Hsd)).
  assert (Hm1 : (forall b, r1 <> Shutdown b) -> mem_inv k1) by (intros Hsd; exact (mem_inv_handle_cause _ _ _ _ _ Hk Hm He Hroom Hregs H1 Hsd)).
  destruct r1; [|simplify_eq; by apply Hm1..]. specialize (Hk1 ltac:(done)). specialize (Hm1 ltac:(done)).
  apply bind_Ret_inv in H as ([k2 b] & H2 & H).
  assert (Hcur : exists p u, running k1 p u).
  { pose proof H2 as H0. destruct e'; cbn in H0; apply bind_Ret_inv in H0 as (k3 & H3 & _); unfold check_pending_signals in H3;
      change (seqZ 0 (MAX_SIG + 1)) with (0 :: seqZ 1 MAX_SIG) in H3; cbn [check_signals] in H3;
      apply bind_Ret_inv in H3 as ([k4 b4] & H4 & _); unfold check_signal in H4; apply bind_Ret_inv in H4 as ([p u] & Hi & _);
      exists p, u; by apply current_running. }
  destruct Hcur as (p & u & Hrun1). destruct (turns_current k1 p u e' Hrun1 He') as [He1 _].
  pose proof (at_handle_signals lo L kb kareas p _ k1 e' k2 b (running_caller k1 p u Hrun1 Hm1) He1 H2) as Hc2.
  destruct b; cbn [negb] in H; [|simplify_eq; apply Hc2].
  apply bind_Ret_inv in H as (err & _ & H). destruct err; [|unfold ret in H; simplify_eq; apply Hc2].
  eapply mem_inv_exit; [apply Hc2|apply Hc2|exact H].
Qed.

(** ** Executions *)

(** Between traps, a program writes where its page table lets it. *)
Definition user_writes k (t : TaskControlBlockInner) (m : PhysMem) : Prop :=
  forall x, load m x = load (k_mem k) x \/
    exists a, user_byte_ok (k_mem k) (page_table (memory_set t)) true a /\ x = phys_of (k_mem k) (page_table (memory_set t)) a.

Inductive mem_step : Kernel F -> Kernel F -> Prop :=
| mem_step_trap k e e' c k' r :
    turns k e -> (forall k1 r1, handle_cause P read_fuel k e c = Ret (k1, r1) -> turns k1 e') -> roomy k -> regs_ok k ->
    trap_handler P read_fuel k e e' c = Ret (k', r) -> (forall b, r <> Shutdown b) -> mem_step k k'
| mem_step_user k pid t m :
    current_task k = Some pid -> k_tasks k !! pid = Some t -> user_writes k t m -> mem_step k (set_mem k m)
| mem_step_schedule k k' :
    current_task k = None -> run_tasks_round k = Ret (Some k') -> mem_step k k'.

Inductive mem_reachable : Kernel F -> Kernel F -> Prop :=
| mem_refl k : mem_reachable k k
| mem_more k1 k2 k3 : mem_reachable k1 k2 -> mem_step k2 k3 -> mem_reachable k1 k3.

(** Each is a step of [TrapInv]. *)
Lemma mem_step_kernel k k' : mem_step k k' -> kernel_step P read_fuel k k'.
Proof.
  intros [k1 e e' c k2 r He He' Hroom Hregs Ht Hr|k1 pid t m Hc Ht Hw|k1 k2 Hc Hrun]; [|apply step_user|by apply step_schedule].
  pose proof Ht as Ht0. unfold trap_handler in Ht0. apply bind_Ret_inv in Ht0 as ([k3 r3] & H3 & _).
  apply (step_trap P read_fuel k1 e e' c k2 r); [apply He|apply (He' k3 r3 H3)| |done|done|done].
  unfold pid_room. pose proof (ro_pids k1 Hroom). lia.
Qed.

Lemma mem_step_inv k k' : kinv k -> mem_inv k -> mem_step k k' -> mem_inv k'.
Proof using Hkl HL Hfs.
  intros Hk Hm Hs. destruct Hs as [k e e' c k' r He He' Hroom Hregs Ht Hr|k pid t m Hc Ht Hw|k k' Hc Hrun].
  - exact (mem_inv_trap_handler k e e' c k' r Hk Hm He He' Hroom Hregs Ht Hr).
  - assert (Hrun : running k pid t) by (by split). destruct (running_space P lo kb kareas k pid t Hrun Hm) as [Ha Hz].
    apply (at_space_mem pid (task_view t).1). apply at_space_write; [done|]. intros x Hx. destruct (Hw x) as [|(a & Hb & ->)]; [done|].
    exfalso. apply Hx. pose proof (at_space_root _ _ _ _ _ _ _ Ha Hz) as Er. cbn [sp_ms task_view fst] in Er.
    rewrite <- (phys_of_root _ (from_token (ms_token (memory_set t)))) by done.
    apply (user_byte_in_data lo L kb kareas HL pid (task_view t).1 k a true); [done..|].
    by apply (user_byte_ok_root _ _ (page_table (memory_set t))).
  - apply (mem_inv_inert lo L kb kareas k); [by apply inert_run_round|done].
Qed.

Lemma mem_reachable_inv k0 k : kinv k0 -> mem_inv k0 -> mem_reachable k0 k -> kinv k /\ mem_inv k.
Proof using Hkl HL Hfs.
  intros Hk Hm Hr. induction Hr as [k|k1 k2 k3 _ IH Hs]; [done|]. destruct (IH Hk Hm) as [Hk2 Hm2].
  split; [|by eapply mem_step_inv]. eapply kernel_step_inv; [exact Hk2|]. by apply mem_step_kernel.
Qed.

(** ** Isolation *)

(** The bytes a program can reach: its own data pages. *)
Lemma user_byte_frame k p t a write :
  mem_inv k -> k_tasks k !! p = Some t -> is_zombie t = false -> 0 <= a < 2 ^ 39 -> user_byte_ok (k_mem k) (page_table (memory_set t)) write a ->
  exists f, in_frame f (phys_of (k_mem k) (page_table (memory_set t)) a) /\ f ∈ space_frames (areas (memory_set t)) /\
    f <> trap_cx_ppn t /\ (a / 4096, f) ∈ space_pairs (areas (memory_set t)).
Proof using HL.
  intros Hm Ht Hz Ha Hb. pose proof (spaces_task k p t Ht) as Hs.
  destruct (at_space_layout lo L kb kareas p _ k (conj Hm Hs) Hz) as (lab & gs & Hsp & Hc & Hpr). cbn [sp_ms sp_cx] in *. unfold k_mem in *.
  destruct (user_byte_region lo L (k_fw k) (memory_set t) lab gs a write Hsp HL Ha Hb) as (g & Hg & Hr).
  destruct (region_byte lo (user_base L) (k_fw k) (memory_set t) lab gs g a Hsp Hg Hr) as (f & Hp & _ & Ef & _ & Hu).
  exists f. split_and!; [rewrite Ef; unfold in_frame; lia_mod|rewrite <- space_pairs_frames; apply list_elem_of_fmap; by exists (a / 4096, f)| |done].
  intros ->. pose proof (pair_inj _ _ _ _ _ _ _ _ _ Hsp Hp Hc) as Epage. apply Hu in Hb. unfold region_allows in Hb. apply andb_true_iff in Hb as [Hb _].
  pose proof Hsp as [_ Hlay _]. destruct (laid_out_area _ _ _ g Hlay Hg) as (fs & Hin & _).
  assert (Hcov : covers (region_area g fs) TRAP_CONTEXT_VPN) by (unfold covers; cbn; rewrite <- Epage; lia_mod).
  pose proof (proj1 (Forall_forall _ _) Hpr _ Hin Hcov) as Hno. cbn in Hno. by rewrite Hno in Hb.
Qed.

(** Byte [x] of memory is out of reach for all but process [p], and is neither
    the kernel's nor a page table's nor a trap context's. *)
Record private_to k (p : Z) (x : Z) : Prop := {
  pr_allocated : exists f, in_frame f x /\ Frames.live lo (fw_alloc (k_fw k)) f;
  pr_kernel : forall f, f ∈ ms_frames (KERNEL_SPACE k) -> ~ in_frame f x;
  pr_tables : forall q u f, k_tasks k !! q = Some u -> f ∈ pt_frames (page_table (memory_set u)) -> ~ in_frame f x;
  pr_contexts : forall q u, k_tasks k !! q = Some u -> task_status u <> Zombie -> ~ in_frame (trap_cx_ppn u) x;
  pr_others : forall q u b write, k_tasks k !! q = Some u -> q <> p -> task_status u <> Zombie -> 0 <= b < 2 ^ 39 ->
    user_byte_ok (k_mem k) (page_table (memory_set u)) write b -> phys_of (k_mem k) (page_table (memory_set u)) b <> x;
}.

(** C2: processes are isolated.  In every state the kernel reaches, by traps
    of any cause with other tasks interleaved, by programs that write wherever
    their page tables let them and by the scheduler, a byte a program can reach
    lies in an allocated frame of its own: not in one of the kernel (its
    tables and kernel stacks), of a page table, or of a trap context, its own
    included, and not among the bytes any other program can reach.  Within the
    program, two addresses are two bytes.  The executions are those that never
    run out of PIDs and frames and exec well-formed images. *)
Theorem reachable_isolation k0 k p t a write :
  kinv k0 -> mem_inv k0 -> mem_reachable k0 k ->
  k_tasks k !! p = Some t -> task_status t <> Zombie -> 0 <= a < 2 ^ 39 ->
  user_byte_ok (k_mem k) (page_table (memory_set t)) write a ->
  private_to k p (phys_of (k_mem k) (page_table (memory_set t)) a) /\
  forall b write', 0 <= b < 2 ^ 39 -> user_byte_ok (k_mem k) (page_table (memory_set t)) write' b ->
    phys_of (k_mem k) (page_table (memory_set t)) b = phys_of (k_mem k) (page_table (memory_set t)) a -> b = a.
Proof using Hkl HL Hfs.
  intros Hk0 Hm0 Hr Ht Hnz Ha Hb. destruct (mem_reachable_inv k0 k Hk0 Hm0 Hr) as [Hk Hm].
  assert (Hz : forall u, task_status u <> Zombie -> is_zombie u = false) by (intros u Hu; unfold is_zombie; by rewrite bool_decide_eq_false_2).
  destruct (user_byte_frame k p t a write Hm Ht (Hz t Hnz) Ha Hb) as (f & Hfx & Hf & Hncx & Hpair).
  set (x := phys_of (k_mem k) (page_table (memory_set t)) a) in *.
  pose proof Hm as [(stks & Hw & _) _]. pose proof (spaces_task k p t Ht) as Hs.
  assert (Hfm : f ∈ ms_frames (memory_set t)) by (apply elem_of_app; by right).
  assert (Hone : forall g, in_frame g x -> g = f) by (intros g Hg; by eapply in_frame_inj).
  assert (Hother : forall q u g, k_tasks k !! q = Some u -> q <> p -> in_frame g x -> g ∉ ms_frames (memory_set u)).
  { intros q u g Hu Hne ->%Hone Hin. by apply (wo_apart _ _ _ _ _ _ _ _ Hw p q _ _ f (not_eq_sym Hne) Hs (spaces_task k q u Hu) Hfm). }
  split.
  - split.
    + exists f. split; [done|]. apply (world_live lo L kb kareas (k_fw k) _ _ _ f Hw). right. by eexists _, _.
    + intros g Hg Hgx. apply Hone in Hgx as ->. by apply (wo_kapart _ _ _ _ _ _ _ _ Hw p _ f Hs Hfm).
    + intros q u g Hu Hg Hgx. destruct (decide (q = p)) as [->|Hne].
      * apply Hone in Hgx as ->. assert (u = t) as -> by congruence.
        destruct (wo_fine _ _ _ _ _ _ _ _ Hw p _ Hs) as (base & lab & [Hfo _] & _). cbn [sp_ms] in Hfo.
        by destruct (frames_disjoint _ _ _ _ _ _ f Hfo Hf) as [Hno _].
      * apply (Hother q u g Hu Hne Hgx). apply elem_of_app. by left.
    + intros q u Hu Huz Hgx. destruct (decide (q = p)) as [->|Hne].
      * assert (u = t) as -> by congruence. by apply Hone in Hgx.
      * apply (Hother q u _ Hu Hne Hgx). pose proof (spaces_task k q u Hu) as Hsu.
        destruct (at_space_layout lo L kb kareas q _ k (conj Hm Hsu) (Hz u Huz)) as (lab & gs & Hsp & Hc & _). cbn [sp_ms sp_cx] in *.
        apply elem_of_app. right. rewrite <- space_pairs_frames. apply list_elem_of_fmap. by exists (TRAP_CONTEXT_VPN, trap_cx_ppn u).
    + intros q u b wr Hu Hne Huz Hbr Hub E. destruct (user_byte_frame k q u b wr Hm Hu (Hz u Huz) Hbr Hub) as (g & Hgx & Hg & _).
      rewrite E in Hgx. apply (Hother q u g Hu Hne Hgx). apply elem_of_app. by right.
  - intros b wr Hbr Hub E. destruct (user_byte_frame k p t b wr Hm Ht (Hz t Hnz) Hbr Hub) as (g & Hgx & _ & _ & Hgp). rewrite E in Hgx.
    apply Hone in Hgx as ->. destruct (at_space_layout lo L kb kareas p _ k (conj Hm Hs) (Hz t Hnz)) as (lab & gs & Hsp & _). cbn [sp_ms] in Hsp.
    pose proof (pair_inj _ _ _ _ _ _ _ _ _ Hsp Hgp Hpair) as Epg. unfold x, phys_of in E. rewrite Epg in E. lia_mod.
Qed.
End Isolation.
