(* ===== verification/Boot.v ===== *)
(** * From power-on to the first process

    Models the initialisation [rust_main] runs ([os/src/main.rs]): the frame
    allocator and the kernel's space ([os/src/mm/mod.rs],
    [os/src/mm/frame_allocator.rs]), the boot check [remap_test], the first
    timer deadline, the listing of the file system ([os/src/fs/inode.rs]) and
    [add_initproc] ([os/src/task/mod.rs]).  What each SBI call, log line and CSR
    write does outside this state is not modelled.  The theorem says that the
    state the scheduler starts from satisfies the invariants the rest of the
    development keeps. *)
From S2P Require Import Prelude IpcApi Quota Timer AuditLog AuditFacts Facade.
From S2P Require Import Address Allocators PageTable PageTableFacts MemorySet MemorySetInv MemorySetSpec MemorySetFork FrameWorldInv KernelSpace.
From S2P Require Import Signals UserAccess UserAccessFacts Pipe Task Kernel.
From S2P Require Import SyscallFs SignalHandling SyscallProcess SyscallAudit Trap KernelInv LifecycleInv TrapInv CallSpecs ExecArgs ExecSpec KernelMem SyscallMem ForkSpec LifecycleMem.
Import Timer Audit Address Mem PageTable MemorySet Signals UserAccess Pipe Task Kernel SyscallFs SyscallProcess.

Module Boot.

(** The frames from the end of the kernel image to the end of memory. *)
Definition init_frame_allocator (L : LinkerSymbols) : Frames.StackFrameAllocator :=
  Frames.init Frames.new (ceil (PhysAddr_from (ekernel L))) (floor (PhysAddr_from MEMORY_END)).

(** [mm::init]: [KERNEL_SPACE] is built when it is first used, by [activate]. *)
Definition mm_init (L : LinkerSymbols) (m : PhysMem) : outcome (MemorySet * FrameWorld) :=
  new_kernel L {| fw_mem := m; fw_alloc := init_frame_allocator L |}.

Section Boot.
Context {F : Type} {FS : FileSystem F}.
Variable P : Platform.
Variable read_fuel : nat.
Implicit Type k : Kernel F.

(** [list_apps]: only the file system is touched. *)
Definition list_apps k : outcome (Kernel F) :=
  '(names, fs') ← fs_ls (fs_state (k_io k)); Ret (set_fs k fs').

(** [initproc] *)
Definition INITPROC_NAME : list Z := [0x69; 0x6e; 0x69; 0x74; 0x70; 0x72; 0x6f; 0x63].

(** [add_initproc], with the initialisation of [INITPROC] it forces. *)
Definition add_initproc k : outcome (Kernel F) :=
  '(k1, opened) ← open_file k INITPROC_NAME RDONLY;
  inode ← unwrap opened;
  '(k2, v) ← read_all read_fuel k1 inode [];
  '(pid, k3) ← tcb_new P k2 v;
  Ret (add_task k3 pid).

(** The statics before their first use. *)
Definition static_sched : Sched := {| tasks := ∅; PID2TCB := ∅; ready_queue := []; current := None |}.
Definition static_io (fs : F) (input : list Z) : Io F :=
  mkIoState F FS 1 ∅ ∅ 0 [] fs input [].

(** [rust_main] up to [run_tasks]: [m] is the memory, [t] the timer with the
    frequency [device_tree::init] has found, [fs] the file system on the disk,
    [input] what will be typed. *)
Definition rust_main (m : PhysMem) (t : Timer) (fs : F) (input : list Z) : outcome (Kernel F) :=
  '(ms, w) ← mm_init (linker P) m;
  _ ← remap_test (linker P) (fw_mem w) ms;
  '(deadline, t') ← set_next_trigger t;
  k ← list_apps (mkKernel F FS w ms Pids.new static_sched {| AUDIT_RING := Audit.ring_new; aw_timer := t' |} (static_io fs input));
  add_initproc k.
End Boot.
End Boot.
Import Boot.

(** ** The first process *)

(** A program in memory: every byte of its segments. *)
Definition program_in (m : PhysMem) (pt : PageTable) (d : list Z) (ef : ElfFile) : Prop :=
  forall ph i, ph ∈ load_phs (elf_program_headers ef) -> ph_virtual_addr ph mod 4096 = 0 -> 0 <= i < ph_mem_size ph ->
    let a := ph_virtual_addr ph + i in
    load m (phys_of m pt a) = (if i <? ph_file_size ph then nth (Z.to_nat (ph_offset ph + i)) d 0 else 0) /\
    forall write, user_byte_ok m pt write a <-> (if write : bool then ph_write ph else ph_read ph) = true.

(** It stays while the rest of memory and the page of the trap context change. *)
Lemma program_stays lo L read_elf w0 w ms lab d ef tcx m' :
  elf_fits lo L read_elf w0 d ef -> space_at lo (user_base L) w ms lab (elf_layout d (load_phs (elf_program_headers ef))) ->
  (TRAP_CONTEXT_VPN, tcx) ∈ space_pairs (areas ms) ->
  (forall f x, f ∈ ms_frames ms -> in_frame f x -> ~ in_frame tcx x -> load m' x = load (fw_mem w) x) ->
  program_in m' (page_table ms) d ef.
Proof.
  intros Hfit Hsp Hp Hm ph i Hph Hal Hi a. pose proof Hfit as [_ _ _ _ _ _ Hsegs Hst _].
  destruct (segs_fit_in _ _ _ ph Hsegs Hph) as (e & Hseg). pose proof Hseg as [Hadr _ Hfile].
  pose proof (seg_region_in d ef ph Hph) as Hg. destruct (seg_region_wf d e ph Hseg) as [_ Hrange].
  destruct (region_byte lo (user_base L) w ms lab _ (seg_region d ph) a Hsp Hg) as (f & Hpf & _ & Ef & Hv & Hu).
  { cbn. unfold seg_l, seg_r, a. lia_mod. }
  pose proof (sa_ok _ _ _ _ _ _ Hsp) as Hok.
  assert (Hcx : tcx ∈ space_frames (areas ms)) by (rewrite <- space_pairs_frames; apply list_elem_of_fmap; by exists (TRAP_CONTEXT_VPN, tcx)).
  destruct (frames_disjoint _ _ _ _ _ _ tcx (so_frames _ _ _ _ _ Hok) Hcx) as (Hno & _).
  destruct (space_same_view _ _ _ _ _ m' Hok) with (a := a) as [Ep Eu].
  { intros g x Hin Hx. apply (Hm g); [apply elem_of_app; by left|done|]. intros Hx'. assert (g = tcx) as -> by (by eapply in_frame_inj). done. }
  assert (Hin : in_frame f (phys_of (fw_mem w) (page_table ms) a)) by (rewrite Ef; unfold in_frame; lia_mod).
  split; [|intros write; by rewrite Eu, Hu, seg_allows]. rewrite Ep, (Hm f _); [|  |done|].
  - rewrite Hv. replace (a - rg_l (seg_region d ph) * 4096) with i by (unfold a; cbn; unfold seg_l; lia_mod). apply seg_byte; lia.
  - apply elem_of_app. right. rewrite <- space_pairs_frames. apply list_elem_of_fmap. by exists (a / 4096, f).
  - intros Hx. assert (f = tcx) as -> by (by eapply in_frame_inj). pose proof (pair_inj _ _ _ _ _ _ _ _ _ Hsp Hpf Hp) as E.
    unfold TRAP_CONTEXT_VPN, a, seg_r, seg_l in *. lia_mod.
Qed.

Lemma laid_out_pages m l gs m' : laid_out m l gs -> regions_pages (area_region m' <$> l) = regions_pages gs.
Proof.
  induction 1 as [|g a gs l (fs & -> & _) _ IH]; [done|].
  change (rg_r g - rg_l g + regions_pages (area_region m' <$> l) = rg_r g - rg_l g + regions_pages gs). by rewrite IH.
Qed.

Lemma layout_pages d phs : regions_pages (elf_layout d phs) = seg_pages phs + 3.
Proof.
  unfold elf_layout. generalize (last_end phs 0). intros e. induction phs as [|ph phs IH].
  - cbn. unfold TRAMPOLINE_VPN, TRAP_CONTEXT_VPN. lia.
  - change (seg_r ph - seg_l ph + regions_pages ((seg_region d <$> phs) ++ [stack_region e; trap_region]) = seg_r ph - seg_l ph + seg_pages phs + 3).
    rewrite IH. lia.
Qed.

Section FirstProcess.
Context {F : Type} {FS : FileSystem F}.
Variable P : Platform.
Variable lo : Z.
Variable kb : list (Z * Z).
Variable kareas : list MapArea.
Hypothesis Hkl : kernel_layout kb kareas.
Implicit Type k : Kernel F.
Abbreviation L := (linker P).
Abbreviation mem_inv := (KernelMem.mem_inv lo L kb kareas).

(** The kernel has its space and nothing else. *)
Definition bare_kernel k : Prop :=
  exists klab, frames_ok lo kb (k_fw k) (page_table (KERNEL_SPACE k)) (areas (KERNEL_SPACE k)) klab /\ areas (KERNEL_SPACE k) = kareas.

Lemma bare_world k : bare_kernel k -> world_ok lo L kb kareas (k_fw k) (KERNEL_SPACE k) [] ∅.
Proof.
  intros (klab & Hf & Ha). split; try done; [by exists klab|by rewrite app_nil_r|apply NoDup_nil_2].
Qed.

Lemma bare_stacks k : no_tasks k -> spaces k = ∅.
Proof. intros (Hs & _). unfold spaces, views, k_tasks. by rewrite Hs. Qed.

Lemma kernel_token_width k : bare_kernel k -> in_width 64 (ms_token (KERNEL_SPACE k)).
Proof.
  intros (klab & [[Hwf _ _] _ _ _] & _). assert (Hr : ppn_ok (root_ppn (page_table (KERNEL_SPACE k)))).
  { apply (pw_range _ _ _ _ Hwf). eexists. apply (pw_root _ _ _ _ Hwf). }
  unfold ms_token, token. apply lor_in_width; [lia|by vm_compute|]. unfold ppn_ok, in_width in *. lia.
Qed.

(** [initproc] as [run_tasks] finds it. *)
Record first_task k (ms : MemorySet) (tcx : Z) (d : list Z) (ef : ElfFile) : Prop := {
  ft_sched : k_sched k = {|
    tasks := {[INITPROC := new_inner tcx ((elf_end ef + 3) * 4096) (goto_trap_return L (kernel_stack_top INITPROC)) ms]};
    PID2TCB := {[INITPROC]}; ready_queue := [INITPROC]; current := None |};
  ft_pids : PID_ALLOCATOR k = Pids.mkPids (INITPROC + 1) [];
  ft_context : load_trap_cx (k_mem k) tcx =
    app_init_context (sstatus_csr P) (elf_entry_point ef) ((elf_end ef + 3) * 4096) (ms_token (KERNEL_SPACE k)) (kernel_stack_top INITPROC)
      (trap_handler_addr L);
  ft_registers : trap_cx_wf (load_trap_cx (k_mem k) tcx);
  ft_program : program_in (k_mem k) (page_table ms) d ef;
  ft_pages : regions_pages (area_region (k_mem k) <$> areas ms) = seg_pages (load_phs (elf_program_headers ef)) + 3;
}.

Lemma tcb_new_spec k elf ef :
  no_tasks k -> bare_kernel k -> elf_fits lo L (elf_reader P) (k_fw k) elf ef ->
  3 * seg_pages (load_phs (elf_program_headers ef)) + 18 <= avail (fw_alloc (k_fw k)) ->
  Forall (in_width 64) [sstatus_csr P; elf_entry_point ef; trap_handler_addr L] ->
  exists k' ms tcx, tcb_new P k elf = Ret (INITPROC, k') /\ mem_inv (add_task k' INITPROC) /\
    first_task (add_task k' INITPROC) ms tcx elf ef /\
    avail (fw_alloc (k_fw k)) - (3 * seg_pages (load_phs (elf_program_headers ef)) + 18) <= avail (fw_alloc (k_fw k')).
Proof using Hkl.
  intros Hno Hb Hfit Hav Hwords. pose proof Hno as (Hsched & Hpids & _). pose proof (bare_world k Hb) as Hw.
  destruct (from_elf_spec lo L (elf_reader P) (k_fw k) elf ef Hfit) as (ms & w & lab & fs & E & Hsp & Heff & Hfs & Hav').
  destruct (trap_frame lo L w ms lab _ _ Hsp) as (tcx & Et & Hpair & Htf & Htl).
  set (s := mkSpace ms tcx false). set (sp := (elf_end ef + 3) * 4096) in *.
  assert (Hw1 : world_ok lo L kb kareas w (KERNEL_SPACE k) [] {[INITPROC := s]}).
  { rewrite <- insert_empty. apply (world_add lo L kb kareas (k_fw k) w _ _ _ INITPROC s fs); try done; [|by eapply space_at_wf].
    exists (user_base L), lab. split; [apply Hsp|]. intros _. split_and!; [done|by eapply space_at_below|done|by eapply elf_private]. }
  destruct (world_stack_push lo L kb kareas Hkl w (KERNEL_SPACE k) [] _ INITPROC Hw1) as (kfs & KS' & w' & Es & Hw2 & Heff2 & Hav2);
    [unfold pid_ok, INITPROC; lia|apply not_elem_of_nil|lia|].
  set (t := new_inner tcx sp (goto_trap_return L (kernel_stack_top INITPROC)) ms).
  set (k1 := set_fw (set_kernel_space (set_pids (set_fw k w) (Pids.mkPids 2 [])) KS') w').
  set (k2 := put_task k1 INITPROC t).
  set (cx := app_init_context (sstatus_csr P) (elf_entry_point ef) sp (ms_token KS') (kernel_stack_top INITPROC) (trap_handler_addr L)).
  set (k3 := set_mem k2 (store_trap_cx (k_mem k2) tcx cx)).
  assert (Ev : views k2 = {[INITPROC := task_view t]}).
  { unfold views, k2, put_task, set_tasks, k_tasks. cbn. unfold k_tasks, k1. cbn. rewrite Hsched. cbn. by rewrite insert_empty, map_fmap_singleton. }
  assert (Esp : spaces k2 = {[INITPROC := s]}) by (unfold spaces; by rewrite Ev, map_fmap_singleton).
  assert (Ha2 : at_space lo L kb kareas INITPROC s k2).
  { split; [|rewrite Esp; apply lookup_singleton_eq]. split.
    - exists [(INITPROC, kfs)]. rewrite Esp. split; [exact Hw2|]. intros p. cbn [fmap list_fmap fst]. rewrite list_elem_of_singleton, (lookup_singleton_is_Some INITPROC p s).
      split; exact (@eq_sym _ _ _).
    - rewrite Ev. apply map_Forall_singleton. by intros ?. }
  assert (Hcx : trap_cx_wf cx).
  { apply app_init_wf. rewrite !Forall_cons in Hwords. destruct Hwords as (H1 & H2 & H3 & _).
    repeat apply Forall_cons_2; try apply Forall_nil_2; try done.
    - pose proof Hfit as [_ _ _ _ _ _ Hsegs Hst _]. pose proof (last_end_ge _ _ _ Hsegs) as He. unfold sp, elf_end, in_width. lia.
    - unfold ms_token, token. rewrite (me_root _ _ _ _ _ _ Heff2). by apply (kernel_token_width k). }
  exists k3, ms, tcx. split_and!.
  - unfold tcb_new. rewrite E. cbn [mbind outcome_bind]. rewrite Et. cbn [mbind outcome_bind]. unfold alloc_pid_and_stack.
    change (PID_ALLOCATOR (set_fw k w)) with (PID_ALLOCATOR k). rewrite Hpids. change (Pids.alloc Pids.new) with (INITPROC, Pids.mkPids 2 []).
    unfold kernel_stack_new. rewrite (surjective_pairing (Pids.kernel_stack_position INITPROC)).
    change (Z.lor PERM_R PERM_W) with KSTACK_PERM. cbn [set_pids set_fw k_fw KERNEL_SPACE]. rewrite Es. reflexivity.
  - apply (mem_inv_inert lo L kb kareas k3); [by apply inert_same|].
    apply (at_space_trap_cx lo L kb kareas INITPROC s k2 cx Ha2 eq_refl), Hcx.
  - split.
    + unfold add_task, k3, k2, put_task, set_tasks, k1. cbn. unfold k_tasks. cbn. rewrite Hsched. cbn. by rewrite insert_empty, union_empty_r_L.
    + done.
    + change (k_mem (add_task k3 INITPROC)) with (store_trap_cx (k_mem k2) tcx cx). by apply (load_store_trap_cx (k_mem k2)).
    + change (k_mem (add_task k3 INITPROC)) with (store_trap_cx (k_mem k2) tcx cx). by rewrite (load_store_trap_cx (k_mem k2)).
    + apply (program_stays lo L (elf_reader P) (k_fw k) w ms lab elf ef tcx); [done..|]. intros f x Hf Hx Hnx.
      change (k_mem (add_task k3 INITPROC)) with (store_trap_cx (fw_mem w') tcx cx). rewrite store_trap_cx_outside; [|done|apply Hcx|done].
      apply (ms_effect_keeps lo w w' _ _ kfs f x Heff2); [|  |done].
      * apply (world_live lo L kb kareas w _ _ _ f Hw1). right. exists INITPROC, s. split; [apply lookup_singleton_eq|done].
      * intros Hin. apply (wo_kapart _ _ _ _ _ _ _ _ Hw1 INITPROC s f (lookup_singleton_eq _ _) Hf). apply elem_of_app. by left.
    + by rewrite (laid_out_pages (fw_mem w) _ (elf_layout elf (load_phs (elf_program_headers ef)))), layout_pages by apply Hsp.
  - cbn. lia.
Qed.

(** The scheduler runs it. *)
Lemma first_task_runs k ms tcx d ef :
  first_task k ms tcx d ef ->
  exists k', run_tasks_round k = Ret (Some k') /\ current_task k' = Some INITPROC /\
    k_tasks k' !! INITPROC = Some (set_task_status (new_inner tcx ((elf_end ef + 3) * 4096) (goto_trap_return L (kernel_stack_top INITPROC)) ms) Running) /\
    k_fw k' = k_fw k /\ PID_ALLOCATOR k' = PID_ALLOCATOR k.
Proof.
  intros [Hs _ _ _ _ _]. set (t := new_inner _ _ _ _) in *.
  assert (Htk : tasks (k_sched k) !! INITPROC = Some t) by (rewrite Hs; apply lookup_singleton_eq).
  unfold run_tasks_round, fetch_task, task_inner. rewrite Hs. cbn [ready_queue]. unfold k_tasks. cbn [set_sched k_sched tasks]. rewrite Htk. cbn.
  eexists. split; [done|]. cbn. by rewrite lookup_insert_eq.
Qed.
End FirstProcess.

(** ** The boot sequence *)

Section RustMain.
Context {F : Type} {FS : FileSystem F}.
Variable P : Platform.
Variable read_fuel : nat.
Implicit Type k : Kernel F.
Abbreviation L := (linker P).
Abbreviation lo := (ekernel L / 4096).

Lemma init_frame_allocator_spec :
  image_ok L -> Frames.wf lo (init_frame_allocator L) /\ avail (init_frame_allocator L) = 0x88000 - lo.
Proof.
  intros [Hlow Hord Hal _]. unfold MEMORY_END in Hord.
  assert (Hek : ekernel L mod 4096 = 0) by (repeat apply Forall_cons in Hal as [? Hal]; done).
  assert (E : init_frame_allocator L = Frames.mkFrames lo 0x88000 []).
  { unfold init_frame_allocator, Frames.init. rewrite PhysAddr_from_small by lia. rewrite ceil_val by lia.
    replace ((ekernel L + 4095) / 4096) with lo by lia_mod. reflexivity. }
  rewrite E. unfold Frames.wf, avail. cbn. split; [|lia]. split_and!; try lia; [lia_mod..|apply NoDup_nil_2|constructor].
Qed.

(** The image of [initproc] fits whatever frames it is given. *)
Definition image_fits (d : list Z) (ef : ElfFile) : Prop :=
  forall w, Frames.wf lo (fw_alloc w) -> 3 * seg_pages (load_phs (elf_program_headers ef)) + 12 <= avail (fw_alloc w) ->
    elf_fits lo L (elf_reader P) w d ef.

Lemma image_pages d ef : image_ok L -> image_fits d ef -> 0 <= seg_pages (load_phs (elf_program_headers ef)).
Proof.
  intros Hi Hfit. destruct (Z.le_gt_cases 0 (seg_pages (load_phs (elf_program_headers ef)))) as [|Hneg]; [done|].
  pose proof (im_order L Hi) as Hord. pose proof (im_low L Hi) as Hlow. unfold MEMORY_END in Hord.
  destruct (Hfit {| fw_mem := ∅; fw_alloc := Frames.mkFrames lo (2 ^ 44) [] |}) as [_ _ _ _ _ _ Hsegs _ _].
  - unfold Frames.wf. cbn. split_and!; [lia_mod|lia|lia_mod|lia|apply NoDup_nil_2|constructor].
  - unfold avail. cbn. lia_mod.
  - by eapply seg_pages_nonneg.
Qed.

(** The file system holds [initproc], with contents [d]. *)
Definition holds_initproc (fs : F) (d : list Z) : Prop :=
  forall k, fs_state (k_io k) = fs -> exists k1 key k2, open_file k INITPROC_NAME RDONLY = Ret (k1, Some key) /\
    read_all read_fuel k1 key [] = Ret (k2, d).

Lemma set_next_trigger_runs t : timer_ok t -> exists d t', set_next_trigger t = Ret (d, t') /\ timer_ok t'.
Proof.
  intros Ht. pose proof Ht as [Hf Hr].
  assert (E : exists d t', set_next_trigger t = Ret (d, t')).
  { unfold set_next_trigger, get_time, clock_freq. cbn [CLOCK_FREQ]. rewrite (proj2 (Z.eqb_neq _ 0)) by lia. cbn. by eexists _, _. }
  destruct E as (d & t' & E). exists d, t'. split; [done|]. by eapply set_next_trigger_ok.
Qed.

Lemma open_file_statics k name flags k' r : open_file k name flags = Ret (k', r) -> PID_ALLOCATOR k' = PID_ALLOCATOR k /\ k_audit k' = k_audit k.
Proof. intros H. unfold open_file, new_os_inode in H. inv_ret H; by simplify_eq. Qed.

(** [add_initproc] on a kernel that has its space and nothing else. *)
Lemma add_initproc_spec kb kareas k d ef :
  kernel_layout kb kareas -> no_tasks k -> bare_kernel lo kb kareas k -> holds_initproc (fs_state (k_io k)) d -> image_fits d ef ->
  3 * seg_pages (load_phs (elf_program_headers ef)) + 18 <= avail (fw_alloc (k_fw k)) ->
  Forall (in_width 64) [sstatus_csr P; elf_entry_point ef; trap_handler_addr L] ->
  exists k' ms tcx, add_initproc P read_fuel k = Ret k' /\ kinv k' /\ KernelMem.mem_inv lo L kb kareas k' /\
    first_task P k' ms tcx d ef /\
    avail (fw_alloc (k_fw k)) - (3 * seg_pages (load_phs (elf_program_headers ef)) + 18) <= avail (fw_alloc (k_fw k')).
Proof.
  intros Hkl Hno Hb Hfs Hfit Hav Hwords. destruct (Hfs k eq_refl) as (k1 & key & k2 & E1 & E2).
  pose proof (inert_open_file _ _ _ _ _ E1) as I1. pose proof (inert_read_all _ _ _ _ _ _ E2) as I2.
  assert (I : inert k k2) by (by etransitivity). destruct I as (Ef & Ek & _).
  pose proof (open_file_sched _ _ _ _ _ E1) as Es1. destruct (open_file_statics _ _ _ _ _ E1) as [Ep1 Ea1].
  destruct (read_all_sched _ _ _ _ _ _ E2) as (Es2 & Ep2 & Ea2).
  assert (Hno2 : no_tasks k2) by (unfold no_tasks; by rewrite Es2, Es1, Ep2, Ep1, Ea2, Ea1).
  assert (Hb2 : bare_kernel lo kb kareas k2) by (unfold bare_kernel; by rewrite Ef, Ek).
  destruct Hb as (klab & [[_ Hwf _] _ _ _] & _).
  destruct (tcb_new_spec P lo kb kareas Hkl k2 d ef Hno2 Hb2) as (k3 & ms & tcx & E3 & Hm & Hft & Hav3); [|by rewrite Ef|done|].
  { rewrite Ef. apply Hfit; [done|lia]. }
  destruct (boot_kinv P k2 d INITPROC k3 Hno2 E3) as [_ Hk].
  exists (add_task k3 INITPROC), ms, tcx. rewrite Ef in Hav3. split_and!; [|done..].
  unfold add_initproc. rewrite E1. cbn [mbind outcome_bind unwrap]. rewrite E2. cbn [mbind outcome_bind]. by rewrite E3.
Qed.

Lemma boot_ready_spec (m : PhysMem) (t : Timer) (fs fs' : F) names (input : list Z) d ef :
  image_ok L -> stext L < etext L -> srodata L < erodata L -> sdata L < edata L -> timer_ok t ->
  fs_ls fs = Ret (names, fs') -> holds_initproc fs' d -> image_fits d ef ->
  kernel_tables L + 3 * seg_pages (load_phs (elf_program_headers ef)) + 18 <= 0x88000 - lo ->
  Forall (in_width 64) [sstatus_csr P; elf_entry_point ef; trap_handler_addr L] ->
  exists k ms tcx, rust_main P read_fuel m t fs input = Ret k /\
    kinv k /\ KernelMem.mem_inv lo L (kernel_base L) (kernel_areas L) k /\
    first_task P k ms tcx d ef /\
    0x88000 - lo - (kernel_tables L + 3 * seg_pages (load_phs (elf_program_headers ef)) + 18) <= avail (fw_alloc (k_fw k)) /\
    exists k', run_tasks_round k = Ret (Some k') /\ current_task k' = Some INITPROC.
Proof.
  intros Hi H1 H2 H3 Ht Hls Hinit Hfit Hav Hwords. destruct (init_frame_allocator_spec Hi) as [Hwf Eav].
  set (w0 := {| fw_mem := m; fw_alloc := init_frame_allocator L |}).
  destruct (set_next_trigger_runs t Ht) as (dl & t' & Et & Ht').
  pose proof (image_pages d ef Hi Hfit) as Hpages.
  destruct (new_kernel_spec lo L w0 Hwf Hi) as (ks & w & lab & Ek & Hf & Ha & Hav'); [cbn [fw_alloc w0]; lia|].
  cbn [fw_alloc w0] in Hav'. rewrite Eav in Hav'.
  set (k0 := mkKernel F FS w ks Pids.new static_sched {| AUDIT_RING := Audit.ring_new; aw_timer := t' |} (static_io fs input)).
  destruct (add_initproc_spec (kernel_base L) (kernel_areas L) (set_fs k0 fs') d ef) as (k & ms & tcx & E & Hk & Hm & Hft & Hav3); try done.
  - by apply image_kernel_layout.
  - split_and!; [done|done|]. exists []. split; [apply ring_repr_new|exact Ht'].
  - by exists lab.
  - change (fw_alloc (k_fw (set_fs k0 fs'))) with (fw_alloc w). lia.
  - exists k, ms, tcx. change (fw_alloc (k_fw (set_fs k0 fs'))) with (fw_alloc w) in Hav3. split_and!; [|done..|lia|].
    + unfold rust_main, mm_init. fold w0. rewrite Ek. cbn [mbind outcome_bind].
      rewrite (remap_test_passes lo L w ks lab) by done. cbn [mbind outcome_bind]. rewrite Et. cbn [mbind outcome_bind].
      fold k0. unfold list_apps. change (fs_state (k_io k0)) with fs. rewrite Hls. cbn [mbind outcome_bind]. exact E.
    + destruct (first_task_runs P k ms tcx d ef Hft) as (k' & Er & Hc & _). by exists k'.
Qed.

(** C3: boot.  With a kernel image and an [initproc] that fit the memory of the
    board, the initialisation in [rust_main] returns without panic, whatever
    memory held: the boot check passes, and the state the scheduler starts from
    satisfies the invariants of the process table and of memory.  [initproc],
    PID 1, is the one task, ready; its image is in its memory, and its trap
    context starts it at its entry point with an empty stack, on the kernel
    stack of PID 1; all frames but those counted are left. *)
Theorem boot_ready (m : PhysMem) (t : Timer) (fs fs' : F) names (input : list Z) d ef :
  image_ok L -> stext L < etext L -> srodata L < erodata L -> sdata L < edata L -> timer_ok t ->
  fs_ls fs = Ret (names, fs') -> holds_initproc fs' d -> image_fits d ef ->
  kernel_tables L + 3 * seg_pages (load_phs (elf_program_headers ef)) + 18 <= 0x88000 - lo ->
  Forall (in_width 64) [sstatus_csr P; elf_entry_point ef; trap_handler_addr L] ->
  exists k ms tcx, rust_main P read_fuel m t fs input = Ret k /\
    kinv k /\ KernelMem.mem_inv lo L (kernel_base L) (kernel_areas L) k /\
    first_task P k ms tcx d ef /\
    0x88000 - lo - (kernel_tables L + 3 * seg_pages (load_phs (elf_program_headers ef)) + 18) <= avail (fw_alloc (k_fw k)) /\
    exists k', run_tasks_round k = Ret (Some k') /\ current_task k' = Some INITPROC.
Proof. apply boot_ready_spec. Qed.
End RustMain.
