(* ===== verification/FsPack.v ===== *)
(** * The disk image

    [easy-fs-fuse/src/main.rs]: the tool of the build that formats an image
    file and copies the programs into it.  The host's file system is the
    standard library's: a file is its bytes, a directory the names it lists.
    The theorem follows the image to the board: the kernel boots from it into
    the [initproc] that was packed. *)
From S2P Require Import Prelude Utf8 IpcApi Quota Timer AuditLog AuditFacts Facade Address Allocators PageTable.
From S2P Require Import UserAccess Pipe MemorySet MemorySetInv MemorySetSpec MemorySetFork FrameWorldInv KernelSpace.
From S2P Require Import Signals Task Kernel SyscallFs SyscallProcess Trap KernelInv TrapInv CallSpecs.
From S2P Require Import EfsCache EfsCacheFacts EfsWords EfsBitmap EfsLayout EfsInodeFacts EfsGrow EfsFileFacts EfsVfs.
From S2P Require Import EfsAlloc EfsInv EfsOps EfsDir EfsMkfs EfsSpec EfsKernel KernelMem Boot.

Module FsPack.

Definition BLOCK_SZ : Z := 512.

(** The image file; every access seeks first, so there is no position. *)
Record BlockFile : Type := mkFile { file : list Z }.

(** [File::read] and [File::write] of a regular file, and [File::set_len]. *)
Definition std_read (f : list Z) (pos len : Z) : list Z := EfsCache.slice f pos len.
Definition std_write (f : list Z) (pos : Z) (buf : list Z) : list Z :=
  EfsCache.splice (f ++ replicate (Z.to_nat pos - length f) 0) pos buf.
Definition set_len (f : list Z) (size : Z) : list Z :=
  take (Z.to_nat size) f ++ replicate (Z.to_nat size - length f) 0.

Definition read_block (self : BlockFile) (block_id : Z) : outcome (list Z) :=
  let buf := std_read (file self) (wrap 64 (block_id * BLOCK_SZ)) 512 in
  _ ← assert_ (Z.of_nat (length buf) =? BLOCK_SZ);
  Ret buf.

Definition write_block (self : BlockFile) (block_id : Z) (buf : list Z) : outcome BlockFile :=
  let f := std_write (file self) (wrap 64 (block_id * BLOCK_SZ)) buf in
  _ ← assert_ (Z.of_nat (length buf) =? BLOCK_SZ);
  Ret (mkFile f).

#[export] Instance block_file : BlockDevice BlockFile := Build_BlockDevice BlockFile read_block write_block.

(** [name_with_ext.drain(name_with_ext.find('.').unwrap()..)] *)
Definition app_name (name_with_ext : list Z) : outcome (list Z) :=
  '(dot, _) ← unwrap (list_find (fun c => c = 0x2e) name_with_ext);
  Ret (take dot name_with_ext).

Fixpoint app_names (entries : list (list Z)) : outcome (list (list Z)) :=
  match entries with
  | [] => Ret []
  | e :: rest => app ← app_name e; apps ← app_names rest; Ret (app :: apps)
  end.

Section Pack.
Variable host : list Z -> option (list Z).  (** the files of the target directory *)

Fixpoint pack_apps (efs : Efs.EasyFileSystem) (apps : list (list Z)) (st : EfsCache.CacheManager BlockFile)
    : outcome (EfsCache.CacheManager BlockFile) :=
  match apps with
  | [] => Ret st
  | app :: rest =>
      all_data ← unwrap (host app);
      '(inode, st) ← Vfs.create efs (Vfs.root_inode efs) app st;
      inode ← unwrap inode;
      '(_, st) ← Vfs.write_at efs inode 0 all_data st;
      pack_apps efs rest st
  end.

(** [opened]: the image file as it was, [None] when it cannot be opened;
    [source]: the names [read_dir] lists.  [None] is the error. *)
Definition easy_fs_pack (opened : option (list Z)) (source : list (list Z)) : outcome (option BlockFile) :=
  match opened with
  | None => Ret None
  | Some old =>
      let f := mkFile (set_len old (16 * 2048 * 512)) in
      '(efs, st) ← Efs.create (16 * 2048) 1 (EfsCache.manager_new f);
      apps ← app_names source;
      st ← pack_apps efs apps st;
      Ret (Some (EfsCache.block_device st))
  end.

Definition main (opened : option (list Z)) (source : list (list Z)) : outcome BlockFile :=
  r ← easy_fs_pack opened source; unwrap r.

End Pack.
End FsPack.
Import FsPack.

(** ** The image file as a block device *)

(** Blocks past [2^54] would overflow the offset. *)
Definition file_blocks (f : BlockFile) : Z := Z.min (2 ^ 54) (Z.of_nat (length (file f)) / 512).
Definition chunk (f : BlockFile) (id : Z) : list Z := EfsCache.slice (file f) (id * 512) 512.
#[local] Instance block_ok_decision b : Decision (block_ok b).
Proof. unfold block_ok. apply _. Defined.

Definition file_view (f : BlockFile) : gmap Z (list Z) :=
  filter (fun p => block_ok p.2) (list_to_map ((fun id => (id, chunk f id)) <$> seqZ 0 (file_blocks f))).


Lemma file_view_lookup f id b :
  file_view f !! id = Some b <-> 0 <= id < file_blocks f /\ b = chunk f id /\ block_ok b.
Proof.
  unfold file_view. rewrite map_lookup_filter_Some. cbn [snd].
  assert (Hnd : NoDup ((fun id => (id, chunk f id)) <$> seqZ 0 (file_blocks f)).*1).
  { rewrite <- list_fmap_compose. cbn. change (NoDup ((fun x : Z => x) <$> seqZ 0 (file_blocks f))). rewrite list_fmap_id. apply NoDup_seqZ. }
  split.
  - intros [Hl Hok]. apply elem_of_list_to_map_2, list_elem_of_fmap in Hl as (x & E & Hx%elem_of_seqZ). simplify_eq. split; [lia|done].
  - intros (Hid & -> & Hok). split; [|done]. apply elem_of_list_to_map; [done|]. apply list_elem_of_fmap. exists id. split; [done|].
    apply elem_of_seqZ. lia.
Qed.

#[export] Instance block_file_laws : BlockDeviceLaws BlockFile.
Proof.
  refine (Build_BlockDeviceLaws BlockFile _ file_view _ _ _).
  - intros f id b Hb. by apply file_view_lookup in Hb as (_ & _ & ?).
  - intros f id b (Hid & -> & Hok & _)%file_view_lookup. cbn. unfold read_block, std_read, FsPack.BLOCK_SZ.
    unfold file_blocks in Hid. rewrite wrap_small by (unfold in_width; lia). fold (chunk f id). by rewrite Hok.
  - intros f id b [b0 (Hid & -> & Hok0 & _)%file_view_lookup] Hok. cbn. unfold write_block, FsPack.BLOCK_SZ. pose proof Hok as [Hlen _].
    rewrite Hlen. eexists. split; [done|]. unfold file_blocks in Hid. rewrite wrap_small by (unfold in_width; lia).
    assert (Hroom : (Z.to_nat (id * 512) + 512 <= length (file f))%nat) by lia_mod.
    unfold std_write. replace (Z.to_nat (id * 512) - length (file f))%nat with 0%nat by lia. cbn [replicate]. rewrite app_nil_r.
    set (f' := mkFile (EfsCache.splice (file f) (id * 512) b)).
    assert (Hl' : length (file f') = length (file f)) by (apply length_splice; lia).
    assert (Hnew : chunk f' id = b).
    { unfold chunk. replace 512 with (Z.of_nat (length b)) by lia. unfold f'. cbn [file]. replace (id * Z.of_nat (length b)) with (id * 512) by lia.
      apply slice_splice_same; lia. }
    assert (Hold : forall i, 0 <= i < file_blocks f -> i <> id -> chunk f' i = chunk f i).
    { intros i Hi Hne. unfold file_blocks in Hi. apply slice_splice_other; lia_mod. }
    apply map_eq. intros i. apply option_eq. intros c. rewrite file_view_lookup. destruct (decide (i = id)) as [->|Hne].
    + rewrite lookup_insert_eq, Hnew. unfold file_blocks. rewrite Hl'. split; [by intros (_ & -> & _)|]. intros [= <-]. split; [lia|done].
    + rewrite lookup_insert_ne, file_view_lookup by done. unfold file_blocks. rewrite Hl'. split; intros (Hi & -> & Ho);
        (split; [exact Hi|]); rewrite Hold in * by done; done.
Defined.

(** A file of zeros or of what it held before, cut to its blocks. *)
Lemma set_len_view old n id :
  Forall (in_width 8) old -> 0 <= n < 2 ^ 54 -> 0 <= id < n -> is_Some (file_view (mkFile (set_len old (n * 512))) !! id).
Proof.
  intros Hold Hn Hid. set (f := mkFile _). assert (Hl : length (file f) = Z.to_nat (n * 512)).
  { unfold f, set_len. cbn [file]. rewrite length_app, length_take, length_replicate. lia. }
  exists (chunk f id). apply file_view_lookup. split; [unfold file_blocks; rewrite Hl; lia_mod|]. split; [done|]. split.
  - unfold chunk. rewrite length_slice by lia. done.
  - apply slice_range. unfold f, set_len. cbn [file]. apply Forall_app. split; [by apply Forall_take|].
    apply Forall_replicate. unfold in_width. lia.
Qed.

(** ** The tree of an image *)

(** Names and contents. *)
Abbreviation packed := (list (list Z * list Z)).
Implicit Type l : packed.

(** In the order they are copied: inodes 1, 2, ... *)
Definition pack_tree l : Tree :=
  mkTree (zip l.*1 (seqZ 1 (Z.of_nat (length l)))) (list_to_map (zip (seqZ 1 (Z.of_nat (length l))) l.*2)).

Lemma pack_tree_keys l : (zip (seqZ 1 (Z.of_nat (length l))) l.*2).*1 = seqZ 1 (Z.of_nat (length l)).
Proof. apply fst_zip. rewrite length_seqZ, length_fmap. lia. Qed.

Lemma pack_tree_snoc l name data :
  let k := Z.of_nat (length l) + 1 in
  pack_tree (l ++ [(name, data)]) = mkTree (entries (pack_tree l) ++ [(name, k)]) (<[k := data]> (contents (pack_tree l))).
Proof.
  intros k. unfold pack_tree. cbn [entries contents].
  assert (Es : seqZ 1 (Z.of_nat (length (l ++ [(name, data)]))) = seqZ 1 (Z.of_nat (length l)) ++ [k]).
  { rewrite length_app. cbn [length]. rewrite Nat2Z.inj_add, seqZ_app by lia. f_equal. change (Z.of_nat 1) with 1.
    replace (1 + Z.of_nat (length l)) with k by lia. reflexivity. }
  rewrite Es, !fmap_app. rewrite !zip_with_app by (rewrite length_seqZ, length_fmap; lia). f_equal.
  apply list_to_map_snoc. rewrite pack_tree_keys. rewrite elem_of_seqZ. lia.
Qed.

Lemma pack_tree_contents l i n d : l !! i = Some (n, d) -> contents (pack_tree l) !! (Z.of_nat i + 1) = Some d.
Proof.
  intros Hl. apply elem_of_list_to_map; [rewrite pack_tree_keys; apply NoDup_seqZ|].
  apply list_elem_of_lookup. exists i. rewrite lookup_zip_Some. split; [|by rewrite list_lookup_fmap, Hl].
  apply lookup_seqZ. apply lookup_lt_Some in Hl. lia.
Qed.

Lemma pack_tree_names l : (entries (pack_tree l)).*1 = l.*1.
Proof. apply fst_zip. rewrite length_seqZ, length_fmap. lia. Qed.

Lemma pack_tree_find l i n d : NoDup l.*1 -> l !! i = Some (n, d) -> dir_find n (entries (pack_tree l)) = Some (Z.of_nat i + 1).
Proof.
  intros Hnd Hl. unfold dir_find. assert (He : entries (pack_tree l) !! i = Some (n, Z.of_nat i + 1)).
  { apply lookup_zip_Some. split; [by rewrite list_lookup_fmap, Hl|]. apply lookup_seqZ. apply lookup_lt_Some in Hl. lia. }
  replace (list_find _ _) with (Some (i, (n, Z.of_nat i + 1))); [done|]. symmetry. apply list_find_Some. split_and!; [done|done|].
  intros j y Hj Hlt Hn. assert (Hj' : (entries (pack_tree l)).*1 !! j = Some n) by (by rewrite list_lookup_fmap, Hj, <- Hn).
  assert (Hi' : (entries (pack_tree l)).*1 !! i = Some n) by (by rewrite list_lookup_fmap, He).
  rewrite pack_tree_names in Hj', Hi'. pose proof (NoDup_lookup _ _ _ _ Hnd Hj' Hi'). lia.
Qed.

(** ** Copying the files *)

Definition image_fs : Efs.EasyFileSystem := layout_of (16 * 2048) 1.
Definition image_area : Z := mkfs_area (16 * 2048) 1.

Lemma image_mkfs : mkfs_ok (16 * 2048) 1.
Proof. unfold mkfs_ok. lia. Qed.

Lemma image_geometry : geometry image_fs image_area.
Proof. apply layout_geometry, image_mkfs. Qed.

(** What can be packed: distinct names that fit an entry, contents that are
    there, at most 4095 files, and room for them and their index blocks. *)
Record packable l : Prop := {
  pk_names : NoDup l.*1;
  pk_fit : Forall name_ok l.*1;
  pk_data : Forall (fun d => d <> [] /\ Z.of_nat (length d) <= MAX_BLOCKS * 512 /\ Forall (in_width 8) d) l.*2;
  pk_count : Z.of_nat (length l) < 4096;
  pk_space : space (files_of (pack_tree l)) <= image_area;
}.

Definition data_cost l : Z := foldr (fun f acc => cost (EfsLayout.File, f.2) + acc) 0 l.

Lemma data_cost_app l1 l2 : data_cost (l1 ++ l2) = data_cost l1 + data_cost l2.
Proof.
  induction l1 as [|f l1 IH]; [done|]. change (data_cost ((f :: l1) ++ l2)) with (cost (EfsLayout.File, f.2) + data_cost (l1 ++ l2)).
  change (data_cost (f :: l1)) with (cost (EfsLayout.File, f.2) + data_cost l1). lia.
Qed.

Lemma cost_nonneg f : 0 <= cost f.
Proof.
  unfold cost. change 0 with (owned_count 0) at 1. apply owned_count_mono. unfold EfsLayout._data_blocks, wrap. split; [done|].
  apply Z.div_pos; [|done]. by apply Z.mod_pos_bound.
Qed.

Lemma data_cost_nonneg l : 0 <= data_cost l.
Proof. induction l as [|f l IH]; [done|]. apply Z.add_nonneg_nonneg; [apply cost_nonneg|exact IH]. Qed.

Lemma pack_tree_fresh l : contents (pack_tree l) !! (Z.of_nat (length l) + 1) = None.
Proof. apply not_elem_of_list_to_map_1. rewrite pack_tree_keys, elem_of_seqZ. lia. Qed.

(** Names alone make a well-formed tree. *)
Lemma pack_tree_ok l : NoDup l.*1 -> Forall name_ok l.*1 -> Z.of_nat (length l) < 4096 -> tree_ok (pack_tree l).
Proof.
  induction l as [|[n d] l IH] using rev_ind; intros Hnd Hok Hlen; [apply empty_tree_ok|].
  rewrite fmap_app in Hnd, Hok. apply NoDup_app in Hnd as (Hnd & Hn & _). apply Forall_app in Hok as [Hok Hokn].
  apply Forall_cons in Hokn as [Hokn _]. cbn [fst] in Hokn. rewrite length_app in Hlen. cbn in Hlen.
  assert (Ht : tree_ok (pack_tree l)) by (apply IH; try done; lia). rewrite pack_tree_snoc.
  assert (Hc : tree_ok (mkTree (entries (pack_tree l) ++ [(n, Z.of_nat (length l) + 1)]) (<[Z.of_nat (length l) + 1 := []]> (contents (pack_tree l))))).
  { apply tree_ok_create; [done|split; [exact Hokn|unfold in_width; cbn [snd]; lia]| |lia|apply pack_tree_fresh].
    apply dir_find_None. rewrite pack_tree_names. intros Hin. apply (Hn _ Hin). left. }
  apply (tree_ok_contents _ (Z.of_nat (length l) + 1) d) in Hc; [|cbn; rewrite lookup_insert_eq; by eexists].
  cbn [entries contents] in Hc. by rewrite insert_insert_eq in Hc.
Qed.

Lemma pack_tree_space l :
  space (files_of (pack_tree l)) = cost (EfsLayout.Directory, dir_bytes (entries (pack_tree l))) + data_cost l.
Proof.
  unfold files_of. rewrite space_insert.
  2:{ rewrite lookup_fmap. replace (contents (pack_tree l) !! 0) with (@None (list Z)); [done|]. symmetry.
      apply not_elem_of_list_to_map_1. rewrite pack_tree_keys, elem_of_seqZ. lia. }
  f_equal. induction l as [|[n d] l IH] using rev_ind; [change (contents (pack_tree [])) with (∅ : gmap Z (list Z)); by rewrite fmap_empty|].
  rewrite pack_tree_snoc. cbn [contents]. rewrite fmap_insert, space_insert by (by rewrite lookup_fmap, pack_tree_fresh).
  rewrite IH, data_cost_app. change (data_cost [(n, d)]) with (cost (EfsLayout.File, d) + 0). lia.
Qed.

Lemma pack_dir_length l :
  NoDup l.*1 -> Forall name_ok l.*1 -> Z.of_nat (length l) < 4096 ->
  Z.of_nat (length (dir_bytes (entries (pack_tree l)))) = 32 * Z.of_nat (length l).
Proof.
  intros H1 H2 H3. rewrite length_dir_bytes by (apply entries_good_fit, to_good; by apply pack_tree_ok).
  rewrite <- (length_fmap fst (entries (pack_tree l))), pack_tree_names, length_fmap. lia.
Qed.

Lemma packable_prefix l1 l2 : packable (l1 ++ l2) -> packable l1.
Proof.
  intros [Hn Hf Hd Hc Hs].
  assert (Hdir : cost (EfsLayout.Directory, dir_bytes (entries (pack_tree l1))) <= cost (EfsLayout.Directory, dir_bytes (entries (pack_tree (l1 ++ l2))))).
  { pose proof (pack_dir_length (l1 ++ l2) Hn Hf Hc) as E. rewrite !fmap_app in *. apply NoDup_app in Hn as (Hn1 & _). apply Forall_app in Hf as [Hf1 _].
    rewrite length_app in *. apply cost_mono; rewrite E, ?pack_dir_length; unfold MAX_BLOCKS; done || lia. }
  rewrite !pack_tree_space, data_cost_app in Hs. pose proof (data_cost_nonneg l2).
  rewrite !fmap_app in *. apply NoDup_app in Hn as (Hn1 & _). apply Forall_app in Hf as [Hf1 _]. apply Forall_app in Hd as [Hd1 _].
  rewrite length_app in Hc. split; [done..|lia|]. rewrite pack_tree_space. lia.
Qed.

(** The same files with the last one still empty. *)
Lemma packable_empty l n d : packable (l ++ [(n, d)]) -> space (files_of (pack_tree (l ++ [(n, [])]))) <= image_area.
Proof.
  intros [_ _ _ _ Hs]. etransitivity; [|exact Hs]. rewrite !pack_tree_space, !data_cost_app.
  rewrite !pack_tree_snoc. cbn [entries]. change (data_cost [(n, [])]) with 0. pose proof (data_cost_nonneg [(n, d)]). lia.
Qed.

Lemma pack_tree_length l : length (entries (pack_tree l)) = length l.
Proof. by rewrite <- (length_fmap fst), pack_tree_names, length_fmap. Qed.

Lemma files_of_dom l k : Z.of_nat (length l) < 4096 -> k ∈ dom (files_of (pack_tree l)) <-> 0 <= k <= Z.of_nat (length l).
Proof.
  intros Hl. unfold files_of. rewrite dom_insert, dom_fmap, elem_of_union, elem_of_singleton. unfold pack_tree. cbn [contents].
  rewrite dom_list_to_map, elem_of_list_to_set, pack_tree_keys, elem_of_seqZ. lia.
Qed.

(** The next inode in order is the one [create] takes. *)
Lemma pack_tree_next l : Z.of_nat (length l) + 1 < 4096 -> fresh_inode image_fs (files_of (pack_tree l)) = Some (Z.of_nat (length l) + 1).
Proof.
  intros Hl. unfold fresh_inode. change (inode_count image_fs) with 4096.
  replace (list_find _ _) with (Some (S (length l), Z.of_nat (length l) + 1)); [done|]. symmetry. apply list_find_Some.
  rewrite lookup_seqZ, files_of_dom by lia. split_and!; [lia..|]. intros j y [-> Hj]%lookup_seqZ Hlt Hn. apply Hn.
  apply files_of_dom; lia.
Qed.

Lemma spec_create_packed l n d :
  packable (l ++ [(n, d)]) ->
  spec_create image_fs image_area (pack_tree l) n = Some (RInode (Some (Z.of_nat (length l) + 1)), pack_tree (l ++ [(n, [])])).
Proof.
  intros Hp. pose proof (packable_empty _ _ _ Hp) as Hsp. destruct Hp as [Hn Hf _ Hc _]. rewrite fmap_app in Hn, Hf. rewrite length_app in Hc. cbn [length] in Hc.
  apply NoDup_app in Hn as (_ & Hn & _). apply Forall_app in Hf as [_ Hf]. apply Forall_cons in Hf as [Hf _]. cbn [fst] in Hf.
  unfold spec_create. replace (dir_find n (entries (pack_tree l))) with (@None Z).
  2:{ symmetry. apply dir_find_None. rewrite pack_tree_names. intros Hin. apply (Hn _ Hin). left. }
  rewrite pack_tree_next by lia. cbn [mbind option_bind]. rewrite pack_tree_snoc in Hsp |- *.
  rewrite decide_True; [done|]. split_and!; [exact Hf| |exact Hsp]. rewrite pack_tree_length. unfold MAX_BLOCKS. lia.
Qed.

Lemma write_bytes_fresh data : write_bytes [] 0 data = data.
Proof.
  unfold write_bytes, EfsCache.splice. cbn [Z.to_nat take app Nat.add]. rewrite drop_ge; [apply app_nil_r|].
  cbn [length app]. rewrite length_replicate. lia.
Qed.

Lemma spec_write_packed l n d :
  packable (l ++ [(n, d)]) ->
  spec_write image_area (pack_tree (l ++ [(n, [])])) (Z.of_nat (length l) + 1) 0 d
  = Some (RCount (Z.of_nat (length d)), pack_tree (l ++ [(n, d)])).
Proof.
  intros [_ _ Hd _ Hsp]. rewrite fmap_app in Hd. apply Forall_app in Hd as [_ Hd]. apply Forall_cons in Hd as [(Hne & Hmax & Hb) _]. cbn [snd] in *.
  unfold spec_write. rewrite !pack_tree_snoc in *. cbn [entries contents]. rewrite lookup_insert_eq. cbn [mbind option_bind].
  rewrite write_bytes_fresh, insert_insert_eq. by rewrite decide_True by (split_and!; done || lia).
Qed.

(** What the cache holds and what the device holds already. *)
Definition on_disk (st : EfsCache.CacheManager BlockFile) (T : Tree) : Prop :=
  holds image_fs image_area st T /\ durable image_fs image_area st T.

Lemma pack_apps_spec host rest : forall l st,
  on_disk st (pack_tree l) -> packable (l ++ rest) -> Forall (fun f => host f.1 = Some f.2) rest ->
  exists st', pack_apps host image_fs rest.*1 st = Ret st' /\ on_disk st' (pack_tree (l ++ rest)).
Proof.
  induction rest as [|[n d] rest IH]; intros l st Hon Hp Hh.
  { exists st. by rewrite app_nil_r. }
  apply Forall_cons in Hh as [Hnd Hh]. cbn [fst snd] in Hnd. rewrite (cons_middle (n, d) l rest), app_assoc in Hp |- *.
  pose proof (packable_prefix _ _ Hp) as Hp1. destruct Hon as [Hon _].
  destruct (fs_op_refines image_fs image_area image_geometry st (pack_tree l) (FsCreate n) _ _ Hon (spec_create_packed l n d Hp1))
    as (st1 & E1 & Hon1 & _).
  destruct (fs_op_refines image_fs image_area image_geometry st1 _ (FsWrite (Z.of_nat (length l) + 1) 0 d) _ _ Hon1 (spec_write_packed l n d Hp1))
    as (st2 & E2 & Hon2 & Hdur).
  destruct (IH (l ++ [(n, d)]) st2 (conj Hon2 (Hdur I)) Hp Hh) as (st' & E & Hon').
  exists st'. split; [|done]. cbn [fmap list_fmap fst pack_apps]. rewrite Hnd. cbn [unwrap mbind outcome_bind].
  cbn [map_op run_op map_result] in E1, E2. apply bind_Ret_inv in E1 as ([r st1'] & -> & E1). apply bind_Ret_inv in E2 as ([c st2'] & E2 & Ec).
  injection E1 as -> ->. cbn [fmap option_fmap option_map unwrap mbind outcome_bind]. rewrite E2. cbn [mbind outcome_bind].
  injection Ec as -> ->. exact E.
Qed.

(** [read_dir] lists the files of [l], each with an extension. *)
Definition listed (source : list (list Z)) l : Prop :=
  Forall2 (fun s f => (0x2e ∉ f.1) /\ exists ext, s = f.1 ++ 0x2e :: ext) source l.

Lemma app_names_listed source l : listed source l -> app_names source = Ret l.*1.
Proof.
  induction 1 as [|s f source l (Hn & ext & ->) _ IH]; [done|]. cbn [app_names]. unfold app_name.
  replace (list_find _ _) with (Some (length f.1, 0x2e)).
  2:{ symmetry. apply list_find_Some. split_and!; [by apply list_lookup_middle|done|]. intros j y Hj Hlt ->.
      rewrite lookup_app_l in Hj by done. apply Hn. by eapply list_elem_of_lookup_2. }
  cbn [unwrap mbind outcome_bind]. rewrite take_app_le, take_ge by lia. rewrite IH. done.
Qed.

(** The tool makes the image, and a board whose disk has its blocks opens it. *)
Lemma image_packed host old source l :
  Forall (in_width 8) old -> listed source l -> packable l -> Forall (fun f => host f.1 = Some f.2) l ->
  exists f, main host (Some old) source = Ret f /\
    forall (D : Type) (BD : BlockDevice D) (BL : BlockDeviceLaws D) (dev : D), dev_view dev = dev_view f ->
    exists st, Efs.open_ (EfsCache.manager_new dev) = Ret (image_fs, st) /\ holds image_fs image_area st (pack_tree l).
Proof.
  intros Hold Hl Hp Hh. unfold main, easy_fs_pack. set (f0 := mkFile _).
  destruct (mkfs_holds f0 (16 * 2048) 1 image_mkfs) as (st0 & -> & _ & H0 & H0d); [intros id Hid; apply (set_len_view old (16 * 2048)); [done|lia|done]|].
  cbn [mbind outcome_bind]. rewrite (app_names_listed _ _ Hl). cbn [mbind outcome_bind].
  destruct (pack_apps_spec host l [] st0 (conj H0 H0d) Hp Hh) as (st & E & _ & Hdur & Ht). cbn [app] in Hdur, Ht.
  change (layout_of (16 * 2048) 1) with image_fs. rewrite E. cbn [mbind outcome_bind unwrap]. eexists. split; [reflexivity|].
  intros D BD BL dev Hv. apply open_holds. split; [|done]. cbn [EfsCache.manager_new EfsCache.block_device]. by rewrite Hv.
Qed.

(** ** From the image to the first process *)

Import Mem PageTable MemorySet Task Kernel SyscallProcess Boot.

Lemma image_holds_initproc {D} {BD : BlockDevice D} {BL : BlockDeviceLaws D} read_fuel st l d :
  holds image_fs image_area st (pack_tree l) -> NoDup l.*1 -> (INITPROC_NAME, d) ∈ l ->
  Z.of_nat (length d) <= 512 * (Z.of_nat read_fuel - 1) -> Z.of_nat (length d) <= MAX_BLOCKS * 512 ->
  (0 < read_fuel)%nat -> holds_initproc read_fuel (image_fs, st) d.
Proof.
  intros Hh Hnd (i & Hi)%list_elem_of_lookup Hf Hmax H0 k Hk.
  pose proof (pack_tree_find l i _ d Hnd Hi) as Hfind. pose proof (pack_tree_contents l i _ d Hi) as Hc.
  set (h := Z.of_nat i + 1) in *. assert (Hks : kholds image_fs image_area k (pack_tree l)) by (by exists st).
  assert (Hs : spec_open image_fs image_area (pack_tree l) INITPROC_NAME RDONLY = Some (Some h, pack_tree l)).
  { unfold spec_open. change (encode_chars INITPROC_NAME) with INITPROC_NAME. by rewrite Hfind. }
  destruct (open_file_spec image_fs image_area image_geometry k _ _ _ _ _ Hks Hs) as (k1 & key & E1 & Hk1 & (-> & Ho & _) & _).
  assert (Hat : at_offset image_fs k1 (next_inode_key (k_io k)) h 0) by (eexists; rewrite Ho; split; [apply lookup_insert_eq|done]).
  destruct (read_all_spec image_fs image_area image_geometry read_fuel k1 _ _ h d 0 [] Hk1 Hc Hat) as (k2 & E2 & _);
    [lia|unfold MAX_BLOCKS in Hmax; lia|lia|lia|].
  exists k1, (next_inode_key (k_io k)), k2. split; [exact E1|exact E2].
Qed.

(** C4: from the files of the build to the first process.  The tool of
    [easy-fs-fuse] makes an image whatever the image file held, when the files
    it lists have distinct names that fit, are not empty and fit the disk; on
    any board whose disk has the blocks of that image, easy-fs opens, the
    kernel boots, and [initproc] runs with the program that was packed under
    its name in its memory. *)
Theorem packed_image_boots host old source l d ef (P : Platform) read_fuel (m : PhysMem) (t : Timer.Timer) (input : list Z) :
  let L := linker P in let lo := ekernel L / 4096 in
  Forall (in_width 8) old -> listed source l -> packable l -> Forall (fun f => host f.1 = Some f.2) l -> (INITPROC_NAME, d) ∈ l ->
  image_ok L -> stext L < etext L -> srodata L < erodata L -> sdata L < edata L -> Timer.timer_ok t -> image_fits P d ef ->
  kernel_tables L + 3 * seg_pages (load_phs (elf_program_headers ef)) + 18 <= 0x88000 - lo ->
  Forall (in_width 64) [sstatus_csr P; elf_entry_point ef; trap_handler_addr L] ->
  Z.of_nat (length d) <= 512 * (Z.of_nat read_fuel - 1) ->
  exists f, main host (Some old) source = Ret f /\
    forall (D : Type) (BD : BlockDevice D) (BL : BlockDeviceLaws D) (dev : D), dev_view dev = dev_view f ->
    exists fs k ms tcx k', Efs.open_ (EfsCache.manager_new dev) = Ret fs /\ rust_main P read_fuel m t fs input = Ret k /\
      kinv k /\ KernelMem.mem_inv lo L (kernel_base L) (kernel_areas L) k /\ first_task P k ms tcx d ef /\
      run_tasks_round k = Ret (Some k') /\ current_task k' = Some INITPROC.
Proof.
  intros L lo Hold Hl Hp Hh Hin Hi H1 H2 H3 Ht Hfit Hav Hwords Hf.
  destruct (image_packed host old source l Hold Hl Hp Hh) as (f & E & Hopen). exists f. split; [exact E|].
  intros D BD BL dev Hv. destruct (Hopen D BD BL dev Hv) as (st & Eo & Hst).
  assert (Hd : d <> [] /\ Z.of_nat (length d) <= MAX_BLOCKS * 512).
  { pose proof (proj1 (Forall_forall _ _) (pk_data l Hp) d) as H. destruct H as (? & ? & _); [|done]. apply list_elem_of_fmap. by exists (INITPROC_NAME, d). }
  destruct Hd as [Hd Hmax].
  destruct (fs_op_refines image_fs image_area image_geometry st (pack_tree l) FsLs _ _ Hst eq_refl) as (st1 & El & Hst1 & _).
  cbn [map_op run_op map_result] in El. apply bind_Ret_inv in El as ([names st1'] & El & En). injection En as -> ->.
  destruct (boot_ready_spec P read_fuel m t (image_fs, st) (image_fs, st1) (entries (pack_tree l)).*1 input d ef)
    as (k & ms & tcx & Eb & Hk & Hm & Hft & _ & k' & Er & Hc); try done.
  - cbn [fs_ls efs_file_system fst snd]. by rewrite El.
  - apply (image_holds_initproc read_fuel st1 l); [done|apply (pk_names l Hp)|done..|]. destruct read_fuel; [|lia].
    destruct d; [done|cbn in Hf; lia].
  - exists (image_fs, st), k, ms, tcx, k'. by split_and!.
Qed.
