(* ===== verification/MemoryExample.v ===== *)
(** * Address spaces at concrete states

    A one-segment program over 256 free frames: loaded, forked, dropped, and
    replaced by [exec] with two arguments; then the board booting with it as
    [initproc], which forks. *)
From S2P Require Import Prelude Utf8 IpcApi Quota Timer AuditLog AuditFacts Facade Address Allocators PageTable.
From S2P Require Import PageTableFacts UserAccess UserAccessFacts Pipe MemorySet MemorySetInv MemorySetSpec.
From S2P Require Import MemorySetFork FrameWorldInv KernelSpace Signals Task Kernel SyscallFs SignalHandling.
From S2P Require Import SyscallProcess SyscallAudit Trap KernelInv ProcessInv LifecycleInv TrapInv CallSpecs.
From S2P Require Import ExampleKernel SignalFacts Witnesses UserLib UserAbi AuditCtlKernel ExecArgs.
From S2P Require Import ExecSpec KernelMem SyscallMem ForkSpec LifecycleMem Isolation Boot EfsCache EfsVfs EfsSpec.
From S2P Require Import EfsDir EfsKernel FsPack.
Import Audit Address Mem PageTable MemorySet Signals UserAccess Task Kernel SyscallFs SyscallProcess.

(** ** The image *)

Definition mx_elf : list Z := [0x7f; 1; 2; 3; 4; 5].

Definition mx_program : ElfFile :=
  mkElf ELF_MAGIC [Some (mkPh (Some true) 0x10000 0x1800 1 5 true false true); Some (mkPh (Some false) 0 0 0 0 true true false)] 0x10000.

Definition mx_platform : Platform := mkPlatform (linker ex_platform) (fun _ => Some mx_program) 0x100.

Definition mx_world : FrameWorld := {| fw_mem := ∅; fw_alloc := Frames.mkFrames 0x80600 0x80700 [] |}.

Lemma mx_alloc_wf : Frames.wf 0x80600 (Frames.mkFrames 0x80600 0x80700 []).
Proof. unfold Frames.wf. cbn. split_and!; try lia; [apply NoDup_nil_2|constructor]. Qed.

Lemma mx_trampoline : trampoline_ok (linker mx_platform).
Proof. split; [split|]; by vm_compute. Qed.

Lemma mx_fits lo w :
  Frames.wf lo (fw_alloc w) -> 18 <= avail (fw_alloc w) ->
  elf_fits lo (linker mx_platform) (elf_reader mx_platform) w mx_elf mx_program.
Proof.
  intros Hw Hav. split; [done|apply mx_trampoline|done|done| |cbn; lia| |by vm_compute|].
  - repeat constructor; eexists _, _; by split.
  - cbn [load_phs mx_program elf_program_headers omap list_omap]. split; [|done].
    split; [split_and!; by vm_compute|by vm_compute|split_and!; by vm_compute].
  - change (seg_pages _) with 2. lia.
Qed.

Lemma from_elf_loads_program_witness :
  exists ms w', from_elf (linker mx_platform) (elf_reader mx_platform) mx_world mx_elf = Ret (ms, 0x15000, 0x10000, w') /\
    load (fw_mem w') (phys_of (fw_mem w') (page_table ms) 0x10004) = 5 /\
    load (fw_mem w') (phys_of (fw_mem w') (page_table ms) 0x10005) = 0 /\
    ~ user_byte_ok (fw_mem w') (page_table ms) true 0x10004 /\
    user_exec_ok (fw_mem w') (page_table ms) 0x10004 /\ ~ user_exec_ok (fw_mem w') (page_table ms) 0x14000.
Proof.
  destruct (from_elf_loads_program 0x80600 (linker mx_platform) (elf_reader mx_platform) mx_world mx_elf mx_program)
    as (ms & w' & E & H & Hstack & _); [apply mx_fits; [apply mx_alloc_wf|vm_compute; congruence]|].
  set (ph := mkPh (Some true) 0x10000 0x1800 1 5 true false true) in *.
  assert (Hin : ph ∈ load_phs (elf_program_headers mx_program)) by left.
  exists ms, w'. split; [exact E|].
  destruct (H ph 4 Hin) as (H4 & Hw & Hx); [vm_compute; split; congruence|].
  destruct (H ph 5 Hin) as (H5 & _); [vm_compute; split; congruence|].
  split_and!; [exact H4|exact H5| |by apply Hx|].
  - intros Hb. by apply (Hw true) in Hb.
  - destruct (Hstack 0x14000) as (_ & _ & Hn); [vm_compute; split; congruence|exact Hn].
Defined.

(** ** The space it gets *)

Definition mx_loaded := from_elf (linker mx_platform) (elf_reader mx_platform) mx_world mx_elf.

Lemma mx_space :
  exists ms w' lab, mx_loaded = Ret (ms, 0x15000, 0x10000, w') /\
    space_ok 0x80600 (user_base (linker mx_platform)) w' ms lab /\ below_trampoline (areas ms) /\
    regions_pages (area_region (fw_mem w') <$> areas ms) = 5 /\ avail (fw_alloc w') = 246.
Proof.
  destruct (from_elf_spec 0x80600 (linker mx_platform) (elf_reader mx_platform) mx_world mx_elf mx_program)
    as (ms & w' & lab & fs & E & Hsp & _); [apply mx_fits; [apply mx_alloc_wf|vm_compute; congruence]|].
  fold mx_loaded in E. exists ms, w', lab.
  assert (Hn : match mx_loaded with
               | Ret (ms, _, _, w) => (regions_pages (area_region ∅ <$> areas ms), avail (fw_alloc w))
               | _ => (0, 0) end = (5, 246)) by (vm_compute; reflexivity).
  rewrite E in Hn. injection Hn as Hr Ha.
  split_and!; [exact E|apply Hsp|by eapply space_at_below| |exact Ha].
  by rewrite (regions_pages_areas _ ∅).
Qed.

Lemma fork_copies_address_space_witness :
  exists src w dst w' a, from_existed_user (linker mx_platform) w src = Ret (dst, w') /\
    mapped src a /\ phys_of (fw_mem w') (page_table src) a <> phys_of (fw_mem w') (page_table dst) a /\
    load (fw_mem w') (phys_of (fw_mem w') (page_table dst) a) = load (fw_mem w) (phys_of (fw_mem w) (page_table src) a).
Proof.
  destruct mx_space as (ms & w & lab & E & Hok & Hb & Hr & Ha).
  destruct (fork_copies_address_space 0x80600 (linker mx_platform) w ms lab Hok Hb mx_trampoline) as (dst & w' & E' & _ & _ & Hm & Hc & _ & Hd & _);
    [rewrite Hr, Ha; lia|].
  assert (Hx : mapped ms 0x10004).
  { assert (Hn : match mx_loaded with Ret (ms, _, _, _) => existsb (fun ar => bool_decide (range_l (vpn_range ar) <= 0x10 < range_r (vpn_range ar))) (areas ms) | _ => false end = true)
      by (vm_compute; reflexivity).
    rewrite E in Hn. apply existsb_exists in Hn as (ar & Hin & Hc'). exists ar. split; [by apply list_elem_of_In|].
    by apply bool_decide_eq_true_1 in Hc'. }
  exists ms, w, dst, w', 0x10004. split_and!; [exact E'|exact Hx| |by apply Hc].
  apply Hd; [exact Hx|]. by apply Hm.
Defined.

Lemma address_space_frames_returned_witness :
  exists ms w w', drop_memory_set w ms = Ret w' /\ avail (fw_alloc w) = 246 /\ avail (fw_alloc w') = 256.
Proof.
  destruct mx_space as (ms & w & lab & E & Hok & _ & _ & Ha).
  destruct (address_space_frames_returned 0x80600 _ w ms lab Hok) as ((w' & E' & _ & _ & _ & Hav) & _).
  exists ms, w, w'. split_and!; [exact E'|exact Ha|]. rewrite Hav, Ha.
  assert (Hn : match mx_loaded with Ret (ms, _, _, _) => length (ms_frames ms) | _ => 0%nat end = 10%nat) by (vm_compute; reflexivity).
  rewrite E in Hn. by rewrite Hn.
Defined.

(** ** [exec] *)

Definition mx_task (ms : MemorySet) : TaskControlBlockInner := set_memory_set (ex_init Running) ms.
Definition mx_kernel (ms : MemorySet) (w : FrameWorld) : Kernel unit := put_task (set_fw ex_root w) 1 (mx_task ms).

Lemma mx_running ms w : running (mx_kernel ms w) 1 (mx_task ms).
Proof.
  assert (Hk : kinv (set_fw ex_root w)) by (destruct ex_root_running as [[H1 H2] _ _]; by split).
  split; [|done|apply lookup_insert_eq]. apply (kinv_put_same _ 1 (ex_init Running)); [exact Hk|apply ex_root_running|done..].
Qed.

Definition mx_args : list (list Z) := [[97; 98]; [120]].

Lemma exec_replaces_program_witness :
  exists k pid t k' t', tcb_exec mx_platform k pid mx_elf mx_args = Ret k' /\ k_tasks k' !! pid = Some t' /\
    (forall f, f ∈ ms_frames (memory_set t) -> ~ Frames.live 0x80600 (fw_alloc (k_fw k')) f) /\
    get_x (load_trap_cx (k_mem k') (trap_cx_ppn t')) 10 = 2 /\
    UserLib.start_args (M := process_machine mx_platform 5) 20 {| p_kernel := k'; p_turns := [] |} 0x14fe8 2 = Ret mx_args.
Proof.
  destruct mx_space as (ms & w & lab & E & Hok & _ & _ & Ha).
  assert (Hargs : Forall arg_ok mx_args).
  { repeat constructor; try (unfold in_width; lia); by apply (bool_decide_eq_true_1 _). }
  assert (Hw : Frames.wf 0x80600 (fw_alloc w)) by apply (fo_pt _ _ _ _ _ _ (so_frames _ _ _ _ _ Hok)).
  destruct (exec_replaces_program mx_platform 5 0x80600 _ lab (mx_kernel ms w) 1 (mx_task ms) mx_elf mx_program mx_args
              (mx_running ms w) Hargs Hok)
    as (k' & t' & E' & Hr & _ & Hg & (_ & _ & H10 & _) & Hs).
  - apply mx_fits; [exact Hw|]. change (k_fw _) with w. rewrite Ha. lia.
  - vm_compute. congruence.
  - apply ex_words. vm_compute. reflexivity.
  - exists (mx_kernel ms w), 1, (mx_task ms), k', t'. split_and!; [exact E'|apply Hr|exact Hg|exact H10|].
    apply (Hs [] 20%nat). vm_compute. reflexivity.
Defined.

(** ** Boot, [fork] and isolation on a concrete machine

    The board with the program of [MemoryExample] on its disk as [initproc]:
    the kernel boots, [initproc] runs, its pages are its own, and it forks. *)
Import Timer Audit Address Mem PageTable MemorySet Signals UserAccess Task Kernel SyscallFs SyscallProcess Trap Boot.

(** A disk with one file. *)
#[export] Instance disk_fs : FileSystem (list Z) := {|
  inode := unit;
  fs_find := fun d name => Ret (if bool_decide (name = INITPROC_NAME) then Some tt else None, d);
  fs_create := fun d _ => Ret (None, d);
  fs_clear := fun d _ => Ret [];
  fs_read_at := fun d _ off n => Ret (take (Z.to_nat n) (drop (Z.to_nat off) d), d);
  fs_write_at := fun d _ _ _ => Ret (0, d);
  fs_ls := fun d => Ret ([INITPROC_NAME], d);
|}.

Abbreviation ix_linker := (linker mx_platform).
Definition ix_timer : Timer := aw_timer ex_audit.

Lemma ix_image : image_ok ix_linker.
Proof.
  split.
  - vm_compute. congruence.
  - split_and!; vm_compute; congruence.
  - repeat constructor.
  - apply mx_trampoline.
Qed.

Lemma ix_frames : Frames.wf 0x80400 (init_frame_allocator ix_linker) /\ avail (init_frame_allocator ix_linker) = 0x7c00.
Proof. exact (init_frame_allocator_spec mx_platform ix_image). Qed.

Lemma ix_tables : kernel_tables ix_linker = 139.
Proof. vm_compute. reflexivity. Qed.

Lemma new_kernel_identity_witness :
  exists ms w', new_kernel ix_linker {| fw_mem := ∅; fw_alloc := init_frame_allocator ix_linker |} = Ret (ms, w') /\
    (exists pte, translate (fw_mem w') (page_table ms) 0x80200 = Some pte /\ frame_base (pte_ppn pte) = 0x80200000 /\ writable pte = false) /\
    remap_test ix_linker (fw_mem w') ms = Ret tt.
Proof.
  destruct ix_frames as [Hw Hav].
  destruct (new_kernel_identity 0x80400 ix_linker {| fw_mem := ∅; fw_alloc := init_frame_allocator ix_linker |} Hw ix_image)
    as (ms & w' & E & Hs & _ & Hr); [cbn [fw_alloc]; rewrite Hav, ix_tables; lia|by vm_compute..|].
  exists ms, w'. split; [exact E|]. split; [|exact Hr].
  destruct (Hs (mkSection 0x80200000 0x80210000 (Z.lor PERM_R PERM_X)) 0x80200010) as (pte & Et & Ef & Ea); [left|cbn; lia|].
  exists pte. split; [exact Et|]. split.
  - change (0x80200010 mod 4096) with 0x10 in Ea. lia.
  - unfold writable. by rewrite Ef.
Defined.

(** ** [initproc] *)

Lemma ix_disk : holds_initproc 3 (mx_elf : list Z) mx_elf.
Proof.
  intros k Hd. unfold open_file. cbn [read_write RDONLY]. rewrite Hd. cbn.
  eexists _, _, _. split; [reflexivity|]. unfold os_inode. cbn. rewrite lookup_insert_eq. cbn. rewrite lookup_insert_eq. reflexivity.
Qed.

Lemma ix_fits : image_fits mx_platform mx_elf mx_program.
Proof. intros w Hw Hav. by apply mx_fits. Qed.

Lemma ix_words : Forall (in_width 64) [sstatus_csr mx_platform; elf_entry_point mx_program; trap_handler_addr ix_linker].
Proof. apply ex_words. vm_compute. reflexivity. Qed.

Lemma ix_timer_ok : timer_ok ix_timer.
Proof. apply ex_audit_view. Qed.

Lemma boot_ready_witness :
  exists k ms tcx, rust_main mx_platform 3 ∅ ix_timer (mx_elf : list Z) [] = Ret k /\ kinv k /\
    load (k_mem k) (phys_of (k_mem k) (page_table ms) 0x10004) = 5 /\ sepc (load_trap_cx (k_mem k) tcx) = 0x10000 /\
    31500 <= avail (fw_alloc (k_fw k)).
Proof.
  destruct (boot_ready mx_platform 3 ∅ ix_timer (mx_elf : list Z) mx_elf [INITPROC_NAME] [] mx_elf mx_program) as (k & ms & tcx & E & Hk & _ & Hft & Hav & _);
    [exact ix_image|by vm_compute..|exact ix_timer_ok|reflexivity|exact ix_disk|exact ix_fits| |exact ix_words|].
  - rewrite ix_tables. vm_compute. congruence.
  - rewrite ix_tables in Hav. change (seg_pages _) with 2 in Hav. exists k, ms, tcx. split_and!; [exact E|exact Hk| | |].
    + destruct Hft as [_ _ _ _ Hpr _]. apply (Hpr (mkPh (Some true) 0x10000 0x1800 1 5 true false true) 4); [left|reflexivity|cbn; lia].
    + destruct Hft as [_ _ Hcx _ _ _]. rewrite Hcx. reflexivity.
    + change (0x88000 - ekernel ix_linker / 4096) with 0x7c00 in Hav. lia.
Defined.

(** ** The image on the disk *)

Import FsPack.

(** [initproc.rs] lists [initproc]; the image file did not exist. *)
Definition ix_files : list (list Z * list Z) := [(INITPROC_NAME, mx_elf)].
Definition ix_source : list (list Z) := [INITPROC_NAME ++ [0x2e; 0x72; 0x73]].
Definition ix_host (name : list Z) : option (list Z) := if bool_decide (name = INITPROC_NAME) then Some mx_elf else None.

Lemma ix_packable : packable ix_files.
Proof.
  split; [by apply (bool_decide_eq_true_1 _); vm_compute|by apply (bool_decide_eq_true_1 _); vm_compute| |reflexivity|vm_compute; discriminate].
  apply Forall_singleton. cbn [snd]. split; [done|]. split; [vm_compute; discriminate|by apply (bool_decide_eq_true_1 _); vm_compute].
Qed.

Lemma packed_image_boots_witness :
  exists f fs k ms tcx k', FsPack.main ix_host (Some []) ix_source = Ret f /\
    Efs.open_ (EfsCache.manager_new f) = Ret fs /\ rust_main mx_platform 3 ∅ ix_timer fs [] = Ret k /\
    load (k_mem k) (phys_of (k_mem k) (page_table ms) 0x10004) = 5 /\ sepc (load_trap_cx (k_mem k) tcx) = 0x10000 /\
    run_tasks_round k = Ret (Some k') /\ current_task k' = Some INITPROC.
Proof.
  destruct (packed_image_boots ix_host [] ix_source ix_files mx_elf mx_program mx_platform 3 ∅ ix_timer []) as (f & E & Hb);
    [constructor| |exact ix_packable|by apply Forall_singleton|left|exact ix_image|by vm_compute..|exact ix_timer_ok|exact ix_fits| |exact ix_words|by vm_compute|].
  - constructor; [|constructor]. split; [by apply (bool_decide_eq_true_1 _); vm_compute|]. exists [0x72; 0x73]. reflexivity.
  - rewrite ix_tables. vm_compute. congruence.
  - destruct (Hb FsPack.BlockFile _ _ f eq_refl) as (fs & k & ms & tcx & k' & Eo & Er & _ & _ & Hft & En & Hc).
    exists f, fs, k, ms, tcx, k'. split_and!; [exact E|exact Eo|exact Er| | |exact En|exact Hc].
    + destruct Hft as [_ _ _ _ Hpr _]. apply (Hpr (mkPh (Some true) 0x10000 0x1800 1 5 true false true) 4); [left|reflexivity|cbn; lia].
    + destruct Hft as [_ _ Hcx _ _ _]. rewrite Hcx. reflexivity.
Defined.

(** ** A kernel that has booted *)

Abbreviation ix_base := (kernel_base ix_linker).
Abbreviation ix_areas := (kernel_areas ix_linker).
Abbreviation ix_inv := (KernelMem.mem_inv 0x80400 ix_linker ix_base ix_areas).

Lemma ix_layout : kernel_layout ix_base ix_areas.
Proof. apply image_kernel_layout, ix_image. Qed.

Lemma ix_reads : reads_bounded disk_fs.
Proof. intros f i off n bs f' [= <- <-]. rewrite length_take. lia. Qed.

Lemma ix_booted :
  exists (k : Kernel (list Z)) ms tcx, kinv k /\ ix_inv k /\ first_task mx_platform k ms tcx mx_elf mx_program /\
    31500 <= avail (fw_alloc (k_fw k)).
Proof.
  destruct ix_frames as [Hw Hav].
  destruct (new_kernel_spec 0x80400 ix_linker {| fw_mem := ∅; fw_alloc := init_frame_allocator ix_linker |} Hw ix_image)
    as (ks & w & lab & _ & Hf & Ha & Hav'); [cbn [fw_alloc]; rewrite Hav, ix_tables; lia|].
  cbn [fw_alloc] in Hav'. rewrite Hav, ix_tables in Hav'.
  destruct (add_initproc_spec mx_platform 3 ix_base ix_areas
    (mkKernel (list Z) disk_fs w ks Pids.new static_sched {| AUDIT_RING := Audit.ring_new; aw_timer := ix_timer |} (static_io (mx_elf : list Z) [])) mx_elf mx_program)
    as (k & ms & tcx & _ & Hk & Hm & Hft & Hav3).
  - exact ix_layout.
  - split_and!; [done|done|]. exists []. split; [apply ring_repr_new|exact ix_timer_ok].
  - by exists lab.
  - exact ix_disk.
  - exact ix_fits.
  - cbn [k_fw]. change (seg_pages _) with 2. lia.
  - exact ix_words.
  - change (seg_pages _) with 2 in Hav3. cbn [k_fw] in Hav3. exists k, ms, tcx. split_and!; [done..|lia].
Qed.

(** [initproc] runs. *)
Lemma ix_running :
  exists (k k1 : Kernel (list Z)) t, kinv k /\ ix_inv k /\ mem_step mx_platform 3 0x80400 ix_base ix_areas k k1 /\
    running k1 INITPROC t /\ ix_inv k1 /\ program_in (k_mem k1) (page_table (memory_set t)) mx_elf mx_program /\
    PID_ALLOCATOR k1 = Pids.mkPids 2 [] /\ 31500 <= avail (fw_alloc (k_fw k1)) /\ task_pages k1 t = 5 /\
    trap_cx_wf (load_trap_cx (k_mem k1) (trap_cx_ppn t)).
Proof.
  destruct ix_booted as (k & ms & tcx & Hk & Hm & Hft & Hav).
  destruct (first_task_runs mx_platform k ms tcx mx_elf mx_program Hft) as (k1 & Er & Hc & Ht & Ew & Ep).
  pose proof Hft as [Hs Hp _ Hcx Hpr Hpg]. change (seg_pages _) with 2 in Hpg.
  assert (Hcur : current_task k = None) by (unfold current_task; by rewrite Hs).
  assert (Hk1 : kinv k1) by (by eapply kinv_run_round).
  match type of Ht with _ = Some ?u => exists k, k1, u end. unfold task_pages, k_mem in *.
  split_and!; [exact Hk|exact Hm|by apply mem_step_schedule|split; [exact Hk1|exact Hc|exact Ht]| | |by rewrite Ep, Hp|by rewrite Ew|..].
  - apply (mem_inv_inert 0x80400 ix_linker ix_base ix_areas k); [by apply inert_run_round|exact Hm].
  - rewrite Ew. exact Hpr.
  - rewrite Ew. exact Hpg.
  - rewrite Ew. exact Hcx.
Qed.

Lemma reachable_isolation_witness :
  exists (k0 k : Kernel (list Z)) t, mem_reachable mx_platform 3 0x80400 ix_base ix_areas k0 k /\
    k_tasks k !! INITPROC = Some t /\ load (k_mem k) (phys_of (k_mem k) (page_table (memory_set t)) 0x10004) = 5 /\
    private_to 0x80400 k INITPROC (phys_of (k_mem k) (page_table (memory_set t)) 0x10004).
Proof.
  destruct ix_running as (k & k1 & t & Hk & Hm & Hst & Hrun & _ & Hpr & _).
  assert (Hr : mem_reachable mx_platform 3 0x80400 ix_base ix_areas k k1) by (eapply mem_more; [apply mem_refl|exact Hst]).
  destruct (Hpr (mkPh (Some true) 0x10000 0x1800 1 5 true false true) 4) as [Hb Hu]; [left|reflexivity|cbn; lia|].
  exists k, k1, t. split; [exact Hr|]. split; [apply Hrun|]. split; [exact Hb|].
  apply (reachable_isolation mx_platform 3 0x80400 ix_base ix_areas ix_layout mx_trampoline ix_reads k k1 INITPROC t 0x10004 false Hk Hm Hr); [apply Hrun| |lia|by apply (Hu false)].
  destruct Hrun as [Hk1 Hc Ht]. apply (kinv_current k1 INITPROC t Hk1 Hc Ht).
Defined.

Lemma get_set_x cx i v : length (cx_x cx) = 32%nat -> 0 <= i < 32 -> get_x (set_x cx i v) i = v.
Proof. intros Hl Hi. unfold get_x, set_x. cbn. rewrite nth_lookup, list_lookup_insert_eq by lia. done. Qed.

(** It makes the system call [fork]. *)
Lemma fork_returns_twice_witness :
  exists (k : Kernel (list Z)) k' t child, handle_ecall mx_platform 3 k [] = Ret (k', Returned 2) /\
    get_x (load_trap_cx (k_mem k') (trap_cx_ppn t)) 10 = 2 /\ get_x (load_trap_cx (k_mem k') (trap_cx_ppn child)) 10 = 0 /\ ix_inv k'.
Proof.
  destruct ix_running as (k0 & k1 & t & _ & _ & _ & Hrun & Hm & _ & Hp & Hav & Hpg & Hcx).
  set (cx := set_x (load_trap_cx (k_mem k1) (trap_cx_ppn t)) 17 SYSCALL_FORK).
  assert (Hcx1 : trap_cx_wf cx) by (apply trap_cx_wf_set_x; [exact Hcx|by vm_compute]).
  set (k := stepped k1 t cx).
  assert (El : load_trap_cx (k_mem k) (trap_cx_ppn t) = cx) by (by apply (load_store_trap_cx (k_mem k1))).
  assert (Hr : fork_ready mx_platform 0x80400 ix_base ix_areas k INITPROC t).
  { split; [by apply running_set_mem|by apply (mem_inv_stepped mx_platform 0x80400 ix_base ix_areas k1 INITPROC); [| |apply Hcx1]| |].
    - change (PID_ALLOCATOR k) with (PID_ALLOCATOR k1). rewrite Hp. cbn. lia.
    - assert (Epg : task_pages k t = task_pages k1 t) by (unfold task_pages; by rewrite (regions_pages_areas _ (k_mem k1))).
      rewrite Epg, Hpg. change (fw_alloc (k_fw k)) with (fw_alloc (k_fw k1)). lia. }
  assert (En : next_pid k = 2) by (unfold next_pid; change (PID_ALLOCATOR k) with (PID_ALLOCATOR k1); by rewrite Hp).
  destruct (fork_returns_twice mx_platform 0x80400 ix_base ix_areas ix_layout mx_trampoline 3 k INITPROC t [] Hr) as (k2 & child & _ & E & Hm' & Ep & Ec);
    [by rewrite El|rewrite El; apply get_set_x; [apply Hcx|done]|].
  rewrite En in *. eexists k, _, t, child. split; [exact E|]. rewrite Ep, Ec. split_and!; [..|exact Hm'].
  - apply get_set_x; [|done]. rewrite El. apply Hcx1.
  - apply get_set_x; [|done]. rewrite El. apply Hcx1.
Defined.
